(* ===== verification/_CoqProject ===== *)
-Q . S2P
Prelude.v
Params.v
Primality.v
Field.v
Points.v
Transcript.v
Elgamal.v
Schnorr.v
Proofs.v
Recovery.v
Dkg.v
Types.v
Config.v
Ballot.v
Admission.v
Aggregation.v
Codecs.v
WriteAuth.v
Quorum.v
DataLayer.v
DataLayerSafety.v
Postgres.v
Jsonb.v
Port.v
Gateway.v
Keyper.v
Tally.v
PostgresRefines.v
Auditor.v
Election.v
ElectionAudit.v
Eligibility.v
Bootstrap.v
Http.v
KeyperServer.v
KeyperSafety.v
KeyperCeremony.v
HttpPort.v
Relay.v
Coordinator.v
CoordinatorSteps.v
CoordinatorSafety.v
CoordinatorCeremony.v
CoordinatorRetry.v
CoordinatorExample.v
Handshake.v
DkgDriver.v
Json.v
JsonText.v
StateDir.v
TokenFile.v
Admin.v
Api.v
Wiring.v
Vectors.v
Fixture.v
Contract.v
ContractSafety.v
Chain.v
ChainSafety.v
