(* ===== verification/Prelude.v ===== *)
(** * The Shutter Governance Protocol, verified

    The program (Python package shutter_governance_protocol) runs elections with
    encrypted ballots.  A committee of keypers generates a joint key by Feldman
    verifiable secret sharing; voters hold credentials of an eligibility service
    and submit exponential-ElGamal ballots with zero-knowledge validity proofs
    through a gateway; after voting each keyper re-derives the admitted set and
    the homomorphic aggregate from the ordered ballots, a quorum of identical
    aggregates is canonical, a quorum of partial decryptions opens it, and an
    auditor recomputes everything from public data.  A data layer (in memory, a
    database, or a contract registry) stores the artifacts and checks who signed
    them.  A coordinator triggers the phases and holds no secrets.

    ** Files and what they model (paths under src/shutter_governance_protocol)

    - [Prelude]: the error monad [result] with one constructor per exception the
      code raises, bytes and integers at their width, ordered dictionaries, the
      tactics and hint databases.
    - [Params], [Primality], [Field]: crypto/params.py; the scalar order is proved
      prime by a Pocklington certificate, and scalars form a field.
    - [Points], [Transcript], [Elgamal], [Schnorr], [Proofs], [Recovery], [Dkg]:
      the files of crypto/ of those names, and crypto/attestation.py in
      [Schnorr].  The curve library and keccak are the class [Crypto] with the
      laws [CryptoLaws]; [concrete_crypto] is an instance.
    - [Types], [Config]: envelopes/types.py, core/config.py, core/state.py.
    - [Ballot], [Admission], [Aggregation]: crypto/ballot.py, core/admission.py
      with ports/eligibility.py, core/aggregation.py.
    - [Codecs], [WriteAuth], [Quorum]: envelopes/codecs.py, core/authz.py and
      core/write_auth.py, core/quorum.py.
    - [DataLayer], [DataLayerSafety]: ports/data_layer.py and adapters/memory.py,
      and the contract of the port as an invariant of a step relation.
    - [Postgres], [Jsonb], [PostgresRefines]: adapters/db/store.py and schema.py,
      and the simulation by the in-memory reference.
    - [Port]: the port as the class [DataLayer] with laws, instantiated by both
      adapters; services/common/reads.py.
    - [Gateway], [Keyper], [Tally], [Auditor], [Eligibility]: the services of
      those names and services/tally_aggregator, proved over any data layer.
    - [Election], [ElectionAudit]: no code of their own; the ceremony, the keypers,
      the driver and the auditor put together over the in-memory data layer.
    - [Bootstrap], [KeyperServer], [KeyperSafety], [KeyperCeremony]: the deployed
      keyper: services/keyper/keyper_bootstrap.py, keyper_server.py and
      keyper_persistence.py, services/common/auth.py.  A request handler is a
      computation over the process, its outgoing messages and the data layer.
    - [Http], [HttpPort], [Relay]: the port over HTTP, that is
      services/data_layer/data_layer.py around any adapter and the client
      adapters/db/client.py, itself an instance of the port; the write relay of
      services/coordinator/coordinator.py with the keypers' client of it.
    - [Coordinator], [CoordinatorSteps], [CoordinatorSafety],
      [CoordinatorCeremony], [CoordinatorRetry], [CoordinatorExample]:
      the watcher of services/coordinator/coordinator.py, the ceremony of
      dkg_coordinator.py and services/common/token_store.py, as computations
      over the watcher's state and the class [Outside] (keypers, data layer,
      clocks, randomness), which may change between any two accesses.
    - [Handshake]: coordinator and keyper server together; [DkgDriver]: the
      in-process ceremony of dkg_coordinator.py.
    - [Json], [JsonText]: [json.loads] and [json.dumps] as the services use them,
      and that reading what was written gives it back.
    - [StateDir], [TokenFile]: the encrypted state directories of
      keyper_persistence.py and services/common/token_store.py, as sequences of
      file operations that may stop anywhere, and the start of a keyper in one.
    - [Admin], [Api]: services/admin/admin.py and services/api/api.py, over any
      data layer, with their theorems over the in-memory one.
    - [Wiring]: services/common/backend.py, the main functions of the services as
      functions of the environment, scripts/gen_deploy_env.py (in src/), and the
      environment blocks of the compose files of deploy/ (in src/).
    - [Vectors], [Fixture]: scripts/gen_vectors.py, the conformance vectors and the
      full-election fixture.
    - [Contract], [ContractSafety]: the bulletin-board contracts of
      src/contracts/src (keyper set, registry, election) as transactions that
      revert or change the state, with their invariants over arbitrary
      transactions of anybody; [Chain], [ChainSafety]: adapters/chain/codec.py
      and client.py over them, where a list of foreign transactions ([between])
      is mined before each of the adapter's own.

    ** What the theorems show

    - Cryptography: the sigma proofs are complete and specially sound, ballots
      built honestly are accepted, the codec of their proofs gives each proof
      back, any quorum of keypers that hold a share of every dealer decrypts,
      and baby-step giant-step decides the discrete logarithm within its bound.
    - Counting: admission computes its specification, one ballot per pseudonym
      and no replays (under both duplicate policies); published totals are the
      weighted sums of the admitted votes; the result checker accepts exactly what recovery would return.
    - Storage: every reachable store satisfies the contract of the port, history
      is append-only, a key is final exactly when a quorum submitted it, signed
      requests are single-use, two writes have one digest exactly when they say
      the same (if the texts hashed for them do not collide), and the database
      adapter refines the in-memory one.
    - Services: the gateway stores only ballots the tally would admit, a keyper
      gives a decryption share, one entry per ciphertext of the canonical
      aggregate, only after voting closed or once a result is published, and a
      clean audit is sound.
    - The whole election: from a key of a ceremony and encrypted votes, honest
      quorums of keypers and the driver publish exactly the weighted votes,
      whatever aggregates and shares others submit, and the audit is clean.
    - Keyper process: shares go only to the recipient that accused, stored
      shares change only as the protocol allows, one aggregation runs at a time,
      what a dealer posts is what its peer stores, and a keyper stopped anywhere,
      in the middle of a write too, starts again with its keys and shares.
    - HTTP: a client and the service around an adapter behave as the adapter
      itself, up to the limits on pages and bodies and the kinds of exceptions;
      the same for writes through the relay.
    - Coordinator: whatever keypers answer, a scan reaches every election,
      finished elections are left alone, credentials are never replaced, no
      decryption is asked for before the canonical aggregate, the repair loop is
      bounded and one readable complaint is no veto; back-off and tally budget
      are exact; a keyper installs exactly the bundle the coordinator sealed for it.
    - Outside access: the administrator's service grants exactly what the data
      layer grants its administrator, and a cancelled election stays cancelled;
      the public API reads every id form back, loses nothing when it shows ids
      in decimal, its pages cover every row, and a 200 of the ballot route means
      the ballot is stored and shown.
    - Chain: whatever transactions anybody sends, a final key and a canonical
      aggregate stand on a quorum of distinct members of the keyper set, more
      than half of them for the sets of KeyperSet.sol; ballots read back are
      those submitted, a configuration exactly when it has one gateway key and
      its sender is its administrator; resending a key is refused exactly when
      it should be; an undecodable credential stops all later reads.
    - Deployment: services started on the generated files hold keys, addresses,
      URLs, ports and tokens that fit together, under the environment blocks of
      the compose files; the conformance vectors carry the verdicts of the code, and the fixture replays to the totals 1, 10, 7.
    - Several theorems state a fault of the code; they are marked as such.

    ** Conventions, bounds and fuel

    Python integers are [Z], bytes are lists of bytes, text is the [string] of
    its UTF-8 bytes, a dict is an association list in insertion order.
    Randomness, clock readings (one per call of the source) and the outcome of
    network calls are arguments.  Loops over lists are folds; the two loops that
    are not (paging in [Port], the backward scan in [Gateway]) take fuel that is
    proved enough: the number of reported ballots, and the scan limit.  The
    repair loop of a ceremony is bounded by the code's own constant, and the
    poll loop of the coordinator is run for any number of polls.

    ** Parameters

    The curve library and keccak ([Crypto]), eth_account ([EthAccount]), the ABI
    encoder ([Abi]), X25519, HKDF and AES-GCM ([SealPrimitives]), HMAC and EIP-712
    encoding ([Eligibility]), Fernet ([Fernet]), the keys of accounts
    ([EthKeys]), what Postgres returns from a jsonb column and the
    order of unordered rows ([Postgres]), [float.__repr__] and [repr] of
    containers, the reading of decimal fractions in JSON ([Json]), the
    expansion of names by docker compose ([Wiring]) and the text web3 gives a
    revert ([Chain]).  Each class of laws has an instance.

    Keccak is a function to 32 bytes and has collisions.  Where a theorem needs
    that there is none, it says so of the texts at hand: [WriteAuth.coll_free]
    of a list of texts, which can be decided, and which the witnesses compute.
    Nothing is assumed of how the curve library reads an encoding that it does
    not write itself.

    ** Not modelled

    Gas, fees, receipts and the later changes of roles of the contracts, keyper
    sets whose answers change after an election is published (a set is a fixed
    list of members with a threshold, by [KeyperSet.sol] or any other contract
    that answers alike), the refusals of ECDSA.recover beyond those of the
    off-chain recovery (more signatures pass in the model), an aggregate digest
    of 32 zero bytes, which the contract takes for none, the
    lookup of bytecode (adapters/chain/deploy.py), the call of a token contract
    in adapters/voting_power.py (its answer is a parameter), the abstract
    interface ports/keyper_p2p.py, URL routing, CORS and rate limits, writes that
    the operating system loses after they returned, logging, the frontend, the
    sample scripts and benchmarks.  Concurrency is
    modelled where the code relies on it: the aggregation worker of the keyper
    interleaves with its requests, and database operations are transactions. *)

From Stdlib Require Export ZArith Lia String Strings.Byte Bool Zdivisibility Zcong.
From stdpp Require Export base tactics list list_monad gmap strings pretty sorting.

#[global] Open Scope Z_scope.

(** * Automation shared by the whole library

    [bytes_db] holds the length and inversion facts about byte strings that
    [auto] may use, [bytes_rw] and [res_rw] are the rewriting rules on byte
    strings and on the error monad. *)

Create HintDb bytes_db discriminated.
Create Rewrite HintDb bytes_rw.
Create Rewrite HintDb res_rw.

(** * Python exceptions and the error monad

    Every function of the source that can raise is a function into [result].
    [exn] has one constructor per exception class the modelled code raises;
    the constructors that carry data are those whose data the code reads back
    (the [bad_dealers] attribute, the reason of a gateway rejection). *)

Inductive exn : Type :=
| ValueError
| DealerFault (bad_dealers : list Z)  (* ValueError with a bad_dealers attribute *)
| CodecError                          (* a ValueError *)
| OverflowError
| IndexError
| KeyError
| TypeError
| AttributeError
| DatabaseError
| InvalidTag                          (* of an authenticated decryption *)
| HTTPException (code : Z)            (* abort(code); an HTTPError of [requests] *)
| RequestException                    (* no response *)
| DKGComplaint                        (* a RuntimeError *)
| RuntimeError
| WriteAuthorizationError
| ImmutabilityError
| VotingWindowError
| QuorumConflictError
| TallyInfeasible
| TallyError
| KeyperRefusal
| IncompleteBallotRead
| GatewayRejection (reason : string)  (* a ValueError *)
| EligibilityError                    (* a ValueError *)
| NotEligible                         (* a ValueError *)
| PreScaleAggregate                   (* a ValueError *)
| RegistrationError (code : string)   (* a ValueError *)
| FileNotFoundError                   (* an OSError *)
| SystemExit.                         (* ends a program; only main functions raise it *)

(** [isinstance(err, ValueError)]: what [except ValueError] catches. *)
Definition is_value_error (e : exn) : bool :=
  match e with
  | ValueError | DealerFault _ | CodecError | GatewayRejection _ | EligibilityError
  | NotEligible | PreScaleAggregate | RegistrationError _ => true
  | _ => false
  end.

Inductive result (A : Type) : Type :=
| Ok (a : A)
| Err (e : exn).
Arguments Ok {A} a.
Arguments Err {A} e.

#[global] Instance result_ret : MRet result := @Ok.
#[global] Instance result_bind : MBind result :=
  λ A B f m, match m with Ok a => f a | Err e => Err e end.
#[global] Instance result_fmap : FMap result :=
  λ A B f m, match m with Ok a => Ok (f a) | Err e => Err e end.

#[global] Instance exn_eq_dec : EqDecision exn.
Proof. solve_decision. Defined.
#[global] Instance result_eq_dec `{EqDecision A} : EqDecision (result A).
Proof. solve_decision. Defined.

(** [if c: raise e]. *)
Definition raise_if (c : bool) (e : exn) : result unit :=
  if c then Err e else Ok tt.

(** [try: m  except Exception: d]. *)
Definition try_or {A} (m : result A) (d : A) : A :=
  match m with Ok a => a | Err _ => d end.

Definition is_ok {A} (m : result A) : bool :=
  match m with Ok _ => true | Err _ => false end.

Lemma Ok_inj {A} (a b : A) : Ok a = Ok b → a = b.
Proof. congruence. Qed.
Lemma bind_Ok {A B} (f : A → result B) a : (Ok a ≫= f) = f a.
Proof. reflexivity. Qed.
Lemma bind_Err {A B} (f : A → result B) e : (Err e ≫= f) = Err e.
Proof. reflexivity. Qed.
#[export] Hint Rewrite @bind_Ok @bind_Err : res_rw.

Lemma bind_Ok_inv {A B} (m : result A) (f : A → result B) b :
  (m ≫= f) = Ok b → ∃ a, m = Ok a ∧ f a = Ok b.
Proof. destruct m; [eauto | discriminate]. Qed.

Lemma raise_if_Ok c e u : raise_if c e = Ok u → c = false.
Proof. by destruct c. Qed.

(** Splits every [m ≫= f = Ok b] and every [raise_if _ _ = Ok _] of the
    context into the facts about its steps. *)
Ltac inv_ok :=
  repeat match goal with
  | H : mret ?x = Ok ?y |- _ => change (Ok x = Ok y) in H
  | H : Ok _ = Ok _ |- _ => apply (f_equal (λ r, match r with Ok x => Some x | _ => None end)) in H;
                            injection H; clear H; intros
  | H : Err _ = Ok _ |- _ => discriminate H
  | H : raise_if _ _ = Ok _ |- _ => apply raise_if_Ok in H
  | H : mbind _ _ = Ok _ |- _ =>
      let a := fresh "v" in let Ha := fresh "Hv" in
      apply bind_Ok_inv in H as (a & Ha & H); cbn beta in H
  end.

Lemma mapM_Ok {A B} (f : A → result B) l k :
  mapM f l = Ok k ↔ Forall2 (λ x y, f x = Ok y) l k.
Proof.
  split.
  - revert k. induction l as [|x l IH]; intros k H; cbn in H.
    + inv_ok. subst. constructor.
    + inv_ok. subst. constructor; auto.
  - induction 1 as [|x y l k Hxy _ IH]; [reflexivity|].
    cbn. rewrite Hxy. cbn. rewrite IH. reflexivity.
Qed.

Lemma mapM_fmap_Ok {A B} (f : A → result B) (g : A → B) l :
  (∀ x, x ∈ l → f x = Ok (g x)) → mapM f l = Ok (g <$> l).
Proof.
  intros H. apply mapM_Ok. apply Forall2_fmap_r, Forall_Forall2_diag, Forall_forall, H.
Qed.

(** A loop [for x in l: s = body(s, x)] whose body may raise. *)
Fixpoint foldM {S A} (body : S → A → result S) (l : list A) (s : S) : result S :=
  match l with
  | [] => Ok s
  | x :: l => s' ← body s x; foldM body l s'
  end.

Lemma foldM_app {S A} (body : S → A → result S) l k s :
  foldM body (l ++ k) s = (s' ← foldM body l s; foldM body k s').
Proof.
  revert s. induction l as [|x l IH]; intros s; [reflexivity|].
  cbn. destruct (body s x); cbn; [apply IH | reflexivity].
Qed.

(** * Byte strings

    Python [bytes] are lists of bytes; integers are [Z]; a conversion that
    Python refuses raises here too. *)

Abbreviation bytes := (list Byte.byte).

(** [len(b)] *)
Definition len {A} (l : list A) : Z := Z.of_nat (length l).

Definition byte_val (b : Byte.byte) : Z := Z.of_N (Byte.to_N b).

Definition byte_of (n : Z) : Byte.byte :=
  match Byte.of_N (Z.to_N (n mod 256)) with Some b => b | None => Byte.x00 end.

#[global] Instance byte_eq_dec : EqDecision Byte.byte := Byte.byte_eq_dec.
#[global] Instance byte_countable : Countable Byte.byte.
Proof.
  refine (inj_countable Byte.to_N Byte.of_N _). intros b. apply Byte.of_to_N.
Defined.

(** [int.from_bytes(b, "big")] *)
Definition from_bytes_be (b : bytes) : Z :=
  foldl (λ acc x, acc * 256 + byte_val x) 0 b.

(** The [k] big-endian bytes of [n mod 256^k]. *)
Fixpoint be_bytes (k : nat) (n : Z) : bytes :=
  match k with
  | O => []
  | S k => be_bytes k (n / 256) ++ [byte_of n]
  end.

(** [n.to_bytes(k, "big")]: raises [OverflowError] outside [0, 256^k). *)
Definition to_bytes_be (n : Z) (k : nat) : result bytes :=
  if (n <? 0) || (256 ^ Z.of_nat k <=? n) then Err OverflowError else Ok (be_bytes k n).

(** [b[i:j]] for [0 <= i <= j]. *)
Definition slice {A} (i j : nat) (b : list A) : list A := take (j - i) (drop i b).

(** [s.encode("utf-8")]: a Python string is modelled by the [string] of its
    UTF-8 bytes. *)
Definition encode_utf8 (s : string) : bytes := String.list_byte_of_string s.

Arguments encode_utf8 : simpl never.

(** [str(n)] of a non-negative integer. *)
Definition str_int (n : Z) : string := pretty (Z.to_N n).

Lemma byte_val_range b : 0 <= byte_val b < 256.
Proof. unfold byte_val. pose proof (Byte.to_N_bounded b). lia. Qed.

Lemma byte_val_of n : byte_val (byte_of n) = n mod 256.
Proof.
  unfold byte_val, byte_of. pose proof (Z.mod_pos_bound n 256 ltac:(lia)).
  destruct (Byte.of_N _) as [b|] eqn:E.
  - apply Byte.to_of_N in E. rewrite E. lia.
  - apply Byte.of_N_None_iff in E. lia.
Qed.

Lemma byte_val_inj b c : byte_val b = byte_val c → b = c.
Proof.
  unfold byte_val. intros H%N2Z.inj.
  pose proof (Byte.of_to_N b) as Hb. rewrite H, Byte.of_to_N in Hb. congruence.
Qed.

Lemma byte_of_val b : byte_of (byte_val b) = b.
Proof.
  apply byte_val_inj. rewrite byte_val_of. apply Z.mod_small, byte_val_range.
Qed.

Lemma from_bytes_snoc l b : from_bytes_be (l ++ [b]) = from_bytes_be l * 256 + byte_val b.
Proof. unfold from_bytes_be. by rewrite foldl_app. Qed.

Lemma length_be_bytes k n : length (be_bytes k n) = k.
Proof. revert n. induction k as [|k IH]; intros n; cbn; [done|]. rewrite length_app, IH. cbn. lia. Qed.
#[export] Hint Rewrite length_be_bytes : bytes_rw.

Lemma pow256_S k : 256 ^ Z.of_nat (S k) = 256 ^ Z.of_nat k * 256.
Proof. rewrite Nat2Z.inj_succ, Z.pow_succ_r by lia. lia. Qed.

Lemma from_be_bytes k n : from_bytes_be (be_bytes k n) = n mod 256 ^ Z.of_nat k.
Proof.
  revert n. induction k as [|k IH]; intros n; cbn [be_bytes].
  - by rewrite Z.mod_1_r.
  - rewrite from_bytes_snoc, IH, byte_val_of, pow256_S, (Z.mul_comm (256 ^ _)).
    rewrite Z.rem_mul_r by lia. lia.
Qed.

Lemma from_bytes_range b : 0 <= from_bytes_be b < 256 ^ len b.
Proof.
  unfold len. induction b as [|x b IH] using rev_ind; [cbn; lia|].
  rewrite from_bytes_snoc, length_app. cbn [length].
  replace (length b + 1)%nat with (S (length b)) by lia.
  rewrite pow256_S. pose proof (byte_val_range x). lia.
Qed.

Lemma be_bytes_from b : be_bytes (length b) (from_bytes_be b) = b.
Proof.
  induction b as [|x b IH] using rev_ind; [done|].
  rewrite from_bytes_snoc, length_app. cbn [length].
  replace (length b + 1)%nat with (S (length b)) by lia. cbn [be_bytes].
  pose proof (byte_val_range x).
  rewrite Z.div_add_l, (Z.div_small (byte_val x)), Z.add_0_r, IH by lia.
  do 2 f_equal. apply byte_val_inj.
  rewrite byte_val_of, Z.add_comm, Z_mod_plus_full. by apply Z.mod_small.
Qed.

Lemma from_bytes_inj a b : length a = length b → from_bytes_be a = from_bytes_be b → a = b.
Proof. intros Hl H. rewrite <- (be_bytes_from a), <- (be_bytes_from b). congruence. Qed.

Lemma to_bytes_be_Ok n k b :
  to_bytes_be n k = Ok b ↔ (0 <= n < 256 ^ Z.of_nat k ∧ b = be_bytes k n).
Proof.
  unfold to_bytes_be. destruct (Z.ltb_spec n 0), (Z.leb_spec (256 ^ Z.of_nat k) n); cbn;
    split; intros H'; try (destruct H'; lia); inv_ok; subst; try done; try lia.
  destruct H' as [_ ->]. done.
Qed.

Lemma to_bytes_be_small n k : 0 <= n < 256 ^ Z.of_nat k → to_bytes_be n k = Ok (be_bytes k n).
Proof. intros. by apply to_bytes_be_Ok. Qed.

Lemma to_bytes_be_inj n m k b : to_bytes_be n k = Ok b → to_bytes_be m k = Ok b → n = m.
Proof.
  intros [Hn ->]%to_bytes_be_Ok [Hm H]%to_bytes_be_Ok.
  apply (f_equal from_bytes_be) in H. rewrite !from_be_bytes, !Z.mod_small in H by done. done.
Qed.

Lemma to_bytes_be_length n k b : to_bytes_be n k = Ok b → length b = k.
Proof. intros [_ ->]%to_bytes_be_Ok. apply length_be_bytes. Qed.

Lemma from_to_bytes_be n k b : to_bytes_be n k = Ok b → from_bytes_be b = n.
Proof. intros [H ->]%to_bytes_be_Ok. rewrite from_be_bytes. by apply Z.mod_small. Qed.

Lemma encode_utf8_inj s s' : encode_utf8 s = encode_utf8 s' → s = s'.
Proof.
  unfold encode_utf8. intros H%(f_equal String.string_of_list_byte).
  by rewrite !String.string_of_list_byte_of_string in H.
Qed.

Lemma encode_utf8_length s : length (encode_utf8 s) = String.length s.
Proof.
  unfold encode_utf8, String.list_byte_of_string.
  rewrite length_map. induction s; cbn; congruence.
Qed.

(** The decimal form of [n] has at most [n + 1] digits. *)
Lemma pretty_N_go_length x s : (String.length (pretty_N_go x s) <= N.to_nat x + String.length s)%nat.
Proof.
  revert s. induction (N.lt_wf_0 x) as [x _ IH]; intros s.
  destruct (decide (0 < x)%N) as [Hx|Hx].
  - rewrite pretty_N_go_step by done. specialize (IH (x `div` 10)%N).
    assert (Hd : (x `div` 10 < x)%N) by (by apply N.div_lt).
    etransitivity; [apply IH, Hd|]. cbn [String.length]. lia.
  - assert (x = 0%N) as -> by lia. by rewrite pretty_N_go_0.
Qed.

Lemma str_int_length n : 0 <= n → Z.of_nat (String.length (str_int n)) <= n + 1.
Proof.
  intros Hn. unfold str_int, pretty, pretty_N. case_decide as E; [cbn; lia|].
  pose proof (pretty_N_go_length (Z.to_N n) "") as Hl. cbn [String.length] in Hl. lia.
Qed.

Lemma len_nonneg {A} (l : list A) : 0 <= len l.
Proof. unfold len. lia. Qed.
Lemma len_app {A} (l k : list A) : len (l ++ k) = len l + len k.
Proof. unfold len. rewrite length_app. lia. Qed.
Lemma len_nil_inv {A} (l : list A) : len l = 0 → l = [].
Proof. unfold len. destruct l; cbn; [done | lia]. Qed.
#[export] Hint Rewrite @len_app : bytes_rw.

(** Slicing a buffer at the boundary of two concatenated pieces. *)
Lemma slice_app_exact {A} (a b c : list A) (i j : nat) :
  length a = i → (i + length b)%nat = j → slice i j (a ++ b ++ c) = b.
Proof.
  intros <- <-. unfold slice.
  rewrite drop_app_length, take_app_le by lia.
  replace (length a + length b - length a)%nat with (length b) by lia.
  apply take_ge; lia.
Qed.

(** * Integer sums: [sum(l)], [sum(f(x) for x in l)] *)

Definition zsum (l : list Z) : Z := foldr Z.add 0 l.
Abbreviation zsum_with f l := (zsum (f <$> l)).

Lemma zsum_cons x l : zsum (x :: l) = x + zsum l.
Proof. done. Qed.
Lemma zsum_app l k : zsum (l ++ k) = zsum l + zsum k.
Proof. unfold zsum. induction l as [|x l IH]; cbn; [done|]. rewrite IH. lia. Qed.

Lemma zsum_nonneg l : Forall (λ x, 0 <= x) l → 0 <= zsum l.
Proof. unfold zsum. induction 1; cbn; lia. Qed.

Lemma zsum_Permutation l k : l ≡ₚ k → zsum l = zsum k.
Proof. unfold zsum. induction 1; cbn; lia. Qed.

(** Replacing entry [i]: the sum of the others plus the new entry. *)
Lemma zsum_imap_alter {A} (f : A → Z) (g : A → A) (l : list A) i x : l !! i = Some x →
  zsum (f <$> alter g i l) =
  zsum (imap (λ j b, if decide (j = i) then 0 else f b) l) + f (g x).
Proof.
  revert i. induction l as [|y l IH]; intros [|i] Hx; cbn in Hx; simplify_eq.
  - cbn. change (foldr Z.add 0) with zsum. rewrite Z.add_comm. f_equal.
    assert (E : imap ((λ j b, if decide (j = 0%nat) then 0 else f b) ∘ S) l = f <$> l).
    { rewrite <- imap_const. by apply imap_ext. }
    by rewrite E.
  - cbn. change (foldr Z.add 0) with zsum.
    change (list_alter g i l) with (alter g i l). rewrite IH by done. rewrite Z.add_assoc. do 3 f_equal.
    apply imap_ext. intros j b _. cbn. repeat case_decide; congruence || lia.
Qed.

(** * Python dictionaries

    Insertion-ordered association lists: [d[k] = v] updates in place or
    appends, [d.get(k)] is [dict_get]. *)

Abbreviation dict K V := (list (K * V)).

Section dict.
Context {K V : Type} `{EqDecision K}.

Fixpoint dict_get (d : dict K V) (k : K) : option V :=
  match d with
  | [] => None
  | (k', v) :: d => if decide (k = k') then Some v else dict_get d k
  end.

Fixpoint dict_set (d : dict K V) (k : K) (v : V) : dict K V :=
  match d with
  | [] => [(k, v)]
  | (k', v') :: d => if decide (k = k') then (k', v) :: d else (k', v') :: dict_set d k v
  end.

Definition dict_keys (d : dict K V) : list K := d.*1.
Definition dict_values (d : dict K V) : list V := d.*2.

Lemma dict_get_set (d : dict K V) k k' v :
  dict_get (dict_set d k v) k' = if decide (k' = k) then Some v else dict_get d k'.
Proof.
  induction d as [|[k0 v0] d IH]; cbn.
  - done.
  - repeat (case_decide; subst; cbn); congruence.
Qed.

Lemma dict_keys_set (d : dict K V) k v :
  dict_keys (dict_set d k v) =
    if decide (k ∈ dict_keys d) then dict_keys d else dict_keys d ++ [k].
Proof.
  unfold dict_keys. induction d as [|[k0 v0] d IH]; cbn.
  - rewrite decide_False by (apply not_elem_of_nil). done.
  - destruct (decide (k = k0)) as [->|Hne]; cbn.
    + rewrite decide_True by left. done.
    + rewrite IH. repeat case_decide; try done; set_solver.
Qed.

Lemma dict_set_NoDup (d : dict K V) k v : NoDup (dict_keys d) → NoDup (dict_keys (dict_set d k v)).
Proof.
  intros Hd. rewrite dict_keys_set. case_decide; [done|].
  apply NoDup_app. repeat split; [done| |apply NoDup_singleton]. set_solver.
Qed.

Lemma dict_get_elem (d : dict K V) k v : dict_get d k = Some v → (k, v) ∈ d.
Proof.
  induction d as [|[k0 v0] d IH]; cbn; [done|].
  case_decide; intros; simplify_eq; [left | right; auto].
Qed.

Lemma elem_dict_get (d : dict K V) k v : NoDup (dict_keys d) → (k, v) ∈ d → dict_get d k = Some v.
Proof.
  induction d as [|[k0 v0] d IH]; cbn; [by intros _ ?%not_elem_of_nil|].
  intros [Hn Hd]%NoDup_cons [Heq|Hin]%elem_of_cons.
  - simplify_eq. by rewrite decide_True.
  - rewrite decide_False; [auto|]. intros ->. apply Hn, list_elem_of_fmap. by exists (k0, v).
Qed.

Lemma dict_get_None (d : dict K V) k : dict_get d k = None ↔ k ∉ dict_keys d.
Proof.
  unfold dict_keys. induction d as [|[k0 v0] d IH]; cbn.
  - split; [intros _; apply not_elem_of_nil | done].
  - rewrite not_elem_of_cons. case_decide; [naive_solver|]. rewrite IH. naive_solver.
Qed.
Lemma elem_dict_keys (d : dict K V) k : k ∈ dict_keys d ↔ is_Some (dict_get d k).
Proof.
  destruct (dict_get d k) as [v|] eqn:E; [|by apply dict_get_None in E; split; [|by intros []]].
  split; [by eexists|]. intros _. apply dict_get_elem in E. by apply (list_elem_of_fmap_2 fst) in E.
Qed.

End dict.
