(* ===== verification/Params.v ===== *)
(** The fixed parameters of the protocol-v1 crypto suite
    (src/.../crypto/params.py): the scalar-field order, the wire sizes, the
    domain-separation labels, and the small integer and scalar codecs every
    other crypto module uses. *)

From S2P Require Import Prelude.

Definition CURVE_ORDER : Z :=
  52435875175126190479447740508185965837690552500527637822603658699938581184513.

Definition G1_BYTES : Z := 48.
Definition G2_BYTES : Z := 96.
Definition SCALAR_BYTES : Z := 32.
Definition SCHNORR_BYTES : Z := 80.
Definition DLEQ_BYTES : Z := 64.

Definition DST_FIAT_SHAMIR : bytes := encode_utf8 "SHUTTER-VOTE-FS-v1".
Definition DST_SCHNORR : bytes := encode_utf8 "SHUTTER-VOTE-SCHNORR-v1".

Definition BALLOT_MESSAGE_LABEL : string := "SHUTTER-VOTE-BALLOT-v2".
Definition BALLOT_PROOF_TRANSCRIPT_LABEL : string := "SHUTTER-VOTE-BALLOT-PROOF-v1".
Definition ONCHAIN_DECRYPT_LABEL : string := "SHUTTER-VOTE-DECRYPT-v1".
Definition ATTESTATION_LABEL : string := "SHUTTER-VOTE-ATTEST-v1".

Definition BVP_VERSION : Z := 1.
Definition VARIANT_A_BYTE : Z := 65.
Definition VARIANT_B_BYTE : Z := 66.
Definition BUDGET_EXACT_TAG : Z := 0.
Definition BUDGET_AT_MOST_TAG : Z := 1.
Definition BRANCH_SIZE : Z := 2 * G2_BYTES + 2 * SCALAR_BYTES.

Definition u16be (n : Z) : result bytes := to_bytes_be n 2.
Definition u32be (n : Z) : result bytes := to_bytes_be n 4.

(** [scalar_to_bytes]: 32 big-endian bytes of the scalar reduced mod the order. *)
Definition scalar_to_bytes (s : Z) : result bytes :=
  to_bytes_be (s mod CURVE_ORDER) 32.

(** [scalar_from_bytes]: canonical decoding, a value [>= CURVE_ORDER] is refused. *)
Definition scalar_from_bytes (b : bytes) : result Z :=
  _ ← raise_if (negb (len b =? SCALAR_BYTES)) ValueError;
  let v := from_bytes_be b in
  _ ← raise_if (CURVE_ORDER <=? v) ValueError;
  Ok v.

Definition wide_reduce (b : bytes) : Z := from_bytes_be b mod CURVE_ORDER.

(** ** Facts about the order as a number *)

Lemma q_pos : 0 < CURVE_ORDER.
Proof. reflexivity. Qed.
Lemma q_gt_1 : 1 < CURVE_ORDER.
Proof. reflexivity. Qed.
Lemma q_lt_256_32 : CURVE_ORDER < 256 ^ Z.of_nat 32.
Proof. reflexivity. Qed.

#[global] Opaque CURVE_ORDER.

Lemma mod_q_range a : 0 <= a mod CURVE_ORDER < CURVE_ORDER.
Proof. apply Z.mod_pos_bound, q_pos. Qed.
#[export] Hint Resolve q_pos q_gt_1 mod_q_range : bytes_db.

(** ** The scalar codec *)

Lemma scalar_to_bytes_Ok s : scalar_to_bytes s = Ok (be_bytes 32 (s mod CURVE_ORDER)).
Proof.
  apply to_bytes_be_small. pose proof (mod_q_range s). pose proof q_lt_256_32. lia.
Qed.

Lemma scalar_bytes_inj s s' :
  be_bytes 32 (s mod CURVE_ORDER) = be_bytes 32 (s' mod CURVE_ORDER) →
  s mod CURVE_ORDER = s' mod CURVE_ORDER.
Proof.
  intros H%(f_equal from_bytes_be). pose proof q_lt_256_32.
  pose proof (mod_q_range s). pose proof (mod_q_range s').
  rewrite !from_be_bytes in H. by rewrite !(Z.mod_small (_ mod _)) in H by lia.
Qed.

Lemma scalar_to_bytes_length s b : scalar_to_bytes s = Ok b → length b = 32%nat.
Proof. apply to_bytes_be_length. Qed.

Lemma scalar_from_bytes_Ok b v :
  scalar_from_bytes b = Ok v ↔ length b = 32%nat ∧ from_bytes_be b = v ∧ v < CURVE_ORDER.
Proof.
  unfold scalar_from_bytes, SCALAR_BYTES, len. split.
  - intros H. inv_ok. subst.
    apply negb_false_iff, Z.eqb_eq in Hv. apply Z.leb_gt in Hv0. split_and!; [lia|done|done].
  - intros (Hl & <- & Hv). rewrite Hl. cbn -[from_bytes_be].
    by rewrite (proj2 (Z.leb_gt _ _) Hv).
Qed.

(** Encoding then decoding a scalar gives its canonical representative. *)
Lemma scalar_roundtrip s b : scalar_to_bytes s = Ok b → scalar_from_bytes b = Ok (s mod CURVE_ORDER).
Proof.
  intros H. apply scalar_from_bytes_Ok. split_and!.
  - by eapply scalar_to_bytes_length.
  - by eapply from_to_bytes_be.
  - apply mod_q_range.
Qed.

(** Decoding then encoding gives the same bytes: a scalar has one wire form. *)
Lemma scalar_canonical b v : scalar_from_bytes b = Ok v → scalar_to_bytes v = Ok b.
Proof.
  intros (Hl & <- & Hv)%scalar_from_bytes_Ok.
  pose proof (from_bytes_range b).
  rewrite scalar_to_bytes_Ok, Z.mod_small by lia.
  by rewrite <- Hl, be_bytes_from.
Qed.

Lemma scalar_from_bytes_range b v : scalar_from_bytes b = Ok v → 0 <= v < CURVE_ORDER.
Proof. intros (_ & <- & Hv)%scalar_from_bytes_Ok. pose proof (from_bytes_range b). lia. Qed.

Lemma wide_reduce_range b : 0 <= wide_reduce b < CURVE_ORDER.
Proof. apply mod_q_range. Qed.

(** * Properties *)

(** the scalar codec is a bijection between the canonical scalars and the
    byte strings it accepts: decoding yields [v] exactly when [v] is in range
    and encodes to those bytes. *)
Theorem scalar_codec_bijective b v :
  scalar_from_bytes b = Ok v ↔ 0 <= v < CURVE_ORDER ∧ scalar_to_bytes v = Ok b.
Proof.
  split.
  - intros H. split; [by eapply scalar_from_bytes_range | by apply scalar_canonical].
  - intros [Hv H]. apply scalar_roundtrip in H. by rewrite Z.mod_small in H.
Qed.
