(* ===== verification/Primality.v ===== *)
(** The scalar-field order of crypto/params.py is prime: a Pocklington
    certificate built on the BLS parameter [z] with
    [CURVE_ORDER = z^4 - z^2 + 1]. *)

From Stdlib Require Import Zmod Znumtheory.
From S2P Require Import Prelude Params.

(** * The order is prime *)

Module Pocklington.

(** [x ^ e mod m] by repeated squaring, for the certificate. *)
Fixpoint pow_mod (x : Z) (e : positive) (m : Z) : Z :=
  match e with
  | xH => x mod m
  | xO e => let y := pow_mod x e m in (y * y) mod m
  | xI e => let y := pow_mod x e m in ((y * y) mod m * x) mod m
  end.

Lemma pow_mod_spec x e m : pow_mod x e m = x ^ Zpos e mod m.
Proof.
  induction e as [e IH|e IH|]; cbn [pow_mod].
  - rewrite IH, Zmult_mod_idemp_l, <- Z.mul_assoc, Zmult_mod_idemp_l.
    rewrite Z.mul_comm, <- Z.mul_assoc, Zmult_mod_idemp_l. f_equal.
    rewrite Pos2Z.inj_xI, Z.pow_add_r, Z.pow_twice_r, Z.pow_1_r by lia. ring.
  - rewrite IH, <- Zmult_mod. f_equal. rewrite Pos2Z.inj_xO, Z.pow_twice_r. ring.
  - by rewrite Z.pow_1_r.
Qed.

Lemma pow_mod_pow x e e' m :
  0 < e → 0 < e' → pow_mod (x ^ e mod m) (Z.to_pos e') m = x ^ (e * e') mod m.
Proof.
  intros He He'. by rewrite pow_mod_spec, Z2Pos.id, Z.mod_pow_l, <- Z.pow_mul_r by lia.
Qed.

(** Trial division by the odd numbers: none of [d], [d + 2], ... divides [n]. *)
Fixpoint no_divisor (fuel : nat) (d n : Z) : bool :=
  match fuel with
  | O => true
  | S fuel => negb (n mod d =? 0) && no_divisor fuel (d + 2) n
  end.

Lemma no_divisor_spec fuel d n e :
  0 < d → Z.odd d = true → Z.odd e = true → no_divisor fuel d n = true →
  d <= e < d + 2 * Z.of_nat fuel → ¬ (e | n).
Proof.
  revert d. induction fuel as [|fuel IH]; intros d Hd Hod Hoe H He; cbn in H; [lia|].
  apply andb_prop in H as [H1 H2]. destruct (decide (e = d)) as [->|Hne].
  - intros Hdiv%Z.mod0_divide. by rewrite Hdiv in H1.
  - apply (IH (d + 2)); [lia| |done|done|].
    + by rewrite Z.odd_add, Hod.
    + apply Z.odd_spec in Hod as [? ?], Hoe as [? ?]. lia.
Qed.

Lemma prime_by_trial n fuel :
  2 < n → Z.odd n = true → no_divisor fuel 3 n = true →
  n < (2 * Z.of_nat fuel + 3) ^ 2 → Z.prime n.
Proof.
  intros Hn Hodd Hnd Hf.
  assert (Hsmall : ∀ d, 1 < d < 2 * Z.of_nat fuel + 3 → ¬ (d | n)).
  { intros d Hd Hdn. destruct (Z.odd d) eqn:Ho.
    - eapply (no_divisor_spec fuel 3 n d); [lia|done|done|done| |done].
      apply Z.odd_spec in Ho as [? ?]. lia.
    - destruct Hdn as [c ->]. by rewrite Z.odd_mul, Ho, andb_false_r in Hodd. }
  split; [lia|]. intros d Hd [c Hc].
  assert (d < 2 * Z.of_nat fuel + 3 ∨ c < 2 * Z.of_nat fuel + 3) as [H|H] by nia.
  - apply (Hsmall d); [lia|]. by exists c.
  - apply (Hsmall c); [nia|]. exists d. lia.
Qed.

Lemma prime_divisor_exists n : 1 < n → ∃ p, Z.prime p ∧ (p | n).
Proof.
  intros Hn. assert (H0 : 0 <= n) by lia. revert Hn. pattern n. revert n H0.
  apply Zlt_0_ind. intros m IH _ Hm. destruct (prime_dec m) as [Hp|Hp].
  - exists m. split; [by apply prime_alt | reflexivity].
  - apply not_prime_divide in Hp as (d & Hd & Hdm); [|done].
    destruct (IH d) as (p & Hp & Hpd); [lia..|]. exists p. split; [done|].
    by transitivity d.
Qed.

(** One prime power of the certificate: [r^k] divides [p - 1] for every prime
    divisor [p] of [n]. *)
Lemma prime_power_split r k g :
  Z.prime r → 0 <= k → 0 <= g → (g | r ^ Z.succ k) → (g | r ^ k) ∨ (r ^ Z.succ k | g).
Proof.
  intros Hr Hk. revert g. pattern k. apply natlike_ind; [| |done]; clear k Hk.
  - intros g Hg H. rewrite Z.pow_0_r. change (Z.succ 0) with 1 in *. rewrite Z.pow_1_r in *.
    apply Z.divide_prime_r in H as [H|[H|[H|H]]]; [| | | |done]; subst;
      pose proof (Z.prime_ge_2 _ Hr); try lia; [left | right]; reflexivity.
  - intros k Hk IH g Hg H. pose proof (Z.prime_ge_2 _ Hr).
    rewrite (Z.pow_succ_r r (Z.succ k)) in H |- * by lia.
    destruct (decide (g mod r = 0)) as [[g' ->]%Z.mod_divide|Hn]; [|lia|].
    + rewrite (Z.mul_comm g') in *. apply Z.mul_divide_cancel_l in H; [|lia].
      destruct (IH g') as [H'|H']; [nia|done| |].
      * left. rewrite Z.pow_succ_r by lia. by apply Z.mul_divide_mono_l.
      * right. by apply Z.mul_divide_mono_l.
    + left. eapply Z.gauss; [exact H|]. rewrite Z.gcd_comm. apply Z.coprime_prime_l; [done|].
      by intros Hd%Z.mod0_divide.
Qed.

Lemma zmod_pow_gcd p (b : Zmod p) m n :
  Z.gcd (Zmod.to_Z b) p = 1 → Zmod.pow b m = Zmod.one → Zmod.pow b n = Zmod.one →
  Zmod.pow b (Z.gcd m n) = Zmod.one.
Proof.
  intros Hb Hm Hn. destruct (Z.gcd_bezout m n _ eq_refl) as (u & v & <-).
  rewrite Zmod.pow_add_r_coprime, (Z.mul_comm u), (Z.mul_comm v) by done.
  rewrite !Zmod.pow_mul_r_coprime by done. rewrite Hm, Hn, !Zmod.pow_1_l. apply Zmod.mul_1_l.
Qed.

Lemma zmod_pow_divide p (b : Zmod p) m n :
  0 <= m → 0 <= n → (m | n) → Zmod.pow b m = Zmod.one → Zmod.pow b n = Zmod.one.
Proof.
  intros Hm Hn [c ->] H. destruct (decide (m = 0)) as [->|Hm0]; [by rewrite Z.mul_0_r|].
  rewrite Z.mul_comm, Zmod.pow_mul_r_nonneg, H by nia. apply Zmod.pow_1_l.
Qed.

Lemma mod_divisor n p x y : 1 < p → (p | n) → x mod n = y → x mod p = y mod p.
Proof.
  intros Hp [c ->] <-. destruct (decide (c = 0)) as [->|Hc]; [by rewrite Z.mul_0_l, Z.mod_0_r|].
  rewrite (Z.div_mod x (c * p)) at 1 by lia.
  replace (c * p * (x / (c * p))) with ((c * (x / (c * p))) * p) by ring.
  by rewrite Z.add_comm, Z_mod_plus_full.
Qed.

(** [r^(k+1)] divides [p - 1] for every prime divisor [p] of [n], when [a] is a
    Fermat witness whose [(n-1)/r]-th power is not 1 modulo any divisor of [n]. *)
Lemma pock_step n p r k m a :
  1 < n → Z.prime p → (p | n) → Z.prime r → 0 <= k → 0 <= m → n - 1 = m * r ^ Z.succ k →
  a ^ (n - 1) mod n = 1 → Z.gcd (a ^ (m * r ^ k) - 1) n = 1 →
  (r ^ Z.succ k | p - 1).
Proof.
  intros Hn Hp Hpn Hr Hk Hm Hsplit Ha Hgcd.
  pose proof (Z.prime_ge_2 _ Hp). pose proof (Z.prime_ge_2 _ Hr).
  set (b := Zmod.of_Z p a).
  assert (Hone : ∀ e, 0 <= e → Zmod.pow b e = Zmod.one ↔ a ^ e mod p = 1 mod p).
  { intros e He. unfold b. by rewrite <- Zmod.of_Z_pow, <- Zmod.of_Z_1, Zmod.of_Z_inj. }
  assert (Hbn : Zmod.pow b (n - 1) = Zmod.one).
  { apply Hone; [lia|]. apply (mod_divisor n); [lia|done|done]. }
  assert (Hb0 : b ≠ Zmod.zero).
  { intros E. rewrite E, Zmod.pow_0_l in Hbn by lia.
    apply (f_equal Zmod.to_Z) in Hbn. rewrite Zmod.unsigned_0, Zmod.unsigned_1_pos in Hbn; lia. }
  pose proof (Zmod.fermat_nz b Hb0 Hp) as Hfermat.
  pose proof (Z.pow_pos_nonneg r k ltac:(lia) Hk).
  pose proof (Z.pow_pos_nonneg r (Z.succ k) ltac:(lia) ltac:(lia)).
  set (c := Zmod.pow b m).
  assert (Hc0 : c ≠ Zmod.zero).
  { intros E. rewrite Hsplit, Zmod.pow_mul_r_nonneg in Hbn by lia. fold c in Hbn.
    rewrite E, Zmod.pow_0_l in Hbn by lia.
    apply (f_equal Zmod.to_Z) in Hbn. rewrite Zmod.unsigned_0, Zmod.unsigned_1_pos in Hbn; lia. }
  assert (Hg : Zmod.pow c (Z.gcd (r ^ Z.succ k) (Z.pred p)) = Zmod.one).
  { apply zmod_pow_gcd.
    - rewrite Z.gcd_comm. apply Z.coprime_prime_small; [done|].
      pose proof (Zmod.unsigned_pos_bound c ltac:(lia)).
      destruct (decide (Zmod.to_Z c = 0)) as [E|E]; [|lia]. exfalso. apply Hc0.
      apply Zmod.unsigned_inj. by rewrite Zmod.unsigned_0.
    - unfold c. by rewrite <- Zmod.pow_mul_r_nonneg, <- Hsplit by lia.
    - by apply Zmod.fermat_nz. }
  destruct (prime_power_split r k (Z.gcd (r ^ Z.succ k) (Z.pred p))) as [Hd|Hd];
    [done..|apply Z.gcd_nonneg|apply Z.gcd_divide_l| |].
  - exfalso. apply zmod_pow_divide with (n := r ^ k) in Hg; [|apply Z.gcd_nonneg|lia|done].
    unfold c in Hg. rewrite <- Zmod.pow_mul_r_nonneg in Hg by lia.
    apply Hone in Hg; [|nia]. apply Z.cong_iff_0, Z.mod_divide in Hg; [|lia].
    assert (Hp1 : (p | 1)) by (rewrite <- Hgcd; by apply Z.gcd_greatest).
    apply Z.divide_1_r_nonneg in Hp1; lia.
  - etransitivity; [exact Hd|]. apply Z.gcd_divide_r.
Qed.

(** Pocklington's criterion: a prime divisor of [n] is 1 modulo the factored
    part [F] of [n - 1], so when [F^2 >= n] it exceeds the square root. *)
Lemma pocklington n F :
  1 < n → 1 < F → n < F * F → (∀ p, Z.prime p → (p | n) → (F | p - 1)) → Z.prime n.
Proof.
  intros Hn HF Hsq H. split; [done|]. intros d Hd Hdn.
  assert (Hbig : ∀ x, 1 < x → (x | n) → F < x).
  { intros x Hx Hxn. destruct (prime_divisor_exists x Hx) as (p & Hp & Hpx).
    pose proof (Z.prime_ge_2 _ Hp).
    assert (F <= p - 1) by (apply Z.divide_pos_le; [lia|]; apply H; [done|by transitivity x]).
    apply Z.divide_pos_le in Hpx; lia. }
  destruct Hdn as [c Hc].
  pose proof (Hbig d ltac:(lia) ltac:(by exists c)).
  pose proof (Hbig c ltac:(nia) ltac:(exists d; lia)). nia.
Qed.

End Pocklington.

Lemma coprime_mul_divide a b c : Z.gcd a b = 1 → (a | c) → (b | c) → (a * b | c).
Proof.
  intros Hab Ha [d ->]. rewrite (Z.mul_comm d) in *.
  apply Z.gauss in Ha; [|done]. rewrite (Z.mul_comm a). by apply Z.mul_divide_mono_l.
Qed.

(** ** The certificate

    [CURVE_ORDER = z^4 - z^2 + 1] for the BLS parameter
    [z = 2^16 * 906349 * 254760293], so [z^2] divides [CURVE_ORDER - 1]. *)

Local Definition z : Z := 15132376222941642752.

Lemma q_cyclotomic : CURVE_ORDER - 1 = (z + 1) * (z - 1) * z * z.
Proof. reflexivity. Qed.

(** [5 ^ ((z^2 - 1) z)]; the checks below raise it to [z / r]. *)
Local Definition base_z : Z :=
  27531502813017663754571934999013963317378712804167363337354145215041849720668.

Lemma base_z_ok : 5 ^ ((z + 1) * (z - 1) * z) mod CURVE_ORDER = base_z.
Proof.
  rewrite <- !Pocklington.pow_mod_pow by done.
  rewrite <- (Z2Pos.id (z + 1)), <- Pocklington.pow_mod_spec by done.
  vm_compute. reflexivity.
Qed.

Lemma base_z_pow e : 0 < e →
  Pocklington.pow_mod base_z (Z.to_pos e) CURVE_ORDER
  = 5 ^ ((z + 1) * (z - 1) * z * e) mod CURVE_ORDER.
Proof. intros He. rewrite <- base_z_ok. by apply Pocklington.pow_mod_pow. Qed.

Lemma fermat_5 : 5 ^ (CURVE_ORDER - 1) mod CURVE_ORDER = 1.
Proof.
  rewrite q_cyclotomic, <- base_z_pow by done. vm_compute. reflexivity.
Qed.

(** The condition of the criterion at the prime [r]: [inv] is an inverse of
    [5 ^ ((q - 1) / r) - 1]. *)
Lemma cert_step p r k w e inv :
  Z.prime p → (p | CURVE_ORDER) → Z.prime r → 0 <= k → 0 <= w → 0 < e → z = e * r →
  z * e = w * r ^ k →
  (inv * (Pocklington.pow_mod base_z (Z.to_pos e) CURVE_ORDER - 1)) mod CURVE_ORDER = 1 →
  (r ^ Z.succ k | p - 1).
Proof.
  intros Hp Hpn Hr Hk Hw He Hzr Hwe Hinv. rewrite base_z_pow, <- (Z.mul_assoc _ z e), Hwe, Z.mul_assoc in Hinv by done.
  apply (Pocklington.pock_step CURVE_ORDER p r k ((z + 1) * (z - 1) * w) 5);
    [apply q_gt_1 | exact Hp | exact Hpn | exact Hr | exact Hk | | | apply fermat_5 |].
  - apply Z.mul_nonneg_nonneg; done.
  - rewrite q_cyclotomic, Z.pow_succ_r by done. rewrite Hzr at 4.
    transitivity ((z + 1) * (z - 1) * (z * e) * r); [ring | rewrite Hwe; ring].
  - revert Hinv. generalize (5 ^ ((z + 1) * (z - 1) * w * r ^ k)). intros x Hinv.
    rewrite Zmult_mod, Zminus_mod_idemp_l, <- Zmult_mod in Hinv.
    apply Z.bezout_1_gcd. exists inv, (- (inv * (x - 1) / CURVE_ORDER)).
    pose proof (Z.div_mod (inv * (x - 1)) CURVE_ORDER ltac:(pose proof q_pos; lia)). lia.
Qed.

Lemma q_prime : Z.prime CURVE_ORDER.
Proof.
  apply (Pocklington.pocklington _ (2 ^ 32 * (906349 ^ 2 * 254760293 ^ 2))); [done..|].
  intros p Hp Hpn.
  repeat (apply coprime_mul_divide; [vm_compute; reflexivity| |]).
  - apply (cert_step p 2 31 53315612057375157732715266049 7566188111470821376
      26217937587563095239723870254092982918845276250263818911301829349969290592256);
      [exact Hp|exact Hpn|apply Z.prime_2|vm_compute; (discriminate || reflexivity)..].
  - apply (cert_step p 906349 1 278755433008773409017954304 16695970562048
      23228006829848193982005774833676428102340799460332544135501612309786345839955);
      [exact Hp|exact Hpn| |vm_compute; (discriminate || reflexivity)..].
    apply (Pocklington.prime_by_trial _ 500); vm_compute; reflexivity.
  - apply (cert_step p 254760293 1 3528180384289150468096 59398488064
      35712579557439236096876167352832642893763751801196582581341201406049842986247);
      [exact Hp|exact Hpn| |vm_compute; (discriminate || reflexivity)..].
    apply (Pocklington.prime_by_trial _ (20 * 400)); vm_compute; reflexivity.
Qed.
