(* ===== verification/Field.v ===== *)
(** Arithmetic modulo [CURVE_ORDER]: the field of scalars with the
    homomorphism from the integers the code computes on, the congruence [≡q]
    with its [Proper] instances, modular inverses, and the interpolation
    identity behind threshold decryption. *)

From Stdlib Require Import Zmod.
From Stdlib Require Export Ring Field.
From S2P Require Import Prelude Params Primality.

Declare Scope F_scope.
Delimit Scope F_scope with F.

(** The scalar field. *)
Abbreviation F := (Zmod CURVE_ORDER).

(** The scalar an integer of the program stands for. *)
Definition inF (n : Z) : F := Zmod.of_Z CURVE_ORDER n.

Definition F_field_theory := Zmod.field_theory CURVE_ORDER q_prime.
Add Field F_field : F_field_theory.

Abbreviation F0 := (@Zmod.zero CURVE_ORDER).
Abbreviation F1 := (@Zmod.one CURVE_ORDER).
Infix "+" := Zmod.add : F_scope.
Infix "*" := Zmod.mul : F_scope.
Infix "-" := Zmod.sub : F_scope.
Infix "/" := Zmod.mdiv : F_scope.
Notation "- x" := (Zmod.opp x) : F_scope.

#[global] Instance F_eq_dec : EqDecision F.
Proof.
  intros x y. destruct (Zmod.eqb x y) eqn:E.
  - left. by apply Zmod.eqb_eq.
  - right. intros H%Zmod.eqb_eq. congruence.
Defined.

Lemma F1_neq_F0 : F1 ≠ F0.
Proof. apply (F_1_neq_0 F_field_theory). Qed.

(** ** The homomorphism from [Z] *)

Lemma inF_mod n : inF (n mod CURVE_ORDER) = inF n.
Proof. apply Zmod.of_Z_mod. Qed.
Lemma inF_add a b : inF (a + b) = (inF a + inF b)%F.
Proof. apply Zmod.of_Z_add. Qed.
Lemma inF_mul a b : inF (a * b) = (inF a * inF b)%F.
Proof. apply Zmod.of_Z_mul. Qed.
Lemma inF_opp a : inF (- a) = (- inF a)%F.
Proof. apply Zmod.of_Z_opp. Qed.
Lemma inF_sub a b : inF (a - b) = (inF a - inF b)%F.
Proof. rewrite <- Z.add_opp_r, inF_add, inF_opp. ring. Qed.
Lemma inF_0 : inF 0 = F0.
Proof. apply Zmod.of_Z_0. Qed.
Lemma inF_1 : inF 1 = F1.
Proof. apply Zmod.of_Z_1. Qed.

Create Rewrite HintDb F_rw.
#[export] Hint Rewrite inF_mod inF_add inF_mul inF_opp inF_sub inF_0 inF_1 : F_rw.

Lemma inF_to_Z (x : F) : inF (Zmod.to_Z x) = x.
Proof. apply Zmod.of_Z_to_Z. Qed.

(** ** Congruence modulo the order *)

Definition eqq (a b : Z) : Prop := a mod CURVE_ORDER = b mod CURVE_ORDER.
Infix "≡q" := eqq (at level 70) : Z_scope.

Lemma eqq_F a b : a ≡q b ↔ inF a = inF b.
Proof. symmetry. apply Zmod.of_Z_inj. Qed.

#[global] Instance eqq_equiv : Equivalence eqq.
Proof. unfold eqq. split; red; congruence. Qed.
#[global] Instance eqq_dec a b : Decision (a ≡q b) := decide (a mod CURVE_ORDER = _).

(** Proves a congruence (or an equality of scalars) by the ring laws. *)
Ltac push_F := rewrite ?eqq_F in *; autorewrite with F_rw in *.
Ltac solve_F := intros; rewrite ?eqq_F; autorewrite with F_rw; ring.

#[global] Instance add_eqq : Proper (eqq ==> eqq ==> eqq) Z.add.
Proof. intros a b H c d K. push_F. congruence. Qed.
#[global] Instance mul_eqq : Proper (eqq ==> eqq ==> eqq) Z.mul.
Proof. intros a b H c d K. push_F. congruence. Qed.
#[global] Instance sub_eqq : Proper (eqq ==> eqq ==> eqq) Z.sub.
Proof. intros a b H c d K. push_F. congruence. Qed.
#[global] Instance opp_eqq : Proper (eqq ==> eqq) Z.opp.
Proof. intros a b H. push_F. congruence. Qed.

Lemma eqq_mod a : a mod CURVE_ORDER ≡q a.
Proof. solve_F. Qed.

Lemma eqq_small a b : 0 <= a < CURVE_ORDER → 0 <= b < CURVE_ORDER → a ≡q b → a = b.
Proof. unfold eqq. intros Ha Hb. by rewrite !Z.mod_small. Qed.

Lemma inF_inj_small a b : 0 <= a < CURVE_ORDER → 0 <= b < CURVE_ORDER → inF a = inF b → a = b.
Proof. intros Ha Hb H%eqq_F. by apply eqq_small. Qed.

(** ** Inverses: [pow(a, -1, q)] *)

Definition pow_inv (a q : Z) : result Z :=
  if Z.gcd a q =? 1 then Ok (Z.invmod a q mod q) else Err ValueError.

Lemma pow_inv_Ok a : inF a ≠ F0 →
  ∃ b, pow_inv a CURVE_ORDER = Ok b ∧ inF b = Zmod.inv (inF a).
Proof.
  intros Ha.
  assert (Hm : a mod CURVE_ORDER ≠ 0).
  { intros H. apply Ha. by rewrite <- inF_mod, H, inF_0. }
  exists (Z.invmod a CURVE_ORDER mod CURVE_ORDER). split.
  - unfold pow_inv. rewrite (proj2 (Z.eqb_eq _ _)); [done|].
    rewrite Z.gcd_comm. apply Z.coprime_prime_l; [apply q_prime|].
    by intros H%Z.mod0_divide.
  - rewrite inF_mod. apply (Zmod.mul_cancel_r_prime (inF a)); [apply q_prime|done|].
    rewrite <- inF_mul, Zmod.mul_inv_same_l_prime by (done || apply q_prime).
    rewrite <- inF_1. apply eqq_F. unfold eqq. rewrite Z.invmod_prime by (done || apply q_prime).
    symmetry. apply Z.mod_small. pose proof q_gt_1. lia.
Qed.

(** ** Sums over lists *)

Definition sumF (l : list F) : F := foldr Zmod.add F0 l.

Lemma sumF_cons x l : sumF (x :: l) = (x + sumF l)%F.
Proof. reflexivity. Qed.

Lemma sumF_Permutation l k : l ≡ₚ k → sumF l = sumF k.
Proof. unfold sumF. induction 1; cbn; try congruence. ring. Qed.

Lemma sumF_mul c {A} (f : A → F) l : sumF ((λ x, c * f x)%F <$> l) = (c * sumF (f <$> l))%F.
Proof. unfold sumF. induction l as [|x l IH]; cbn; [ring|]. rewrite IH. ring. Qed.

Lemma sumF_add {A} (f g : A → F) l :
  sumF ((λ x, f x + g x)%F <$> l) = (sumF (f <$> l) + sumF (g <$> l))%F.
Proof. unfold sumF. induction l as [|x l IH]; cbn; [ring|]. rewrite IH. ring. Qed.

Lemma sumF_ext {A} (f g : A → F) l :
  (∀ x, x ∈ l → f x = g x) → sumF (f <$> l) = sumF (g <$> l).
Proof. intros H. f_equal. apply list_fmap_ext. intros i x Hx. eapply H, list_elem_of_lookup_2, Hx. Qed.

(** ** Interpolation at zero *)

(** [Π_{k ∈ l, k ≠ j} (0 - k) / (j - k)] *)
Definition lamF (j : F) (l : list F) : F :=
  foldr (λ k acc, if decide (k = j) then acc else ((F0 - k) / (j - k)) * acc)%F F1 l.

Lemma F_sub_neq (a b : F) : a ≠ b → (a - b)%F ≠ F0.
Proof. intros H E. apply H. transitivity (a - b + b)%F; [ring|]. rewrite E. ring. Qed.

Lemma lamF_Permutation j l k : l ≡ₚ k → lamF j l = lamF j k.
Proof. unfold lamF. induction 1; cbn; repeat case_decide; try congruence. ring. Qed.

Lemma lamF_cons_eq j l : lamF j (j :: l) = lamF j l.
Proof. cbn. by rewrite decide_True. Qed.

(** Peeling one node off: the factor [(j - x)] cancels the node [x]. *)
Lemma lamF_peel x (g : F → F) l : x ∉ l →
  sumF ((λ j, lamF j (x :: l) * ((j - x) * g j))%F <$> (x :: l))
  = ((F0 - x) * sumF ((λ j, lamF j l * g j)%F <$> l))%F.
Proof.
  intros Hx. rewrite <- sumF_mul. cbn [fmap list_fmap sumF foldr].
  transitivity (F0 + sumF ((λ j, (F0 - x) * (lamF j l * g j))%F <$> l))%F; [|unfold sumF; ring].
  f_equal; [ring|]. apply sumF_ext. intros j Hj. cbn [lamF foldr].
  rewrite decide_False by (intros ->; done). fold (lamF j l).
  field. apply F_sub_neq. by intros ->.
Qed.

Lemma lamF_peel_sum x l : x ∉ l →
  sumF ((λ j, lamF j (x :: l) * (j - x))%F <$> (x :: l))
  = ((F0 - x) * sumF ((λ j, lamF j l) <$> l))%F.
Proof.
  intros Hx. pose proof (lamF_peel x (λ _, F1) l Hx) as H.
  rewrite (sumF_ext (λ j, lamF j l * F1)%F (λ j, lamF j l)) in H by (intros; ring).
  rewrite <- H. apply sumF_ext. intros. ring.
Qed.

Lemma lamF_peel_swap x y l : x ≠ y → y ∉ l →
  sumF ((λ j, lamF j (x :: y :: l) * (j - y))%F <$> (x :: y :: l))
  = ((F0 - y) * sumF ((λ j, lamF j (x :: l)) <$> (x :: l)))%F.
Proof.
  intros Hxy Hy. rewrite <- lamF_peel_sum by set_solver.
  assert (HP : x :: y :: l ≡ₚ y :: x :: l) by constructor.
  rewrite (sumF_Permutation _ _ (fmap_Permutation _ _ _ HP)).
  apply sumF_ext. intros j _. by rewrite (lamF_Permutation j _ _ HP).
Qed.

Lemma sum_lamF l : NoDup l → l ≠ [] → sumF ((λ j, lamF j l) <$> l) = F1.
Proof.
  remember (length l) as n eqn:Hn. revert l Hn.
  induction n as [|n IH]; intros [|x [|y l]] Hn Hl Hne; try done.
  - cbn. rewrite decide_True by done. ring.
  - apply NoDup_cons in Hl as [Hx Hl]. pose proof Hl as Hl'. apply NoDup_cons in Hl' as [Hy Hl'].
    assert (Hxy : x ≠ y) by set_solver.
    assert (Hxl : NoDup (x :: l)) by (constructor; set_solver).
    assert (Px := lamF_peel_sum x (y :: l) Hx).
    assert (Py := lamF_peel_swap x y l Hxy Hy).
    rewrite IH in Px by (done || cbn in *; lia). rewrite IH in Py by (done || cbn in *; lia).
    set (L := x :: y :: l) in *.
    transitivity ((F1 / (y - x)) * (sumF ((λ j, lamF j L * (j - x))%F <$> L)
                 + (- F1) * sumF ((λ j, lamF j L * (j - y))%F <$> L)))%F.
    + rewrite <- sumF_mul, <- sumF_add, <- sumF_mul. apply sumF_ext. intros j _.
      field. by apply F_sub_neq.
    + rewrite Px, Py. field. by apply F_sub_neq.
Qed.

(** Polynomials as coefficient lists, evaluated by Horner's rule. *)
Definition polyF (p : list F) (x : F) : F := foldr (λ c acc, c + x * acc)%F F0 p.

Lemma polyF_cons c p x : polyF (c :: p) x = (c + x * polyF p x)%F.
Proof. reflexivity. Qed.

(** Synthetic division: [p(x) = p(a) + (x - a) * (divF a p)(x)]. *)
Fixpoint divF (a : F) (p : list F) : list F :=
  match p with
  | [] => []
  | c :: p' => match p' with [] => [] | _ => polyF p' a :: divF a p' end
  end.

Lemma divF_spec a p x : polyF p x = (polyF p a + (x - a) * polyF (divF a p) x)%F.
Proof.
  induction p as [|c p IH]; [cbn; ring|].
  destruct p as [|c' p]; [cbn; ring|].
  change (divF a (c :: c' :: p)) with (polyF (c' :: p) a :: divF a (c' :: p)).
  remember (c' :: p) as p' eqn:Hp'. rewrite !polyF_cons, IH. ring.
Qed.

Lemma length_divF a p : length (divF a p) = pred (length p).
Proof.
  induction p as [|c p IH]; [done|]. destruct p as [|c' p]; [done|].
  change (divF a (c :: c' :: p)) with (polyF (c' :: p) a :: divF a (c' :: p)).
  cbn [length]. by rewrite IH.
Qed.

(** A polynomial with at most as many coefficients as there are nodes is
    recovered at zero from its values at the nodes. *)
Lemma interpolation p l : NoDup l → l ≠ [] → (length p <= length l)%nat →
  sumF ((λ j, lamF j l * polyF p j)%F <$> l) = polyF p F0.
Proof.
  revert p. induction l as [|x l IH]; intros p Hl Hne Hlen; [done|].
  assert (Hsum := sum_lamF (x :: l) Hl Hne). apply NoDup_cons in Hl as [Hx Hl].
  transitivity (polyF p x * F1 + (F0 - x) * polyF (divF x p) F0)%F.
  2: { rewrite (divF_spec x p F0). ring. }
  rewrite <- Hsum, <- sumF_mul.
  assert (Htail : ((F0 - x) * polyF (divF x p) F0)%F =
    sumF ((λ j, lamF j (x :: l) * ((j - x) * polyF (divF x p) j))%F <$> (x :: l))).
  { rewrite lamF_peel by done. destruct l as [|y l].
    - cbn in Hlen. pose proof (length_divF x p). destruct (divF x p); [cbn; ring|cbn in *; lia].
    - rewrite IH; [done|done|done|]. rewrite length_divF. cbn in *. lia. }
  rewrite Htail, <- sumF_add. apply sumF_ext. intros j _. rewrite (divF_spec x p j). ring.
Qed.
