(* ===== verification/Points.v ===== *)
(** The two BLS12-381 groups as the program sees them
    (crypto/points.py).  The curve arithmetic itself is the third-party
    package py_arkworks_bls12381: here it is a record of operations
    [group_ops] with the laws [GroupLaws] the code relies on (an abelian group
    of prime order, an injective fixed-size compressed encoding).  keccak256
    (eth_utils) is a function parameter of the class [Crypto].  A concrete
    instance on the scalar field shows that the laws are satisfiable and lets
    the witnesses compute. *)

From Stdlib Require Import Zmod.
From S2P Require Import Prelude Params Primality Field.

(** * The interface to the curve library *)

Record group_ops : Type := {
  pt : Type;
  pt_eqb : pt → pt → bool;              (* P == Q *)
  pt_add : pt → pt → pt;                (* P + Q *)
  pt_neg : pt → pt;                     (* -P *)
  pt_id : pt;                           (* GPoint.identity() *)
  pt_gen : pt;                          (* GPoint() *)
  pt_smul : pt → F → pt;                (* P * Scalar(n) *)
  pt_in_subgroup : pt → bool;           (* P.is_in_subgroup() *)
  pt_to_compressed : pt → bytes;        (* P.to_compressed_bytes() *)
  pt_from_compressed : bytes → option pt;  (* None: the decoder raised *)
}.

(** What the code relies on: the points that pass the subgroup check are the
    multiples of the generator, which has prime order [CURVE_ORDER]; equality
    is decided by [==]; the compressed form has a fixed size and decodes back. *)
Class GroupLaws (size : Z) (g : group_ops) : Prop := {
  eqb_spec_pt (P Q : pt g) : pt_eqb g P Q = true ↔ P = Q;
  gen_add a b : pt_add g (pt_smul g (pt_gen g) a) (pt_smul g (pt_gen g) b)
                = pt_smul g (pt_gen g) (a + b)%F;
  gen_neg a : pt_neg g (pt_smul g (pt_gen g) a) = pt_smul g (pt_gen g) (- a)%F;
  gen_smul a b : pt_smul g (pt_smul g (pt_gen g) a) b = pt_smul g (pt_gen g) (a * b)%F;
  gen_0 : pt_smul g (pt_gen g) F0 = pt_id g;
  gen_1 : pt_smul g (pt_gen g) F1 = pt_gen g;
  gen_inj a b : pt_smul g (pt_gen g) a = pt_smul g (pt_gen g) b → a = b;
  subgroup_spec P : pt_in_subgroup g P = true ↔ ∃ a, P = pt_smul g (pt_gen g) a;
  compressed_size P : len (pt_to_compressed g P) = size;
  compressed_decode P : pt_from_compressed g (pt_to_compressed g P) = Some P;
}.

Class Crypto : Type := {
  G1ops : group_ops;
  G2ops : group_ops;
  keccak : bytes → bytes;
}.

Class CryptoLaws `{Crypto} : Prop := {
  #[global] G1_laws :: GroupLaws G1_BYTES G1ops;
  #[global] G2_laws :: GroupLaws G2_BYTES G2ops;
  keccak_size b : len (keccak b) = 32;
}.

(** * points.py *)

Section operations.
Context {g : group_ops}.

Definition _scalar (n : Z) : F := inF (n mod CURVE_ORDER).

Definition mul (P : pt g) (scalar : Z) : pt g := pt_smul g P (_scalar scalar).
Definition add (P Q : pt g) : pt g := pt_add g P Q.
Definition neg (P : pt g) : pt g := pt_neg g P.
Definition point_eq (P Q : pt g) : bool := pt_eqb g P Q.
Definition is_identity (P : pt g) : bool := pt_eqb g P (pt_id g).

End operations.

Abbreviation in_subgroup P := (pt_in_subgroup _ P = true).

(** [g1_to_compressed], [g2_to_compressed] (one function per group, the same
    body up to the expected size). *)
Definition to_compressed (size : Z) (g : group_ops) (P : pt g) : result bytes :=
  let b := pt_to_compressed g P in
  _ ← raise_if (negb (len b =? size)) ValueError;
  Ok b.

(** [g1_from_compressed], [g2_from_compressed]. *)
Definition from_compressed (size : Z) (g : group_ops) (b : bytes) : result (pt g) :=
  _ ← raise_if (negb (len b =? size)) ValueError;
  match pt_from_compressed g b with
  | None => Err ValueError
  | Some P =>
      _ ← raise_if (negb (pt_in_subgroup g P)) ValueError;
      Ok P
  end.

Section crypto.
Context `{Crypto}.

Definition G1 : pt G1ops := pt_gen G1ops.
Definition G2 : pt G2ops := pt_gen G2ops.
Definition Z1 : pt G1ops := pt_id G1ops.
Definition Z2 : pt G2ops := pt_id G2ops.

Definition g2_to_compressed : pt G2ops → result bytes := to_compressed G2_BYTES G2ops.
Definition g2_from_compressed : bytes → result (pt G2ops) := from_compressed G2_BYTES G2ops.
Definition g1_to_compressed : pt G1ops → result bytes := to_compressed G1_BYTES G1ops.
Definition g1_from_compressed : bytes → result (pt G1ops) := from_compressed G1_BYTES G1ops.

(** [random_scalar]: the draw [r] of [secrets.randbelow(CURVE_ORDER - 1)]. *)
Definition random_scalar (r : Z) : Z := r + 1.

End crypto.

(** * Lemmas: every subgroup point as a multiple of the generator *)

Section laws.
Context {size : Z} {g : group_ops} {L : GroupLaws size g}.
Implicit Types (P Q : pt g).

(** [a * generator] *)
Definition gmul (a : F) : pt g := pt_smul g (pt_gen g) a.

Lemma point_eq_spec P Q : point_eq P Q = true ↔ P = Q.
Proof. apply eqb_spec_pt. Qed.

Lemma point_eq_refl P : point_eq P P = true.
Proof. by apply point_eq_spec. Qed.

Lemma gmul_add (a b : F) : add (gmul a) (gmul b) = gmul (a + b)%F.
Proof. apply gen_add. Qed.
Lemma gmul_neg (a : F) : neg (gmul a) = gmul (- a)%F.
Proof. apply gen_neg. Qed.
Lemma gmul_mul a n : mul (gmul a) n = gmul (a * inF n)%F.
Proof. unfold mul, _scalar, gmul. rewrite inF_mod. apply gen_smul. Qed.
Lemma gmul_gen : pt_gen g = gmul F1.
Proof. symmetry. apply gen_1. Qed.
Lemma gmul_id : pt_id g = gmul F0.
Proof. symmetry. apply gen_0. Qed.
Lemma gmul_inj (a b : F) : gmul a = gmul b ↔ a = b.
Proof. split; [apply gen_inj | congruence]. Qed.

Lemma subgroup_dlog P : in_subgroup P → ∃ a, P = gmul a.
Proof. apply subgroup_spec. Qed.
Lemma gmul_subgroup a : in_subgroup (gmul a).
Proof. apply subgroup_spec. by exists a. Qed.

Lemma is_identity_gmul a : is_identity (gmul a) = bool_decide (a = F0).
Proof.
  apply eq_bool_prop_intro. rewrite !Is_true_true, bool_decide_eq_true.
  unfold is_identity. rewrite eqb_spec_pt, gmul_id. apply gmul_inj.
Qed.

Lemma to_compressed_Ok P : to_compressed size g P = Ok (pt_to_compressed g P).
Proof. unfold to_compressed. rewrite compressed_size, Z.eqb_refl. done. Qed.

Lemma to_compressed_inj P Q : pt_to_compressed g P = pt_to_compressed g Q → P = Q.
Proof.
  intros H%(f_equal (pt_from_compressed g)). rewrite !compressed_decode in H. congruence.
Qed.

Lemma from_compressed_Ok b P : from_compressed size g b = Ok P →
  in_subgroup P ∧ len b = size ∧ pt_from_compressed g b = Some P.
Proof.
  unfold from_compressed. intros H. inv_ok.
  apply negb_false_iff, Z.eqb_eq in Hv. destruct (pt_from_compressed g b) as [Q|]; [|done].
  inv_ok. subst. apply negb_false_iff in Hv0. done.
Qed.

(** The point codec round trip. *)
Lemma from_to_compressed P : in_subgroup P →
  from_compressed size g (pt_to_compressed g P) = Ok P.
Proof.
  intros HP. unfold from_compressed.
  rewrite compressed_size, Z.eqb_refl, compressed_decode. cbn. by rewrite HP.
Qed.

End laws.

Arguments gmul {g} a.

Create Rewrite HintDb gmul_rw.
#[export] Hint Rewrite @gmul_add @gmul_neg @gmul_mul using typeclasses eauto : gmul_rw.

(** Replaces every point variable by a multiple of the generator. *)
Ltac dlog :=
  repeat match goal with
  | HP : pt_in_subgroup _ ?P = true |- _ =>
      is_var P; let x := fresh "x" P in apply subgroup_dlog in HP as [x ->]
  end.

(** Writes the generators and identities as multiples of the generator and
    collects the exponents. *)
Ltac to_gmul :=
  unfold G1, G2, Z1, Z2 in *;
  rewrite ?gmul_gen, ?gmul_id in *;
  repeat (rewrite ?gmul_add, ?gmul_neg, ?gmul_mul in * ).

(** Equality of points built from generators and scalars, by the ring laws
    on the exponents. *)
Ltac solve_point :=
  dlog; to_gmul; rewrite ?gmul_inj in *; autorewrite with F_rw in *.

Section subgroup.
Context {size : Z} {g : group_ops} {L : GroupLaws size g}.
Implicit Types (P Q : pt g).

Lemma mul_subgroup P n : in_subgroup P → in_subgroup (mul P n).
Proof. intros. dlog. to_gmul. apply gmul_subgroup. Qed.
Lemma add_subgroup P Q : in_subgroup P → in_subgroup Q → in_subgroup (add P Q).
Proof. intros. dlog. to_gmul. apply gmul_subgroup. Qed.
Lemma neg_subgroup P : in_subgroup P → in_subgroup (neg P).
Proof. intros. dlog. to_gmul. apply gmul_subgroup. Qed.
Lemma gen_subgroup : in_subgroup (pt_gen g).
Proof. to_gmul. apply gmul_subgroup. Qed.
Lemma id_subgroup : in_subgroup (pt_id g).
Proof. to_gmul. apply gmul_subgroup. Qed.

Lemma add_id_l P : in_subgroup P → add (pt_id g) P = P.
Proof. intros. solve_point. ring. Qed.
Lemma add_comm P Q : in_subgroup P → in_subgroup Q → add P Q = add Q P.
Proof. intros. solve_point. ring. Qed.
Lemma mul_eqq P m n : m ≡q n → mul P m = mul P n.
Proof. intros Hmn%eqq_F. unfold mul, _scalar. rewrite !inF_mod. by rewrite Hmn. Qed.

End subgroup.

(** Membership in the subgroup, by the shape of the point. *)
Ltac solve_subgroup :=
  unfold G1, G2, Z1, Z2;
  repeat first
    [ assumption | apply gen_subgroup | apply id_subgroup | apply gmul_subgroup
    | apply mul_subgroup | apply add_subgroup | apply neg_subgroup ].

(** * A concrete instance

    The additive group of the scalar field, with the 32-byte big-endian
    representative padded to the encoding size, and a non-cryptographic
    32-byte digest.  It satisfies the laws, so no theorem below is vacuous. *)

Definition field_group (pad : nat) : group_ops := {|
  pt := F;
  pt_eqb := Zmod.eqb;
  pt_add := Zmod.add;
  pt_neg := Zmod.opp;
  pt_id := F0;
  pt_gen := F1;
  pt_smul := Zmod.mul;
  pt_in_subgroup _ := true;
  pt_to_compressed a := replicate pad Byte.x00 ++ be_bytes 32 (Zmod.to_Z a);
  pt_from_compressed b :=
    let v := from_bytes_be (drop pad b) in
    if bool_decide (take pad b = replicate pad Byte.x00) && (v <? CURVE_ORDER)
       && (length b =? pad + 32)%nat
    then Some (inF v) else None;
|}.

Lemma to_Z_range (a : F) : 0 <= Zmod.to_Z a < CURVE_ORDER.
Proof. apply Zmod.unsigned_pos_bound, q_pos. Qed.

#[global] Instance field_group_laws pad :
  GroupLaws (Z.of_nat pad + 32) (field_group pad).
Proof.
  split; cbn -[be_bytes].
  - intros P Q. apply Zmod.eqb_eq.
  - intros a b. ring.
  - intros a. ring.
  - intros a b. ring.
  - ring.
  - ring.
  - intros a b. rewrite !Zmod.mul_1_l. done.
  - intros P. split; [|done]. intros _. exists P. ring.
  - intros a. rewrite len_app. unfold len. rewrite length_replicate, length_be_bytes. lia.
  - intros a. rewrite take_app_length', drop_app_length' by (by rewrite length_replicate).
    rewrite from_be_bytes, Z.mod_small by (pose proof (to_Z_range a); pose proof q_lt_256_32; lia).
    rewrite bool_decide_true by done. rewrite (proj2 (Z.ltb_lt _ _)) by apply to_Z_range.
    rewrite length_app, length_replicate, length_be_bytes, Nat.eqb_refl. cbn.
    f_equal. apply inF_to_Z.
Qed.

(** A 32-byte digest for computations: not collision resistant. *)
Definition toy_digest (b : bytes) : bytes :=
  be_bytes 32 (foldl (λ acc x, Z.land (acc * 65599 + byte_val x + 1) (Z.ones 64)) 5381 b).

Definition concrete_crypto : Crypto := {|
  G1ops := field_group 16;
  G2ops := field_group 64;
  keccak := toy_digest;
|}.

#[global] Instance concrete_crypto_laws : @CryptoLaws concrete_crypto.
Proof.
  split; cbn -[be_bytes toy_digest].
  - apply (field_group_laws 16).
  - apply (field_group_laws 64).
  - intros b. unfold len, toy_digest. by rewrite length_be_bytes.
Qed.
