(* ===== verification/Transcript.v ===== *)
(** The Fiat-Shamir transcript (crypto/transcript.py): a log of byte strings,
    each appended slice framed by a tagged length prefix, and the dual-keccak
    challenge folded back into the log.  The log is the state of the monad
    [TM], in which every proof of crypto/proofs.py is written. *)

From S2P Require Import Prelude Params Primality Field Points.

(** [Transcript.parts] *)
Record Transcript : Type := mkTranscript { parts : list bytes }.

(** Code that reads and extends a transcript and may raise. *)
Definition TM (A : Type) : Type := Transcript → result (A * Transcript).

#[global] Instance TM_ret : MRet TM := λ A a t, Ok (a, t).
#[global] Instance TM_bind : MBind TM := λ A B f m t, '(a, t') ← m t; f a t'.

Lemma TM_bind_Ok_inv {A B} (m : TM A) (f : A → TM B) t r :
  (m ≫= f) t = Ok r → ∃ a t1, m t = Ok (a, t1) ∧ f a t1 = Ok r.
Proof. intros ([a t1] & ? & ?)%bind_Ok_inv. eauto. Qed.

Lemma TM_bind_Ok {A B} (m : TM A) (f : A → TM B) t a t1 :
  m t = Ok (a, t1) → (m ≫= f) t = f a t1.
Proof. intros H. unfold mbind, TM_bind. by rewrite H. Qed.

(** A computation that does not touch the transcript. *)
Definition lift {A} (m : result A) : TM A := λ t, a ← m; Ok (a, t).

Lemma TM_lift_Ok_inv {A B} (m : result A) (f : A → TM B) t r :
  (lift m ≫= f) t = Ok r → ∃ a, m = Ok a ∧ f a t = Ok r.
Proof. unfold lift, mbind, TM_bind. destruct m; [eauto | done]. Qed.

Lemma TM_lift_Ok {A B} (a : A) (f : A → TM B) t : (lift (Ok a) ≫= f) t = f a t.
Proof. reflexivity. Qed.

(** Splits every successful run of a bind into the runs of its two parts. *)
Ltac inv_tm :=
  repeat match goal with
  | H : @mret TM _ _ ?x ?t = Ok ?r |- _ => change (Ok (x, t) = Ok r) in H; inv_ok; subst
  | H : mbind (M:=TM) _ (lift _) _ = Ok _ |- _ =>
      let a := fresh "v" in let Ha := fresh "Hl" in
      apply TM_lift_Ok_inv in H as (a & Ha & H); cbn beta in H
  | H : mbind (M:=TM) _ _ _ = Ok _ |- _ =>
      let a := fresh "v" in let t1 := fresh "t" in let Ha := fresh "Hv" in
      apply TM_bind_Ok_inv in H as (a & t1 & Ha & H); cbn beta in H
  | H : unit |- _ => destruct H
  end.

(** [for x in l: body(x)] *)
Fixpoint for_each {A} (l : list A) (body : A → TM unit) : TM unit :=
  match l with
  | [] => mret tt
  | x :: l => _ ← body x; for_each l body
  end.

Lemma for_each_ext {A B} (l : list A) (k : list B) f g t :
  Forall2 (λ x y, ∀ t, f x t = g y t) l k → for_each l f t = for_each k g t.
Proof.
  intros HF. revert t. induction HF as [|x y l k Hxy _ IH]; intros t; [done|].
  cbn [for_each]. unfold mbind, TM_bind. rewrite Hxy.
  destruct (g y t) as [[[] t']|]; [apply IH | done].
Qed.

(** [Transcript(label)] *)
Definition new_transcript (label : string) : Transcript := mkTranscript [encode_utf8 label].

(** [b"".join(self.parts)] *)
Definition preimage (t : Transcript) : bytes := concat (parts t).

Definition t_append (tag : string) (value : bytes) : TM unit := λ t,
  let tb := encode_utf8 tag in
  l1 ← u32be (len tb);
  l2 ← u32be (len value);
  Ok (tt, mkTranscript (parts t ++ [l1; tb; l2; value])).

Section transcript.
Context `{Crypto}.

Definition append_point (tag : string) (point : pt G2ops) : TM unit :=
  b ← lift (g2_to_compressed point); t_append tag b.

Definition append_scalar (tag : string) (s : Z) : TM unit :=
  b ← lift (scalar_to_bytes s); t_append tag b.

(** The dual-keccak digest of [challenge] and [hash_to_scalar]. *)
Definition dual_keccak (pre : bytes) : Z :=
  wide_reduce (keccak (Byte.x00 :: pre) ++ keccak (Byte.x01 :: pre)).

Definition challenge (tag : string) : TM Z := λ t,
  let tb := encode_utf8 tag in
  l ← u32be (len tb);
  let head := DST_FIAT_SHAMIR ++ l ++ tb in
  let e := dual_keccak (head ++ preimage t) in
  '(_, t') ← append_scalar (tag +:+ ":chal") e t;
  Ok (e, t').

Definition hash_to_scalar (domain_sep : bytes) (ps : list bytes) : Z :=
  dual_keccak (domain_sep ++ concat ps).

End transcript.

Lemma challenge_range `{Crypto} tag t e t' : challenge tag t = Ok (e, t') → 0 <= e < CURVE_ORDER.
Proof.
  unfold challenge. intros Hc. inv_ok. destruct v0 as [u t1]. inv_ok. subst. apply wide_reduce_range.
Qed.

Lemma append_scalar_frame `{Crypto} tag s t :
  append_scalar tag s t = t_append tag (be_bytes 32 (s mod CURVE_ORDER)) t.
Proof. unfold append_scalar, lift, mbind, TM_bind. by rewrite scalar_to_bytes_Ok. Qed.

Lemma append_point_frame `{CryptoLaws} tag P t :
  append_point tag P t = t_append tag (pt_to_compressed G2ops P) t.
Proof.
  unfold append_point, lift, mbind, TM_bind, g2_to_compressed. by rewrite to_compressed_Ok.
Qed.

(** * Framing is injective

    [frame] is what [append] adds; a log is the label followed by frames. *)

Definition frame_bytes (f : string * bytes) : bytes :=
  be_bytes 4 (len (encode_utf8 f.1)) ++ encode_utf8 f.1 ++ be_bytes 4 (len f.2) ++ f.2.

Definition frame_ok (f : string * bytes) : Prop :=
  len (encode_utf8 f.1) < 2 ^ 32 ∧ len f.2 < 2 ^ 32.

Lemma u32be_Ok n b : u32be n = Ok b ↔ 0 <= n < 2 ^ 32 ∧ b = be_bytes 4 n.
Proof. unfold u32be. rewrite to_bytes_be_Ok. done. Qed.

Lemma t_append_Ok tag value t u t' : t_append tag value t = Ok (u, t') →
  frame_ok (tag, value) ∧ preimage t' = preimage t ++ frame_bytes (tag, value).
Proof.
  unfold t_append. intros H. inv_ok. apply u32be_Ok in Hv as [H1 ->], Hv0 as [H2 ->].
  subst. split; [split; [apply H1 | apply H2]|].
  unfold preimage. cbn [parts]. rewrite concat_app. cbn [concat]. by rewrite app_nil_r.
Qed.

Lemma t_append_succeeds tag value t :
  frame_ok (tag, value) → ∃ t', t_append tag value t = Ok (tt, t').
Proof.
  intros [H1 H2]. cbn [fst snd] in *. unfold t_append, u32be.
  pose proof (len_nonneg value). pose proof (len_nonneg (encode_utf8 tag)).
  rewrite (to_bytes_be_small (len (encode_utf8 tag))) by lia.
  rewrite (to_bytes_be_small (len value)) by lia. eexists. reflexivity.
Qed.

(** Appends a whole sequence of tagged slices. *)
Definition append_all (fs : list (string * bytes)) : TM unit :=
  for_each fs (λ f, t_append f.1 f.2).

Lemma append_all_Ok fs t u t' : append_all fs t = Ok (u, t') →
  Forall frame_ok fs ∧ preimage t' = preimage t ++ concat (frame_bytes <$> fs).
Proof.
  unfold append_all. revert t. induction fs as [|f fs IH]; intros t H.
  - injection H as _ <-. by rewrite app_nil_r.
  - apply bind_Ok_inv in H as ([? t1] & H1 & H).
    apply t_append_Ok in H1 as [Hf Hp]. apply IH in H as [Hfs Hp'].
    split; [by constructor; destruct f|]. rewrite Hp', Hp, <- app_assoc. by destruct f.
Qed.

Lemma append_all_succeeds fs t : Forall frame_ok fs → ∃ t', append_all fs t = Ok (tt, t').
Proof.
  unfold append_all. intros Hfs. revert t. induction Hfs as [|[tag v] fs Hf _ IH]; intros t.
  - by eexists.
  - destruct (t_append_succeeds tag v t Hf) as [t1 H1]. destruct (IH t1) as [t2 H2].
    exists t2. cbn [for_each]. by rewrite (TM_bind_Ok _ _ _ _ _ H1).
Qed.

Lemma append_all_cons tag v fs t :
  append_all ((tag, v) :: fs) t = (_ ← t_append tag v; append_all fs) t.
Proof. reflexivity. Qed.

Lemma append_all_singleton tag v t : append_all [(tag, v)] t = t_append tag v t.
Proof.
  unfold append_all. cbn [for_each fst snd]. unfold mbind, TM_bind.
  by destruct (t_append tag v t) as [[[] ?]|].
Qed.

Lemma append_all_app fs fs' t :
  append_all (fs ++ fs') t = (_ ← append_all fs; append_all fs') t.
Proof.
  revert t. induction fs as [|[tag v] fs IH]; intros t.
  - reflexivity.
  - cbn [app]. unfold mbind, TM_bind in *. rewrite !append_all_cons. unfold mbind, TM_bind.
    destruct (t_append tag v t) as [[[] t1]|]; [apply IH | done].
Qed.

(** Runs two computations that perform the same appends side by side. *)
Ltac tm_lockstep :=
  unfold mbind, TM_bind; rewrite ?append_all_cons; unfold mbind, TM_bind;
  repeat (rewrite ?append_scalar_frame, ?append_point_frame;
          match goal with
          | |- context [t_append ?tag ?v ?t] =>
              destruct (t_append tag v t) as [[[] ?]|]; cbn [mbind result_bind]; [|reflexivity];
              rewrite ?append_all_cons; unfold mbind, TM_bind
          end).

(** A length-prefixed slice is recovered from the front of a buffer. *)
Lemma be_len_app_inj (k : nat) (a b a' b' : bytes) :
  len a < 256 ^ Z.of_nat k → len b < 256 ^ Z.of_nat k →
  be_bytes k (len a) ++ a ++ a' = be_bytes k (len b) ++ b ++ b' → a = b ∧ a' = b'.
Proof.
  intros Ha Hb H. apply app_inj_1 in H as [H1 H2]; [|by rewrite !length_be_bytes].
  apply (f_equal from_bytes_be) in H1. rewrite !from_be_bytes, !Z.mod_small in H1
    by (split; [apply len_nonneg | done]).
  apply app_inj_1 in H2; [done|]. unfold len in H1. lia.
Qed.

Lemma frame_bytes_nonempty f l : frame_bytes f ++ l ≠ [].
Proof.
  intros E%(f_equal len). unfold frame_bytes in E. rewrite !len_app in E.
  unfold len in E. rewrite !length_be_bytes in E. cbn in E. lia.
Qed.

Lemma frames_inj fs fs' : Forall frame_ok fs → Forall frame_ok fs' →
  concat (frame_bytes <$> fs) = concat (frame_bytes <$> fs') → fs = fs'.
Proof.
  intros Hfs. revert fs'. induction Hfs as [|[tag v] fs [Ht Hv] _ IH]; intros fs' Hfs' Heq.
  - destruct Hfs' as [|f fs' _ _]; [done|].
    symmetry in Heq. by apply frame_bytes_nonempty in Heq.
  - destruct Hfs' as [|[tag' v'] fs' [Ht' Hv'] Hfs']; [by apply frame_bytes_nonempty in Heq|].
    change (frame_bytes (tag, v) ++ concat (frame_bytes <$> fs)
      = frame_bytes (tag', v') ++ concat (frame_bytes <$> fs')) in Heq.
    unfold frame_bytes in Heq. cbn [fst snd] in *. rewrite <- !app_assoc in Heq.
    apply be_len_app_inj in Heq as [Htag Heq]; [|assumption..].
    apply be_len_app_inj in Heq as [-> Heq]; [|assumption..].
    apply encode_utf8_inj in Htag as ->. f_equal. by apply IH.
Qed.

Lemma frame_cons_inj (tag tag' : string) (v v' : bytes) fs fs' :
  (tag, v) :: fs = (tag', v') :: fs' → v = v' ∧ fs = fs'.
Proof. by intros [= _ -> ->]. Qed.

(** [t'] is [t] extended by the frames [fs]. *)
Definition extends (t : Transcript) (fs : list (string * bytes)) (t' : Transcript) : Prop :=
  Forall frame_ok fs ∧ preimage t' = preimage t ++ concat (frame_bytes <$> fs).

Lemma extends_trans t fs t1 gs t2 : extends t fs t1 → extends t1 gs t2 → extends t (fs ++ gs) t2.
Proof.
  intros [Hf Hp] [Hg Hq]. split; [by apply Forall_app|].
  by rewrite Hq, Hp, fmap_app, concat_app, app_assoc.
Qed.

Lemma t_append_extends tag v t u t' : t_append tag v t = Ok (u, t') → extends t [(tag, v)] t'.
Proof.
  intros [Hf Hp]%t_append_Ok. split; [by apply Forall_singleton|]. cbn. by rewrite app_nil_r.
Qed.

Lemma append_scalar_extends `{Crypto} tag s t u t' : append_scalar tag s t = Ok (u, t') →
  extends t [(tag, be_bytes 32 (s mod CURVE_ORDER))] t'.
Proof. rewrite append_scalar_frame. apply t_append_extends. Qed.

Lemma append_point_extends `{CryptoLaws} tag P t u t' : append_point tag P t = Ok (u, t') →
  extends t [(tag, pt_to_compressed G2ops P)] t'.
Proof. rewrite append_point_frame. apply t_append_extends. Qed.

Lemma challenge_extends `{Crypto} tag t e t' : challenge tag t = Ok (e, t') →
  extends t [(tag +:+ ":chal", be_bytes 32 (e mod CURVE_ORDER))] t'.
Proof.
  unfold challenge. intros Hc. inv_ok. destruct v0 as [u t1]. inv_ok. subst.
  by eapply append_scalar_extends.
Qed.

Lemma for_each_extends {A} (l : list A) (body : A → TM unit) (fr : A → list (string * bytes)) t u t' :
  (∀ x t u t', x ∈ l → body x t = Ok (u, t') → extends t (fr x) t') →
  for_each l body t = Ok (u, t') → extends t (concat (fr <$> l)) t'.
Proof.
  revert t. induction l as [|x l IH]; intros t Hb Hr; cbn [for_each] in Hr; inv_tm.
  - split; [constructor|]. by rewrite app_nil_r.
  - cbn. eapply extends_trans; [eapply Hb; [left|done]|].
    eapply IH; [|done]. intros y ? ? ? Hy. apply Hb. by right.
Qed.

(** Two extensions of one transcript with the same bytes appended the same frames. *)
Lemma extends_inj t fs t1 gs t2 :
  extends t fs t1 → extends t gs t2 → preimage t1 = preimage t2 → fs = gs.
Proof.
  intros [Hf Hp] [Hg Hq] Heq. rewrite Hp, Hq in Heq. apply app_inv_head in Heq.
  by apply frames_inj.
Qed.

(** ** Nothing raises on short tags *)

(** A tag short enough to be framed, with room for the challenge suffix. *)
Definition short_tag (tag : string) : Prop := Z.of_nat (String.length tag) < 2 ^ 31.

Lemma short_tag_len tag : short_tag tag → len (encode_utf8 tag) < 2 ^ 31.
Proof. unfold len. by rewrite encode_utf8_length. Qed.

Lemma append_bytes_succeeds tag v t :
  short_tag tag → len v < 2 ^ 32 → ∃ t', t_append tag v t = Ok (tt, t').
Proof.
  intros Ht%short_tag_len Hv. apply t_append_succeeds. split; cbn [fst snd]; lia.
Qed.

Lemma append_scalar_succeeds `{Crypto} tag s t :
  short_tag tag → ∃ t', append_scalar tag s t = Ok (tt, t').
Proof.
  rewrite append_scalar_frame. intros Ht. apply append_bytes_succeeds; [done|].
  unfold len. rewrite length_be_bytes. lia.
Qed.

Lemma append_point_succeeds `{CryptoLaws} tag P t :
  short_tag tag → ∃ t', append_point tag P t = Ok (tt, t').
Proof.
  rewrite append_point_frame. intros Ht. apply append_bytes_succeeds; [done|].
  rewrite compressed_size. unfold G2_BYTES. lia.
Qed.

Lemma string_length_app s s' : String.length (s +:+ s') = (String.length s + String.length s')%nat.
Proof. induction s as [|c s IH]; [done|]. exact (f_equal S IH). Qed.

Lemma challenge_succeeds `{Crypto} tag t :
  Z.of_nat (String.length tag) < 2 ^ 30 → ∃ e t', challenge tag t = Ok (e, t').
Proof.
  intros Ht. unfold challenge, u32be.
  assert (Hl : 0 <= len (encode_utf8 tag) < 2 ^ 30) by (unfold len; rewrite encode_utf8_length; lia).
  rewrite to_bytes_be_small by (change (256 ^ Z.of_nat 4) with (2 ^ 32); lia).
  cbn [mbind result_bind].
  edestruct (append_scalar_succeeds (tag +:+ ":chal")) as [t' Ht']; [|rewrite Ht'; by do 2 eexists].
  unfold short_tag. rewrite string_length_app. cbn. lia.
Qed.

Lemma for_each_succeeds {A} (l : list A) (body : A → TM unit) t :
  (∀ x t, x ∈ l → ∃ t', body x t = Ok (tt, t')) → ∃ t', for_each l body t = Ok (tt, t').
Proof.
  revert t. induction l as [|x l IH]; intros t Hb; [by eexists|].
  destruct (Hb x t) as [t1 H1]; [left|]. destruct (IH t1) as [t2 H2].
  { intros y t0 Hy. apply Hb. by right. }
  exists t2. cbn [for_each]. by rewrite (TM_bind_Ok _ _ _ _ _ H1).
Qed.

(** Runs the next append of a computation whose tag is short. *)
Ltac tm_run :=
  match goal with
  | |- context [mbind (M:=TM) _ (append_point ?tag ?P) ?t] =>
      let t1 := fresh "t" in let E := fresh "E" in
      destruct (append_point_succeeds tag P t) as [t1 E]; [unfold short_tag; cbn; lia|];
      rewrite (TM_bind_Ok _ _ _ _ _ E)
  | |- context [mbind (M:=TM) _ (append_scalar ?tag ?P) ?t] =>
      let t1 := fresh "t" in let E := fresh "E" in
      destruct (append_scalar_succeeds tag P t) as [t1 E]; [unfold short_tag; cbn; lia|];
      rewrite (TM_bind_Ok _ _ _ _ _ E)
  | |- context [mbind (M:=TM) _ (challenge ?tag) ?t] =>
      let e := fresh "e" in let t1 := fresh "t" in let E := fresh "E" in
      destruct (challenge_succeeds tag t) as (e & t1 & E); [cbn; lia|];
      rewrite (TM_bind_Ok _ _ _ _ _ E)
  end.

(** Chains the [extends] facts of a run. *)
Ltac chain_extends :=
  repeat match goal with
  | H : t_append _ _ _ = Ok _ |- _ => apply t_append_extends in H
  | H : append_scalar _ _ _ = Ok _ |- _ => apply append_scalar_extends in H
  | H : append_point _ _ _ = Ok _ |- _ => apply append_point_extends in H
  | H : challenge _ _ = Ok _ |- _ => apply challenge_extends in H
  end;
  repeat first [eassumption | eapply extends_trans; [eassumption|]].

(** * Properties *)

(** the transcript framing is injective: if two sequences of tagged
    slices appended to the same transcript leave the same bytes, they are the
    same tags and the same values in the same order, however the slices are
    cut. *)
Theorem transcript_framing_injective fs gs t t1 t2 :
  append_all fs t = Ok (tt, t1) → append_all gs t = Ok (tt, t2) →
  preimage t1 = preimage t2 → fs = gs.
Proof. intros H1%append_all_Ok H2%append_all_Ok. by eapply extends_inj. Qed.

Lemma transcript_framing_injective_witness :
  let t := new_transcript "label" in
  let fs := [("tag", [Byte.x01; Byte.x02])] in
  ∃ t1 t2, append_all fs t = Ok (tt, t1) ∧ append_all [("tag", [Byte.x01; Byte.x02])] t = Ok (tt, t2) ∧
    preimage t1 = preimage t2 ∧ fs = [("tag", [Byte.x01; Byte.x02])].
Proof.
  intros t fs. do 2 eexists. split; [reflexivity|]. split; [reflexivity|]. split; [reflexivity|].
  eapply (transcript_framing_injective fs _ t); reflexivity.
Defined.
