(* ===== verification/Elgamal.v ===== *)
(** Exponential ElGamal in G2 (crypto/elgamal.py): encryption, the
    homomorphic operations, and what they do to plaintexts and randomness.
    The encryption randomness [r] is an explicit argument (the code draws it
    with [random_scalar] when the caller gives none). *)

From Stdlib Require Import Zmod.
From S2P Require Import Prelude Params Primality Field Points.

Section elgamal.
Context `{Crypto}.

Definition Ciphertext : Type := pt G2ops * pt G2ops.

Definition encrypt (mpk : pt G2ops) (m r : Z) : pt G2ops * pt G2ops * Z :=
  let c1 := mul G2 r in
  let c2 := add (mul mpk r) (mul G2 m) in
  (c1, c2, r).

Definition add_ct (a b : Ciphertext) : Ciphertext := (add a.1 b.1, add a.2 b.2).

Definition scalar_mul_ct (k : Z) (a : Ciphertext) : Ciphertext := (mul a.1 k, mul a.2 k).

Definition sum_cts (cts : list Ciphertext) : Ciphertext :=
  foldl (λ s ct, (add s.1 ct.1, add s.2 ct.2)) (Z2, Z2) cts.

(** ** What a ciphertext holds *)

(** [ct] encrypts [m] under [mpk] with randomness [r]. *)
Definition encrypts (mpk : pt G2ops) (ct : Ciphertext) (m r : Z) : Prop :=
  ct = (encrypt mpk m r).1.

Definition ct_subgroup (ct : Ciphertext) : Prop := in_subgroup ct.1 ∧ in_subgroup ct.2.

Context `{!CryptoLaws}.
Implicit Types (mpk : pt G2ops).

Lemma encrypt_subgroup mpk m r : in_subgroup mpk → ct_subgroup (encrypt mpk m r).1.
Proof. split; cbn; solve_subgroup. Qed.

Lemma encrypts_add mpk a b m n r s : in_subgroup mpk →
  encrypts mpk a m r → encrypts mpk b n s → encrypts mpk (add_ct a b) (m + n) (r + s).
Proof.
  intros Hm -> ->. unfold encrypts, add_ct, encrypt; cbn.
  f_equal; solve_point; ring.
Qed.

Lemma encrypts_scalar_mul mpk k a m r : in_subgroup mpk →
  encrypts mpk a m r → encrypts mpk (scalar_mul_ct k a) (k * m) (k * r).
Proof.
  intros Hm ->. unfold encrypts, scalar_mul_ct, encrypt; cbn. f_equal; solve_point; ring.
Qed.

Lemma encrypts_eqq mpk a m n r s :
  encrypts mpk a m r → m ≡q n → r ≡q s → encrypts mpk a n s.
Proof.
  intros -> Hm Hr. unfold encrypts, encrypt; cbn.
  by rewrite (mul_eqq G2 m n), (mul_eqq G2 r s), (mul_eqq mpk r s).
Qed.

Lemma encrypts_zero mpk : in_subgroup mpk → encrypts mpk (Z2, Z2) 0 0.
Proof. intros Hm. unfold encrypts, encrypt; cbn. f_equal; solve_point; ring. Qed.

Lemma sum_cts_snoc cts ct : sum_cts (cts ++ [ct]) = add_ct (sum_cts cts) ct.
Proof. unfold sum_cts. by rewrite foldl_app. Qed.

(** The sum of a list of ciphertexts encrypts the sum of the plaintexts, with
    the sum of the randomness. *)
Lemma sum_cts_encrypts mpk {A} (l : list A) (ct : A → Ciphertext) (m r : A → Z) :
  in_subgroup mpk → (∀ x, x ∈ l → encrypts mpk (ct x) (m x) (r x)) →
  encrypts mpk (sum_cts (ct <$> l)) (zsum_with m l) (zsum_with r l).
Proof.
  intros Hm. induction l as [|x l IH] using rev_ind; intros Hl.
  - by apply encrypts_zero.
  - rewrite !fmap_app, !zsum_app. cbn [fmap list_fmap zsum foldr].
    rewrite sum_cts_snoc, !Z.add_0_r.
    apply encrypts_add; [done|apply IH; set_solver|apply Hl; set_solver].
Qed.

(** The plaintext point under the master key [msk]. *)
Lemma encrypts_decrypt mpk msk ct m r : mpk = mul G2 msk →
  encrypts mpk ct m r → add ct.2 (neg (mul ct.1 msk)) = mul G2 m.
Proof. intros -> ->. unfold encrypt; cbn. solve_point. ring. Qed.

End elgamal.

(** * Properties *)

(** the weighted tally is homomorphic: summing the scaled ciphertexts
    [k_i * Enc(m_i, r_i)] gives an encryption of [Σ k_i m_i], and under the
    master secret key it decrypts to the point [(Σ k_i m_i) * P2]. *)
Theorem weighted_sum_decrypts `{CryptoLaws} {A} mpk msk (l : list A)
    (ct : A → Ciphertext) (k m r : A → Z) :
  mpk = mul G2 msk → (∀ x, x ∈ l → encrypts mpk (ct x) (m x) (r x)) →
  let total := sum_cts ((λ x, scalar_mul_ct (k x) (ct x)) <$> l) in
  encrypts mpk total (zsum_with (λ x, k x * m x) l) (zsum_with (λ x, k x * r x) l) ∧
  add total.2 (neg (mul total.1 msk)) = mul G2 (zsum_with (λ x, k x * m x) l).
Proof.
  intros Hmpk Hl total.
  assert (Hsub : in_subgroup mpk) by (subst; solve_subgroup).
  assert (Hs : encrypts mpk total (zsum_with (λ x, k x * m x) l) (zsum_with (λ x, k x * r x) l)).
  { apply sum_cts_encrypts; [done|]. intros x Hx. by apply encrypts_scalar_mul, Hl. }
  split; [done|]. by eapply encrypts_decrypt.
Qed.

Lemma weighted_sum_decrypts_witness :
  let mpk := @mul (@G2ops concrete_crypto) G2 7 in
  let ct (x : Z * Z) := (encrypt mpk x.2 11).1 in
  let total := sum_cts ((λ x, scalar_mul_ct x.1 (ct x)) <$> [(2, 1); (3, 5)]) in
  encrypts mpk total 17 55 ∧ add total.2 (neg (mul total.1 7)) = mul G2 17.
Proof.
  intros mpk ct total.
  apply (weighted_sum_decrypts mpk 7 [(2, 1); (3, 5)] ct fst snd (λ _, 11)); [reflexivity|].
  intros x _. reflexivity.
Defined.
