(* ===== verification/Schnorr.v ===== *)
(** Schnorr signatures on G1 (crypto/schnorr.py) and the [ATTESTATION_V1]
    eligibility credential built on them (crypto/attestation.py).  The nonce
    [k] of a signature is an explicit argument. *)

From Stdlib Require Import Zmod.
From S2P Require Import Prelude Params Primality Field Points Transcript.

(** * schnorr.py *)

Module schnorr.
Section schnorr.
Context `{Crypto}.

Definition _challenge (R vk : pt G1ops) (msg : bytes) : result Z :=
  rb ← g1_to_compressed R;
  vb ← g1_to_compressed vk;
  Ok (hash_to_scalar DST_SCHNORR [rb; vb; msg]).

Definition keygen (sk : Z) : result (Z * pt G1ops) :=
  let sk := sk mod CURVE_ORDER in
  _ ← raise_if (sk =? 0) ValueError;
  Ok (sk, mul G1 sk).

Definition sign (sk : Z) (vk : pt G1ops) (msg : bytes) (k : Z) : result (pt G1ops * Z) :=
  let k := k mod CURVE_ORDER in
  let R := mul G1 k in
  e ← _challenge R vk msg;
  Ok (R, (k + e * (sk mod CURVE_ORDER)) mod CURVE_ORDER).

Definition verify (vk : pt G1ops) (msg : bytes) (R : pt G1ops) (s : Z) : result bool :=
  if point_eq vk Z1 then Ok false else
  e ← _challenge R vk msg;
  Ok (point_eq (mul G1 s) (add R (mul vk e))).

Definition encode (R : pt G1ops) (s : Z) : result bytes :=
  rb ← g1_to_compressed R;
  sb ← scalar_to_bytes s;
  Ok (rb ++ sb).

Definition decode (b : bytes) : result (pt G1ops * Z) :=
  _ ← raise_if (negb (len b =? SCHNORR_BYTES)) ValueError;
  R ← g1_from_compressed (take 48 b);
  s ← scalar_from_bytes (drop 48 b);
  Ok (R, s).

Context `{!CryptoLaws}.

Lemma _challenge_Ok R vk msg : _challenge R vk msg =
  Ok (hash_to_scalar DST_SCHNORR [pt_to_compressed _ R; pt_to_compressed _ vk; msg]).
Proof. unfold _challenge, g1_to_compressed. by rewrite !to_compressed_Ok. Qed.

(** A key pair of [keygen]: a non-zero scalar and its multiple of [P1]. *)
Lemma keygen_Ok sk sk' vk : keygen sk = Ok (sk', vk) →
  sk' = sk mod CURVE_ORDER ∧ sk' ≠ 0 ∧ vk = mul G1 sk' ∧ in_subgroup vk ∧ point_eq vk Z1 = false.
Proof.
  unfold keygen. intros Hk. inv_ok. subst. apply Z.eqb_neq in Hv.
  split_and!; [done|done|done|solve_subgroup|].
  apply not_true_is_false. intros E%point_eq_spec. apply Hv.
  solve_point. apply inF_inj_small; [apply mod_q_range|pose proof q_pos; lia|].
  autorewrite with F_rw. rewrite <- E. ring.
Qed.

Lemma sign_verify sk vk msg k R s :
  vk = mul G1 sk → point_eq vk Z1 = false →
  sign sk vk msg k = Ok (R, s) → verify vk msg R s = Ok true.
Proof.
  intros -> Hz Hs. unfold sign in Hs. inv_ok. subst. unfold verify. rewrite Hz, Hv.
  cbn. f_equal. apply point_eq_spec. solve_point. ring.
Qed.

Lemma sign_succeeds sk vk msg k : ∃ R s, sign sk vk msg k = Ok (R, s) ∧
  in_subgroup R ∧ 0 <= s < CURVE_ORDER.
Proof.
  unfold sign. rewrite _challenge_Ok. do 2 eexists.
  split; [reflexivity|]. split; [solve_subgroup|apply mod_q_range].
Qed.

(** [s] is determined by the key, the message and [R]. *)
Lemma verify_unique vk msg R s s' : in_subgroup vk → in_subgroup R →
  verify vk msg R s = Ok true → verify vk msg R s' = Ok true → s ≡q s'.
Proof.
  intros Hvk HR H1 H2. unfold verify in *. destruct (point_eq vk Z1); [done|].
  rewrite _challenge_Ok in *. injection H1 as H1%point_eq_spec. injection H2 as H2%point_eq_spec.
  rewrite <- H2 in H1. clear H2. apply eqq_F. solve_point.
  transitivity (F1 * inF s)%F; [ring|]. rewrite H1. ring.
Qed.

Lemma encode_decode R s b : in_subgroup R →
  encode R s = Ok b → decode b = Ok (R, s mod CURVE_ORDER).
Proof.
  intros HR He. unfold encode, g1_to_compressed in He. rewrite to_compressed_Ok in He.
  cbn [mbind result_bind] in He. inv_ok. subst.
  assert (Hlen : length (pt_to_compressed G1ops R) = 48%nat).
  { pose proof (compressed_size R) as Hsz. unfold len, G1_BYTES in Hsz. lia. }
  unfold decode, g1_from_compressed. rewrite take_app_length', drop_app_length' by done.
  unfold len. rewrite length_app, Hlen, (scalar_to_bytes_length _ _ Hv). cbn -[from_compressed scalar_from_bytes].
  rewrite from_to_compressed by done. cbn -[scalar_from_bytes]. by rewrite (scalar_roundtrip _ _ Hv).
Qed.

Lemma encode_succeeds R s : ∃ b, encode R s = Ok b ∧ len b = SCHNORR_BYTES.
Proof.
  unfold encode, g1_to_compressed. rewrite to_compressed_Ok, scalar_to_bytes_Ok.
  eexists. split; [reflexivity|]. rewrite len_app, compressed_size.
  unfold len. by rewrite length_be_bytes.
Qed.

Lemma decode_Ok b R s : decode b = Ok (R, s) →
  in_subgroup R ∧ 0 <= s < CURVE_ORDER ∧ len b = SCHNORR_BYTES.
Proof.
  unfold decode. intros Hd. inv_ok. subst. apply negb_false_iff, Z.eqb_eq in Hv.
  apply from_compressed_Ok in Hv0 as (HR & _ & _). apply scalar_from_bytes_range in Hv1. done.
Qed.

End schnorr.
End schnorr.

(** * attestation.py *)

Section attestation.
Context `{Crypto}.

(** The five appends of [_attestation_transcript]. *)
Definition attestation_appends (election_id pseudonym vk_bytes : bytes) (weight nonce : Z)
  : TM unit :=
  _ ← t_append "attest:electionId" election_id;
  _ ← t_append "attest:pseudonym" pseudonym;
  _ ← t_append "attest:vk" vk_bytes;
  _ ← append_scalar "attest:weight" weight;
  append_scalar "attest:nonce" nonce.

Definition _attestation_transcript (election_id pseudonym vk_bytes : bytes) (weight nonce : Z)
  : result Transcript :=
  _ ← raise_if (negb (len election_id =? 32)) ValueError;
  _ ← raise_if (negb (len pseudonym =? 32)) ValueError;
  _ ← raise_if (negb (len vk_bytes =? 48)) ValueError;
  _ ← raise_if (weight <? 1) ValueError;
  _ ← raise_if (nonce <? 1) ValueError;
  '(_, t) ← attestation_appends election_id pseudonym vk_bytes weight nonce
              (new_transcript ATTESTATION_LABEL);
  Ok t.

Definition attestation_message (election_id pseudonym vk_bytes : bytes) (weight nonce : Z)
  : result bytes :=
  t ← _attestation_transcript election_id pseudonym vk_bytes weight nonce;
  Ok (keccak (preimage t)).

Definition sign_attestation (elig_sk : Z) (elig_vk : pt G1ops)
    (election_id pseudonym vk_bytes : bytes) (weight nonce k : Z) : result bytes :=
  msg ← attestation_message election_id pseudonym vk_bytes weight nonce;
  '(R, s) ← schnorr.sign elig_sk elig_vk msg k;
  schnorr.encode R s.

(** [verify_attestation_sig]: any exception is [False]. *)
Definition verify_attestation_sig (elig_vk_bytes election_id pseudonym vk_bytes : bytes)
    (weight nonce : Z) (signature : bytes) : bool :=
  try_or
    (if negb (len election_id =? 32) || negb (len pseudonym =? 32) || negb (len vk_bytes =? 48)
     then Ok false else
     if (weight <? 1) || (nonce <? 1) then Ok false else
     elig_vk ← g1_from_compressed elig_vk_bytes;
     '(R, s) ← schnorr.decode signature;
     msg ← attestation_message election_id pseudonym vk_bytes weight nonce;
     schnorr.verify elig_vk msg R s)
    false.

(** ** The signed preimage *)

Definition attestation_frames (election_id pseudonym vk_bytes : bytes) (weight nonce : Z)
  : list (string * bytes) :=
  [("attest:electionId", election_id); ("attest:pseudonym", pseudonym); ("attest:vk", vk_bytes);
   ("attest:weight", be_bytes 32 (weight mod CURVE_ORDER));
   ("attest:nonce", be_bytes 32 (nonce mod CURVE_ORDER))].

Lemma attestation_appends_frames e p v w n t :
  attestation_appends e p v w n t = append_all (attestation_frames e p v w n) t.
Proof. unfold attestation_appends, attestation_frames. tm_lockstep. reflexivity. Qed.

Lemma _attestation_transcript_Ok e p v w n t :
  _attestation_transcript e p v w n = Ok t ↔
  len e = 32 ∧ len p = 32 ∧ len v = 48 ∧ 1 <= w ∧ 1 <= n ∧
  append_all (attestation_frames e p v w n) (new_transcript ATTESTATION_LABEL) = Ok (tt, t).
Proof.
  unfold _attestation_transcript. rewrite attestation_appends_frames.
  rewrite <- !Z.ltb_ge, <- !Z.eqb_eq.
  destruct (len e =? 32), (len p =? 32), (len v =? 48), (w <? 1), (n <? 1);
    try (split; [discriminate | intros (? & ? & ? & ? & ? & ?); discriminate]).
  cbn -[attestation_frames append_all].
  destruct (append_all (attestation_frames e p v w n) _) as [[[] t']|]; naive_solver.
Qed.

(** The signed preimage binds the election, the pseudonym, the key, and the
    weight and nonce as scalars. *)
Lemma attestation_preimage_inj e p v w n t e' p' v' w' n' t' :
  _attestation_transcript e p v w n = Ok t → _attestation_transcript e' p' v' w' n' = Ok t' →
  preimage t = preimage t' → e = e' ∧ p = p' ∧ v = v' ∧ w ≡q w' ∧ n ≡q n'.
Proof.
  intros Ht Ht'. apply _attestation_transcript_Ok in Ht, Ht'.
  destruct Ht as (_ & _ & _ & _ & _ & [Hf Hp]%append_all_Ok).
  destruct Ht' as (_ & _ & _ & _ & _ & [Hf' Hp']%append_all_Ok).
  rewrite Hp, Hp'. intros Heq%app_inv_head. apply frames_inj in Heq; [|done..].
  unfold attestation_frames in Heq.
  apply frame_cons_inj in Heq as [-> Heq]. apply frame_cons_inj in Heq as [-> Heq].
  apply frame_cons_inj in Heq as [-> Heq]. apply frame_cons_inj in Heq as [Hw Heq].
  apply frame_cons_inj in Heq as [Hn _]. unfold eqq. split_and!; auto using scalar_bytes_inj.
Qed.

(** The transcript depends on the weight and the nonce only modulo the order. *)
Lemma _attestation_transcript_eqq e p v w n w' n' : 1 <= w → 1 <= n → 1 <= w' → 1 <= n' →
  w ≡q w' → n ≡q n' → _attestation_transcript e p v w n = _attestation_transcript e p v w' n'.
Proof.
  intros Hw Hn Hw' Hn' Ew En. unfold _attestation_transcript.
  rewrite !(proj2 (Z.ltb_ge _ _)) by done. rewrite !attestation_appends_frames.
  unfold attestation_frames, eqq in *. by rewrite Ew, En.
Qed.

Lemma _attestation_transcript_succeeds e p v w n :
  len e = 32 → len p = 32 → len v = 48 → 1 <= w → 1 <= n →
  ∃ t, _attestation_transcript e p v w n = Ok t.
Proof.
  intros He Hp Hv Hw Hn.
  destruct (append_all_succeeds (attestation_frames e p v w n) (new_transcript ATTESTATION_LABEL))
    as [t Ht]; [|exists t; by apply _attestation_transcript_Ok].
  assert (Hs : ∀ s : Z, len (be_bytes 32 s) = 32) by (intros; unfold len; by rewrite length_be_bytes).
  repeat apply Forall_cons_2; try apply Forall_nil_2; split; cbn [fst snd]; rewrite ?Hs; (done || lia).
Qed.

Context `{!CryptoLaws}.

(** An attestation the eligibility key issues is accepted. *)
Lemma sign_attestation_verifies sk sk' vk vkb e p v w n k sig :
  schnorr.keygen sk = Ok (sk', vk) → g1_to_compressed vk = Ok vkb →
  sign_attestation sk' vk e p v w n k = Ok sig →
  verify_attestation_sig vkb e p v w n sig = true.
Proof.
  intros (-> & _ & -> & Hsub & Hz)%schnorr.keygen_Ok Hvkb Hs.
  unfold g1_to_compressed in Hvkb. rewrite to_compressed_Ok in Hvkb. injection Hvkb as <-.
  unfold sign_attestation in Hs. inv_ok. destruct v1 as [R s].
  unfold verify_attestation_sig. rewrite Hv.
  pose proof (schnorr.sign_verify _ _ _ _ _ _ eq_refl Hz Hv0) as Hver.
  unfold attestation_message in Hv. inv_ok.
  apply _attestation_transcript_Ok in Hv1 as (-> & -> & -> & Hw & Hn & _).
  rewrite (proj2 (Z.ltb_ge w 1)), (proj2 (Z.ltb_ge n 1)) by done.
  unfold g1_from_compressed. rewrite from_to_compressed by done.
  unfold schnorr.sign in Hv0. inv_ok. subst.
  rewrite (schnorr.encode_decode (mul G1 (k mod CURVE_ORDER)) _ _ ltac:(solve_subgroup) Hs).
  cbn -[schnorr.verify]. rewrite Z.mod_mod by (pose proof q_pos; lia). cbn -[schnorr.verify]. by rewrite Hver.
Qed.

Lemma sign_attestation_succeeds sk vk e p v w n k :
  len e = 32 → len p = 32 → len v = 48 → 1 <= w → 1 <= n →
  ∃ sig, sign_attestation sk vk e p v w n k = Ok sig ∧ len sig = SCHNORR_BYTES.
Proof.
  intros He Hp Hv Hw Hn. destruct (_attestation_transcript_succeeds e p v w n) as [t Ht]; [done..|].
  unfold sign_attestation, attestation_message. rewrite Ht. cbn [mbind result_bind].
  destruct (schnorr.sign_succeeds sk vk (keccak (preimage t)) k) as (R & s & -> & _ & _).
  apply schnorr.encode_succeeds.
Qed.

Lemma verify_attestation_sig_true vkb e p v w n sig :
  verify_attestation_sig vkb e p v w n sig = true →
  len e = 32 ∧ len p = 32 ∧ len v = 48 ∧ 1 <= w ∧ 1 <= n ∧
  ∃ vk R s msg, g1_from_compressed vkb = Ok vk ∧ schnorr.decode sig = Ok (R, s) ∧
    attestation_message e p v w n = Ok msg ∧ schnorr.verify vk msg R s = Ok true.
Proof.
  unfold verify_attestation_sig.
  destruct (Z.eqb_spec (len e) 32), (Z.eqb_spec (len p) 32), (Z.eqb_spec (len v) 48); try done.
  destruct (Z.ltb_spec w 1), (Z.ltb_spec n 1); try done. cbn [negb orb].
  intros Ht. split_and!; try (done || lia).
  destruct (g1_from_compressed vkb) as [vk|] eqn:E1; [cbn in Ht|done].
  destruct (schnorr.decode sig) as [[R s]|] eqn:E2; [cbn in Ht|done].
  destruct (attestation_message e p v w n) as [msg|] eqn:E3; [cbn in Ht|done].
  destruct (schnorr.verify vk msg R s) as [[]|] eqn:E4; try done.
  by exists vk, R, s, msg.
Qed.

(** The signature covers the weight and the nonce as scalars only. *)
Lemma verify_attestation_sig_eqq vkb e p v w n w' n' sig :
  1 <= w' → 1 <= n' → w ≡q w' → n ≡q n' →
  verify_attestation_sig vkb e p v w n sig = true →
  verify_attestation_sig vkb e p v w' n' sig = true.
Proof.
  intros Hw' Hn' Ew En (He & Hp & Hv & Hw & Hn & vk & R & s & msg & E1 & E2 & E3 & E4)
    %verify_attestation_sig_true.
  unfold verify_attestation_sig. rewrite He, Hp, Hv, (proj2 (Z.ltb_ge w' 1)), (proj2 (Z.ltb_ge n' 1)) by done.
  rewrite E1, E2. unfold attestation_message in *.
  rewrite <- (_attestation_transcript_eqq e p v w n w' n') by done.
  cbn -[_attestation_transcript schnorr.verify]. rewrite E3. cbn -[schnorr.verify]. by rewrite E4.
Qed.

End attestation.

(** * Properties *)

(** a signature made with a generated key is accepted: signing always
    returns, its 80-byte encoding decodes to the same [(R, s)], and [verify]
    accepts it under the matching key. *)
Theorem schnorr_sign_verify `{CryptoLaws} sk sk' vk msg k :
  schnorr.keygen sk = Ok (sk', vk) →
  ∃ R s b, schnorr.sign sk' vk msg k = Ok (R, s) ∧ schnorr.encode R s = Ok b ∧
    len b = SCHNORR_BYTES ∧ schnorr.decode b = Ok (R, s) ∧ schnorr.verify vk msg R s = Ok true.
Proof.
  intros (-> & _ & Hvk & _ & Hz)%schnorr.keygen_Ok.
  destruct (schnorr.sign_succeeds (sk mod CURVE_ORDER) vk msg k) as (R & s & Hs & HR & Hr).
  destruct (schnorr.encode_succeeds R s) as (b & Hb & Hl).
  exists R, s, b. split_and!; [done..| |by eapply schnorr.sign_verify].
  rewrite (schnorr.encode_decode R s b HR Hb). by rewrite Z.mod_small.
Qed.

Lemma schnorr_sign_verify_witness :
  let c := concrete_crypto in
  ∃ vk R s b, schnorr.keygen 9 = Ok (9, vk) ∧ schnorr.sign 9 vk [Byte.x07] 5 = Ok (R, s) ∧
    schnorr.encode R s = Ok b ∧ schnorr.decode b = Ok (R, s) ∧
    schnorr.verify vk [Byte.x07] R s = Ok true.
Proof.
  intros c. destruct (schnorr.keygen 9) as [[sk vk]|] eqn:E; [|vm_compute in E; discriminate].
  assert (sk = 9) as -> by (vm_compute in E; congruence). exists vk.
  destruct (schnorr_sign_verify 9 9 vk [Byte.x07] 5 E) as (R & s & b & H1 & H2 & _ & H3 & H4).
  exists R, s, b. exact (conj eq_refl (conj H1 (conj H2 (conj H3 H4)))).
Defined.

(** two accepted signatures on one message with the same commitment [R]
    have the same [s]: a third party cannot vary the second half. *)
Theorem schnorr_s_unique `{CryptoLaws} vk msg b b' R s s' :
  in_subgroup vk → schnorr.decode b = Ok (R, s) → schnorr.decode b' = Ok (R, s') →
  schnorr.verify vk msg R s = Ok true → schnorr.verify vk msg R s' = Ok true → s = s'.
Proof.
  intros Hvk (HR & Hs & _)%schnorr.decode_Ok (_ & Hs' & _)%schnorr.decode_Ok H1 H2.
  apply eqq_small; [done..|]. exact (schnorr.verify_unique vk msg R s s' Hvk HR H1 H2).
Qed.

Lemma schnorr_s_unique_witness :
  let c := concrete_crypto in
  ∃ vk b R s, schnorr.decode b = Ok (R, s) ∧ schnorr.verify vk [Byte.x07] R s = Ok true ∧ s = s.
Proof.
  intros c. destruct (schnorr.sign 9 (mul G1 9) [Byte.x07] 5) as [[R s]|] eqn:E; [|vm_compute in E; discriminate].
  destruct (schnorr.encode R s) as [b|] eqn:Eb; [|vm_compute in E; injection E as <- <-; vm_compute in Eb; discriminate].
  exists (mul G1 9), b, R, s.
  assert (Hd : schnorr.decode b = Ok (R, s)).
  { vm_compute in E. injection E as <- <-. vm_compute in Eb. injection Eb as <-. vm_compute. reflexivity. }
  assert (Hv : schnorr.verify (mul G1 9) [Byte.x07] R s = Ok true).
  { vm_compute in E. injection E as <- <-. vm_compute. reflexivity. }
  split; [exact Hd|]. split; [exact Hv|].
  exact (schnorr_s_unique (mul G1 9) [Byte.x07] b b R s s eq_refl Hd Hd Hv Hv).
Defined.

(** issuing and verifying an attestation agree: on well-formed fields the
    eligibility key always produces an 80-byte signature, and the normative
    check accepts it. *)
Theorem attestation_issue_verifies `{CryptoLaws} sk sk' vk vkb e p v w n k :
  schnorr.keygen sk = Ok (sk', vk) → g1_to_compressed vk = Ok vkb →
  len e = 32 → len p = 32 → len v = 48 → 1 <= w → 1 <= n →
  ∃ sig, sign_attestation sk' vk e p v w n k = Ok sig ∧ len sig = SCHNORR_BYTES ∧
    verify_attestation_sig vkb e p v w n sig = true.
Proof.
  intros Hk Hb He Hp Hv Hw Hn.
  destruct (sign_attestation_succeeds sk' vk e p v w n k He Hp Hv Hw Hn) as (sig & Hs & Hl).
  exists sig. split_and!; [done..|]. by eapply sign_attestation_verifies.
Qed.

Lemma attestation_issue_verifies_witness :
  let c := concrete_crypto in
  ∃ vk vkb sig, g1_to_compressed vk = Ok vkb ∧
    sign_attestation 9 vk (replicate 32 Byte.x01) (replicate 32 Byte.x02) (replicate 48 Byte.x03) 4 1 5
      = Ok sig ∧
    verify_attestation_sig vkb (replicate 32 Byte.x01) (replicate 32 Byte.x02)
      (replicate 48 Byte.x03) 4 1 sig = true.
Proof.
  intros c. exists (mul G1 9).
  destruct (attestation_issue_verifies 9 9 (mul G1 9) (pt_to_compressed _ (mul G1 9))
    (replicate 32 Byte.x01) (replicate 32 Byte.x02) (replicate 48 Byte.x03) 4 1 5)
    as (sig & H1 & _ & H2); [vm_compute; reflexivity..|vm_compute; discriminate|vm_compute; discriminate|].
  exists (pt_to_compressed _ (mul G1 9)), sig. split; [vm_compute; reflexivity|].
  exact (conj H1 H2).
Defined.

(** the signed preimage binds the credential: equal preimages come from
    the same election, pseudonym and voting key, and from weights and nonces
    that are equal modulo the group order. *)
Theorem attestation_binds e p v w n t e' p' v' w' n' t' `{Crypto} :
  _attestation_transcript e p v w n = Ok t → _attestation_transcript e' p' v' w' n' = Ok t' →
  preimage t = preimage t' → e = e' ∧ p = p' ∧ v = v' ∧ w ≡q w' ∧ n ≡q n'.
Proof. apply attestation_preimage_inj. Qed.

Lemma attestation_binds_witness :
  let c := concrete_crypto in
  let e := replicate 32 Byte.x01 in let p := replicate 32 Byte.x02 in let v := replicate 48 Byte.x03 in
  ∃ t, _attestation_transcript e p v 4 1 = Ok t ∧ e = e ∧ p = p ∧ v = v ∧ 4 ≡q 4 ∧ 1 ≡q 1.
Proof.
  intros c e p v. destruct (_attestation_transcript e p v 4 1) as [t|] eqn:E; [|vm_compute in E; discriminate].
  exists t. split; [reflexivity|]. exact (attestation_binds e p v 4 1 t e p v 4 1 t E E eq_refl).
Defined.

(** the credential does not bind its weight or nonce as integers: a
    signature issued for weight [w] and nonce [n] is accepted for every
    weight and nonce congruent to them modulo the group order, in particular
    for [w + CURVE_ORDER]. *)
Theorem attestation_weight_wraps `{CryptoLaws} vkb e p v w n i j sig :
  0 <= i → 0 <= j → verify_attestation_sig vkb e p v w n sig = true →
  verify_attestation_sig vkb e p v (w + i * CURVE_ORDER) (n + j * CURVE_ORDER) sig = true.
Proof.
  intros Hi Hj Hv. pose proof (verify_attestation_sig_true _ _ _ _ _ _ _ Hv) as (_ & _ & _ & Hw & Hn & _).
  pose proof q_pos. assert (Hq : inF CURVE_ORDER = F0) by (rewrite <- inF_mod, Z_mod_same_full; apply inF_0).
  eapply verify_attestation_sig_eqq; [nia|nia| | |exact Hv];
    apply eqq_F; autorewrite with F_rw; rewrite Hq; ring.
Qed.

Lemma attestation_weight_wraps_witness :
  let c := concrete_crypto in
  ∃ vkb sig, let e := replicate 32 Byte.x01 in let p := replicate 32 Byte.x02 in
    let v := replicate 48 Byte.x03 in
    sign_attestation 9 (mul G1 9) e p v 4 1 5 = Ok sig ∧
    verify_attestation_sig vkb e p v (4 + 1 * CURVE_ORDER) (1 + 0 * CURVE_ORDER) sig = true.
Proof.
  intros c. exists (pt_to_compressed _ (mul G1 9)).
  destruct (sign_attestation 9 (mul G1 9) (replicate 32 Byte.x01) (replicate 32 Byte.x02)
    (replicate 48 Byte.x03) 4 1 5) as [sig|] eqn:E; [|vm_compute in E; discriminate].
  exists sig. cbn zeta. split; [exact E|].
  apply (attestation_weight_wraps (pt_to_compressed _ (mul G1 9)) (replicate 32 Byte.x01)
    (replicate 32 Byte.x02) (replicate 48 Byte.x03) 4 1 1 0 sig); [lia|lia|].
  vm_compute in E. injection E as <-. vm_compute. reflexivity.
Defined.
