(* ===== verification/Proofs.v ===== *)
(** The Fiat-Shamir sigma proofs (crypto/proofs.py): Chaum-Pedersen DLEQ, the
    decryption-share DLEQ, the (B+1)-branch OR proof and the budget proofs,
    as programs on a shared transcript; completeness of each prover against
    its verifier, and extraction of a witness from two accepting answers to
    the same commitments. *)

From Stdlib Require Import Zmod.
From S2P Require Import Prelude Params Primality Field Points Transcript Elgamal.

(** * Definitions *)

Section proofs.
Context `{Crypto}.

Definition make_decrypt_transcript (election_id : bytes) (candidate_index : Z) : result Transcript :=
  _ ← raise_if (negb (len election_id =? 32)) ValueError;
  _ ← raise_if (negb ((0 <=? candidate_index) && (candidate_index <? 2 ^ 16))) ValueError;
  '(_, t) ← (_ ← t_append "electionId" election_id;
             c ← lift (u16be candidate_index);
             t_append "candidate" c) (new_transcript ONCHAIN_DECRYPT_LABEL);
  Ok t.

(** ** DLEQ *)

Definition encode_dleq (e z : Z) : result bytes :=
  eb ← scalar_to_bytes e;
  zb ← scalar_to_bytes z;
  Ok (eb ++ zb).

Definition decode_dleq (b : bytes) : result (Z * Z) :=
  _ ← raise_if (negb (len b =? DLEQ_BYTES)) ValueError;
  e ← scalar_from_bytes (take 32 b);
  z ← scalar_from_bytes (drop 32 b);
  Ok (e, z).

Definition _bind_statement_dleq (base1 point1 base2 point2 : pt G2ops) : TM unit :=
  _ ← append_point "dleq:base1" base1;
  _ ← append_point "dleq:base2" base2;
  _ ← append_point "dleq:point1" point1;
  append_point "dleq:point2" point2.

Definition prove_dleq (base1 point1 base2 point2 : pt G2ops) (x w : Z) : TM (Z * Z) :=
  let a1 := mul base1 w in
  let a2 := mul base2 w in
  _ ← _bind_statement_dleq base1 point1 base2 point2;
  _ ← append_point "dleq:a1" a1;
  _ ← append_point "dleq:a2" a2;
  e ← challenge "dleq:e";
  mret (e, (w + x * e) mod CURVE_ORDER).

(** The commitment the verifier recomputes for one base. *)
Definition dleq_commitment (base point : pt G2ops) (e z : Z) : pt G2ops :=
  add (mul base z) (mul point ((- e) mod CURVE_ORDER)).

Definition verify_dleq (base1 point1 base2 point2 : pt G2ops) (e z : Z) : TM bool :=
  let a1 := dleq_commitment base1 point1 e z in
  let a2 := dleq_commitment base2 point2 e z in
  _ ← _bind_statement_dleq base1 point1 base2 point2;
  _ ← append_point "dleq:a1" a1;
  _ ← append_point "dleq:a2" a2;
  e' ← challenge "dleq:e";
  mret (e =? e').

(** ** Decryption shares *)

Definition _bind_decryption_share (C1 C2 mpk_k : pt G2ops) (keyper_index : Z) : TM unit :=
  _ ← append_point "dec:C1" C1;
  _ ← append_point "dec:C2" C2;
  _ ← append_point "dec:mpk_k" mpk_k;
  k ← lift (u16be keyper_index);
  t_append "dec:keyperIndex" k.

Definition prove_decryption_share (C1 C2 mpk_k sigma : pt G2ops) (msk_k keyper_index w : Z)
  : TM (Z * Z) :=
  _ ← _bind_decryption_share C1 C2 mpk_k keyper_index;
  prove_dleq G2 mpk_k C1 sigma msk_k w.

Definition verify_decryption_share (C1 C2 mpk_k sigma : pt G2ops) (e z keyper_index : Z)
  : TM bool :=
  _ ← _bind_decryption_share C1 C2 mpk_k keyper_index;
  verify_dleq G2 mpk_k C1 sigma e z.

(** ** The OR proof *)

Record ORBranch : Type := mkORBranch {
  a1 : pt G2ops;
  a2 : pt G2ops;
  br_e : Z;
  br_z : Z;
}.

(** [f"{prefix}[{i}]"] *)
Definition indexed (prefix : string) (i : nat) : string :=
  prefix +:+ "[" +:+ str_int (Z.of_nat i) +:+ "]".

Definition _bind_statement_or (c1 c2 mpk : pt G2ops) (candidates : list Z) : TM unit :=
  _ ← append_point "or:P2" G2;
  _ ← append_point "or:mpk" mpk;
  _ ← append_point "or:C1" c1;
  _ ← append_point "or:C2" c2;
  n ← lift (to_bytes_be (len candidates) 4);
  _ ← t_append "or:|M|" n;
  for_each (imap pair candidates) (λ '(i, m),
    append_scalar (indexed "or:m" i) (m mod CURVE_ORDER)).

Definition append_commitments (branches : list ORBranch) : TM unit :=
  for_each (imap pair branches) (λ '(i, br),
    _ ← append_point (indexed "or:a1" i) (a1 br);
    append_point (indexed "or:a2" i) (a2 br)).

(** [D_i = c2 - m_i * P2] *)
Definition or_target (c2 : pt G2ops) (m : Z) : pt G2ops :=
  add c2 (mul G2 ((- (m mod CURVE_ORDER)) mod CURVE_ORDER)).

(** The simulated transcript of a branch other than the real one. *)
Definition simulate_branch (c1 c2 mpk : pt G2ops) (m : Z) (sim : Z * Z) : ORBranch :=
  let ei := sim.1 mod CURVE_ORDER in
  let zi := sim.2 mod CURVE_ORDER in
  let Di := or_target c2 m in
  mkORBranch (add (mul G2 zi) (mul c1 ((- ei) mod CURVE_ORDER)))
             (add (mul mpk zi) (mul Di ((- ei) mod CURVE_ORDER))) ei zi.

(** The branches before the challenge is known. *)
Definition or_branches0 (c1 c2 mpk : pt G2ops) (candidates : list Z) (true_index : nat)
    (w : Z) (simulated : list (Z * Z)) : list ORBranch :=
  imap (λ i '(m, sim),
    if decide (i = true_index) then mkORBranch (mul G2 w) (mul mpk w) 0 0
    else simulate_branch c1 c2 mpk m sim) (zip candidates simulated).

(** [prove_or]: [w] is the commitment scalar of the real branch and
    [simulated] the pairs [(e, z)] of the others (drawn, or given by the
    caller); the entry at [true_index] is not used. *)
Definition prove_or (c1 c2 mpk : pt G2ops) (candidates : list Z) (r true_index w : Z)
    (simulated : list (Z * Z)) : TM (list ORBranch) :=
  let n := len candidates in
  _ ← lift (raise_if (n =? 0) ValueError);
  _ ← lift (raise_if (negb ((0 <=? true_index) && (true_index <? n))) ValueError);
  _ ← lift (raise_if (negb (len simulated =? n)) ValueError);
  let ti := Z.to_nat true_index in
  let branches := or_branches0 c1 c2 mpk candidates ti w simulated in
  _ ← _bind_statement_or c1 c2 mpk candidates;
  _ ← append_commitments branches;
  e_total ← challenge "or:e";
  let sim_sum := zsum (imap (λ i br, if decide (i = ti) then 0 else br_e br) branches) in
  let e_real := (e_total - sim_sum) mod CURVE_ORDER in
  let z_real := (w + r * e_real) mod CURVE_ORDER in
  mret (alter (λ br, mkORBranch (a1 br) (a2 br) e_real z_real) ti branches).

(** The two equations checked for one branch. *)
Definition or_branch_ok (c1 c2 mpk : pt G2ops) (m : Z) (br : ORBranch) : bool :=
  point_eq (mul G2 (br_z br)) (add (a1 br) (mul c1 (br_e br))) &&
  point_eq (mul mpk (br_z br)) (add (a2 br) (mul (or_target c2 m) (br_e br))).

Definition or_branches_ok (c1 c2 mpk : pt G2ops) (candidates : list Z) (branches : list ORBranch)
  : bool :=
  forallb (λ '(m, br), or_branch_ok c1 c2 mpk m br) (zip candidates branches).

Definition verify_or (c1 c2 mpk : pt G2ops) (candidates : list Z) (branches : list ORBranch)
  : TM bool :=
  if negb (len branches =? len candidates) then mret false else
  if negb (or_branches_ok c1 c2 mpk candidates branches) then mret false else
  _ ← _bind_statement_or c1 c2 mpk candidates;
  _ ← append_commitments branches;
  e ← challenge "or:e";
  mret (zsum_with br_e branches mod CURVE_ORDER =? e).

(** ** Budget proofs *)

Definition bind_budget (B : Z) (mode : string) : TM unit :=
  _ ← lift (raise_if (negb ((mode =? "exact") || (mode =? "atMost"))%string) ValueError);
  _ ← t_append "budget:mode" [if (mode =? "exact")%string then Byte.x00 else Byte.x01];
  append_scalar "budget:B" (B mod CURVE_ORDER).

(** [_budget_dleq_instance]: [(base1, point1, base2, point2)]. *)
Definition _budget_dleq_instance (c1_sum c2_sum mpk : pt G2ops) (B : Z)
  : pt G2ops * pt G2ops * pt G2ops * pt G2ops :=
  let D := add c2_sum (mul G2 ((- (B mod CURVE_ORDER)) mod CURVE_ORDER)) in
  (G2, c1_sum, mpk, D).

Definition prove_budget_exact (c1_sum c2_sum mpk : pt G2ops) (B r_sum w : Z) : TM (Z * Z) :=
  _ ← bind_budget B "exact";
  let '(base1, point1, base2, point2) := _budget_dleq_instance c1_sum c2_sum mpk B in
  prove_dleq base1 point1 base2 point2 r_sum w.

Definition verify_budget_exact (c1_sum c2_sum mpk : pt G2ops) (B e z : Z) : TM bool :=
  _ ← bind_budget B "exact";
  let '(base1, point1, base2, point2) := _budget_dleq_instance c1_sum c2_sum mpk B in
  verify_dleq base1 point1 base2 point2 e z.

(** [list(range(B + 1))] *)
Definition range_list (B : Z) : list Z := seqZ 0 (B + 1).

Definition prove_budget_at_most (c1_sum c2_sum mpk : pt G2ops) (B r_sum v_sum w : Z)
    (simulated : list (Z * Z)) : TM (list ORBranch) :=
  _ ← bind_budget B "atMost";
  prove_or c1_sum c2_sum mpk (range_list B) r_sum v_sum w simulated.

Definition verify_budget_at_most (c1_sum c2_sum mpk : pt G2ops) (B : Z) (branches : list ORBranch)
  : TM bool :=
  _ ← bind_budget B "atMost";
  verify_or c1_sum c2_sum mpk (range_list B) branches.

(** * DLEQ: completeness and extraction *)

Context `{!CryptoLaws}.

Lemma dleq_commitment_correct base x w e :
  in_subgroup base → dleq_commitment base (mul base x) e ((w + x * e) mod CURVE_ORDER) = mul base w.
Proof. intros Hb. unfold dleq_commitment. solve_point. ring. Qed.

(** The verifier replays the prover's transcript and accepts. *)
Lemma dleq_complete base1 base2 x w t e z t' :
  in_subgroup base1 → in_subgroup base2 →
  prove_dleq base1 (mul base1 x) base2 (mul base2 x) x w t = Ok ((e, z), t') →
  verify_dleq base1 (mul base1 x) base2 (mul base2 x) e z t = Ok (true, t').
Proof.
  intros H1 H2 Hp. unfold prove_dleq in Hp. inv_tm. inv_ok. subst.
  unfold verify_dleq. rewrite !dleq_commitment_correct by done.
  do 4 (erewrite TM_bind_Ok by eassumption; cbn beta). cbn. by rewrite Z.eqb_refl.
Qed.

(** Two accepting answers to the same commitment on one base reveal the
    discrete logarithm. *)
Lemma dleq_commitment_extract base point e z e' z' (x : F) :
  in_subgroup base → in_subgroup point → inF e ≠ inF e' →
  x = ((inF z - inF z') / (inF e - inF e'))%F →
  dleq_commitment base point e z = dleq_commitment base point e' z' →
  point = mul base (Zmod.to_Z x).
Proof.
  intros Hb Hp Hne -> Heq. unfold dleq_commitment in Heq. dlog. to_gmul.
  rewrite gmul_inj in *. rewrite inF_to_Z. autorewrite with F_rw in *.
  assert (Hd := F_sub_neq _ _ Hne).
  assert (Hk : (xpoint * (inF e - inF e') = xbase * (inF z - inF z'))%F).
  { transitivity (xpoint * inF e - xpoint * inF e')%F; [ring|].
    transitivity ((xbase * inF z + xpoint * - inF e) - (xbase * inF z' + xpoint * - inF e')
      + xpoint * inF e - xpoint * inF e')%F; [rewrite Heq|]; ring. }
  transitivity (xpoint * (inF e - inF e') / (inF e - inF e'))%F; [by field|].
  rewrite Hk. by field.
Qed.

(** ** Decryption shares *)

Lemma decryption_share_complete C1 C2 msk_k keyper_index w t e z t' :
  in_subgroup C1 →
  prove_decryption_share C1 C2 (mul G2 msk_k) (mul C1 msk_k) msk_k keyper_index w t = Ok ((e, z), t') →
  verify_decryption_share C1 C2 (mul G2 msk_k) (mul C1 msk_k) e z keyper_index t = Ok (true, t').
Proof.
  intros HC Hp. unfold prove_decryption_share in Hp. inv_tm.
  unfold verify_decryption_share. erewrite TM_bind_Ok by eassumption.
  eapply dleq_complete; [solve_subgroup|done|eassumption].
Qed.

(** * The OR proof: completeness *)

Lemma simulate_branch_ok c1 c2 mpk m sim :
  in_subgroup c1 → in_subgroup c2 → in_subgroup mpk →
  or_branch_ok c1 c2 mpk m (simulate_branch c1 c2 mpk m sim) = true.
Proof.
  intros H1 H2 H3. unfold or_branch_ok, simulate_branch, or_target; cbn [a1 a2 br_e br_z].
  apply andb_true_intro; split; apply point_eq_spec; solve_point; ring.
Qed.

(** The branch of the plaintext, answered with the encryption randomness. *)
Lemma real_branch_ok c1 c2 mpk m r w e z :
  in_subgroup mpk → encrypts mpk (c1, c2) m r → z ≡q w + r * e →
  or_branch_ok c1 c2 mpk m (mkORBranch (mul G2 w) (mul mpk w) e z) = true.
Proof.
  intros Hm Henc Hz. unfold encrypts, encrypt in Henc. injection Henc as -> ->.
  unfold or_branch_ok, or_target; cbn [a1 a2 br_e br_z].
  rewrite (mul_eqq G2 z _ Hz), (mul_eqq mpk z _ Hz).
  apply andb_true_intro; split; apply point_eq_spec; solve_point; ring.
Qed.

Section or_complete.
Context (c1 c2 mpk : pt G2ops) (candidates : list Z) (ti : nat) (w : Z) (simulated : list (Z * Z)).
Let branches0 := or_branches0 c1 c2 mpk candidates ti w simulated.

Lemma length_or_branches0 : length simulated = length candidates →
  length branches0 = length candidates.
Proof. intros Hl. unfold branches0, or_branches0. rewrite length_imap, length_zip_with. lia. Qed.

Lemma or_branches0_lookup i m sim :
  candidates !! i = Some m → simulated !! i = Some sim →
  branches0 !! i = Some (if decide (i = ti) then mkORBranch (mul G2 w) (mul mpk w) 0 0
                         else simulate_branch c1 c2 mpk m sim).
Proof.
  intros Hm Hs. unfold branches0, or_branches0.
  by rewrite list_lookup_imap, lookup_zip_with, Hm, Hs.
Qed.

End or_complete.

(** The commitments do not depend on the answers. *)
Lemma append_commitments_ext bs bs' t :
  Forall2 (λ b b', a1 b = a1 b' ∧ a2 b = a2 b') bs bs' →
  append_commitments bs t = append_commitments bs' t.
Proof.
  intros HF. apply for_each_ext. rewrite Forall2_lookup. intros i.
  rewrite !list_lookup_imap. rewrite Forall2_lookup in HF. specialize (HF i).
  destruct HF as [b b' [E1 E2]|]; cbn; constructor. intros t0. by rewrite E1, E2.
Qed.

Lemma alter_answers_Forall2 e z ti bs :
  Forall2 (λ b b', a1 b = a1 b' ∧ a2 b = a2 b')
    (alter (λ b, mkORBranch (a1 b) (a2 b) e z) ti bs) bs.
Proof.
  rewrite Forall2_lookup. intros i. rewrite list_lookup_alter.
  case_decide; subst; destruct (bs !! i); by constructor.
Qed.

Lemma or_branches_ok_lookup c1 c2 mpk candidates bs :
  or_branches_ok c1 c2 mpk candidates bs = true ↔
  ∀ i m b, candidates !! i = Some m → bs !! i = Some b → or_branch_ok c1 c2 mpk m b = true.
Proof.
  unfold or_branches_ok. rewrite forallb_forall. split.
  - intros Hf i m b Hm Hb. apply (Hf (m, b)), list_elem_of_In, list_elem_of_lookup.
    exists i. by rewrite lookup_zip_with, Hm, Hb.
  - intros Hf [m b] (i & Hi)%list_elem_of_In%list_elem_of_lookup.
    rewrite lookup_zip_with in Hi. destruct (candidates !! i) eqn:Em, (bs !! i) eqn:Eb; try done.
    cbn in Hi. simplify_eq. by eapply Hf.
Qed.

Definition or_real_challenge (e_total : Z) (ti : nat) (bs0 : list ORBranch) : Z :=
  (e_total - zsum (imap (λ i br, if decide (i = ti) then 0 else br_e br) bs0)) mod CURVE_ORDER.

Lemma prove_or_Ok c1 c2 mpk candidates r true_index w simulated t bs t' :
  prove_or c1 c2 mpk candidates r true_index w simulated t = Ok (bs, t') →
  let ti := Z.to_nat true_index in
  let bs0 := or_branches0 c1 c2 mpk candidates ti w simulated in
  0 <= true_index < len candidates ∧ length bs0 = length candidates ∧
  length simulated = length candidates ∧
  ∃ t1 t2 e_total, _bind_statement_or c1 c2 mpk candidates t = Ok (tt, t1) ∧
    append_commitments bs0 t1 = Ok (tt, t2) ∧ challenge "or:e" t2 = Ok (e_total, t') ∧
    bs = alter (λ br, mkORBranch (a1 br) (a2 br) (or_real_challenge e_total ti bs0)
           ((w + r * or_real_challenge e_total ti bs0) mod CURVE_ORDER)) ti bs0.
Proof.
  intros Hp ti bs0. unfold prove_or in Hp. inv_tm.
  apply negb_false_iff in Hl0, Hl1. apply Z.eqb_eq in Hl1.
  apply andb_prop in Hl0 as [?%Z.leb_le ?%Z.ltb_lt].
  assert (length simulated = length candidates) by (unfold len in Hl1; lia).
  split_and!; [done|done|by apply length_or_branches0|done|].
  by do 3 eexists.
Qed.

(** The verifier accepts an OR proof made with the plaintext and randomness of
    the ciphertext. *)
Lemma or_complete c1 c2 mpk candidates r true_index w simulated m t bs t' :
  in_subgroup mpk → encrypts mpk (c1, c2) m r →
  candidates !! Z.to_nat true_index = Some m →
  prove_or c1 c2 mpk candidates r true_index w simulated t = Ok (bs, t') →
  verify_or c1 c2 mpk candidates bs t = Ok (true, t').
Proof.
  intros Hmpk Henc Hm (Hti & Hlen & Hsim & t1 & t2 & e & Hb & Ha & Hc & ->)%prove_or_Ok.
  set (ti := Z.to_nat true_index) in *.
  set (bs0 := or_branches0 c1 c2 mpk candidates ti w simulated) in *.
  set (er := or_real_challenge e ti bs0) in *.
  assert (Hct : ct_subgroup (c1, c2)) by (rewrite Henc; by apply encrypt_subgroup).
  destruct Hct as [Hc1 Hc2]; cbn in Hc1, Hc2.
  unfold verify_or. rewrite (proj2 (Z.eqb_eq _ _)) by (unfold len; rewrite length_alter; lia).
  cbn [negb].
  assert (Hok : or_branches_ok c1 c2 mpk candidates
    (alter (λ br, mkORBranch (a1 br) (a2 br) er ((w + r * er) mod CURVE_ORDER)) ti bs0) = true).
  { apply or_branches_ok_lookup. intros i m' b Hm' Hbi.
    destruct (lookup_lt_is_Some_2 simulated i) as [sim Hs].
    { rewrite Hsim. by eapply lookup_lt_Some. }
    pose proof (or_branches0_lookup c1 c2 mpk candidates ti w simulated i m' sim Hm' Hs) as H0i.
    fold bs0 in H0i. rewrite list_lookup_alter in Hbi.
    destruct (decide (i = ti)) as [->|Hne].
    - rewrite decide_True, H0i in Hbi by done. injection Hbi as <-. simplify_eq.
      eapply real_branch_ok; [done..|]. apply eqq_mod.
    - rewrite decide_False, H0i in Hbi by done. injection Hbi as <-. by apply simulate_branch_ok. }
  rewrite Hok. cbn [negb].
  rewrite (TM_bind_Ok _ _ _ _ _ Hb).
  erewrite TM_bind_Ok by (rewrite (append_commitments_ext _ bs0); [exact Ha|apply alter_answers_Forall2]).
  rewrite (TM_bind_Ok _ _ _ _ _ Hc). unfold mret, TM_ret. do 3 f_equal.
  destruct (lookup_lt_is_Some_2 bs0 ti) as [br Hbr]; [rewrite Hlen; unfold len in Hti; lia|].
  rewrite (zsum_imap_alter br_e _ bs0 ti br Hbr). cbn [br_e]. unfold er, or_real_challenge.
  apply Z.eqb_eq. transitivity (e mod CURVE_ORDER).
  - change (?a mod _ = ?b mod _) with (a ≡q b). solve_F.
  - apply Z.mod_small. by eapply challenge_range.
Qed.

(** * The OR proof: extraction *)

Lemma or_branch_extract c1 c2 mpk m b b' (r : F) :
  in_subgroup c1 → in_subgroup c2 → in_subgroup mpk →
  in_subgroup (a1 b) → in_subgroup (a2 b) → a1 b = a1 b' → a2 b = a2 b' →
  ¬ br_e b ≡q br_e b' → r = ((inF (br_z b) - inF (br_z b')) / (inF (br_e b) - inF (br_e b')))%F →
  or_branch_ok c1 c2 mpk m b = true → or_branch_ok c1 c2 mpk m b' = true →
  encrypts mpk (c1, c2) m (Zmod.to_Z r).
Proof.
  intros Hc1 Hc2 Hm Ha1 Ha2 E1 E2 Hne -> Hb Hb'. unfold or_branch_ok in Hb, Hb'.
  rewrite <- E1, <- E2 in Hb'. clear E1 E2.
  apply andb_prop in Hb as [B1%point_eq_spec B2%point_eq_spec].
  apply andb_prop in Hb' as [B3%point_eq_spec B4%point_eq_spec].
  rewrite eqq_F in Hne. apply F_sub_neq in Hne.
  unfold or_target in *. unfold encrypts, encrypt; cbn [fst].
  generalize dependent (a1 b). generalize dependent (a2 b). intros A2 Ha2 B2 B4 A1 Ha1 B1 B3.
  dlog. to_gmul. rewrite gmul_inj in *. autorewrite with F_rw in *.
  set (d := (inF (br_e b) - inF (br_e b'))%F) in *.
  assert (K1 : (xc1 * d = inF (br_z b) - inF (br_z b'))%F).
  { transitivity (F1 * inF (br_z b) - F1 * inF (br_z b'))%F; [rewrite B1, B3; unfold d; ring | ring]. }
  assert (K2 : ((xc2 - inF m) * d = xmpk * (inF (br_z b) - inF (br_z b')))%F).
  { transitivity (xmpk * inF (br_z b) - xmpk * inF (br_z b'))%F; [rewrite B2, B4; unfold d; ring | ring]. }
  rewrite <- K1 in *. rewrite inF_to_Z.
  f_equal; f_equal.
  - by field.
  - transitivity ((xc2 - inF m) * d / d + inF m)%F; [by field|]. rewrite K2. by field.
Qed.

Lemma zsum_neq_lookup {A} (f : A → Z) l k :
  length l = length k → ¬ zsum_with f l ≡q zsum_with f k →
  ∃ i x y, l !! i = Some x ∧ k !! i = Some y ∧ ¬ f x ≡q f y.
Proof.
  revert k. induction l as [|x l IH]; intros [|y k] Hl Hne; try done.
  destruct (decide (f x ≡q f y)) as [Hxy|Hxy]; [|by exists O, x, y].
  destruct (IH k) as (i & a & b & ? & ? & ?); [by injection Hl| |by exists (S i), a, b].
  intros Heq. apply Hne. cbn. change (foldr Z.add 0) with zsum. by rewrite Hxy, Heq.
Qed.

(** Two accepted vectors with the same commitments but different challenges
    reveal which candidate is encrypted, and the randomness. *)
Lemma or_extract c1 c2 mpk candidates bs bs' :
  in_subgroup c1 → in_subgroup c2 → in_subgroup mpk →
  length bs = length candidates →
  Forall (λ b, in_subgroup (a1 b) ∧ in_subgroup (a2 b)) bs →
  Forall2 (λ b b', a1 b = a1 b' ∧ a2 b = a2 b') bs bs' →
  or_branches_ok c1 c2 mpk candidates bs = true → or_branches_ok c1 c2 mpk candidates bs' = true →
  ¬ zsum_with br_e bs ≡q zsum_with br_e bs' →
  ∃ i m r, candidates !! i = Some m ∧ encrypts mpk (c1, c2) m r.
Proof.
  intros Hc1 Hc2 Hm Hlen Hsub Hsame Hok Hok' Hne.
  destruct (zsum_neq_lookup br_e bs bs') as (i & b & b' & Hb & Hb' & Hd);
    [by eapply Forall2_length|done|].
  destruct (lookup_lt_is_Some_2 candidates i) as [m Hmi];
    [rewrite <- Hlen; by eapply lookup_lt_Some|].
  destruct (Forall_lookup_1 _ _ _ _ Hsub Hb) as [Ha1 Ha2].
  destruct (Forall2_lookup_lr _ _ _ _ _ _ Hsame Hb Hb') as [E1 E2].
  rewrite or_branches_ok_lookup in Hok, Hok'.
  exists i, m. eexists. split; [done|]. eapply or_branch_extract; eauto.
Qed.

(** * The provers return *)

Lemma _bind_statement_dleq_succeeds base1 point1 base2 point2 t :
  ∃ t', _bind_statement_dleq base1 point1 base2 point2 t = Ok (tt, t').
Proof. unfold _bind_statement_dleq. do 3 tm_run. apply append_point_succeeds. unfold short_tag; cbn; lia. Qed.

Lemma prove_dleq_succeeds base1 point1 base2 point2 x w t :
  ∃ e z t', prove_dleq base1 point1 base2 point2 x w t = Ok ((e, z), t').
Proof.
  unfold prove_dleq. destruct (_bind_statement_dleq_succeeds base1 point1 base2 point2 t) as [t1 E].
  rewrite (TM_bind_Ok _ _ _ _ _ E). do 3 tm_run. by do 3 eexists.
Qed.

Lemma _bind_decryption_share_succeeds C1 C2 mpk_k keyper_index t : 0 <= keyper_index < 2 ^ 16 →
  ∃ t', _bind_decryption_share C1 C2 mpk_k keyper_index t = Ok (tt, t').
Proof.
  intros Hk. unfold _bind_decryption_share, u16be. rewrite to_bytes_be_small by done.
  do 3 tm_run. rewrite TM_lift_Ok.
  apply append_bytes_succeeds; [unfold short_tag; cbn; lia|].
  unfold len. rewrite length_be_bytes. lia.
Qed.

Lemma prove_decryption_share_succeeds C1 C2 mpk_k sigma msk_k keyper_index w t :
  0 <= keyper_index < 2 ^ 16 →
  ∃ e z t', prove_decryption_share C1 C2 mpk_k sigma msk_k keyper_index w t = Ok ((e, z), t').
Proof.
  intros Hk. unfold prove_decryption_share.
  destruct (_bind_decryption_share_succeeds C1 C2 mpk_k keyper_index t Hk) as [t1 E].
  rewrite (TM_bind_Ok _ _ _ _ _ E). apply prove_dleq_succeeds.
Qed.

Lemma indexed_short prefix i : Z.of_nat (String.length prefix) < 2 ^ 20 → Z.of_nat i < 2 ^ 30 →
  short_tag (indexed prefix i).
Proof.
  intros Hp Hi. unfold short_tag, indexed. rewrite !string_length_app. cbn [String.length].
  pose proof (str_int_length (Z.of_nat i)). lia.
Qed.

Lemma _bind_statement_or_succeeds c1 c2 mpk candidates t : len candidates < 2 ^ 30 →
  ∃ t', _bind_statement_or c1 c2 mpk candidates t = Ok (tt, t').
Proof.
  intros Hn. pose proof (len_nonneg candidates). unfold _bind_statement_or.
  rewrite to_bytes_be_small by (change (256 ^ Z.of_nat 4) with (2 ^ 32); lia).
  do 4 tm_run. rewrite TM_lift_Ok.
  destruct (append_bytes_succeeds "or:|M|" (be_bytes 4 (len candidates)) t3) as [t4 E4].
  { unfold short_tag; cbn; lia. } { unfold len. rewrite length_be_bytes. lia. }
  rewrite (TM_bind_Ok _ _ _ _ _ E4). apply for_each_succeeds.
  intros [i m] t5 (j & m' & Eij & Hj)%elem_of_lookup_imap_1. simplify_eq.
  apply append_scalar_succeeds, indexed_short; [cbn; lia|].
  apply lookup_lt_Some in Hj. unfold len in Hn. lia.
Qed.

Lemma append_commitments_succeeds bs t : len bs < 2 ^ 30 →
  ∃ t', append_commitments bs t = Ok (tt, t').
Proof.
  intros Hn. apply for_each_succeeds.
  intros [i m] t5 (j & m' & Eij & Hj)%elem_of_lookup_imap_1. simplify_eq.
  assert (Z.of_nat j < 2 ^ 30) by (apply lookup_lt_Some in Hj; unfold len in Hn; lia).
  destruct (append_point_succeeds (indexed "or:a1" j) (a1 m') t5) as [t6 E6];
    [apply indexed_short; cbn; lia|].
  rewrite (TM_bind_Ok _ _ _ _ _ E6). apply append_point_succeeds, indexed_short; cbn; lia.
Qed.

Lemma prove_or_succeeds c1 c2 mpk candidates r true_index w simulated t :
  len candidates < 2 ^ 30 → 0 <= true_index < len candidates → len simulated = len candidates →
  ∃ bs t', prove_or c1 c2 mpk candidates r true_index w simulated t = Ok (bs, t').
Proof.
  intros Hn Hti Hsim. unfold prove_or.
  rewrite (proj2 (Z.eqb_neq (len candidates) 0)) by lia.
  rewrite (proj2 (Z.leb_le 0 true_index)), (proj2 (Z.ltb_lt true_index _)) by lia.
  rewrite Hsim, Z.eqb_refl. cbn [negb andb raise_if]. rewrite !TM_lift_Ok.
  destruct (_bind_statement_or_succeeds c1 c2 mpk candidates t Hn) as [t1 E1].
  rewrite (TM_bind_Ok _ _ _ _ _ E1).
  set (bs0 := or_branches0 _ _ _ _ _ _ _).
  assert (length bs0 = length candidates) by (apply length_or_branches0; unfold len in Hsim; lia).
  destruct (append_commitments_succeeds bs0 t1) as [t2 E2]; [unfold len in *; lia|].
  rewrite (TM_bind_Ok _ _ _ _ _ E2). tm_run. by do 2 eexists.
Qed.

(** * What the challenge of a decryption share binds *)

Definition point_frame (tag : string) (P : pt G2ops) : string * bytes :=
  (tag, pt_to_compressed G2ops P).

Definition dleq_frames (base1 point1 base2 point2 A1 A2 : pt G2ops) (e : Z) : list (string * bytes) :=
  [point_frame "dleq:base1" base1] ++ [point_frame "dleq:base2" base2] ++
  [point_frame "dleq:point1" point1] ++ [point_frame "dleq:point2" point2] ++
  [point_frame "dleq:a1" A1] ++ [point_frame "dleq:a2" A2] ++
  [("dleq:e" +:+ ":chal", be_bytes 32 (e mod CURVE_ORDER))].

Definition share_frames (election_id : bytes) (candidate : Z) (C1 C2 mpk_k : pt G2ops) (index : Z)
  : list (string * bytes) :=
  [("electionId", election_id)] ++ [("candidate", be_bytes 2 candidate)] ++
  [point_frame "dec:C1" C1] ++ [point_frame "dec:C2" C2] ++ [point_frame "dec:mpk_k" mpk_k] ++
  [("dec:keyperIndex", be_bytes 2 index)].

Lemma verify_dleq_extends base1 point1 base2 point2 e z t b t' :
  verify_dleq base1 point1 base2 point2 e z t = Ok (b, t') →
  ∃ e', b = (e =? e') ∧ extends t (dleq_frames base1 point1 base2 point2
    (dleq_commitment base1 point1 e z) (dleq_commitment base2 point2 e z) e') t'.
Proof.
  intros Hv. unfold verify_dleq, _bind_statement_dleq in Hv. inv_tm.
  eexists. split; [reflexivity|]. unfold dleq_frames.
  chain_extends.
Qed.

Lemma verify_share_extends election_id candidate C1 C2 mpk_k sigma e z index t0 b t' :
  make_decrypt_transcript election_id candidate = Ok t0 →
  verify_decryption_share C1 C2 mpk_k sigma e z index t0 = Ok (b, t') →
  0 <= candidate < 2 ^ 16 ∧ 0 <= index < 2 ^ 16 ∧
  ∃ e', b = (e =? e') ∧
  extends (new_transcript ONCHAIN_DECRYPT_LABEL)
    (share_frames election_id candidate C1 C2 mpk_k index ++
     dleq_frames G2 mpk_k C1 sigma
       (dleq_commitment G2 mpk_k e z) (dleq_commitment C1 sigma e z) e') t'.
Proof.
  intros Hm Hv. unfold make_decrypt_transcript, u16be in Hm. inv_ok.
  destruct v1 as [[] t1]. inv_ok. subst t1. inv_tm.
  unfold verify_decryption_share, _bind_decryption_share, u16be in Hv. inv_tm.
  apply to_bytes_be_Ok in Hl as [? ->], Hl0 as [? ->].
  split; [done|]. split; [done|].
  apply verify_dleq_extends in Hv as (e' & -> & Hx). exists e'. split; [done|].
  unfold share_frames. rewrite <- !app_assoc. chain_extends.
Qed.

Lemma point_frame_inj tag tag' P Q fs fs' :
  [point_frame tag P] ++ fs = [point_frame tag' Q] ++ fs' → P = Q ∧ fs = fs'.
Proof. intros [HP ->]%frame_cons_inj. apply to_compressed_inj in HP as ->. done. Qed.

Lemma u16_frame_inj (tag tag' : string) n m fs fs' : 0 <= n < 2 ^ 16 → 0 <= m < 2 ^ 16 →
  [(tag, be_bytes 2 n)] ++ fs = [(tag', be_bytes 2 m)] ++ fs' → n = m ∧ fs = fs'.
Proof.
  intros Hn Hm [HP ->]%frame_cons_inj. split; [|done].
  apply (f_equal from_bytes_be) in HP. by rewrite !from_be_bytes, !Z.mod_small in HP.
Qed.

(** The transcript a share was verified on determines the whole statement. *)
Lemma share_frames_inj eid c C1 C2 K i sg A1 A2 e eid' c' C1' C2' K' i' sg' A1' A2' e' :
  0 <= c < 2 ^ 16 → 0 <= c' < 2 ^ 16 → 0 <= i < 2 ^ 16 → 0 <= i' < 2 ^ 16 →
  share_frames eid c C1 C2 K i ++ dleq_frames G2 K C1 sg A1 A2 e =
  share_frames eid' c' C1' C2' K' i' ++ dleq_frames G2 K' C1' sg' A1' A2' e' →
  eid = eid' ∧ c = c' ∧ C1 = C1' ∧ C2 = C2' ∧ K = K' ∧ i = i' ∧ sg = sg' ∧
  A1 = A1' ∧ A2 = A2' ∧ e ≡q e'.
Proof.
  intros Hc Hc' Hi Hi' Heq. unfold share_frames, dleq_frames in Heq. rewrite <- !app_assoc in Heq.
  apply frame_cons_inj in Heq as [-> Heq]. apply u16_frame_inj in Heq as [-> Heq]; [|done..].
  do 3 (apply point_frame_inj in Heq as [-> Heq]).
  apply u16_frame_inj in Heq as [-> Heq]; [|done..].
  do 3 (apply point_frame_inj in Heq as [_ Heq]).
  do 3 (apply point_frame_inj in Heq as [-> Heq]).
  apply frame_cons_inj in Heq as [Heq _]. unfold eqq. auto 15 using scalar_bytes_inj.
Qed.

End proofs.

(** * Properties *)

(** a keyper that holds [msk_k] can always prove its decryption share,
    and the verifier that seeds the same transcript accepts the proof and
    ends in the same transcript state. *)
Theorem decryption_share_proof_accepted `{CryptoLaws} C1 C2 msk_k keyper_index w t :
  in_subgroup C1 → 0 <= keyper_index < 2 ^ 16 →
  ∃ e z t', prove_decryption_share C1 C2 (mul G2 msk_k) (mul C1 msk_k) msk_k keyper_index w t
              = Ok ((e, z), t') ∧
    verify_decryption_share C1 C2 (mul G2 msk_k) (mul C1 msk_k) e z keyper_index t = Ok (true, t').
Proof.
  intros HC Hk. destruct (prove_decryption_share_succeeds C1 C2 (mul G2 msk_k) (mul C1 msk_k) msk_k
    keyper_index w t Hk) as (e & z & t' & Hp).
  exists e, z, t'. split; [done|]. by eapply decryption_share_complete.
Qed.

Lemma decryption_share_proof_accepted_witness :
  let c := concrete_crypto in
  ∃ e z t', prove_decryption_share (mul G2 3) G2 (mul G2 5) (mul (mul G2 3) 5) 5 1 8 (new_transcript "t")
              = Ok ((e, z), t') ∧
    verify_decryption_share (mul G2 3) G2 (mul G2 5) (mul (mul G2 3) 5) e z 1 (new_transcript "t")
      = Ok (true, t').
Proof.
  intros c. apply (decryption_share_proof_accepted (mul G2 3) G2 5 1 8 (new_transcript "t"));
    [reflexivity | lia].
Defined.

(** Chaum-Pedersen special soundness: two answers to the same commitments
    with different challenges give one exponent that relates both point pairs,
    so a false statement has at most one answerable challenge per commitment. *)
Theorem dleq_special_soundness `{CryptoLaws} base1 point1 base2 point2 e z e' z' :
  in_subgroup base1 → in_subgroup point1 → in_subgroup base2 → in_subgroup point2 →
  ¬ e ≡q e' →
  dleq_commitment base1 point1 e z = dleq_commitment base1 point1 e' z' →
  dleq_commitment base2 point2 e z = dleq_commitment base2 point2 e' z' →
  ∃ x, point1 = mul base1 x ∧ point2 = mul base2 x.
Proof.
  intros Hb1 Hp1 Hb2 Hp2 Hne E1 E2. rewrite eqq_F in Hne.
  exists (Zmod.to_Z ((inF z - inF z') / (inF e - inF e'))%F).
  split; by eapply dleq_commitment_extract.
Qed.

Lemma dleq_special_soundness_witness :
  let c := concrete_crypto in
  dleq_commitment G2 (mul G2 5) 1 12 = dleq_commitment G2 (mul G2 5) 2 17 ∧
  ∃ x, mul G2 5 = mul G2 x ∧ mul (mul G2 3) 5 = mul (mul G2 3) x.
Proof.
  intros c. split; [vm_compute; reflexivity|].
  apply (dleq_special_soundness G2 (mul G2 5) (mul G2 3) (mul (mul G2 3) 5) 1 12 2 17);
    try (vm_compute; reflexivity). vm_compute. discriminate.
Defined.

(** the OR prover returns and is believed: for a ciphertext of
    [candidates[true_index]] with known randomness, [prove_or] produces
    branches that [verify_or] accepts on the same transcript. *)
Theorem or_proof_accepted `{CryptoLaws} c1 c2 mpk candidates m r true_index w simulated t :
  in_subgroup mpk → encrypts mpk (c1, c2) m r →
  0 <= true_index → candidates !! Z.to_nat true_index = Some m →
  len candidates < 2 ^ 30 → len simulated = len candidates →
  ∃ bs t', prove_or c1 c2 mpk candidates r true_index w simulated t = Ok (bs, t') ∧
    verify_or c1 c2 mpk candidates bs t = Ok (true, t').
Proof.
  intros Hm Henc Hti Hlk Hn Hs.
  pose proof (lookup_lt_Some _ _ _ Hlk) as Hlt.
  destruct (prove_or_succeeds c1 c2 mpk candidates r true_index w simulated t) as (bs & t' & Hp);
    [done|unfold len; lia|done|].
  exists bs, t'. split; [done|]. by eapply or_complete.
Qed.

Lemma or_proof_accepted_witness :
  let c := concrete_crypto in
  let mpk := mul G2 7 in
  let ct := (encrypt mpk 1 11).1 in
  ∃ bs t', prove_or ct.1 ct.2 mpk [0; 1] 11 1 8 [(3, 4); (0, 0)] (new_transcript "t") = Ok (bs, t') ∧
    verify_or ct.1 ct.2 mpk [0; 1] bs (new_transcript "t") = Ok (true, t').
Proof.
  intros c mpk ct.
  apply (or_proof_accepted ct.1 ct.2 mpk [0; 1] 1 11 1 8 [(3, 4); (0, 0)] (new_transcript "t"));
    [reflexivity|reflexivity|lia|reflexivity|reflexivity|reflexivity].
Defined.

(** C11: OR special soundness: two accepted branch vectors with the same
    commitments but different challenge sums reveal a candidate the
    ciphertext really encrypts, with its randomness. *)
Theorem or_special_soundness `{CryptoLaws} c1 c2 mpk candidates bs bs' :
  in_subgroup c1 → in_subgroup c2 → in_subgroup mpk →
  length bs = length candidates →
  Forall (λ b, in_subgroup (a1 b) ∧ in_subgroup (a2 b)) bs →
  Forall2 (λ b b', a1 b = a1 b' ∧ a2 b = a2 b') bs bs' →
  or_branches_ok c1 c2 mpk candidates bs = true → or_branches_ok c1 c2 mpk candidates bs' = true →
  ¬ zsum_with br_e bs ≡q zsum_with br_e bs' →
  ∃ i m r, candidates !! i = Some m ∧ encrypts mpk (c1, c2) m r.
Proof. apply or_extract. Qed.

Lemma or_special_soundness_witness :
  let c := concrete_crypto in
  let mpk := mul G2 7 in
  let ct := (encrypt mpk 1 11).1 in
  let bs e z := [simulate_branch ct.1 ct.2 mpk 0 (3, 4);
                 mkORBranch (mul G2 8) (mul mpk 8) e z] in
  or_branches_ok ct.1 ct.2 mpk [0; 1] (bs 1 19) = true ∧
  ∃ i m r, [0; 1] !! i = Some m ∧ encrypts mpk (ct.1, ct.2) m r.
Proof.
  intros c mpk ct bs. split; [vm_compute; reflexivity|].
  apply (or_special_soundness ct.1 ct.2 mpk [0; 1] (bs 1 19) (bs 2 30));
    [reflexivity|reflexivity|reflexivity|reflexivity| | |
     vm_compute; reflexivity|vm_compute; reflexivity|vm_compute; discriminate].
  - repeat apply Forall_cons_2; [split; reflexivity..|apply Forall_nil_2].
  - repeat apply Forall2_cons_2; [split; reflexivity..|apply Forall2_nil_2].
Defined.

(** the transcript on which a decryption share is verified pins the whole
    statement: the election, the candidate, the ciphertext, the committee key,
    the keyper index, the share and the recomputed commitments.  A proof
    cannot be replayed for another candidate, keyper or aggregate. *)
Theorem decryption_share_binding `{CryptoLaws} eid c C1 C2 K sg e z i t0 b t1
    eid' c' C1' C2' K' sg' e' z' i' t0' b' t1' :
  make_decrypt_transcript eid c = Ok t0 →
  verify_decryption_share C1 C2 K sg e z i t0 = Ok (b, t1) →
  make_decrypt_transcript eid' c' = Ok t0' →
  verify_decryption_share C1' C2' K' sg' e' z' i' t0' = Ok (b', t1') →
  preimage t1 = preimage t1' →
  eid = eid' ∧ c = c' ∧ C1 = C1' ∧ C2 = C2' ∧ K = K' ∧ i = i' ∧ sg = sg' ∧
  dleq_commitment G2 K e z = dleq_commitment G2 K' e' z' ∧
  dleq_commitment C1 sg e z = dleq_commitment C1' sg' e' z'.
Proof.
  intros H1 H2 H3 H4 Heq.
  destruct (verify_share_extends _ _ _ _ _ _ _ _ _ _ _ _ H1 H2) as (? & ? & x & _ & Hx).
  destruct (verify_share_extends _ _ _ _ _ _ _ _ _ _ _ _ H3 H4) as (? & ? & x' & _ & Hx').
  pose proof (extends_inj _ _ _ _ _ Hx Hx' Heq) as Hf.
  apply share_frames_inj in Hf as (? & ? & ? & ? & ? & ? & ? & ? & ? & _); [|done..].
  by split_and!.
Qed.

Lemma decryption_share_binding_witness :
  let c := concrete_crypto in
  let eid := replicate 32 Byte.x01 in
  ∃ t0 b t1, make_decrypt_transcript eid 2 = Ok t0 ∧
    verify_decryption_share (mul G2 3) G2 (mul G2 5) (mul G2 15) 1 2 1 t0 = Ok (b, t1) ∧
    eid = eid ∧ 2 = 2 ∧ mul G2 3 = mul G2 3.
Proof.
  intros c eid.
  destruct (make_decrypt_transcript eid 2) as [t0|] eqn:E; [|vm_compute in E; discriminate].
  destruct (verify_decryption_share (mul G2 3) G2 (mul G2 5) (mul G2 15) 1 2 1 t0) as [[b t1]|] eqn:E1;
    [|vm_compute in E; injection E as <-; vm_compute in E1; discriminate].
  exists t0, b, t1. split; [reflexivity|]. split; [exact E1|].
  destruct (decryption_share_binding _ _ _ _ _ _ _ _ _ _ _ _ _ _ _ _ _ _ _ _ _ _ _ _ E E1 E E1 eq_refl)
    as (He & Hc & HC & _).
  exact (conj He (conj Hc HC)).
Defined.
