(* ===== verification/Recovery.v ===== *)
(** Threshold combination and discrete-log recovery (crypto/recovery.py):
    Lagrange coefficients at zero, combination of decryption shares, and
    baby-step giant-step with its reusable table. *)

From Stdlib Require Import Zmod.
From S2P Require Import Prelude Params Primality Field Points Elgamal.

(** * Definitions *)

(** [lagrange_coefficient]: [pow(den, -1, q)] raises when the denominator is
    not invertible. *)
Definition lagrange_coefficient (j_id : Z) (all_ids : list Z) : result Z :=
  let q := CURVE_ORDER in
  let '(num, den) := foldl (λ '(num, den) k_id,
    if k_id =? j_id then (num, den)
    else ((num * (0 - k_id)) mod q, (den * (j_id - k_id)) mod q)) (1, 1) all_ids in
  inv ← pow_inv den q;
  Ok ((num * inv) mod q).

Section recovery.
Context `{Crypto}.

Definition combine_shares (shares : list (Z * pt G2ops)) : result (pt G2ops) :=
  let all_ids := shares.*1 in
  foldM (λ acc '(j_id, sigma_j),
    lam ← lagrange_coefficient j_id all_ids;
    Ok (add acc (mul sigma_j lam))) shares Z2.

Definition _key (P : pt G2ops) : bytes :=
  if is_identity P then [Byte.x00] else pt_to_compressed G2ops P.

Record BabyStepTable : Type := mkBabyStepTable {
  max_val : Z;
  bs_n : Z;
  neg_step : pt G2ops;
  table : gmap bytes Z;
}.

(** [math.isqrt(max_val) + 2 if max_val > 0 else 1] *)
Definition baby_step_count (max_val : Z) : Z :=
  if 0 <? max_val then Z.sqrt max_val + 2 else 1.

Definition build_baby_step_table (max_val : Z) : BabyStepTable :=
  let n := baby_step_count max_val in
  let '(table, _) := foldl (λ '(table, power) j,
    (<[_key power := j]> table, add power G2)) (∅, Z2) (seqZ 0 n) in
  mkBabyStepTable max_val n (neg (mul G2 n)) table.

(** The giant-step loop, from step [i] on; [fuel] steps are left. *)
Fixpoint giant_steps (bst : BabyStepTable) (fuel : nat) (i : Z) (gamma : pt G2ops) : option Z :=
  match fuel with
  | O => None
  | S fuel =>
      let next := giant_steps bst fuel (i + 1) (add gamma (neg_step bst)) in
      match table bst !! _key gamma with
      | Some j => let m := i * bs_n bst + j in if m <=? max_val bst then Some m else next
      | None => next
      end
  end.

Definition baby_step_giant_step_with_table (target : pt G2ops) (bst : BabyStepTable) : option Z :=
  if max_val bst =? 0 then (if is_identity target then Some 0 else None) else
  if is_identity target then Some 0 else
  giant_steps bst (Z.to_nat (bs_n bst + 1)) 0 target.

Definition baby_step_giant_step (target : pt G2ops) (max_val : Z) : option Z :=
  if max_val =? 0 then (if is_identity target then Some 0 else None) else
  if is_identity target then Some 0 else
  baby_step_giant_step_with_table target (build_baby_step_table max_val).

Definition threshold_decrypt (C1 C2 : pt G2ops) (shares : list (Z * pt G2ops)) (max_val : Z)
  : result (option Z) :=
  sigma ← combine_shares shares;
  let tau := add C2 (neg sigma) in
  Ok (baby_step_giant_step tau max_val).

End recovery.

(** * Lagrange coefficients *)

(** Distinct as scalars. *)
Definition distinct_ids (ids : list Z) : Prop := NoDup (inF <$> ids).

Lemma lagrange_fold j ids num den :
  (∀ k, k ∈ ids → k = j ∨ inF k ≠ inF j) →
  ∀ num' den', foldl (λ '(num, den) k_id,
    if k_id =? j then (num, den)
    else ((num * (0 - k_id)) mod CURVE_ORDER, (den * (j - k_id)) mod CURVE_ORDER)) (num, den) ids
    = (num', den') →
  inF den ≠ F0 →
  inF den' ≠ F0 ∧ (inF num' / inF den' = inF num / inF den * lamF (inF j) (inF <$> ids))%F.
Proof.
  revert num den. induction ids as [|k ids IH]; intros num den Hd num' den' Hf Hden.
  - injection Hf as <- <-. split; [done|]. cbn. field. done.
  - cbn [foldl] in Hf. destruct (Z.eqb_spec k j) as [->|Hkj].
    + destruct (IH num den ltac:(set_solver) _ _ Hf Hden) as [H1 H2]. split; [done|].
      rewrite fmap_cons, lamF_cons_eq. done.
    + assert (Hne : inF k ≠ inF j) by (destruct (Hd k) as [->|]; [left|done|done]).
      assert (Hsub := F_sub_neq _ _ (not_eq_sym Hne)).
      assert (Hden' : inF ((den * (j - k)) mod CURVE_ORDER) ≠ F0).
      { autorewrite with F_rw. intros [E|E]%Zmod.mul_0_iff_prime; [done|done|apply q_prime]. }
      destruct (IH _ _ ltac:(set_solver) _ _ Hf Hden') as [H1 H2]. split; [done|].
      rewrite H2, fmap_cons. autorewrite with F_rw. cbn [lamF foldr]. rewrite decide_False by done.
      fold (lamF (inF j) (inF <$> ids)). field. done.
Qed.

(** On distinct identifiers the coefficient exists and is [Π (0 - k)/(j - k)]. *)
Lemma lagrange_coefficient_Ok j ids : distinct_ids ids → j ∈ ids →
  ∃ lam, lagrange_coefficient j ids = Ok lam ∧ inF lam = lamF (inF j) (inF <$> ids).
Proof.
  intros Hd Hj. unfold lagrange_coefficient. destruct (foldl _ _ _) as [num den] eqn:Hf.
  apply lagrange_fold in Hf as [Hden Heq].
  - destruct (pow_inv_Ok den Hden) as (b & -> & Hb). eexists. split; [reflexivity|].
    autorewrite with F_rw. rewrite Hb.
    transitivity (inF num / inF den)%F; [by field|]. rewrite Heq, inF_1. field. apply F1_neq_F0.
  - intros k Hk. destruct (decide (inF k = inF j)) as [E|]; [|by right]. left.
    apply list_elem_of_lookup in Hj as [i Hi], Hk as [i' Hi'].
    assert (i' = i) as ->.
    { eapply (NoDup_lookup _ _ _ _ Hd); rewrite list_lookup_fmap; [by rewrite Hi'|].
      rewrite Hi. cbn. by rewrite E. }
    congruence.
  - rewrite inF_1. apply F1_neq_F0.
Qed.

(** * Combination of shares *)

Section combine.
Context `{CryptoLaws}.

(** The points a set of keypers contributes: [sigma_i = (c * p(i)) P2]. *)
Definition shares_of (c : F) (p : list F) (shares : list (Z * pt G2ops)) : Prop :=
  Forall (λ sh, sh.2 = gmul (c * polyF p (inF sh.1))%F) shares.

Lemma combine_fold c p ids l a : distinct_ids ids → (∀ sh, sh ∈ l → sh.1 ∈ ids) →
  shares_of c p l →
  foldM (λ acc '(j_id, sigma_j),
    lam ← lagrange_coefficient j_id ids; Ok (add acc (mul sigma_j lam))) l (gmul a)
  = Ok (gmul (a + c * sumF ((λ j, lamF j (inF <$> ids) * polyF p j)%F <$> (inF <$> l.*1)))%F).
Proof.
  intros Hids. revert a. induction l as [|[j sg] l IH]; intros a Hin Hsh.
  - cbn. do 2 f_equal. ring.
  - apply Forall_cons in Hsh as [Hj Hsh]. cbn in Hj. subst sg. cbn [foldM].
    destruct (lagrange_coefficient_Ok j ids Hids) as (lam & -> & Hlam).
    { eapply (Hin (j, _)). left. }
    cbn [mbind result_bind]. rewrite gmul_mul, gmul_add, IH; [|set_solver|done].
    do 2 f_equal. rewrite Hlam, !fmap_cons, sumF_cons. cbn [fst]. ring.
Qed.

(** At least [length p] shares of distinct keypers combine to the value of the
    shared polynomial at zero. *)
Lemma combine_shares_correct c p shares :
  distinct_ids shares.*1 → shares ≠ [] → (length p <= length shares)%nat → shares_of c p shares →
  combine_shares shares = Ok (gmul (c * polyF p F0)%F).
Proof.
  intros Hd Hne Hl Hs. unfold combine_shares, Z2. rewrite gmul_id.
  rewrite (combine_fold c p shares.*1 shares F0 Hd); [|by intros ? ?; apply list_elem_of_fmap_2|done].
  do 2 f_equal. rewrite interpolation; [ring|done| |].
  - by destruct shares.
  - by rewrite !length_fmap.
Qed.

(** * Baby-step giant-step *)

Lemma _key_inj P Q : in_subgroup P → in_subgroup Q → _key P = _key Q → P = Q.
Proof.
  intros HP HQ. unfold _key, is_identity.
  assert (Hone : ∀ R, pt_to_compressed G2ops R ≠ [Byte.x00]).
  { intros R E. apply (f_equal len) in E. by rewrite compressed_size in E. }
  destruct (pt_eqb _ P _) eqn:EP, (pt_eqb _ Q _) eqn:EQ; intros E.
  - apply eqb_spec_pt in EP as ->, EQ as ->. done.
  - by apply eq_sym, Hone in E.
  - by apply Hone in E.
  - by apply to_compressed_inj in E.
Qed.

(** The table maps the key of [j * P2] to [j], for the [n] first [j]. *)
Definition table_ok (t : gmap bytes Z) (n : Z) : Prop :=
  ∀ a j, t !! _key (gmul a) = Some j ↔ 0 <= j < n ∧ a = inF j.

Lemma table_loop k : Z.of_nat k <= CURVE_ORDER →
  ∃ t, foldl (λ '(table, power) j, (<[_key power := j]> table, add power G2)) (∅, Z2)
         (seqZ 0 (Z.of_nat k)) = (t, gmul (inF (Z.of_nat k))) ∧ table_ok t (Z.of_nat k).
Proof.
  induction k as [|k IH]; intros Hk.
  - exists ∅. change (Z.of_nat 0) with 0. rewrite inF_0, <- gmul_id. split; [done|].
    intros a j. rewrite lookup_empty. split; [done|lia].
  - destruct IH as (t & Hf & Ht); [lia|].
    rewrite seqZ_S, Nat2Z.inj_succ, foldl_app, Hf. cbn [foldl].
    eexists. split; [f_equal; unfold G2; to_gmul; f_equal; rewrite <- Z.add_1_r; solve_F|].
    intros a j. rewrite Z.add_0_l. destruct (decide (a = inF (Z.of_nat k))) as [->|Hne].
    + rewrite lookup_insert. rewrite decide_True by done. split.
      * intros [= <-]. split; [lia|done].
      * intros [Hj E]. f_equal. apply inF_inj_small; [lia|lia|done].
    + rewrite lookup_insert_ne by (intros E; apply _key_inj in E; [by apply gmul_inj in E|apply gmul_subgroup..]).
      rewrite (Ht a j). split; [intros [? ?]; split; [lia|done]|].
      intros [Hj ->]. split; [|done]. destruct (decide (j = Z.of_nat k)); [by subst|lia].
Qed.

Lemma baby_step_count_bounds m : 0 < m < CURVE_ORDER →
  1 <= baby_step_count m <= CURVE_ORDER ∧ m < baby_step_count m * baby_step_count m.
Proof.
  intros Hm. unfold baby_step_count. rewrite (proj2 (Z.ltb_lt 0 m)) by lia.
  pose proof (Z.sqrt_spec m ltac:(lia)) as Hs. pose proof (Z.sqrt_nonneg m) as H0s.
  assert (Hq : 4 < CURVE_ORDER) by done. revert Hs H0s. generalize (Z.sqrt m). intros s Hs H0s.
  unfold Z.succ in Hs. split; [|nia]. split; [lia|].
  destruct (decide (s <= 2)); nia.
Qed.

Lemma build_baby_step_table_ok m : 0 < m < CURVE_ORDER →
  let bst := build_baby_step_table m in
  max_val bst = m ∧ bs_n bst = baby_step_count m ∧
  neg_step bst = gmul (- inF (baby_step_count m))%F ∧ table_ok (table bst) (baby_step_count m).
Proof.
  intros Hm. pose proof (baby_step_count_bounds m Hm) as [Hn _].
  unfold build_baby_step_table. set (n := baby_step_count m) in *.
  destruct (table_loop (Z.to_nat n)) as (t & Hf & Ht); [lia|].
  rewrite Z2Nat.id in Hf, Ht by lia. rewrite Hf. cbn.
  split_and!; [done|done| |done]. unfold G2. to_gmul. f_equal. ring.
Qed.

(** A table as [build_baby_step_table] makes it. *)
Record bst_ok (bst : BabyStepTable) : Prop := {
  bst_max : 0 < max_val bst < CURVE_ORDER;
  bst_n_pos : 1 <= bs_n bst;
  bst_n_sq : max_val bst < bs_n bst * bs_n bst;
  bst_step : neg_step bst = gmul (- inF (bs_n bst))%F;
  bst_table : table_ok (table bst) (bs_n bst);
}.

Lemma build_bst_ok m : 0 < m < CURVE_ORDER → bst_ok (build_baby_step_table m).
Proof.
  intros Hm. destruct (build_baby_step_table_ok m Hm) as (E1 & E2 & E3 & E4).
  destruct (baby_step_count_bounds m Hm) as [? ?].
  split; rewrite ?E1, ?E2; try done; lia.
Qed.

Section walk.
Context (bst : BabyStepTable) (Hb : bst_ok bst).

Lemma giant_step_gamma t i :
  add (gmul (t - inF (i * bs_n bst))%F) (neg_step bst) = gmul (t - inF ((i + 1) * bs_n bst))%F.
Proof. rewrite (bst_step _ Hb), gmul_add. f_equal. autorewrite with F_rw. ring. Qed.

(** What the walk returns is a discrete logarithm within the bound. *)
Lemma giant_steps_sound fuel t i m : 0 <= i →
  giant_steps bst fuel i (gmul (t - inF (i * bs_n bst))%F) = Some m →
  0 <= m <= max_val bst ∧ t = inF m.
Proof.
  revert i. induction fuel as [|fuel IH]; intros i Hi Hg; [done|]. cbn [giant_steps] in Hg.
  rewrite giant_step_gamma in Hg.
  destruct (table bst !! _) as [j|] eqn:Hj; [|apply IH in Hg; [done|lia]].
  apply (bst_table _ Hb) in Hj as [Hj Ht].
  destruct (Z.leb_spec (i * bs_n bst + j) (max_val bst)); [|apply IH in Hg; [done|lia]].
  injection Hg as <-. pose proof (bst_n_pos _ Hb). split; [nia|].
  rewrite inF_add, <- Ht. ring.
Qed.

(** A discrete logarithm within the bound is found. *)
Lemma giant_steps_complete fuel m i : 0 <= i → 0 <= m <= max_val bst →
  i <= m / bs_n bst < i + Z.of_nat fuel →
  giant_steps bst fuel i (gmul (inF m - inF (i * bs_n bst))%F) = Some m.
Proof.
  pose proof (bst_n_pos _ Hb) as Hn. pose proof (bst_max _ Hb) as Hmax.
  revert i. induction fuel as [|fuel IH]; intros i Hi Hm Hf; [lia|]. cbn [giant_steps].
  rewrite giant_step_gamma, <- inF_sub.
  pose proof (Z.div_mod m (bs_n bst) ltac:(lia)) as Hdm.
  pose proof (Z.mod_pos_bound m (bs_n bst) ltac:(lia)) as Hr.
  destruct (decide (i = m / bs_n bst)) as [->|Hne].
  - assert (table bst !! _key (gmul (inF (m - m / bs_n bst * bs_n bst))) = Some (m mod bs_n bst)) as ->.
    { apply (bst_table _ Hb). split; [done|]. f_equal. lia. }
    cbn zeta. rewrite (proj2 (Z.leb_le _ _)) by lia. f_equal. lia.
  - assert (Hbig : bs_n bst <= m - i * bs_n bst) by nia.
    destruct (table bst !! _) as [j|] eqn:Hj; [|apply IH; [lia|lia|lia]].
    apply (bst_table _ Hb) in Hj as [Hj Ht]. apply inF_inj_small in Ht; [nia|nia|lia].
Qed.

End walk.

Lemma is_identity_small m : 0 <= m < CURVE_ORDER → is_identity (mul G2 m) = (m =? 0).
Proof.
  intros Hm. unfold G2. to_gmul. rewrite is_identity_gmul.
  destruct (Z.eqb_spec m 0) as [->|Hne].
  - apply bool_decide_true. rewrite inF_0. ring.
  - apply bool_decide_false. intros E. apply Hne. apply inF_inj_small; [done|pose proof q_pos; lia|].
    rewrite inF_0, <- E. ring.
Qed.

(** [baby_step_giant_step] decides the discrete logarithm within its bound. *)
Lemma bsgs_complete m max : 0 <= m <= max → max < CURVE_ORDER →
  baby_step_giant_step (mul G2 m) max = Some m.
Proof.
  intros Hm Hmax. unfold baby_step_giant_step, baby_step_giant_step_with_table.
  rewrite is_identity_small by lia.
  destruct (Z.eqb_spec max 0) as [->|Hmax0]; [by replace m with 0 by lia|].
  destruct (Z.eqb_spec m 0) as [->|Hm0]; [done|].
  destruct (build_baby_step_table_ok max) as (E1 & E2 & _ & _); [lia|].
  pose proof (build_bst_ok max ltac:(lia)) as Hb. rewrite E1, (proj2 (Z.eqb_neq max 0)) by done.
  assert (Hg := giant_steps_complete _ Hb (Z.to_nat (bs_n (build_baby_step_table max) + 1)) m 0).
  rewrite Z.mul_0_l, inF_0 in Hg. unfold G2. to_gmul.
  replace (F1 * inF m)%F with (inF m - F0)%F by ring. apply Hg; [lia|lia|].
  pose proof (bst_n_pos _ Hb). pose proof (bst_n_sq _ Hb). rewrite E1 in *.
  split; [apply Z.div_pos; lia|]. apply Z.div_lt_upper_bound; [lia|]. nia.
Qed.

Lemma bsgs_sound P m max : in_subgroup P → 0 <= max < CURVE_ORDER →
  baby_step_giant_step P max = Some m → 0 <= m <= max ∧ P = mul G2 m.
Proof.
  intros HP Hmax. unfold baby_step_giant_step, baby_step_giant_step_with_table.
  destruct (is_identity P) eqn:Hid.
  - apply eqb_spec_pt in Hid as ->. intros Hz. assert (m = 0) as -> by (destruct (max =? 0); congruence).
    split; [lia|]. solve_point. ring.
  - destruct (Z.eqb_spec max 0) as [|Hmax0]; [done|].
    destruct (build_baby_step_table_ok max) as (E1 & E2 & _ & _); [lia|].
    rewrite E1, (proj2 (Z.eqb_neq max 0)) by done. dlog. intros Hg.
    assert (Hb := build_bst_ok max ltac:(lia)).
    replace xP with (xP - inF (0 * bs_n (build_baby_step_table max)))%F in Hg
      by (rewrite Z.mul_0_l, inF_0; ring).
    apply giant_steps_sound in Hg as [Hm ->]; [|done|lia]. rewrite E1 in Hm.
    split; [done|]. unfold G2. to_gmul. f_equal. ring.
Qed.

(** The whole threshold decryption. *)
Lemma threshold_decrypt_correct mpk ct m r p shares max :
  mpk = gmul (polyF p F0) → encrypts mpk ct m r → 0 <= m <= max → max < CURVE_ORDER →
  distinct_ids shares.*1 → shares ≠ [] → (length p <= length shares)%nat →
  shares_of (inF r) p shares →
  threshold_decrypt ct.1 ct.2 shares max = Ok (Some m).
Proof.
  intros -> Henc Hm Hmax Hd Hne Hl Hs. unfold threshold_decrypt.
  rewrite (combine_shares_correct (inF r) p) by done. cbn. f_equal.
  rewrite <- (bsgs_complete m max) by done. f_equal.
  rewrite Henc. unfold encrypt; cbn [fst snd]. unfold G2. to_gmul. f_equal. ring.
Qed.

End combine.

(** * Properties *)

(** C10: baby-step giant-step decides the discrete logarithm within its bound:
    an answer [m] satisfies [0 <= m <= max] and [m * P2 = P], and [None] means
    that no such [m] exists.  The walk of [n + 1] giant steps is long enough
    for every bound below the group order. *)
Theorem bsgs_decides `{CryptoLaws} P max : in_subgroup P → 0 <= max < CURVE_ORDER →
  match baby_step_giant_step P max with
  | Some m => 0 <= m <= max ∧ P = mul G2 m
  | None => ∀ m, 0 <= m <= max → P ≠ mul G2 m
  end.
Proof.
  intros HP Hmax. destruct (baby_step_giant_step P max) as [m|] eqn:E.
  - by apply bsgs_sound in E.
  - intros m Hm ->. rewrite bsgs_complete in E; [done|done|lia].
Qed.

Lemma bsgs_decides_witness :
  let c := concrete_crypto in
  baby_step_giant_step (mul G2 37) 50 = Some 37 ∧ 0 <= 37 <= 50 ∧ mul G2 37 = mul G2 37.
Proof.
  intros c. assert (E : baby_step_giant_step (mul G2 37) 50 = Some 37) by (vm_compute; reflexivity).
  split; [exact E|]. pose proof (bsgs_decides (mul G2 37) 50 eq_refl ltac:(split; [lia|reflexivity])) as Hd.
  rewrite E in Hd. exact Hd.
Defined.

(** Lagrange combination: shares [c * p(i) * P2] of keypers whose ids are
    distinct modulo the order, at least as many as the polynomial has
    coefficients, combine to [c * p(0) * P2]; no coefficient computation
    raises. *)
Theorem lagrange_combination `{CryptoLaws} c p shares :
  distinct_ids shares.*1 → shares ≠ [] → (length p <= length shares)%nat → shares_of c p shares →
  combine_shares shares = Ok (gmul (c * polyF p F0)%F).
Proof. apply combine_shares_correct. Qed.

Lemma lagrange_combination_witness :
  let c := concrete_crypto in
  let p := [inF 10; inF 3] in
  let sh i := (i, gmul (inF 2 * polyF p (inF i))%F) in
  combine_shares [sh 1; sh 3] = Ok (gmul (inF 2 * polyF p F0)%F).
Proof.
  intros c p sh. apply (lagrange_combination (inF 2) p [sh 1; sh 3]).
  - apply (bool_decide_unpack _). vm_compute. exact I.
  - discriminate.
  - reflexivity.
  - repeat apply Forall_cons_2; [reflexivity..|apply Forall_nil_2].
Defined.
