(* ===== verification/Dkg.v ===== *)
(** Feldman VSS distributed key generation (crypto/dkg.py): the per-keyper
    state machine (round 1, round 2, partial decryption), the share check and
    the derivation of the joint and per-keyper public keys.  The random
    coefficients are drawn from an explicit stream. *)

From Stdlib Require Import Zmod.
From S2P Require Import Prelude Params Primality Field Points Elgamal Recovery.

(** * Definitions *)

Section dkg.
Context `{Crypto}.

Record KeyperDKGState : Type := mkKeyperDKGState {
  dkg_keyper_id : option Z;
  dkg_n : option Z;
  dkg_quorum : option Z;
  dkg_coefficients : option (list Z);
  dkg_commitments : option (list (pt G2ops));
  dkg_shares_for_others : dict Z Z;
  dkg_combined_share : option Z;
  dkg_public_key_share : option (pt G2ops);
}.

(** [KeyperDKGState()] *)
Definition init_state : KeyperDKGState :=
  mkKeyperDKGState None None None None None [] None None.

(** The inner loop of [round1]: the dealer's polynomial at [i]. *)
Definition eval_share (coeffs : list Z) (i : Z) : Z :=
  (foldl (λ '(val, x_power) c,
     ((val + c * x_power) mod CURVE_ORDER, (x_power * i) mod CURVE_ORDER)) (0, 1) coeffs).1.

(** [round1]: [rng j] is the [j]-th draw of [secrets.randbelow]. *)
Definition round1 (st : KeyperDKGState) (kid num q : Z) (rng : nat → Z)
  : KeyperDKGState * (list (pt G2ops) * dict Z Z) :=
  let coeffs := (λ j, random_scalar (rng j)) <$> seq 0 (Z.to_nat q) in
  let comms := (λ c, mul G2 c) <$> coeffs in
  let shares := (λ i, (i, eval_share coeffs i)) <$> seqZ 1 num in
  (mkKeyperDKGState (Some kid) (Some num) (Some q) (Some coeffs) (Some comms) shares
     (dkg_combined_share st) (dkg_public_key_share st),
   (comms, shares)).

(** [verify_share]: [share·P2 == Σ_j recipient^j·γ_j]. *)
Definition verify_share (comms : list (pt G2ops)) (recipient_index share : Z) : bool :=
  let '(expected, _) := foldl (λ '(expected, x_power) c,
    (add expected (mul c x_power), (x_power * recipient_index) mod CURVE_ORDER)) (Z2, 1) comms in
  point_eq expected (mul G2 share).

(** Whether round 2 blames a dealer; [TypeError] when the keyper has no id. *)
Definition dealer_faulty (st : KeyperDKGState) (all_commitments : dict Z (list (pt G2ops)))
    (dealer_id share : Z) : result bool :=
  match dict_get all_commitments dealer_id with
  | None => Ok true
  | Some comms =>
      if decide (dkg_quorum st = Some (len comms)) then
        match dkg_keyper_id st with
        | Some my_id => Ok (negb (verify_share comms my_id share))
        | None => match comms with [] => Ok (negb (verify_share comms 0 share)) | _ => Err TypeError end
        end
      else Ok true
  end.

Definition round2 (st : KeyperDKGState) (all_commitments : dict Z (list (pt G2ops)))
    (received_shares : dict Z Z) : result (KeyperDKGState * (Z * pt G2ops)) :=
  bad_dealers ← foldM (λ bad '(dealer_id, share),
    b ← dealer_faulty st all_commitments dealer_id share;
    Ok (if (b : bool) then bad ++ [dealer_id] else bad)) received_shares [];
  _ ← raise_if (negb (bool_decide (bad_dealers = []))) (DealerFault bad_dealers);
  let cs := zsum (dict_values received_shares) mod CURVE_ORDER in
  let pks := mul G2 cs in
  Ok (mkKeyperDKGState (dkg_keyper_id st) (dkg_n st) (dkg_quorum st) (dkg_coefficients st) (dkg_commitments st)
        (dkg_shares_for_others st) (Some cs) (Some pks), (cs, pks)).

Definition zeroize_dealing (st : KeyperDKGState) : KeyperDKGState :=
  mkKeyperDKGState (dkg_keyper_id st) (dkg_n st) (dkg_quorum st) None (dkg_commitments st) []
    (dkg_combined_share st) (dkg_public_key_share st).

Definition partial_decrypt (st : KeyperDKGState) (C1 : pt G2ops) : result (pt G2ops) :=
  match dkg_combined_share st with
  | None => Err RuntimeError
  | Some cs => Ok (mul C1 cs)
  end.

(** [sorted(ids)] *)
Definition sortedZ (l : list Z) : list Z := merge_sort Z.le l.

Definition check_commitment_lengths (all_commitments : dict Z (list (pt G2ops))) (q : Z) : result unit :=
  let bad_dealers := sortedZ (filter (λ dc, len dc.2 ≠ q) all_commitments).*1 in
  raise_if (negb (bool_decide (bad_dealers = []))) (DealerFault bad_dealers).

Definition derive_joint_mpk (all_commitments : dict Z (list (pt G2ops))) (q : Z) : result (pt G2ops) :=
  _ ← check_commitment_lengths all_commitments q;
  foldM (λ mpk dealer_id,
    comms ← match dict_get all_commitments dealer_id with Some c => Ok c | None => Err KeyError end;
    match comms with
    | [] => Err IndexError
    | c0 :: _ => Ok (add mpk c0)
    end) (sortedZ (dict_keys all_commitments)) Z2.

Definition derive_mpk_share (target_keyper_id : Z) (all_commitments : dict Z (list (pt G2ops))) (q : Z)
  : result (pt G2ops) :=
  _ ← check_commitment_lengths all_commitments q;
  foldM (λ mpk_share dealer_id,
    comms ← match dict_get all_commitments dealer_id with Some c => Ok c | None => Err KeyError end;
    Ok (foldl (λ '(acc, x_power) c,
          (add acc (mul c x_power), (x_power * target_keyper_id) mod CURVE_ORDER))
        (mpk_share, 1) comms).1) (sortedZ (dict_keys all_commitments)) Z2.

(** * Polynomials and shares *)

Context `{!CryptoLaws}.

Lemma eval_fold i cs v x :
  inF (foldl (λ '(val, x_power) c,
     ((val + c * x_power) mod CURVE_ORDER, (x_power * i) mod CURVE_ORDER)) (v, x) cs).1
  = (inF v + inF x * polyF (inF <$> cs) (inF i))%F.
Proof.
  revert v x. induction cs as [|c cs IH]; intros v x; cbn [foldl].
  - cbn. ring.
  - rewrite IH, fmap_cons, polyF_cons. autorewrite with F_rw. ring.
Qed.

Lemma eval_share_poly cs i : inF (eval_share cs i) = polyF (inF <$> cs) (inF i).
Proof. unfold eval_share. rewrite eval_fold, inF_0, inF_1. ring. Qed.

(** The Feldman sum [Σ_j x^j γ_j], for commitments with exponents [cs]. *)
Lemma feldman_fold i cs a x :
  (foldl (λ '(acc, x_power) c,
     (add acc (mul c x_power), (x_power * i) mod CURVE_ORDER)) (gmul a : pt G2ops, x) (gmul <$> cs)).1
  = gmul (a + inF x * polyF cs (inF i))%F.
Proof.
  revert a x. induction cs as [|c cs IH]; intros a x; cbn [foldl fmap list_fmap].
  - cbn. f_equal. ring.
  - rewrite gmul_mul, gmul_add. etransitivity; [apply IH|]. f_equal.
    rewrite polyF_cons. autorewrite with F_rw. ring.
Qed.

(** The Feldman check accepts exactly the value of the committed polynomial. *)
Lemma verify_share_spec cs i s :
  verify_share (gmul <$> cs) i s = true ↔ inF s = polyF cs (inF i).
Proof.
  unfold verify_share, Z2. rewrite gmul_id. pose proof (feldman_fold i cs F0 1) as Hf.
  destruct (foldl _ _ _) as [expected xp]. cbn in Hf. subst expected.
  rewrite point_eq_spec. unfold G2. to_gmul. rewrite gmul_inj, inF_1.
  split; intros E.
  - transitivity (F1 * inF s)%F; [ring|]. rewrite <- E. ring.
  - rewrite E. ring.
Qed.

Lemma commitments_dlog (comms : list (pt G2ops)) :
  Forall (λ c, in_subgroup c) comms → ∃ cs, comms = gmul <$> cs.
Proof.
  induction 1 as [|c comms Hc _ [cs IH]]; [by exists []|].
  apply subgroup_dlog in Hc as [x ->]. exists (x :: cs). cbn. by f_equal.
Qed.

(** * A committee's dealings

    [dealings] gives each dealer the exponents of its commitments. *)

Definition dealt (dealings : dict Z (list F)) : dict Z (list (pt G2ops)) :=
  (λ dc : Z * list F, (dc.1, gmul <$> dc.2)) <$> dealings.

Lemma dealt_exists (all_commitments : dict Z (list (pt G2ops))) :
  Forall (λ dc, Forall (λ c, in_subgroup c) dc.2) all_commitments →
  ∃ dealings, all_commitments = dealt dealings.
Proof.
  induction 1 as [|[d comms] all Hc _ [ds IH]]; [by exists []|].
  apply commitments_dlog in Hc as [cs Hcs]. cbn in Hcs. subst. by exists ((d, cs) :: ds).
Qed.

Lemma dealt_keys ds : dict_keys (dealt ds) = dict_keys ds.
Proof. unfold dict_keys, dealt. rewrite <- list_fmap_compose. by apply list_fmap_ext. Qed.

Lemma dealt_get ds d :
  dict_get (dealt ds) d = match dict_get ds d with Some cs => Some (gmul <$> cs) | None => None end.
Proof.
  unfold dealt. induction ds as [|[d' cs] ds IH]; [done|]. cbn. case_decide; done.
Qed.

(** The joint polynomial: the sum of the dealers' polynomials. *)
Definition joint_poly (q : nat) (ds : dict Z (list F)) : list F :=
  foldr (λ (dc : Z * list F) acc, zip_with Zmod.add dc.2 acc) (replicate q F0) ds.

Definition uniform (q : nat) (ds : dict Z (list F)) : Prop := Forall (λ dc, length dc.2 = q) ds.

Lemma length_joint_poly q ds : uniform q ds → length (joint_poly q ds) = q.
Proof.
  induction 1 as [|[d cs] ds Hd _ IH]; cbn; [apply length_replicate|].
  cbn in Hd. fold (joint_poly q ds). rewrite length_zip_with, IH. lia.
Qed.

Lemma polyF_zip_add p r x : length p = length r →
  polyF (zip_with Zmod.add p r) x = (polyF p x + polyF r x)%F.
Proof.
  revert r. induction p as [|a p IH]; intros [|b r] Hl; try done.
  cbn [zip_with]. rewrite !polyF_cons, IH by (by injection Hl). ring.
Qed.

Lemma polyF_zeros k x : polyF (replicate k F0) x = F0.
Proof. induction k as [|k IH]; [done|]. cbn [replicate]. rewrite polyF_cons, IH. ring. Qed.

Lemma joint_poly_eval q ds x : uniform q ds →
  polyF (joint_poly q ds) x = sumF ((λ dc, polyF dc.2 x) <$> ds).
Proof.
  intros Hu. induction Hu as [|[d cs] ds Hd Hu IH]; [apply polyF_zeros|].
  cbn [joint_poly foldr]. fold (joint_poly q ds). cbn [fst snd] in *.
  rewrite polyF_zip_add, fmap_cons, sumF_cons, IH by (by rewrite length_joint_poly). done.
Qed.

(** Sums over the dealers in any order of their identifiers. *)
Lemma sum_over_keys {V} (f : V → F) (h : Z → F) (ds : dict Z V) ks :
  NoDup (dict_keys ds) → ks ≡ₚ dict_keys ds →
  (∀ d v, dict_get ds d = Some v → h d = f v) →
  sumF (h <$> ks) = sumF ((λ dv, f dv.2) <$> ds).
Proof.
  intros Hnd HP Hh. rewrite (sumF_Permutation _ (h <$> dict_keys ds)) by (by apply fmap_Permutation).
  unfold dict_keys. rewrite <- list_fmap_compose. apply sumF_ext. intros [d v] Hin. cbn.
  apply Hh. by apply elem_dict_get.
Qed.

Lemma sortedZ_Permutation l : sortedZ l ≡ₚ l.
Proof. apply merge_sort_Permutation. Qed.

(** * Key derivation *)

Lemma check_commitment_lengths_Ok ds q u : check_commitment_lengths (dealt ds) q = Ok u →
  uniform (Z.to_nat q) ds.
Proof.
  unfold check_commitment_lengths. intros Hc. inv_ok.
  apply negb_false_iff, bool_decide_eq_true in Hc.
  pose proof (sortedZ_Permutation (filter (λ dc, len dc.2 ≠ q) (dealt ds)).*1) as HP.
  rewrite Hc in HP. apply Permutation_nil_l, eq_sym, fmap_nil_inv in HP.
  apply Forall_forall. intros [d cs] Hin. cbn. apply dec_stable. intros Hne.
  assert (Hbad : (d, gmul <$> cs) ∈ filter (λ dc, len dc.2 ≠ q) (dealt ds)).
  { apply list_elem_of_filter. split.
    - cbn. unfold len. rewrite length_fmap. lia.
    - unfold dealt. apply list_elem_of_fmap. by exists (d, cs). }
  rewrite HP in Hbad. by apply not_elem_of_nil in Hbad.
Qed.

Lemma check_commitment_lengths_uniform ds q : uniform (Z.to_nat q) ds → 0 <= q →
  check_commitment_lengths (dealt ds) q = Ok tt.
Proof.
  intros Hu Hq. unfold check_commitment_lengths.
  assert (filter (λ dc, len dc.2 ≠ q) (dealt ds) = []) as ->; [|done].
  unfold dealt. induction Hu as [|[d cs] ds Hd _ IH]; [done|]. cbn in *.
  rewrite decide_False; [done|]. unfold len. rewrite length_fmap. lia.
Qed.

(** A fold over dealers that adds one point per dealer. *)
Lemma dealer_fold (body : pt G2ops → Z → result (pt G2ops)) (h : Z → F) ks a :
  (∀ b d, d ∈ ks → body (gmul b) d = Ok (gmul (b + h d)%F)) →
  foldM body ks (gmul a) = Ok (gmul (a + sumF (h <$> ks))%F).
Proof.
  revert a. induction ks as [|d ks IH]; intros a Hb; cbn [foldM].
  - unfold sumF. cbn [fmap list_fmap foldr]. do 2 f_equal. ring.
  - rewrite Hb by left. cbn [mbind result_bind]. rewrite IH by set_solver.
    rewrite fmap_cons, sumF_cons. do 2 f_equal. ring.
Qed.

Lemma sorted_keys_dealt ds : sortedZ (dict_keys (dealt ds)) ≡ₚ dict_keys ds.
Proof. rewrite dealt_keys. apply sortedZ_Permutation. Qed.

Lemma dealt_get_key ds d ks : ks ≡ₚ dict_keys ds → d ∈ ks →
  ∃ cs, dict_get ds d = Some cs ∧ dict_get (dealt ds) d = Some (gmul <$> cs).
Proof.
  intros HP Hd. rewrite HP in Hd. destruct (dict_get ds d) as [cs|] eqn:E.
  - exists cs. split; [done|]. by rewrite dealt_get, E.
  - by apply dict_get_None in E.
Qed.

(** The value at [x] of a dealer's polynomial. *)
Definition dealer_value (ds : dict Z (list F)) (x : F) (d : Z) : F :=
  polyF (default [] (dict_get ds d)) x.

Lemma joint_poly_sorted q ds x ks : uniform q ds → NoDup (dict_keys ds) → ks ≡ₚ dict_keys ds →
  sumF (dealer_value ds x <$> ks) = polyF (joint_poly q ds) x.
Proof.
  intros Hu Hnd HP. rewrite joint_poly_eval by done.
  apply (sum_over_keys (λ cs, polyF cs x)); [done|done|].
  intros d v Hd. unfold dealer_value. by rewrite Hd.
Qed.

(** The joint key is [P(0)] for the joint polynomial [P]. *)
Lemma derive_joint_mpk_spec ds q : NoDup (dict_keys ds) → uniform (Z.to_nat q) ds → 1 <= q →
  derive_joint_mpk (dealt ds) q = Ok (gmul (polyF (joint_poly (Z.to_nat q) ds) F0)).
Proof.
  intros Hnd Hu Hq. unfold derive_joint_mpk. rewrite check_commitment_lengths_uniform by (done || lia).
  cbn [mbind result_bind]. unfold Z2. rewrite gmul_id.
  rewrite (dealer_fold _ (dealer_value ds F0)).
  - rewrite (joint_poly_sorted (Z.to_nat q)) by (done || apply sorted_keys_dealt). do 2 f_equal. ring.
  - intros b d Hd. destruct (dealt_get_key ds d _ (sorted_keys_dealt ds) Hd) as (cs & E & ->).
    apply dict_get_elem in E as Hin. apply (proj1 (Forall_forall _ _) Hu) in Hin. cbn in Hin.
    unfold dealer_value. rewrite E. destruct cs as [|c cs]; [cbn in Hin; lia|].
    change (default [] (Some (c :: cs))) with (c :: cs).
    cbn [mbind result_bind fmap list_fmap]. rewrite gmul_add, polyF_cons. do 2 f_equal. ring.
Qed.

(** The public share of keyper [i] is [P(i)]. *)
Lemma derive_mpk_share_spec i ds q : NoDup (dict_keys ds) → uniform (Z.to_nat q) ds → 1 <= q →
  derive_mpk_share i (dealt ds) q = Ok (gmul (polyF (joint_poly (Z.to_nat q) ds) (inF i))).
Proof.
  intros Hnd Hu Hq. unfold derive_mpk_share. rewrite check_commitment_lengths_uniform by (done || lia).
  cbn [mbind result_bind]. unfold Z2. rewrite gmul_id.
  rewrite (dealer_fold _ (dealer_value ds (inF i))).
  - rewrite (joint_poly_sorted (Z.to_nat q)) by (done || apply sorted_keys_dealt). do 2 f_equal. ring.
  - intros b d Hd. destruct (dealt_get_key ds d _ (sorted_keys_dealt ds) Hd) as (cs & E & ->).
    unfold dealer_value. rewrite E. change (default [] (Some cs)) with cs.
    cbn [mbind result_bind]. rewrite feldman_fold, inF_1.
    do 2 f_equal. ring.
Qed.

(** * Round 2 *)

(** The faults round 2 blames, for a keyper with an id. *)
Definition faulty (my_id : Z) (q : option Z) (all_commitments : dict Z (list (pt G2ops)))
    (ds : Z * Z) : bool :=
  match dict_get all_commitments ds.1 with
  | None => true
  | Some comms => negb (bool_decide (q = Some (len comms))) || negb (verify_share comms my_id ds.2)
  end.

Lemma dealer_faulty_eq st my_id all d s : dkg_keyper_id st = Some my_id →
  dealer_faulty st all d s = Ok (faulty my_id (dkg_quorum st) all (d, s)).
Proof.
  intros Hid. unfold dealer_faulty, faulty; cbn [fst snd]. rewrite Hid.
  destruct (dict_get all d) as [comms|]; [|done].
  case_decide as E; [rewrite bool_decide_true by done | rewrite bool_decide_false by done]; done.
Qed.

Lemma faulty_fold st my_id all l bad : dkg_keyper_id st = Some my_id →
  foldM (λ bad '(dealer_id, share),
    b ← dealer_faulty st all dealer_id share;
    Ok (if (b : bool) then bad ++ [dealer_id] else bad)) l bad
  = Ok (bad ++ (filter (λ ds, faulty my_id (dkg_quorum st) all ds = true) l).*1).
Proof.
  intros Hid. revert bad. induction l as [|[d s] l IH]; intros bad; cbn [foldM].
  - by rewrite app_nil_r.
  - rewrite (dealer_faulty_eq st my_id) by done. cbn [mbind result_bind]. rewrite IH, filter_cons.
    destruct (faulty my_id (dkg_quorum st) all (d, s)); [|done].
    rewrite decide_True by done. cbn. by rewrite <- app_assoc.
Qed.

(** Round 2 fails exactly with the list of the faulty dealers. *)
Lemma round2_spec st my_id all received : dkg_keyper_id st = Some my_id →
  let bad := (filter (λ ds, faulty my_id (dkg_quorum st) all ds = true) received).*1 in
  let cs := zsum (dict_values received) mod CURVE_ORDER in
  round2 st all received =
    if bool_decide (bad = []) then
      Ok (mkKeyperDKGState (dkg_keyper_id st) (dkg_n st) (dkg_quorum st) (dkg_coefficients st)
            (dkg_commitments st) (dkg_shares_for_others st) (Some cs) (Some (mul G2 cs)),
          (cs, mul G2 cs))
    else Err (DealerFault bad).
Proof.
  intros Hid bad cs. unfold round2. rewrite (faulty_fold st my_id) by done.
  cbn [mbind result_bind app]. fold bad. by destruct (bool_decide (bad = [])).
Qed.

Lemma faulty_false ds my_id q d s : faulty my_id (Some q) (dealt ds) (d, s) = false →
  ∃ cs, dict_get ds d = Some cs ∧ len cs = q ∧ inF s = polyF cs (inF my_id).
Proof.
  unfold faulty; cbn [fst snd]. rewrite dealt_get. destruct (dict_get ds d) as [cs|]; [|done].
  intros [Hq Hv]%orb_false_elim. apply negb_false_iff, bool_decide_eq_true in Hq.
  apply negb_false_iff, verify_share_spec in Hv. exists cs. split_and!; [done| |done].
  injection Hq as ->. unfold len. by rewrite length_fmap.
Qed.

Lemma inF_zsum l : inF (zsum l) = sumF (inF <$> l).
Proof. unfold zsum. induction l as [|x l IH]; [apply inF_0|]. cbn [foldr]. by rewrite inF_add, IH. Qed.

(** A keyper whose round 2 succeeds holds the joint polynomial at its id,
    whatever the dealers committed to. *)
Lemma round2_share st my_id q ds received st' cs pks :
  dkg_keyper_id st = Some my_id → dkg_quorum st = Some q →
  NoDup (dict_keys ds) → dict_keys received ≡ₚ dict_keys ds →
  round2 st (dealt ds) received = Ok (st', (cs, pks)) →
  uniform (Z.to_nat q) ds ∧ inF cs = polyF (joint_poly (Z.to_nat q) ds) (inF my_id) ∧
  pks = gmul (inF cs) ∧ dkg_combined_share st' = Some cs ∧ 0 <= cs < CURVE_ORDER.
Proof.
  intros Hid Hq Hnd HP Hr. rewrite (round2_spec st my_id), Hq in Hr by done.
  case_bool_decide as Hbad; [|done]. inv_ok. subst. apply fmap_nil_inv in Hbad.
  assert (Hok : ∀ d s, (d, s) ∈ received → ∃ cs, dict_get ds d = Some cs ∧ len cs = q ∧
    inF s = polyF cs (inF my_id)).
  { intros d s Hin. apply faulty_false. apply not_true_is_false. intros Hf.
    eapply not_elem_of_nil. rewrite <- Hbad. apply list_elem_of_filter. by split. }
  assert (Hu : uniform (Z.to_nat q) ds).
  { apply Forall_forall. intros [d cs] Hin. cbn.
    assert (Hd : d ∈ dict_keys received).
    { rewrite HP. apply list_elem_of_fmap. by exists (d, cs). }
    apply list_elem_of_fmap in Hd as ([d' s] & -> & Hs). cbn in *.
    destruct (Hok _ _ Hs) as (cs' & Hg & Hl & _). rewrite (elem_dict_get _ _ _ Hnd Hin) in Hg.
    injection Hg as <-. unfold len in Hl. lia. }
  split; [done|]. split_and!; [|unfold G2; to_gmul; f_equal; ring|done|apply mod_q_range|apply mod_q_range].
  rewrite inF_mod, inF_zsum, <- (joint_poly_sorted _ _ _ _ Hu Hnd HP).
  unfold dict_values, dict_keys. rewrite <- !list_fmap_compose. apply sumF_ext.
  intros [d s] Hin. cbn. destruct (Hok _ _ Hin) as (cs & Hg & _ & ->).
  unfold dealer_value. by rewrite Hg.
Qed.

(** * Round 1 *)

Lemma seqZ_lookup_dict {V} (f : Z → V) i k : 1 <= i <= k →
  dict_get ((λ i, (i, f i)) <$> seqZ 1 k) i = Some (f i).
Proof.
  intros Hi. apply elem_dict_get.
  - unfold dict_keys. rewrite <- list_fmap_compose. rewrite (list_fmap_ext _ id), list_fmap_id by done.
    apply NoDup_seqZ.
  - apply list_elem_of_fmap. exists i. split; [done|]. apply elem_of_seqZ. lia.
Qed.

(** What an honest dealer publishes and hands out. *)
Lemma round1_spec st kid num q rng st' comms shares :
  round1 st kid num q rng = (st', (comms, shares)) → 0 <= q →
  ∃ cs, comms = gmul <$> cs ∧ len cs = q ∧
    (∀ i, 1 <= i <= num → ∃ s, dict_get shares i = Some s ∧ inF s = polyF cs (inF i)) ∧
    dkg_keyper_id st' = Some kid ∧ dkg_quorum st' = Some q.
Proof.
  intros Hr Hq. unfold round1 in Hr. injection Hr as <- <- <-.
  set (coeffs := (λ j, random_scalar (rng j)) <$> seq 0 (Z.to_nat q)).
  exists (inF <$> coeffs). split_and!; [| |..|done|done].
  - rewrite <- list_fmap_compose. apply list_fmap_ext. intros j c _. unfold G2. cbn.
    to_gmul. f_equal. ring.
  - unfold len, coeffs. rewrite !length_fmap, length_seq. lia.
  - intros i Hi. exists (eval_share coeffs i). split; [by apply seqZ_lookup_dict|].
    apply eval_share_poly.
Qed.

(** * Decryption by a quorum *)

(** [sh] is the decryption share of [C1] by a keyper of the committee: it
    completed round 2 on the published commitments, with a share from every
    dealer, and [sh] is its id with its partial decryption. *)
Definition committee_share (all_commitments : dict Z (list (pt G2ops))) (q : Z) (C1 : pt G2ops)
    (sh : Z * pt G2ops) : Prop :=
  ∃ st received st' out,
    dkg_keyper_id st = Some sh.1 ∧ dkg_quorum st = Some q ∧
    dict_keys received ≡ₚ dict_keys all_commitments ∧
    round2 st all_commitments received = Ok (st', out) ∧
    partial_decrypt st' C1 = Ok sh.2.

Lemma committee_share_poly ds q c sh : NoDup (dict_keys ds) →
  committee_share (dealt ds) q (gmul c) sh →
  uniform (Z.to_nat q) ds ∧ sh.2 = gmul (c * polyF (joint_poly (Z.to_nat q) ds) (inF sh.1))%F.
Proof.
  intros Hnd (st & received & st' & [cs pks] & Hid & Hq & HP & Hr & Hd).
  rewrite dealt_keys in HP.
  destruct (round2_share st sh.1 q ds received st' cs pks) as (Hu & Hcs & _ & Hcomb & _); [done..|].
  split; [done|]. unfold partial_decrypt in Hd. rewrite Hcomb in Hd. injection Hd as <-.
  rewrite gmul_mul. by rewrite Hcs.
Qed.

Lemma quorum_decrypts_dealt ds q mpk ct m r max shares :
  NoDup (dict_keys ds) → 1 <= q → derive_joint_mpk (dealt ds) q = Ok mpk →
  encrypts mpk ct m r → 0 <= m <= max → max < CURVE_ORDER →
  Forall (committee_share (dealt ds) q ct.1) shares → distinct_ids shares.*1 → q <= len shares →
  threshold_decrypt ct.1 ct.2 shares max = Ok (Some m).
Proof.
  intros Hnd Hq Hmpk Henc Hm Hmax Hsh Hd Hlen. unfold len in Hlen.
  assert (HC : ct.1 = gmul (inF r)).
  { rewrite Henc. cbn [encrypt fst]. unfold G2. to_gmul. f_equal. ring. }
  destruct shares as [|sh0 shares]; [cbn in Hlen; lia|].
  assert (Hu : uniform (Z.to_nat q) ds).
  { apply Forall_cons in Hsh as [Hs0 _]. rewrite HC in Hs0. by apply committee_share_poly in Hs0 as [? _]. }
  rewrite derive_joint_mpk_spec in Hmpk by done. injection Hmpk as <-.
  eapply threshold_decrypt_correct; [done|done|done|done|done|done| |].
  - rewrite length_joint_poly by done. lia.
  - eapply Forall_impl; [exact Hsh|]. intros sh Hs. rewrite HC in Hs.
    by apply committee_share_poly in Hs as [_ ?].
Qed.

End dkg.

(** * Properties *)

(** what an honest dealer hands out is accepted: after round 1 with
    [quorum] coefficients, every recipient [1..n] has a share, and the Feldman
    check against the published commitments accepts it and only it. *)
Theorem honest_dealing_accepted `{CryptoLaws} st kid num q rng st' comms shares i :
  round1 st kid num q rng = (st', (comms, shares)) → 0 <= q → 1 <= i <= num →
  len comms = q ∧ ∃ s, dict_get shares i = Some s ∧
    ∀ s', verify_share comms i s' = true ↔ s' ≡q s.
Proof.
  intros Hr Hq Hi. destruct (round1_spec _ _ _ _ _ _ _ _ Hr Hq) as (cs & -> & Hl & Hs & _ & _).
  split; [unfold len in *; by rewrite length_fmap|].
  destruct (Hs i Hi) as (s & Hg & Hv). exists s. split; [done|].
  intros s'. rewrite verify_share_spec, <- Hv. symmetry. apply eqq_F.
Qed.

Lemma honest_dealing_accepted_witness :
  let c := concrete_crypto in
  let out := round1 init_state 1 3 2 (λ j, Z.of_nat j + 5) in
  len out.2.1 = 2 ∧ ∃ s, dict_get out.2.2 2 = Some s ∧
    ∀ s', verify_share out.2.1 2 s' = true ↔ s' ≡q s.
Proof.
  intros c out. apply (honest_dealing_accepted init_state 1 3 2 (λ j, Z.of_nat j + 5)
    out.1 out.2.1 out.2.2 2); [reflexivity|lia|lia].
Defined.

(** round 2 blames exactly the faulty dealers: it raises with the list, in
    delivery order, of the dealers whose vector is missing, has the wrong
    length or fails the Feldman check, and when there are none it stores the
    sum of the received shares with its public key, leaving the rest of the
    state as it was. *)
Theorem round2_blames_exactly `{Crypto} st my_id all received : dkg_keyper_id st = Some my_id →
  let bad := (filter (λ ds, faulty my_id (dkg_quorum st) all ds = true) received).*1 in
  let cs := zsum (dict_values received) mod CURVE_ORDER in
  round2 st all received =
    if bool_decide (bad = []) then
      Ok (mkKeyperDKGState (dkg_keyper_id st) (dkg_n st) (dkg_quorum st) (dkg_coefficients st)
            (dkg_commitments st) (dkg_shares_for_others st) (Some cs) (Some (mul G2 cs)),
          (cs, mul G2 cs))
    else Err (DealerFault bad).
Proof. apply round2_spec. Qed.

Lemma round2_blames_exactly_witness :
  let c := concrete_crypto in
  let st := (round1 init_state 1 3 2 (λ j, Z.of_nat j + 5)).1 in
  round2 st [(2, [G2; G2; G2])] [(2, 4)] = Err (DealerFault [2]).
Proof.
  intros c st. rewrite (round2_blames_exactly st 1 [(2, [G2; G2; G2])] [(2, 4)] eq_refl).
  set (bad := (filter _ _).*1). assert (bad = [2]) as -> by (vm_compute; reflexivity). reflexivity.
Defined.

(** the published committee key of a keyper is the public form of the
    secret it holds: for commitments in the subgroup, a keyper whose round 2
    succeeds on a share from every dealer gets the public share that anyone
    derives from the commitments. *)
Theorem mpk_share_matches_round2 `{CryptoLaws} all q st my_id received st' cs pks :
  Forall (λ dc, Forall (λ c, in_subgroup c) dc.2) all → NoDup (dict_keys all) → 1 <= q →
  dkg_keyper_id st = Some my_id → dkg_quorum st = Some q →
  dict_keys received ≡ₚ dict_keys all →
  round2 st all received = Ok (st', (cs, pks)) →
  derive_mpk_share my_id all q = Ok pks ∧ pks = mul G2 cs.
Proof.
  intros [ds ->]%dealt_exists Hnd Hq Hid Hqq HP Hr. rewrite dealt_keys in Hnd, HP.
  destruct (round2_share _ _ _ _ _ _ _ _ Hid Hqq Hnd HP Hr) as (Hu & Hcs & -> & _ & _).
  rewrite derive_mpk_share_spec by done. rewrite Hcs. split; [done|].
  unfold G2. to_gmul. f_equal. rewrite Hcs. ring.
Qed.

(** C9: any quorum decrypts, whoever dealt: if the joint key was derived from
    the published commitments and at least [quorum] keypers with distinct ids
    completed round 2 on a share from every dealer, then their partial
    decryptions recover the plaintext of every ciphertext under that key,
    within any bound below the group order.  No assumption is made on how the
    dealers chose their polynomials. *)
Theorem quorum_decrypts `{CryptoLaws} all q mpk ct m r max shares :
  Forall (λ dc, Forall (λ c, in_subgroup c) dc.2) all → NoDup (dict_keys all) → 1 <= q →
  derive_joint_mpk all q = Ok mpk → encrypts mpk ct m r → 0 <= m <= max → max < CURVE_ORDER →
  Forall (committee_share all q ct.1) shares → distinct_ids shares.*1 → q <= len shares →
  threshold_decrypt ct.1 ct.2 shares max = Ok (Some m).
Proof.
  intros [ds ->]%dealt_exists Hnd Hq Hm. rewrite dealt_keys in Hnd.
  by eapply quorum_decrypts_dealt.
Qed.

(** ** A three-keyper ceremony with quorum two *)

Module ceremony.
#[local] Existing Instance concrete_crypto.

Definition dealer (d : Z) := round1 init_state d 3 2 (λ j, d * 100 + Z.of_nat j).
Definition all : dict Z (list (pt G2ops)) := (λ d, (d, (dealer d).2.1)) <$> [1; 2; 3].
Definition received (i : Z) : dict Z Z :=
  (λ d, (d, default 0 (dict_get (dealer d).2.2 i))) <$> [1; 2; 3].
Definition joint : Z := 101 + 201 + 301.
Definition mpk : pt G2ops := mul G2 joint.
Definition done2 (i : Z) := round2 (dealer i).1 all (received i).
Definition share (C1 : pt G2ops) (i : Z) : Z * pt G2ops :=
  (i, match done2 i with Ok (st, _) => try_or (partial_decrypt st C1) Z2 | Err _ => Z2 end).

Lemma all_subgroup : Forall (λ dc, Forall (λ c, in_subgroup c) dc.2) all.
Proof. by repeat constructor. Qed.
Lemma all_nodup : NoDup (dict_keys all).
Proof. apply (bool_decide_unpack _). vm_compute. exact I. Qed.

Lemma share_ok C1 i st out : i ∈ [1; 2; 3] → done2 i = Ok (st, out) →
  committee_share all 2 C1 (share C1 i).
Proof.
  intros Hi Hd. exists (dealer i).1, (received i), st, out. unfold share. rewrite Hd. cbn [fst snd].
  split; [done|]. split; [done|]. split; [done|]. split; [done|].
  unfold done2, round2 in Hd. inv_ok. subst. reflexivity.
Qed.

Lemma done2_ok i : is_ok (done2 i) = true → ∃ st out, done2 i = Ok (st, out).
Proof. destruct (done2 i) as [[st out]|]; [by exists st, out | done]. Qed.
End ceremony.

Lemma mpk_share_matches_round2_witness :
  let c := concrete_crypto in
  ∃ st' cs pks, ceremony.done2 3 = Ok (st', (cs, pks)) ∧
    derive_mpk_share 3 ceremony.all 2 = Ok pks ∧ pks = mul G2 cs.
Proof.
  intros c. destruct (ceremony.done2_ok 3) as (st' & [cs pks] & E); [vm_compute; reflexivity|].
  exists st', cs, pks. split; [exact E|].
  apply (mpk_share_matches_round2 ceremony.all 2 (ceremony.dealer 3).1 3 (ceremony.received 3) st' cs pks
    ceremony.all_subgroup ceremony.all_nodup); [lia|reflexivity|reflexivity|reflexivity|exact E].
Defined.

Lemma quorum_decrypts_witness :
  let c := concrete_crypto in
  let ct := (encrypt ceremony.mpk 12 77).1 in
  derive_joint_mpk ceremony.all 2 = Ok ceremony.mpk ∧
  threshold_decrypt ct.1 ct.2 [ceremony.share ct.1 1; ceremony.share ct.1 3] 40 = Ok (Some 12).
Proof.
  intros c ct.
  assert (Hm : derive_joint_mpk ceremony.all 2 = Ok ceremony.mpk) by (vm_compute; reflexivity).
  split; [exact Hm|].
  apply (quorum_decrypts ceremony.all 2 ceremony.mpk ct 12 77 40
    [ceremony.share ct.1 1; ceremony.share ct.1 3] ceremony.all_subgroup ceremony.all_nodup
    ltac:(lia) Hm eq_refl ltac:(lia) eq_refl).
  - destruct (ceremony.done2_ok 1) as (st1 & o1 & E1); [vm_compute; reflexivity|].
    destruct (ceremony.done2_ok 3) as (st3 & o3 & E3); [vm_compute; reflexivity|].
    repeat apply Forall_cons_2; [| |apply Forall_nil_2].
    + eapply ceremony.share_ok; [left|exact E1].
    + eapply ceremony.share_ok; [right; right; left|exact E3].
  - apply (bool_decide_unpack _). vm_compute. exact I.
  - vm_compute. discriminate.
Defined.
