(* ===== verification/Types.v ===== *)
(** The transport artifacts (envelopes/types.py) and the records of the storage
    port (ports/data_layer.py): pure data, with decidable equality because the
    code compares artifacts by value. *)

From S2P Require Import Prelude Params.

(** * envelopes/types.py *)

Definition BYTES32 : Z := 32.

Inductive ExclusionReason :=
| INVALID_PROOF | INVALID_SIGNATURE | INVALID_ATTESTATION
| DUPLICATE_PSEUDONYM | MALFORMED | OUT_OF_WINDOW.

#[global] Instance ExclusionReason_eq_dec : EqDecision ExclusionReason.
Proof. solve_decision. Defined.

(** The string value of a member of the enum. *)
Definition reason_value (r : ExclusionReason) : string :=
  match r with
  | INVALID_PROOF => "INVALID_PROOF"
  | INVALID_SIGNATURE => "INVALID_SIGNATURE"
  | INVALID_ATTESTATION => "INVALID_ATTESTATION"
  | DUPLICATE_PSEUDONYM => "DUPLICATE_PSEUDONYM"
  | MALFORMED => "MALFORMED"
  | OUT_OF_WINDOW => "OUT_OF_WINDOW"
  end.

Definition all_reasons : list ExclusionReason :=
  [INVALID_PROOF; INVALID_SIGNATURE; INVALID_ATTESTATION; DUPLICATE_PSEUDONYM; MALFORMED;
   OUT_OF_WINDOW].

(** [ExclusionReason(s)]: [ValueError] when no member has that value. *)
Definition reason_of_string (s : string) : result ExclusionReason :=
  match list_find (λ r, reason_value r = s) all_reasons with
  | Some (_, r) => Ok r
  | None => Err ValueError
  end.

Inductive AttestationScheme := V1.
#[global] Instance AttestationScheme_eq_dec : EqDecision AttestationScheme.
Proof. solve_decision. Defined.

(** The wire ciphertext: two compressed G2 points. *)
Record WireCiphertext := mkWireCiphertext { c1 : bytes; c2 : bytes }.
#[global] Instance WireCiphertext_eq_dec : EqDecision WireCiphertext.
Proof. solve_decision. Defined.

Record Attestation := mkAttestation {
  att_election_id : bytes;
  att_pseudonym : bytes;
  att_vk : bytes;
  att_weight : Z;
  att_signature : bytes;
  att_scheme : AttestationScheme;
  att_nonce : Z;
}.
#[global] Instance Attestation_eq_dec : EqDecision Attestation.
Proof. solve_decision. Defined.

Record BallotEnvelope := mkBallotEnvelope {
  env_election_id : bytes;
  env_pseudonym : bytes;
  env_vk : bytes;
  env_ciphertexts : list WireCiphertext;
  env_zk_proof : bytes;
  env_voter_signature : bytes;
  env_attestation : Attestation;
}.
#[global] Instance BallotEnvelope_eq_dec : EqDecision BallotEnvelope.
Proof. solve_decision. Defined.

Record StoredBallot := mkStoredBallot {
  sequence_number : Z;
  envelope : BallotEnvelope;
  submitted_at : option Z;
}.
#[global] Instance StoredBallot_eq_dec : EqDecision StoredBallot.
Proof. solve_decision. Defined.

Record DKGResultSubmission := mkDKGResultSubmission {
  dkg_election_id : bytes;
  dkg_pk_election : bytes;
  dkg_committee_pks : list bytes;
  dkg_keyper_signature : bytes;
}.
#[global] Instance DKGResultSubmission_eq_dec : EqDecision DKGResultSubmission.
Proof. solve_decision. Defined.

Record DecryptionShareEntry := mkDecryptionShareEntry { sigma : bytes; proof : bytes }.
#[global] Instance DecryptionShareEntry_eq_dec : EqDecision DecryptionShareEntry.
Proof. solve_decision. Defined.

Record DecryptionShareEnvelope := mkDecryptionShareEnvelope {
  share_election_id : bytes;
  keyper_index : Z;
  entries : list DecryptionShareEntry;
}.
#[global] Instance DecryptionShareEnvelope_eq_dec : EqDecision DecryptionShareEnvelope.
Proof. solve_decision. Defined.

Record Exclusion := mkExclusion { exc_sequence_number : Z; reason : ExclusionReason }.
#[global] Instance Exclusion_eq_dec : EqDecision Exclusion.
Proof. solve_decision. Defined.

Record AggregateArtifact := mkAggregateArtifact {
  agg_election_id : bytes;
  aggregates : list WireCiphertext;
  agg_admitted : list Z;
  agg_exclusions : list Exclusion;
  agg_total_admitted_weight : Z;
  agg_total_scaled_weight : Z;
}.
#[global] Instance AggregateArtifact_eq_dec : EqDecision AggregateArtifact.
Proof. solve_decision. Defined.

Record ResultArtifact := mkResultArtifact {
  res_election_id : bytes;
  totals : list Z;
  keyper_indices : list Z;
  res_bsgs_bound : Z;
}.
#[global] Instance ResultArtifact_eq_dec : EqDecision ResultArtifact.
Proof. solve_decision. Defined.

(** * ports/data_layer.py *)

Record FinalizedKey := mkFinalizedKey { pk_election : bytes; committee_pks : list bytes }.
#[global] Instance FinalizedKey_eq_dec : EqDecision FinalizedKey.
Proof. solve_decision. Defined.

(** Every member of the enum is found from its value. *)
Lemma reason_of_value r : reason_of_string (reason_value r) = Ok r.
Proof. by destruct r. Qed.
