(* ===== verification/Config.v ===== *)
(** Election configuration with its construction-time validation
    (core/config.py) and the derived lifecycle state (core/state.py). *)

From S2P Require Import Prelude Types.

(** * core/config.py *)

Inductive Mode := EXACT | AT_MOST.
Inductive Variant := VariantA | VariantB.
Inductive DuplicatePolicy := FIRST_WINS | LAST_WINS.

#[global] Instance Mode_eq_dec : EqDecision Mode.
Proof. solve_decision. Defined.
#[global] Instance Variant_eq_dec : EqDecision Variant.
Proof. solve_decision. Defined.
#[global] Instance DuplicatePolicy_eq_dec : EqDecision DuplicatePolicy.
Proof. solve_decision. Defined.

Record Threshold := mkThreshold { thr_t : Z; thr_n : Z }.
#[global] Instance Threshold_eq_dec : EqDecision Threshold.
Proof. solve_decision. Defined.

(** [Threshold.__post_init__] *)
Definition threshold_post_init (th : Threshold) : result unit :=
  _ ← raise_if (thr_n th <? 1) ValueError;
  _ ← raise_if (negb ((1 <=? thr_t th) && (thr_t th <=? thr_n th))) ValueError;
  raise_if (thr_t th * 2 <=? thr_n th) ValueError.

Definition quorum (th : Threshold) : Z := thr_t th.
Definition polynomial_degree (th : Threshold) : Z := thr_t th - 1.

Record KeyperIdentity := mkKeyperIdentity { signing_key : bytes; url : string }.
#[global] Instance KeyperIdentity_eq_dec : EqDecision KeyperIdentity.
Proof. solve_decision. Defined.

Record ElectionConfig := mkElectionConfig {
  election_id : bytes;
  num_candidates : Z;
  budget : Z;
  mode : Mode;
  variant : Variant;
  weighted : bool;
  duplicate_policy : DuplicatePolicy;
  voting_start : Z;
  voting_end : Z;
  threshold : Threshold;
  keypers : list KeyperIdentity;
  eligibility_key : bytes;
  result_publisher_key : bytes;
  gateway_keys : list bytes;
  admin_key : bytes;
  protocol_version : string;
  scale : Z;
  self_submit_fee_wei : Z;
}.
#[global] Instance ElectionConfig_eq_dec : EqDecision ElectionConfig.
Proof. solve_decision. Defined.

Definition MAX_NUM_CANDIDATES : Z := 0xFFFF.
Definition MAX_BUDGET : Z := 0xFFFE.
Definition MAX_PROOF_BRANCHES : Z := 2500.

Definition _check_ballot_bounds (c : ElectionConfig) : result unit :=
  _ ← raise_if (MAX_NUM_CANDIDATES <? num_candidates c) ValueError;
  _ ← raise_if (MAX_BUDGET <? budget c) ValueError;
  let branches := num_candidates c * (budget c + 1) in
  raise_if (MAX_PROOF_BRANCHES <? branches) ValueError.

(** [ElectionConfig.__post_init__]; the threshold was validated when it was
    built. *)
Definition config_post_init (c : ElectionConfig) : result unit :=
  _ ← raise_if (num_candidates c <? 1) ValueError;
  _ ← raise_if (self_submit_fee_wei c <? 0) ValueError;
  _ ← raise_if (budget c <? 1) ValueError;
  _ ← raise_if (scale c <? 1) ValueError;
  _ ← _check_ballot_bounds c;
  _ ← raise_if (voting_end c <=? voting_start c) ValueError;
  _ ← raise_if (negb (len (keypers c) =? thr_n (threshold c))) ValueError;
  let keys := signing_key <$> keypers c in
  raise_if (negb (len (remove_dups keys) =? len keys)) ValueError.

(** A configuration that was constructed: both validations passed. *)
Definition valid_config (c : ElectionConfig) : Prop :=
  threshold_post_init (threshold c) = Ok tt ∧ config_post_init c = Ok tt.
#[global] Instance valid_config_dec c : Decision (valid_config c) := and_dec _ _.

(** * core/state.py *)

Inductive ElectionState :=
| CANCELLED | COMPLETE | DKG_FAILED | REGISTERED | KEY_READY | VOTING | TALLYING | TALLY_STALLED.
#[global] Instance ElectionState_eq_dec : EqDecision ElectionState.
Proof. solve_decision. Defined.

Record StateFacts := mkStateFacts {
  cancelled : bool;
  key_finalized : bool;
  result_published : bool;
  tally_stalled : bool;
}.

Definition derive_state (c : ElectionConfig) (facts : StateFacts) (now : Z) : ElectionState :=
  if cancelled facts then CANCELLED else
  if result_published facts then COMPLETE else
  if (voting_start c <=? now) && negb (key_finalized facts) then DKG_FAILED else
  if negb (key_finalized facts) then REGISTERED else
  if now <? voting_start c then KEY_READY else
  if now <? voting_end c then VOTING else
  if tally_stalled facts then TALLY_STALLED else TALLYING.

Definition is_voting_open (c : ElectionConfig) (now : Z) : bool :=
  (voting_start c <=? now) && (now <? voting_end c).

(** * What validation guarantees *)

Lemma threshold_post_init_Ok th u : threshold_post_init th = Ok u →
  1 <= thr_t th <= thr_n th ∧ thr_n th < 2 * thr_t th.
Proof.
  unfold threshold_post_init. intros H. inv_ok. apply Z.ltb_ge in Hv.
  apply negb_false_iff, andb_prop in Hv0 as [?%Z.leb_le ?%Z.leb_le]. apply Z.leb_gt in H. lia.
Qed.

Lemma remove_dups_length_NoDup `{EqDecision A} (l : list A) :
  length (remove_dups l) = length l → NoDup l.
Proof.
  induction l as [|x l IH]; cbn; [constructor|].
  assert (length (remove_dups l) <= length l)%nat.
  { clear. induction l as [|y l IH]; cbn; [lia|]. case_decide; cbn; lia. }
  case_decide; cbn; intros Hl; [lia|]. constructor; [done|]. apply IH. lia.
Qed.

Lemma config_post_init_Ok c u : config_post_init c = Ok u →
  1 <= num_candidates c <= MAX_NUM_CANDIDATES ∧ 1 <= budget c <= MAX_BUDGET ∧ 1 <= scale c ∧
  num_candidates c * (budget c + 1) <= MAX_PROOF_BRANCHES ∧
  voting_start c < voting_end c ∧ len (keypers c) = thr_n (threshold c) ∧
  NoDup (signing_key <$> keypers c).
Proof.
  unfold config_post_init, _check_ballot_bounds. intros H. inv_ok.
  repeat match goal with
  | Hx : negb _ = false |- _ => apply negb_false_iff in Hx
  | Hx : (_ =? _) = true |- _ => apply Z.eqb_eq in Hx
  | Hx : (_ <? _) = false |- _ => apply Z.ltb_ge in Hx
  | Hx : (_ <=? _) = false |- _ => apply Z.leb_gt in Hx
  end.
  split_and!; try (done || lia). apply remove_dups_length_NoDup. unfold len in *. lia.
Qed.

(** * The lifecycle *)

(** How far a state is along the lifecycle; the terminal states are last. *)
Definition phase (s : ElectionState) : Z :=
  match s with
  | REGISTERED => 0 | KEY_READY => 1 | VOTING => 2 | TALLYING | TALLY_STALLED => 3
  | COMPLETE | CANCELLED | DKG_FAILED => 4
  end.

Definition terminal (s : ElectionState) : bool :=
  match s with CANCELLED | COMPLETE | DKG_FAILED => true | _ => false end.

(** The facts of a data layer evolve from [f] at time [now] to [f'] at
    [now'] within the protocol's rules: nothing is withdrawn, a cancellation is
    recorded only before voting opens and while there is no result, and the
    key is finalized before voting opens. *)
Record facts_step (c : ElectionConfig) (f : StateFacts) (now : Z) (f' : StateFacts) (now' : Z) : Prop := {
  step_time : now <= now';
  step_cancelled : cancelled f = true → cancelled f' = true;
  step_finalized : key_finalized f = true → key_finalized f' = true;
  step_result : result_published f = true → result_published f' = true;
  step_cancel_early : cancelled f = false → cancelled f' = true →
    now < voting_start c ∧ result_published f = false;
  step_key_early : key_finalized f = false → key_finalized f' = true → now < voting_start c;
}.

(** the lifecycle only moves forward: while the data layer's facts evolve
    within the rules, the derived state never goes back to an earlier phase,
    and a terminal state is kept. *)
Theorem lifecycle_monotone c f now f' now' : voting_start c < voting_end c →
  facts_step c f now f' now' →
  phase (derive_state c f now) <= phase (derive_state c f' now') ∧
  (terminal (derive_state c f now) = true → result_published f' = result_published f →
   derive_state c f' now' = derive_state c f now).
Proof.
  intros Hw [Ht Hc Hk Hr Hce Hke]. unfold derive_state.
  destruct f as [ca ke re st], f' as [ca' ke' re' st']; cbn in *.
  destruct ca, ca', re, re'; try (discriminate (Hc eq_refl)); try (discriminate (Hr eq_refl));
    try (destruct (Hce eq_refl eq_refl)); try done; destruct ke, ke'; try (discriminate (Hk eq_refl));
    cbn; rewrite ?andb_true_r, ?andb_false_r;
    try (pose proof (Hke eq_refl eq_refl));
    repeat (match goal with |- context [?a <=? ?b] => destruct (Z.leb_spec a b)
            | |- context [?a <? ?b] => destruct (Z.ltb_spec a b) end);
    try lia; try (destruct st, st'); cbn; (split; [lia | done]).
Qed.

(** a ballot can be accepted exactly in the half-open voting window of an
    election that is not cancelled, has a finalized key and no result: the
    derived state is [VOTING] iff those facts hold. *)
Theorem voting_iff c f now :
  derive_state c f now = VOTING ↔
  cancelled f = false ∧ result_published f = false ∧ key_finalized f = true ∧
  is_voting_open c now = true.
Proof.
  unfold derive_state, is_voting_open. rewrite andb_true_iff, Z.leb_le, Z.ltb_lt.
  destruct f as [ca ke re st]; cbn. destruct ca; [naive_solver|]. destruct re; [naive_solver|].
  destruct ke; cbn; rewrite ?andb_true_r, ?andb_false_r.
  - destruct (Z.ltb_spec now (voting_start c)); [split; [done|lia]|].
    destruct (Z.ltb_spec now (voting_end c)); [naive_solver|].
    destruct st; (split; [done|lia]).
  - destruct (voting_start c <=? now); naive_solver.
Qed.

Module config_example.
Definition cfg : ElectionConfig :=
  mkElectionConfig (replicate 32 Byte.x01) 2 1 EXACT VariantA true LAST_WINS 100 200 (mkThreshold 2 3)
    [mkKeyperIdentity [Byte.x01] ""; mkKeyperIdentity [Byte.x02] ""; mkKeyperIdentity [Byte.x03] ""]
    [] [] [] [] "v1" 1 0.
Lemma cfg_valid : valid_config cfg.
Proof. split; vm_compute; reflexivity. Qed.
End config_example.

Lemma lifecycle_monotone_witness :
  phase (derive_state config_example.cfg (mkStateFacts false true false false) 150) <=
  phase (derive_state config_example.cfg (mkStateFacts false true true false) 250) ∧
  (terminal (derive_state config_example.cfg (mkStateFacts false true false false) 150) = true →
   true = false → COMPLETE = VOTING).
Proof.
  apply (lifecycle_monotone config_example.cfg (mkStateFacts false true false false) 150
    (mkStateFacts false true true false) 250); [vm_compute; reflexivity|].
  split; cbn; try discriminate; auto; lia.
Defined.
