(* ===== verification/Ballot.v ===== *)
(** Ballots (crypto/ballot.py): the binary codec of the validity proof, the
    canonical message the voter signs, the seeding of the proof transcript,
    ballot construction and ballot verification.  All randomness of
    [build_ballot] is an explicit argument. *)

From Stdlib Require Import Zmod.
From S2P Require Import Prelude Params Primality Field Points Transcript Elgamal Schnorr Proofs Types.

(** * Definitions *)

Section ballot.
Context `{Crypto}.

(** ** The validity-proof codec *)

Definition encode_branch (br : ORBranch) : result bytes :=
  b1 ← g2_to_compressed (a1 br);
  b2 ← g2_to_compressed (a2 br);
  eb ← to_bytes_be (br_e br mod CURVE_ORDER) 32;
  zb ← to_bytes_be (br_z br mod CURVE_ORDER) 32;
  Ok (b1 ++ b2 ++ eb ++ zb).

Definition encode_ballot_validity_proof (range_proofs : list (list ORBranch)) (e_b z_b : Z)
  : result bytes :=
  match range_proofs with
  | [] => Err ValueError
  | first :: _ =>
      let n_outer := len range_proofs in
      let branch_count := len first in
      _ ← raise_if (negb (forallb (λ p, len p =? branch_count) range_proofs)) ValueError;
      nb ← to_bytes_be n_outer 2;
      bcb ← to_bytes_be branch_count 2;
      body ← mapM (λ p, bs ← mapM encode_branch p; Ok (concat bs)) range_proofs;
      eb ← to_bytes_be (e_b mod CURVE_ORDER) 32;
      zb ← to_bytes_be (z_b mod CURVE_ORDER) 32;
      Ok ([byte_of BVP_VERSION] ++ [byte_of VARIANT_A_BYTE] ++ nb
          ++ concat (replicate (length range_proofs) bcb)
          ++ concat body ++ [byte_of BUDGET_EXACT_TAG] ++ eb ++ zb)
  end.

(** [buf[o]] on a position that was checked; [IndexError] past the end. *)
Definition byte_at (buf : bytes) (o : nat) : result Z :=
  match buf !! o with Some b => Ok (byte_val b) | None => Err IndexError end.

(** The loop over the branch counts; returns the new offset. *)
Fixpoint decode_branch_counts (buf : bytes) (expected : Z) (k : nat) (o : nat) : result nat :=
  match k with
  | O => Ok o
  | S k =>
      let bc := from_bytes_be (slice o (o + 2) buf) in
      _ ← raise_if (negb (bc =? expected)) ValueError;
      decode_branch_counts buf expected k (o + 2)
  end.

Definition decode_branch (buf : bytes) (o : nat) : result (ORBranch * nat) :=
  A1 ← g2_from_compressed (slice o (o + 96) buf);
  A2 ← g2_from_compressed (slice (o + 96) (o + 192) buf);
  e ← scalar_from_bytes (slice (o + 192) (o + 224) buf);
  z ← scalar_from_bytes (slice (o + 224) (o + 256) buf);
  Ok (mkORBranch A1 A2 e z, (o + 256)%nat).

(** [k] items in a row. *)
Fixpoint decode_many {A} (item : nat → result (A * nat)) (k : nat) (o : nat) : result (list A * nat) :=
  match k with
  | O => Ok ([], o)
  | S k =>
      '(x, o1) ← item o;
      '(xs, o2) ← decode_many item k o1;
      Ok (x :: xs, o2)
  end.

(** The budget tag and scalars at [o], which must end the buffer. *)
Definition decode_budget (buf : bytes) (o : nat) : result (Z * Z) :=
  _ ← raise_if (len buf <=? Z.of_nat o) ValueError;
  tag ← byte_at buf o;
  _ ← raise_if (negb (tag =? BUDGET_EXACT_TAG)) ValueError;
  e_b ← scalar_from_bytes (slice (o + 1) (o + 33) buf);
  z_b ← scalar_from_bytes (slice (o + 33) (o + 65) buf);
  _ ← raise_if (negb (Z.of_nat (o + 65) =? len buf)) ValueError;
  Ok (e_b, z_b).

Definition decode_ballot_validity_proof (buf : bytes) (num_candidates budget : Z)
  : result (list (list ORBranch) * Z * Z) :=
  _ ← raise_if (len buf <? 4) ValueError;
  v ← byte_at buf 0;
  _ ← raise_if (negb (v =? BVP_VERSION)) ValueError;
  va ← byte_at buf 1;
  _ ← raise_if (negb (va =? VARIANT_A_BYTE)) ValueError;
  let n_outer := from_bytes_be (slice 2 4 buf) in
  _ ← raise_if (negb (n_outer =? num_candidates)) ValueError;
  let branch_count := budget + 1 in
  o ← decode_branch_counts buf branch_count (Z.to_nat n_outer) 4;
  '(range_proofs, o) ← decode_many (decode_many (decode_branch buf) (Z.to_nat branch_count))
                          (Z.to_nat n_outer) o;
  '(e_b, z_b) ← decode_budget buf o;
  Ok (range_proofs, e_b, z_b).

(** ** The signed message *)

Definition ct_size_ok (ct : bytes * bytes) : bool := (len ct.1 =? 96) && (len ct.2 =? 96).

Definition canonical_ballot_message (election_id pseudonym : bytes) (ciphertexts : list (bytes * bytes))
    (zk_proof : bytes) (attestation : Attestation) : result bytes :=
  _ ← raise_if (negb (len election_id =? 32)) ValueError;
  _ ← raise_if (negb (len pseudonym =? 32)) ValueError;
  _ ← raise_if (negb (forallb ct_size_ok ciphertexts)) ValueError;
  _ ← raise_if (negb (len (att_pseudonym attestation) =? 32)) ValueError;
  _ ← raise_if (negb (len (att_vk attestation) =? 48)) ValueError;
  _ ← raise_if ((att_weight attestation <? 0) || (att_nonce attestation <? 0)) ValueError;
  nct ← to_bytes_be (len ciphertexts) 2;
  nzk ← to_bytes_be (len zk_proof) 4;
  w ← to_bytes_be (att_weight attestation) 32;
  nn ← to_bytes_be (att_nonce attestation) 32;
  let sig := att_signature attestation in
  _ ← raise_if (0xFFFF <? len sig) ValueError;
  nsig ← to_bytes_be (len sig) 2;
  Ok (encode_utf8 BALLOT_MESSAGE_LABEL ++ election_id ++ pseudonym ++ nct
      ++ concat ((λ ct, ct.1 ++ ct.2) <$> ciphertexts) ++ nzk ++ zk_proof
      ++ att_pseudonym attestation ++ att_vk attestation ++ w ++ nn ++ nsig ++ sig).

Definition _pre_v1_ballot_message (election_id pseudonym : bytes) (ciphertexts : list (bytes * bytes))
    (zk_proof : bytes) : result bytes :=
  nct ← to_bytes_be (len ciphertexts) 2;
  nzk ← to_bytes_be (len zk_proof) 4;
  Ok (encode_utf8 "SHUTTER-VOTE-BALLOT-v1" ++ election_id ++ pseudonym ++ nct
      ++ concat ((λ ct, ct.1 ++ ct.2) <$> ciphertexts) ++ nzk ++ zk_proof).

(** ** The proof transcript *)

Definition seed_ballot_transcript (election_id : bytes) (mpk : pt G2ops) (vk : pt G1ops)
    (cts : list Ciphertext) (num_candidates budget : Z) : result Transcript :=
  '(_, t) ← (_ ← t_append "electionId" election_id;
             _ ← append_point "mpk" mpk;
             vkb ← lift (g1_to_compressed vk);
             _ ← t_append "vk" vkb;
             _ ← t_append "variant" [Byte.x41];
             _ ← t_append "mode" [Byte.x00];
             nc ← lift (to_bytes_be num_candidates 2);
             _ ← t_append "numCandidates" nc;
             bb ← lift (to_bytes_be budget 2);
             _ ← t_append "budget" bb;
             nct ← lift (to_bytes_be (len cts) 2);
             _ ← t_append "|cts|" nct;
             for_each (imap pair cts) (λ '(i, ct),
               _ ← append_point (indexed "ct.c1" i) ct.1;
               append_point (indexed "ct.c2" i) ct.2))
            (new_transcript BALLOT_PROOF_TRANSCRIPT_LABEL);
  Ok t.

(** ** Building a ballot *)

Record BuiltBallot := mkBuiltBallot {
  bb_election_id : bytes;
  bb_pseudonym : bytes;
  bb_vk : bytes;
  bb_ciphertexts : list (bytes * bytes);
  bb_zk_proof : bytes;
  bb_voter_signature : bytes;
  bb_canonical_preimage : bytes;
}.

(** The randomness of one candidate: of the encryption, of the real OR branch
    and of the simulated ones. *)
Record VoteCoins := mkVoteCoins { coin_r : Z; coin_w : Z; coin_sims : list (Z * Z) }.

(** The range proofs, one per candidate from index [j] on. *)
Fixpoint prove_ranges (mpk : pt G2ops) (candidates : list Z) (j : nat)
    (votes : list (Ciphertext * Z * VoteCoins)) : TM (list (list ORBranch)) :=
  match votes with
  | [] => mret []
  | (ct, v, coins) :: votes =>
      jb ← lift (to_bytes_be (Z.of_nat j) 2);
      _ ← t_append "ballot:range" jb;
      p ← prove_or ct.1 ct.2 mpk candidates (coin_r coins mod CURVE_ORDER) v (coin_w coins)
            (coin_sims coins);
      ps ← prove_ranges mpk candidates (S j) votes;
      mret (p :: ps)
  end.

Definition build_ballot (mpk : pt G2ops) (election_id pseudonym : bytes) (sk : Z) (vk : pt G1ops)
    (attestation : Attestation) (votes : list Z) (num_candidates budget : Z)
    (coins : list VoteCoins) (budget_w schnorr_k : Z) : result BuiltBallot :=
  _ ← raise_if (negb (len votes =? num_candidates)) ValueError;
  _ ← raise_if (existsb (λ v, (v <? 0) || (budget <? v)) votes) ValueError;
  _ ← raise_if (negb (zsum votes =? budget)) ValueError;
  '(_, vk') ← schnorr.keygen sk;
  _ ← raise_if (negb (point_eq vk' vk)) ValueError;
  let cts : list Ciphertext := zip_with (λ v co, (encrypt mpk v (coin_r co mod CURVE_ORDER)).1) votes coins in
  let rs := (λ co, coin_r co mod CURVE_ORDER) <$> coins in
  t ← seed_ballot_transcript election_id mpk vk cts num_candidates budget;
  '(range_proofs, t) ← prove_ranges mpk (range_list budget) 0
      (zip (zip cts votes : list (Ciphertext * Z)) coins : list (Ciphertext * Z * VoteCoins)) t;
  let '(c1_sum, c2_sum) := sum_cts cts in
  let r_sum := zsum rs mod CURVE_ORDER in
  '(_, t) ← t_append "ballot:budget" [Byte.x00] t;
  '(e_b, z_b, _) ← prove_budget_exact c1_sum c2_sum mpk budget r_sum budget_w t;
  zk_proof ← encode_ballot_validity_proof range_proofs e_b z_b;
  ct_bytes ← mapM (λ ct, b1 ← g2_to_compressed ct.1; b2 ← g2_to_compressed ct.2; Ok (b1, b2)) cts;
  preimage ← canonical_ballot_message election_id pseudonym ct_bytes zk_proof attestation;
  '(R, s) ← schnorr.sign sk vk (keccak preimage) schnorr_k;
  vkb ← g1_to_compressed vk;
  sig ← schnorr.encode R s;
  Ok (mkBuiltBallot election_id pseudonym vkb ct_bytes zk_proof sig preimage).

(** ** Verifying a ballot *)

Fixpoint verify_ranges (mpk : pt G2ops) (candidates : list Z) (j : nat)
    (l : list (Ciphertext * list ORBranch)) : TM bool :=
  match l with
  | [] => mret true
  | (ct, p) :: l =>
      jb ← lift (to_bytes_be (Z.of_nat j) 2);
      _ ← t_append "ballot:range" jb;
      ok ← verify_or ct.1 ct.2 mpk candidates p;
      if (ok : bool) then verify_ranges mpk candidates (S j) l else mret false
  end.

(** Decodes the wire ciphertexts. *)
Definition decode_cts (cts : list (bytes * bytes)) : result (list Ciphertext) :=
  mapM (λ ct, A ← g2_from_compressed ct.1; B ← g2_from_compressed ct.2; Ok (A, B)) cts.

Definition verify_ballot_crypto (mpk : pt G2ops) (election_id pseudonym vk_bytes : bytes)
    (ciphertext_bytes : list (bytes * bytes)) (zk_proof voter_signature : bytes)
    (attestation : Attestation) (num_candidates budget : Z) : result (bool * option string) :=
  if negb ((1 <=? num_candidates) && (num_candidates <=? 0xFFFF)) then Ok (false, Some "MALFORMED") else
  if negb ((1 <=? budget) && (budget <=? 0xFFFE)) then Ok (false, Some "MALFORMED") else
  if negb (len election_id =? 32) || negb (len pseudonym =? 32) then Ok (false, Some "MALFORMED") else
  if point_eq mpk Z2 then Ok (false, Some "MALFORMED") else
  match g1_from_compressed vk_bytes with
  | Err _ => Ok (false, Some "MALFORMED")
  | Ok vk =>
  if point_eq vk Z1 then Ok (false, Some "MALFORMED") else
  if negb (len ciphertext_bytes =? num_candidates) then Ok (false, Some "MALFORMED") else
  match decode_cts ciphertext_bytes with
  | Err _ => Ok (false, Some "MALFORMED")
  | Ok cts =>
  match decode_ballot_validity_proof zk_proof num_candidates budget with
  | Err _ => Ok (false, Some "MALFORMED")
  | Ok (range_proofs, e_b, z_b) =>
  t ← seed_ballot_transcript election_id mpk vk cts num_candidates budget;
  '(ok, t) ← verify_ranges mpk (range_list budget) 0 (zip cts range_proofs) t;
  if negb ok then Ok (false, Some "INVALID_PROOF") else
  let '(c1_sum, c2_sum) := sum_cts cts in
  '(_, t) ← t_append "ballot:budget" [Byte.x00] t;
  '(ok, _) ← verify_budget_exact c1_sum c2_sum mpk budget e_b z_b t;
  if negb ok then Ok (false, Some "INVALID_PROOF") else
  match schnorr.decode voter_signature with
  | Err _ => Ok (false, Some "MALFORMED")
  | Ok (R, s) =>
  preimage ← canonical_ballot_message election_id pseudonym ciphertext_bytes zk_proof attestation;
  ok ← schnorr.verify vk (keccak preimage) R s;
  if (ok : bool) then Ok (true, None) else
  old ← _pre_v1_ballot_message election_id pseudonym ciphertext_bytes zk_proof;
  ok ← schnorr.verify vk (keccak old) R s;
  if (ok : bool) then Ok (false, Some "INVALID_SIGNATURE_PRE_V2") else
  Ok (false, Some "INVALID_SIGNATURE")
  end end end end.

(** * The codec: round trip *)

Context `{!CryptoLaws}.

(** The 256 bytes of a branch. *)
Definition branch_bytes (br : ORBranch) : bytes :=
  pt_to_compressed G2ops (a1 br) ++ pt_to_compressed G2ops (a2 br)
  ++ be_bytes 32 (br_e br mod CURVE_ORDER) ++ be_bytes 32 (br_z br mod CURVE_ORDER).

(** A branch as it comes off the wire. *)
Definition wire_branch (br : ORBranch) : Prop :=
  in_subgroup (a1 br) ∧ in_subgroup (a2 br) ∧
  0 <= br_e br < CURVE_ORDER ∧ 0 <= br_z br < CURVE_ORDER.

Lemma g2_compressed_length P : length (pt_to_compressed G2ops P) = 96%nat.
Proof. pose proof (compressed_size P) as Hs. unfold len, G2_BYTES in Hs. lia. Qed.

Lemma length_branch_bytes br : length (branch_bytes br) = 256%nat.
Proof. unfold branch_bytes. by rewrite !length_app, !g2_compressed_length, !length_be_bytes. Qed.

Lemma encode_branch_Ok br : encode_branch br = Ok (branch_bytes br).
Proof.
  unfold encode_branch, g2_to_compressed. rewrite !to_compressed_Ok. cbn [mbind result_bind].
  rewrite !(scalar_to_bytes_Ok _ : to_bytes_be (_ mod CURVE_ORDER) 32 = _). done.
Qed.

(** Cutting four consecutive fields out of a buffer. *)
Lemma slice4 (pre a b c d post : bytes) (o o1 o2 o3 o4 : nat) :
  o = length pre → o1 = (o + length a)%nat → o2 = (o1 + length b)%nat →
  o3 = (o2 + length c)%nat → o4 = (o3 + length d)%nat →
  let buf := pre ++ (a ++ b ++ c ++ d) ++ post in
  slice o o1 buf = a ∧ slice o1 o2 buf = b ∧ slice o2 o3 buf = c ∧ slice o3 o4 buf = d.
Proof.
  intros -> -> -> -> -> buf. unfold buf. rewrite <- !app_assoc. split_and!.
  - by apply slice_app_exact.
  - rewrite (app_assoc pre). apply slice_app_exact; rewrite ?length_app; lia.
  - rewrite (app_assoc pre), (app_assoc _ b). apply slice_app_exact; rewrite ?length_app; lia.
  - rewrite (app_assoc pre), (app_assoc _ b), (app_assoc _ c). apply slice_app_exact; rewrite ?length_app; lia.
Qed.

Lemma decode_branch_bytes pre post br : wire_branch br →
  decode_branch (pre ++ branch_bytes br ++ post) (length pre)
  = Ok (br, (length pre + 256)%nat).
Proof.
  intros (H1 & H2 & He & Hz). unfold decode_branch, branch_bytes.
  destruct (slice4 pre (pt_to_compressed G2ops (a1 br)) (pt_to_compressed G2ops (a2 br))
    (be_bytes 32 (br_e br mod CURVE_ORDER)) (be_bytes 32 (br_z br mod CURVE_ORDER)) post
    (length pre) (length pre + 96) (length pre + 192) (length pre + 224) (length pre + 256))
    as (-> & -> & -> & ->); [done|rewrite ?g2_compressed_length, ?length_be_bytes; lia..|].
  unfold g2_from_compressed. rewrite !from_to_compressed by done. rewrite !bind_Ok.
  rewrite (scalar_roundtrip _ _ (scalar_to_bytes_Ok (br_e br))), bind_Ok.
  rewrite (scalar_roundtrip _ _ (scalar_to_bytes_Ok (br_z br))), bind_Ok.
  rewrite !Z.mod_small by done. by destruct br.
Qed.

Lemma decode_many_concat {A} (item : bytes → nat → result (A * nat)) (enc : A → bytes) xs pre post :
  (∀ x pre post, x ∈ xs →
    item (pre ++ enc x ++ post) (length pre) = Ok (x, (length pre + length (enc x))%nat)) →
  decode_many (item (pre ++ concat (enc <$> xs) ++ post)) (length xs) (length pre)
  = Ok (xs, (length pre + length (concat (enc <$> xs)))%nat).
Proof.
  revert pre. induction xs as [|x xs IH]; intros pre Hi; cbn [decode_many length fmap list_fmap concat].
  - by rewrite Nat.add_0_r.
  - rewrite <- app_assoc, Hi by left. cbn [mbind result_bind].
    rewrite (app_assoc pre), <- length_app, IH by (intros; apply Hi; by right).
    cbn [mbind result_bind]. rewrite !length_app. do 2 f_equal. lia.
Qed.

Lemma decode_branch_counts_ok pre post bc k :
  0 <= bc < 2 ^ 16 →
  decode_branch_counts (pre ++ concat (replicate k (be_bytes 2 bc)) ++ post) bc k (length pre)
  = Ok (length pre + 2 * k)%nat.
Proof.
  intros Hbc. revert pre. induction k as [|k IH]; intros pre; cbn [decode_branch_counts replicate concat].
  - f_equal. lia.
  - rewrite <- app_assoc, slice_app_exact by (rewrite ?length_be_bytes; lia).
    rewrite from_be_bytes, Z.mod_small, Z.eqb_refl by done. cbn [negb raise_if mbind result_bind].
    rewrite (app_assoc pre). replace (length pre + 2)%nat with (length (pre ++ be_bytes 2 bc))
      by (rewrite length_app, length_be_bytes; lia).
    rewrite IH, length_app, length_be_bytes. f_equal. lia.
Qed.

Definition proof_bytes (p : list ORBranch) : bytes := concat (branch_bytes <$> p).

(** The whole encoding, for a well-shaped proof. *)
Definition bvp_bytes (range_proofs : list (list ORBranch)) (branch_count e_b z_b : Z) : bytes :=
  [byte_of BVP_VERSION] ++ [byte_of VARIANT_A_BYTE] ++ be_bytes 2 (len range_proofs)
  ++ concat (replicate (length range_proofs) (be_bytes 2 branch_count))
  ++ concat (proof_bytes <$> range_proofs) ++ [byte_of BUDGET_EXACT_TAG]
  ++ be_bytes 32 (e_b mod CURVE_ORDER) ++ be_bytes 32 (z_b mod CURVE_ORDER).

Lemma encode_bvp_Ok range_proofs bc e_b z_b :
  range_proofs ≠ [] → Forall (λ p, len p = bc) range_proofs →
  len range_proofs < 2 ^ 16 → 0 <= bc < 2 ^ 16 →
  encode_ballot_validity_proof range_proofs e_b z_b = Ok (bvp_bytes range_proofs bc e_b z_b).
Proof.
  intros Hne Hbc Hn Hb. destruct range_proofs as [|first rest]; [done|].
  assert (Hf : len first = bc) by (by apply Forall_cons in Hbc as [? _]).
  unfold encode_ballot_validity_proof. rewrite Hf.
  assert (forallb (λ p : list ORBranch, len p =? bc) (first :: rest) = true) as ->.
  { apply forallb_forall. intros p Hp%list_elem_of_In. apply Z.eqb_eq.
    by apply (proj1 (Forall_forall _ _) Hbc). }
  cbn [negb raise_if mbind result_bind].
  pose proof (len_nonneg (first :: rest)).
  rewrite (to_bytes_be_small (len (first :: rest))), (to_bytes_be_small bc) by ((split; [lia|done]) || done).
  cbn [mbind result_bind].
  rewrite (mapM_fmap_Ok _ proof_bytes).
  2: { intros p _. rewrite (mapM_fmap_Ok _ branch_bytes) by (intros; apply encode_branch_Ok). done. }
  cbn [mbind result_bind].
  rewrite !(scalar_to_bytes_Ok _ : to_bytes_be (_ mod CURVE_ORDER) 32 = _). done.
Qed.

Lemma length_proof_bytes p : length (proof_bytes p) = (256 * length p)%nat.
Proof.
  unfold proof_bytes. induction p as [|b p IH]; [done|].
  rewrite fmap_cons. cbn [concat length]. rewrite length_app, length_branch_bytes, IH. lia.
Qed.

Lemma byte_at_app (pre post : bytes) b : byte_at (pre ++ b :: post) (length pre) = Ok (byte_val b).
Proof. unfold byte_at. by rewrite list_lookup_middle. Qed.

(** The two-level loop over the range proofs. *)
Lemma decode_range_proofs pre post range_proofs bc :
  Forall (Forall wire_branch) range_proofs → Forall (λ p, length p = bc) range_proofs →
  decode_many (decode_many (decode_branch (pre ++ concat (proof_bytes <$> range_proofs) ++ post)) bc)
    (length range_proofs) (length pre)
  = Ok (range_proofs, (length pre + length (concat (proof_bytes <$> range_proofs)))%nat).
Proof.
  intros Hw Hbc.
  apply (decode_many_concat (λ buf, decode_many (decode_branch buf) bc) proof_bytes).
  intros p pre' post' Hp. rewrite Forall_forall in Hw, Hbc. rewrite <- (Hbc p Hp).
  apply (decode_many_concat decode_branch branch_bytes).
  intros br pre2 post2 Hbr. rewrite length_branch_bytes. apply decode_branch_bytes.
  specialize (Hw p Hp). rewrite Forall_forall in Hw. by apply Hw.
Qed.

Lemma decode_budget_bytes front e_b z_b :
  decode_budget (front ++ [byte_of BUDGET_EXACT_TAG]
    ++ be_bytes 32 (e_b mod CURVE_ORDER) ++ be_bytes 32 (z_b mod CURVE_ORDER)) (length front)
  = Ok (e_b mod CURVE_ORDER, z_b mod CURVE_ORDER).
Proof.
  set (eb := be_bytes 32 (e_b mod CURVE_ORDER)). set (zb := be_bytes 32 (z_b mod CURVE_ORDER)).
  assert (Hle : length eb = 32%nat) by apply length_be_bytes.
  assert (Hlz : length zb = 32%nat) by apply length_be_bytes.
  unfold decode_budget.
  rewrite (proj2 (Z.leb_gt _ _)) by (unfold len; rewrite !length_app; cbn [length]; lia).
  cbn [raise_if]. rewrite bind_Ok.
  change (front ++ [byte_of BUDGET_EXACT_TAG] ++ eb ++ zb) with (front ++ byte_of BUDGET_EXACT_TAG :: (eb ++ zb)).
  rewrite byte_at_app, bind_Ok.
  change (front ++ byte_of BUDGET_EXACT_TAG :: (eb ++ zb)) with (front ++ [byte_of BUDGET_EXACT_TAG] ++ eb ++ zb).
  change (byte_val (byte_of BUDGET_EXACT_TAG) =? BUDGET_EXACT_TAG) with true.
  cbn [negb raise_if]. rewrite bind_Ok.
  rewrite (app_assoc front), (slice_app_exact (front ++ [byte_of BUDGET_EXACT_TAG]) eb zb (length front + 1)) by (rewrite ?length_app; cbn [length]; lia).
  rewrite (scalar_roundtrip _ _ (scalar_to_bytes_Ok e_b) : scalar_from_bytes eb = _), bind_Ok.
  rewrite (app_assoc (front ++ [byte_of BUDGET_EXACT_TAG])).
  assert (slice (length front + 33) (length front + 65) ((((front ++ [byte_of BUDGET_EXACT_TAG]) ++ eb)) ++ zb) = zb) as ->.
  { rewrite <- (app_nil_r zb) at 1. apply slice_app_exact; rewrite ?length_app; cbn [length]; lia. }
  rewrite (scalar_roundtrip _ _ (scalar_to_bytes_Ok z_b) : scalar_from_bytes zb = _), bind_Ok.
  rewrite (proj2 (Z.eqb_eq _ _)) by (unfold len; rewrite !length_app; cbn [length]; lia).
  cbn [negb raise_if]. by rewrite bind_Ok.
Qed.

Lemma decode_bvp_bytes range_proofs e_b z_b nc budget :
  len range_proofs = nc → nc < 2 ^ 16 → 0 <= budget → budget + 1 < 2 ^ 16 →
  Forall (Forall wire_branch) range_proofs → Forall (λ p, len p = budget + 1) range_proofs →
  decode_ballot_validity_proof (bvp_bytes range_proofs (budget + 1) e_b z_b) nc budget
  = Ok (range_proofs, e_b mod CURVE_ORDER, z_b mod CURVE_ORDER).
Proof.
  intros Hnc Hn Hb0 Hb Hw Hbc. pose proof (len_nonneg range_proofs) as Hn0.
  set (counts := concat (replicate (length range_proofs) (be_bytes 2 (budget + 1)))).
  set (body := concat (proof_bytes <$> range_proofs)).
  set (eb := be_bytes 32 (e_b mod CURVE_ORDER)). set (zb := be_bytes 32 (z_b mod CURVE_ORDER)).
  set (hdr := [byte_of BVP_VERSION] ++ [byte_of VARIANT_A_BYTE] ++ be_bytes 2 (len range_proofs)).
  assert (Hlc : length counts = (2 * length range_proofs)%nat).
  { unfold counts. generalize (length range_proofs). intros k.
    induction k as [|k IH]; [done|]. cbn [replicate concat]. rewrite length_app, length_be_bytes, IH. lia. }
  assert (Hbuf : bvp_bytes range_proofs (budget + 1) e_b z_b
    = hdr ++ counts ++ body ++ [byte_of BUDGET_EXACT_TAG] ++ eb ++ zb).
  { unfold bvp_bytes, hdr. by rewrite <- !app_assoc. }
  assert (Hh : length hdr = 4%nat) by (unfold hdr; by rewrite !length_app, length_be_bytes).
  assert (Hle : length eb = 32%nat) by apply length_be_bytes.
  assert (Hlz : length zb = 32%nat) by apply length_be_bytes.
  unfold decode_ballot_validity_proof. rewrite Hbuf.
  rewrite (proj2 (Z.ltb_ge _ _)) by (unfold len; rewrite !length_app; lia).
  cbn [raise_if]. rewrite bind_Ok.
  change (byte_at (hdr ++ ?x) 0) with (Ok (byte_val (byte_of BVP_VERSION))).
  change (byte_at (hdr ++ ?x) 1) with (Ok (byte_val (byte_of VARIANT_A_BYTE))).
  rewrite !bind_Ok. change (byte_val (byte_of BVP_VERSION) =? BVP_VERSION) with true.
  cbn [negb raise_if]. rewrite !bind_Ok.
  change (byte_val (byte_of VARIANT_A_BYTE) =? VARIANT_A_BYTE) with true.
  cbn [negb raise_if]. rewrite !bind_Ok.
  assert (Hs : slice 2 4 (hdr ++ counts ++ body ++ [byte_of BUDGET_EXACT_TAG] ++ eb ++ zb)
    = be_bytes 2 (len range_proofs)).
  { unfold hdr. rewrite <- !app_assoc.
    apply (slice_app_exact [byte_of BVP_VERSION; byte_of VARIANT_A_BYTE]); [done|].
    by rewrite length_be_bytes. }
  rewrite Hs, from_be_bytes, Z.mod_small by (split; [done|lia]). rewrite Hnc, Z.eqb_refl.
  cbn [negb raise_if]. rewrite bind_Ok.
  replace (Z.to_nat nc) with (length range_proofs) by (unfold len in Hnc; lia).
  pose proof (decode_branch_counts_ok hdr (body ++ [byte_of BUDGET_EXACT_TAG] ++ eb ++ zb)
    (budget + 1) (length range_proofs) ltac:(lia)) as Hcs. fold counts in Hcs.
  rewrite Hh in Hcs. rewrite Hcs, bind_Ok. clear Hcs.
  replace (4 + 2 * length range_proofs)%nat with (length (hdr ++ counts))
    by (rewrite length_app; lia).
  rewrite (app_assoc hdr counts).
  assert (Hbn : Forall (λ p : list ORBranch, length p = Z.to_nat (budget + 1)) range_proofs).
  { eapply Forall_impl; [exact Hbc|]. intros p Hp. unfold len in Hp. lia. }
  pose proof (decode_range_proofs (hdr ++ counts) ([byte_of BUDGET_EXACT_TAG] ++ eb ++ zb)
    range_proofs _ Hw Hbn) as Hrp. fold body in Hrp. rewrite Hrp, bind_Ok. clear Hrp.
  rewrite <- length_app. rewrite (app_assoc (hdr ++ counts) body).
  unfold eb, zb. rewrite decode_budget_bytes. by rewrite bind_Ok.
Qed.

(** * The codec: canonicity *)

Lemma take_slice {A} (l : list A) o k : take (o + k) l = take o l ++ slice o (o + k) l.
Proof.
  unfold slice. replace (o + k - o)%nat with k by lia.
  rewrite <- (take_drop o l) at 1. destruct (decide (o <= length l)%nat).
  - rewrite take_app_ge by (rewrite length_take; lia). f_equal. f_equal. rewrite length_take. lia.
  - rewrite (drop_ge l) by lia. by rewrite app_nil_r, firstn_nil, app_nil_r, take_take, take_ge, take_ge by lia.
Qed.

Lemma scalar_wire b v : scalar_from_bytes b = Ok v →
  0 <= v < CURVE_ORDER ∧ b = be_bytes 32 (v mod CURVE_ORDER).
Proof.
  intros Hv. split; [by eapply scalar_from_bytes_range|].
  apply scalar_canonical in Hv. rewrite scalar_to_bytes_Ok in Hv. by apply Ok_inj in Hv.
Qed.

Lemma length_concat_uniform {A} (l : list (list A)) k : Forall (λ x, length x = k) l →
  length (concat l) = (k * length l)%nat.
Proof. induction 1 as [|x l Hx _ IH]; cbn [concat length]; [lia|]. rewrite length_app, IH, Hx. lia. Qed.

(** The offsets where branches may stand behind a header of [base] bytes. *)
Definition branch_offset (base o : nat) : Prop := ∃ i, (o = base + 256 * i)%nat.

(** Every point that a branch holds is the encoding its decoder gives back. *)
Definition canonical_points (base : nat) (buf : bytes) : Prop :=
  ∀ o b P, branch_offset base o → b = slice o (o + 96) buf ∨ b = slice (o + 96) (o + 192) buf →
    g2_from_compressed b = Ok P → g2_to_compressed P = Ok b.

Lemma canonical_point base buf o b P : canonical_points base buf → branch_offset base o →
  b = slice o (o + 96) buf ∨ b = slice (o + 96) (o + 192) buf → g2_from_compressed b = Ok P →
  b = pt_to_compressed G2ops P.
Proof.
  intros Hc Ho Hb HP. specialize (Hc o b P Ho Hb HP). unfold g2_to_compressed in Hc.
  rewrite to_compressed_Ok in Hc. by apply Ok_inj in Hc.
Qed.

Lemma decode_branch_canonical base buf o br o' :
  branch_offset base o → decode_branch buf o = Ok (br, o') →
  o' = (o + 256)%nat ∧ wire_branch br
  ∧ (canonical_points base buf → take o' buf = take o buf ++ branch_bytes br).
Proof.
  intros Ho Hd. unfold decode_branch in Hd. inv_ok. subst br o'.
  apply scalar_wire in Hv1 as [He E3], Hv2 as [Hz E4]. pose proof Hv as H1. pose proof Hv0 as H2.
  apply from_compressed_Ok in H1 as [H1 _], H2 as [H2 _].
  split_and!; [done|done|]. intros Hc. unfold branch_bytes. cbn [a1 a2 br_e br_z].
  apply (canonical_point base buf o) in Hv as <-; [|done|done|by left].
  apply (canonical_point base buf o) in Hv0 as <-; [|done|done|right; f_equal; lia].
  rewrite <- E3, <- E4, !app_assoc. rewrite <- take_slice.
  replace (o + 192)%nat with (o + 96 + 96)%nat by lia. rewrite <- take_slice.
  replace (o + 224)%nat with (o + 96 + 96 + 32)%nat by lia. rewrite <- take_slice.
  replace (o + 256)%nat with (o + 96 + 96 + 32 + 32)%nat by lia. by rewrite <- take_slice.
Qed.

Lemma decode_many_canonical {A} (item : nat → result (A * nat)) (enc : A → bytes) (P : A → Prop)
    (at_item : nat → Prop) (canonical : Prop) (buf : bytes) k o xs o' :
  (∀ x o o', at_item o → item o = Ok (x, o') →
     o' = (o + length (enc x))%nat ∧ at_item o' ∧ P x ∧ (canonical → take o' buf = take o buf ++ enc x)) →
  at_item o → decode_many item k o = Ok (xs, o') →
  o' = (o + length (concat (enc <$> xs)))%nat ∧ at_item o' ∧ length xs = k ∧ Forall P xs ∧
  (canonical → take o' buf = take o buf ++ concat (enc <$> xs)).
Proof.
  intros Hi. revert o xs o'. induction k as [|k IH]; intros o xs o' Ho Hd; cbn [decode_many] in Hd.
  - injection Hd as <- <-. rewrite fmap_nil. cbn [concat]. rewrite app_nil_r. split_and!; [cbn; lia|done..].
  - apply bind_Ok_inv in Hd as ([x o1] & Hx & Hd). apply (Hi _ _ _ Ho) in Hx as (-> & Ho1 & Hx & E1).
    apply bind_Ok_inv in Hd as ([xs' o2] & Hxs & Hd). apply (IH _ _ _ Ho1) in Hxs as (-> & Ho2 & Hl & HP & E2).
    injection Hd as <- <-. rewrite fmap_cons. cbn [concat length]. rewrite length_app.
    split_and!; [lia|done|lia|by constructor|]. intros Hc. rewrite (E2 Hc), (E1 Hc). by rewrite app_assoc.
Qed.

Lemma decode_branch_counts_canonical buf bc k o o' :
  0 <= bc < 2 ^ 16 →
  decode_branch_counts buf bc k o = Ok o' →
  o' = (o + 2 * k)%nat ∧
  ((o' <= length buf)%nat → take o' buf = take o buf ++ concat (replicate k (be_bytes 2 bc))).
Proof.
  intros Hbc. revert o. induction k as [|k IH]; intros o Hd; cbn [decode_branch_counts] in Hd.
  - injection Hd as <-. split; [lia|]. intros _. cbn. by rewrite app_nil_r.
  - apply bind_Ok_inv in Hd as (u & Hu & (-> & E)%IH). apply raise_if_Ok, negb_false_iff, Z.eqb_eq in Hu.
    split; [lia|]. intros Hle. cbn [replicate concat]. rewrite E by done.
    rewrite app_assoc. f_equal. rewrite take_slice. f_equal.
    rewrite <- Hu. set (sl := slice o (o + 2) buf).
    assert (length sl = 2%nat) as <- by (unfold sl, slice; rewrite length_take, length_drop; lia).
    by rewrite be_bytes_from.
Qed.

Lemma byte_at_Ok buf o v : byte_at buf o = Ok v → take (S o) buf = take o buf ++ [byte_of v].
Proof.
  unfold byte_at. destruct (buf !! o) as [b|] eqn:Hb; [|done]. intros [= <-].
  rewrite byte_of_val. by apply take_S_r.
Qed.

Lemma decode_budget_canonical buf o e_b z_b : decode_budget buf o = Ok (e_b, z_b) →
  0 <= e_b < CURVE_ORDER ∧ 0 <= z_b < CURVE_ORDER ∧ (o + 65)%nat = length buf ∧
  buf = take o buf ++ [byte_of BUDGET_EXACT_TAG]
    ++ be_bytes 32 (e_b mod CURVE_ORDER) ++ be_bytes 32 (z_b mod CURVE_ORDER).
Proof.
  intros Hd. unfold decode_budget in Hd. inv_ok. subst.
  apply negb_false_iff, Z.eqb_eq in Hv1, Hv4. subst. unfold len in Hv4.
  apply byte_at_Ok in Hv0. apply scalar_wire in Hv2 as [? E2], Hv3 as [? E3].
  assert (Hl : (o + 65)%nat = length buf) by lia. split_and!; [lia..|done|].
  rewrite <- E2, <- E3, !app_assoc, <- Hv0. replace (S o) with (o + 1)%nat by lia.
  replace (o + 33)%nat with (o + 1 + 32)%nat by lia. rewrite <- take_slice.
  replace (o + 65)%nat with (o + 1 + 32 + 32)%nat by lia. rewrite <- take_slice, take_ge by lia. done.
Qed.

Lemma proof_decode_canonical base buf bc o p o' :
  branch_offset base o → decode_many (decode_branch buf) bc o = Ok (p, o') →
  o' = (o + length (proof_bytes p))%nat ∧ branch_offset base o' ∧ (length p = bc ∧ Forall wire_branch p) ∧
  (canonical_points base buf → take o' buf = take o buf ++ proof_bytes p).
Proof.
  intros Ho Hd. apply (decode_many_canonical _ branch_bytes wire_branch (branch_offset base) (canonical_points base buf) buf)
    in Hd; [unfold proof_bytes; tauto| |done].
  intros br o1 o2 [i ->] (-> & ? & ?)%(decode_branch_canonical base); [|by exists i].
  rewrite length_branch_bytes. split_and!; [done|exists (S i); lia|done|done].
Qed.

(** Whatever decodes has the right shape and as many bytes as the encoding of
    what it decodes to; with canonical points it is that encoding. *)
Lemma decode_bvp_canonical buf nc budget rp e_b z_b :
  0 <= budget → budget + 1 < 2 ^ 16 →
  decode_ballot_validity_proof buf nc budget = Ok (rp, e_b, z_b) →
  length buf = length (bvp_bytes rp (budget + 1) e_b z_b)
  ∧ (canonical_points (4 + 2 * Z.to_nat nc) buf → buf = bvp_bytes rp (budget + 1) e_b z_b)
  ∧ len rp = nc ∧ nc < 2 ^ 16 ∧
  Forall (λ p, len p = budget + 1 ∧ Forall wire_branch p) rp ∧
  0 <= e_b < CURVE_ORDER ∧ 0 <= z_b < CURVE_ORDER.
Proof.
  intros Hb0 Hb Hd. unfold decode_ballot_validity_proof in Hd. inv_ok.
  destruct v6 as [rp' o]. apply bind_Ok_inv in Hd as ([e_b' z_b'] & Hv7 & Hd). simplify_eq.
  apply negb_false_iff, Z.eqb_eq in Hv1, Hv3, Hv4. subst v0 v2.
  apply Z.ltb_ge in Hv. unfold len in Hv.
  set (sl := slice 2 4 buf) in *.
  assert (Hsl : length sl = 2%nat) by (unfold sl, slice; rewrite length_take, length_drop; lia).
  pose proof (from_bytes_range sl) as Hrange. unfold len in Hrange. rewrite Hsl in Hrange.
  change (256 ^ Z.of_nat 2) with (2 ^ 16) in Hrange.
  apply decode_branch_counts_canonical in Hv5 as [-> Hcounts]; [|lia].
  set (base := (4 + 2 * Z.to_nat nc)%nat) in *.
  apply (decode_many_canonical _ proof_bytes (λ p, length p = Z.to_nat (budget + 1) ∧ Forall wire_branch p)
    (branch_offset base) (canonical_points base buf) buf) in Hv6
    as (Ho & _ & Hlrp & Hrp & Hbody); [|by intros ???; apply proof_decode_canonical|by exists 0%nat; lia].
  apply decode_budget_canonical in Hv7 as (He & Hz & Hlen & Hbuf).
  assert (Hn : len rp = nc) by (unfold len; lia).
  split_and!; try done; try lia.
  - unfold bvp_bytes. rewrite !length_app, !length_be_bytes, (length_concat_uniform (replicate _ _) 2), length_replicate.
    + rewrite <- Hlen, Ho. cbn [length]. unfold base. lia.
    + apply Forall_replicate. apply length_be_bytes.
  - intros Hc. specialize (Hbody Hc). rewrite Hcounts in Hbody by (unfold base in *; lia). clear Hcounts.
    apply byte_at_Ok in Hv0, Hv2. rewrite Hv0, take_0 in Hv2. cbn [app] in Hv2.
    assert (H4 : take 4 buf = [byte_of BVP_VERSION] ++ [byte_of VARIANT_A_BYTE] ++ be_bytes 2 (len rp)).
    { change 4%nat with (2 + 2)%nat. rewrite take_slice, Hv2. cbn [app]. do 2 f_equal.
      rewrite Hn, <- Hv4. change (slice 2 (2 + 2) buf) with sl.
      transitivity (be_bytes (length sl) (from_bytes_be sl)); [by rewrite be_bytes_from|by rewrite Hsl]. }
    unfold bvp_bytes. rewrite Hbuf, Hbody, H4, <- Hlrp, <- !app_assoc. done.
  - eapply Forall_impl; [exact Hrp|]. intros p [??]. unfold len. split; [lia|done].
Qed.

(** * The signed message determines what is signed *)

Definition ct_wire (ct : bytes * bytes) : bytes := ct.1 ++ ct.2.

Lemma canonical_ballot_message_Ok eid ps cts zk att m :
  canonical_ballot_message eid ps cts zk att = Ok m →
  length eid = 32%nat ∧ length ps = 32%nat ∧
  Forall (λ ct, length ct.1 = 96%nat ∧ length ct.2 = 96%nat) cts ∧
  length (att_pseudonym att) = 32%nat ∧ length (att_vk att) = 48%nat ∧
  (0 <= len cts < 2 ^ 16 ∧ 0 <= len zk < 2 ^ 32 ∧ 0 <= len (att_signature att) < 2 ^ 16) ∧
  0 <= att_weight att < 2 ^ 256 ∧ 0 <= att_nonce att < 2 ^ 256 ∧
  m = encode_utf8 BALLOT_MESSAGE_LABEL ++ eid ++ ps ++ be_bytes 2 (len cts)
      ++ concat (ct_wire <$> cts) ++ be_bytes 4 (len zk) ++ zk
      ++ att_pseudonym att ++ att_vk att ++ be_bytes 32 (att_weight att) ++ be_bytes 32 (att_nonce att)
      ++ be_bytes 2 (len (att_signature att)) ++ att_signature att.
Proof.
  intros Hm. unfold canonical_ballot_message in Hm. inv_ok.
  repeat match goal with Hb : to_bytes_be _ _ = Ok _ |- _ => apply to_bytes_be_Ok in Hb as [? ->] end.
  repeat match goal with Hn : negb _ = false |- _ => apply negb_false_iff in Hn end.
  repeat match goal with Hn : (len _ =? _) = true |- _ => apply Z.eqb_eq in Hn; unfold len in Hn end.
  apply orb_false_iff in Hv4 as [?%Z.ltb_ge ?%Z.ltb_ge].
  assert (Forall (λ ct : bytes * bytes, length ct.1 = 96%nat ∧ length ct.2 = 96%nat) cts).
  { rewrite forallb_forall in Hv1. apply Forall_forall. intros ct Hct%list_elem_of_In.
    apply Hv1, andb_prop in Hct as [?%Z.eqb_eq ?%Z.eqb_eq]. unfold len in *. lia. }
  change (256 ^ Z.of_nat 2) with (2 ^ 16) in *. change (256 ^ Z.of_nat 4) with (2 ^ 32) in *.
  change (256 ^ Z.of_nat 32) with (2 ^ 256) in *.
  split_and!; try done; try lia.
Qed.

Lemma concat_ct_wire_inj cts cts' a b :
  Forall (λ ct : bytes * bytes, length ct.1 = 96%nat ∧ length ct.2 = 96%nat) cts →
  Forall (λ ct : bytes * bytes, length ct.1 = 96%nat ∧ length ct.2 = 96%nat) cts' →
  length cts = length cts' →
  concat (ct_wire <$> cts) ++ a = concat (ct_wire <$> cts') ++ b → cts = cts' ∧ a = b.
Proof.
  intros Hc. revert cts'. induction Hc as [|[c1 c2] cts [E1 E2] _ IH]; intros [|[d1 d2] cts'] Hc' Hl He;
    try done.
  apply Forall_cons in Hc' as [[F1 F2] Hc']. cbn [fst snd] in E1, E2, F1, F2.
  rewrite !fmap_cons in He. cbn [concat] in He. unfold ct_wire at 1 3 in He. cbn [fst snd] in He.
  rewrite <- !app_assoc in He.
  apply app_inj_1 in He as [-> He]; [|lia]. apply app_inj_1 in He as [-> He]; [|lia].
  cbn [length] in Hl. apply IH in He as [-> ->]; [done|done|lia].
Qed.

Lemma be_bytes_app_inj k n m a b : 0 <= n < 256 ^ Z.of_nat k → 0 <= m < 256 ^ Z.of_nat k →
  be_bytes k n ++ a = be_bytes k m ++ b → n = m ∧ a = b.
Proof.
  intros Hn Hm He. apply app_inj_1 in He as [He ->]; [|by rewrite !length_be_bytes].
  apply (f_equal from_bytes_be) in He. by rewrite !from_be_bytes, !Z.mod_small in He by done.
Qed.

Lemma canonical_message_inj eid ps cts zk att eid' ps' cts' zk' att' m :
  canonical_ballot_message eid ps cts zk att = Ok m →
  canonical_ballot_message eid' ps' cts' zk' att' = Ok m →
  eid = eid' ∧ ps = ps' ∧ cts = cts' ∧ zk = zk' ∧ att_pseudonym att = att_pseudonym att' ∧
  att_vk att = att_vk att' ∧ att_weight att = att_weight att' ∧ att_nonce att = att_nonce att' ∧
  att_signature att = att_signature att'.
Proof.
  intros (E1 & E2 & Ec & E3 & E4 & (Hn & Hz & Hs) & Hw & Hno & ->)%canonical_ballot_message_Ok.
  intros (F1 & F2 & Fc & F3 & F4 & (Gn & Gz & Gs) & Gw & Gno & Hm)%canonical_ballot_message_Ok.
  apply app_inv_head in Hm.
  apply app_inj_1 in Hm as [<- Hm]; [|congruence]. apply app_inj_1 in Hm as [<- Hm]; [|congruence].
  apply be_bytes_app_inj in Hm as [Hl Hm]; [|done..].
  apply concat_ct_wire_inj in Hm as [<- Hm]; [|done|done|unfold len in Hl; lia].
  apply be_len_app_inj in Hm as [<- Hm]; [|lia..].
  apply app_inj_1 in Hm as [-> Hm]; [|congruence]. apply app_inj_1 in Hm as [-> Hm]; [|congruence].
  apply be_bytes_app_inj in Hm as [-> Hm]; [|done..]. apply be_bytes_app_inj in Hm as [-> Hm]; [|done..].
  assert (att_signature att = att_signature att') as ->; [|done].
  apply (be_len_app_inj 2 _ _ [] []); [lia..|]. by rewrite !app_nil_r.
Qed.

(** * An honest ballot is accepted *)

Lemma simulate_branch_wire c1 c2 mpk m sim :
  in_subgroup c1 → in_subgroup c2 → in_subgroup mpk → wire_branch (simulate_branch c1 c2 mpk m sim).
Proof.
  intros. unfold wire_branch, simulate_branch, or_target. cbn [a1 a2 br_e br_z].
  split_and!; [solve_subgroup|solve_subgroup|apply mod_q_range..].
Qed.

Lemma prove_or_wire c1 c2 mpk candidates r true_index w simulated t bs t' :
  in_subgroup c1 → in_subgroup c2 → in_subgroup mpk →
  prove_or c1 c2 mpk candidates r true_index w simulated t = Ok (bs, t') →
  Forall wire_branch bs ∧ length bs = length candidates.
Proof.
  intros H1 H2 Hm (Hti & Hlen & Hsim & t1 & t2 & e & _ & _ & _ & ->)%prove_or_Ok.
  split; [|by rewrite length_alter]. apply Forall_lookup. intros i br Hbr.
  destruct (lookup_lt_is_Some_2 candidates i) as [m Hc].
  { apply lookup_lt_Some in Hbr. rewrite length_alter in Hbr. lia. }
  destruct (lookup_lt_is_Some_2 simulated i) as [sim Hs].
  { rewrite Hsim. by eapply lookup_lt_Some. }
  pose proof (or_branches0_lookup c1 c2 mpk candidates (Z.to_nat true_index) w simulated i m sim Hc Hs) as Hl.
  rewrite list_lookup_alter in Hbr. destruct (decide (i = Z.to_nat true_index)) as [->|Hne].
  - rewrite decide_True, Hl in Hbr by done. injection Hbr as <-.
    split_and!; cbn [a1 a2 br_e br_z]; [solve_subgroup|solve_subgroup|apply mod_q_range..].
  - rewrite decide_False, Hl in Hbr by done. injection Hbr as <-. by apply simulate_branch_wire.
Qed.

(** One candidate of a ballot: the ciphertext of a vote in range. *)
Definition vote_ok (mpk : pt G2ops) (budget : Z) (vote : Ciphertext * Z * VoteCoins) : Prop :=
  encrypts mpk vote.1.1 vote.1.2 (coin_r vote.2 mod CURVE_ORDER) ∧ 0 <= vote.1.2 <= budget.

Lemma range_list_lookup B v : 0 <= v <= B → range_list B !! Z.to_nat v = Some v.
Proof. intros Hv. unfold range_list. apply lookup_seqZ. lia. Qed.

Lemma prove_ranges_accepted mpk budget j votes t ps t' : in_subgroup mpk →
  Forall (vote_ok mpk budget) votes →
  prove_ranges mpk (range_list budget) j votes t = Ok (ps, t') →
  verify_ranges mpk (range_list budget) j (zip votes.*1.*1 ps) t = Ok (true, t') ∧
  length ps = length votes ∧ Forall (Forall wire_branch) ps ∧
  Forall (λ p, length p = length (range_list budget)) ps.
Proof.
  intros Hm Hv. revert j t ps t'.
  induction Hv as [|[[ct v] co] votes [Henc Hr] Hv IH]; intros j t ps t' Hp.
  - cbn in Hp. injection Hp as <- <-. done.
  - cbn [prove_ranges] in Hp. inv_tm. cbn [fst snd] in Henc, Hr.
    rewrite !fmap_cons. cbn [zip zip_with verify_ranges fst].
    assert (Hct : ct_subgroup ct) by (rewrite Henc; by apply encrypt_subgroup).
    destruct Hct as [Hc1 Hc2]. destruct ct as [x1 x2]; cbn [fst snd] in *.
    destruct (IH _ _ _ _ Hv2) as (Hver & Hlen & Hw & Hbc).
    destruct (prove_or_wire _ _ _ _ _ _ _ _ _ _ _ Hc1 Hc2 Hm Hv1) as [Hw1 Hl1].
    rewrite Hl, TM_lift_Ok, (TM_bind_Ok _ _ _ _ _ Hv0).
    rewrite (TM_bind_Ok _ _ _ _ _ (or_complete _ _ _ _ _ _ _ _ _ _ _ _ Hm Henc
      (range_list_lookup _ _ Hr) Hv1)).
    split_and!; [done|cbn [length]; lia|by constructor|by constructor].
Qed.

Lemma prove_budget_exact_accepted mpk ct B r w t e z t' : in_subgroup mpk →
  encrypts mpk ct B r →
  prove_budget_exact ct.1 ct.2 mpk B r w t = Ok ((e, z), t') →
  verify_budget_exact ct.1 ct.2 mpk B e z t = Ok (true, t') ∧
  e mod CURVE_ORDER = e ∧ z mod CURVE_ORDER = z.
Proof.
  intros Hm Henc Hp. unfold encrypts, encrypt in Henc. cbn [fst] in Henc. subst ct. cbn [fst snd] in *.
  unfold prove_budget_exact, _budget_dleq_instance in Hp. inv_tm.
  assert (HD : add (add (mul mpk r) (mul G2 B)) (mul G2 ((- (B mod CURVE_ORDER)) mod CURVE_ORDER))
    = mul mpk r) by (solve_point; ring).
  rewrite HD in *. unfold verify_budget_exact, _budget_dleq_instance. rewrite HD.
  rewrite (TM_bind_Ok _ _ _ _ _ Hv). split.
  - eapply dleq_complete; [solve_subgroup|done|done].
  - unfold prove_dleq in Hp. inv_tm. inv_ok. subst.
    rewrite Zmod_mod. split; [|done]. apply Z.mod_small. by eapply challenge_range.
Qed.

Lemma decode_cts_compressed cts : Forall ct_subgroup cts →
  decode_cts ((λ ct, (pt_to_compressed G2ops ct.1, pt_to_compressed G2ops ct.2)) <$> cts) = Ok cts.
Proof.
  unfold decode_cts. induction 1 as [|[A B] cts [HA HB] _ IH]; [done|].
  rewrite fmap_cons. cbn [mapM fst snd] in *. unfold g2_from_compressed in *.
  rewrite !from_to_compressed by done. by rewrite !bind_Ok, IH, bind_Ok.
Qed.

(** The ciphertexts of a ballot and the entries the range proofs go through. *)
Definition ballot_cts (mpk : pt G2ops) (votes : list Z) (coins : list VoteCoins) : list Ciphertext :=
  zip_with (λ v co, (encrypt mpk v (coin_r co mod CURVE_ORDER)).1) votes coins.

Lemma ballot_cts_votes mpk votes coins : length coins = length votes →
  zip (zip (ballot_cts mpk votes coins) votes) coins
  = (λ '(v, co), ((encrypt mpk v (coin_r co mod CURVE_ORDER)).1, v, co)) <$> zip votes coins.
Proof.
  revert coins. induction votes as [|v votes IH]; intros [|co coins] Hl; try done.
  cbn [ballot_cts zip_with fmap list_fmap]. f_equal. apply IH. by injection Hl.
Qed.

Lemma ballot_cts_fmap mpk votes coins :
  ballot_cts mpk votes coins
  = (λ vc, (encrypt mpk vc.1 (coin_r vc.2 mod CURVE_ORDER)).1) <$> zip votes coins.
Proof.
  revert coins. induction votes as [|v votes IH]; intros [|co coins]; try done.
  cbn [ballot_cts zip_with fmap list_fmap]. f_equal. apply IH.
Qed.

Lemma zip_fst_snd {A B} (l : list A) (k : list B) : length k = length l →
  (zip l k).*1 = l ∧ (zip l k).*2 = k.
Proof. intros Hl. split; [apply fst_zip|apply snd_zip]; lia. Qed.

(** The summed ciphertext encrypts the budget. *)
Lemma ballot_sum_encrypts mpk votes coins budget : in_subgroup mpk →
  length coins = length votes → zsum votes = budget →
  encrypts mpk (sum_cts (ballot_cts mpk votes coins)) budget
    (zsum ((λ co, coin_r co mod CURVE_ORDER) <$> coins) mod CURVE_ORDER).
Proof.
  intros Hm Hl Hs. destruct (zip_fst_snd votes coins Hl) as [E1 E2].
  rewrite ballot_cts_fmap. eapply encrypts_eqq.
  - apply (sum_cts_encrypts mpk (zip votes coins) _ fst (λ vc, coin_r vc.2 mod CURVE_ORDER)); [done|].
    intros vc _. reflexivity.
  - rewrite E1, Hs. reflexivity.
  - rewrite <- E2 at 2. rewrite <- list_fmap_compose. by rewrite eqq_mod.
Qed.

Lemma ballot_votes_ok mpk votes coins budget : length coins = length votes →
  Forall (λ v, 0 <= v <= budget) votes →
  Forall (vote_ok mpk budget) (zip (zip (ballot_cts mpk votes coins) votes) coins).
Proof.
  intros Hl Hr. rewrite ballot_cts_votes by done. apply Forall_fmap, Forall_forall.
  intros [v co] Hin%elem_of_zip_l. split; [done|]. rewrite Forall_forall in Hr. by apply Hr.
Qed.

Lemma votes_in_range votes budget :
  existsb (λ v, (v <? 0) || (budget <? v)) votes = false ↔ Forall (λ v, 0 <= v <= budget) votes.
Proof.
  rewrite <- not_true_iff_false, existsb_exists, Forall_forall. split.
  - intros Hn v Hv%list_elem_of_In. destruct (decide (0 <= v <= budget)) as [|Hr]; [done|].
    destruct Hn. exists v. split; [done|].
    destruct (Z.ltb_spec v 0), (Z.ltb_spec budget v); cbn; lia || done.
  - intros Hr (v & Hv%list_elem_of_In & E). specialize (Hr v Hv).
    rewrite !(proj2 (Z.ltb_ge _ _)) in E by lia. done.
Qed.

(** The steps of the verifier that lead to acceptance. *)
Lemma verify_accepts mpk eid ps vkb ctb zk sig att nc budget vk cts rp e_b z_b t t1 t2 t3 R s pre :
  1 <= nc <= 0xFFFF → 1 <= budget <= 0xFFFE → point_eq mpk Z2 = false →
  g1_from_compressed vkb = Ok vk → point_eq vk Z1 = false →
  len ctb = nc → decode_cts ctb = Ok cts →
  decode_ballot_validity_proof zk nc budget = Ok (rp, e_b, z_b) →
  seed_ballot_transcript eid mpk vk cts nc budget = Ok t →
  verify_ranges mpk (range_list budget) 0 (zip cts rp) t = Ok (true, t1) →
  t_append "ballot:budget" [Byte.x00] t1 = Ok (tt, t2) →
  verify_budget_exact (sum_cts cts).1 (sum_cts cts).2 mpk budget e_b z_b t2 = Ok (true, t3) →
  schnorr.decode sig = Ok (R, s) →
  canonical_ballot_message eid ps ctb zk att = Ok pre →
  schnorr.verify vk (keccak pre) R s = Ok true →
  verify_ballot_crypto mpk eid ps vkb ctb zk sig att nc budget = Ok (true, None).
Proof.
  intros Hnc Hb Hm Hvkb Hvk Hl Hcts Hzk Ht Hr Ha Hbe Hsig Hpre Hver. unfold verify_ballot_crypto.
  destruct (canonical_ballot_message_Ok _ _ _ _ _ _ Hpre) as (He & Hp & _).
  assert (Hle : len eid = 32) by (unfold len; lia). assert (Hlp : len ps = 32) by (unfold len; lia).
  rewrite !(proj2 (Z.leb_le _ _)) by lia. rewrite Hle, Hlp. cbn [negb andb orb Z.eqb Pos.eqb].
  rewrite Hm, Hvkb, Hvk, Hl, Z.eqb_refl. cbn [negb]. rewrite Hcts, Hzk, Ht, bind_Ok, Hr, bind_Ok.
  cbn [negb]. destruct (sum_cts cts) as [x y]. rewrite Ha, bind_Ok. cbn [fst snd] in Hbe.
  rewrite Hbe, bind_Ok. cbn [negb]. rewrite Hsig, Hpre, bind_Ok, Hver. by rewrite bind_Ok.
Qed.

Lemma build_ballot_accepted mpk eid ps sk vk att votes nc budget coins bw k b :
  in_subgroup mpk → point_eq mpk Z2 = false → 1 <= nc <= 0xFFFF → 1 <= budget <= 0xFFFE →
  length coins = length votes →
  build_ballot mpk eid ps sk vk att votes nc budget coins bw k = Ok b →
  verify_ballot_crypto mpk eid ps (bb_vk b) (bb_ciphertexts b) (bb_zk_proof b)
    (bb_voter_signature b) att nc budget = Ok (true, None).
Proof.
  intros Hm Hm0 Hnc Hb Hco Hbuild. unfold build_ballot in Hbuild.
  fold (ballot_cts mpk votes coins) in Hbuild.
  set (cts := ballot_cts mpk votes coins) in *.
  apply bind_Ok_inv in Hbuild as (u1 & Hlen & Hbuild). apply raise_if_Ok, negb_false_iff, Z.eqb_eq in Hlen.
  apply bind_Ok_inv in Hbuild as (u2 & Hrange & Hbuild). apply raise_if_Ok in Hrange.
  apply bind_Ok_inv in Hbuild as (u3 & Hsum & Hbuild). apply raise_if_Ok, negb_false_iff, Z.eqb_eq in Hsum.
  apply bind_Ok_inv in Hbuild as ([sk' vk'] & Hkg & Hbuild).
  apply bind_Ok_inv in Hbuild as (u4 & Hvk & Hbuild).
  apply raise_if_Ok, negb_false_iff, point_eq_spec in Hvk. subst vk'.
  apply bind_Ok_inv in Hbuild as (t & Hseed & Hbuild).
  apply bind_Ok_inv in Hbuild as ([rp t1] & Hrp & Hbuild).
  destruct (sum_cts cts) as [c1s c2s] eqn:Hcs.
  apply bind_Ok_inv in Hbuild as ([u5 t2] & Hbt & Hbuild).
  apply bind_Ok_inv in Hbuild as ([[e_b z_b] t3] & Hbud & Hbuild).
  apply bind_Ok_inv in Hbuild as (zk & Hzk & Hbuild).
  apply bind_Ok_inv in Hbuild as (ctb & Hctb & Hbuild).
  apply bind_Ok_inv in Hbuild as (pre & Hpre & Hbuild).
  apply bind_Ok_inv in Hbuild as ([R s] & Hsig & Hbuild).
  apply bind_Ok_inv in Hbuild as (vkb & Hvkb & Hbuild).
  apply bind_Ok_inv in Hbuild as (sig & Hsigb & Hbuild). apply Ok_inj in Hbuild. subst b.
  cbn [bb_vk bb_ciphertexts bb_zk_proof bb_voter_signature].
  pose proof (schnorr.keygen_Ok _ _ _ Hkg) as (-> & _ & Hvk & Hvks & Hvk0).
  apply votes_in_range in Hrange.
  pose proof (ballot_votes_ok mpk votes coins budget Hco Hrange) as Hvo. fold cts in Hvo.
  apply prove_ranges_accepted in Hrp as (Hver & Hlrp & Hw & Hbc); [|done|done].
  assert (Hlc : length cts = length votes) by (unfold cts, ballot_cts; rewrite length_zip_with; lia).
  destruct (zip_fst_snd cts votes ltac:(lia)) as [Ezc _].
  destruct (zip_fst_snd (zip cts votes) coins ltac:(rewrite length_zip_with; lia)) as [Ez _].
  assert (Ects : ((zip (zip cts votes) coins).*1).*1 = cts) by (rewrite <- Ezc at 2; by f_equal).
  rewrite Ects in Hver. rewrite !length_zip_with in Hlrp.
  assert (Hct : Forall ct_subgroup cts).
  { unfold cts. rewrite ballot_cts_fmap. apply Forall_fmap, Forall_forall.
    intros vc _. by apply encrypt_subgroup. }
  assert (Hrl : length (range_list budget) = Z.to_nat (budget + 1)) by apply length_seqZ.
  assert (Hbc' : Forall (λ p : list ORBranch, len p = budget + 1) rp).
  { eapply Forall_impl; [exact Hbc|]. intros p. cbv beta. unfold len. lia. }
  assert (Hlr : len rp = nc) by (unfold len in *; lia).
  assert (Hrp0 : rp ≠ []) by (intros ->; unfold len in Hlr; cbn in Hlr; lia).
  rewrite (encode_bvp_Ok rp (budget + 1)) in Hzk by (done || lia). apply Ok_inj in Hzk. subst zk.
  pose proof (ballot_sum_encrypts mpk votes coins budget Hm Hco Hsum) as Henc. fold cts in Henc.
  replace c1s with (sum_cts cts).1 in Hbud by (by rewrite Hcs).
  replace c2s with (sum_cts cts).2 in Hbud by (by rewrite Hcs).
  destruct (prove_budget_exact_accepted _ _ _ _ _ _ _ _ _ Hm Henc Hbud) as (Hbv & He & Hz).
  rewrite (mapM_fmap_Ok _ (λ ct, (pt_to_compressed G2ops ct.1, pt_to_compressed G2ops ct.2))) in Hctb
    by (intros; unfold g2_to_compressed; by rewrite !to_compressed_Ok).
  apply Ok_inj in Hctb. subst ctb. destruct u5.
  unfold g1_to_compressed in Hvkb. rewrite to_compressed_Ok in Hvkb. apply Ok_inj in Hvkb. subst vkb.
  destruct (schnorr.sign_succeeds sk vk (keccak pre) k) as (R' & s' & Hsig' & HR & Hs).
  rewrite Hsig in Hsig'. injection Hsig' as <- <-.
  pose proof (decode_bvp_bytes rp e_b z_b nc budget Hlr ltac:(lia) ltac:(lia) ltac:(lia) Hw Hbc') as Hdec.
  rewrite He, Hz in Hdec.
  eapply verify_accepts; try done.
  - by apply from_to_compressed.
  - rewrite <- Hlen. unfold len. rewrite length_fmap. f_equal. exact Hlc.
  - by apply decode_cts_compressed.
  - rewrite (schnorr.encode_decode _ _ _ HR Hsigb), Z.mod_small by done. done.
  - eapply schnorr.sign_verify; [|done|done]. rewrite Hvk. apply mul_eqq, eqq_mod.
Qed.

(** * What acceptance guarantees *)

(** An accepted ballot decodes, its proofs were verified and its signature is
    by the key it carries on the canonical message; the verdict on the same
    ballot with another signature or attestation depends on these only. *)
Lemma verify_accepted_inv mpk eid ps vkb ctb zk sig att nc budget :
  verify_ballot_crypto mpk eid ps vkb ctb zk sig att nc budget = Ok (true, None) →
  ∃ vk cts rp e_b z_b R s pre,
    g1_from_compressed vkb = Ok vk ∧ point_eq vk Z1 = false ∧ point_eq mpk Z2 = false ∧
    len ctb = nc ∧ 1 <= nc <= 0xFFFF ∧ 1 <= budget <= 0xFFFE ∧
    decode_cts ctb = Ok cts ∧
    decode_ballot_validity_proof zk nc budget = Ok (rp, e_b, z_b) ∧
    schnorr.decode sig = Ok (R, s) ∧
    canonical_ballot_message eid ps ctb zk att = Ok pre ∧
    schnorr.verify vk (keccak pre) R s = Ok true ∧
    ∀ sig' att',
      verify_ballot_crypto mpk eid ps vkb ctb zk sig' att' nc budget =
      match schnorr.decode sig' with
      | Err _ => Ok (false, Some "MALFORMED")
      | Ok (R, s) =>
          preimage ← canonical_ballot_message eid ps ctb zk att';
          ok ← schnorr.verify vk (keccak preimage) R s;
          if (ok : bool) then Ok (true, None) else
          old ← _pre_v1_ballot_message eid ps ctb zk;
          ok ← schnorr.verify vk (keccak old) R s;
          if (ok : bool) then Ok (false, Some "INVALID_SIGNATURE_PRE_V2") else
          Ok (false, Some "INVALID_SIGNATURE")
      end.
Proof.
  unfold verify_ballot_crypto. intros Hv.
  destruct (_ && _) eqn:Hnc in Hv; [|done]. cbn [negb] in Hv.
  destruct (_ && _) eqn:Hb in Hv; [|done]. cbn [negb] in Hv. rewrite Hnc, Hb. cbn [negb].
  destruct (_ || _) eqn:Hl in Hv |- *; [done|]. destruct (point_eq mpk Z2) eqn:Hm; [done|].
  destruct (g1_from_compressed vkb) as [vk|] eqn:Hvk; [|done].
  destruct (point_eq vk Z1) eqn:Hvk1; [done|].
  destruct (negb (len ctb =? nc)) eqn:Hlc; [done|].
  destruct (decode_cts ctb) as [cts|] eqn:Hcts; [|done].
  destruct (decode_ballot_validity_proof zk nc budget) as [[[rp e_b] z_b]|] eqn:Hzk; [|done].
  apply bind_Ok_inv in Hv as (t & Ht & Hv).
  apply bind_Ok_inv in Hv as ([ok t1] & Hr & Hv).
  destruct ok; [|done]. cbn [negb] in *. destruct (sum_cts cts) as [x y] eqn:Hsum.
  apply bind_Ok_inv in Hv as ([u t2] & Ha & Hv).
  apply bind_Ok_inv in Hv as ([ok t3] & Hbe & Hv).
  destruct ok; [|done]. cbn [negb] in *.
  destruct (schnorr.decode sig) as [[R s]|] eqn:Hsig; [|done].
  apply bind_Ok_inv in Hv as (pre & Hpre & Hv).
  apply bind_Ok_inv in Hv as (ok & Hver & Hv).
  destruct ok.
  2: { apply bind_Ok_inv in Hv as (? & _ & Hv). apply bind_Ok_inv in Hv as (? & _ & Hv). by case_match. }
  apply andb_prop in Hnc as [?%Z.leb_le ?%Z.leb_le]. apply andb_prop in Hb as [?%Z.leb_le ?%Z.leb_le].
  apply negb_false_iff, Z.eqb_eq in Hlc.
  exists vk, cts, rp, e_b, z_b, R, s, pre. split_and!; try done. intros sig' att'.
  rewrite Ht, bind_Ok, Hr, bind_Ok. cbn [negb]. rewrite Ha, bind_Ok, Hbe, bind_Ok. reflexivity.
Qed.

(** A positive verdict carries no reason. *)
Lemma verify_true_None mpk eid ps vkb ctb zk sig att nc budget r :
  verify_ballot_crypto mpk eid ps vkb ctb zk sig att nc budget = Ok (true, r) → r = None.
Proof.
  unfold verify_ballot_crypto.
  repeat match goal with |- (if ?c then _ else _) = _ → _ => destruct c; [done|] end.
  destruct (g1_from_compressed vkb); [|done]. do 2 (case_match; [done|]).
  destruct (decode_cts ctb); [|done].
  destruct (decode_ballot_validity_proof zk nc budget) as [[[rp e_b] z_b]|]; [|done].
  intros (t & _ & Hv)%bind_Ok_inv. apply bind_Ok_inv in Hv as ([ok t1] & _ & Hv).
  destruct ok; [|done]. cbn [negb] in Hv. destruct (sum_cts _).
  apply bind_Ok_inv in Hv as ([u t2] & _ & Hv). apply bind_Ok_inv in Hv as ([ok t3] & _ & Hv).
  destruct ok; [|done]. cbn [negb] in Hv. destruct (schnorr.decode sig) as [[R s]|]; [|done].
  apply bind_Ok_inv in Hv as (? & _ & Hv). apply bind_Ok_inv in Hv as (ok & _ & Hv).
  destruct ok; [congruence|]. apply bind_Ok_inv in Hv as (? & _ & Hv).
  apply bind_Ok_inv in Hv as (? & _ & Hv). by case_match.
Qed.

(** The message cannot be built for a weight of more than 32 bytes. *)
Lemma canonical_message_overflow eid ps cts zk att att' m :
  canonical_ballot_message eid ps cts zk att = Ok m →
  att_pseudonym att' = att_pseudonym att → att_vk att' = att_vk att →
  2 ^ 256 <= att_weight att' → 0 <= att_nonce att' →
  canonical_ballot_message eid ps cts zk att' = Err OverflowError.
Proof.
  intros Hm Hp Hv Hw Hn. unfold canonical_ballot_message in *.
  rewrite Hp, Hv.
  do 5 (apply bind_Ok_inv in Hm as (? & Hg & Hm); rewrite Hg, bind_Ok; clear Hg).
  apply bind_Ok_inv in Hm as (? & _ & Hm).
  rewrite (proj2 (Z.ltb_ge (att_weight att') 0)), (proj2 (Z.ltb_ge (att_nonce att') 0)) by lia.
  cbn [orb raise_if]. rewrite bind_Ok.
  do 2 (apply bind_Ok_inv in Hm as (? & Hg & Hm); rewrite Hg, bind_Ok; clear Hg).
  assert (to_bytes_be (att_weight att') 32 = Err OverflowError) as ->; [|done].
  unfold to_bytes_be. change (256 ^ Z.of_nat 32) with (2 ^ 256).
  by rewrite (proj2 (Z.leb_le _ _) Hw), orb_true_r.
Qed.

Lemma overweight_verify mpk eid ps vkb cts zk sig att att' nc budget :
  verify_ballot_crypto mpk eid ps vkb cts zk sig att nc budget = Ok (true, None) →
  att_pseudonym att' = att_pseudonym att → att_vk att' = att_vk att →
  2 ^ 256 <= att_weight att' → 0 <= att_nonce att' →
  verify_ballot_crypto mpk eid ps vkb cts zk sig att' nc budget = Err OverflowError.
Proof.
  intros Hv Hp Hvk Hw Hn.
  destruct (verify_accepted_inv _ _ _ _ _ _ _ _ _ _ Hv)
    as (vk & ? & ? & ? & ? & R & s & pre & _ & _ & _ & _ & _ & _ & _ & _ & Hsig & Hpre & _ & Heq).
  by rewrite Heq, Hsig, (canonical_message_overflow _ _ _ _ _ _ _ Hpre Hp Hvk Hw Hn).
Qed.

(** * An honest voter gets a ballot *)

(** The sizes the signed message needs. *)
Definition message_ok (eid ps : bytes) (att : Attestation) : Prop :=
  len eid = 32 ∧ len ps = 32 ∧ len (att_pseudonym att) = 32 ∧ len (att_vk att) = 48 ∧
  0 <= att_weight att < 2 ^ 256 ∧ 0 <= att_nonce att < 2 ^ 256 ∧ len (att_signature att) <= 0xFFFF.

Lemma canonical_ballot_message_succeeds eid ps cts zk att : message_ok eid ps att →
  Forall (λ ct : bytes * bytes, len ct.1 = 96 ∧ len ct.2 = 96) cts →
  len cts < 2 ^ 16 → len zk < 2 ^ 32 →
  ∃ m, canonical_ballot_message eid ps cts zk att = Ok m.
Proof.
  intros (He & Hp & Ha & Hv & Hw & Hn & Hs) Hc Hlc Hlz. unfold canonical_ballot_message.
  rewrite He, Hp, Ha, Hv. cbn [Z.eqb Pos.eqb negb raise_if]. rewrite !bind_Ok.
  assert (forallb ct_size_ok cts = true) as ->.
  { apply forallb_forall. intros ct Hct%list_elem_of_In. unfold ct_size_ok.
    rewrite Forall_forall in Hc. destruct (Hc _ Hct) as [-> ->]. done. }
  cbn [negb raise_if]. rewrite !bind_Ok.
  rewrite !(proj2 (Z.ltb_ge _ _)) by lia. cbn [orb raise_if]. rewrite !bind_Ok.
  pose proof (len_nonneg cts). pose proof (len_nonneg zk). pose proof (len_nonneg (att_signature att)).
  rewrite (to_bytes_be_small (len cts)), (to_bytes_be_small (len zk)) by (split; [lia|done]).
  rewrite !bind_Ok.
  rewrite (to_bytes_be_small (att_weight att)), (to_bytes_be_small (att_nonce att)) by done.
  rewrite !bind_Ok, (to_bytes_be_small (len (att_signature att)) 2) by (split; [lia|cbn; lia]).
  rewrite bind_Ok. by eexists.
Qed.

(** Runs the next append of a short byte string. *)
Ltac tm_bytes :=
  match goal with
  | |- context [mbind (M:=TM) _ (t_append ?tag ?v) ?t] =>
      let t1 := fresh "t" in let E := fresh "E" in
      destruct (append_bytes_succeeds tag v t) as [t1 E];
      [unfold short_tag; cbn; lia
      |rewrite ?compressed_size; unfold G1_BYTES, len; rewrite ?length_be_bytes; cbn; unfold len in *; lia|];
      rewrite (TM_bind_Ok _ _ _ _ _ E)
  end.

Lemma seed_succeeds eid mpk vk cts nc budget : len eid = 32 → 0 <= nc < 2 ^ 16 →
  0 <= budget < 2 ^ 16 → len cts < 2 ^ 16 → ∃ t, seed_ballot_transcript eid mpk vk cts nc budget = Ok t.
Proof.
  intros He Hnc Hb Hc. unfold seed_ballot_transcript. pose proof (len_nonneg cts).
  tm_bytes. tm_run. unfold g1_to_compressed. rewrite to_compressed_Ok, TM_lift_Ok. do 3 tm_bytes.
  rewrite (to_bytes_be_small nc), TM_lift_Ok by done. tm_bytes.
  rewrite (to_bytes_be_small budget), TM_lift_Ok by done. tm_bytes.
  rewrite (to_bytes_be_small (len cts)), TM_lift_Ok by done. tm_bytes.
  match goal with |- context [for_each ?l ?b ?t] => destruct (for_each_succeeds l b t) as [t' Et] end;
    [|rewrite Et, bind_Ok; by eexists].
  intros [i ct] t8 (j & ct' & Eij & Hj)%elem_of_lookup_imap_1. simplify_eq.
  assert (Z.of_nat j < 2 ^ 30) by (apply lookup_lt_Some in Hj; unfold len in Hc; lia).
  destruct (append_point_succeeds (indexed "ct.c1" j) ct'.1 t8) as [t9 E9];
    [apply indexed_short; cbn; lia|].
  rewrite (TM_bind_Ok _ _ _ _ _ E9). apply append_point_succeeds, indexed_short; cbn; lia.
Qed.

Lemma prove_ranges_succeeds mpk budget j votes t :
  0 <= budget < 2 ^ 16 → Z.of_nat j + len votes <= 2 ^ 16 →
  Forall (λ vote, 0 <= vote.1.2 <= budget ∧ len (coin_sims vote.2) = budget + 1) votes →
  ∃ ps t', prove_ranges mpk (range_list budget) j votes t = Ok (ps, t').
Proof.
  intros Hb Hj Hv. revert j t Hj. induction Hv as [|[[ct v] co] votes [Hr Hs] _ IH]; intros j t Hj.
  - by do 2 eexists.
  - cbn [prove_ranges fst snd] in *. unfold len in Hj; cbn [length] in Hj.
    rewrite (to_bytes_be_small (Z.of_nat j) 2) by (change (256 ^ Z.of_nat 2) with (2 ^ 16); lia).
    rewrite TM_lift_Ok. tm_bytes.
    assert (Hrl : len (range_list budget) = budget + 1)
      by (unfold len, range_list; rewrite length_seqZ; lia).
    destruct (prove_or_succeeds ct.1 ct.2 mpk (range_list budget) (coin_r co mod CURVE_ORDER) v
      (coin_w co) (coin_sims co) t0) as (p & t1 & E1); [lia|lia|lia|].
    rewrite (TM_bind_Ok _ _ _ _ _ E1). destruct (IH (S j) t1) as (ps & t2 & E2); [unfold len; lia|].
    rewrite (TM_bind_Ok _ _ _ _ _ E2). by do 2 eexists.
Qed.

Lemma bind_budget_exact_succeeds B t : ∃ t', bind_budget B "exact" t = Ok (tt, t').
Proof.
  unfold bind_budget. cbn [String.eqb Ascii.eqb Bool.eqb orb negb raise_if]. rewrite TM_lift_Ok. tm_bytes.
  apply append_scalar_succeeds. unfold short_tag; cbn; lia.
Qed.

Lemma prove_budget_exact_succeeds x y mpk B r w t :
  ∃ e z t', prove_budget_exact x y mpk B r w t = Ok (e, z, t').
Proof.
  unfold prove_budget_exact. destruct (bind_budget_exact_succeeds B t) as [t1 E1].
  rewrite (TM_bind_Ok _ _ _ _ _ E1). unfold _budget_dleq_instance. apply prove_dleq_succeeds.
Qed.

Lemma bvp_bytes_length rp bc e z : Forall (λ p, len p = bc) rp →
  len (bvp_bytes rp bc e z) = 69 + 2 * len rp + 256 * (bc * len rp).
Proof.
  intros Hbc. unfold bvp_bytes, len. rewrite !length_app, !length_be_bytes. cbn [length].
  rewrite (length_concat_uniform (replicate _ _) 2) by (apply Forall_replicate, length_be_bytes).
  rewrite length_replicate.
  rewrite (length_concat_uniform (proof_bytes <$> rp) (256 * Z.to_nat bc)), length_fmap.
  - destruct rp; [cbn; lia|]. apply Forall_cons in Hbc as [Hb _]. unfold len in Hb. lia.
  - apply Forall_fmap. eapply Forall_impl; [exact Hbc|]. intros p Hp. cbn. rewrite length_proof_bytes.
    unfold len in Hp. lia.
Qed.

Lemma build_ballot_succeeds mpk eid ps sk sk' vk att votes nc budget coins bw k :
  in_subgroup mpk → 1 <= nc → 1 <= budget → nc * (budget + 1) <= 2500 →
  schnorr.keygen sk = Ok (sk', vk) → message_ok eid ps att →
  len votes = nc → Forall (λ v, 0 <= v <= budget) votes → zsum votes = budget →
  length coins = length votes → Forall (λ co, len (coin_sims co) = budget + 1) coins →
  ∃ b, build_ballot mpk eid ps sk vk att votes nc budget coins bw k = Ok b.
Proof.
  intros Hm Hnc Hb Hprod Hkg Hmsg Hlen Hr Hs Hco Hsim. unfold build_ballot.
  fold (ballot_cts mpk votes coins). set (cts := ballot_cts mpk votes coins).
  rewrite Hlen, Z.eqb_refl. cbn [negb raise_if]. rewrite bind_Ok.
  rewrite (proj2 (votes_in_range votes budget) Hr).
  cbn [raise_if]. rewrite bind_Ok, Hs, Z.eqb_refl. cbn [negb raise_if]. rewrite bind_Ok, Hkg, bind_Ok.
  rewrite point_eq_refl. cbn [negb raise_if]. rewrite bind_Ok.
  assert (Hlc : len cts = nc) by (unfold cts, ballot_cts, len in *; rewrite length_zip_with; lia).
  assert (nc <= 2500) by nia. assert (budget <= 2500) by nia.
  destruct Hmsg as (He & Hrest). pose proof (conj He Hrest) as Hmsg.
  destruct (seed_succeeds eid mpk vk cts nc budget) as [t ->]; [lia..|]. rewrite bind_Ok.
  destruct (prove_ranges_succeeds mpk budget 0 (zip (zip cts votes) coins) t) as (rp & t1 & Hrp); [lia| |  |].
  { unfold len in *. rewrite !length_zip_with. lia. }
  { unfold cts. rewrite ballot_cts_votes by done. apply Forall_fmap, Forall_forall.
    intros [v co] Hin. cbn. rewrite Forall_forall in Hr. rewrite Forall_forall in Hsim.
    split; [apply Hr; by eapply elem_of_zip_l|apply Hsim; by eapply elem_of_zip_r]. }
  rewrite Hrp, bind_Ok. destruct (sum_cts cts) as [x y].
  pose proof (ballot_votes_ok mpk votes coins budget Hco Hr) as Hvo. fold cts in Hvo.
  destruct (prove_ranges_accepted mpk budget _ _ _ _ _ Hm Hvo Hrp) as (_ & Hl & _ & Hbc).
  assert (Hlrp : len rp = nc) by (unfold len in *; rewrite !length_zip_with in Hl; lia).
  assert (Hbc' : Forall (λ p : list ORBranch, len p = budget + 1) rp).
  { eapply Forall_impl; [exact Hbc|]. intros p. cbv beta. unfold len, range_list. rewrite length_seqZ. lia. }
  destruct (append_bytes_succeeds "ballot:budget" [Byte.x00] t1) as [t2 ->];
    [unfold short_tag; cbn; lia|done|]. rewrite bind_Ok.
  match goal with |- context [prove_budget_exact ?a ?b ?c ?d ?e ?f ?g] =>
    destruct (prove_budget_exact_succeeds a b c d e f g) as (e_b & z_b & t3 & ->) end. rewrite bind_Ok.
  rewrite (encode_bvp_Ok rp (budget + 1)), bind_Ok;
    [|intros ->; unfold len in Hlrp; cbn in Hlrp; lia|done|lia|lia].
  rewrite (mapM_fmap_Ok _ (λ ct, (pt_to_compressed G2ops ct.1, pt_to_compressed G2ops ct.2))), bind_Ok
    by (intros; unfold g2_to_compressed; by rewrite !to_compressed_Ok).
  match goal with |- context [canonical_ballot_message _ _ ?c ?z _] =>
    destruct (canonical_ballot_message_succeeds eid ps c z att Hmsg) as [pre ->] end.
  { apply Forall_fmap, Forall_forall. intros ct _.
    exact (conj (compressed_size ct.1) (compressed_size ct.2)). }
  { unfold len. rewrite length_fmap. change (len cts < 2 ^ 16). lia. }
  { rewrite bvp_bytes_length, Hlrp by done. lia. }
  rewrite bind_Ok. destruct (schnorr.sign_succeeds sk vk (keccak pre) k) as (R & s & -> & _).
  rewrite bind_Ok. unfold g1_to_compressed. rewrite to_compressed_Ok, bind_Ok.
  destruct (schnorr.encode_succeeds R s) as (sig & -> & _). rewrite bind_Ok. by eexists.
Qed.

End ballot.

(** * Properties *)

(** C8: the validity-proof codec round-trips.  A proof of the right shape (one
    OR proof per candidate, [budget + 1] branches each, reduced scalars,
    subgroup commitments) encodes, and decodes to itself; and whatever byte
    string the decoder accepts decodes to a proof of that shape, which encodes
    to a string of the same length, the same string if the points in it are the
    encodings that the point library gives back for them. *)
Theorem bvp_codec_roundtrip `{CryptoLaws} nc budget rp e_b z_b :
  1 <= nc → 0 <= budget → budget + 1 < 2 ^ 16 →
  let shaped := len rp = nc ∧ nc < 2 ^ 16 ∧ Forall (λ p, len p = budget + 1 ∧ Forall wire_branch p) rp
    ∧ 0 <= e_b < CURVE_ORDER ∧ 0 <= z_b < CURVE_ORDER in
  (shaped → ∃ buf, encode_ballot_validity_proof rp e_b z_b = Ok buf
     ∧ decode_ballot_validity_proof buf nc budget = Ok (rp, e_b, z_b))
  ∧ (∀ buf, decode_ballot_validity_proof buf nc budget = Ok (rp, e_b, z_b) →
       shaped ∧ ∃ buf', encode_ballot_validity_proof rp e_b z_b = Ok buf' ∧ len buf' = len buf
         ∧ (canonical_points (4 + 2 * Z.to_nat nc) buf → buf' = buf)).
Proof.
  intros Hnc Hb0 Hb shaped.
  assert (Henc : shaped → encode_ballot_validity_proof rp e_b z_b = Ok (bvp_bytes rp (budget + 1) e_b z_b)).
  { intros (Hl & Hn & Hf & _). apply encode_bvp_Ok; [intros ->; unfold len in Hl; cbn in Hl; lia| |lia|lia].
    eapply Forall_impl; [exact Hf|]. by intros p [? _]. }
  split.
  - intros Hs. eexists. split; [by apply Henc|]. destruct Hs as (Hl & Hn & Hf & Her & Hzr).
    apply Forall_and in Hf as [Hf Hw]. rewrite decode_bvp_bytes by (done || lia). by rewrite !Z.mod_small.
  - intros buf (Hlen & Hcan & Hs)%decode_bvp_canonical; [|done..]. split; [exact Hs|].
    eexists. split; [by apply Henc|]. split; [unfold len; lia|]. intros Hc. by rewrite (Hcan Hc).
Qed.

(** the signed message is injective: the bytes determine the election, the
    pseudonym, every ciphertext, the proof and all of the credential, its
    signature included, so nothing a relay could change is left unsigned. *)
Theorem ballot_message_injective eid ps cts zk att eid' ps' cts' zk' att' m :
  canonical_ballot_message eid ps cts zk att = Ok m →
  canonical_ballot_message eid' ps' cts' zk' att' = Ok m →
  (eid, ps, cts, zk) = (eid', ps', cts', zk') ∧
  (att_pseudonym att, att_vk att, att_weight att, att_nonce att, att_signature att)
  = (att_pseudonym att', att_vk att', att_weight att', att_nonce att', att_signature att').
Proof.
  intros H1 H2.
  destruct (canonical_message_inj _ _ _ _ _ _ _ _ _ _ _ H1 H2)
    as (-> & -> & -> & -> & -> & -> & -> & -> & ->). done.
Qed.

(** C7: an honest voter gets a ballot and the ballot is accepted: on votes in
    range that sum to the budget, within the proof-size bound a configuration
    guarantees, [build_ballot] returns and [verify_ballot_crypto] answers
    [(True, None)] on what it returned. *)
Theorem honest_ballot_accepted `{CryptoLaws} mpk eid ps sk sk' vk att votes nc budget coins bw k :
  in_subgroup mpk → point_eq mpk Z2 = false →
  1 <= nc → 1 <= budget → nc * (budget + 1) <= 2500 →
  schnorr.keygen sk = Ok (sk', vk) → message_ok eid ps att →
  len votes = nc → Forall (λ v, 0 <= v <= budget) votes → zsum votes = budget →
  length coins = length votes → Forall (λ co, len (coin_sims co) = budget + 1) coins →
  ∃ b, build_ballot mpk eid ps sk vk att votes nc budget coins bw k = Ok b ∧
    verify_ballot_crypto mpk eid ps (bb_vk b) (bb_ciphertexts b) (bb_zk_proof b)
      (bb_voter_signature b) att nc budget = Ok (true, None).
Proof.
  intros Hm Hm0 Hnc Hb Hp Hk Hmsg Hl Hr Hs Hco Hsim.
  destruct (build_ballot_succeeds mpk eid ps sk sk' vk att votes nc budget coins bw k) as [b Eb]; try done.
  exists b. split; [done|]. eapply build_ballot_accepted; try done; nia.
Qed.

(** a ballot that is accepted with its credential raises [OverflowError]
    out of [verify_ballot_crypto] when it carries a credential whose weight
    does not fit 32 bytes: the error is not turned into a rejection. *)
Theorem overweight_ballot_raises `{CryptoLaws} mpk eid ps vkb cts zk sig att att' nc budget :
  verify_ballot_crypto mpk eid ps vkb cts zk sig att nc budget = Ok (true, None) →
  att_pseudonym att' = att_pseudonym att → att_vk att' = att_vk att →
  2 ^ 256 <= att_weight att' → 0 <= att_nonce att' →
  verify_ballot_crypto mpk eid ps vkb cts zk sig att' nc budget = Err OverflowError.
Proof. apply overweight_verify. Qed.

(** ** One ballot: two candidates, one point on the first *)

Module ballot_example.
#[local] Existing Instance concrete_crypto.

Definition mpk : pt G2ops := mul G2 5.
Definition vk : pt G1ops := mul G1 7.
Definition eid : bytes := replicate 32 Byte.x01.
Definition ps : bytes := replicate 32 Byte.x02.
Definition att (weight : Z) : Attestation :=
  mkAttestation eid ps (pt_to_compressed G1ops vk) weight (be_bytes 80 0) V1 1.
Definition coins : list VoteCoins :=
  [mkVoteCoins 3 4 [(1, 2); (3, 4)]; mkVoteCoins 5 6 [(7, 8); (9, 10)]].
Definition ballot : BuiltBallot := Eval vm_compute in
  try_or (build_ballot mpk eid ps 7 vk (att 2) [1; 0] 2 1 coins 11 12)
    (mkBuiltBallot [] [] [] [] [] [] []).
Definition verdict (weight : Z) : result (bool * option string) :=
  verify_ballot_crypto mpk eid ps (bb_vk ballot) (bb_ciphertexts ballot) (bb_zk_proof ballot)
    (bb_voter_signature ballot) (att weight) 2 1.

Lemma message_sizes w : 0 <= w < 2 ^ 256 → message_ok eid ps (att w).
Proof.
  intros Hw. unfold message_ok, att; cbn [att_pseudonym att_vk att_weight att_nonce att_signature].
  rewrite compressed_size. split_and!; try lia; vm_compute; (reflexivity || discriminate).
Qed.
End ballot_example.

(** The proof of an honest ballot decodes, and what it decodes to round-trips. *)
Lemma bvp_codec_roundtrip_witness :
  let c := concrete_crypto in
  ∃ rp e z buf, decode_ballot_validity_proof (bb_zk_proof ballot_example.ballot) 2 1 = Ok (rp, e, z)
    ∧ encode_ballot_validity_proof rp e z = Ok buf ∧ decode_ballot_validity_proof buf 2 1 = Ok (rp, e, z)
    ∧ len buf = len (bb_zk_proof ballot_example.ballot).
Proof.
  intros c.
  assert (Hok : is_ok (decode_ballot_validity_proof (bb_zk_proof ballot_example.ballot) 2 1) = true)
    by (vm_compute; reflexivity).
  destruct (decode_ballot_validity_proof (bb_zk_proof ballot_example.ballot) 2 1) as [[[rp e] z]|] eqn:E;
    [|discriminate].
  destruct (bvp_codec_roundtrip 2 1 rp e z ltac:(lia) ltac:(lia) ltac:(lia)) as [Hto Hfrom].
  destruct (Hfrom _ E) as (Hs & buf' & Hb' & Hl & _). destruct (Hto Hs) as (buf & Hb & Hd).
  rewrite Hb' in Hb. apply Ok_inj in Hb as <-. exists rp, e, z, buf'. split_and!; [reflexivity|exact Hb'|exact Hd|exact Hl].
Defined.

Lemma ballot_message_injective_witness :
  let message w := canonical_ballot_message ballot_example.eid ballot_example.ps [] []
    (ballot_example.att w) in
  is_ok (message 2) = true ∧ message 2 ≠ message 3.
Proof.
  intros message. assert (Hok : is_ok (message 2) = true) by (vm_compute; reflexivity).
  split; [exact Hok|]. intros Heq. destruct (message 2) as [m|] eqn:E; [|discriminate].
  pose proof (proj2 (ballot_message_injective _ _ _ _ _ _ _ _ _ _ m E (eq_sym Heq))) as Ha.
  cbn [att_weight ballot_example.att] in Ha. congruence.
Defined.

Lemma honest_ballot_accepted_witness :
  let c := concrete_crypto in
  ∃ b, build_ballot ballot_example.mpk ballot_example.eid ballot_example.ps 7 ballot_example.vk
      (ballot_example.att 2) [1; 0] 2 1 ballot_example.coins 11 12 = Ok b ∧
    verify_ballot_crypto ballot_example.mpk ballot_example.eid ballot_example.ps (bb_vk b)
      (bb_ciphertexts b) (bb_zk_proof b) (bb_voter_signature b) (ballot_example.att 2) 2 1
    = Ok (true, None).
Proof.
  intros c. apply (honest_ballot_accepted ballot_example.mpk ballot_example.eid ballot_example.ps 7 7).
  - vm_compute. reflexivity.
  - vm_compute. reflexivity.
  - lia.
  - lia.
  - lia.
  - vm_compute. reflexivity.
  - apply ballot_example.message_sizes. lia.
  - reflexivity.
  - repeat constructor; lia.
  - reflexivity.
  - reflexivity.
  - repeat constructor.
Defined.

Lemma overweight_ballot_raises_witness :
  let c := concrete_crypto in
  ballot_example.verdict 2 = Ok (true, None) ∧ ballot_example.verdict (2 ^ 256) = Err OverflowError.
Proof.
  intros c. assert (Hv : ballot_example.verdict 2 = Ok (true, None)) by (vm_compute; reflexivity).
  split; [exact Hv|].
  apply (overweight_ballot_raises _ _ _ _ _ _ _ (ballot_example.att 2) (ballot_example.att (2 ^ 256)) 2 1 Hv);
    [reflexivity|reflexivity|cbn [att_weight ballot_example.att]; lia|cbn [att_nonce ballot_example.att]; lia].
Defined.
