(* ===== verification/Admission.v ===== *)
(** Ballot admission (core/admission.py) with the normative attestation check
    (ports/eligibility.py): which ballots the tally counts, why each other one is
    excluded, and which of several ballots of one pseudonym wins. *)

From Stdlib Require Import Zmod.
From S2P Require Import Prelude Params Primality Field Points Transcript Elgamal Schnorr Proofs Types Config Ballot.

(** * Definitions *)

Record AdmittedBallot := mkAdmittedBallot {
  ab_sequence_number : Z;
  ab_envelope : BallotEnvelope;
  ab_weight : Z;
}.

Record AdmissionResult := mkAdmissionResult {
  admitted : list AdmittedBallot;
  exclusions : list Exclusion;
  total_admitted_weight : Z;
}.

(** ** Duplicates *)

(** [rank(sb)], compared as Python compares tuples. *)
Definition rank (sb : StoredBallot) : Z * Z :=
  (att_nonce (env_attestation (envelope sb)), sequence_number sb).

Definition rank_ltb (r s : Z * Z) : bool :=
  (r.1 <? s.1) || ((r.1 =? s.1) && (r.2 <? s.2)).

(** [r] replaces the current winner's rank [cur]. *)
Definition beats (policy : DuplicatePolicy) (r cur : Z * Z) : bool :=
  match policy with LAST_WINS => rank_ltb cur r | FIRST_WINS => rank_ltb r cur end.

Definition winner_step (policy : DuplicatePolicy) (w : dict bytes Z * dict bytes (Z * Z))
    (sb : StoredBallot) : dict bytes Z * dict bytes (Z * Z) :=
  let '(winner_seq, winner_rank) := w in
  let pseud := env_pseudonym (envelope sb) in
  let r := rank sb in
  let replaces := match dict_get winner_rank pseud with
                  | None => true
                  | Some cur => beats policy r cur
                  end in
  if replaces
  then (dict_set winner_seq pseud (sequence_number sb), dict_set winner_rank pseud r)
  else (winner_seq, winner_rank).

Definition _duplicate_losers (valid : list StoredBallot) (policy : DuplicatePolicy) : gset Z :=
  let '(winner_seq, _) := foldl (winner_step policy) ([], []) valid in
  let winners : gset Z := list_to_set (dict_values winner_seq) in
  list_to_set (filter (λ s, s ∉ winners) (sequence_number <$> valid)).

Section admission.
Context `{Crypto}.

(** ** ports/eligibility.py *)

Definition verify_attestation (eligibility_key : bytes) (attestation : Attestation)
    (election_id : bytes) : bool :=
  if negb (bool_decide (att_election_id attestation = election_id)) then false else
  if att_weight attestation <? 1 then false else
  if negb (bool_decide (att_scheme attestation = V1)) then false else
  verify_attestation_sig eligibility_key (att_election_id attestation) (att_pseudonym attestation)
    (att_vk attestation) (att_weight attestation) (att_nonce attestation)
    (att_signature attestation).

(** ** One ballot *)

Definition validate_ballot (sb : StoredBallot) (config : ElectionConfig) (mpk : pt G2ops)
  : result (option ExclusionReason) :=
  let env := envelope sb in
  let att := env_attestation env in
  if negb (bool_decide (env_election_id env = election_id config)) then Ok (Some MALFORMED) else
  if match submitted_at sb with Some t => negb (is_voting_open config t) | None => false end
  then Ok (Some OUT_OF_WINDOW) else
  if negb (bool_decide (att_election_id att = election_id config))
     || negb (bool_decide (att_pseudonym att = env_pseudonym env))
     || negb (bool_decide (att_vk att = env_vk env)) then Ok (Some INVALID_ATTESTATION) else
  if negb (verify_attestation (eligibility_key config) att (election_id config))
  then Ok (Some INVALID_ATTESTATION) else
  '(ok, reason) ← verify_ballot_crypto mpk (env_election_id env) (env_pseudonym env) (env_vk env)
      ((λ ct, (c1 ct, c2 ct)) <$> env_ciphertexts env) (env_zk_proof env) (env_voter_signature env)
      att (num_candidates config) (budget config);
  if negb ok then
    match reason with
    | Some r =>
        if (r =? "INVALID_SIGNATURE_PRE_V2")%string then Ok (Some INVALID_SIGNATURE) else
        r ← reason_of_string r; Ok (Some r)
    | None => Err ValueError
    end
  else Ok None.

(** ** All ballots *)

(** The validation loop: exclusions and valid ballots, both in list order. *)
Definition validate_step (config : ElectionConfig) (mpk : pt G2ops)
    (st : list Exclusion * list StoredBallot) (sb : StoredBallot)
  : result (list Exclusion * list StoredBallot) :=
  let '(exclusions, valid) := st in
  reason ← validate_ballot sb config mpk;
  Ok (match reason with
      | None => (exclusions, valid ++ [sb])
      | Some r => (exclusions ++ [mkExclusion (sequence_number sb) r], valid)
      end).

(** The duplicate loop. *)
Definition admit_step (losers : gset Z) (st : list Exclusion * list AdmittedBallot)
    (sb : StoredBallot) : list Exclusion * list AdmittedBallot :=
  let '(exclusions, admitted) := st in
  if bool_decide (sequence_number sb ∈ losers)
  then (exclusions ++ [mkExclusion (sequence_number sb) DUPLICATE_PSEUDONYM], admitted)
  else (exclusions, admitted ++ [mkAdmittedBallot (sequence_number sb) (envelope sb)
          (att_weight (env_attestation (envelope sb)))]).

Definition exclusion_le (a b : Exclusion) : Prop := exc_sequence_number a <= exc_sequence_number b.
#[export] Instance exclusion_le_dec a b : Decision (exclusion_le a b) := Z_le_dec _ _.

Definition admit_ballots (ballots : list StoredBallot) (config : ElectionConfig) (mpk_bytes : bytes)
  : result AdmissionResult :=
  mpk ← g2_from_compressed mpk_bytes;
  '(excl, valid) ← foldM (validate_step config mpk) ballots ([], []);
  let losers := _duplicate_losers valid (duplicate_policy config) in
  let '(excl, adm) := foldl (admit_step losers) (excl, []) valid in
  Ok (mkAdmissionResult adm (merge_sort exclusion_le excl) (zsum_with ab_weight adm)).

(** * The specification of admission *)

Section spec.
Context (config : ElectionConfig) (mpk : pt G2ops).

Definition valid_ballot (sb : StoredBallot) : Prop := validate_ballot sb config mpk = Ok None.
#[export] Instance valid_ballot_dec sb : Decision (valid_ballot sb) := decide (_ = _).

Definition pseudonym (sb : StoredBallot) : bytes := env_pseudonym (envelope sb).

(** A ballot counts when it is valid and no valid ballot of its pseudonym
    beats it. *)
Definition counted (ballots : list StoredBallot) (sb : StoredBallot) : Prop :=
  valid_ballot sb ∧
  Forall (λ sb', valid_ballot sb' → pseudonym sb' = pseudonym sb →
    beats (duplicate_policy config) (rank sb') (rank sb) = false) ballots.
#[export] Instance counted_dec ballots sb : Decision (counted ballots sb) := and_dec _ _.

Definition to_admitted (sb : StoredBallot) : AdmittedBallot :=
  mkAdmittedBallot (sequence_number sb) (envelope sb) (att_weight (env_attestation (envelope sb))).

(** Why a ballot is excluded, if it is. *)
Definition exclusion_of (ballots : list StoredBallot) (sb : StoredBallot) : option Exclusion :=
  match validate_ballot sb config mpk with
  | Ok (Some r) => Some (mkExclusion (sequence_number sb) r)
  | _ => if decide (counted ballots sb) then None
         else Some (mkExclusion (sequence_number sb) DUPLICATE_PSEUDONYM)
  end.

Definition admission_spec (ballots : list StoredBallot) : AdmissionResult :=
  let adm := to_admitted <$> filter (counted ballots) ballots in
  mkAdmissionResult adm (merge_sort exclusion_le (omap (exclusion_of ballots) ballots))
    (zsum_with ab_weight adm).

End spec.

(** * Winners *)

Lemma rank_ltb_irrefl r : rank_ltb r r = false.
Proof. unfold rank_ltb. rewrite !Z.ltb_irrefl. by rewrite Z.eqb_refl. Qed.

Lemma rank_ltb_spec r s : rank_ltb r s = true ↔ r.1 < s.1 ∨ (r.1 = s.1 ∧ r.2 < s.2).
Proof. unfold rank_ltb. rewrite orb_true_iff, andb_true_iff, !Z.ltb_lt, Z.eqb_eq. done. Qed.

Lemma beats_irrefl policy r : beats policy r r = false.
Proof. destruct policy; apply rank_ltb_irrefl. Qed.

Lemma beats_trans policy r s t : beats policy r s = true → beats policy s t = true → beats policy r t = true.
Proof. destruct policy; unfold beats; rewrite !rank_ltb_spec; lia. Qed.

Lemma beats_total policy r s : beats policy r s = false → beats policy s r = false → r = s.
Proof.
  destruct policy, r as [a b], s as [c d]; unfold beats; rewrite <- !not_true_iff_false, !rank_ltb_spec;
    cbn [fst snd]; intros H1 H2; f_equal; lia.
Qed.

(** [a] is not beaten by [b] and [b] not by [c]. *)
Lemma beats_le_trans policy r s t : beats policy r s = false → beats policy s t = false → beats policy r t = false.
Proof.
  destruct policy; unfold beats; rewrite <- !not_true_iff_false, !rank_ltb_spec; lia.
Qed.

Definition wins (policy : DuplicatePolicy) (l : list StoredBallot) (sb : StoredBallot) : Prop :=
  sb ∈ l ∧ ∀ sb', sb' ∈ l → pseudonym sb' = pseudonym sb → beats policy (rank sb') (rank sb) = false.

Definition winners_ok (policy : DuplicatePolicy) (l : list StoredBallot)
    (w : dict bytes Z * dict bytes (Z * Z)) : Prop :=
  (∀ p, dict_get w.1 p = snd <$> dict_get w.2 p) ∧
  (∀ p r, dict_get w.2 p = Some r → ∃ sb, wins policy l sb ∧ pseudonym sb = p ∧ rank sb = r) ∧
  (∀ sb, sb ∈ l → is_Some (dict_get w.2 (pseudonym sb))) ∧
  NoDup (dict_keys w.1).

(** A ballot of another pseudonym changes no winner. *)
Lemma wins_snoc policy l x sb : wins policy l sb →
  (pseudonym x = pseudonym sb → beats policy (rank x) (rank sb) = false) → wins policy (l ++ [x]) sb.
Proof.
  intros [Hin Hmax] Hx. split; [set_solver|].
  intros sb' [?| ->%list_elem_of_singleton]%elem_of_app; [by apply Hmax|done].
Qed.

Lemma winner_set_ok policy l ws wr sb :
  winners_ok policy l (ws, wr) →
  (∀ sb', sb' ∈ l → pseudonym sb' = pseudonym sb → beats policy (rank sb') (rank sb) = false) →
  winners_ok policy (l ++ [sb])
    (dict_set ws (pseudonym sb) (sequence_number sb), dict_set wr (pseudonym sb) (rank sb)).
Proof.
  intros (Hs & Hw & Hd & Hn) Hmax. unfold winners_ok. cbn [fst snd] in *. split_and!.
  - intros p. rewrite !dict_get_set. case_decide; [done|apply Hs].
  - intros p r. rewrite dict_get_set. case_decide as Hp.
    + intros [= <-]. subst p. exists sb. split_and!; [|done|done]. split; [set_solver|].
      intros sb' [?| ->%list_elem_of_singleton]%elem_of_app; [by apply Hmax|]. intros _. apply beats_irrefl.
    + intros (sb' & Hsb' & <- & <-)%Hw. exists sb'. split_and!; [|done|done].
      apply wins_snoc; [done|]. congruence.
  - intros sb' Hin. rewrite dict_get_set. case_decide as Hp; [by eexists|].
    apply elem_of_app in Hin as [?| ->%list_elem_of_singleton]; [by apply Hd|done].
  - by apply dict_set_NoDup.
Qed.

Lemma winner_step_ok policy l w sb :
  winners_ok policy l w → winners_ok policy (l ++ [sb]) (winner_step policy w sb).
Proof.
  destruct w as [ws wr]. intros Hok. pose proof Hok as (Hs & Hw & Hd & Hn). unfold winner_step.
  fold (pseudonym sb). cbn [fst snd] in *.
  destruct (dict_get wr (pseudonym sb)) as [cur|] eqn:Hcur; [destruct (beats policy (rank sb) cur) eqn:Hb|].
  - apply winner_set_ok; [done|]. intros sb' Hin Hp.
    apply Hw in Hcur as (sbw & [_ Hmax] & Hpw & <-). specialize (Hmax sb' Hin ltac:(congruence)).
    destruct (beats policy (rank sb') (rank sb)) eqn:E; [|done].
    by rewrite (beats_trans _ _ _ _ E Hb) in Hmax.
  - split_and!; cbn [fst snd]; [done| | |done].
    + intros p r Hr. destruct (Hw p r Hr) as (sb' & Hsb' & <- & <-). exists sb'.
      split_and!; [|done|done]. apply wins_snoc; [done|]. intros Hp. rewrite <- Hp in Hr. congruence.
    + intros sb' [?| ->%list_elem_of_singleton]%elem_of_app; [by apply Hd|]. by eexists.
  - apply winner_set_ok; [done|]. intros sb' Hin Hp. apply Hd in Hin as [r Hr]. congruence.
Qed.

Lemma winners_fold policy l :
  winners_ok policy l (foldl (winner_step policy) ([], []) l).
Proof.
  induction l as [|sb l IH] using rev_ind.
  - split_and!; [done|done| |constructor]. intros sb ?%not_elem_of_nil. done.
  - rewrite foldl_app. by apply winner_step_ok.
Qed.

Lemma seq_inj (l : list StoredBallot) x y : NoDup (sequence_number <$> l) → x ∈ l → y ∈ l →
  sequence_number x = sequence_number y → x = y.
Proof.
  intros Hn [i Hi]%list_elem_of_lookup [j Hj]%list_elem_of_lookup He.
  assert (i = j) as ->; [|congruence].
  eapply (NoDup_lookup _ i j _ Hn); rewrite list_lookup_fmap; [by rewrite Hi|]. rewrite Hj. cbn. by rewrite He.
Qed.

Lemma NoDup_fmap_filter {A B} (f : A → B) (P : A → Prop) `{∀ x, Decision (P x)} (l : list A) :
  NoDup (f <$> l) → NoDup (f <$> filter P l).
Proof.
  induction l as [|x l IH]; [done|]. rewrite fmap_cons, filter_cons. intros [Hx Hl]%NoDup_cons.
  case_decide; [|by apply IH]. rewrite fmap_cons. constructor; [|by apply IH].
  intros (y & Hy & [_ Hin]%list_elem_of_filter)%list_elem_of_fmap. apply Hx, list_elem_of_fmap. eauto.
Qed.

(** On distinct sequence numbers the losers are the ballots that do not win. *)
Lemma duplicate_losers_spec policy l sb : NoDup (sequence_number <$> l) → sb ∈ l →
  sequence_number sb ∈ _duplicate_losers l policy ↔ ¬ wins policy l sb.
Proof.
  intros Hn Hin. unfold _duplicate_losers.
  pose proof (winners_fold policy l) as (Hs & Hw & Hd & Hk).
  destruct (foldl _ _ _) as [ws wr]. cbn [fst snd] in *.
  rewrite elem_of_list_to_set, list_elem_of_filter, elem_of_list_to_set.
  assert (Hiff : sequence_number sb ∈ dict_values ws ↔ wins policy l sb).
  { unfold dict_values. rewrite list_elem_of_fmap. split.
    - intros ([p s] & Hsq & Hps). apply elem_dict_get in Hps; [|done]. rewrite Hs in Hps.
      apply fmap_Some in Hps as (r & Hr & ->). apply Hw in Hr as (sb' & Hsb' & <- & <-).
      cbn in Hsq. by rewrite (seq_inj l sb sb') by (done || apply Hsb').
    - intros [_ Hmax]. destruct (Hd sb Hin) as [r Hr].
      exists (pseudonym sb, r.2). split.
      + apply Hw in Hr as (sb' & [Hin' Hmax'] & Hp & <-). cbn.
        pose proof (Hmax sb' Hin' Hp). pose proof (Hmax' sb Hin (eq_sym Hp)).
        by assert (rank sb = rank sb') as [= _ ->] by (by eapply beats_total).
      + apply dict_get_elem. by rewrite Hs, Hr. }
  rewrite Hiff. split; [by intros []|]. intros ?. split; [done|]. by apply list_elem_of_fmap_2.
Qed.

(** * Refinement *)

Section refinement.
Context (config : ElectionConfig) (mpk : pt G2ops).
Let valid := valid_ballot config mpk.

(** The exclusion of an invalid ballot. *)
Definition invalid_of (sb : StoredBallot) : option Exclusion :=
  match validate_ballot sb config mpk with
  | Ok (Some r) => Some (mkExclusion (sequence_number sb) r)
  | _ => None
  end.

Definition validated (sb : StoredBallot) : Prop := is_ok (validate_ballot sb config mpk) = true.

Lemma validate_loop ballots e0 v0 : Forall validated ballots →
  foldM (validate_step config mpk) ballots (e0, v0)
  = Ok (e0 ++ omap invalid_of ballots, v0 ++ filter valid ballots).
Proof.
  intros Hok. revert e0 v0. induction Hok as [|sb l Hsb _ IH]; intros e0 v0.
  - cbn. by rewrite !app_nil_r.
  - cbn [foldM validate_step]. unfold validated in Hsb.
    destruct (validate_ballot sb config mpk) as [[r|]|] eqn:Hv; [| |done]; rewrite !bind_Ok, IH.
    + rewrite filter_cons_False by (unfold valid, valid_ballot; congruence).
      cbn [omap list_omap]. unfold invalid_of at 2. rewrite Hv. by rewrite <- app_assoc.
    + rewrite filter_cons_True by done.
      cbn [omap list_omap]. unfold invalid_of at 2. rewrite Hv. by rewrite <- app_assoc.
Qed.

Lemma validate_loop_Ok ballots st r :
  foldM (validate_step config mpk) ballots st = Ok r → Forall validated ballots.
Proof.
  revert st. induction ballots as [|sb l IH]; intros [e v] Hf; [constructor|].
  cbn [foldM] in Hf. apply bind_Ok_inv in Hf as (st & Hst & Hf). unfold validate_step in Hst.
  apply bind_Ok_inv in Hst as (x & Hx & _). constructor; [by unfold validated; rewrite Hx|]. eauto.
Qed.

(** The duplicate loop, in terms of the winners of the valid ballots. *)
Lemma admit_loop losers (P : StoredBallot → Prop) `{∀ sb, Decision (P sb)} l e0 a0 :
  (∀ sb, sb ∈ l → sequence_number sb ∈ losers ↔ ¬ P sb) →
  foldl (admit_step losers) (e0, a0) l
  = (e0 ++ ((λ sb, mkExclusion (sequence_number sb) DUPLICATE_PSEUDONYM) <$> filter (λ sb, ¬ P sb) l),
     a0 ++ (to_admitted <$> filter P l)).
Proof.
  revert e0 a0. induction l as [|sb l IH]; intros e0 a0 Hl.
  - cbn. by rewrite !app_nil_r.
  - cbn [foldl admit_step]. pose proof (Hl sb ltac:(left)) as Hsb.
    destruct (decide (P sb)) as [HP|HP].
    + rewrite bool_decide_eq_false_2 by tauto. rewrite IH by set_solver.
      rewrite (filter_cons_True P), (filter_cons_False (λ sb, ¬ P sb)) by (cbn; tauto). cbn. by rewrite <- app_assoc.
    + rewrite bool_decide_eq_true_2 by tauto. rewrite IH by set_solver.
      rewrite (filter_cons_False P), (filter_cons_True (λ sb, ¬ P sb)) by (cbn; tauto). cbn. by rewrite <- app_assoc.
Qed.

Lemma wins_counted ballots sb : sb ∈ ballots →
  counted config mpk ballots sb ↔ valid sb ∧ wins (duplicate_policy config) (filter valid ballots) sb.
Proof.
  intros Hin. unfold counted, wins. rewrite Forall_forall. split.
  - intros [Hv Hmax]. split; [done|]. split; [by apply list_elem_of_filter|].
    intros sb' [Hv' Hin']%list_elem_of_filter. by apply Hmax.
  - intros [Hv [_ Hmax]]. split; [done|]. intros sb' Hin' Hv'. apply Hmax, list_elem_of_filter. done.
Qed.

Lemma exclusions_Permutation ballots l : Forall validated l →
  omap invalid_of l ++ ((λ sb, mkExclusion (sequence_number sb) DUPLICATE_PSEUDONYM)
    <$> filter (λ sb, ¬ counted config mpk ballots sb) (filter valid l))
  ≡ₚ omap (exclusion_of config mpk ballots) l.
Proof.
  induction 1 as [|sb l Hsb _ IH]; [done|]. unfold validated in Hsb.
  cbn [omap list_omap]. unfold invalid_of at 1, exclusion_of at 1.
  destruct (validate_ballot sb config mpk) as [[r|]|] eqn:Hv; [| |done].
  - rewrite (filter_cons_False valid) by (unfold valid, valid_ballot; congruence). cbn. by rewrite IH.
  - rewrite (filter_cons_True valid) by done. case_decide as Hc.
    + by rewrite filter_cons_False by (cbn; tauto).
    + rewrite filter_cons_True by (cbn; tauto). rewrite fmap_cons. rewrite <- IH. by rewrite <- Permutation_middle.
Qed.

Lemma exclusion_of_seq ballots sb x : exclusion_of config mpk ballots sb = Some x →
  exc_sequence_number x = sequence_number sb.
Proof.
  unfold exclusion_of. intros Hx. repeat case_match; try case_decide; naive_solver.
Qed.

#[export] Instance exclusion_le_trans : Transitive exclusion_le.
Proof. intros x y z. unfold exclusion_le. lia. Qed.
#[export] Instance exclusion_le_total : Total exclusion_le.
Proof. intros x y. unfold exclusion_le. lia. Qed.

(** Sorting by sequence number is canonical on distinct numbers. *)
Lemma merge_sort_exclusions (l k : list Exclusion) :
  NoDup (exc_sequence_number <$> l) → l ≡ₚ k → merge_sort exclusion_le l = merge_sort exclusion_le k.
Proof.
  intros Hn Hp. apply (Sorted_unique_strong exclusion_le).
  - intros x y Hx Hy Hxy Hyx. rewrite merge_sort_Permutation in Hx, Hy. rewrite <- Hp in Hy.
    unfold exclusion_le in Hxy, Hyx.
    apply list_elem_of_lookup in Hx as [i Hi], Hy as [j Hj].
    assert (i = j) as ->; [|congruence].
    eapply (NoDup_lookup _ i j (exc_sequence_number x) Hn); rewrite list_lookup_fmap, ?Hi, ?Hj; [done|].
    cbn. f_equal. lia.
  - apply (Sorted_merge_sort _).
  - apply (Sorted_merge_sort _).
  - by rewrite !merge_sort_Permutation.
Qed.

Lemma omap_seq_NoDup (f : StoredBallot → option Exclusion) l :
  (∀ sb x, f sb = Some x → exc_sequence_number x = sequence_number sb) →
  NoDup (sequence_number <$> l) → NoDup (exc_sequence_number <$> omap f l).
Proof.
  intros Hf. induction l as [|sb l IH]; [done|]. rewrite fmap_cons. intros [Hn Hd]%NoDup_cons.
  cbn [omap list_omap]. destruct (f sb) as [x|] eqn:Hx; [|by apply IH].
  rewrite fmap_cons. constructor; [|by apply IH]. rewrite (Hf _ _ Hx).
  intros (y & Hy & (sb' & Hin & Hfy)%list_elem_of_omap)%list_elem_of_fmap. apply Hn, list_elem_of_fmap.
  exists sb'. split; [|done]. by rewrite Hy, (Hf _ _ Hfy).
Qed.

Lemma admit_refines_mpk ballots mpk_bytes :
  g2_from_compressed mpk_bytes = Ok mpk → NoDup (sequence_number <$> ballots) →
  Forall validated ballots →
  admit_ballots ballots config mpk_bytes = Ok (admission_spec config mpk ballots).
Proof.
  intros Hm Hn Hok. unfold admit_ballots. rewrite Hm, bind_Ok, validate_loop, bind_Ok by done. cbn [app].
  assert (Hnv : NoDup (sequence_number <$> filter valid ballots)).
  { by apply NoDup_fmap_filter. }
  rewrite (admit_loop _ (counted config mpk ballots)).
  - cbn [app]. unfold admission_spec. do 2 f_equal.
    + f_equal. apply list_filter_filter_l. by intros sb [? _].
    + apply merge_sort_exclusions; rewrite exclusions_Permutation by done; [|done].
      apply omap_seq_NoDup; [apply exclusion_of_seq|done].
    + by rewrite list_filter_filter_l by (by intros sb [? _]).
  - intros sb Hin. rewrite duplicate_losers_spec by done.
    apply list_elem_of_filter in Hin as [Hv Hin]. rewrite wins_counted by done. tauto.
Qed.

End refinement.

(** [admit_ballots] computes the specification; it raises only when the key does not
    decode or a ballot's validation raises. *)
Lemma admit_Ok_iff ballots config mpk_bytes res : NoDup (sequence_number <$> ballots) →
  admit_ballots ballots config mpk_bytes = Ok res ↔
  ∃ mpk, g2_from_compressed mpk_bytes = Ok mpk ∧ Forall (validated config mpk) ballots ∧
    res = admission_spec config mpk ballots.
Proof.
  intros Hn. split.
  - intros Ha. pose proof Ha as Ha'. unfold admit_ballots in Ha. apply bind_Ok_inv in Ha as (mpk & Hm & Ha).
    apply bind_Ok_inv in Ha as (st & Hf & _). apply validate_loop_Ok in Hf.
    exists mpk. split_and!; [done|done|]. rewrite (admit_refines_mpk config mpk) in Ha' by done. congruence.
  - intros (mpk & Hm & Hok & ->). by apply admit_refines_mpk.
Qed.

(** * Consequences of the specification *)

Section consequences.
Context (config : ElectionConfig) (mpk : pt G2ops).

Lemma counted_or_excluded ballots l :
  (sequence_number <$> filter (counted config mpk ballots) l)
  ++ (exc_sequence_number <$> omap (exclusion_of config mpk ballots) l) ≡ₚ sequence_number <$> l.
Proof.
  induction l as [|sb l IH]; [done|]. rewrite filter_cons, fmap_cons. cbn [omap list_omap].
  destruct (exclusion_of config mpk ballots sb) as [x|] eqn:Hx.
  - rewrite decide_False. 2: { intros [Hv Hf]. unfold exclusion_of in Hx. rewrite Hv in Hx.
      case_decide as Hc; [done|]. by apply Hc. }
    rewrite fmap_cons, (exclusion_of_seq _ _ _ _ _ Hx), <- Permutation_middle. by rewrite IH.
  - rewrite decide_True. 2: { unfold exclusion_of in Hx. repeat case_match; try done; by case_decide. }
    rewrite fmap_cons. cbn [app]. by rewrite IH.
Qed.

(** Two counted ballots of one pseudonym have the same rank, hence the same
    sequence number. *)
Lemma counted_unique ballots x y : x ∈ ballots → y ∈ ballots →
  counted config mpk ballots x → counted config mpk ballots y → pseudonym x = pseudonym y →
  sequence_number x = sequence_number y.
Proof.
  intros Hx Hy [Vx Fx] [Vy Fy] Hp. rewrite Forall_forall in Fx. rewrite Forall_forall in Fy.
  assert (rank x = rank y) as [= _ ->]; [|done].
  eapply beats_total; [apply Fy|apply Fx]; done.
Qed.

Lemma counted_pseudonyms_NoDup ballots : NoDup (sequence_number <$> ballots) →
  NoDup (pseudonym <$> filter (counted config mpk ballots) ballots).
Proof.
  intros Hn. apply NoDup_fmap_2_strong.
  - intros x y [Cx Hx]%list_elem_of_filter [Cy Hy]%list_elem_of_filter Hp.
    eapply seq_inj; [exact Hn|done|done|]. by eapply counted_unique.
  - apply NoDup_filter. by eapply NoDup_fmap_1.
Qed.

(** Every pseudonym with a valid ballot has a counted one. *)
Lemma valid_represented ballots sb : sb ∈ ballots → valid_ballot config mpk sb →
  ∃ sb', sb' ∈ ballots ∧ counted config mpk ballots sb' ∧ pseudonym sb' = pseudonym sb.
Proof.
  intros Hin Hv. pose proof (winners_fold (duplicate_policy config) (filter (valid_ballot config mpk) ballots))
    as (_ & Hw & Hd & _).
  destruct (Hd sb) as [r Hr]; [by apply list_elem_of_filter|].
  apply Hw in Hr as (sb' & Hwin & Hp & _). exists sb'.
  assert (Hin' : sb' ∈ ballots) by (destruct Hwin as [[_ ?]%list_elem_of_filter _]; done).
  split_and!; [done| |done]. apply wins_counted; [done|].
  split; [|done]. destruct Hwin as [[? _]%list_elem_of_filter _]; done.
Qed.

(** A ballot beaten by another one of its pseudonym changes nothing that is
    counted, wherever it stands. *)
Lemma counted_beaten l1 x l2 sb : sb ∈ l1 ++ l2 → valid_ballot config mpk sb →
  pseudonym x = pseudonym sb → beats (duplicate_policy config) (rank sb) (rank x) = true →
  filter (counted config mpk (l1 ++ x :: l2)) (l1 ++ x :: l2)
  = filter (counted config mpk (l1 ++ l2)) (l1 ++ l2).
Proof.
  intros Hin Hv Hp Hb.
  assert (Hiff : ∀ y, counted config mpk (l1 ++ x :: l2) y ↔ counted config mpk (l1 ++ l2) y).
  { intros y. unfold counted. rewrite !Forall_app, Forall_cons. split; [tauto|].
    intros (Vy & F1 & F2). split_and!; try done. intros Vx Hpx.
    assert (Hsb : beats (duplicate_policy config) (rank sb) (rank y) = false).
    { apply elem_of_app in Hin as [Hi|Hi]; [rewrite Forall_forall in F1; apply F1|
        rewrite Forall_forall in F2; apply F2]; congruence. }
    destruct (beats (duplicate_policy config) (rank x) (rank y)) eqn:E; [|done].
    by rewrite (beats_trans _ _ _ _ Hb E) in Hsb. }
  rewrite (list_filter_iff _ _ _ Hiff). rewrite !filter_app, filter_cons_False; [done|].
  intros [Vx Fx]. assert (beats (duplicate_policy config) (rank sb) (rank x) = false); [|congruence].
  rewrite Forall_forall in Fx. by apply Fx.
Qed.

Lemma validated_app l1 l2 : Forall (validated config mpk) (l1 ++ l2) ↔
  Forall (validated config mpk) l1 ∧ Forall (validated config mpk) l2.
Proof. apply Forall_app. Qed.

(** The first ballot whose validation raises stops admission. *)
Lemma admit_raises l1 x l2 mpk_bytes e : g2_from_compressed mpk_bytes = Ok mpk →
  Forall (validated config mpk) l1 → validate_ballot x config mpk = Err e →
  admit_ballots (l1 ++ x :: l2) config mpk_bytes = Err e.
Proof.
  intros Hm Hok Hx. unfold admit_ballots. rewrite Hm, bind_Ok, foldM_app, validate_loop, bind_Ok by done.
  cbn [foldM validate_step]. by rewrite Hx.
Qed.

End consequences.

(** ** A credential whose weight does not fit the signed message *)

Definition set_weight (sb : StoredBallot) (w : Z) : StoredBallot :=
  let env := envelope sb in
  let att := env_attestation env in
  mkStoredBallot (sequence_number sb)
    (mkBallotEnvelope (env_election_id env) (env_pseudonym env) (env_vk env) (env_ciphertexts env)
       (env_zk_proof env) (env_voter_signature env)
       (mkAttestation (att_election_id att) (att_pseudonym att) (att_vk att) w (att_signature att)
          (att_scheme att) (att_nonce att)))
    (submitted_at sb).

Context `{!CryptoLaws}.

Lemma validate_ballot_Ok_inv sb config mpk : validate_ballot sb config mpk = Ok None →
  let env := envelope sb in let att := env_attestation env in
  env_election_id env = election_id config ∧
  (∀ t, submitted_at sb = Some t → is_voting_open config t = true) ∧
  att_election_id att = election_id config ∧ att_pseudonym att = env_pseudonym env ∧
  att_vk att = env_vk env ∧
  verify_attestation (eligibility_key config) att (election_id config) = true ∧
  verify_ballot_crypto mpk (env_election_id env) (env_pseudonym env) (env_vk env)
    ((λ ct, (c1 ct, c2 ct)) <$> env_ciphertexts env) (env_zk_proof env) (env_voter_signature env)
    att (num_candidates config) (budget config) = Ok (true, None).
Proof.
  intros Hv env att. unfold validate_ballot in Hv. fold env in Hv. fold att in Hv.
  destruct (bool_decide (env_election_id env = election_id config)) eqn:E1; [|done]. cbn [negb] in Hv.
  destruct (match submitted_at sb with Some t => _ | None => _ end) eqn:E2; [done|].
  destruct (bool_decide (att_election_id att = election_id config)) eqn:E3; [|done].
  destruct (bool_decide (att_pseudonym att = env_pseudonym env)) eqn:E4; [|done].
  destruct (bool_decide (att_vk att = env_vk env)) eqn:E5; [|done]. cbn [negb orb] in Hv.
  destruct (verify_attestation _ _ _) eqn:E6; [|done]. cbn [negb] in Hv.
  apply bind_Ok_inv in Hv as ([ok reason] & Hc & Hv).
  apply bool_decide_eq_true_1 in E1, E3, E4, E5. split_and!; try done.
  - intros t Ht. rewrite Ht in E2. by apply negb_false_iff in E2.
  - rewrite Hc. destruct ok; cbn [negb] in Hv.
    + by rewrite (verify_true_None _ _ _ _ _ _ _ _ _ _ _ Hc).
    + destruct reason as [r|]; [|done]. case_match; [done|]. apply bind_Ok_inv in Hv as (? & _ & ?). done.
Qed.

Lemma verify_attestation_weight key att eid w' : 1 <= w' → att_weight att ≡q w' →
  verify_attestation key att eid = true →
  verify_attestation key (mkAttestation (att_election_id att) (att_pseudonym att) (att_vk att) w'
    (att_signature att) (att_scheme att) (att_nonce att)) eid = true.
Proof.
  intros Hw Heq. unfold verify_attestation.
  cbn [att_election_id att_pseudonym att_vk att_weight att_signature att_scheme att_nonce].
  case_bool_decide; [|done]. cbn [negb]. destruct (Z.ltb_spec (att_weight att) 1); [done|].
  rewrite (proj2 (Z.ltb_ge w' 1)) by done. case_bool_decide; [|done]. cbn [negb]. intros Hv.
  pose proof (verify_attestation_sig_true _ _ _ _ _ _ _ Hv) as (_ & _ & _ & _ & Hn & _).
  eapply verify_attestation_sig_eqq; [done|exact Hn|exact Heq|reflexivity|exact Hv].
Qed.

Lemma overweight_validate sb config mpk w' : validate_ballot sb config mpk = Ok None →
  2 ^ 256 <= w' → att_weight (env_attestation (envelope sb)) ≡q w' →
  validate_ballot (set_weight sb w') config mpk = Err OverflowError.
Proof.
  intros Hv Hw Heq.
  destruct (validate_ballot_Ok_inv _ _ _ Hv) as (E1 & E2 & E3 & E4 & E5 & Ha & Hc).
  pose proof (verify_attestation_weight _ _ _ w' ltac:(lia) Heq Ha) as Ha'.
  unfold validate_ballot, set_weight. cbn [envelope submitted_at env_election_id env_pseudonym env_vk
    env_ciphertexts env_zk_proof env_voter_signature env_attestation att_election_id att_pseudonym att_vk].
  rewrite (bool_decide_eq_true_2 _ E1), (bool_decide_eq_true_2 _ E3), (bool_decide_eq_true_2 _ E4),
    (bool_decide_eq_true_2 _ E5), Ha'. cbn [negb orb].
  assert (Hn : 1 <= att_nonce (env_attestation (envelope sb))).
  { unfold verify_attestation in Ha. repeat case_match; try done.
    by apply verify_attestation_sig_true in Ha as (_ & _ & _ & _ & ? & _). }
  assert (Hwin : match submitted_at sb with Some t => negb (is_voting_open config t) | None => false end = false).
  { destruct (submitted_at sb) as [t|]; [|done]. by rewrite (E2 t eq_refl). }
  rewrite Hwin. erewrite overweight_verify; [done|exact Hc|done|done|done|cbn; lia].
Qed.

End admission.

(** * Properties *)

(** C4: admission computes its specification: when the key decodes and no
    ballot's validation raises, the admitted ballots are exactly the counted
    ones (valid, and unbeaten among the valid ballots of their pseudonym under
    the duplicate policy), in list order and with their attested weights, every
    other ballot is excluded with its own reason, and the total is the sum of
    the weights; in every other case [admit_ballots] raises. *)
Theorem admit_refines_spec `{Crypto} ballots config mpk_bytes res :
  NoDup (sequence_number <$> ballots) →
  admit_ballots ballots config mpk_bytes = Ok res ↔
  ∃ mpk, g2_from_compressed mpk_bytes = Ok mpk ∧
    Forall (λ sb, is_ok (validate_ballot sb config mpk) = true) ballots ∧
    res = admission_spec config mpk ballots.
Proof. apply admit_Ok_iff. Qed.

(** admission partitions the ballots: every sequence number is admitted or
    excluded, exactly once, and the exclusions come sorted. *)
Theorem admit_partitions `{Crypto} ballots config mpk_bytes res :
  NoDup (sequence_number <$> ballots) → admit_ballots ballots config mpk_bytes = Ok res →
  (ab_sequence_number <$> admitted res) ++ (exc_sequence_number <$> exclusions res)
    ≡ₚ sequence_number <$> ballots ∧ Sorted exclusion_le (exclusions res).
Proof.
  intros Hn (mpk & _ & _ & ->)%admit_Ok_iff; [|done]. cbn [admitted exclusions admission_spec].
  split; [|apply (Sorted_merge_sort _)]. rewrite merge_sort_Permutation, <- list_fmap_compose.
  apply counted_or_excluded.
Qed.

(** C5: one ballot per voter: no pseudonym is admitted twice, every admitted
    ballot is a valid stored ballot that no valid ballot of its pseudonym
    beats, and every pseudonym with a valid ballot is represented. *)
Theorem one_ballot_per_pseudonym `{Crypto} ballots config mpk_bytes mpk res :
  NoDup (sequence_number <$> ballots) → g2_from_compressed mpk_bytes = Ok mpk →
  admit_ballots ballots config mpk_bytes = Ok res →
  NoDup ((λ a, env_pseudonym (ab_envelope a)) <$> admitted res) ∧
  (∀ a, a ∈ admitted res → ∃ sb, sb ∈ ballots ∧ a = to_admitted sb ∧
     validate_ballot sb config mpk = Ok None ∧
     ∀ sb', sb' ∈ ballots → validate_ballot sb' config mpk = Ok None → pseudonym sb' = pseudonym sb →
       beats (duplicate_policy config) (rank sb') (rank sb) = false) ∧
  (∀ sb, sb ∈ ballots → validate_ballot sb config mpk = Ok None →
     ∃ a, a ∈ admitted res ∧ env_pseudonym (ab_envelope a) = pseudonym sb).
Proof.
  intros Hn Hm (mpk' & Hm' & _ & ->)%admit_Ok_iff; [|done].
  assert (mpk' = mpk) as -> by congruence. clear Hm'.
  cbn [admitted admission_spec]. split_and!.
  - rewrite <- list_fmap_compose. by apply counted_pseudonyms_NoDup.
  - intros a (sb & -> & [[Hv Hf] Hin]%list_elem_of_filter)%list_elem_of_fmap. exists sb.
    rewrite Forall_forall in Hf. by split_and!.
  - intros sb Hin Hv. destruct (valid_represented config mpk ballots sb Hin Hv) as (sb' & Hin' & Hc & Hp).
    exists (to_admitted sb'). split; [|done]. apply list_elem_of_fmap_2. by apply list_elem_of_filter.
Qed.

(** C6: a replay cannot override the vote that counts: storing a ballot whose
    attested nonce the duplicate policy ranks behind that of a valid ballot of the
    same pseudonym (a lower nonce under last-wins, a higher one under
    first-wins), at any position in the order and with any sequence number,
    leaves the admitted ballots and the total as they were. *)
Theorem replay_never_counts `{Crypto} l1 old l2 config mpk_bytes mpk res new :
  NoDup (sequence_number <$> l1 ++ old :: l2) → g2_from_compressed mpk_bytes = Ok mpk →
  new ∈ l1 ++ l2 → validate_ballot new config mpk = Ok None → pseudonym old = pseudonym new →
  (let n sb := att_nonce (env_attestation (envelope sb)) in
   match duplicate_policy config with LAST_WINS => n old < n new | FIRST_WINS => n new < n old end) →
  admit_ballots (l1 ++ old :: l2) config mpk_bytes = Ok res →
  ∃ res0, admit_ballots (l1 ++ l2) config mpk_bytes = Ok res0 ∧ admitted res = admitted res0 ∧
    total_admitted_weight res = total_admitted_weight res0.
Proof.
  intros Hn Hm Hin Hv Hp Hnonce (mpk' & Hm' & Hok & ->)%admit_Ok_iff; [|done].
  assert (mpk' = mpk) as -> by congruence. clear Hm'.
  apply validated_app in Hok as [Hok1 [_ Hok2]%Forall_cons].
  exists (admission_spec config mpk (l1 ++ l2)). cbn [admitted total_admitted_weight admission_spec].
  rewrite (counted_beaten config mpk l1 old l2 new);
    [|done|done|done|by destruct (duplicate_policy config); apply rank_ltb_spec; left].
  split; [|done]. apply admit_Ok_iff.
  - rewrite fmap_app, fmap_cons, <- Permutation_middle in Hn. apply NoDup_cons in Hn as [_ Hn].
    by rewrite fmap_app.
  - exists mpk. split_and!; [done|by apply validated_app|done].
Qed.

(** one stored ballot can block every tally: take any valid ballot and
    raise the weight of its credential by a multiple of the group order until
    it no longer fits 32 bytes.  The credential still verifies, and [admit_ballots]
    raises [OverflowError] for the whole list instead of excluding the ballot. *)
Theorem overweight_ballot_blocks_admission `{CryptoLaws} sb config mpk_bytes mpk w' l1 l2 :
  g2_from_compressed mpk_bytes = Ok mpk → validate_ballot sb config mpk = Ok None →
  2 ^ 256 <= w' → att_weight (env_attestation (envelope sb)) ≡q w' →
  Forall (λ sb, is_ok (validate_ballot sb config mpk) = true) l1 →
  admit_ballots (l1 ++ set_weight sb w' :: l2) config mpk_bytes = Err OverflowError.
Proof. intros Hm Hv Hw Heq Hl1. eapply admit_raises; [done|done|]. by apply overweight_validate. Qed.

(** ** Three stored ballots: a voter who votes twice, and another one *)

Module admission_example.
#[local] Existing Instance concrete_crypto.

Definition eid : bytes := Eval vm_compute in be_bytes 32 1.
Definition elig_vk : pt G1ops := mul G1 9.
Definition mpk : pt G2ops := mul G2 5.
Definition mpk_bytes : bytes := pt_to_compressed G2ops mpk.
Definition config : ElectionConfig :=
  mkElectionConfig eid 2 1 EXACT VariantA true LAST_WINS 100 200 (mkThreshold 2 3)
    [mkKeyperIdentity [Byte.x01] ""; mkKeyperIdentity [Byte.x02] ""; mkKeyperIdentity [Byte.x03] ""]
    (pt_to_compressed G1ops elig_vk) [] [] [] "v1" 1 0.

(** A ballot of the voter with key [sk], weight [w] and nonce [n], for the
    vote vector [votes], stored under [seq]. *)
Definition stored (seq : Z) (ps : bytes) (sk w n : Z) (votes : list Z) : StoredBallot :=
  let vk := mul G1 sk in
  let vkb := pt_to_compressed G1ops vk in
  let att := mkAttestation eid ps vkb w (try_or (sign_attestation 9 elig_vk eid ps vkb w n 5) []) V1 n in
  let b := try_or (build_ballot mpk eid ps sk vk att votes 2 1 ballot_example.coins 11 12)
             (mkBuiltBallot [] [] [] [] [] [] []) in
  mkStoredBallot seq
    (mkBallotEnvelope eid ps (bb_vk b) ((λ ct, mkWireCiphertext ct.1 ct.2) <$> bb_ciphertexts b)
       (bb_zk_proof b) (bb_voter_signature b) att) (Some 150).

Definition alice : bytes := replicate 32 Byte.x0a.
Definition bob : bytes := replicate 32 Byte.x0b.
Definition alice2 : StoredBallot := Eval vm_compute in stored 0 alice 7 3 2 [0; 1].
Definition bob1 : StoredBallot := Eval vm_compute in stored 1 bob 8 4 1 [1; 0].
(** The first ballot of the first voter, replayed last. *)
Definition alice1 : StoredBallot := Eval vm_compute in stored 2 alice 7 3 1 [1; 0].

Definition stored_ballots : list StoredBallot := [alice2; bob1; alice1].

Definition all_valid (l : list StoredBallot) : bool :=
  forallb (λ sb, bool_decide (validate_ballot sb config mpk = Ok None)) l.

Lemma all_valid_elem l sb : all_valid l = true → sb ∈ l → validate_ballot sb config mpk = Ok None.
Proof.
  unfold all_valid. rewrite forallb_forall. intros Ha Hin%list_elem_of_In. specialize (Ha sb Hin).
  exact (bool_decide_eq_true_1 _ Ha).
Qed.

Lemma examples_valid : all_valid stored_ballots = true.
Proof. vm_compute. reflexivity. Qed.

Lemma example_valid sb : sb ∈ stored_ballots → validate_ballot sb config mpk = Ok None.
Proof. exact (all_valid_elem stored_ballots sb examples_valid). Qed.

Lemma examples_validated l : l ⊆ stored_ballots →
  Forall (λ sb, is_ok (validate_ballot sb config mpk) = true) l.
Proof. intros Hl. apply Forall_forall. intros sb Hin. rewrite example_valid; [reflexivity|exact (Hl sb Hin)]. Qed.

Lemma mpk_decodes : g2_from_compressed mpk_bytes = Ok mpk.
Proof. apply from_to_compressed. vm_compute. reflexivity. Qed.

Lemma stored_distinct : NoDup (sequence_number <$> stored_ballots).
Proof. apply (bool_decide_unpack _). vm_compute. exact I. Qed.

Lemma stored_admitted : admit_ballots stored_ballots config mpk_bytes = Ok (admission_spec config mpk stored_ballots).
Proof.
  apply admit_refines_mpk; [apply mpk_decodes|apply stored_distinct|by apply examples_validated].
Qed.
End admission_example.

Lemma admit_refines_spec_witness :
  let c := concrete_crypto in
  let ballots := admission_example.stored_ballots in
  is_ok (admit_ballots ballots admission_example.config admission_example.mpk_bytes) = true ∧
  ∃ mpk, g2_from_compressed admission_example.mpk_bytes = Ok mpk ∧
    admit_ballots ballots admission_example.config admission_example.mpk_bytes
    = Ok (admission_spec admission_example.config mpk ballots).
Proof.
  intros c ballots. pose proof admission_example.stored_admitted as Hs.
  split; [unfold ballots, c; rewrite Hs; reflexivity|].
  destruct (proj1 (admit_refines_spec ballots admission_example.config admission_example.mpk_bytes _
    admission_example.stored_distinct) Hs) as (mpk & Hm & _ & Heq).
  exists mpk. split; [exact Hm|]. unfold c, ballots. rewrite Hs, Heq. reflexivity.
Defined.

Lemma admit_partitions_witness :
  let c := concrete_crypto in
  ∃ res, admit_ballots admission_example.stored_ballots admission_example.config admission_example.mpk_bytes = Ok res ∧
    (ab_sequence_number <$> admitted res) ++ (exc_sequence_number <$> exclusions res) ≡ₚ [0; 1; 2].
Proof.
  intros c. eexists. split; [exact admission_example.stored_admitted|].
  exact (proj1 (admit_partitions _ _ _ _ admission_example.stored_distinct admission_example.stored_admitted)).
Defined.

Lemma one_ballot_per_pseudonym_witness :
  let c := concrete_crypto in
  ∃ res, admit_ballots admission_example.stored_ballots admission_example.config admission_example.mpk_bytes = Ok res ∧
    NoDup ((λ a, env_pseudonym (ab_envelope a)) <$> admitted res) ∧
    ∃ a, a ∈ admitted res ∧ env_pseudonym (ab_envelope a) = admission_example.alice.
Proof.
  intros c. eexists. split; [exact admission_example.stored_admitted|].
  pose proof (one_ballot_per_pseudonym _ _ _ admission_example.mpk _ admission_example.stored_distinct
    admission_example.mpk_decodes admission_example.stored_admitted) as (Hn & _ & Hr).
  split; [exact Hn|].
  apply (Hr admission_example.alice2); [left|apply admission_example.example_valid; left].
Defined.

Lemma replay_never_counts_witness :
  let c := concrete_crypto in
  ∃ res res0,
    admit_ballots ([admission_example.alice2; admission_example.bob1] ++ admission_example.alice1 :: [])
      admission_example.config admission_example.mpk_bytes = Ok res ∧
    admit_ballots ([admission_example.alice2; admission_example.bob1] ++ [])
      admission_example.config admission_example.mpk_bytes = Ok res0 ∧ admitted res = admitted res0.
Proof.
  intros c. set (res := admission_spec admission_example.config admission_example.mpk
    admission_example.stored_ballots). exists res.
  destruct (replay_never_counts [admission_example.alice2; admission_example.bob1] admission_example.alice1 []
    admission_example.config admission_example.mpk_bytes admission_example.mpk res admission_example.alice2
    admission_example.stored_distinct admission_example.mpk_decodes) as (res0 & H0 & Ha & _).
  - left.
  - apply admission_example.example_valid. left.
  - reflexivity.
  - reflexivity.
  - exact admission_example.stored_admitted.
  - exists res0. split; [exact admission_example.stored_admitted|]. split; [exact H0|exact Ha].
Defined.

Lemma overweight_ballot_blocks_admission_witness :
  let c := concrete_crypto in
  admit_ballots ([admission_example.alice2] ++ set_weight admission_example.bob1 (4 + 3 * CURVE_ORDER) :: [])
    admission_example.config admission_example.mpk_bytes = Err OverflowError.
Proof.
  intros c. apply (overweight_ballot_blocks_admission admission_example.bob1 admission_example.config
    admission_example.mpk_bytes admission_example.mpk).
  - exact admission_example.mpk_decodes.
  - apply admission_example.example_valid. right; left.
  - vm_compute. discriminate.
  - vm_compute. reflexivity.
  - apply admission_example.examples_validated. intros sb Hsb%list_elem_of_singleton. rewrite Hsb. left.
Defined.
