(* ===== verification/Aggregation.v ===== *)
(** Weighted aggregation, threshold recovery and result checking
    (core/aggregation.py). *)

From Stdlib Require Import Zmod.
From S2P Require Import Prelude Params Primality Field Points Transcript Elgamal Schnorr Proofs Recovery Types Config Ballot Admission.

(** * Definitions *)

(** Python's [//] is [Z.div]. *)
Definition scaled_weight (weight scale : Z) : Z := (weight + scale / 2) / scale.

Definition bsgs_bound (config : ElectionConfig) (total_scaled_weight : Z) : Z :=
  budget config * total_scaled_weight.

Section aggregation.
Context `{Crypto}.

(** ** The weighted aggregate *)

Definition decode_ct (ct : WireCiphertext) : result Ciphertext :=
  A ← g2_from_compressed (c1 ct);
  B ← g2_from_compressed (c2 ct);
  Ok (A, B).

(** The inner loop over the candidates: the accumulator and the ballot's
    ciphertexts in step, [IndexError] when the ballot has too few. *)
Fixpoint add_row (w : Z) (acc : list Ciphertext) (cts : list WireCiphertext) : result (list Ciphertext) :=
  match acc with
  | [] => Ok []
  | a :: acc =>
      match cts with
      | [] => Err IndexError
      | ct :: cts =>
          ct_pts ← decode_ct ct;
          rest ← add_row w acc cts;
          Ok (add_ct a (scalar_mul_ct w ct_pts) :: rest)
      end
  end.

Definition aggregate_points (admitted : list AdmittedBallot) (num_candidates scale : Z)
  : result (list Ciphertext) :=
  foldM (λ acc ab,
    let w := scaled_weight (ab_weight ab) scale in
    if w =? 0 then Ok acc else add_row w acc (env_ciphertexts (ab_envelope ab)))
    admitted (replicate (Z.to_nat num_candidates) (Z2, Z2)).

Definition build_aggregate_artifact (config : ElectionConfig) (admission : AdmissionResult)
  : result AggregateArtifact :=
  agg_pts ← aggregate_points (admitted admission) (num_candidates config) (scale config);
  aggregates ← mapM (λ ct : Ciphertext, b1 ← g2_to_compressed ct.1; b2 ← g2_to_compressed ct.2;
                           Ok (mkWireCiphertext b1 b2)) agg_pts;
  let total_scaled := zsum_with (λ a, scaled_weight (ab_weight a) (scale config)) (admitted admission) in
  Ok (mkAggregateArtifact (election_id config) aggregates (ab_sequence_number <$> admitted admission)
        (exclusions admission) (total_admitted_weight admission) total_scaled).

(** ** Shares *)

(** What the [try] block of one share computes. *)
Definition decode_share (entry : DecryptionShareEntry) (pk : bytes)
  : result (pt G2ops * (Z * Z) * pt G2ops) :=
  sg ← g2_from_compressed (sigma entry);
  ez ← decode_dleq (proof entry);
  mpk_k ← g2_from_compressed pk;
  Ok (sg, ez, mpk_k).

(** One share for candidate [j]: [None] when it is skipped or its proof fails. *)
Definition check_share (config : ElectionConfig) (committee_pks : list bytes) (j : nat) (C1 C2 : pt G2ops)
    (share : DecryptionShareEnvelope) : result (option (Z * pt G2ops)) :=
  match entries share !! j with
  | None => Ok None
  | Some entry =>
      let idx := keyper_index share in
      if negb ((1 <=? idx) && (idx <=? len committee_pks)) then Ok None else
      match committee_pks !! Z.to_nat (idx - 1) with
      | None => Err IndexError
      | Some pk =>
          match decode_share entry pk with
          | Err e => if is_value_error e then Ok None else Err e
          | Ok (sg, (e, z), mpk_k) =>
              t ← make_decrypt_transcript (election_id config) (Z.of_nat j);
              '(ok, _) ← verify_decryption_share C1 C2 mpk_k sg e z idx t;
              Ok (if (ok : bool) then Some (idx, sg) else None)
          end
      end
  end.

Definition valid_shares (config : ElectionConfig) (committee_pks : list bytes) (j : nat)
    (C1 C2 : pt G2ops) (shares : list DecryptionShareEnvelope) : result (list (Z * pt G2ops)) :=
  foldM (λ valid share,
    r ← check_share config committee_pks j C1 C2 share;
    Ok (match r with Some v => valid ++ [v] | None => valid end)) shares [].

(** The loop over the candidates from index [j] on. *)
Fixpoint derive_taus_from (config : ElectionConfig) (shares : list DecryptionShareEnvelope)
    (committee_pks : list bytes) (quorum : Z) (j : nat) (aggregates : list WireCiphertext)
    (taus : list (pt G2ops)) (indices_used : option (list Z))
  : result (option (list (pt G2ops) * list Z)) :=
  match aggregates with
  | [] => Ok (Some (taus, default [] indices_used))
  | ct :: aggregates =>
      C1 ← g2_from_compressed (c1 ct);
      C2 ← g2_from_compressed (c2 ct);
      valid ← valid_shares config committee_pks j C1 C2 shares;
      if len valid <? quorum then Ok None else
      let chosen := take (Z.to_nat quorum) valid in
      sg ← combine_shares chosen;
      let indices_used := match indices_used with None => Some chosen.*1 | Some _ => indices_used end in
      derive_taus_from config shares committee_pks quorum (S j) aggregates
        (taus ++ [add C2 (neg sg)]) indices_used
  end.

Definition _derive_taus (config : ElectionConfig) (aggregate : AggregateArtifact)
    (shares : list DecryptionShareEnvelope) (committee_pks : list bytes) (quorum : Z)
  : result (option (list (pt G2ops) * list Z)) :=
  derive_taus_from config shares committee_pks quorum 0 (aggregates aggregate) [] None.

(** ** Solving and checking *)

(** The loop over the candidates: [None] at the first that is not solved. *)
Fixpoint solve_all (table : BabyStepTable) (taus : list (pt G2ops)) : option (list Z) :=
  match taus with
  | [] => Some []
  | tau :: taus =>
      m ← baby_step_giant_step_with_table tau table;
      ms ← solve_all table taus;
      Some (m :: ms)
  end.

Definition recover_result (config : ElectionConfig) (aggregate : AggregateArtifact)
    (shares : list DecryptionShareEnvelope) (committee_pks : list bytes) (quorum : Z)
    (solver_ceiling : option Z) : result (option ResultArtifact) :=
  let bound := bsgs_bound config (agg_total_scaled_weight aggregate) in
  _ ← raise_if (match solver_ceiling with Some c => c <? bound | None => false end) TallyInfeasible;
  derived ← _derive_taus config aggregate shares committee_pks quorum;
  match derived with
  | None => Ok None
  | Some (taus, indices_used) =>
      let table := build_baby_step_table bound in
      match solve_all table taus with
      | None => Ok None
      | Some totals => Ok (Some (mkResultArtifact (election_id config) totals indices_used bound))
      end
  end.

(** The loop over the pairs [(tau, total)] from index [j] on: the first
    complaint. *)
Fixpoint check_totals (bound : Z) (j : nat) (l : list (pt G2ops * Z)) : option string :=
  match l with
  | [] => None
  | (tau, total) :: l =>
      if negb ((0 <=? total) && (total <=? bound)) then
        Some ("result: total[" +:+ pretty (Z.of_nat j) +:+ "] = " +:+ pretty total
              +:+ " outside [0, " +:+ pretty bound +:+ "]")
      else if negb (point_eq (mul G2 total) tau) then
        Some ("result: total[" +:+ pretty (Z.of_nat j) +:+ "] = " +:+ pretty total
              +:+ " does not decrypt the aggregate")
      else check_totals bound (S j) l
  end.

Definition check_result (config : ElectionConfig) (aggregate : AggregateArtifact)
    (shares : list DecryptionShareEnvelope) (committee_pks : list bytes) (quorum : Z)
    (claimed_totals : list Z) : result (bool * option string) :=
  if negb (len claimed_totals =? len (aggregates aggregate)) then
    Ok (false, Some ("result: " +:+ pretty (len claimed_totals) +:+ " totals published for "
                     +:+ pretty (len (aggregates aggregate)) +:+ " candidates"))
  else
  derived ← _derive_taus config aggregate shares committee_pks quorum;
  match derived with
  | None => Ok (false, Some ("shares: fewer than " +:+ pretty quorum +:+ " valid shares for some candidate"))
  | Some (taus, _) =>
      let bound := bsgs_bound config (agg_total_scaled_weight aggregate) in
      match check_totals bound 0 (zip taus claimed_totals) with
      | Some reason => Ok (false, Some reason)
      | None =>
          let summed := zsum claimed_totals in
          match mode config with
          | EXACT =>
              if negb (summed =? bound)
              then Ok (false, Some ("result: totals sum to " +:+ pretty summed +:+ ", not the "
                     +:+ pretty bound
                     +:+ " that budget x total admitted weight requires in exact mode"))
              else Ok (true, None)
          | AT_MOST =>
              if bound <? summed
              then Ok (false, Some ("result: totals sum to " +:+ pretty summed +:+ ", over the bound "
                     +:+ pretty bound))
              else Ok (true, None)
          end
      end
  end.

(** * The scaled weight rounds half up *)

Lemma scaled_weight_spec w s k : 1 <= s →
  scaled_weight w s = k ↔ s * k - s / 2 <= w < s * k + (s - s / 2).
Proof.
  intros Hs. unfold scaled_weight. pose proof (Z.div_mod (w + s / 2) s ltac:(lia)).
  pose proof (Z.mod_pos_bound (w + s / 2) s ltac:(lia)). split.
  - intros <-. lia.
  - intros Hk. nia.
Qed.

Lemma scaled_weight_nonneg w s : 1 <= s → 0 <= w → 0 <= scaled_weight w s.
Proof. intros. unfold scaled_weight. apply Z.div_pos; [|lia]. pose proof (Z.div_pos s 2). lia. Qed.

Context `{!CryptoLaws}.

(** * The table-based solver decides *)

Lemma bsgs_with_table P max :
  baby_step_giant_step_with_table P (build_baby_step_table max) = baby_step_giant_step P max.
Proof.
  assert (Hm : max_val (build_baby_step_table max) = max).
  { unfold build_baby_step_table. by destruct (foldl _ _ _). }
  unfold baby_step_giant_step, baby_step_giant_step_with_table. rewrite Hm.
  destruct (max =? 0); [done|]. by destruct (is_identity P).
Qed.

Lemma bsgs_table_iff P max m : in_subgroup P → 0 <= max < CURVE_ORDER →
  baby_step_giant_step_with_table P (build_baby_step_table max) = Some m ↔
  0 <= m <= max ∧ mul G2 m = P.
Proof.
  intros HP Hmax. rewrite bsgs_with_table. split.
  - intros Hm. apply bsgs_sound in Hm as [? ->]; done.
  - intros [Hm <-]. apply bsgs_complete; [done|lia].
Qed.

Lemma solve_all_iff max taus totals : Forall (λ P, in_subgroup P) taus → 0 <= max < CURVE_ORDER →
  solve_all (build_baby_step_table max) taus = Some totals ↔
  Forall2 (λ tau m, 0 <= m <= max ∧ mul G2 m = tau) taus totals.
Proof.
  intros HP Hmax. revert totals. induction HP as [|tau taus Htau _ IH]; intros totals.
  - cbn. split; [intros [= <-]; constructor|]. by inversion 1.
  - cbn [solve_all]. split.
    + intros (m & Hm & (ms & Hms & [= <-])%bind_Some)%bind_Some.
      apply bsgs_table_iff in Hm; [|done..]. apply IH in Hms. by constructor.
    + inversion_clear 1 as [|? m ? ms Hm Hms]. apply bsgs_table_iff in Hm; [|done..].
      apply IH in Hms. by rewrite Hm, Hms.
Qed.

Lemma check_totals_iff bound j taus totals : length totals = length taus →
  check_totals bound j (zip taus totals) = None ↔
  Forall2 (λ tau m, 0 <= m <= bound ∧ mul G2 m = tau) taus totals.
Proof.
  revert j totals. induction taus as [|tau taus IH]; intros j [|m totals] Hl; try done.
  injection Hl as Hl. cbn [zip zip_with check_totals]. split.
  - destruct (_ && _) eqn:Hb; [|done]. cbn [negb]. destruct (point_eq _ _) eqn:Hp; [|done]. cbn [negb].
    intros Hc. apply IH in Hc; [|done]. apply andb_prop in Hb as [?%Z.leb_le ?%Z.leb_le].
    apply point_eq_spec in Hp. by constructor.
  - inversion_clear 1 as [|? ? ? ? [Hm Ht] Hr]. rewrite !(proj2 (Z.leb_le _ _)) by lia.
    rewrite Ht, point_eq_refl. cbn [negb andb]. by apply IH.
Qed.

(** * Derived points *)

Lemma check_share_Some config pks j C1 C2 share idx sg :
  check_share config pks j C1 C2 share = Ok (Some (idx, sg)) →
  idx = keyper_index share ∧ 1 <= idx <= len pks ∧ in_subgroup sg ∧
  ∃ entry pk e z mpk_k t t', entries share !! j = Some entry ∧ pks !! Z.to_nat (idx - 1) = Some pk ∧
    decode_share entry pk = Ok (sg, (e, z), mpk_k) ∧
    make_decrypt_transcript (election_id config) (Z.of_nat j) = Ok t ∧
    verify_decryption_share C1 C2 mpk_k sg e z idx t = Ok (true, t').
Proof.
  unfold check_share. destruct (entries share !! j) as [entry|] eqn:He; [|done].
  destruct (_ && _) eqn:Hr; [|done]. cbn [negb]. apply andb_prop in Hr as [?%Z.leb_le ?%Z.leb_le].
  destruct (pks !! _) as [pk|] eqn:Hpk; [|done].
  destruct (decode_share entry pk) as [[[sg' [e z]] mpk_k]|err] eqn:Hd; [|by case_match].
  intros (t & Ht & Hv)%bind_Ok_inv. apply bind_Ok_inv in Hv as ([ok t'] & Hv & Hr).
  destruct ok; [|done]. injection Hr as <- <-. split_and!; [done|lia|lia| |].
  - unfold decode_share in Hd. apply bind_Ok_inv in Hd as (x & Hx & Hd).
    apply bind_Ok_inv in Hd as (y & _ & Hd). apply bind_Ok_inv in Hd as (w & _ & Hd).
    injection Hd as -> _ _. by apply from_compressed_Ok in Hx as [? _].
  - by exists entry, pk, e, z, mpk_k, t, t'.
Qed.

(** The shares kept for candidate [j]: those that verify, in order. *)
Lemma valid_shares_Ok config pks j C1 C2 shares valid :
  valid_shares config pks j C1 C2 shares = Ok valid →
  (∀ v, v ∈ valid → ∃ share, share ∈ shares ∧ check_share config pks j C1 C2 share = Ok (Some v)) ∧
  valid.*1 `sublist_of` (keyper_index <$> shares).
Proof.
  unfold valid_shares. intros Hf.
  assert (Hgen : ∀ l acc valid,
    foldM (λ valid share, r ← check_share config pks j C1 C2 share;
      Ok (match r with Some v => valid ++ [v] | None => valid end)) l acc = Ok valid →
    ∃ new, valid = acc ++ new ∧
      (∀ v, v ∈ new → ∃ share, share ∈ l ∧ check_share config pks j C1 C2 share = Ok (Some v)) ∧
      new.*1 `sublist_of` (keyper_index <$> l)).
  { clear Hf shares valid. induction l as [|share l IH]; intros acc valid Hf.
    - injection Hf as <-. exists []. rewrite app_nil_r. split_and!; [done| |constructor].
      by intros v ?%not_elem_of_nil.
    - cbn [foldM] in Hf. apply bind_Ok_inv in Hf as (acc' & Hacc & Hf).
      apply bind_Ok_inv in Hacc as (r & Hr & [= <-]).
      apply IH in Hf as (new & -> & Hn & Hs). destruct r as [v|].
      + exists (v :: new). rewrite <- app_assoc. split_and!; [done| |].
        * intros v' [->|Hv]%elem_of_cons; [exists share; split; [left|done]|].
          destruct (Hn v' Hv) as (sh & ? & ?). exists sh. split; [by right|done].
        * destruct v as [idx sg]. apply check_share_Some in Hr as (-> & _). by constructor.
      + exists new. split_and!; [done| |].
        * intros v' Hv. destruct (Hn v' Hv) as (sh & ? & ?). exists sh. split; [by right|done].
        * by constructor. }
  destruct (Hgen _ _ _ Hf) as (new & -> & ? & ?). done.
Qed.

Lemma combine_shares_subgroup shares P : Forall (λ sh, in_subgroup sh.2) shares →
  combine_shares shares = Ok P → in_subgroup P.
Proof.
  unfold combine_shares. intros Hs.
  assert (Hgen : ∀ ids l acc P, Forall (λ sh : Z * pt G2ops, in_subgroup sh.2) l → in_subgroup acc →
    foldM (λ acc '(j_id, sigma_j), lam ← lagrange_coefficient j_id ids; Ok (add acc (mul sigma_j lam))) l acc
    = Ok P → in_subgroup P).
  { clear Hs shares P. intros ids. induction l as [|[k sg] l IH]; intros acc P Hl Ha Hf; [by injection Hf as <-|].
    apply Forall_cons in Hl as [Hk Hl]. cbn [foldM] in Hf. apply bind_Ok_inv in Hf as (acc' & Hacc & Hf).
    apply bind_Ok_inv in Hacc as (lam & _ & [= <-]). eapply IH; [done| |done]. cbn in Hk. solve_subgroup. }
  apply Hgen; [done|solve_subgroup].
Qed.

Lemma valid_shares_subgroup config pks j C1 C2 shares valid :
  valid_shares config pks j C1 C2 shares = Ok valid → Forall (λ sh, in_subgroup sh.2) valid.
Proof.
  intros [Hv _]%valid_shares_Ok. apply Forall_forall. intros [idx sg] Hin.
  apply Hv in Hin as (share & _ & (_ & _ & ? & _)%check_share_Some). done.
Qed.

Lemma derive_taus_from_Ok config shares pks q j aggs taus0 idx0 taus idx :
  derive_taus_from config shares pks q j aggs taus0 idx0 = Ok (Some (taus, idx)) →
  ∃ new, taus = taus0 ++ new ∧ length new = length aggs ∧ Forall (λ P, in_subgroup P) new.
Proof.
  revert j taus0 idx0. induction aggs as [|ct aggs IH]; intros j taus0 idx0 Hd.
  - injection Hd as <- _. exists []. by rewrite app_nil_r.
  - cbn [derive_taus_from] in Hd.
    apply bind_Ok_inv in Hd as (C1 & _ & Hd). apply bind_Ok_inv in Hd as (C2 & HC2 & Hd).
    apply bind_Ok_inv in Hd as (valid & Hv & Hd). destruct (len valid <? q); [done|].
    apply bind_Ok_inv in Hd as (sg & Hsg & Hd). apply IH in Hd as (new & -> & Hl & Hs).
    exists (add C2 (neg sg) :: new). rewrite <- app_assoc. split_and!; [done|cbn; lia|].
    constructor; [|done]. apply from_compressed_Ok in HC2 as (? & _ & _).
    assert (in_subgroup sg); [|solve_subgroup].
    eapply combine_shares_subgroup; [|exact Hsg]. apply Forall_take. by eapply valid_shares_subgroup.
Qed.

(** The sum the mode requires of the totals. *)
Definition sum_ok (config : ElectionConfig) (bound summed : Z) : Prop :=
  match mode config with EXACT => summed = bound | AT_MOST => summed <= bound end.

Lemma check_recover_agree config aggregate shares pks q claimed :
  let bound := bsgs_bound config (agg_total_scaled_weight aggregate) in
  0 <= bound < CURVE_ORDER →
  check_result config aggregate shares pks q claimed = Ok (true, None) ↔
  sum_ok config bound (zsum claimed) ∧
  ∃ res, recover_result config aggregate shares pks q None = Ok (Some res) ∧ totals res = claimed.
Proof.
  intros bound Hb. unfold check_result, recover_result. cbn [raise_if]. rewrite bind_Ok. fold bound.
  destruct (_derive_taus config aggregate shares pks q) as [[[taus idx]|]|] eqn:Hd.
  2: { split; [|naive_solver]. case_match; [done|]. by rewrite bind_Ok. }
  2: { split; [|naive_solver]. case_match; [done|]. by rewrite bind_Err. }
  rewrite !bind_Ok. apply derive_taus_from_Ok in Hd as (new & -> & Hl & Hs). cbn [app].
  split.
  - destruct (Z.eqb_spec (len claimed) (len (aggregates aggregate))) as [Hlen|]; [|done]. cbn [negb].
    destruct (check_totals bound 0 (zip new claimed)) eqn:Hc; [done|].
    apply check_totals_iff in Hc; [|unfold len in Hlen; lia].
    intros Hsum. split.
    + unfold sum_ok. destruct (mode config).
      * destruct (Z.eqb_spec (zsum claimed) bound); done.
      * destruct (Z.ltb_spec bound (zsum claimed)); [done|lia].
    + apply solve_all_iff in Hc; [|done..]. rewrite Hc. by eexists.
  - intros (Hsum & res & Hr & <-).
    destruct (solve_all (build_baby_step_table bound) new) as [tot|] eqn:Hso; [|done].
    injection Hr as <-. cbn [totals] in *.
    apply solve_all_iff in Hso; [|done..]. pose proof (Forall2_length _ _ _ Hso) as Hlt.
    rewrite (proj2 (Z.eqb_eq _ _)) by (unfold len; lia). cbn [negb].
    rewrite (proj2 (check_totals_iff bound 0 new tot ltac:(lia)) Hso).
    unfold sum_ok in Hsum. destruct (mode config).
    + by rewrite Hsum, Z.eqb_refl.
    + by rewrite (proj2 (Z.ltb_ge _ _)).
Qed.

(** * What the aggregate encrypts *)

Section aggregate.
Context (mpk : pt G2ops).
Hypothesis Hmpk : in_subgroup mpk.

(** The accumulator encrypts [f j] for candidate [j]. *)
Definition acc_encrypts (acc : list Ciphertext) (f : nat → Z) : Prop :=
  ∀ j c, acc !! j = Some c → ∃ r, encrypts mpk c (f j) r.

(** The ballot's ciphertexts decode to encryptions of [votes]. *)
Definition holds_votes (cts : list WireCiphertext) (votes : list Z) : Prop :=
  Forall2 (λ ct v, ∃ c r, decode_ct ct = Ok c ∧ encrypts mpk c v r) cts votes.

Lemma add_row_encrypts w acc cts votes f :
  acc_encrypts acc f → holds_votes cts votes → length acc = length cts →
  ∃ acc', add_row w acc cts = Ok acc' ∧ length acc' = length acc ∧
    acc_encrypts acc' (λ j, f j + w * (votes !!! j)).
Proof.
  intros Ha Hv. revert acc f Ha.
  induction Hv as [|ct v cts votes (c & r & Hc & Henc) _ IH]; intros [|a acc] f Ha Hl; try done.
  - exists []. by split_and!.
  - destruct (IH acc (λ j, f (S j))) as (acc' & Hr & Hl' & Ha'); [intros j c' Hj; by apply (Ha (S j))|by injection Hl|].
    cbn [add_row]. rewrite Hc, bind_Ok, Hr, bind_Ok. eexists. split_and!; [done|cbn; lia|].
    intros [|j] c' Hj; [|by apply (Ha' j)]. injection Hj as <-.
    destruct (Ha 0%nat a eq_refl) as [r0 Hr0]. exists (r0 + w * r).
    apply encrypts_add; [done|done|]. by apply encrypts_scalar_mul.
Qed.

(** The total of candidate [j] over ballots with their votes. *)
Definition tally (scale : Z) (bs : list (AdmittedBallot * list Z)) (j : nat) : Z :=
  zsum_with (λ bv, scaled_weight (ab_weight bv.1) scale * (bv.2 !!! j)) bs.

Lemma aggregate_points_encrypts (bs : list (AdmittedBallot * list Z)) nc scale :
  Forall (λ bv, holds_votes (env_ciphertexts (ab_envelope bv.1)) bv.2 ∧
                len (env_ciphertexts (ab_envelope bv.1)) = nc) bs →
  ∃ acc, aggregate_points bs.*1 nc scale = Ok acc ∧ length acc = Z.to_nat nc ∧
    acc_encrypts acc (tally scale bs).
Proof.
  intros Hbs. unfold aggregate_points.
  assert (Hgen : ∀ acc f, length acc = Z.to_nat nc → acc_encrypts acc f →
    ∃ acc', foldM (λ acc ab, let w := scaled_weight (ab_weight ab) scale in
        if w =? 0 then Ok acc else add_row w acc (env_ciphertexts (ab_envelope ab))) bs.*1 acc = Ok acc' ∧
      length acc' = Z.to_nat nc ∧ acc_encrypts acc' (λ j, f j + tally scale bs j)).
  { induction Hbs as [|[ab votes] bs [Hv Hn] _ IH]; intros acc f Hl Ha.
    - exists acc. split_and!; [done|done|]. intros j c Hj. unfold tally. cbn. rewrite Z.add_0_r. by apply Ha.
    - rewrite fmap_cons. cbn [foldM fst snd] in *.
      set (w := scaled_weight (ab_weight ab) scale) in *.
      assert (Hstep : ∃ acc', (if w =? 0 then Ok acc else add_row w acc (env_ciphertexts (ab_envelope ab)))
          = Ok acc' ∧ length acc' = length acc ∧ acc_encrypts acc' (λ j, f j + w * (votes !!! j))).
      { destruct (Z.eqb_spec w 0) as [->|_].
        - exists acc. split_and!; [done|done|]. intros j c Hj. rewrite Z.mul_0_l, Z.add_0_r. by apply Ha.
        - apply add_row_encrypts; [done|done|]. unfold len in Hn. lia. }
      destruct Hstep as (acc1 & -> & Hl1 & Ha1). rewrite bind_Ok.
      destruct (IH acc1 _ ltac:(lia) Ha1) as (acc' & Hf & Hl' & Ha'). exists acc'. split_and!; [done|done|].
      intros j c Hj. destruct (Ha' j c Hj) as [r Hr]. exists r. unfold tally in *.
      rewrite fmap_cons. cbn [zsum foldr fst snd]. fold w. by rewrite Z.add_assoc. }
  destruct (Hgen (replicate (Z.to_nat nc) (Z2, Z2)) (λ _, 0)) as (acc & Hf & Hl & Ha).
  - by rewrite length_replicate.
  - intros j c [-> _]%lookup_replicate. exists 0. by apply encrypts_zero.
  - by exists acc.
Qed.

Lemma decode_ct_compressed (c : Ciphertext) : ct_subgroup c →
  decode_ct (mkWireCiphertext (pt_to_compressed G2ops c.1) (pt_to_compressed G2ops c.2)) = Ok c.
Proof.
  intros [HA HB]. unfold decode_ct, g2_from_compressed. cbn [c1 c2]. rewrite !from_to_compressed by done.
  by destruct c.
Qed.

(** The published artifact carries encryptions of the totals. *)
Lemma build_aggregate_encrypts config (bs : list (AdmittedBallot * list Z)) adm :
  admitted adm = bs.*1 →
  Forall (λ bv, holds_votes (env_ciphertexts (ab_envelope bv.1)) bv.2 ∧
                len (env_ciphertexts (ab_envelope bv.1)) = num_candidates config) bs →
  ∃ art, build_aggregate_artifact config adm = Ok art ∧
    agg_total_scaled_weight art = zsum_with (λ bv, scaled_weight (ab_weight bv.1) (scale config)) bs ∧
    holds_votes (aggregates art) (tally (scale config) bs <$> seq 0 (Z.to_nat (num_candidates config))).
Proof.
  intros Had Hbs. unfold build_aggregate_artifact. rewrite Had.
  destruct (aggregate_points_encrypts bs _ (scale config) Hbs) as (acc & -> & Hl & Ha). rewrite bind_Ok.
  rewrite (mapM_fmap_Ok _ (λ ct : Ciphertext, mkWireCiphertext (pt_to_compressed G2ops ct.1) (pt_to_compressed G2ops ct.2)))
    by (intros; unfold g2_to_compressed; by rewrite !to_compressed_Ok).
  rewrite bind_Ok. eexists. split_and!; [done|cbn; by rewrite <- list_fmap_compose|].
  cbn [aggregates]. unfold holds_votes. rewrite Forall2_fmap. apply Forall2_lookup. intros j.
  destruct (acc !! j) as [c|] eqn:Hj.
  - rewrite lookup_seq_lt by (apply lookup_lt_Some in Hj; lia). constructor.
    destruct (Ha j c Hj) as [r Hr]. exists c, r. split; [|done]. apply decode_ct_compressed.
    rewrite Hr. by apply encrypt_subgroup.
  - rewrite lookup_seq_ge by (apply lookup_ge_None in Hj; lia). constructor.
Qed.

End aggregate.

(** * Recovery from sound shares *)

Lemma from_compressed_Err (b : bytes) e : g2_from_compressed b = Err e → e = ValueError.
Proof.
  unfold g2_from_compressed, from_compressed. destruct (negb _); [by intros [= <-]|]. cbn [raise_if].
  rewrite bind_Ok. destruct (pt_from_compressed G2ops b); [|by intros [= <-]].
  destruct (negb _); [by intros [= <-]|]. by cbn [raise_if].
Qed.

Lemma scalar_from_bytes_Err b e : scalar_from_bytes b = Err e → e = ValueError.
Proof.
  unfold scalar_from_bytes. destruct (negb _); [by intros [= <-]|]. cbn [raise_if]. rewrite bind_Ok.
  cbv zeta. destruct (_ <=? _); [by intros [= <-]|]. done.
Qed.

Lemma decode_share_Err entry pk e : decode_share entry pk = Err e → is_value_error e = true.
Proof.
  unfold decode_share, decode_dleq.
  destruct (g2_from_compressed (sigma entry)) as [sg|] eqn:E1;
    [rewrite bind_Ok|rewrite bind_Err; apply from_compressed_Err in E1 as ->; by intros [= <-]].
  destruct (negb _); [by intros [= <-]|]. cbn [raise_if]. rewrite bind_Ok.
  destruct (scalar_from_bytes (take 32 _)) as [x|] eqn:E2;
    [rewrite bind_Ok|rewrite bind_Err; apply scalar_from_bytes_Err in E2 as ->; by intros [= <-]].
  destruct (scalar_from_bytes (drop 32 _)) as [y|] eqn:E3;
    [rewrite !bind_Ok|rewrite bind_Err; apply scalar_from_bytes_Err in E3 as ->; by intros [= <-]].
  destruct (g2_from_compressed pk) as [m|] eqn:E4;
    [rewrite bind_Ok; done|rewrite bind_Err; apply from_compressed_Err in E4 as ->; by intros [= <-]].
Qed.

Lemma make_decrypt_transcript_succeeds eid j : len eid = 32 → 0 <= j < 2 ^ 16 →
  ∃ t, make_decrypt_transcript eid j = Ok t.
Proof.
  intros He Hj. unfold make_decrypt_transcript. rewrite He, (proj2 (Z.leb_le 0 j)), (proj2 (Z.ltb_lt j _)) by lia.
  cbn [Z.eqb Pos.eqb negb andb raise_if]. rewrite !bind_Ok.
  destruct (append_bytes_succeeds "electionId" eid (new_transcript ONCHAIN_DECRYPT_LABEL)) as [t1 E1];
    [unfold short_tag; cbn; lia|lia|]. rewrite (TM_bind_Ok _ _ _ _ _ E1).
  unfold u16be. rewrite to_bytes_be_small, TM_lift_Ok by done.
  destruct (append_bytes_succeeds "candidate" (be_bytes 2 j) t1) as [t2 E2];
    [unfold short_tag; cbn; lia|unfold len; rewrite length_be_bytes; lia|].
  rewrite E2, bind_Ok. by eexists.
Qed.

Lemma verify_share_succeeds C1 C2 K sg e z idx t : 0 <= idx < 2 ^ 16 →
  ∃ b t', verify_decryption_share C1 C2 K sg e z idx t = Ok (b, t').
Proof.
  intros Hi. unfold verify_decryption_share.
  destruct (_bind_decryption_share_succeeds C1 C2 K idx t Hi) as [t1 E1]. rewrite (TM_bind_Ok _ _ _ _ _ E1).
  unfold verify_dleq. destruct (_bind_statement_dleq_succeeds G2 K C1 sg t1) as [t2 E2].
  rewrite (TM_bind_Ok _ _ _ _ _ E2). do 3 tm_run. by do 2 eexists.
Qed.

Section recover.
Context (config : ElectionConfig) (pks : list bytes) (shares : list DecryptionShareEnvelope).
Context (Heid : len (election_id config) = 32) (Hpks : len pks < 2 ^ 16).

(** Checking a share never raises. *)
Lemma check_share_total j C1 C2 share : Z.of_nat j < 2 ^ 16 →
  ∃ r, check_share config pks j C1 C2 share = Ok r.
Proof.
  intros Hj. unfold check_share. destruct (entries share !! j) as [entry|]; [|by eexists].
  destruct (_ && _) eqn:Hr; [|by eexists]. cbn [negb]. apply andb_prop in Hr as [?%Z.leb_le ?%Z.leb_le].
  destruct (lookup_lt_is_Some_2 pks (Z.to_nat (keyper_index share - 1))) as [pk ->]; [unfold len in *; lia|].
  destruct (decode_share entry pk) as [[[sg [e z]] K]|err] eqn:Hd.
  - destruct (make_decrypt_transcript_succeeds (election_id config) (Z.of_nat j)) as [t ->]; [done|lia|].
    rewrite bind_Ok.
    destruct (verify_share_succeeds C1 C2 K sg e z (keyper_index share) t) as (b & t' & ->); [lia|].
    rewrite bind_Ok. by eexists.
  - rewrite (decode_share_Err _ _ _ Hd). by eexists.
Qed.

(** What one share contributes. *)
Definition contribution (j : nat) (C1 C2 : pt G2ops) (share : DecryptionShareEnvelope)
  : option (Z * pt G2ops) := try_or (check_share config pks j C1 C2 share) None.

Lemma valid_shares_total j C1 C2 : Z.of_nat j < 2 ^ 16 →
  valid_shares config pks j C1 C2 shares = Ok (omap (contribution j C1 C2) shares).
Proof.
  intros Hj. unfold valid_shares.
  assert (Hgen : ∀ l acc,
    foldM (λ valid share, r ← check_share config pks j C1 C2 share;
      Ok (match r with Some v => valid ++ [v] | None => valid end)) l acc
    = Ok (acc ++ omap (contribution j C1 C2) l)); [|apply Hgen].
  induction l as [|share l IH]; intros acc; [cbn; by rewrite app_nil_r|].
  cbn [foldM omap list_omap]. destruct (check_share_total j C1 C2 share Hj) as [r Hr].
  rewrite Hr, !bind_Ok, IH. assert (contribution j C1 C2 share = r) as -> by (unfold contribution; by rewrite Hr).
  destruct r; [by rewrite <- app_assoc|done].
Qed.

Context (quorum : Z) (mpk : pt G2ops) (p : list F).
Context (Hq : 1 <= quorum) (Hp : Z.of_nat (length p) <= quorum) (Hmpk : mpk = gmul (polyF p F0)).
Context (Hdistinct : NoDup (keyper_index <$> shares)).

(** Candidate [j] has a quorum of shares that verify, and the shares that
    verify are those of the committee key [p]. *)
Definition shares_sound (j : nat) (ct : WireCiphertext) : Prop :=
  ∀ C1 C2, decode_ct ct = Ok (C1, C2) →
    quorum <= len (omap (contribution j C1 C2) shares) ∧
    ∀ idx sg, (idx, sg) ∈ omap (contribution j C1 C2) shares →
      sg = mul C1 (Zmod.to_Z (polyF p (inF idx))).

Lemma chosen_distinct j C1 C2 : Z.of_nat j < 2 ^ 16 →
  distinct_ids (take (Z.to_nat quorum) (omap (contribution j C1 C2) shares)).*1.
Proof.
  intros Hj. pose proof (valid_shares_total j C1 C2 Hj) as Hv. apply valid_shares_Ok in Hv as [Hin Hsub].
  set (valid := omap _ shares) in *. unfold distinct_ids. apply NoDup_fmap_2_strong.
  - assert (Hr : ∀ i, i ∈ (take (Z.to_nat quorum) valid).*1 → 0 <= i < CURVE_ORDER).
    { intros i (v & -> & Hv)%list_elem_of_fmap. destruct v as [idx sg].
      destruct (Hin (idx, sg)) as (sh & _ & (_ & Hb & _)%check_share_Some).
      { eapply elem_of_sublist; [exact Hv|apply sublist_take]. }
      cbn. assert (2 ^ 16 < CURVE_ORDER) by (apply Z.ltb_lt; vm_compute; reflexivity). lia. }
    intros x y Hx Hy Heq. apply inF_inj_small; [by apply Hr..|done].
  - rewrite fmap_take. eapply sublist_NoDup; [|apply sublist_take]. eapply sublist_NoDup; [exact Hdistinct|done].
Qed.

Lemma tau_correct j ct C1 C2 m r : Z.of_nat j < 2 ^ 16 → shares_sound j ct →
  decode_ct ct = Ok (C1, C2) → encrypts mpk (C1, C2) m r →
  ∃ sg, combine_shares (take (Z.to_nat quorum) (omap (contribution j C1 C2) shares)) = Ok sg ∧
    add C2 (neg sg) = mul G2 m.
Proof.
  intros Hj Hs Hd Henc. destruct (Hs C1 C2 Hd) as [Hl Hsg].
  set (valid := omap _ shares) in *.
  assert (HC : C1 = gmul (inF r) ∧ C2 = gmul (polyF p F0 * inF r + inF m)%F).
  { unfold encrypts, encrypt in Henc. cbn [fst] in Henc. injection Henc as -> ->. rewrite Hmpk. unfold G2.
    split; to_gmul; f_equal; ring. }
  destruct HC as [HC1 HC2]. eexists. split.
  - apply (combine_shares_correct (inF r) p).
    + by apply chosen_distinct.
    + intros E%(f_equal length). rewrite length_take in E. cbn in E. unfold len in Hl. lia.
    + rewrite length_take. unfold len in Hl. lia.
    + apply Forall_take, Forall_forall. intros [idx sg] Hin. cbn [fst snd].
      rewrite (Hsg idx sg Hin), HC1, gmul_mul, inF_to_Z. done.
  - rewrite HC2. unfold G2. to_gmul. f_equal. ring.
Qed.

Lemma derive_taus_correct j aggs ms taus0 idx0 :
  holds_votes mpk aggs ms → Z.of_nat j + len aggs <= 2 ^ 16 →
  (∀ i ct, aggs !! i = Some ct → shares_sound (j + i) ct) →
  ∃ idx, derive_taus_from config shares pks quorum j aggs taus0 idx0
         = Ok (Some (taus0 ++ (mul G2 <$> ms), idx)).
Proof.
  intros Hv. revert j taus0 idx0.
  induction Hv as [|ct m aggs ms ([C1 C2] & r & Hd & Henc) Hv IH]; intros j taus0 idx0 Hj Hs.
  - eexists. cbn. by rewrite app_nil_r.
  - unfold len in Hj; cbn [length] in Hj. cbn [derive_taus_from].
    pose proof (Hs 0%nat ct eq_refl) as Hs0. rewrite Nat.add_0_r in Hs0.
    pose proof Hd as Hd'. unfold decode_ct in Hd'.
    apply bind_Ok_inv in Hd' as (X & HX & Hd'). apply bind_Ok_inv in Hd' as (Y & HY & [= -> ->]).
    rewrite HX, bind_Ok, HY, bind_Ok, valid_shares_total, bind_Ok by lia.
    destruct (Hs0 _ _ Hd) as [Hl _]. rewrite (proj2 (Z.ltb_ge _ _)) by done.
    destruct (tau_correct j ct C1 C2 m r ltac:(lia) Hs0 Hd Henc) as (sg & -> & Htau). rewrite bind_Ok, Htau.
    edestruct (IH (S j)) as [idx Hidx]; [unfold len; lia| |].
    + intros i ct' Hi. replace (S j + i)%nat with (j + S i)%nat by lia. by apply Hs.
    + exists idx. rewrite Hidx. do 3 f_equal. rewrite fmap_cons. by rewrite <- app_assoc.
Qed.

Lemma recover_correct aggregate ms ceiling :
  let bound := bsgs_bound config (agg_total_scaled_weight aggregate) in
  bound < CURVE_ORDER → (∀ c, ceiling = Some c → bound <= c) →
  holds_votes mpk (aggregates aggregate) ms → Forall (λ m, 0 <= m <= bound) ms → ms ≠ [] →
  len (aggregates aggregate) <= 2 ^ 16 →
  (∀ j ct, aggregates aggregate !! j = Some ct → shares_sound j ct) →
  ∃ idx, recover_result config aggregate shares pks quorum ceiling
         = Ok (Some (mkResultArtifact (election_id config) ms idx bound)).
Proof.
  intros bound Hb Hceil Hv Hms Hne Hl Hs. unfold recover_result. fold bound.
  assert (Hc : match ceiling with Some c => c <? bound | None => false end = false).
  { destruct ceiling as [c|]; [|done]. apply Z.ltb_ge. by apply Hceil. }
  rewrite Hc. cbn [raise_if]. rewrite bind_Ok.
  destruct (derive_taus_correct 0 (aggregates aggregate) ms [] None Hv ltac:(lia)) as [idx Hd]; [done|].
  unfold _derive_taus. rewrite Hd, bind_Ok. cbn [app].
  assert (Hb0 : 0 <= bound).
  { destruct ms as [|m ms]; [done|]. apply Forall_cons in Hms as [? _]. lia. }
  rewrite (proj2 (solve_all_iff bound (mul G2 <$> ms) ms
    ltac:(apply Forall_fmap, Forall_forall; intros; cbn; solve_subgroup) ltac:(lia))); [by eexists|].
  apply Forall2_fmap_l, Forall_Forall2_diag. eapply Forall_impl; [exact Hms|]. done.
Qed.

End recover.

(** ** Totals of well-formed votes *)

Lemma tally_bounds scale bs B j : 1 <= scale →
  Forall (λ bv : AdmittedBallot * list Z, 1 <= ab_weight bv.1 ∧ Forall (λ v, 0 <= v <= B) bv.2 ∧ (j < length bv.2)%nat) bs →
  0 <= tally scale bs j <= B * zsum_with (λ bv, scaled_weight (ab_weight bv.1) scale) bs.
Proof.
  intros Hs. induction 1 as [|[ab vs] bs (Hw & Hv & Hj) _ IH]; [cbn; lia|].
  unfold tally in *. rewrite !fmap_cons, !zsum_cons. cbn [fst snd] in *.
  pose proof (scaled_weight_nonneg (ab_weight ab) scale Hs ltac:(lia)).
  assert (0 <= vs !!! j <= B).
  { destruct (lookup_lt_is_Some_2 vs j Hj) as [v Hvj]. rewrite (list_lookup_total_correct _ _ _ Hvj).
    rewrite Forall_lookup in Hv. by eapply Hv. }
  nia.
Qed.

Lemma zsum_lookup_seq vs n : length vs = n → zsum ((λ j, vs !!! j) <$> seq 0 n) = zsum vs.
Proof.
  intros <-. f_equal. apply list_eq. intros i. rewrite list_lookup_fmap.
  destruct (vs !! i) as [v|] eqn:Hi.
  - rewrite lookup_seq_lt by (by eapply lookup_lt_Some). cbn. by rewrite (list_lookup_total_correct _ _ _ Hi).
  - by rewrite lookup_seq_ge by (by apply lookup_ge_None).
Qed.

(** The totals sum to the budget times the scaled weight. *)
Lemma tally_sum scale bs B nc :
  Forall (λ bv : AdmittedBallot * list Z, length bv.2 = nc ∧ zsum bv.2 = B) bs →
  zsum (tally scale bs <$> seq 0 nc) = B * zsum_with (λ bv, scaled_weight (ab_weight bv.1) scale) bs.
Proof.
  induction 1 as [|[ab vs] bs [Hl Hs] _ IH].
  - cbn. rewrite Z.mul_0_r. unfold tally. generalize (seq 0 nc). intros l. induction l as [|x l IH]; [done|]. exact IH.
  - cbn [fst snd] in *. rewrite fmap_cons, zsum_cons, Z.mul_add_distr_l, <- IH, <- Hs.
    rewrite <- (zsum_lookup_seq vs nc Hl). generalize (seq 0 nc). intros l. clear.
    induction l as [|j l IH]; [cbn; lia|]. rewrite !fmap_cons, !zsum_cons, IH.
    unfold tally at 1 3. rewrite fmap_cons, zsum_cons. cbn [fst snd]. lia.
Qed.

End aggregation.

(** * Properties *)

Section end_to_end.
Context `{CryptoLaws}.

(** Any pair of group elements encrypts something. *)
Lemma encrypts_something mpk c : in_subgroup mpk → ct_subgroup c → ∃ m r, encrypts mpk c m r.
Proof.
  destruct c as [C1 C2]. intros Hm [H1 H2]. cbn [fst snd] in *. dlog.
  exists (Zmod.to_Z (xC2 - xmpk * xC1)%F), (Zmod.to_Z xC1). unfold encrypts, encrypt. cbn [fst]. unfold G2.
  f_equal; to_gmul; f_equal; rewrite ?inF_to_Z; ring.
Qed.

Lemma decode_cts_holds mpk cts pts : in_subgroup mpk →
  decode_cts ((λ ct, (c1 ct, c2 ct)) <$> cts) = Ok pts → ∃ votes, holds_votes mpk cts votes.
Proof.
  intros Hm. unfold decode_cts. revert pts. induction cts as [|ct cts IH]; intros pts Hd.
  - exists []. constructor.
  - rewrite fmap_cons in Hd. cbn [mapM fst snd] in Hd.
    apply bind_Ok_inv in Hd as ([A B] & HAB & Hd). apply bind_Ok_inv in Hd as (pts' & Hp & _).
    destruct (IH _ Hp) as [votes Hv].
    assert (Hct : decode_ct ct = Ok (A, B)) by exact HAB.
    apply bind_Ok_inv in HAB as (A' & HA & HAB). apply bind_Ok_inv in HAB as (B' & HB & [= -> ->]).
    apply from_compressed_Ok in HA as [HA _], HB as [HB _].
    destruct (encrypts_something mpk (A, B) Hm (conj HA HB)) as (m & r & He).
    exists (m :: votes). constructor; [by exists (A, B), r|done].
Qed.

Lemma choose_all {A B} (P : A → B → Prop) (l : list A) : (∀ a, a ∈ l → ∃ b, P a b) →
  ∃ k : list (A * B), l = k.*1 ∧ Forall (λ ab, P ab.1 ab.2) k.
Proof.
  induction l as [|a l IH]; intros Hl; [by exists []|].
  destruct (Hl a) as [b Hb]; [left|]. destruct IH as (k & -> & Hk); [intros a' Ha'; apply Hl; by right|].
  exists ((a, b) :: k). split; [done|by constructor].
Qed.

(** The ballots an admission returns can be aggregated. *)
Lemma admitted_votes ballots config mpk_bytes mpk res : NoDup (sequence_number <$> ballots) →
  g2_from_compressed mpk_bytes = Ok mpk → admit_ballots ballots config mpk_bytes = Ok res →
  ∃ bs, admitted res = bs.*1 ∧
    Forall (λ bv, holds_votes mpk (env_ciphertexts (ab_envelope bv.1)) bv.2 ∧
                  len (env_ciphertexts (ab_envelope bv.1)) = num_candidates config) bs.
Proof.
  intros Hn Hm (mpk' & Hm' & _ & ->)%admit_Ok_iff; [|done].
  assert (mpk' = mpk) as -> by congruence. pose proof (from_compressed_Ok _ _ Hm) as (Hsub & _ & _).
  cbn [admitted admission_spec].
  apply (choose_all (λ a votes, holds_votes mpk (env_ciphertexts (ab_envelope a)) votes ∧
    len (env_ciphertexts (ab_envelope a)) = num_candidates config)).
  intros a (sb & -> & [[Hv _] _]%list_elem_of_filter)%list_elem_of_fmap. cbn [to_admitted ab_envelope].
  apply validate_ballot_Ok_inv in Hv as (_ & _ & _ & _ & _ & _ & Hc).
  apply verify_accepted_inv in Hc as (vk & pts & rp & e & z & R & s & pre & _ & _ & _ & Hl & _ & _ & Hd & _).
  destruct (decode_cts_holds mpk _ pts Hsub Hd) as [votes Hvotes]. exists votes. split; [done|].
  unfold len in *. by rewrite length_fmap in Hl.
Qed.

(** The admitted ballots with their votes: every ballot has one encrypted vote
    per candidate, the votes are in range and spend the budget. *)
Definition well_voted (config : ElectionConfig) (mpk : pt G2ops) (bs : list (AdmittedBallot * list Z)) : Prop :=
  Forall (λ bv, holds_votes mpk (env_ciphertexts (ab_envelope bv.1)) bv.2 ∧
     len (env_ciphertexts (ab_envelope bv.1)) = num_candidates config ∧ 1 <= ab_weight bv.1 ∧
     Forall (λ v, 0 <= v <= budget config) bv.2 ∧ zsum bv.2 = budget config) bs.

Definition totals_of (config : ElectionConfig) (bs : list (AdmittedBallot * list Z)) : list Z :=
  tally (scale config) bs <$> seq 0 (Z.to_nat (num_candidates config)).

Lemma well_voted_totals config mpk bs : well_voted config mpk bs → 1 <= scale config →
  let bound := bsgs_bound config (zsum_with (λ bv, scaled_weight (ab_weight bv.1) (scale config)) bs) in
  Forall (λ m, 0 <= m <= bound) (totals_of config bs) ∧ zsum (totals_of config bs) = bound.
Proof.
  intros Hbs Hsc bound. unfold well_voted in Hbs. rewrite Forall_forall in Hbs.
  assert (Hlv : ∀ bv, bv ∈ bs → length bv.2 = Z.to_nat (num_candidates config)).
  { intros bv Hin. destruct (Hbs bv Hin) as (Hh & Hl & _).
    rewrite <- (Forall2_length _ _ _ Hh). unfold len in Hl. lia. }
  split.
  - apply Forall_fmap, Forall_forall. intros j [_ Hj]%elem_of_seq. cbn -[tally bound].
    apply tally_bounds; [done|]. apply Forall_forall. intros bv Hin. rewrite (Hlv bv Hin).
    destruct (Hbs bv Hin) as (_ & _ & Hw & Hv & _). split_and!; [done|done|lia].
  - apply tally_sum. apply Forall_forall. intros bv Hin. destruct (Hbs bv Hin) as (_ & _ & _ & _ & ?).
    split; [by apply Hlv|done].
Qed.

End end_to_end.

(** C3: solving and checking are equally conclusive: for a bound below the
    group order, the checker accepts the claimed totals exactly when recovery
    without a ceiling returns them and they sum to what the mode requires.
    Nothing is assumed about the shares. *)
Theorem check_equals_recover `{CryptoLaws} config aggregate shares pks q claimed :
  let bound := bsgs_bound config (agg_total_scaled_weight aggregate) in
  0 <= bound < CURVE_ORDER →
  check_result config aggregate shares pks q claimed = Ok (true, None) ↔
  match mode config with EXACT => zsum claimed = bound | AT_MOST => zsum claimed <= bound end ∧
  ∃ res, recover_result config aggregate shares pks q None = Ok (Some res) ∧ totals res = claimed.
Proof. apply check_recover_agree. Qed.

(** C2: the published totals are the weighted votes: if every admitted ballot
    encrypts votes in [0..budget] that sum to the budget, and every candidate
    has a quorum of verified shares of the committee polynomial [p] (of at most
    [quorum] coefficients, with [mpk = p(0) P2]), then aggregation returns,
    recovery returns the totals [Σ_i scaled(w_i) v_ij], and the auditor's check
    accepts them. *)
Theorem tally_correct `{CryptoLaws} config adm bs pks shares quorum p mpk ceiling :
  valid_config config → mode config = EXACT → len (election_id config) = 32 → len pks < 2 ^ 16 →
  NoDup (keyper_index <$> shares) → 1 <= quorum → Z.of_nat (length p) <= quorum →
  mpk = gmul (polyF p F0) → admitted adm = bs.*1 → well_voted config mpk bs →
  let bound := bsgs_bound config (zsum_with (λ bv, scaled_weight (ab_weight bv.1) (scale config)) bs) in
  bound < CURVE_ORDER → (∀ c, ceiling = Some c → bound <= c) →
  (∀ art, build_aggregate_artifact config adm = Ok art →
     ∀ j ct, aggregates art !! j = Some ct → shares_sound config pks shares quorum p j ct) →
  ∃ art idx, build_aggregate_artifact config adm = Ok art ∧
    recover_result config art shares pks quorum ceiling
    = Ok (Some (mkResultArtifact (election_id config) (totals_of config bs) idx bound)) ∧
    check_result config art shares pks quorum (totals_of config bs) = Ok (true, None).
Proof.
  intros [_ (Hnc & _ & Hsc & _)%config_post_init_Ok] Hmode Heid Hpks Hnd Hq Hp Hmpk Had Hbs bound
    Hb Hceil Hsound. unfold MAX_NUM_CANDIDATES in Hnc.
  destruct (well_voted_totals config mpk bs Hbs Hsc) as [Hbounds Hsum]. fold bound in Hbounds, Hsum.
  assert (Hsub : in_subgroup mpk) by (rewrite Hmpk; apply gmul_subgroup).
  destruct (build_aggregate_encrypts mpk Hsub config bs adm Had) as (art & Hart & Htot & Hholds).
  { eapply Forall_impl; [exact Hbs|]. intros bv (? & ? & _). done. }
  fold (totals_of config bs) in Hholds. pose proof (Forall2_length _ _ _ Hholds) as Hlen.
  unfold totals_of in Hlen. rewrite length_fmap, length_seq in Hlen.
  assert (Hb2 : bsgs_bound config (agg_total_scaled_weight art) = bound) by (by rewrite Htot).
  assert (Hne : totals_of config bs ≠ []).
  { intros E%(f_equal length). unfold totals_of in E. rewrite length_fmap, length_seq in E. cbn in E. lia. }
  assert (Hla : len (aggregates art) <= 2 ^ 16) by (unfold len; lia).
  assert (Hrec : ∀ ceil, (∀ c, ceil = Some c → bound <= c) →
    ∃ idx, recover_result config art shares pks quorum ceil
    = Ok (Some (mkResultArtifact (election_id config) (totals_of config bs) idx bound))).
  { intros ceil Hc. rewrite <- Hb2. rewrite <- Hb2 in Hb, Hc, Hbounds.
    apply (recover_correct config pks shares Heid Hpks quorum mpk p Hq Hp Hmpk Hnd); try done.
    by apply Hsound. }
  destruct (Hrec ceiling Hceil) as [idx Hidx]. exists art, idx. split_and!; [done|done|].
  destruct (Hrec None ltac:(done)) as [idx0 Hidx0].
  apply check_recover_agree.
  - rewrite Hb2. split; [|done]. destruct (totals_of config bs) as [|m ?]; [done|].
    apply Forall_cons in Hbounds as [? _]. lia.
  - split; [|by eexists]. unfold sum_ok. by rewrite Hmode, Hb2.
Qed.

(** what was admitted can be aggregated: the artifact of an admission's
    result is always built, with one ciphertext per candidate, the admitted
    sequence numbers, the exclusions and both totals. *)
Theorem admitted_ballots_aggregate `{CryptoLaws} ballots config mpk_bytes res :
  NoDup (sequence_number <$> ballots) → admit_ballots ballots config mpk_bytes = Ok res →
  ∃ art, build_aggregate_artifact config res = Ok art ∧
    len (aggregates art) = Z.max 0 (num_candidates config) ∧
    agg_election_id art = election_id config ∧
    agg_admitted art = ab_sequence_number <$> admitted res ∧
    agg_exclusions art = exclusions res ∧
    agg_total_admitted_weight art = total_admitted_weight res ∧
    agg_total_scaled_weight art = zsum_with (λ a, scaled_weight (ab_weight a) (scale config)) (admitted res).
Proof.
  intros Hn Ha. pose proof Ha as (mpk & Hm & _ & _)%admit_Ok_iff; [|done].
  destruct (admitted_votes ballots config mpk_bytes mpk res Hn Hm Ha) as (bs & Had & Hbs).
  apply from_compressed_Ok in Hm as (Hsub & _ & _).
  destruct (build_aggregate_encrypts mpk Hsub config bs res Had Hbs) as (art & Hart & _ & Hholds).
  exists art. split; [done|]. pose proof (Forall2_length _ _ _ Hholds) as Hl.
  rewrite length_fmap, length_seq in Hl. split; [unfold len; lia|].
  unfold build_aggregate_artifact in Hart. apply bind_Ok_inv in Hart as (pts & _ & Hart).
  apply bind_Ok_inv in Hart as (wire & _ & [= <-]). done.
Qed.

(** one weight in tally units is rounded half up to the nearest multiple of
    the scale: [scaled_weight w s] is the only [k] with [w] in
    [[s k - s/2, s k + (s - s/2))]; at scale one it is the weight itself. *)
Theorem scaled_weight_half_up w s k : 1 <= s →
  (scaled_weight w s = k ↔ s * k - s / 2 <= w < s * k + (s - s / 2)) ∧ scaled_weight w 1 = w.
Proof.
  intros Hs. split; [by apply scaled_weight_spec|]. apply scaled_weight_spec; [lia|].
  change (1 / 2) with 0. lia.
Qed.

(** ** A tally of two ballots with a two-of-three committee *)

Module tally_example.
#[local] Existing Instance concrete_crypto.

Definition config : ElectionConfig := admission_example.config.
Definition p : list F := [inF 5; inF 3].
Definition mpk : pt G2ops := mul G2 5.
Definition pks : list bytes := (λ i, pt_to_compressed G2ops (mul G2 (5 + 3 * i))) <$> [1; 2; 3].

(** A ballot of weight [w] for the votes [vs], and its votes. *)
Definition voted (seq w : Z) (vs : list Z) : AdmittedBallot * list Z :=
  (mkAdmittedBallot seq
     (mkBallotEnvelope [] [] [] ((λ v, let c := (encrypt mpk v (7 + v)).1 in
        mkWireCiphertext (pt_to_compressed G2ops c.1) (pt_to_compressed G2ops c.2)) <$> vs) [] []
        (mkAttestation [] [] [] w [] V1 1)) w, vs).
Definition bs : list (AdmittedBallot * list Z) := [voted 0 3 [0; 1]; voted 1 4 [1; 0]].
Definition adm : AdmissionResult := mkAdmissionResult bs.*1 [] 7.

Definition art : AggregateArtifact := Eval vm_compute in
  try_or (build_aggregate_artifact config adm) (mkAggregateArtifact [] [] [] [] 0 0).

(** The share of keyper [i] for candidate [j]. *)
Definition entry (i : Z) (j : nat) (ct : WireCiphertext) : DecryptionShareEntry :=
  let sk := 5 + 3 * i in
  try_or ('(C1, C2) ← decode_ct ct;
          t ← make_decrypt_transcript (election_id config) (Z.of_nat j);
          let sg := mul C1 sk in
          '(e, z, _) ← prove_decryption_share C1 C2 (mul G2 sk) sg sk i (20 + i) t;
          b ← encode_dleq e z;
          Ok (mkDecryptionShareEntry (pt_to_compressed G2ops sg) b)) (mkDecryptionShareEntry [] []).
Definition share (i : Z) : DecryptionShareEnvelope :=
  mkDecryptionShareEnvelope (election_id config) i (imap (entry i) (aggregates art)).
Definition shares : list DecryptionShareEnvelope := Eval vm_compute in [share 1; share 3].

Definition sound_b (j : nat) (ct : WireCiphertext) : bool :=
  match decode_ct ct with
  | Ok (C1, C2) =>
      let l := omap (contribution config pks j C1 C2) shares in
      (2 <=? len l) && forallb (λ '(idx, sg), point_eq sg (mul C1 (Zmod.to_Z (polyF p (inF idx))))) l
  | Err _ => true
  end.

Lemma sound_b_spec j ct : sound_b j ct = true → shares_sound config pks shares 2 p j ct.
Proof.
  unfold sound_b. intros Hb C1 C2 Hd. rewrite Hd in Hb. apply andb_prop in Hb as [Hl Hf].
  split; [by apply Z.leb_le|]. intros idx sg Hin. rewrite forallb_forall in Hf.
  apply list_elem_of_In, Hf in Hin. by apply point_eq_spec in Hin.
Qed.

Lemma all_sound : forallb (λ '(j, ct), sound_b j ct) (imap pair (aggregates art)) = true.
Proof. vm_compute. reflexivity. Qed.

Lemma art_sound j ct : aggregates art !! j = Some ct → shares_sound config pks shares 2 p j ct.
Proof.
  intros Hj. apply sound_b_spec. pose proof all_sound as Ha. revert Ha. rewrite forallb_forall.
  intros Ha. specialize (Ha (j, ct)). cbv beta iota in Ha. apply Ha. apply list_elem_of_In, list_elem_of_lookup.
  exists j. rewrite list_lookup_imap, Hj. reflexivity.
Qed.

Lemma built_b : bool_decide (build_aggregate_artifact config adm = Ok art) = true.
Proof. vm_compute. reflexivity. Qed.

Lemma built : build_aggregate_artifact config adm = Ok art.
Proof. exact (bool_decide_eq_true_1 _ built_b). Qed.

Lemma voted_holds seq w vs : holds_votes mpk (env_ciphertexts (ab_envelope (voted seq w vs).1)) vs.
Proof.
  cbn [voted fst ab_envelope env_ciphertexts]. unfold holds_votes. apply Forall2_fmap_l, Forall_Forall2_diag.
  apply Forall_forall. intros v _. exists (encrypt mpk v (7 + v)).1, (7 + v). split; [|done].
  apply decode_ct_compressed, encrypt_subgroup. vm_compute. reflexivity.
Qed.

Lemma bs_well_voted : well_voted config mpk bs.
Proof.
  repeat apply Forall_cons_2; [| |apply Forall_nil_2];
    (split_and!; [apply voted_holds|reflexivity|cbn; lia| |reflexivity]);
    apply (bool_decide_unpack _); vm_compute; exact I.
Qed.

Lemma mpk_poly : mpk = gmul (polyF p F0).
Proof. unfold mpk, G2, p. to_gmul. f_equal. Qed.
End tally_example.

Lemma check_equals_recover_witness :
  let c := concrete_crypto in
  let art := tally_example.art in
  0 <= bsgs_bound tally_example.config (agg_total_scaled_weight art) < CURVE_ORDER ∧
  ∃ res, recover_result tally_example.config art tally_example.shares tally_example.pks 2 None = Ok (Some res)
    ∧ totals res = [4; 3].
Proof.
  intros c art.
  assert (Hb : 0 <= bsgs_bound tally_example.config (agg_total_scaled_weight art) < CURVE_ORDER).
  { split; [apply Z.leb_le|apply Z.ltb_lt]; vm_compute; reflexivity. }
  split; [exact Hb|].
  apply (check_equals_recover tally_example.config art tally_example.shares tally_example.pks 2 [4; 3] Hb).
  vm_compute. reflexivity.
Defined.

Lemma tally_correct_witness :
  let c := concrete_crypto in
  ∃ art idx, build_aggregate_artifact tally_example.config tally_example.adm = Ok art ∧
    recover_result tally_example.config art tally_example.shares tally_example.pks 2 (Some 100)
    = Ok (Some (mkResultArtifact (election_id tally_example.config) [4; 3] idx 7)) ∧
    check_result tally_example.config art tally_example.shares tally_example.pks 2 [4; 3] = Ok (true, None).
Proof.
  intros c.
  apply (tally_correct tally_example.config tally_example.adm tally_example.bs tally_example.pks
    tally_example.shares 2 tally_example.p tally_example.mpk (Some 100)).
  - apply (bool_decide_unpack _). vm_compute. exact I.
  - reflexivity.
  - reflexivity.
  - reflexivity.
  - apply (bool_decide_unpack _). vm_compute. exact I.
  - lia.
  - cbn. lia.
  - apply tally_example.mpk_poly.
  - reflexivity.
  - apply tally_example.bs_well_voted.
  - apply Z.ltb_lt. vm_compute. reflexivity.
  - intros ceil [= <-]. apply Z.leb_le. vm_compute. reflexivity.
  - intros art Hart. rewrite tally_example.built in Hart. apply Ok_inj in Hart. subst art.
    apply tally_example.art_sound.
Defined.

Lemma admitted_ballots_aggregate_witness :
  let c := concrete_crypto in
  ∃ res art, admit_ballots admission_example.stored_ballots admission_example.config admission_example.mpk_bytes = Ok res ∧
    build_aggregate_artifact admission_example.config res = Ok art ∧
    agg_admitted art = ab_sequence_number <$> admitted res.
Proof.
  intros c. eexists. 
  destruct (admitted_ballots_aggregate _ _ _ _ admission_example.stored_distinct
    admission_example.stored_admitted) as (art & Hart & _ & _ & Hadm & _).
  exists art. exact (conj admission_example.stored_admitted (conj Hart Hadm)).
Defined.

Lemma scaled_weight_half_up_witness : scaled_weight 15 10 = 2 ∧ scaled_weight 14 10 = 1.
Proof.
  split; [apply (scaled_weight_half_up 15 10 2)|apply (scaled_weight_half_up 14 10 1)];
    try lia; vm_compute; split; (reflexivity || discriminate).
Defined.
