(* ===== verification/Codecs.v ===== *)
(** JSON transport codecs (envelopes/codecs.py): every artifact to and from a
    JSON value with [0x]-hex byte fields, with the format and size checks of the
    decoders. *)

From Stdlib Require Import Ascii.
From S2P Require Import Prelude Params Types Config.

(** * JSON values

    What [json.loads] returns.  A float is [m * 2^e]; an object is a dict with
    its keys in insertion order. *)

#[warnings="-register-all"]
Inductive json : Type :=
| JNull
| JBool (b : bool)
| JInt (n : Z)
| JFloat (m e : Z)
| JStr (s : string)
| JArr (l : list json)
| JObj (o : list (string * json)).

(** [bool(v)] *)
Definition py_bool (v : json) : bool :=
  match v with
  | JNull => false
  | JBool b => b
  | JInt n => negb (n =? 0)
  | JFloat m _ => negb (m =? 0)
  | JStr s => negb (String.eqb s "")
  | JArr l => match l with [] => false | _ => true end
  | JObj o => match o with [] => false | _ => true end
  end.

(** ** [int(v)]

    On strings: surrounding white space, a sign, and decimal digits that single
    underscores may separate (non-ASCII digits are not modelled). *)

Definition is_space (c : Ascii.ascii) : bool :=
  let n := Ascii.nat_of_ascii c in
  (n =? 32)%nat || ((9 <=? n) && (n <=? 13))%nat || ((28 <=? n) && (n <=? 31))%nat.

Fixpoint lstrip (s : string) : string :=
  match s with
  | String c s' => if is_space c then lstrip s' else s
  | EmptyString => ""
  end.

(** Only white space is left. *)
Fixpoint all_space (s : string) : bool :=
  match s with String c s => is_space c && all_space s | EmptyString => true end.

Definition digit (c : Ascii.ascii) : option Z :=
  let n := Z.of_N (Ascii.N_of_ascii c) in
  if (48 <=? n) && (n <=? 57) then Some (n - 48) else None.

(** After at least one digit; [acc] is the value so far. *)
Fixpoint parse_digits (acc : Z) (s : string) : option Z :=
  match s with
  | EmptyString => Some acc
  | String c s1 =>
      match digit c with
      | Some d => parse_digits (acc * 10 + d) s1
      | None =>
          if Ascii.eqb c "_"%char then
            match s1 with
            | String c' s2 =>
                match digit c' with Some d => parse_digits (acc * 10 + d) s2 | None => None end
            | EmptyString => None
            end
          else if all_space s then Some acc else None
      end
  end.

Definition parse_unsigned (s : string) : option Z :=
  match s with
  | String c s => match digit c with Some d => parse_digits d s | None => None end
  | EmptyString => None
  end.

Definition py_int_of_str (s : string) : result Z :=
  let s := lstrip s in
  let r := match s with
           | String "-"%char s => Z.opp <$> parse_unsigned s
           | String "+"%char s => parse_unsigned s
           | _ => parse_unsigned s
           end in
  match r with Some n => Ok n | None => Err ValueError end.

Definition py_int (v : json) : result Z :=
  match v with
  | JInt n => Ok n
  | JBool b => Ok (Z.b2z b)
  | JFloat m e => Ok (if 0 <=? e then m * 2 ^ e else Z.quot m (2 ^ (- e)))
  | JStr s => py_int_of_str s
  | JNull | JArr _ | JObj _ => Err TypeError
  end.

(** * Primitive helpers *)

Definition hex_char (n : Z) : Ascii.ascii :=
  Ascii.ascii_of_N (Z.to_N (if n <? 10 then 48 + n else 87 + n)).

Fixpoint hex (b : bytes) : string :=
  match b with
  | [] => ""
  | x :: b => String (hex_char (byte_val x / 16)) (String (hex_char (byte_val x mod 16)) (hex b))
  end.

Definition enc_bytes (b : bytes) : json := JStr ("0x" +:+ hex b).

Definition hex_value (c : Ascii.ascii) : option Z :=
  let n := Z.of_N (Ascii.N_of_ascii c) in
  if (48 <=? n) && (n <=? 57) then Some (n - 48)
  else if (97 <=? n) && (n <=? 102) then Some (n - 87)
  else if (65 <=? n) && (n <=? 70) then Some (n - 55)
  else None.

Definition is_hex_space (c : Ascii.ascii) : bool :=
  let n := Ascii.nat_of_ascii c in (n =? 32)%nat || ((9 <=? n) && (n <=? 13))%nat.

(** [bytes.fromhex]: white space is allowed between bytes, not inside one. *)
Fixpoint fromhex (s : string) : option bytes :=
  match s with
  | EmptyString => Some []
  | String c s1 =>
      if is_hex_space c then fromhex s1 else
      match hex_value c, s1 with
      | Some hi, String c' s2 =>
          match hex_value c' with
          | Some lo => b ← fromhex s2; Some (byte_of (hi * 16 + lo) :: b)
          | None => None
          end
      | _, _ => None
      end
  end.

Definition dec_bytes (value : json) (size : option Z) : result bytes :=
  match value with
  | JStr (String "0"%char (String "x"%char body)) =>
      match fromhex body with
      | None => Err CodecError
      | Some raw =>
          _ ← raise_if (match size with Some n => negb (len raw =? n) | None => false end) CodecError;
          Ok raw
      end
  | _ => Err CodecError
  end.

Definition _req (d : json) (key : string) : result json :=
  match d with
  | JObj o => match dict_get o key with Some v => Ok v | None => Err CodecError end
  | _ => Err CodecError
  end.

(** [d.get(key, default)] on a dict. *)
Definition get_or (d : json) (key : string) (dflt : json) : json :=
  match d with JObj o => default dflt (dict_get o key) | _ => dflt end.

Definition _int (value : json) (minimum : option Z) : result Z :=
  match value with
  | JInt n =>
      _ ← raise_if (match minimum with Some m => n <? m | None => false end) CodecError;
      Ok n
  | _ => Err CodecError
  end.

Definition _list (value : json) : result (list json) :=
  match value with JArr l => Ok l | _ => Err CodecError end.

(** [_enum], and the enum calls of the decoders: a member is found by its value. *)
Definition _enum {A} (members : list (string * A)) (value : json) : result A :=
  match value with
  | JStr s => match dict_get members s with Some m => Ok m | None => Err CodecError end
  | _ => Err CodecError
  end.

(** * Artifacts *)

Definition enc_ciphertext (ct : WireCiphertext) : json :=
  JObj [("c1", enc_bytes (c1 ct)); ("c2", enc_bytes (c2 ct))].

Definition dec_ciphertext (d : json) : result WireCiphertext :=
  v1 ← _req d "c1"; b1 ← dec_bytes v1 (Some G2_BYTES);
  v2 ← _req d "c2"; b2 ← dec_bytes v2 (Some G2_BYTES);
  Ok (mkWireCiphertext b1 b2).

Definition scheme_value (s : AttestationScheme) : string := match s with V1 => "ATTESTATION_V1" end.
Definition schemes : list (string * AttestationScheme) := [("ATTESTATION_V1", V1)].

Definition enc_attestation (a : Attestation) : json :=
  JObj [("scheme", JStr (scheme_value (att_scheme a)));
        ("electionId", enc_bytes (att_election_id a));
        ("pseudonym", enc_bytes (att_pseudonym a));
        ("vk", enc_bytes (att_vk a));
        ("weight", JInt (att_weight a));
        ("nonce", JInt (att_nonce a));
        ("signature", enc_bytes (att_signature a))].

Definition dec_attestation (d : json) : result Attestation :=
  scheme ← _enum schemes (match d with
                          | JObj o => default (JStr "ATTESTATION_V1") (dict_get o "scheme")
                          | _ => JNull
                          end);
  nonce ← match d with
          | JObj o => match dict_get o "nonce" with Some v => _int v (Some 1) | None => Ok 1 end
          | _ => Ok 1
          end;
  v ← _req d "electionId"; eid ← dec_bytes v (Some BYTES32);
  v ← _req d "pseudonym"; ps ← dec_bytes v (Some BYTES32);
  v ← _req d "vk"; vk ← dec_bytes v (Some G1_BYTES);
  v ← _req d "weight"; w ← _int v (Some 1);
  v ← _req d "signature"; sig ← dec_bytes v (Some SCHNORR_BYTES);
  Ok (mkAttestation eid ps vk w sig scheme nonce).

Definition enc_ballot (b : BallotEnvelope) : json :=
  JObj [("electionId", enc_bytes (env_election_id b));
        ("pseudonym", enc_bytes (env_pseudonym b));
        ("vk", enc_bytes (env_vk b));
        ("ciphertexts", JArr (enc_ciphertext <$> env_ciphertexts b));
        ("zkProof", enc_bytes (env_zk_proof b));
        ("voterSignature", enc_bytes (env_voter_signature b));
        ("attestation", enc_attestation (env_attestation b))].

Definition dec_ballot (d : json) : result BallotEnvelope :=
  v ← _req d "ciphertexts"; cts ← _list v;
  v ← _req d "electionId"; eid ← dec_bytes v (Some BYTES32);
  v ← _req d "pseudonym"; ps ← dec_bytes v (Some BYTES32);
  v ← _req d "vk"; vk ← dec_bytes v (Some G1_BYTES);
  cts ← mapM dec_ciphertext cts;
  v ← _req d "zkProof"; zk ← dec_bytes v None;
  v ← _req d "voterSignature"; sig ← dec_bytes v (Some SCHNORR_BYTES);
  v ← _req d "attestation"; att ← dec_attestation v;
  Ok (mkBallotEnvelope eid ps vk cts zk sig att).

Definition enc_dkg_result (s : DKGResultSubmission) : json :=
  JObj [("electionId", enc_bytes (dkg_election_id s));
        ("pkElection", enc_bytes (dkg_pk_election s));
        ("committeePKs", JArr (enc_bytes <$> dkg_committee_pks s));
        ("keyperSignature", enc_bytes (dkg_keyper_signature s))].

Definition dec_dkg_result (d : json) : result DKGResultSubmission :=
  v ← _req d "committeePKs"; pks ← _list v;
  v ← _req d "electionId"; eid ← dec_bytes v (Some BYTES32);
  v ← _req d "pkElection"; pk ← dec_bytes v (Some G2_BYTES);
  pks ← mapM (λ p, dec_bytes p (Some G2_BYTES)) pks;
  v ← _req d "keyperSignature"; sig ← dec_bytes v None;
  Ok (mkDKGResultSubmission eid pk pks sig).

Definition enc_decryption_share (s : DecryptionShareEnvelope) : json :=
  JObj [("electionId", enc_bytes (share_election_id s));
        ("keyperIndex", JInt (keyper_index s));
        ("entries", JArr ((λ e, JObj [("sigma", enc_bytes (sigma e)); ("proof", enc_bytes (proof e))])
                            <$> entries s))].

Definition dec_share_entry (e : json) : result DecryptionShareEntry :=
  v ← _req e "sigma"; s ← dec_bytes v (Some G2_BYTES);
  v ← _req e "proof"; p ← dec_bytes v (Some DLEQ_BYTES);
  Ok (mkDecryptionShareEntry s p).

Definition dec_decryption_share (d : json) : result DecryptionShareEnvelope :=
  v ← _req d "entries"; es ← _list v;
  v ← _req d "electionId"; eid ← dec_bytes v (Some BYTES32);
  v ← _req d "keyperIndex"; idx ← _int v (Some 0);
  es ← mapM dec_share_entry es;
  Ok (mkDecryptionShareEnvelope eid idx es).

Definition reasons : list (string * ExclusionReason) := (λ r, (reason_value r, r)) <$> all_reasons.

Definition enc_exclusion (x : Exclusion) : json :=
  JObj [("sequenceNumber", JInt (exc_sequence_number x)); ("reason", JStr (reason_value (reason x)))].

Definition _dec_exclusion (d : json) : result Exclusion :=
  v ← _req d "reason"; r ← _enum reasons v;
  v ← _req d "sequenceNumber"; s ← _int v (Some 0);
  Ok (mkExclusion s r).

Definition enc_aggregate (a : AggregateArtifact) : json :=
  JObj [("electionId", enc_bytes (agg_election_id a));
        ("aggregates", JArr (enc_ciphertext <$> aggregates a));
        ("admitted", JArr (JInt <$> agg_admitted a));
        ("exclusions", JArr (enc_exclusion <$> agg_exclusions a));
        ("totalAdmittedWeight", JInt (agg_total_admitted_weight a));
        ("totalScaledWeight", JInt (agg_total_scaled_weight a))].

Definition dec_aggregate (d : json) : result AggregateArtifact :=
  v ← _req d "aggregates"; aggs ← _list v;
  v ← _req d "admitted"; adm ← _list v;
  v ← _req d "exclusions"; exc ← _list v;
  v ← _req d "electionId"; eid ← dec_bytes v (Some BYTES32);
  aggs ← mapM dec_ciphertext aggs;
  adm ← mapM (λ s, _int s (Some 0)) adm;
  exc ← mapM _dec_exclusion exc;
  v ← _req d "totalAdmittedWeight"; total ← _int v (Some 0);
  v ← _req d "totalAdmittedWeight"; scaled ← _int (get_or d "totalScaledWeight" v) (Some 0);
  Ok (mkAggregateArtifact eid aggs adm exc total scaled).

Definition enc_result (r : ResultArtifact) : json :=
  JObj [("electionId", enc_bytes (res_election_id r));
        ("totals", JArr (JInt <$> totals r));
        ("keyperIndices", JArr (JInt <$> keyper_indices r));
        ("bsgsBound", JInt (res_bsgs_bound r))].

Definition dec_result (d : json) : result ResultArtifact :=
  v ← _req d "totals"; tot ← _list v;
  v ← _req d "keyperIndices"; idx ← _list v;
  v ← _req d "electionId"; eid ← dec_bytes v (Some BYTES32);
  tot ← mapM (λ t, _int t (Some 0)) tot;
  idx ← mapM (λ t, _int t (Some 0)) idx;
  v ← _req d "bsgsBound"; b ← _int v (Some 0);
  Ok (mkResultArtifact eid tot idx b).

(** * Election configuration *)

Definition modes : list (string * Mode) := [("exact", EXACT); ("atMost", AT_MOST)].
Definition mode_value (m : Mode) : string := match m with EXACT => "exact" | AT_MOST => "atMost" end.
Definition variants : list (string * Variant) := [("A", VariantA); ("B", VariantB)].
Definition variant_value (v : Variant) : string := match v with VariantA => "A" | VariantB => "B" end.
Definition policies : list (string * DuplicatePolicy) :=
  [("first-wins", FIRST_WINS); ("last-wins", LAST_WINS)].
Definition policy_value (p : DuplicatePolicy) : string :=
  match p with FIRST_WINS => "first-wins" | LAST_WINS => "last-wins" end.

Definition enc_config (c : ElectionConfig) : json :=
  JObj [("electionId", enc_bytes (election_id c));
        ("numCandidates", JInt (num_candidates c));
        ("budget", JInt (budget c));
        ("mode", JStr (mode_value (mode c)));
        ("variant", JStr (variant_value (variant c)));
        ("weighted", JBool (weighted c));
        ("scale", JInt (scale c));
        ("duplicatePolicy", JStr (policy_value (duplicate_policy c)));
        ("votingStart", JInt (voting_start c));
        ("votingEnd", JInt (voting_end c));
        ("threshold", JObj [("t", JInt (thr_t (threshold c))); ("n", JInt (thr_n (threshold c)))]);
        ("keypers", JArr ((λ k, JObj [("signingKey", enc_bytes (signing_key k)); ("url", JStr (url k))])
                            <$> keypers c));
        ("eligibilityKey", enc_bytes (eligibility_key c));
        ("resultPublisherKey", enc_bytes (result_publisher_key c));
        ("gatewayKeys", JArr (enc_bytes <$> gateway_keys c));
        ("adminKey", enc_bytes (admin_key c));
        ("protocolVersion", JStr (protocol_version c));
        ("selfSubmitFee", JStr (pretty (self_submit_fee_wei c)))].

(** [except ValueError]: a [CodecError] is raised again, any other one becomes a
    [CodecError]; other exceptions pass. *)
Definition as_codec_error {A} (m : result A) : result A :=
  match m with Err e => Err (if is_value_error e then CodecError else e) | Ok a => Ok a end.

Section dec_config.
(** [repr] of the values that are not strings, which [str] returns for them. *)
Context (py_repr : json → string).

Definition py_str (v : json) : string := match v with JStr s => s | _ => py_repr v end.

Definition dec_keyper (k : json) : result KeyperIdentity :=
  v ← _req k "signingKey"; key ← dec_bytes v None;
  u ← _req k "url";
  Ok (mkKeyperIdentity key (py_str u)).

Definition dec_config (d : json) : result ElectionConfig :=
  th ← _req d "threshold";
  v ← _req d "keypers"; kps ← _list v;
  as_codec_error (
    v ← _req d "electionId"; eid ← dec_bytes v (Some BYTES32);
    v ← _req d "numCandidates"; nc ← _int v (Some 1);
    v ← _req d "budget"; bud ← _int v (Some 1);
    v ← _req d "mode"; md ← _enum modes v;
    v ← _req d "variant"; var ← _enum variants v;
    w ← _req d "weighted";
    sc ← _int (get_or d "scale" (JInt 1)) (Some 1);
    v ← _req d "duplicatePolicy"; pol ← _enum policies v;
    v ← _req d "votingStart"; vs ← _int v None;
    v ← _req d "votingEnd"; ve ← _int v None;
    v ← _req th "t"; t ← _int v None;
    v ← _req th "n"; n ← _int v None;
    let thr := mkThreshold t n in
    _ ← threshold_post_init thr;
    kps ← mapM dec_keyper kps;
    v ← _req d "eligibilityKey"; ek ← dec_bytes v None;
    v ← _req d "resultPublisherKey"; rk ← dec_bytes v None;
    v ← _req d "gatewayKeys"; gks ← _list v;
    gks ← mapM (λ g, dec_bytes g None) gks;
    v ← _req d "adminKey"; ak ← dec_bytes v None;
    pv ← _req d "protocolVersion";
    fee ← (let f := get_or d "selfSubmitFee" (JInt 0) in if py_bool f then py_int f else Ok 0);
    let c := mkElectionConfig eid nc bud md var (py_bool w) pol vs ve thr kps ek rk gks ak
               (py_str pv) sc fee in
    _ ← config_post_init c;
    Ok c).

End dec_config.

(** * Hexadecimal *)

Lemma hex_char_value n : 0 <= n < 16 →
  hex_value (hex_char n) = Some n ∧ is_hex_space (hex_char n) = false.
Proof.
  intros Hn. assert (Hc : n ∈ seqZ 0 16) by (apply elem_of_seqZ; lia).
  repeat (apply elem_of_cons in Hc as [->|Hc]; [by split|]). by apply not_elem_of_nil in Hc.
Qed.

Lemma fromhex_hex b : fromhex (hex b) = Some b.
Proof.
  induction b as [|x b IH]; [done|]. pose proof (byte_val_range x) as Hx.
  cbn [hex fromhex].
  destruct (hex_char_value (byte_val x / 16)) as [E1 S1];
    [split; [apply Z.div_pos; lia|apply Z.div_lt_upper_bound; lia]|].
  destruct (hex_char_value (byte_val x mod 16)) as [E2 _]; [apply Z.mod_pos_bound; lia|].
  rewrite S1, E1, E2, IH. cbn. do 2 f_equal.
  rewrite <- (byte_of_val x) at 3. f_equal. rewrite (Z.div_mod (byte_val x) 16) at 3 by lia. lia.
Qed.

Lemma dec_enc_bytes b size : match size with Some n => len b = n | None => True end →
  dec_bytes (enc_bytes b) size = Ok b.
Proof.
  intros Hs. unfold enc_bytes.
  change ("0x" +:+ hex b) with (String "0"%char (String "x"%char (hex b))).
  unfold dec_bytes. cbn beta iota. rewrite fromhex_hex.
  destruct size as [n|]; [|done]. by rewrite Hs, Z.eqb_refl.
Qed.

Lemma dec_bytes_size v n b : dec_bytes v (Some n) = Ok b → len b = n.
Proof.
  unfold dec_bytes. intros Hd. repeat case_match; try done. inv_ok. subst.
  by apply negb_false_iff, Z.eqb_eq in Hv.
Qed.

Lemma _int_min v m n : _int v (Some m) = Ok n → m <= n.
Proof. unfold _int. destruct v; try done. intros Hd. inv_ok. subst. by apply Z.ltb_ge in Hv. Qed.

Lemma _int_JInt n m : match m with Some k => k <= n | None => True end → _int (JInt n) m = Ok n.
Proof.
  intros Hm. unfold _int. destruct m as [k|]; [|done]. by rewrite (proj2 (Z.ltb_ge _ _)).
Qed.

Lemma _req_here k v o : _req (JObj ((k, v) :: o)) k = Ok v.
Proof. unfold _req. cbn [dict_get]. by rewrite decide_True. Qed.
Lemma _req_there k k' v o : k ≠ k' → _req (JObj ((k', v) :: o)) k = _req (JObj o) k.
Proof. intros Hk. unfold _req. cbn [dict_get]. by rewrite decide_False. Qed.
Lemma dict_get_here {V} (k : string) (v : V) o : dict_get ((k, v) :: o) k = Some v.
Proof. cbn [dict_get]. by rewrite decide_True. Qed.
Lemma dict_get_there {V} (k k' : string) (v : V) o : k ≠ k' → dict_get ((k', v) :: o) k = dict_get o k.
Proof. intros Hk. cbn [dict_get]. by rewrite decide_False. Qed.

Lemma get_or_here k v o d : get_or (JObj ((k, v) :: o)) k d = v.
Proof. unfold get_or. by rewrite dict_get_here. Qed.
Lemma get_or_there k k' v o d : k ≠ k' → get_or (JObj ((k', v) :: o)) k d = get_or (JObj o) k d.
Proof. intros Hk. unfold get_or. by rewrite dict_get_there. Qed.
Lemma _list_JArr l : _list (JArr l) = Ok l.
Proof. done. Qed.

(** Runs a decoder on an encoded object. *)
Ltac dec_step :=
  first [rewrite _req_here | rewrite _req_there by done | rewrite dict_get_here
        | rewrite dict_get_there by done | rewrite get_or_here | rewrite get_or_there by done | rewrite bind_Ok | rewrite _list_JArr
        | rewrite dec_enc_bytes by done | rewrite _int_JInt by done].
Ltac dec_run := repeat dec_step.

(** Inverts a decoder that returned. *)
Ltac inv_dec :=
  repeat match goal with
  | Hd : (_ ≫= _) = Ok _ |- _ => apply bind_Ok_inv in Hd as (? & ? & Hd)
  end.

Lemma mapM_dec_enc {A} (enc : A → json) (dec : json → result A) l :
  Forall (λ x, dec (enc x) = Ok x) l → mapM dec (enc <$> l) = Ok l.
Proof.
  induction 1 as [|x l Hx _ IH]; [done|]. rewrite fmap_cons. cbn [mapM]. by rewrite Hx, bind_Ok, IH, bind_Ok.
Qed.

Lemma mapM_dec_Forall {A} (dec : json → result A) (P : A → Prop) l k :
  (∀ v x, dec v = Ok x → P x) → mapM dec l = Ok k → Forall P k.
Proof.
  intros Hd Hk. apply mapM_Ok in Hk. induction Hk; constructor; eauto.
Qed.

(** * Ballots *)

Definition ciphertext_wf (ct : WireCiphertext) : Prop := len (c1 ct) = 96 ∧ len (c2 ct) = 96.

Definition attestation_wf (a : Attestation) : Prop :=
  len (att_election_id a) = 32 ∧ len (att_pseudonym a) = 32 ∧ len (att_vk a) = 48 ∧
  1 <= att_weight a ∧ 1 <= att_nonce a ∧ len (att_signature a) = 80.

Definition ballot_wf (b : BallotEnvelope) : Prop :=
  len (env_election_id b) = 32 ∧ len (env_pseudonym b) = 32 ∧ len (env_vk b) = 48 ∧
  Forall ciphertext_wf (env_ciphertexts b) ∧ len (env_voter_signature b) = 80 ∧
  attestation_wf (env_attestation b).

Lemma dec_enc_ciphertext ct : ciphertext_wf ct → dec_ciphertext (enc_ciphertext ct) = Ok ct.
Proof. intros [H1 H2]. unfold dec_ciphertext, enc_ciphertext. dec_run. by destruct ct. Qed.

Lemma dec_ciphertext_wf d ct : dec_ciphertext d = Ok ct → ciphertext_wf ct.
Proof.
  unfold dec_ciphertext. intros Hd. inv_dec. injection Hd as <-.
  split; cbn [c1 c2]; by eapply dec_bytes_size.
Qed.

Lemma dec_enc_attestation a : attestation_wf a → dec_attestation (enc_attestation a) = Ok a.
Proof.
  intros (H1 & H2 & H3 & H4 & H5 & H6). unfold dec_attestation, enc_attestation.
  destruct a as [eid ps vk w sig [] n].
  cbn [att_election_id att_pseudonym att_vk att_weight att_nonce att_signature att_scheme scheme_value] in *.
  dec_run. cbn [from_option id]. unfold _enum, schemes. by dec_run.
Qed.

Lemma dec_attestation_wf d a : dec_attestation d = Ok a → attestation_wf a.
Proof.
  unfold dec_attestation. intros Hd. inv_dec. injection Hd as <-.
  unfold attestation_wf.
  cbn [att_election_id att_pseudonym att_vk att_weight att_nonce att_signature].
  split_and!; try (by eapply dec_bytes_size); try (by eapply _int_min).
  destruct d; simplify_eq; try lia. destruct (dict_get o "nonce"); simplify_eq; [by eapply _int_min|lia].
Qed.

Lemma dec_enc_ballot b : ballot_wf b → dec_ballot (enc_ballot b) = Ok b.
Proof.
  intros (H1 & H2 & H3 & H4 & H5 & H6). unfold dec_ballot, enc_ballot. dec_run.
  rewrite mapM_dec_enc.
  2: { eapply Forall_impl; [exact H4|]. apply dec_enc_ciphertext. }
  dec_run. rewrite dec_enc_attestation by done. dec_run. by destruct b.
Qed.

Lemma dec_ballot_wf d b : dec_ballot d = Ok b → ballot_wf b.
Proof.
  unfold dec_ballot. intros Hd. inv_dec. injection Hd as <-. unfold ballot_wf.
  cbn [env_election_id env_pseudonym env_vk env_ciphertexts env_voter_signature env_attestation].
  split_and!; try (by eapply dec_bytes_size); try (by eapply dec_attestation_wf).
  eapply mapM_dec_Forall; [apply dec_ciphertext_wf|done].
Qed.

(** * Tally artifacts *)

Definition dkg_result_wf (s : DKGResultSubmission) : Prop :=
  len (dkg_election_id s) = 32 ∧ len (dkg_pk_election s) = 96 ∧
  Forall (λ p, len p = 96) (dkg_committee_pks s).

Definition share_wf (s : DecryptionShareEnvelope) : Prop :=
  len (share_election_id s) = 32 ∧ 0 <= keyper_index s ∧
  Forall (λ e, len (sigma e) = 96 ∧ len (proof e) = 64) (entries s).

Definition aggregate_wf (a : AggregateArtifact) : Prop :=
  len (agg_election_id a) = 32 ∧ Forall ciphertext_wf (aggregates a) ∧
  Forall (λ n, 0 <= n) (agg_admitted a) ∧
  Forall (λ x, 0 <= exc_sequence_number x) (agg_exclusions a) ∧
  0 <= agg_total_admitted_weight a ∧ 0 <= agg_total_scaled_weight a.

Definition result_wf (r : ResultArtifact) : Prop :=
  len (res_election_id r) = 32 ∧ Forall (λ n, 0 <= n) (totals r) ∧
  Forall (λ n, 0 <= n) (keyper_indices r) ∧ 0 <= res_bsgs_bound r.

Lemma dec_enc_dkg_result s : dkg_result_wf s → dec_dkg_result (enc_dkg_result s) = Ok s.
Proof.
  intros (H1 & H2 & H3). unfold dec_dkg_result, enc_dkg_result. dec_run.
  rewrite mapM_dec_enc; [dec_run; by destruct s|].
  eapply Forall_impl; [exact H3|]. intros p Hp. by apply dec_enc_bytes.
Qed.

Lemma dec_dkg_result_wf d s : dec_dkg_result d = Ok s → dkg_result_wf s.
Proof.
  unfold dec_dkg_result. intros Hd. inv_dec. injection Hd as <-. unfold dkg_result_wf.
  cbn [dkg_election_id dkg_pk_election dkg_committee_pks].
  split_and!; try (by eapply dec_bytes_size).
  eapply mapM_dec_Forall; [|done]. intros v b. apply dec_bytes_size.
Qed.

Lemma dec_enc_share s : share_wf s → dec_decryption_share (enc_decryption_share s) = Ok s.
Proof.
  intros (H1 & H2 & H3). unfold dec_decryption_share, enc_decryption_share. dec_run.
  rewrite mapM_dec_enc; [dec_run; by destruct s|].
  eapply Forall_impl; [exact H3|]. intros e [Hs Hp]. unfold dec_share_entry. dec_run. by destruct e.
Qed.

Lemma dec_share_wf d s : dec_decryption_share d = Ok s → share_wf s.
Proof.
  unfold dec_decryption_share. intros Hd. inv_dec. injection Hd as <-. unfold share_wf.
  cbn [share_election_id keyper_index entries].
  split_and!; try (by eapply dec_bytes_size); try (by eapply _int_min).
  eapply mapM_dec_Forall; [|done]. intros v e He. unfold dec_share_entry in He. inv_dec. injection He as <-.
  split; by eapply dec_bytes_size.
Qed.

Lemma enum_reason r : _enum reasons (JStr (reason_value r)) = Ok r.
Proof. by destruct r. Qed.

Lemma dec_enc_exclusion x : 0 <= exc_sequence_number x → _dec_exclusion (enc_exclusion x) = Ok x.
Proof.
  intros Hx. unfold _dec_exclusion, enc_exclusion. dec_run. rewrite enum_reason. dec_run. by destruct x.
Qed.

Lemma dec_enc_aggregate a : aggregate_wf a → dec_aggregate (enc_aggregate a) = Ok a.
Proof.
  intros (H1 & H2 & H3 & H4 & H5 & H6). unfold dec_aggregate, enc_aggregate. dec_run.
  rewrite (mapM_dec_enc enc_ciphertext dec_ciphertext) by (eapply Forall_impl; [exact H2|apply dec_enc_ciphertext]). dec_run.
  rewrite (mapM_dec_enc JInt _ (agg_admitted a)) by (eapply Forall_impl; [exact H3|]; intros n Hn; by apply _int_JInt). dec_run.
  rewrite (mapM_dec_enc enc_exclusion _dec_exclusion) by (eapply Forall_impl; [exact H4|apply dec_enc_exclusion]). dec_run.
  by destruct a.
Qed.

Lemma dec_aggregate_wf d a : dec_aggregate d = Ok a → aggregate_wf a.
Proof.
  unfold dec_aggregate. intros Hd. inv_dec. injection Hd as <-. unfold aggregate_wf.
  cbn [agg_election_id aggregates agg_admitted agg_exclusions agg_total_admitted_weight agg_total_scaled_weight].
  split_and!; try (by eapply dec_bytes_size); try (by eapply _int_min).
  - eapply mapM_dec_Forall; [apply dec_ciphertext_wf|done].
  - eapply mapM_dec_Forall; [|done]. intros v n. apply _int_min.
  - eapply mapM_dec_Forall; [|done]. intros v exc Hexc. unfold _dec_exclusion in Hexc. inv_dec. injection Hexc as <-.
    by eapply _int_min.
Qed.

Lemma dec_enc_result r : result_wf r → dec_result (enc_result r) = Ok r.
Proof.
  intros (H1 & H2 & H3 & H4). unfold dec_result, enc_result. dec_run.
  rewrite (mapM_dec_enc JInt _ (totals r)) by (eapply Forall_impl; [exact H2|]; intros n Hn; by apply _int_JInt). dec_run.
  rewrite (mapM_dec_enc JInt _ (keyper_indices r)) by (eapply Forall_impl; [exact H3|]; intros n Hn; by apply _int_JInt). dec_run.
  by destruct r.
Qed.

Lemma dec_result_wf d r : dec_result d = Ok r → result_wf r.
Proof.
  unfold dec_result. intros Hd. inv_dec. injection Hd as <-. unfold result_wf.
  cbn [res_election_id totals keyper_indices res_bsgs_bound].
  split_and!; try (by eapply dec_bytes_size); try (by eapply _int_min);
    (eapply mapM_dec_Forall; [|done]; intros v n; apply _int_min).
Qed.

(** * Configuration *)

Lemma digit_pretty x : (x < 10)%N → digit (pretty_N_char x) = Some (Z.of_N x).
Proof.
  intros Hx. assert (Hc : Z.of_N x ∈ seqZ 0 10) by (apply elem_of_seqZ; lia).
  repeat (apply elem_of_cons in Hc as [Hc|Hc]; [replace x with (Z.to_N (Z.of_N x)) by lia; by rewrite Hc|]).
  by apply not_elem_of_nil in Hc.
Qed.

Lemma parse_pretty_go x s : (0 < x)%N → parse_unsigned (pretty_N_go x s) = parse_digits (Z.of_N x) s.
Proof.
  revert s. induction (N.lt_wf_0 x) as [x _ IH]; intros s Hx. rewrite pretty_N_go_step by done.
  assert (Hm : (x `mod` 10 < 10)%N) by (by apply N.mod_lt).
  destruct (decide (x < 10)%N) as [Hlt|Hge].
  - rewrite N.div_small, N.mod_small, pretty_N_go_0 by done. cbn [parse_unsigned]. by rewrite digit_pretty.
  - rewrite IH; [|by apply N.div_lt|apply N.div_str_pos; lia].
    cbn [parse_digits]. rewrite digit_pretty by done. f_equal.
    rewrite (N.div_mod x 10) at 3 by done. lia.
Qed.

Lemma py_int_of_digits s n : parse_unsigned s = Some n → py_int_of_str s = Ok n.
Proof.
  destruct s as [|c s]; [done|]. intros Hp. assert (Hc : is_Some (digit c)).
  { cbn in Hp. destruct (digit c); [by eexists|done]. }
  unfold py_int_of_str.
  destruct c as [[] [] [] [] [] [] [] []]; try (by destruct Hc); cbn [lstrip]; change (is_space _) with false;
    cbn iota; by rewrite Hp.
Qed.

Lemma py_int_pretty n : 0 <= n → py_int_of_str (pretty n) = Ok n ∧ pretty n ≠ "".
Proof.
  intros Hn. destruct n as [|p|p]; [done| |lia]. change (pretty (Z.pos p)) with (pretty (N.pos p)).
  assert (Hp : parse_unsigned (pretty (N.pos p)) = Some (Z.pos p)).
  { unfold pretty, pretty_N. rewrite decide_False by done. by rewrite parse_pretty_go. }
  split; [by apply py_int_of_digits|]. intros E. by rewrite E in Hp.
Qed.

Lemma enum_mode m : _enum modes (JStr (mode_value m)) = Ok m.
Proof. by destruct m. Qed.
Lemma enum_variant v : _enum variants (JStr (variant_value v)) = Ok v.
Proof. by destruct v. Qed.
Lemma enum_policy p : _enum policies (JStr (policy_value p)) = Ok p.
Proof. by destruct p. Qed.

Lemma dec_enc_config py_repr c : valid_config c → len (election_id c) = 32 →
  dec_config py_repr (enc_config c) = Ok c.
Proof.
  intros [Ht Hc] He. pose proof (config_post_init_Ok c tt Hc) as (Hnc & Hb & Hsc & _).
  assert (Hfee : 0 <= self_submit_fee_wei c).
  { unfold config_post_init in Hc. inv_ok. by apply Z.ltb_ge in Hv0. }
  destruct (py_int_pretty _ Hfee) as [Hint Hne].
  unfold dec_config, enc_config. dec_run.
  rewrite (_int_JInt (num_candidates c)) by lia. dec_run. rewrite (_int_JInt (budget c)) by lia. dec_run.
  rewrite enum_mode. dec_run. rewrite enum_variant. dec_run.
  rewrite enum_policy. dec_run.
  replace (mkThreshold (thr_t (threshold c)) (thr_n (threshold c))) with (threshold c) by (by destruct (threshold c)).
  rewrite Ht. dec_run.
  rewrite mapM_dec_enc.
  2: { apply Forall_forall. intros k _. unfold dec_keyper. dec_run. by destruct k. }
  dec_run. rewrite mapM_dec_enc by (apply Forall_forall; intros; by apply dec_enc_bytes). dec_run.
  assert (Hb' : py_bool (JStr (pretty (self_submit_fee_wei c))) = true).
  { cbn [py_bool]. by rewrite (proj2 (String.eqb_neq _ _)). }
  rewrite Hb'. cbn [py_int]. rewrite Hint. dec_run. cbn [py_bool py_str].
  set (c' := mkElectionConfig _ _ _ _ _ _ _ _ _ _ _ _ _ _ _ _ _ _).
  assert (c' = c) as -> by (by destruct c). by rewrite Hc.
Qed.

(** * Properties *)

(** the ballot codec accepts exactly the well-sized ballots and returns them
    unchanged: an envelope survives encoding and decoding iff its fields have
    the sizes of the crypto suite and its weight and nonce are positive; whatever
    the decoder returns has that shape.  The weight has no upper bound. *)
Theorem ballot_codec_roundtrip b d :
  (dec_ballot (enc_ballot b) = Ok b ↔ ballot_wf b) ∧ (dec_ballot d = Ok b → ballot_wf b).
Proof.
  split; [|apply dec_ballot_wf]. split; [apply dec_ballot_wf|apply dec_enc_ballot].
Qed.

(** C17: the codecs of the DKG result, the decryption share, the aggregate and the
    result are the identity on well-sized artifacts and on nothing else. *)
Theorem artifact_codecs_roundtrip dkg sh agg res :
  (dec_dkg_result (enc_dkg_result dkg) = Ok dkg ↔ dkg_result_wf dkg) ∧
  (dec_decryption_share (enc_decryption_share sh) = Ok sh ↔ share_wf sh) ∧
  (dec_aggregate (enc_aggregate agg) = Ok agg ↔ aggregate_wf agg) ∧
  (dec_result (enc_result res) = Ok res ↔ result_wf res).
Proof.
  split_and!; split; eauto using dec_dkg_result_wf, dec_enc_dkg_result, dec_share_wf, dec_enc_share,
    dec_aggregate_wf, dec_enc_aggregate, dec_result_wf, dec_enc_result.
Qed.

(** a configuration that was constructed, with a 32-byte election id, comes
    back from its JSON form unchanged, the fee through its decimal string. *)
Theorem config_codec_roundtrip py_repr c :
  valid_config c → len (election_id c) = 32 → dec_config py_repr (enc_config c) = Ok c.
Proof. apply dec_enc_config. Qed.

Lemma config_codec_roundtrip_witness :
  dec_config (λ _, "") (enc_config config_example.cfg) = Ok config_example.cfg.
Proof. apply config_codec_roundtrip; [exact config_example.cfg_valid|reflexivity]. Defined.
