(* ===== verification/WriteAuth.v ===== *)
(** Write authorization (core/authz.py, core/write_auth.py): the digests write
    signatures are taken over, the canonical JSON some of them hash, and signing
    and recovery.  Ethereum accounts and the contract ABI encoding are
    interfaces. *)

From Stdlib Require Import Ascii.
From S2P Require Import Prelude Params Primality Field Points Transcript Types Config Codecs.

(** * Canonical JSON: [json.dumps(d, sort_keys=True, separators=(",", ":"))] *)

Definition code (c : ascii) : Z := Z.of_N (N_of_ascii c).

(** The code points of a string in UTF-8. *)
Fixpoint code_points (s : string) : list Z :=
  match s with
  | EmptyString => []
  | String a s =>
      if code a <? 192 then code a :: code_points s else
      match s with
      | EmptyString => [code a]
      | String b s =>
          if code a <? 224 then ((code a - 192) * 64 + (code b - 128)) :: code_points s else
          match s with
          | EmptyString => [code a]
          | String c s =>
              if code a <? 240
              then ((code a - 224) * 4096 + (code b - 128) * 64 + (code c - 128)) :: code_points s else
              match s with
              | EmptyString => [code a]
              | String d s =>
                  ((code a - 240) * 262144 + (code b - 128) * 4096 + (code c - 128) * 64 + (code d - 128))
                  :: code_points s
              end
          end
      end
  end.

Definition hex4 (n : Z) : string :=
  String (hex_char (n / 4096)) (String (hex_char (n / 256 mod 16))
    (String (hex_char (n / 16 mod 16)) (String (hex_char (n mod 16)) ""))).

Definition escape_point (n : Z) : string :=
  if n =? 34 then "\" +:+ String (ascii_of_N 34) ""
  else if n =? 92 then "\\"
  else if n =? 10 then "\n" else if n =? 13 then "\r" else if n =? 9 then "\t"
  else if n =? 12 then "\f" else if n =? 8 then "\b"
  else if (32 <=? n) && (n <=? 126) then String (ascii_of_N (Z.to_N n)) ""
  else if n <? 65536 then "\u" +:+ hex4 n
  else "\u" +:+ hex4 (55296 + (n - 65536) / 1024) +:+ "\u" +:+ hex4 (56320 + (n - 65536) mod 1024).

Definition quoted (s : string) : string :=
  let q := String (ascii_of_N 34) "" in
  q +:+ String.concat "" (escape_point <$> code_points s) +:+ q.

(** Insertion into a list sorted by key. *)
Fixpoint insert_key (kv : string * string) (l : list (string * string)) : list (string * string) :=
  match l with
  | [] => [kv]
  | kv' :: l' => if String.leb kv.1 kv'.1 then kv :: l else kv' :: insert_key kv l'
  end.
Definition sort_keys (l : list (string * string)) : list (string * string) := foldr insert_key [] l.

Section json.
(** [float.__repr__] *)
Context (float_repr : Z → Z → string).

Fixpoint json_dumps (v : json) : string :=
  match v with
  | JNull => "null"
  | JBool b => if b then "true" else "false"
  | JInt n => pretty n
  | JFloat m e => float_repr m e
  | JStr s => quoted s
  | JArr l => "[" +:+ String.concat "," (map json_dumps l) +:+ "]"
  | JObj o =>
      "{" +:+ String.concat ","
        (snd <$> sort_keys (map (λ '(k, v), (k, quoted k +:+ ":" +:+ json_dumps v)) o)) +:+ "}"
  end.
End json.

(** * External interfaces *)

(** eth_account: [sign_message] over [encode_defunct(digest)] with a 32-byte key,
    [recover_message] as the 20 address bytes, and the address of a key. *)
Class EthAccount : Type := {
  sign_message : bytes → bytes → result bytes;
  recover_message : bytes → bytes → result bytes;
  address_of : bytes → bytes;
}.

Class EthAccountLaws `{EthAccount} : Prop := {
  recover_sign digest key sig :
    sign_message digest key = Ok sig → recover_message digest sig = Ok (address_of key);
}.

(** The values the digests ABI-encode. *)
#[warnings="-register-all"]
Inductive abi_value : Type :=
| ABytes (b : bytes)
| AUint (n : Z)
| ATuple (l : list abi_value)
| AArray (l : list abi_value).

#[warnings="-register-all"]
Inductive abi_type : Type :=
| TBytes
| TUint (bits : Z)
| TTuple (l : list abi_type)
| TArray (t : abi_type).

#[warnings="-register-all"]
Inductive has_type : abi_type → abi_value → Prop :=
| HBytes b : has_type TBytes (ABytes b)
| HUint bits n : has_type (TUint bits) (AUint n)
| HTuple ts vs : Forall2 has_type ts vs → has_type (TTuple ts) (ATuple vs)
| HArray t vs : Forall (has_type t) vs → has_type (TArray t) (AArray vs).

(** eth_abi: [encode(types, values)]; it raises when a value is out of range. *)
Class Abi : Type := { abi_encode : list abi_type → list abi_value → result bytes }.

(** Decoding with the types gives the values back, whatever follows them. *)
Class AbiLaws `{Abi} : Prop := {
  abi_decodable ts vs vs' b b' r r' :
    Forall2 has_type ts vs → Forall2 has_type ts vs' →
    abi_encode ts vs = Ok b → abi_encode ts vs' = Ok b' → b ++ r = b' ++ r' → vs = vs' ∧ r = r';
}.

(** * core/authz.py *)

Section write_auth.
Context `{Crypto} `{EthAccount} `{Abi} (float_repr : Z → Z → string).

Definition REQUEST_DST : bytes := encode_utf8 "SHUTTER-GOVERNANCE-PROTOCOL-REQUEST-v1".

Definition request_preimage (op : string) (election_id payload : bytes) : result bytes :=
  let op_b := encode_utf8 op in
  l1 ← to_bytes_be (len op_b) 4;
  l2 ← to_bytes_be (len election_id) 4;
  l3 ← to_bytes_be (len payload) 4;
  Ok (REQUEST_DST ++ l1 ++ op_b ++ l2 ++ election_id ++ l3 ++ payload).

Definition request_digest (op : string) (election_id payload : bytes) : result bytes :=
  p ← request_preimage op election_id payload; Ok (keccak p).

Definition request_nonce_payload (issued_at : Z) : result bytes :=
  _ ← raise_if (issued_at <? 0) ValueError;
  to_bytes_be issued_at 8.

Definition REQUEST_FRESHNESS_S : Z := 300.

Definition request_is_fresh (issued_at now : Z) : bool := Z.abs (now - issued_at) <=? REQUEST_FRESHNESS_S.

Definition sign_request (private_key : Z) (op : string) (election_id payload : bytes) : result bytes :=
  key ← to_bytes_be private_key 32;
  d ← request_digest op election_id payload;
  sign_message d key.

Definition register_digest (config : ElectionConfig) : bytes :=
  keccak (encode_utf8 (json_dumps float_repr (enc_config config))).

Definition sign_register (private_key : Z) (config : ElectionConfig) : result bytes :=
  key ← to_bytes_be private_key 32;
  sign_message (register_digest config) key.

Definition verify_register (admin_key signature : bytes) (config : ElectionConfig) : bool :=
  match recover_message (register_digest config) signature with
  | Ok recovered => bool_decide (recovered = admin_key)
  | Err _ => false
  end.

Definition verify_request (identity signature : bytes) (op : string) (election_id payload : bytes) : bool :=
  match (d ← request_digest op election_id payload; recover_message d signature) with
  | Ok recovered => bool_decide (recovered = identity)
  | Err _ => false
  end.

(** [Signer]: the 32 key bytes of the account. *)
Record Signer := mkSigner { account_key : bytes }.
Definition from_sk (sk : Z) : result Signer := key ← to_bytes_be sk 32; Ok (mkSigner key).
Definition identity (s : Signer) : bytes := address_of (account_key s).
Definition private_key (s : Signer) : Z := from_bytes_be (account_key s).
Definition signer_sign (s : Signer) (op : string) (election_id payload : bytes) : result bytes :=
  sign_request (private_key s) op election_id payload.
Definition signer_sign_register (s : Signer) (config : ElectionConfig) : result bytes :=
  sign_register (private_key s) config.

(** * core/write_auth.py *)

Definition DKG_RESULT_DST : bytes := encode_utf8 "SHUTTER-GOVERNANCE-PROTOCOL-DKG-RESULT-v1".
Definition DECRYPT_SHARE_DST : bytes := encode_utf8 "SHUTTER-GOVERNANCE-PROTOCOL-DECRYPT-SHARE-v1".
Definition AGGREGATE_DST : bytes := encode_utf8 "SHUTTER-GOVERNANCE-PROTOCOL-AGGREGATE-v1".
Definition BALLOT_WRITE_DST : bytes := encode_utf8 "SHUTTER-GOVERNANCE-PROTOCOL-BALLOT-WRITE-v1".
Definition RESULT_DST : bytes := encode_utf8 "SHUTTER-GOVERNANCE-PROTOCOL-RESULT-v1".
Definition DKG_COMMITMENTS_DST : bytes := encode_utf8 "SHUTTER-GOVERNANCE-PROTOCOL-DKG-COMMITMENTS-v1".
Definition DKG_SHARE_DST : bytes := encode_utf8 "SHUTTER-GOVERNANCE-PROTOCOL-DKG-SHARE-v1".
Definition DKG_ACCUSE_DST : bytes := encode_utf8 "SHUTTER-GOVERNANCE-PROTOCOL-DKG-ACCUSE-v1".
Definition DKG_REVEAL_DST : bytes := encode_utf8 "SHUTTER-GOVERNANCE-PROTOCOL-DKG-REVEAL-v1".

(** The position of the member in the enum. *)
Definition _EXCLUSION_CODE (r : ExclusionReason) : Z :=
  match list_find (λ x, x = r) all_reasons with Some (i, _) => Z.of_nat i | None => 0 end.

Definition bytes_array : abi_type := TArray TBytes.

Definition dkg_result_preimage (election_id pk_election : bytes) (committee_pks : list bytes) : result bytes :=
  a ← abi_encode [bytes_array] [AArray (ABytes <$> committee_pks)];
  Ok (DKG_RESULT_DST ++ election_id ++ pk_election ++ a).

Definition dkg_result_digest (election_id pk_election : bytes) (committee_pks : list bytes) : result bytes :=
  p ← dkg_result_preimage election_id pk_election committee_pks; Ok (keccak p).

Definition decryption_share_preimage (election_id : bytes) (shares : list bytes) (proofs : list (Z * Z))
  : result bytes :=
  a ← abi_encode [bytes_array] [AArray (ABytes <$> shares)];
  b ← abi_encode [TArray (TTuple [TUint 256; TUint 256])]
        [AArray ((λ '(e, z), ATuple [AUint e; AUint z]) <$> proofs)];
  Ok (DECRYPT_SHARE_DST ++ election_id ++ a ++ b).

Definition decryption_share_digest (election_id : bytes) (shares : list bytes) (proofs : list (Z * Z))
  : result bytes :=
  p ← decryption_share_preimage election_id shares proofs; Ok (keccak p).

Definition ballot_digest (election_id : bytes) (ballot : BallotEnvelope) : bytes :=
  keccak (BALLOT_WRITE_DST ++ election_id ++ encode_utf8 (json_dumps float_repr (enc_ballot ballot))).

Definition result_preimage (election_id : bytes) (result : ResultArtifact) : Prelude.result bytes :=
  a ← abi_encode [TArray (TUint 256); TArray (TUint 256); TUint 256]
        [AArray (AUint <$> totals result); AArray (AUint <$> keyper_indices result);
         AUint (res_bsgs_bound result)];
  Ok (RESULT_DST ++ election_id ++ a).

Definition result_digest (election_id : bytes) (result : ResultArtifact) : Prelude.result bytes :=
  p ← result_preimage election_id result; Ok (keccak p).

Definition sign_digest (private_key : Z) (digest : bytes) : result bytes :=
  key ← to_bytes_be private_key 32;
  sign_message digest key.

Definition recover_digest (digest signature : bytes) : result bytes := recover_message digest signature.

Definition sign_ballot (private_key : Z) (election_id : bytes) (ballot : BallotEnvelope) : result bytes :=
  sign_digest private_key (ballot_digest election_id ballot).

(** ** DKG peer-to-peer digests *)

Definition dkg_commitments_preimage (election_id : bytes) (dealer_index : Z) (commitments : list bytes)
  : result bytes :=
  i ← to_bytes_be dealer_index 8;
  n ← to_bytes_be (len commitments) 4;
  Ok (DKG_COMMITMENTS_DST ++ election_id ++ i ++ n ++ concat commitments).
Definition dkg_commitments_digest (election_id : bytes) (dealer_index : Z) (commitments : list bytes)
  : result bytes :=
  p ← dkg_commitments_preimage election_id dealer_index commitments; Ok (keccak p).

(** The body the share and reveal digests have in common. *)
Definition indexed_share (dst election_id : bytes) (dealer_index recipient_index share : Z) : result bytes :=
  d ← to_bytes_be dealer_index 8;
  r ← to_bytes_be recipient_index 8;
  s ← to_bytes_be (share mod CURVE_ORDER) 32;
  Ok (dst ++ election_id ++ d ++ r ++ s).

Definition dkg_share_digest (election_id : bytes) (dealer_index recipient_index share : Z) : result bytes :=
  p ← indexed_share DKG_SHARE_DST election_id dealer_index recipient_index share; Ok (keccak p).

Definition dkg_reveal_digest (election_id : bytes) (dealer_index recipient_index share : Z) : result bytes :=
  p ← indexed_share DKG_REVEAL_DST election_id dealer_index recipient_index share; Ok (keccak p).

Definition dkg_accusation_digest (election_id : bytes) (accused_dealer_index recipient_index : Z)
  : result bytes :=
  d ← to_bytes_be accused_dealer_index 8;
  r ← to_bytes_be recipient_index 8;
  Ok (keccak (DKG_ACCUSE_DST ++ election_id ++ d ++ r)).

Definition sign_dkg_result (private_key : Z) (election_id pk_election : bytes) (committee_pks : list bytes)
  : result bytes :=
  d ← dkg_result_digest election_id pk_election committee_pks; sign_digest private_key d.

Definition sign_decryption_share (private_key : Z) (election_id : bytes) (shares : list bytes)
    (proofs : list (Z * Z)) : result bytes :=
  d ← decryption_share_digest election_id shares proofs; sign_digest private_key d.

(** ** The aggregate *)

Definition _TALLY_ABI : abi_type :=
  TTuple [TArray (TTuple [TBytes; TBytes]); TArray (TUint 256); TArray (TTuple [TUint 256; TUint 8]);
          TUint 256; TUint 256].
Definition _TALLY_FIELDS_PRE_SCALE : Z := 4.
Definition _TALLY_FIELDS : Z := 5.

Definition assert_aggregate_shape (tally : list abi_value) : result unit :=
  _ ← raise_if (len tally =? _TALLY_FIELDS_PRE_SCALE) PreScaleAggregate;
  raise_if (negb (len tally =? _TALLY_FIELDS)) ValueError.

Definition aggregate_preimage (election_id : bytes) (aggregates : list (bytes * bytes)) (admitted : list Z)
    (exclusions : list (Z * ExclusionReason)) (total_admitted_weight total_scaled_weight : Z)
  : result bytes :=
  let tally := [AArray ((λ '(c1, c2), ATuple [ABytes c1; ABytes c2]) <$> aggregates);
                AArray (AUint <$> admitted);
                AArray ((λ '(s, r), ATuple [AUint s; AUint (_EXCLUSION_CODE r)]) <$> exclusions);
                AUint total_admitted_weight; AUint total_scaled_weight] in
  _ ← assert_aggregate_shape tally;
  a ← abi_encode [_TALLY_ABI] [ATuple tally];
  Ok (AGGREGATE_DST ++ election_id ++ a).

Definition aggregate_digest (election_id : bytes) (aggregates : list (bytes * bytes)) (admitted : list Z)
    (exclusions : list (Z * ExclusionReason)) (total_admitted_weight total_scaled_weight : Z)
  : result bytes :=
  p ← aggregate_preimage election_id aggregates admitted exclusions total_admitted_weight total_scaled_weight;
  Ok (keccak p).

Definition _aggregate_fields (a : AggregateArtifact)
  : list (bytes * bytes) * list Z * list (Z * ExclusionReason) * Z * Z :=
  ((λ ct, (c1 ct, c2 ct)) <$> aggregates a, agg_admitted a,
   (λ x, (exc_sequence_number x, reason x)) <$> agg_exclusions a,
   agg_total_admitted_weight a, agg_total_scaled_weight a).

Definition aggregate_digest_of (election_id : bytes) (aggregate : AggregateArtifact) : result bytes :=
  let '(aggs, admitted, exclusions, total, scaled) := _aggregate_fields aggregate in
  aggregate_digest election_id aggs admitted exclusions total scaled.

Definition sign_aggregate (private_key : Z) (election_id : bytes) (aggregate : AggregateArtifact)
  : result bytes :=
  d ← aggregate_digest_of election_id aggregate; sign_digest private_key d.

(** * Signing and recovery *)

Context `{!EthAccountLaws}.

Lemma sign_digest_recover sk d sig key : to_bytes_be sk 32 = Ok key →
  sign_digest sk d = Ok sig → recover_digest d sig = Ok (address_of key).
Proof. intros Hk Hs. unfold sign_digest in Hs. rewrite Hk, bind_Ok in Hs. by apply recover_sign. Qed.

Lemma sign_request_verifies sk op eid payload sig key : to_bytes_be sk 32 = Ok key →
  sign_request sk op eid payload = Ok sig → ∀ id,
  verify_request id sig op eid payload = bool_decide (address_of key = id).
Proof.
  intros Hk Hs id. unfold sign_request in Hs. rewrite Hk, bind_Ok in Hs.
  apply bind_Ok_inv in Hs as (d & Hd & Hs). unfold verify_request.
  by rewrite Hd, bind_Ok, (recover_sign _ _ _ Hs).
Qed.

(** * What the digests bind *)

(** No two of the listed texts collide under Keccak. *)
Definition coll_free (texts : list bytes) : Prop :=
  Forall (λ x, Forall (λ y, keccak x = keccak y → x = y) texts) texts.

#[global] Instance coll_free_dec texts : Decision (coll_free texts).
Proof. unfold coll_free. apply _. Defined.

Lemma coll_free_eq texts x y : coll_free texts → x ∈ texts → y ∈ texts → keccak x = keccak y → x = y.
Proof.
  unfold coll_free. rewrite Forall_forall. intros Hc Hx Hy. specialize (Hc x Hx).
  rewrite Forall_forall in Hc. auto.
Qed.

Lemma coll_free_sub texts texts' : texts' ⊆ texts → coll_free texts → coll_free texts'.
Proof.
  unfold coll_free. rewrite !Forall_forall. intros Hs Hc x Hx. rewrite Forall_forall. intros y Hy.
  specialize (Hc x (Hs _ Hx)). rewrite Forall_forall in Hc. auto.
Qed.

Lemma request_preimage_inj op eid payload op' eid' payload' p :
  request_preimage op eid payload = Ok p → request_preimage op' eid' payload' = Ok p →
  op = op' ∧ eid = eid' ∧ payload = payload'.
Proof.
  unfold request_preimage. intros Hp Hp'.
  repeat match goal with
  | Hb : (_ ≫= _) = Ok _ |- _ => apply bind_Ok_inv in Hb as (? & [? ->]%to_bytes_be_Ok & Hb)
  end.
  apply Ok_inj in Hp, Hp'. subst p. apply app_inv_head in Hp'.
  apply be_len_app_inj in Hp' as [Ho Hp']; [|lia..]. apply be_len_app_inj in Hp' as [<- Hp']; [|lia..].
  apply encode_utf8_inj in Ho as <-.
  assert (payload' = payload) as ->; [|done].
  apply (be_len_app_inj 4 _ _ [] []); [lia..|]. by rewrite !app_nil_r.
Qed.

Lemma ABytes_types l : Forall2 has_type [bytes_array] [AArray (ABytes <$> l)].
Proof. constructor; [|constructor]. constructor. apply Forall_fmap, Forall_forall. intros. constructor. Qed.

Lemma AUint_array_type bits (l : list Z) : has_type (TArray (TUint bits)) (AArray (AUint <$> l)).
Proof. constructor. apply Forall_fmap, Forall_forall. intros. constructor. Qed.

Lemma proofs_types (l : list (Z * Z)) :
  Forall2 has_type [TArray (TTuple [TUint 256; TUint 256])]
    [AArray ((λ '(e, z), ATuple [AUint e; AUint z]) <$> l)].
Proof.
  constructor; [|constructor]. constructor. apply Forall_fmap, Forall_forall. intros [e z] _.
  constructor. repeat constructor.
Qed.

Lemma result_types r :
  Forall2 has_type [TArray (TUint 256); TArray (TUint 256); TUint 256]
    [AArray (AUint <$> totals r); AArray (AUint <$> keyper_indices r); AUint (res_bsgs_bound r)].
Proof. do 2 (constructor; [apply AUint_array_type|]). repeat constructor. Qed.

(** The tally tuple of an aggregate. *)
Definition tally_value (f : list (bytes * bytes) * list Z * list (Z * ExclusionReason) * Z * Z) : abi_value :=
  let '(aggs, admitted, exclusions, total, scaled) := f in
  ATuple [AArray ((λ '(c1, c2), ATuple [ABytes c1; ABytes c2]) <$> aggs); AArray (AUint <$> admitted);
          AArray ((λ '(s, r), ATuple [AUint s; AUint (_EXCLUSION_CODE r)]) <$> exclusions);
          AUint total; AUint scaled].

Lemma tally_types f : Forall2 has_type [_TALLY_ABI] [tally_value f].
Proof.
  destruct f as [[[[aggs adm] exc] total] scaled]. constructor; [|constructor]. constructor.
  constructor; [|constructor; [apply AUint_array_type|constructor; [|repeat constructor]]];
    constructor; apply Forall_fmap, Forall_forall; intros [? ?] _; constructor; repeat constructor.
Qed.

Lemma exclusion_code_inj r r' : _EXCLUSION_CODE r = _EXCLUSION_CODE r' → r = r'.
Proof. by destruct r, r'. Qed.

Lemma map_inj {A B} (f : A → B) (l k : list A) : (∀ x y, f x = f y → x = y) → f <$> l = f <$> k → l = k.
Proof.
  intros Hf. revert k. induction l as [|x l IH]; intros [|y k] He; try done.
  rewrite !fmap_cons in He. injection He as Hx He. f_equal; auto.
Qed.

Lemma ABytes_inj (l k : list bytes) : ABytes <$> l = ABytes <$> k → l = k.
Proof. apply map_inj. by intros x y [= ->]. Qed.
Lemma AUint_inj (l k : list Z) : AUint <$> l = AUint <$> k → l = k.
Proof. apply map_inj. by intros x y [= ->]. Qed.

Lemma tally_value_inj f f' : tally_value f = tally_value f' → f = f'.
Proof.
  destruct f as [[[[aggs adm] exc] total] scaled], f' as [[[[aggs' adm'] exc'] total'] scaled'].
  intros [= Ha ->%AUint_inj He -> ->].
  apply map_inj in Ha as ->; [|by intros [] [] [= -> ->]].
  apply map_inj in He as ->; [done|]. intros [s r] [s' r'] [= -> ->%exclusion_code_inj]. done.
Qed.

Context `{!AbiLaws}.

Lemma abi_inj ts vs vs' b : Forall2 has_type ts vs → Forall2 has_type ts vs' →
  abi_encode ts vs = Ok b → abi_encode ts vs' = Ok b → vs = vs'.
Proof. intros Ht Ht' E E'. by destruct (abi_decodable ts vs vs' b b [] [] Ht Ht' E E' eq_refl). Qed.

Lemma dkg_result_preimage_inj eid pk pks eid' pk' pks' p :
  len eid = len eid' → len pk = len pk' →
  dkg_result_preimage eid pk pks = Ok p → dkg_result_preimage eid' pk' pks' = Ok p →
  (eid, pk, pks) = (eid', pk', pks').
Proof.
  unfold dkg_result_preimage, len. intros He Hk Hp Hp'.
  apply bind_Ok_inv in Hp as (a & Ha & <-%Ok_inj). apply bind_Ok_inv in Hp' as (a' & Ha' & Hp').
  apply Ok_inj, app_inv_head in Hp'. apply app_inj_1 in Hp' as [-> Hp']; [|lia].
  apply app_inj_1 in Hp' as [-> ->]; [|lia].
  pose proof (abi_inj _ _ _ _ (ABytes_types _) (ABytes_types _) Ha Ha') as E.
  injection E as ->%ABytes_inj. done.
Qed.

Lemma share_preimage_inj eid shares proofs eid' shares' proofs' p :
  len eid = len eid' →
  decryption_share_preimage eid shares proofs = Ok p →
  decryption_share_preimage eid' shares' proofs' = Ok p →
  (eid, shares, proofs) = (eid', shares', proofs').
Proof.
  unfold decryption_share_preimage, len. intros He Hp Hp'.
  apply bind_Ok_inv in Hp as (a & Ha & Hp). apply bind_Ok_inv in Hp as (b & Hb & <-%Ok_inj).
  apply bind_Ok_inv in Hp' as (a' & Ha' & Hp'). apply bind_Ok_inv in Hp' as (b' & Hb' & Hp').
  apply Ok_inj, app_inv_head in Hp'. apply app_inj_1 in Hp' as [-> Hp']; [|lia].
  destruct (abi_decodable _ _ _ _ _ _ _ (ABytes_types _) (ABytes_types _) Ha' Ha Hp') as [E ->].
  pose proof (abi_inj _ _ _ _ (proofs_types _) (proofs_types _) Hb Hb') as E2.
  injection E as ->%ABytes_inj. injection E2 as E2.
  apply map_inj in E2 as ->; [done|]. by intros [] [] [= -> ->].
Qed.

Lemma result_preimage_inj eid r eid' r' p : len eid = len eid' →
  result_preimage eid r = Ok p → result_preimage eid' r' = Ok p →
  (eid, totals r, keyper_indices r, res_bsgs_bound r) = (eid', totals r', keyper_indices r', res_bsgs_bound r').
Proof.
  unfold result_preimage, len. intros He Hp Hp'.
  apply bind_Ok_inv in Hp as (a & Ha & <-%Ok_inj). apply bind_Ok_inv in Hp' as (a' & Ha' & Hp').
  apply Ok_inj, app_inv_head in Hp'. apply app_inj_1 in Hp' as [-> ->]; [|lia].
  pose proof (abi_inj _ _ _ _ (result_types _) (result_types _) Ha Ha') as E.
  injection E as ->%AUint_inj ->%AUint_inj ->. done.
Qed.

Definition aggregate_preimage_of (eid : bytes) (a : AggregateArtifact) : result bytes :=
  let '(aggs, admitted, exclusions, total, scaled) := _aggregate_fields a in
  aggregate_preimage eid aggs admitted exclusions total scaled.

Lemma aggregate_preimage_inj eid a eid' a' p : len eid = len eid' →
  aggregate_preimage_of eid a = Ok p → aggregate_preimage_of eid' a' = Ok p →
  eid = eid' ∧ _aggregate_fields a = _aggregate_fields a'.
Proof.
  unfold aggregate_preimage_of, len. intros He Hp Hp'.
  destruct (_aggregate_fields a) as [[[[aggs adm] exc] total] scaled].
  destruct (_aggregate_fields a') as [[[[aggs' adm'] exc'] total'] scaled'].
  unfold aggregate_preimage in Hp, Hp'.
  apply bind_Ok_inv in Hp as ([] & _ & Hp). apply bind_Ok_inv in Hp' as ([] & _ & Hp').
  apply bind_Ok_inv in Hp as (x & Hx & <-%Ok_inj). apply bind_Ok_inv in Hp' as (x' & Hx' & Hp').
  apply Ok_inj, app_inv_head in Hp'. apply app_inj_1 in Hp' as [-> ->]; [|lia]. split; [done|].
  pose proof (abi_inj _ _ _ _ (tally_types (aggs, adm, exc, total, scaled))
    (tally_types (aggs', adm', exc', total', scaled')) Hx Hx') as E.
  apply tally_value_inj. exact (f_equal (λ l, default (AUint 0) (head l)) E).
Qed.

Lemma be_app_inj k n m (a b : bytes) : 0 <= n < 256 ^ Z.of_nat k → 0 <= m < 256 ^ Z.of_nat k →
  be_bytes k n ++ a = be_bytes k m ++ b → n = m ∧ a = b.
Proof.
  intros Hn Hm E. apply app_inj_1 in E as [E ->]; [|by rewrite !length_be_bytes].
  apply (f_equal from_bytes_be) in E. by rewrite !from_be_bytes, !Z.mod_small in E by done.
Qed.

(** Share and reveal digests: distinct tags of one length, fixed-size fields. *)
Lemma indexed_share_inj dst dst' eid eid' d r s d' r' s' p :
  length dst = length dst' → len eid = len eid' →
  indexed_share dst eid d r s = Ok p → indexed_share dst' eid' d' r' s' = Ok p →
  dst = dst' ∧ eid = eid' ∧ d = d' ∧ r = r' ∧ s mod CURVE_ORDER = s' mod CURVE_ORDER.
Proof.
  unfold indexed_share, len. intros Hdst He Hp Hp'.
  repeat match goal with
  | Hb : (_ ≫= _) = Ok _ |- _ => apply bind_Ok_inv in Hb as (? & [? ->]%to_bytes_be_Ok & Hb)
  end.
  apply Ok_inj in Hp, Hp'. subst p.
  apply app_inj_1 in Hp' as [-> Hp']; [|lia]. apply app_inj_1 in Hp' as [-> Hp']; [|lia].
  apply be_app_inj in Hp' as [-> Hp']; [|done..]. apply be_app_inj in Hp' as [-> Hp']; [|done..].
  rewrite <- (app_nil_r (be_bytes 32 _)), <- (app_nil_r (be_bytes 32 (s mod _))) in Hp'.
  apply be_app_inj in Hp' as [-> _]; done.
Qed.

(** * Every signed write *)

(** One constructor per digest a signature is taken over. *)
Inductive signed_write :=
| WRequest (op : string) (eid payload : bytes)
| WRegister (c : ElectionConfig)
| WDkgResult (eid pk : bytes) (pks : list bytes)
| WShares (eid : bytes) (shares : list bytes) (proofs : list (Z * Z))
| WAggregate (eid : bytes) (a : AggregateArtifact)
| WBallot (eid : bytes) (b : BallotEnvelope)
| WResult (eid : bytes) (r : ResultArtifact)
| WCommitments (eid : bytes) (dealer : Z) (cs : list bytes)
| WDealtShare (eid : bytes) (dealer recipient share : Z)
| WAccusation (eid : bytes) (accused recipient : Z)
| WReveal (eid : bytes) (dealer recipient share : Z).

Definition write_digest (w : signed_write) : result bytes :=
  match w with
  | WRequest op eid payload => request_digest op eid payload
  | WRegister c => Ok (register_digest c)
  | WDkgResult eid pk pks => dkg_result_digest eid pk pks
  | WShares eid shares proofs => decryption_share_digest eid shares proofs
  | WAggregate eid a => aggregate_digest_of eid a
  | WBallot eid b => Ok (ballot_digest eid b)
  | WResult eid r => result_digest eid r
  | WCommitments eid d cs => dkg_commitments_digest eid d cs
  | WDealtShare eid d r s => dkg_share_digest eid d r s
  | WAccusation eid d r => dkg_accusation_digest eid d r
  | WReveal eid d r s => dkg_reveal_digest eid d r s
  end.

(** Election ids of 32 bytes, points of one size. *)
Definition well_sized (w : signed_write) : Prop :=
  match w with
  | WRequest _ _ _ | WRegister _ => True
  | WDkgResult eid pk _ => len eid = 32 ∧ len pk = G2_BYTES
  | WCommitments eid _ cs => len eid = 32 ∧ Forall (λ c, len c = G2_BYTES) cs
  | WShares eid _ _ | WAggregate eid _ | WBallot eid _ | WResult eid _ | WDealtShare eid _ _ _
  | WAccusation eid _ _ | WReveal eid _ _ _ => len eid = 32
  end.

(** The two writes say the same: every field, dealt shares modulo the group
    order, configurations and ballots by their canonical text, aggregates and
    results by the fields their digests cover. *)
Definition same_write (w w' : signed_write) : Prop :=
  match w, w' with
  | WRequest op eid p, WRequest op' eid' p' => op = op' ∧ eid = eid' ∧ p = p'
  | WRegister c, WRegister c' => json_dumps float_repr (enc_config c) = json_dumps float_repr (enc_config c')
  | WDkgResult eid pk pks, WDkgResult eid' pk' pks' => (eid, pk, pks) = (eid', pk', pks')
  | WShares eid s p, WShares eid' s' p' => (eid, s, p) = (eid', s', p')
  | WAggregate eid a, WAggregate eid' a' => eid = eid' ∧ _aggregate_fields a = _aggregate_fields a'
  | WBallot eid b, WBallot eid' b' =>
      eid = eid' ∧ json_dumps float_repr (enc_ballot b) = json_dumps float_repr (enc_ballot b')
  | WResult eid r, WResult eid' r' =>
      (eid, totals r, keyper_indices r, res_bsgs_bound r)
      = (eid', totals r', keyper_indices r', res_bsgs_bound r')
  | WCommitments eid d cs, WCommitments eid' d' cs' => eid = eid' ∧ d = d' ∧ cs = cs'
  | WDealtShare eid d r s, WDealtShare eid' d' r' s' | WReveal eid d r s, WReveal eid' d' r' s' =>
      eid = eid' ∧ d = d' ∧ r = r' ∧ s mod CURVE_ORDER = s' mod CURVE_ORDER
  | WAccusation eid d r, WAccusation eid' d' r' => eid = eid' ∧ d = d' ∧ r = r'
  | _, _ => False
  end.

(** The bytes a preimage opens with: the tag, and the brace of a configuration. *)
Definition opening (w : signed_write) : bytes :=
  match w with
  | WRequest _ _ _ => REQUEST_DST
  | WRegister _ => encode_utf8 "{"
  | WDkgResult _ _ _ => DKG_RESULT_DST
  | WShares _ _ _ => DECRYPT_SHARE_DST
  | WAggregate _ _ => AGGREGATE_DST
  | WBallot _ _ => BALLOT_WRITE_DST
  | WResult _ _ => RESULT_DST
  | WCommitments _ _ _ => DKG_COMMITMENTS_DST
  | WDealtShare _ _ _ _ => DKG_SHARE_DST
  | WAccusation _ _ _ => DKG_ACCUSE_DST
  | WReveal _ _ _ _ => DKG_REVEAL_DST
  end.

Definition write_kind (w : signed_write) : nat :=
  match w with
  | WRequest _ _ _ => 0 | WRegister _ => 1 | WDkgResult _ _ _ => 2 | WShares _ _ _ => 3
  | WAggregate _ _ => 4 | WBallot _ _ => 5 | WResult _ _ => 6 | WCommitments _ _ _ => 7
  | WDealtShare _ _ _ _ => 8 | WAccusation _ _ _ => 9 | WReveal _ _ _ _ => 10
  end%nat.

Definition openings : list bytes :=
  [REQUEST_DST; encode_utf8 "{"; DKG_RESULT_DST; DECRYPT_SHARE_DST; AGGREGATE_DST; BALLOT_WRITE_DST;
   RESULT_DST; DKG_COMMITMENTS_DST; DKG_SHARE_DST; DKG_ACCUSE_DST; DKG_REVEAL_DST].

Definition clash (a b : bytes) : bool :=
  let n := min (length a) (length b) in bool_decide (take n a = take n b).

Lemma clash_app a b x y : a ++ x = b ++ y → clash a b = true.
Proof.
  intros E. apply bool_decide_eq_true_2.
  apply (f_equal (take (min (length a) (length b)))) in E.
  by rewrite !take_app_le in E by lia.
Qed.

Lemma openings_prefix_free i j a b :
  openings !! i = Some a → openings !! j = Some b → clash a b = true → i = j.
Proof.
  intros Hi Hj Hc.
  assert (Hall : forallb (λ i, forallb (λ j, bool_decide (i = j) ||
    negb (clash (openings !!! i) (openings !!! j))) (seq 0 11)) (seq 0 11) = true) by (vm_compute; reflexivity).
  pose proof (lookup_lt_Some _ _ _ Hi) as Hli. pose proof (lookup_lt_Some _ _ _ Hj) as Hlj.
  rewrite forallb_forall in Hall. specialize (Hall i). rewrite forallb_forall in Hall.
  assert (Hin : ∀ k, (k < length openings)%nat → In k (seq 0 11)).
  { intros k Hk. apply in_seq. change (length openings) with 11%nat in Hk. lia. }
  specialize (Hall (Hin i Hli) j (Hin j Hlj)). apply orb_prop in Hall as [E|E]; [by apply bool_decide_eq_true in E|].
  by rewrite (list_lookup_total_correct _ _ _ Hi), (list_lookup_total_correct _ _ _ Hj), Hc in E.
Qed.

Lemma openings_lookup w : openings !! write_kind w = Some (opening w).
Proof. by destruct w. Qed.

(** The bytes that are hashed. *)
Definition write_preimage (w : signed_write) : result bytes :=
  match w with
  | WRequest op eid payload => request_preimage op eid payload
  | WRegister c => Ok (encode_utf8 (json_dumps float_repr (enc_config c)))
  | WDkgResult eid pk pks => dkg_result_preimage eid pk pks
  | WShares eid shares proofs => decryption_share_preimage eid shares proofs
  | WAggregate eid a => aggregate_preimage_of eid a
  | WBallot eid b => Ok (BALLOT_WRITE_DST ++ eid ++ encode_utf8 (json_dumps float_repr (enc_ballot b)))
  | WResult eid r => result_preimage eid r
  | WCommitments eid d cs => dkg_commitments_preimage eid d cs
  | WDealtShare eid d r s => indexed_share DKG_SHARE_DST eid d r s
  | WAccusation eid d r =>
      d ← to_bytes_be d 8; r ← to_bytes_be r 8; Ok (DKG_ACCUSE_DST ++ eid ++ d ++ r)
  | WReveal eid d r s => indexed_share DKG_REVEAL_DST eid d r s
  end.

Lemma write_digest_hashes w : write_digest w = (p ← write_preimage w; Ok (keccak p)).
Proof.
  destruct w as [| | | | | | | | |eid d r|]; try reflexivity; cbn [write_digest write_preimage].
  unfold dkg_accusation_digest. destruct (to_bytes_be d 8); [|done]. rewrite !bind_Ok.
  by destruct (to_bytes_be r 8).
Qed.

Ltac invert_binds :=
  repeat match goal with
  | Hb : (_ ≫= _) = Ok _ |- _ => apply bind_Ok_inv in Hb as (? & ? & Hb)
  end.

Lemma write_preimage_opening w p : write_preimage w = Ok p → ∃ rest, p = opening w ++ rest.
Proof.
  destruct w; cbn [write_preimage opening];
    unfold request_preimage, dkg_result_preimage, decryption_share_preimage, result_preimage,
      dkg_commitments_preimage, indexed_share; intros Hp;
    unfold aggregate_preimage_of, aggregate_preimage in Hp; cbn [_aggregate_fields] in Hp;
    invert_binds; apply Ok_inj in Hp as <-; eauto.
Qed.

Lemma concat_same_size (n : Z) (l k : list bytes) : Forall (λ c, len c = n) l → Forall (λ c, len c = n) k →
  length l = length k → concat l = concat k → l = k.
Proof.
  intros Hl. revert k. induction Hl as [|x l Hx Hl IH]; intros [|y k] Hk Hlen E; try done.
  apply Forall_cons in Hk as [Hy Hk]. cbn [concat] in E. unfold len in *.
  apply app_inj_1 in E as [-> E]; [|lia]. f_equal. apply IH; [done|by injection Hlen|done].
Qed.

Lemma commitments_preimage_inj eid d cs eid' d' cs' p :
  len eid = len eid' → Forall (λ c, len c = G2_BYTES) cs → Forall (λ c, len c = G2_BYTES) cs' →
  dkg_commitments_preimage eid d cs = Ok p → dkg_commitments_preimage eid' d' cs' = Ok p →
  eid = eid' ∧ d = d' ∧ cs = cs'.
Proof.
  unfold dkg_commitments_preimage. intros He Hcs Hcs' Hp Hp'. unfold len in He.
  apply bind_Ok_inv in Hp as (i & [? ->]%to_bytes_be_Ok & Hp).
  apply bind_Ok_inv in Hp as (n & [? ->]%to_bytes_be_Ok & <-%Ok_inj).
  apply bind_Ok_inv in Hp' as (i' & [? ->]%to_bytes_be_Ok & Hp').
  apply bind_Ok_inv in Hp' as (n' & [? ->]%to_bytes_be_Ok & Hp').
  apply Ok_inj, app_inv_head in Hp'. apply app_inj_1 in Hp' as [-> Hp']; [|lia].
  apply be_app_inj in Hp' as [-> Hp']; [|done..]. apply be_app_inj in Hp' as [Hn Hp']; [|done..].
  split_and!; [done..|]. symmetry. apply (concat_same_size G2_BYTES); [done..| |done].
  unfold len in Hn. lia.
Qed.

Lemma accusation_inj eid d r eid' d' r' p : len eid = len eid' →
  write_preimage (WAccusation eid d r) = Ok p → write_preimage (WAccusation eid' d' r') = Ok p →
  eid = eid' ∧ d = d' ∧ r = r'.
Proof.
  cbn [write_preimage]. unfold len. intros He Hp Hp'.
  apply bind_Ok_inv in Hp as (x & [? ->]%to_bytes_be_Ok & Hp).
  apply bind_Ok_inv in Hp as (y & [? ->]%to_bytes_be_Ok & <-%Ok_inj).
  apply bind_Ok_inv in Hp' as (x' & [? ->]%to_bytes_be_Ok & Hp').
  apply bind_Ok_inv in Hp' as (y' & [? ->]%to_bytes_be_Ok & Hp').
  apply Ok_inj, app_inv_head in Hp'. apply app_inj_1 in Hp' as [-> Hp']; [|lia].
  apply be_app_inj in Hp' as [-> Hp']; [|done..].
  rewrite <- (app_nil_r (be_bytes 8 r')), <- (app_nil_r (be_bytes 8 r)) in Hp'.
  by apply be_app_inj in Hp' as [-> _].
Qed.

Lemma write_preimage_binds w w' p : well_sized w → well_sized w' →
  write_preimage w = Ok p → write_preimage w' = Ok p → same_write w w'.
Proof.
  intros Hw Hw' Hp Hp'.
  assert (Hkind : write_kind w = write_kind w').
  { destruct (write_preimage_opening _ _ Hp) as [x Hx], (write_preimage_opening _ _ Hp') as [y Hy].
    apply (openings_prefix_free _ _ _ _ (openings_lookup w) (openings_lookup w')).
    apply (clash_app _ _ x y). congruence. }
  destruct w, w'; try discriminate Hkind; clear Hkind; cbn [same_write well_sized] in *;
    destruct_and?; cbn [write_preimage] in Hp, Hp'.
  - by eapply request_preimage_inj.
  - apply encode_utf8_inj. congruence.
  - eapply dkg_result_preimage_inj; [| |done..]; congruence.
  - eapply share_preimage_inj; [|done..]; congruence.
  - eapply aggregate_preimage_inj; [|done..]; congruence.
  - apply Ok_inj in Hp as <-. apply Ok_inj, app_inv_head in Hp'. unfold len in *.
    apply app_inj_1 in Hp' as [-> Hp']; [|lia]. split; [done|]. symmetry. by apply encode_utf8_inj.
  - eapply result_preimage_inj; [|done..]; congruence.
  - eapply commitments_preimage_inj; [| | |done..]; [congruence|done..].
  - eapply (indexed_share_inj _ _ _ _ _ _ _ _ _ _ _ eq_refl); [|done..]; congruence.
  - eapply accusation_inj; [|done..]; congruence.
  - eapply (indexed_share_inj _ _ _ _ _ _ _ _ _ _ _ eq_refl); [|done..]; congruence.
Qed.

Lemma same_write_preimage w w' : same_write w w' → write_preimage w = write_preimage w'.
Proof.
  destruct w, w'; cbn [same_write write_preimage]; try done; intros Hs.
  - by destruct Hs as (-> & -> & ->).
  - by rewrite Hs.
  - by injection Hs as -> -> ->.
  - by injection Hs as -> -> ->.
  - destruct Hs as [-> Hf]. unfold aggregate_preimage_of. by rewrite Hf.
  - destruct Hs as [-> Hj]. by rewrite Hj.
  - injection Hs as -> Ht Hk Hb. unfold result_preimage. by rewrite Ht, Hk, Hb.
  - by destruct Hs as (-> & -> & ->).
  - destruct Hs as (-> & -> & -> & Hm). unfold indexed_share. by rewrite Hm.
  - by destruct Hs as (-> & -> & ->).
  - destruct Hs as (-> & -> & -> & Hm). unfold indexed_share. by rewrite Hm.
Qed.


Lemma from_sk_key sk s : from_sk sk = Ok s → private_key s = sk ∧ to_bytes_be sk 32 = Ok (account_key s).
Proof.
  unfold from_sk, private_key. intros Hs. apply bind_Ok_inv in Hs as (key & Hk & <-%Ok_inj).
  split; [|done]. apply to_bytes_be_Ok in Hk as [Hr ->]. cbn [account_key].
  rewrite from_be_bytes. by apply Z.mod_small.
Qed.

Lemma sign_register_verifies sk c sig key : to_bytes_be sk 32 = Ok key →
  sign_register sk c = Ok sig → ∀ id, verify_register id sig c = bool_decide (address_of key = id).
Proof.
  intros Hk Hs id. unfold sign_register in Hs. rewrite Hk, bind_Ok in Hs.
  unfold verify_register. by rewrite (recover_sign _ _ _ Hs).
Qed.

(** A signer built from a secret keeps that secret, and what it signs
    verifies for its own identity and no other: requests, registrations, and
    every content digest, whose recovery gives the identity. *)
Theorem signer_authorizes sk s : from_sk sk = Ok s →
  private_key s = sk
  ∧ (∀ op eid payload sig id, signer_sign s op eid payload = Ok sig →
       verify_request id sig op eid payload = bool_decide (identity s = id))
  ∧ (∀ c sig id, signer_sign_register s c = Ok sig →
       verify_register id sig c = bool_decide (identity s = id))
  ∧ (∀ w d sig, write_digest w = Ok d → sign_digest (private_key s) d = Ok sig →
       recover_digest d sig = Ok (identity s)).
Proof.
  intros Hs. destruct (from_sk_key _ _ Hs) as [Hp Hk].
  unfold signer_sign, signer_sign_register, identity. rewrite Hp. split_and!; [done|..].
  - intros op eid payload sig id Hsig. by apply (sign_request_verifies sk op eid payload sig).
  - intros c sig id Hsig. by apply (sign_register_verifies sk c sig).
  - intros w d sig _ Hsig. by apply (sign_digest_recover sk).
Qed.

End write_auth.

(** * Instances *)

(** An encoding that decodes: lengths before contents. *)
Module prefix_abi.

Fixpoint flat (v : abi_value) : result bytes :=
  match v with
  | ABytes b => l ← to_bytes_be (len b) 32; Ok (l ++ b)
  | AUint n => to_bytes_be n 32
  | ATuple vs =>
      (fix go vs := match vs with [] => Ok [] | v :: vs => a ← flat v; b ← go vs; Ok (a ++ b) end) vs
  | AArray vs =>
      n ← to_bytes_be (len vs) 32;
      b ← (fix go vs := match vs with [] => Ok [] | v :: vs => a ← flat v; b ← go vs; Ok (a ++ b) end) vs;
      Ok (n ++ b)
  end.

Fixpoint flat_list (vs : list abi_value) : result bytes :=
  match vs with [] => Ok [] | v :: vs => a ← flat v; b ← flat_list vs; Ok (a ++ b) end.

#[export] Instance abi : Abi := { abi_encode _ vs := flat_list vs }.

Lemma abi_value_ind' (P : abi_value → Prop) :
  (∀ b, P (ABytes b)) → (∀ n, P (AUint n)) → (∀ l, Forall P l → P (ATuple l)) →
  (∀ l, Forall P l → P (AArray l)) → ∀ v, P v.
Proof.
  intros Hb Hu Ht Ha. fix IH 1. intros [b|n|l|l]; [apply Hb|apply Hu|apply Ht|apply Ha];
    induction l as [|x l IHl]; constructor; auto.
Qed.

Definition decodable (v : abi_value) : Prop := ∀ t v' b b' r r',
  has_type t v → has_type t v' → flat v = Ok b → flat v' = Ok b' → b ++ r = b' ++ r' → v = v' ∧ r = r'.

Lemma flat_list_decodable vs : Forall decodable vs → ∀ ts vs' b b' r r',
  Forall2 has_type ts vs → Forall2 has_type ts vs' →
  flat_list vs = Ok b → flat_list vs' = Ok b' → b ++ r = b' ++ r' → vs = vs' ∧ r = r'.
Proof.
  induction 1 as [|v vs Hv _ IH]; intros ts vs' b b' r r' Ht Ht' Hb Hb' E.
  - inversion Ht; subst. inversion Ht'; subst. by apply Ok_inj in Hb as <-; apply Ok_inj in Hb' as <-.
  - apply Forall2_cons_inv_r in Ht as (t & ts' & Htv & Hts & ->).
    apply Forall2_cons_inv_l in Ht' as (v' & vs'' & Htv' & Hts' & ->).
    cbn [flat_list] in Hb, Hb'.
    apply bind_Ok_inv in Hb as (x & Hx & Hb). apply bind_Ok_inv in Hb as (y & Hy & <-%Ok_inj).
    apply bind_Ok_inv in Hb' as (x' & Hx' & Hb'). apply bind_Ok_inv in Hb' as (y' & Hy' & <-%Ok_inj).
    rewrite <- !app_assoc in E. destruct (Hv _ _ _ _ _ _ Htv Htv' Hx Hx' E) as [-> E'].
    by destruct (IH _ _ _ _ _ _ Hts Hts' Hy Hy' E') as [-> ->].
Qed.

Lemma array_types t vs : Forall (has_type t) vs → Forall2 has_type (replicate (length vs) t) vs.
Proof. induction 1; cbn; constructor; auto. Qed.

Lemma flat_decodable v : decodable v.
Proof.
  induction v as [b|n|l IH|l IH] using abi_value_ind'; intros t v' x x' r r' Ht Ht' Hx Hx' E;
    inversion Ht; subst; inversion Ht'; subst; cbn [flat] in Hx, Hx'.
  - apply bind_Ok_inv in Hx as (y & [? ->]%to_bytes_be_Ok & <-%Ok_inj).
    apply bind_Ok_inv in Hx' as (y' & [? ->]%to_bytes_be_Ok & <-%Ok_inj).
    rewrite <- !app_assoc in E. by apply be_len_app_inj in E as [-> ->]; [|lia..].
  - apply to_bytes_be_Ok in Hx as [? ->]. apply to_bytes_be_Ok in Hx' as [? ->].
    by apply be_app_inj in E as [-> ->].
  - change (flat_list l = Ok x) in Hx. change (flat_list vs = Ok x') in Hx'.
    by destruct (flat_list_decodable _ IH ts vs x x' r r') as [-> ->].
  - apply bind_Ok_inv in Hx as (y & [? ->]%to_bytes_be_Ok & Hx).
    apply bind_Ok_inv in Hx as (z & Hz & <-%Ok_inj).
    apply bind_Ok_inv in Hx' as (y' & [? ->]%to_bytes_be_Ok & Hx').
    apply bind_Ok_inv in Hx' as (z' & Hz' & <-%Ok_inj). rewrite <- !app_assoc in E.
    apply be_app_inj in E as [Hl E]; [|done..].
    assert (Hlen : length vs = length l) by (unfold len in Hl; lia).
    change (flat_list l = Ok z) in Hz. change (flat_list vs = Ok z') in Hz'.
    destruct (flat_list_decodable _ IH (replicate (length l) t0) vs z z' r r') as [-> ->]; try done.
    + by apply array_types.
    + rewrite <- Hlen. by apply array_types.
Qed.

#[export] Instance abi_laws : AbiLaws.
Proof.
  constructor. intros ts vs vs' b b' r r'. apply flat_list_decodable, Forall_forall. intros v _.
  apply flat_decodable.
Qed.

End prefix_abi.

(** Signatures that name their key. *)
Module naming_account.

#[export] Instance account : EthAccount := {
  sign_message digest key := if len key =? 32 then Ok (key ++ digest) else Err ValueError;
  recover_message digest sig :=
    if bool_decide (drop 32 sig = digest) then Ok (drop 12 (take 32 sig)) else Err ValueError;
  address_of key := drop 12 key;
}.

#[export] Instance account_laws : EthAccountLaws.
Proof.
  constructor. intros d key sig. cbn. case_match eqn:E; [|done]. intros <-%Ok_inj.
  assert (length key = 32%nat) by (unfold len in E; lia).
  rewrite drop_app_length' by done. rewrite bool_decide_eq_true_2 by done.
  by rewrite take_app_length' by done.
Qed.

End naming_account.

Module write_auth_example.
Import prefix_abi naming_account.
#[local] Existing Instance concrete_crypto.

Definition float_text (_ _ : Z) : string := "0.5".
Definition eid : bytes := be_bytes 32 1.
Definition dealt (share : Z) : signed_write := WDealtShare eid 1 2 share.

Definition preimage_of (w : signed_write) : bytes := match write_preimage float_text w with Ok p => p | Err _ => [] end.


(** The signer of the secret 7 signs a cancellation that verifies for it. *)
Lemma signer_authorizes_witness :
  let c := concrete_crypto in
  let s := mkSigner (be_bytes 32 7) in
  from_sk 7 = Ok s ∧ ∃ sig, signer_sign s "cancel" eid [] = Ok sig
    ∧ verify_request (identity s) sig "cancel" eid [] = true.
Proof.
  intros c s. assert (H7 : from_sk 7 = Ok s) by (vm_compute; reflexivity).
  split; [exact H7|].
  destruct (signer_sign s "cancel" eid []) as [sig|e] eqn:E;
    [|exfalso; apply (f_equal is_ok) in E; vm_compute in E; discriminate].
  exists sig. split; [reflexivity|].
  rewrite (proj1 (proj2 (signer_authorizes float_text 7 s H7)) _ _ _ _ (identity s) E).
  apply bool_decide_eq_true_2. reflexivity.
Defined.

End write_auth_example.
