(* ===== verification/Quorum.v ===== *)
(** Quorum resolution (core/quorum.py) and the grouping loops that feed it: the
    storage adapters collect, per distinct artifact, the keypers that submitted
    it.  Majority thresholds make the winner unique. *)

From S2P Require Import Prelude.

(** [groups] pairs each artifact with the keypers that submitted it. *)
Definition resolve_unique {A} (groups : list (A * gset Z)) (needed : Z) : result (option A) :=
  let finalized := filter (λ g, needed <= Z.of_nat (size g.2)) groups in
  _ ← raise_if (1 <? len finalized) QuorumConflictError;
  Ok (fst <$> head finalized).

Section group.
Context {K V : Type} `{EqDecision K}.

(** One turn of the loop: [setdefault(key, (v, set()))], then [add(idx)]. *)
Definition group_step (g : dict K (V * gset Z)) (e : Z * K * V) : dict K (V * gset Z) :=
  let '(idx, key, v) := e in
  let '(first, kps) := default (v, ∅) (dict_get g key) in
  dict_set g key (first, {[idx]} ∪ kps).

Definition group (l : list (Z * K * V)) : dict K (V * gset Z) := foldl group_step [] l.

(** The submissions under a key, the keypers behind it, the value kept for it. *)
Definition under (l : list (Z * K * V)) (k : K) : list (Z * K * V) := filter (λ e, e.1.2 = k) l.
Definition supporters (l : list (Z * K * V)) (k : K) : gset Z := list_to_set (under l k).*1.*1.
Definition first_value (l : list (Z * K * V)) (k : K) : option V := snd <$> head (under l k).

Lemma under_app l e k : under (l ++ [e]) k = under l k ++ (if decide (e.1.2 = k) then [e] else []).
Proof. unfold under. rewrite filter_app, filter_cons. by case_decide. Qed.

Lemma supporters_app l e k :
  supporters (l ++ [e]) k = supporters l k ∪ (if decide (e.1.2 = k) then {[e.1.1]} else ∅).
Proof.
  unfold supporters. rewrite under_app. case_decide; cbn.
  - rewrite !fmap_app, list_to_set_app_L. cbn. set_solver.
  - rewrite app_nil_r. set_solver.
Qed.

Lemma group_keys l : NoDup (dict_keys (group l)).
Proof.
  unfold group. induction l as [|e l IH] using rev_ind; [constructor|].
  rewrite foldl_snoc. destruct e as [[i k] v]. unfold group_step at 1.
  destruct (default _ _). by apply dict_set_NoDup.
Qed.

Lemma group_get l k : dict_get (group l) k = (λ v, (v, supporters l k)) <$> first_value l k.
Proof.
  unfold group. induction l as [|e l IH] using rev_ind; [done|].
  rewrite foldl_snoc. change (foldl group_step [] l) with (group l) in *.
  rewrite supporters_app. unfold first_value in *. rewrite under_app.
  destruct e as [[i k'] v]. cbn [fst snd]. unfold group_step at 1.
  destruct (decide (k' = k)) as [->|Hne].
  - rewrite IH. destruct (under l k) as [|e' u] eqn:Eu; cbn.
    + rewrite dict_get_set, decide_True by done. do 2 f_equal.
      unfold supporters. rewrite Eu. cbn. set_solver.
    + rewrite dict_get_set, decide_True by done. do 2 f_equal. set_solver.
  - destruct (default _ _). rewrite dict_get_set, decide_False, IH by done.
    rewrite app_nil_r. destruct (head (under l k)); cbn; [|done]. do 2 f_equal. set_solver.
Qed.

Lemma first_value_None l k : first_value l k = None → supporters l k = ∅.
Proof. unfold first_value, supporters. by destruct (under l k). Qed.

Lemma first_value_elem l k v : first_value l k = Some v → ∃ i, (i, k, v) ∈ l.
Proof.
  unfold first_value. destruct (under l k) as [|[[i k'] v'] u] eqn:E; [done|]. intros [= <-].
  assert (Hin : (i, k', v') ∈ under l k) by (rewrite E; left).
  apply list_elem_of_filter in Hin as [Hk Hin]. cbn in Hk. subst. eauto.
Qed.

Lemma elem_of_supporters l k i : i ∈ supporters l k ↔ ∃ v, (i, k, v) ∈ l.
Proof.
  unfold supporters, under. rewrite elem_of_list_to_set, !list_elem_of_fmap. split.
  - intros ([i' k'] & -> & (e & He & [Hk Hin]%list_elem_of_filter)%list_elem_of_fmap).
    destruct e as [[i'' k''] v]. cbn in *. simplify_eq. eauto.
  - intros [v Hv]. exists (i, k). split; [done|]. apply list_elem_of_fmap. exists (i, k, v).
    split; [done|]. by apply list_elem_of_filter.
Qed.

(** ** Majorities *)

Context (n needed : Z).

(** Distinct keypers of a committee of [n]. *)
Definition committee_of (l : list (Z * K * V)) : Prop :=
  NoDup l.*1.*1 ∧ Forall (λ e, 1 <= e.1.1 <= n) l.

Lemma supporters_disjoint l k k' : NoDup l.*1.*1 → k ≠ k' → supporters l k ## supporters l k'.
Proof.
  intros Hnd Hk i [v Hv]%elem_of_supporters [v' Hv']%elem_of_supporters.
  apply list_elem_of_lookup in Hv as [a Ha]. apply list_elem_of_lookup in Hv' as [b Hb].
  assert (a = b) as ->.
  { eapply (NoDup_lookup _ _ _ i Hnd); by rewrite !list_lookup_fmap, ?Ha, ?Hb. }
  congruence.
Qed.

Lemma supporters_bound l k k' : committee_of l → 0 <= n → k ≠ k' →
  Z.of_nat (size (supporters l k)) + Z.of_nat (size (supporters l k')) <= n.
Proof.
  intros [Hnd Hr] Hn Hk. rewrite <- Nat2Z.inj_add, <- size_union by by apply supporters_disjoint.
  assert (Hs : supporters l k ∪ supporters l k' ⊆@{gset Z} list_to_set (seqZ 1 n)).
  { intros i Hi. apply elem_of_list_to_set, elem_of_seqZ.
    assert (∃ k v, (i, k, v) ∈ l) as (k0 & v & Hin).
    { apply elem_of_union in Hi as [[v ?]%elem_of_supporters|[v ?]%elem_of_supporters]; eauto. }
    rewrite Forall_forall in Hr. specialize (Hr _ Hin). cbn in Hr. lia. }
  apply subseteq_size in Hs. rewrite size_list_to_set, length_seqZ in Hs by apply NoDup_seqZ. lia.
Qed.

(** A dictionary in which at most one value has the property. *)
Lemma filter_at_most_one {W} (P : W → Prop) `{∀ w, Decision (P w)} (d : dict K W) :
  NoDup (dict_keys d) →
  (∀ k k' w w', (k, w) ∈ d → (k', w') ∈ d → P w → P w' → k = k') →
  match filter P (dict_values d) with
  | [] => ∀ k w, (k, w) ∈ d → ¬ P w
  | [w] => P w ∧ ∃ k, (k, w) ∈ d
  | _ => False
  end.
Proof.
  unfold dict_keys, dict_values.
  induction d as [|[k w] d IH]; [by intros _ _ k w ?%not_elem_of_nil|].
  rewrite !fmap_cons. cbn [fst snd]. intros [Hk Hnd]%NoDup_cons Hone.
  specialize (IH Hnd (λ k k' w w' Hw Hw', Hone k k' w w' (list_elem_of_further _ _ _ Hw)
    (list_elem_of_further _ _ _ Hw'))).
  rewrite filter_cons. case_decide as HP.
  - destruct (filter P d.*2) as [|w' r] eqn:E; [split; [done|]; exists k; left|].
    assert (Hin : w' ∈ filter P d.*2) by (rewrite E; left).
    apply list_elem_of_filter in Hin as [HP' ([k' w''] & Hw & Hin)%list_elem_of_fmap]. cbn in Hw. subst w''.
    exfalso. apply Hk. assert (k = k') as ->.
    { eapply Hone; [left|by right|done|done]. }
    apply list_elem_of_fmap. by exists (k', w').
  - destruct (filter P d.*2) as [|w' [|]]; [|naive_solver (eauto using list_elem_of_further)|done].
    intros k' w' [[= -> ->]|Hin]%elem_of_cons; [done|by eapply IH].
Qed.

Context (Hn : 0 <= n) (Hneeded : 1 <= needed) (Hmajority : n < 2 * needed).

(** The artifact that a quorum submitted, and no other. *)
Definition quorum_winner (l : list (Z * K * V)) (o : option V) : Prop :=
  match o with
  | Some v => ∃ k, first_value l k = Some v ∧ needed <= Z.of_nat (size (supporters l k))
  | None => ∀ k, Z.of_nat (size (supporters l k)) < needed
  end.

Lemma group_elem l k w : (k, w) ∈ group l → first_value l k = Some w.1 ∧ w.2 = supporters l k.
Proof.
  intros Hin. apply (elem_dict_get _ _ _ (group_keys l)) in Hin. rewrite group_get in Hin.
  destruct (first_value l k); cbn in Hin; by simplify_eq.
Qed.

Lemma quorum_key_unique l k k' : committee_of l →
  needed <= Z.of_nat (size (supporters l k)) → needed <= Z.of_nat (size (supporters l k')) → k = k'.
Proof.
  intros Hl Hk Hk'. destruct (decide (k = k')) as [|Hne]; [done|].
  pose proof (supporters_bound l k k' Hl Hn Hne). lia.
Qed.

Lemma resolve_group l : committee_of l → ∃ o,
  resolve_unique (dict_values (group l)) needed = Ok o ∧ quorum_winner l o.
Proof.
  intros Hl. unfold resolve_unique.
  pose proof (filter_at_most_one (λ g : V * gset Z, needed <= Z.of_nat (size g.2)) (group l)
    (group_keys l)) as Hf.
  assert (Hone : ∀ k k' w w', (k, w) ∈ group l → (k', w') ∈ group l →
    needed <= Z.of_nat (size w.2) → needed <= Z.of_nat (size w'.2) → k = k').
  { intros k1 k2 w1 w2 [_ ->]%group_elem [_ ->]%group_elem. by apply quorum_key_unique. }
  specialize (Hf Hone). destruct (filter _ _) as [|w [|]] eqn:E; [| |done].
  - exists None. split; [done|]. intros k. destruct (first_value l k) as [v|] eqn:Ev.
    + assert (Hin : (k, (v, supporters l k)) ∈ group l).
      { apply dict_get_elem. by rewrite group_get, Ev. }
      apply Z.nle_gt. exact (Hf k _ Hin).
    + rewrite (first_value_None _ _ Ev), size_empty. lia.
  - exists (Some w.1). split; [done|]. destruct Hf as [HP [k Hin]].
    apply group_elem in Hin as [Hv Hs]. exists k. by rewrite <- Hs.
Qed.

Lemma quorum_winner_unique l o o' : committee_of l → quorum_winner l o → quorum_winner l o' → o = o'.
Proof.
  intros Hl. destruct o as [v|], o' as [v'|]; cbn.
  - intros (k & Hv & Hk) (k' & Hv' & Hk'). rewrite (quorum_key_unique l k k') in Hv by done. congruence.
  - intros (k & Hv & Hk) Hno. specialize (Hno k). lia.
  - intros Hno (k & Hv & Hk). specialize (Hno k). lia.
  - done.
Qed.

End group.
