(* ===== verification/DataLayer.v ===== *)
(** The storage port (ports/data_layer.py) and the in-memory reference adapter (adapters/memory.py).  The clock is an
    argument: one reading per call of the source. *)

From S2P Require Import Prelude Params Primality Field Points Transcript Types Config Codecs WriteAuth Quorum.

(** * ports/data_layer.py *)

Record ElectionRecord := mkElectionRecord {
  rec_config : ElectionConfig;
  rec_cancelled : bool;
  rec_finalized_key : option FinalizedKey;
  rec_tally_stalled : bool;
}.

Record ElectionFilter := mkElectionFilter { filter_admin_key : option bytes }.

(** The election is not skipped by the filter. *)
Definition filter_keeps (f : option ElectionFilter) (c : ElectionConfig) : bool :=
  match f with
  | Some (mkElectionFilter (Some k)) => bool_decide (admin_key c = k)
  | _ => true
  end.

(** * adapters/memory.py *)

Record _Stored := mkStored {
  st_config : ElectionConfig;
  st_cancelled : bool;
  st_dkg_by_keyper : dict Z DKGResultSubmission;
  st_ballots : list StoredBallot;
  st_aggregate_by_keyper : dict Z AggregateArtifact;
  st_shares_by_keyper : dict Z DecryptionShareEnvelope;
  st_result : option ResultArtifact;
  st_tally_stalled : bool;
}.

Record InMemoryDataLayer := mkMemory {
  _elections : dict bytes _Stored;
  _next_id : Z;
  _used_request_nonces : gset (bytes * string * Z);
}.

(** [InMemoryDataLayer()] *)
Definition new_memory : InMemoryDataLayer := mkMemory [] 0 ∅.

(** [_Stored(config=config)] *)
Definition new_stored (config : ElectionConfig) : _Stored := mkStored config false [] [] [] [] None false.

(** [replace(config, election_id=eid)] *)
Definition with_election_id (c : ElectionConfig) (eid : bytes) : ElectionConfig :=
  mkElectionConfig eid (num_candidates c) (budget c) (mode c) (variant c) (weighted c)
    (duplicate_policy c) (voting_start c) (voting_end c) (threshold c) (keypers c) (eligibility_key c)
    (result_publisher_key c) (gateway_keys c) (admin_key c) (protocol_version c) (scale c)
    (self_submit_fee_wei c).

(** The attribute assignments on a stored election. *)
Definition set_cancelled (st : _Stored) : _Stored :=
  mkStored (st_config st) true (st_dkg_by_keyper st) (st_ballots st) (st_aggregate_by_keyper st)
    (st_shares_by_keyper st) (st_result st) (st_tally_stalled st).
Definition set_dkg (st : _Stored) (d : dict Z DKGResultSubmission) : _Stored :=
  mkStored (st_config st) (st_cancelled st) d (st_ballots st) (st_aggregate_by_keyper st)
    (st_shares_by_keyper st) (st_result st) (st_tally_stalled st).
Definition append_ballot (st : _Stored) (b : StoredBallot) : _Stored :=
  mkStored (st_config st) (st_cancelled st) (st_dkg_by_keyper st) (st_ballots st ++ [b])
    (st_aggregate_by_keyper st) (st_shares_by_keyper st) (st_result st) (st_tally_stalled st).
Definition set_aggregates (st : _Stored) (d : dict Z AggregateArtifact) : _Stored :=
  mkStored (st_config st) (st_cancelled st) (st_dkg_by_keyper st) (st_ballots st) d
    (st_shares_by_keyper st) (st_result st) (st_tally_stalled st).
Definition set_shares (st : _Stored) (d : dict Z DecryptionShareEnvelope) : _Stored :=
  mkStored (st_config st) (st_cancelled st) (st_dkg_by_keyper st) (st_ballots st)
    (st_aggregate_by_keyper st) d (st_result st) (st_tally_stalled st).
Definition set_result (st : _Stored) (r : ResultArtifact) : _Stored :=
  mkStored (st_config st) (st_cancelled st) (st_dkg_by_keyper st) (st_ballots st)
    (st_aggregate_by_keyper st) (st_shares_by_keyper st) (Some r) (st_tally_stalled st).
Definition set_stalled (st : _Stored) (b : bool) : _Stored :=
  mkStored (st_config st) (st_cancelled st) (st_dkg_by_keyper st) (st_ballots st)
    (st_aggregate_by_keyper st) (st_shares_by_keyper st) (st_result st) b.

(** An in-place change of the stored election [eid]. *)
Definition put (m : InMemoryDataLayer) (eid : bytes) (st : _Stored) : InMemoryDataLayer :=
  mkMemory (dict_set (_elections m) eid st) (_next_id m) (_used_request_nonces m).

(** [l[i:j]] of a Python list: negative bounds count from the end. *)
Definition py_index (n : Z) (i : Z) : Z := if i <? 0 then Z.max 0 (n + i) else Z.min i n.
Definition py_slice {A} (l : list A) (i j : Z) : list A :=
  let lo := py_index (len l) i in let hi := py_index (len l) j in
  take (Z.to_nat (hi - lo)) (drop (Z.to_nat lo) l).

(** [[d[i] for i in sorted(d)]] *)
Definition sorted_values {A} (d : dict Z A) : list A :=
  omap (dict_get d) (merge_sort Z.le (dict_keys d)).

(** [for i, k in enumerate(config.keypers, start=1)] *)
Fixpoint find_keyper (keypers : list KeyperIdentity) (i : Z) (recovered : bytes) : result Z :=
  match keypers with
  | [] => Err WriteAuthorizationError
  | k :: ks => if bool_decide (signing_key k = recovered) then Ok i else find_keyper ks (i + 1) recovered
  end.

Section memory.
Context `{Crypto} `{EthAccount} `{Abi} (float_repr : Z → Z → string).

(** ** Helpers *)

Definition _get (m : InMemoryDataLayer) (eid : bytes) : result _Stored :=
  match dict_get (_elections m) eid with Some st => Ok st | None => Err KeyError end.

Definition _keyper_index_by_recovery (config : ElectionConfig) (digest sig : bytes) : result Z :=
  match recover_digest digest sig with
  | Ok recovered => find_keyper (keypers config) 1 recovered
  | Err _ => Err WriteAuthorizationError
  end.

(** [groups.setdefault(key, set()).add(idx)] over the stored submissions. *)
Definition dkg_groups (d : dict Z DKGResultSubmission) : dict (bytes * list bytes) (gset Z) :=
  foldl (λ g '(idx, sub),
    let key := (dkg_pk_election sub, dkg_committee_pks sub) in
    dict_set g key ({[idx]} ∪ default ∅ (dict_get g key))) [] d.

Definition _finalized_key_of (st : _Stored) : result (option FinalizedKey) :=
  winner ← resolve_unique (dkg_groups (st_dkg_by_keyper st)) (quorum (threshold (st_config st)));
  Ok (match winner with Some (pk, com) => Some (mkFinalizedKey pk com) | None => None end).

Definition aggregate_group_step (eid : bytes) (g : dict bytes (AggregateArtifact * gset Z))
    (e : Z * AggregateArtifact) : result (dict bytes (AggregateArtifact * gset Z)) :=
  let '(idx, agg) := e in
  key ← aggregate_digest_of eid agg;
  let '(first, kps) := default (agg, ∅) (dict_get g key) in
  Ok (dict_set g key (first, {[idx]} ∪ kps)).

Definition _aggregate_groups (eid : bytes) (d : dict Z AggregateArtifact)
  : result (dict bytes (AggregateArtifact * gset Z)) := foldM (aggregate_group_step eid) d [].

(** ** Election lifecycle *)

Definition register_election (m : InMemoryDataLayer) (config : ElectionConfig) (admin_sig : bytes)
  : result (InMemoryDataLayer * bytes) :=
  _ ← raise_if (negb (verify_register float_repr (admin_key config) admin_sig config))
        WriteAuthorizationError;
  eid ← to_bytes_be (_next_id m + 1) 32;
  _ ← raise_if (negb (bool_decide (election_id config = eid))) ImmutabilityError;
  let stored := with_election_id config eid in
  Ok (mkMemory (dict_set (_elections m) eid (new_stored stored)) (_next_id m + 1) (_used_request_nonces m),
      eid).

Definition cancel_election (m : InMemoryDataLayer) (now : Z) (eid admin_sig : bytes)
  : result InMemoryDataLayer :=
  st ← _get m eid;
  _ ← raise_if (voting_start (st_config st) <=? now) ImmutabilityError;
  _ ← raise_if (negb (verify_request (admin_key (st_config st)) admin_sig "cancel" eid []))
        WriteAuthorizationError;
  Ok (put m eid (set_cancelled st)).

Definition get_finalized_key (m : InMemoryDataLayer) (eid : bytes) : result (option FinalizedKey) :=
  st ← _get m eid; _finalized_key_of st.

Definition get_election (m : InMemoryDataLayer) (eid : bytes) : result ElectionRecord :=
  st ← _get m eid;
  fk ← get_finalized_key m eid;
  Ok (mkElectionRecord (st_config st) (st_cancelled st) fk (st_tally_stalled st)).

Definition list_elections (m : InMemoryDataLayer) (f : option ElectionFilter) : list bytes :=
  (filter (λ e, filter_keeps f (st_config e.2) = true) (_elections m)).*1.

(** ** DKG *)

Definition submit_dkg_result (m : InMemoryDataLayer) (eid pk : bytes) (pks : list bytes)
    (keyper_sig : bytes) : result InMemoryDataLayer :=
  st ← _get m eid;
  digest ← dkg_result_digest eid pk pks;
  idx ← _keyper_index_by_recovery (st_config st) digest keyper_sig;
  let submission := mkDKGResultSubmission eid pk pks keyper_sig in
  match dict_get (st_dkg_by_keyper st) idx with
  | Some existing =>
      _ ← raise_if (negb (bool_decide ((dkg_pk_election existing, dkg_committee_pks existing) = (pk, pks))))
            ImmutabilityError;
      Ok m
  | None => Ok (put m eid (set_dkg st (dict_set (st_dkg_by_keyper st) idx submission)))
  end.

Definition get_dkg_submissions (m : InMemoryDataLayer) (eid : bytes) : result (list DKGResultSubmission) :=
  st ← _get m eid; Ok (sorted_values (st_dkg_by_keyper st)).

(** ** Ballots *)

Definition _require_gateway (st : _Stored) (ballot : BallotEnvelope) (gateway_sig : bytes) : result unit :=
  match gateway_keys (st_config st) with
  | [] => Ok tt
  | keys =>
      match recover_digest (ballot_digest float_repr (election_id (st_config st)) ballot) gateway_sig with
      | Err _ => Err WriteAuthorizationError
      | Ok recovered => raise_if (negb (bool_decide (recovered ∈ keys))) WriteAuthorizationError
      end
  end.

Definition _require_voting_open (st : _Stored) (now : Z) : result unit :=
  fk ← _finalized_key_of st;
  let facts := mkStateFacts (st_cancelled st) (bool_decide (is_Some fk))
                 (bool_decide (is_Some (st_result st))) false in
  raise_if (negb (bool_decide (derive_state (st_config st) facts now = VOTING))) VotingWindowError.

Definition submit_ballot (m : InMemoryDataLayer) (now : Z) (eid : bytes) (ballot : BallotEnvelope)
    (gateway_sig : bytes) : result (InMemoryDataLayer * Z) :=
  st ← _get m eid;
  _ ← _require_gateway st ballot gateway_sig;
  _ ← _require_voting_open st now;
  let seq := len (st_ballots st) in
  Ok (put m eid (append_ballot st (mkStoredBallot seq ballot (Some now))), seq).

Definition list_ballots (m : InMemoryDataLayer) (eid : bytes) (start count : Z) : result (list StoredBallot) :=
  st ← _get m eid; Ok (py_slice (st_ballots st) start (start + count)).

Definition count_ballots (m : InMemoryDataLayer) (eid : bytes) : result Z :=
  st ← _get m eid; Ok (len (st_ballots st)).

(** ** Tally artifacts *)

Definition get_aggregate (m : InMemoryDataLayer) (eid : bytes) : result (option AggregateArtifact) :=
  st ← _get m eid;
  groups ← _aggregate_groups eid (st_aggregate_by_keyper st);
  resolve_unique (dict_values groups) (quorum (threshold (st_config st))).

Definition _aggregate_finalized (m : InMemoryDataLayer) (st : _Stored) : result bool :=
  a ← get_aggregate m (election_id (st_config st)); Ok (bool_decide (is_Some a)).

Definition submit_aggregate (m : InMemoryDataLayer) (now : Z) (eid : bytes) (aggregate : AggregateArtifact)
    (keyper_sig : bytes) : result InMemoryDataLayer :=
  st ← _get m eid;
  _ ← raise_if (now <? voting_end (st_config st)) VotingWindowError;
  digest ← aggregate_digest_of eid aggregate;
  idx ← _keyper_index_by_recovery (st_config st) digest keyper_sig;
  if bool_decide (dict_get (st_aggregate_by_keyper st) idx = Some aggregate) then Ok m else
  finalized ← _aggregate_finalized m st;
  _ ← raise_if finalized ImmutabilityError;
  Ok (put m eid (set_aggregates st (dict_set (st_aggregate_by_keyper st) idx aggregate))).

Definition share_payload (share : DecryptionShareEnvelope) : list bytes * list (Z * Z) :=
  (sigma <$> entries share,
   (λ e, (from_bytes_be (take 32 (proof e)), from_bytes_be (drop 32 (proof e)))) <$> entries share).

Definition submit_decryption_share (m : InMemoryDataLayer) (now : Z) (eid : bytes)
    (share : DecryptionShareEnvelope) (keyper_sig : bytes) : result InMemoryDataLayer :=
  st ← _get m eid;
  _ ← raise_if (now <? voting_end (st_config st)) VotingWindowError;
  finalized ← _aggregate_finalized m st;
  _ ← raise_if (negb finalized) VotingWindowError;
  let '(shares, proofs) := share_payload share in
  digest ← decryption_share_digest eid shares proofs;
  idx ← _keyper_index_by_recovery (st_config st) digest keyper_sig;
  _ ← raise_if (negb (idx =? keyper_index share)) WriteAuthorizationError;
  match dict_get (st_shares_by_keyper st) idx with
  | Some existing => _ ← raise_if (negb (bool_decide (existing = share))) ImmutabilityError; Ok m
  | None => Ok (put m eid (set_shares st (dict_set (st_shares_by_keyper st) idx share)))
  end.

Definition list_decryption_shares (m : InMemoryDataLayer) (eid : bytes)
  : result (list DecryptionShareEnvelope) :=
  st ← _get m eid; Ok (sorted_values (st_shares_by_keyper st)).

Definition publish_result (m : InMemoryDataLayer) (eid : bytes) (result : ResultArtifact)
    (result_publisher_sig : bytes) : Prelude.result InMemoryDataLayer :=
  st ← _get m eid;
  payload ← result_digest eid result;
  _ ← raise_if (negb (verify_request (result_publisher_key (st_config st)) result_publisher_sig
                        "result" eid payload)) WriteAuthorizationError;
  match st_result st with
  | Some r => _ ← raise_if (negb (bool_decide (r = result))) ImmutabilityError; Ok m
  | None => Ok (put m eid (set_result st result))
  end.

Definition get_result (m : InMemoryDataLayer) (eid : bytes) : result (option ResultArtifact) :=
  st ← _get m eid; Ok (st_result st).

(** The clock is read twice when marking: [now] for freshness, [now'] for the
    window. *)
Definition set_tally_stalled (m : InMemoryDataLayer) (now now' : Z) (eid : bytes) (stalled : bool)
    (sig : bytes) (issued_at : Z) : result InMemoryDataLayer :=
  st ← _get m eid;
  let op := if stalled then "tally_stall" else "tally_resume" in
  _ ← raise_if (negb (request_is_fresh issued_at now)) WriteAuthorizationError;
  _ ← raise_if (bool_decide ((eid, op, issued_at) ∈ _used_request_nonces m)) WriteAuthorizationError;
  payload ← request_nonce_payload issued_at;
  _ ← (if stalled then
         _ ← raise_if (now' <? voting_end (st_config st)) VotingWindowError;
         _ ← raise_if (bool_decide (is_Some (st_result st))) ImmutabilityError;
         raise_if (negb (verify_request (result_publisher_key (st_config st)) sig op eid payload))
           WriteAuthorizationError
       else
         raise_if (negb (verify_request (admin_key (st_config st)) sig op eid payload))
           WriteAuthorizationError);
  Ok (mkMemory (dict_set (_elections m) eid (set_stalled st stalled)) (_next_id m)
        ({[(eid, op, issued_at)]} ∪ _used_request_nonces m)).

Definition verifiability_tier (m : InMemoryDataLayer) : Z := 0.


(** * The groups the adapter resolves *)

Definition dkg_key (sub : DKGResultSubmission) : bytes * list bytes :=
  (dkg_pk_election sub, dkg_committee_pks sub).

Definition dkg_votes (d : dict Z DKGResultSubmission)
  : list (Z * (bytes * list bytes) * (bytes * list bytes)) :=
  (λ e, (e.1, dkg_key e.2, dkg_key e.2)) <$> d.

Definition agg_vote (eid : bytes) (e : Z * AggregateArtifact) : result (Z * bytes * AggregateArtifact) :=
  key ← aggregate_digest_of eid e.2; Ok (e.1, key, e.2).

Definition agg_votes (eid : bytes) (d : dict Z AggregateArtifact)
  : result (list (Z * bytes * AggregateArtifact)) := mapM (agg_vote eid) d.

(** Pairing every key with itself commutes with lookups and updates. *)
Definition paired {K} (g : dict K (gset Z)) : dict K (K * gset Z) := (λ e, (e.1, (e.1, e.2))) <$> g.

Lemma paired_get `{EqDecision K} (g : dict K (gset Z)) k : dict_get (paired g) k = (λ s, (k, s)) <$> dict_get g k.
Proof.
  unfold paired. induction g as [|[k' s] g IH]; [done|]. rewrite fmap_cons. cbn [fst snd dict_get].
  case_decide; [by subst|]. apply IH.
Qed.
Lemma paired_set `{EqDecision K} (g : dict K (gset Z)) k s :
  dict_set (paired g) k (k, s) = paired (dict_set g k s).
Proof.
  unfold paired. induction g as [|[k' s'] g IH]; [done|]. rewrite fmap_cons. cbn [fst snd dict_set].
  case_decide; rewrite fmap_cons; cbn [fst snd]; [by subst|]. by rewrite IH.
Qed.

Lemma dkg_groups_group d : dkg_groups d = dict_values (group (dkg_votes d)).
Proof.
  assert (Hp : group (dkg_votes d) = paired (dkg_groups d)).
  { unfold group, dkg_groups, dkg_votes. induction d as [|[i sub] d IH] using rev_ind; [done|].
    rewrite fmap_app, foldl_app, foldl_snoc, IH. cbn [fmap list_fmap foldl fst snd].
    unfold group_step. rewrite paired_get. unfold dkg_key.
    destruct (dict_get (foldl _ _ d) _); unfold fmap, option_fmap, option_map, default, from_option, id;
      apply paired_set. }
  rewrite Hp. unfold dict_values, paired. rewrite <- list_fmap_compose.
  rewrite <- (list_fmap_id (dkg_groups d)) at 1. apply list_fmap_ext. by intros ? [].
Qed.

Lemma agg_groups_group eid d :
  _aggregate_groups eid d = (votes ← agg_votes eid d; Ok (group votes)).
Proof.
  unfold _aggregate_groups, agg_votes, group. generalize (@nil (bytes * (AggregateArtifact * gset Z))) as g.
  induction d as [|[i a] d IH]; intros g; [done|].
  cbn [foldM mapM].
  assert (Hs : aggregate_group_step eid g (i, a) = (v ← agg_vote eid (i, a); Ok (group_step g v))).
  { unfold aggregate_group_step, agg_vote, group_step. cbn [fst snd].
    destruct (aggregate_digest_of eid a); [|done]. rewrite !bind_Ok. by destruct (default _ _). }
  rewrite Hs. destruct (agg_vote eid (i, a)) as [v|e]; [|done]. rewrite !bind_Ok, IH.
  by destruct (mapM (agg_vote eid) d).
Qed.

End memory.
