(* ===== verification/DataLayerSafety.v ===== *)
(** The contract of the storage port, proved of the in-memory adapter: its
    steps, the invariant every reachable store satisfies, and what follows
    (unique and stable winners, append-only artifacts, single-use
    registrations and requests). *)

From S2P Require Import Prelude Params Primality Field Points Transcript Types Config Codecs WriteAuth Quorum DataLayer.

Section safety.
Context `{Crypto} `{EthAccount} `{Abi} (float_repr : Z → Z → string).

(** * Steps *)

(** One successful write; a write that raises changes nothing.  Configurations
    are values of the validated class. *)
Inductive step : InMemoryDataLayer → InMemoryDataLayer → Prop :=
| step_register m c sig m' eid : valid_config c →
    register_election float_repr m c sig = Ok (m', eid) → step m m'
| step_cancel m now eid sig m' : cancel_election m now eid sig = Ok m' → step m m'
| step_dkg m eid pk pks sig m' : submit_dkg_result m eid pk pks sig = Ok m' → step m m'
| step_ballot m now eid b sig m' seq :
    submit_ballot float_repr m now eid b sig = Ok (m', seq) → step m m'
| step_aggregate m now eid a sig m' : submit_aggregate m now eid a sig = Ok m' → step m m'
| step_share m now eid s sig m' : submit_decryption_share m now eid s sig = Ok m' → step m m'
| step_result m eid r sig m' : publish_result m eid r sig = Ok m' → step m m'
| step_stalled m now now' eid b sig t m' :
    set_tally_stalled m now now' eid b sig t = Ok m' → step m m'.

Definition reachable (m : InMemoryDataLayer) : Prop := rtc step new_memory m.

(** * The invariant *)

(** The signature over the digest recovers to keyper [i] of the committee. *)
Definition signed_by (c : ElectionConfig) (i : Z) (digest : result bytes) (sig : bytes) : Prop :=
  ∃ d k, digest = Ok d ∧ recover_digest d sig = Ok (signing_key k)
    ∧ 1 <= i ∧ keypers c !! Z.to_nat (i - 1) = Some k.

(** The aggregate a quorum agrees on, of a stored election. *)
Definition aggregate_of (st : _Stored) : result (option AggregateArtifact) :=
  groups ← _aggregate_groups (election_id (st_config st)) (st_aggregate_by_keyper st);
  resolve_unique (dict_values groups) (quorum (threshold (st_config st))).

Record stored_core (eid : bytes) (st : _Stored) : Prop := {
  ok_valid : valid_config (st_config st);
  ok_id : election_id (st_config st) = eid;
  ok_dkg_keys : NoDup (dict_keys (st_dkg_by_keyper st));
  ok_dkg i sub : (i, sub) ∈ st_dkg_by_keyper st → dkg_election_id sub = eid ∧
    signed_by (st_config st) i (dkg_result_digest eid (dkg_pk_election sub) (dkg_committee_pks sub))
      (dkg_keyper_signature sub);
  ok_ballots i b : st_ballots st !! i = Some b → sequence_number b = Z.of_nat i ∧
    ∃ t, submitted_at b = Some t ∧ is_voting_open (st_config st) t = true;
  ok_agg_keys : NoDup (dict_keys (st_aggregate_by_keyper st));
  ok_agg i a : (i, a) ∈ st_aggregate_by_keyper st →
    1 <= i <= thr_n (threshold (st_config st)) ∧ ∃ d, aggregate_digest_of eid a = Ok d;
  ok_shares_keys : NoDup (dict_keys (st_shares_by_keyper st));
  ok_shares i s : (i, s) ∈ st_shares_by_keyper st →
    keyper_index s = i ∧ 1 <= i <= thr_n (threshold (st_config st));
}.

Record stored_ok (eid : bytes) (st : _Stored) : Prop := {
  ok_core : stored_core eid st;
  ok_ballots_key : st_ballots st ≠ [] → ∃ fk, _finalized_key_of st = Ok (Some fk);
  ok_shares_agg : st_shares_by_keyper st ≠ [] → ∃ a, aggregate_of st = Ok (Some a);
}.

Record mem_ok (m : InMemoryDataLayer) : Prop := {
  mem_next : 0 <= _next_id m < 256 ^ 32;
  mem_ids : dict_keys (_elections m) = be_bytes 32 <$> seqZ 1 (_next_id m);
  mem_stored eid st : dict_get (_elections m) eid = Some st → stored_ok eid st;
}.

(** * Keypers and quorums *)

Lemma find_keyper_Ok ks i r j : find_keyper ks i r = Ok j →
  i <= j ∧ ∃ k, ks !! Z.to_nat (j - i) = Some k ∧ signing_key k = r.
Proof.
  revert i. induction ks as [|k ks IH]; intros i; cbn [find_keyper]; [done|].
  case_bool_decide as Hk.
  - intros <-%Ok_inj. split; [lia|]. exists k. by rewrite Z.sub_diag.
  - intros (Hle & k' & Hk' & <-)%IH. split; [lia|]. exists k'.
    by replace (Z.to_nat (j - i)) with (S (Z.to_nat (j - (i + 1)))) by lia.
Qed.

Lemma keyper_index_signed c digest d sig i : digest = Ok d →
  _keyper_index_by_recovery c d sig = Ok i → signed_by c i digest sig.
Proof.
  intros Hd. unfold _keyper_index_by_recovery.
  destruct (recover_digest d sig) as [r|] eqn:Er; [|done]. intros (Hi & k & Hk & <-)%find_keyper_Ok.
  by exists d, k.
Qed.

Lemma signed_by_range c i digest sig : valid_config c → signed_by c i digest sig →
  1 <= i <= thr_n (threshold c).
Proof.
  intros [_ (_ & _ & _ & _ & _ & Hl & _)%config_post_init_Ok] (d & k & _ & _ & Hi & Hk).
  apply lookup_lt_Some in Hk. unfold len in *. lia.
Qed.

Section stored.
Context (eid : bytes) (st : _Stored) (Hok : stored_core eid st).
Let n := thr_n (threshold (st_config st)).
Let needed := quorum (threshold (st_config st)).

Lemma stored_majority : 0 <= n ∧ 1 <= needed ∧ n < 2 * needed.
Proof.
  subst n needed. unfold quorum.
  destruct (ok_valid _ _ Hok) as [Ht%threshold_post_init_Ok _]. lia.
Qed.

Lemma dkg_committee : committee_of n (dkg_votes (st_dkg_by_keyper st)).
Proof.
  split.
  - unfold dkg_votes. rewrite <- !list_fmap_compose. exact (ok_dkg_keys _ _ Hok).
  - unfold dkg_votes. apply Forall_fmap, Forall_forall. intros [i sub] Hin. cbn.
    destruct (ok_dkg _ _ Hok i sub Hin) as [_ Hs]. by eapply signed_by_range; [apply Hok|].
Qed.

(** The keypers that submitted the key. *)
Definition backers (d : dict Z DKGResultSubmission) (fk : FinalizedKey) : gset Z :=
  supporters (dkg_votes d) (pk_election fk, committee_pks fk).

Lemma finalized_key_of_spec : ∃ o, _finalized_key_of st = Ok o ∧
  match o with
  | Some fk => needed <= Z.of_nat (size (backers (st_dkg_by_keyper st) fk))
  | None => ∀ fk, Z.of_nat (size (backers (st_dkg_by_keyper st) fk)) < needed
  end.
Proof.
  destruct stored_majority as (Hn & Hq & Hm).
  destruct (resolve_group n needed Hn Hq Hm _ dkg_committee) as (o & Ho & Hw).
  unfold _finalized_key_of. rewrite dkg_groups_group. fold needed. rewrite Ho, bind_Ok.
  eexists. split; [done|]. destruct o as [[pk com]|]; cbn in Hw |- *.
  - destruct Hw as (k & Hv & Hk).
    assert (k = (pk, com)) as -> by
      (apply first_value_elem in Hv as (i & ([j sub] & E & _)%list_elem_of_fmap); cbn in E; congruence).
    exact Hk.
  - intros fk. apply Hw.
Qed.

Lemma finalized_key_of_quorum fk : needed <= Z.of_nat (size (backers (st_dkg_by_keyper st) fk)) →
  _finalized_key_of st = Ok (Some fk).
Proof.
  intros Hfk. destruct stored_majority as (Hn & Hq & Hm).
  destruct finalized_key_of_spec as ([fk'|] & -> & Ho); [|specialize (Ho fk); lia].
  pose proof (quorum_key_unique n needed Hn Hm _ _ _ dkg_committee Hfk Ho) as [= E1 E2].
  do 2 f_equal. destruct fk, fk'. cbn in *. congruence.
Qed.

Lemma agg_votes_Ok : ∃ votes, agg_votes eid (st_aggregate_by_keyper st) = Ok votes ∧
  votes.*1.*1 = dict_keys (st_aggregate_by_keyper st) ∧ committee_of n votes.
Proof.
  assert (Hv : ∃ votes, agg_votes eid (st_aggregate_by_keyper st) = Ok votes
    ∧ votes.*1.*1 = dict_keys (st_aggregate_by_keyper st)).
  { assert (Hd : ∀ e, e ∈ st_aggregate_by_keyper st → ∃ d, aggregate_digest_of eid e.2 = Ok d).
    { intros [i a] Hin. by destruct (ok_agg _ _ Hok i a Hin). }
    unfold agg_votes, dict_keys. induction (st_aggregate_by_keyper st) as [|[i a] d IH].
    - by exists [].
    - destruct IH as (votes & E & Ek); [intros e He; apply Hd; by right|].
      destruct (Hd (i, a) ltac:(left)) as [k Hk]. cbn [snd] in Hk.
      assert (Hv : agg_vote eid (i, a) = Ok (i, k, a)) by (unfold agg_vote; cbn [fst snd]; by rewrite Hk).
      exists ((i, k, a) :: votes). cbn [mapM]. rewrite Hv, bind_Ok, E, bind_Ok.
      split; [done|]. rewrite !fmap_cons, Ek. done. }
  destruct Hv as (votes & E & Ek). exists votes. split_and!; [done..|]. split.
  - rewrite Ek. apply Hok.
  - apply Forall_forall. intros [[i k] a] Hin. cbn.
    assert (Hi : i ∈ dict_keys (st_aggregate_by_keyper st)).
    { rewrite <- Ek. apply list_elem_of_fmap. exists (i, k). split; [done|].
      apply list_elem_of_fmap. by exists (i, k, a). }
    apply list_elem_of_fmap in Hi as ([i' a'] & -> & Hin'). by apply (ok_agg _ _ Hok i' a').
Qed.

Lemma aggregate_of_total : ∃ o, aggregate_of st = Ok o.
Proof.
  destruct stored_majority as (Hn & Hq & Hm), agg_votes_Ok as (votes & E & _ & Hc).
  destruct (resolve_group n needed Hn Hq Hm _ Hc) as (o & Ho & _). exists o.
  unfold aggregate_of. rewrite (ok_id _ _ Hok), agg_groups_group, E, !bind_Ok. exact Ho.
Qed.

End stored.

(** * Writes *)

(** What one write does to a stored election. *)
Inductive write (eid : bytes) (st : _Stored) : _Stored → Prop :=
| write_cancel : write eid st (set_cancelled st)
| write_dkg i sub : dict_get (st_dkg_by_keyper st) i = None → dkg_election_id sub = eid →
    signed_by (st_config st) i (dkg_result_digest eid (dkg_pk_election sub) (dkg_committee_pks sub))
      (dkg_keyper_signature sub) →
    write eid st (set_dkg st (dict_set (st_dkg_by_keyper st) i sub))
| write_ballot b now fk : _finalized_key_of st = Ok (Some fk) → is_voting_open (st_config st) now = true →
    write eid st (append_ballot st (mkStoredBallot (len (st_ballots st)) b (Some now)))
| write_aggregate i a d : 1 <= i <= thr_n (threshold (st_config st)) →
    aggregate_digest_of eid a = Ok d → aggregate_of st = Ok None →
    write eid st (set_aggregates st (dict_set (st_aggregate_by_keyper st) i a))
| write_share i s a : 1 <= i <= thr_n (threshold (st_config st)) → keyper_index s = i →
    dict_get (st_shares_by_keyper st) i = None → aggregate_of st = Ok (Some a) →
    write eid st (set_shares st (dict_set (st_shares_by_keyper st) i s))
| write_result r : st_result st = None → write eid st (set_result st r)
| write_stalled b : write eid st (set_stalled st b).

Lemma dict_set_None `{EqDecision K} {V} (d : dict K V) k v : dict_get d k = None →
  dict_set d k v = d ++ [(k, v)].
Proof.
  induction d as [|[k' v'] d IH]; cbn; [done|]. case_decide; [done|]. intros Hd. by rewrite IH.
Qed.

Lemma elem_dict_set `{EqDecision K} {V} (d : dict K V) k v k' v' :
  (k', v') ∈ dict_set d k v → (k', v') = (k, v) ∨ (k', v') ∈ d.
Proof.
  induction d as [|[k0 v0] d IH]; cbn.
  - intros Hin%list_elem_of_singleton. by left.
  - case_decide; subst; intros [E|Hin]%elem_of_cons.
    + by left.
    + right. by right.
    + right. rewrite E. left.
    + destruct (IH Hin); [by left|right; by right].
Qed.

Lemma backers_mono eid st i sub fk : stored_core eid st → dict_get (st_dkg_by_keyper st) i = None →
  backers (st_dkg_by_keyper st) fk ⊆ backers (dict_set (st_dkg_by_keyper st) i sub) fk.
Proof.
  intros _ Hi. rewrite dict_set_None by done. unfold backers, dkg_votes.
  rewrite fmap_app. cbn [fmap list_fmap]. rewrite supporters_app. set_solver.
Qed.

Lemma write_core eid st st' : stored_core eid st → write eid st st' → stored_core eid st'.
Proof.
  intros Hok Hw. destruct Hok, Hw; constructor; cbn; try done; try (by apply dict_set_NoDup).
  - intros i' sub' [[= -> ->]|Hin]%elem_dict_set; [done|by apply ok_dkg0].
  - intros i b' Hb. apply lookup_app_Some in Hb as [Hb|[Hl Hb]]; [by apply ok_ballots0|].
    apply list_lookup_singleton_Some in Hb as [Hi <-]. cbn. unfold len. split; [lia|]. eauto.
  - intros i' a' [[= -> ->]|Hin]%elem_dict_set; [by split; [|exists d]|by apply ok_agg0].
  - intros i' s' [[= -> ->]|Hin]%elem_dict_set; [done|by apply ok_shares0].
Qed.

Lemma write_finalized_key eid st st' fk : stored_core eid st → write eid st st' →
  _finalized_key_of st = Ok (Some fk) → _finalized_key_of st' = Ok (Some fk).
Proof.
  intros Hok Hw Hfk. pose proof (write_core _ _ _ Hok Hw) as Hok'. destruct Hw; try exact Hfk.
  apply (finalized_key_of_quorum eid _ Hok').
  destruct (finalized_key_of_spec eid st Hok) as (o & Ho & Hs). rewrite Hfk in Ho. injection Ho as <-.
  etransitivity; [exact Hs|]. by apply inj_le, subseteq_size, (backers_mono eid).
Qed.

Lemma write_aggregate_of eid st st' a : write eid st st' →
  aggregate_of st = Ok (Some a) → aggregate_of st' = Ok (Some a).
Proof. intros Hw Ha. destruct Hw; try exact Ha. congruence. Qed.

Lemma write_ok eid st st' : stored_ok eid st → write eid st st' → stored_ok eid st'.
Proof.
  intros [Hc Hb Hs] Hw. constructor; [by eapply write_core|..].
  - assert (Hfk : st_ballots st ≠ [] → ∃ fk, _finalized_key_of st' = Ok (Some fk)).
    { intros [fk Hfk]%Hb. exists fk. by eapply write_finalized_key. }
    destruct Hw; try exact Hfk. intros _. by exists fk.
  - assert (Ha : st_shares_by_keyper st ≠ [] → ∃ a, aggregate_of st' = Ok (Some a)).
    { intros [a Ha]%Hs. exists a. by eapply write_aggregate_of. }
    destruct Hw; try exact Ha. intros _. by exists a.
Qed.

(** A step changes nothing, adds an election, or writes to one. *)
Inductive effect (m : InMemoryDataLayer) : InMemoryDataLayer → Prop :=
| effect_none : effect m m
| effect_register c : valid_config c → _next_id m + 1 < 256 ^ 32 →
    election_id c = be_bytes 32 (_next_id m + 1) →
    effect m (mkMemory (dict_set (_elections m) (election_id c) (new_stored c)) (_next_id m + 1)
      (_used_request_nonces m))
| effect_write eid st st' nonces : dict_get (_elections m) eid = Some st → write eid st st' →
    _used_request_nonces m ⊆ nonces →
    effect m (mkMemory (dict_set (_elections m) eid st') (_next_id m) nonces).

Lemma get_Ok m eid st : _get m eid = Ok st ↔ dict_get (_elections m) eid = Some st.
Proof. unfold _get. destruct (dict_get _ _); split; congruence. Qed.

Lemma effect_put m eid st st' : _get m eid = Ok st → write eid st st' → effect m (put m eid st').
Proof. intros ?%get_Ok ?. by eapply effect_write. Qed.

Lemma with_election_id_same c : with_election_id c (election_id c) = c.
Proof. by destruct c. Qed.

Lemma get_aggregate_of m eid st : _get m eid = Ok st → election_id (st_config st) = eid →
  get_aggregate m eid = aggregate_of st.
Proof. intros Hg <-. unfold get_aggregate. by rewrite Hg, bind_Ok. Qed.

Lemma aggregate_finalized_Ok m eid st b : _get m eid = Ok st → election_id (st_config st) = eid →
  _aggregate_finalized m st = Ok b → ∃ o, aggregate_of st = Ok o ∧ b = bool_decide (is_Some o).
Proof.
  intros Hg Hid Hf. unfold _aggregate_finalized in Hf. rewrite Hid, (get_aggregate_of m eid st) in Hf by done.
  apply bind_Ok_inv in Hf as (o & Ho & <-%Ok_inj). eauto.
Qed.

Lemma voting_state c facts now : derive_state c facts now = VOTING →
  key_finalized facts = true ∧ is_voting_open c now = true.
Proof.
  unfold derive_state, is_voting_open.
  destruct (cancelled facts), (result_published facts), (key_finalized facts); cbn [negb];
    rewrite ?andb_false_r, ?andb_true_r; try done; repeat case_match; try done; intros _; split; [done|lia].
Qed.

Lemma register_effect m c sig m' eid : valid_config c →
  register_election float_repr m c sig = Ok (m', eid) → effect m m'.
Proof.
  intros Hc Hr. unfold register_election in Hr. apply bind_Ok_inv in Hr as ([] & _ & Hr).
  apply bind_Ok_inv in Hr as (e & [He ->]%to_bytes_be_Ok & Hr).
  apply bind_Ok_inv in Hr as ([] & Hid%raise_if_Ok & [<- _]%Ok_inj%pair_equal_spec).
  apply negb_false_iff, bool_decide_eq_true in Hid. rewrite <- Hid, with_election_id_same.
  apply effect_register; [done|lia|done].
Qed.

Lemma dkg_effect m eid pk pks sig m' : submit_dkg_result m eid pk pks sig = Ok m' → effect m m'.
Proof.
  unfold submit_dkg_result. intros Hr. apply bind_Ok_inv in Hr as (st & Hst & Hr).
  apply bind_Ok_inv in Hr as (d & Hd & Hr). apply bind_Ok_inv in Hr as (i & Hi & Hr).
  destruct (dict_get _ i) eqn:Ei.
  - apply bind_Ok_inv in Hr as ([] & _ & <-%Ok_inj). constructor.
  - apply Ok_inj in Hr as <-. eapply effect_put; [done|]. apply write_dkg; [done..|].
    by eapply keyper_index_signed.
Qed.

Lemma ballot_effect m now eid b sig m' seq :
  submit_ballot float_repr m now eid b sig = Ok (m', seq) → effect m m'.
Proof.
  unfold submit_ballot. intros Hr. apply bind_Ok_inv in Hr as (st & Hst & Hr).
  apply bind_Ok_inv in Hr as ([] & _ & Hr). apply bind_Ok_inv in Hr as ([] & Hv & [<- _]%Ok_inj%pair_equal_spec).
  unfold _require_voting_open in Hv. apply bind_Ok_inv in Hv as (fk & Hfk & Hv%raise_if_Ok).
  apply negb_false_iff, bool_decide_eq_true, voting_state in Hv as [Hk%bool_decide_eq_true Ho].
  destruct fk as [fk|]; [|by destruct Hk]. eapply effect_put; [done|]. by eapply write_ballot.
Qed.

Lemma aggregate_effect m now eid a sig m' : mem_ok m →
  submit_aggregate m now eid a sig = Ok m' → effect m m'.
Proof.
  intros Hm. unfold submit_aggregate. intros Hr. apply bind_Ok_inv in Hr as (st & Hst & Hr).
  pose proof (ok_core _ _ (mem_stored _ Hm eid st (proj1 (get_Ok _ _ _) Hst))) as Hok.
  apply bind_Ok_inv in Hr as ([] & _ & Hr). apply bind_Ok_inv in Hr as (d & Hd & Hr).
  apply bind_Ok_inv in Hr as (i & Hi & Hr).
  case_bool_decide; [apply Ok_inj in Hr as <-; constructor|].
  apply bind_Ok_inv in Hr as (b & Hb & Hr). apply bind_Ok_inv in Hr as ([] & ->%raise_if_Ok & <-%Ok_inj).
  eapply aggregate_finalized_Ok in Hb as (o & Ho & Hn); [|done|apply Hok].
  symmetry in Hn. apply bool_decide_eq_false, eq_None_not_Some in Hn as ->. eapply effect_put; [done|].
  eapply write_aggregate; [|done..]. eapply signed_by_range; [apply Hok|].
  by eapply (keyper_index_signed _ (Ok d)).
Qed.

Lemma share_effect m now eid s sig m' : mem_ok m →
  submit_decryption_share m now eid s sig = Ok m' → effect m m'.
Proof.
  intros Hm. unfold submit_decryption_share. intros Hr. apply bind_Ok_inv in Hr as (st & Hst & Hr).
  pose proof (ok_core _ _ (mem_stored _ Hm eid st (proj1 (get_Ok _ _ _) Hst))) as Hok.
  apply bind_Ok_inv in Hr as ([] & _ & Hr). apply bind_Ok_inv in Hr as (b & Hb & Hr).
  apply bind_Ok_inv in Hr as ([] & ->%raise_if_Ok%negb_false_iff & Hr).
  eapply aggregate_finalized_Ok in Hb as (o & Ho & Hn); [|done|apply Hok].
  symmetry in Hn. apply bool_decide_eq_true in Hn as [a ->].
  destruct (share_payload s) as [shares proofs]. apply bind_Ok_inv in Hr as (d & Hd & Hr).
  apply bind_Ok_inv in Hr as (i & Hi & Hr). apply bind_Ok_inv in Hr as ([] & Hk%raise_if_Ok & Hr).
  apply negb_false_iff, Z.eqb_eq in Hk.
  destruct (dict_get _ i) eqn:Ei; [apply bind_Ok_inv in Hr as ([] & _ & <-%Ok_inj); constructor|].
  apply Ok_inj in Hr as <-. eapply effect_put; [done|]. eapply write_share; [|done..].
  eapply signed_by_range; [apply Hok|]. by eapply (keyper_index_signed _ (Ok d)).
Qed.

Lemma step_effect m m' : mem_ok m → step m m' → effect m m'.
Proof.
  intros Hm Hs. destruct Hs as [m c sig m' eid Hc Hr|m now eid sig m' Hr|m eid pk pks sig m' Hr
    |m now eid b sig m' seq Hr|m now eid a sig m' Hr|m now eid s sig m' Hr|m eid r sig m' Hr
    |m now now' eid b sig t m' Hr].
  - by eapply register_effect.
  - unfold cancel_election in Hr. apply bind_Ok_inv in Hr as (st & Hst & Hr).
    apply bind_Ok_inv in Hr as ([] & _ & Hr). apply bind_Ok_inv in Hr as ([] & _ & <-%Ok_inj).
    eapply effect_put; [done|constructor].
  - by eapply dkg_effect.
  - by eapply ballot_effect.
  - by eapply aggregate_effect.
  - by eapply share_effect.
  - unfold publish_result in Hr. apply bind_Ok_inv in Hr as (st & Hst & Hr).
    apply bind_Ok_inv in Hr as (d & _ & Hr). apply bind_Ok_inv in Hr as ([] & _ & Hr).
    destruct (st_result st) eqn:Er; [apply bind_Ok_inv in Hr as ([] & _ & <-%Ok_inj); constructor|].
    apply Ok_inj in Hr as <-. eapply effect_put; [done|by constructor].
  - unfold set_tally_stalled in Hr. apply bind_Ok_inv in Hr as (st & Hst%get_Ok & Hr).
    do 4 (apply bind_Ok_inv in Hr as (? & _ & Hr)). apply Ok_inj in Hr as <-.
    eapply effect_write; [done|constructor|set_solver].
Qed.

(** * Reachable stores *)

Lemma be_bytes_inj k n m : 0 <= n < 256 ^ Z.of_nat k → 0 <= m < 256 ^ Z.of_nat k →
  be_bytes k n = be_bytes k m → n = m.
Proof.
  intros Hn Hm E. apply (f_equal from_bytes_be) in E. by rewrite !from_be_bytes, !Z.mod_small in E by done.
Qed.

Lemma next_id_fresh m : mem_ok m → _next_id m + 1 < 256 ^ 32 →
  be_bytes 32 (_next_id m + 1) ∉ dict_keys (_elections m).
Proof.
  intros [Hn Hk _] Hb. rewrite Hk. intros (i & E & Hi%elem_of_seqZ)%list_elem_of_fmap.
  apply be_bytes_inj in E; change (256 ^ Z.of_nat 32) with (256 ^ 32); lia.
Qed.

Lemma dict_keys_update `{EqDecision K} {V} (d : dict K V) k v v' : dict_get d k = Some v →
  dict_keys (dict_set d k v') = dict_keys d.
Proof.
  intros Hd. rewrite dict_keys_set, decide_True; [done|].
  apply dict_get_elem in Hd. apply list_elem_of_fmap. by exists (k, v).
Qed.

Lemma new_stored_ok c : valid_config c → stored_ok (election_id c) (new_stored c).
Proof.
  intros Hc. constructor; cbn; [constructor; cbn|done..];
    first [done|by constructor|by intros ? ? ?%not_elem_of_nil].
Qed.

Lemma effect_ok m m' : mem_ok m → effect m m' → mem_ok m'.
Proof.
  intros Hm He. pose proof Hm as [Hn Hk Hs]. destruct He as [|c Hc Hb Hid|eid st st' nonces Hg Hw _]; [done|..].
  - constructor; cbn [_next_id _elections _used_request_nonces].
    + lia.
    + rewrite dict_keys_set, decide_False, Hk, Hid by (rewrite Hid; by apply next_id_fresh).
      rewrite seqZ_app, fmap_app by lia. f_equal. change (seqZ (1 + _next_id m) 1) with [0 + (1 + _next_id m)].
      by rewrite (Z.add_comm 1).
    + intros eid st Hg. rewrite dict_get_set in Hg. case_decide; [|by apply Hs].
      simplify_eq. by apply new_stored_ok.
  - constructor; cbn [_next_id _elections _used_request_nonces]; [done|by rewrite (dict_keys_update _ _ st)|].
    intros eid' st'' Hg'. rewrite dict_get_set in Hg'. case_decide; [|by apply Hs].
    simplify_eq. eapply write_ok; [by apply Hs|done].
Qed.

Lemma new_memory_ok : mem_ok new_memory.
Proof. constructor; cbn; [lia|done|done]. Qed.

Lemma steps_ok m m' : mem_ok m → rtc step m m' → mem_ok m'.
Proof. intros Hm. induction 1 as [|m m1 m' Hs _ IH]; [done|]. by eauto using effect_ok, step_effect. Qed.

Lemma reachable_ok m : reachable m → mem_ok m.
Proof. apply steps_ok, new_memory_ok. Qed.

(** ** Append-only history *)

(** The later state of a stored election extends the earlier one. *)
Record extends (st st' : _Stored) : Prop := {
  ext_config : st_config st' = st_config st;
  ext_cancelled : st_cancelled st = true → st_cancelled st' = true;
  ext_dkg : st_dkg_by_keyper st `prefix_of` st_dkg_by_keyper st';
  ext_ballots : st_ballots st `prefix_of` st_ballots st';
  ext_shares : st_shares_by_keyper st `prefix_of` st_shares_by_keyper st';
  ext_result r : st_result st = Some r → st_result st' = Some r;
  ext_key fk : _finalized_key_of st = Ok (Some fk) → _finalized_key_of st' = Ok (Some fk);
  ext_aggregate a : aggregate_of st = Ok (Some a) → aggregate_of st' = Ok (Some a);
}.

#[export] Instance extends_preorder : PreOrder extends.
Proof.
  split.
  - intros st. constructor; done.
  - intros s1 s2 s3 [] []. constructor; auto; [congruence|by etransitivity..].
Qed.

Lemma write_extends eid st st' : stored_core eid st → write eid st st' → extends st st'.
Proof.
  intros Hok Hw. constructor.
  7: { intros fk. by eapply write_finalized_key. }
  7: { intros a. by eapply write_aggregate_of. }
  all: destruct Hw; cbn; try done; rewrite ?dict_set_None by done; try by apply prefix_app_r.
  intros r' Hr. congruence.
Qed.

Lemma effect_extends m m' eid st : mem_ok m → effect m m' → dict_get (_elections m) eid = Some st →
  ∃ st', dict_get (_elections m') eid = Some st' ∧ extends st st'.
Proof.
  intros Hm He Hg. destruct He as [|c Hc Hb Hid|eid' st0 st' nonces Hg' Hw _]; cbn; [by exists st|..].
  - rewrite dict_get_set, decide_False; [by exists st|]. intros ->.
    apply (next_id_fresh m Hm Hb). rewrite <- Hid. apply dict_get_elem in Hg.
    apply list_elem_of_fmap. by exists (election_id c, st).
  - rewrite dict_get_set. case_decide; [|by exists st]. simplify_eq. exists st'. split; [done|].
    eapply write_extends; [|done]. by apply (mem_stored _ Hm).
Qed.

Lemma steps_extend m m' eid st : mem_ok m → rtc step m m' → dict_get (_elections m) eid = Some st →
  ∃ st', dict_get (_elections m') eid = Some st' ∧ extends st st'.
Proof.
  intros Hm Hs. revert st Hm. induction Hs as [|m m1 m' Hs _ IH]; intros st Hm Hg; [by exists st|].
  apply step_effect in Hs; [|done].
  destruct (effect_extends _ _ _ _ Hm Hs Hg) as (st1 & Hg1 & E1).
  destruct (IH st1 (effect_ok _ _ Hm Hs) Hg1) as (st2 & Hg2 & E2). exists st2. split; [done|by etransitivity].
Qed.

Lemma steps_counters m m' : mem_ok m → rtc step m m' →
  _next_id m <= _next_id m' ∧ _used_request_nonces m ⊆ _used_request_nonces m'.
Proof.
  intros Hm Hs. revert Hm. induction Hs as [|m m1 m' Hs _ IH]; intros Hm; [done|].
  apply step_effect in Hs; [|done]. destruct (IH (effect_ok _ _ Hm Hs)) as [IH1 IH2].
  destruct Hs; cbn in *; [done|split; [lia|done]|split; [lia|set_solver]].
Qed.

(** ** A quorum that agrees finalizes the key *)

Section agreement.
Context (eid pk : bytes) (pks : list bytes) (d : bytes) (Hd : dkg_result_digest eid pk pks = Ok d).

(** The keyper has submitted this key or nothing. *)
Definition undecided_or_agrees (st : _Stored) (i : Z) : Prop :=
  ∀ sub, dict_get (st_dkg_by_keyper st) i = Some sub → dkg_key sub = (pk, pks).

Lemma elem_of_backers st i sub : (i, sub) ∈ st_dkg_by_keyper st → dkg_key sub = (pk, pks) →
  i ∈ backers (st_dkg_by_keyper st) (mkFinalizedKey pk pks).
Proof.
  intros Hin Hk. apply elem_of_supporters. exists (pk, pks). apply list_elem_of_fmap.
  exists (i, sub). cbn. by rewrite Hk.
Qed.

Lemma agreeing_submission m st sig i : mem_ok m → dict_get (_elections m) eid = Some st →
  _keyper_index_by_recovery (st_config st) d sig = Ok i → undecided_or_agrees st i →
  ∃ m' st', submit_dkg_result m eid pk pks sig = Ok m' ∧ dict_get (_elections m') eid = Some st'
    ∧ extends st st' ∧ i ∈ backers (st_dkg_by_keyper st') (mkFinalizedKey pk pks)
    ∧ ∀ j, undecided_or_agrees st j → undecided_or_agrees st' j.
Proof.
  intros Hm Hst Hi Hu. unfold submit_dkg_result. rewrite (proj2 (get_Ok m eid st) Hst), bind_Ok, Hd, bind_Ok, Hi, bind_Ok.
  destruct (dict_get (st_dkg_by_keyper st) i) as [sub|] eqn:Ei.
  - specialize (Hu _ Ei). unfold dkg_key in Hu. rewrite Hu, bool_decide_eq_true_2 by done. cbn [negb raise_if].
    exists m, st. split_and!; [done|done|done| |done].
    eapply elem_of_backers; [by apply dict_get_elem|done].
  - set (st' := set_dkg st _). exists (put m eid st'), st'. split_and!; [done|..].
    + cbn. by rewrite dict_get_set, decide_True.
    + apply (write_extends eid); [apply (mem_stored _ Hm _ _ Hst)|]. apply write_dkg; [done..|].
      cbn. by eapply keyper_index_signed.
    + eapply (elem_of_backers st' i (mkDKGResultSubmission eid pk pks sig)); [|done].
      apply dict_get_elem. cbn. by rewrite dict_get_set, decide_True.
    + intros j Hj sub. cbn. rewrite dict_get_set. case_decide; [|apply Hj]. by intros [= <-].
Qed.

Lemma agreeing_submissions sigs m st : mem_ok m → dict_get (_elections m) eid = Some st →
  (∀ sig, sig ∈ sigs → ∃ i, _keyper_index_by_recovery (st_config st) d sig = Ok i ∧ undecided_or_agrees st i) →
  ∃ m' st', foldM (λ m sig, submit_dkg_result m eid pk pks sig) sigs m = Ok m'
    ∧ mem_ok m' ∧ dict_get (_elections m') eid = Some st' ∧ st_config st' = st_config st
    ∧ backers (st_dkg_by_keyper st) (mkFinalizedKey pk pks) ⊆ backers (st_dkg_by_keyper st') (mkFinalizedKey pk pks)
    ∧ ∀ sig i, sig ∈ sigs → _keyper_index_by_recovery (st_config st) d sig = Ok i →
        i ∈ backers (st_dkg_by_keyper st') (mkFinalizedKey pk pks).
Proof.
  revert m st. induction sigs as [|sig sigs IH]; intros m st Hm Hst Hs.
  - exists m, st. split_and!; try done. by intros sig i ?%not_elem_of_nil.
  - destruct (Hs sig ltac:(left)) as (i & Hi & Hu).
    destruct (agreeing_submission m st sig i Hm Hst Hi Hu) as (m1 & st1 & E & Hst1 & Hext & Hin & Hu1).
    pose proof (ext_config _ _ Hext) as Hc.
    assert (Hm1 : mem_ok m1) by (eapply effect_ok; [done|by eapply dkg_effect]).
    destruct (IH m1 st1 Hm1 Hst1) as (m' & st' & E' & Hm' & Hst' & Hc' & Hsub & Hall).
    { intros sig' Hsig'. destruct (Hs sig' ltac:(by right)) as (j & Hj & Hju). rewrite Hc. eauto. }
    exists m', st'. cbn [foldM]. rewrite E, bind_Ok. split_and!; [done..|congruence| |].
    + etransitivity; [|done]. destruct (ext_dkg _ _ Hext) as [k ->]. unfold backers, dkg_votes.
      intros j (v & Hv)%elem_of_supporters. apply elem_of_supporters. exists v. rewrite fmap_app.
      apply elem_of_app. by left.
    + intros sig' j [->|Hsig']%elem_of_cons Hj; [|eapply Hall; [done|by rewrite Hc]].
      assert (j = i) as -> by congruence. by apply Hsub.
Qed.

End agreement.

(** The committee members behind a list of signatures over the digest. *)
Definition signers (c : ElectionConfig) (d : bytes) (sigs : list bytes) : gset Z :=
  list_to_set (omap (λ sig, match _keyper_index_by_recovery c d sig with Ok i => Some i | Err _ => None end) sigs).

(** * Properties *)

(** C13: Every store reached from the empty one by successful writes satisfies
    the port's contract: election ids are the dense sequence 1..N, each
    election's configuration is valid and carries its id, every DKG result is
    signed by the keyper it is filed under, ballots carry their position as
    sequence number and a receive time inside the voting window and exist only
    under a finalized key, aggregates and shares are filed under committee
    members, and shares exist only under a canonical aggregate. *)
Theorem memory_invariant m : reachable m → mem_ok m.
Proof. apply reachable_ok. Qed.

(** C12: History is append-only: whatever writes follow, an election's
    configuration does not change, its ballots, DKG submissions and decryption
    shares only grow at the end, a published result and a cancellation stay,
    and the finalized key and the canonical aggregate, once there, never
    change. *)
Theorem memory_append_only m m' eid st : reachable m → rtc step m m' → _get m eid = Ok st →
  ∃ st', _get m' eid = Ok st' ∧ extends st st'.
Proof.
  intros Hm%reachable_ok Hs Hg%get_Ok. destruct (steps_extend _ _ _ _ Hm Hs Hg) as (st' & Hg' & He).
  exists st'. by rewrite get_Ok.
Qed.

(** C14: The finalized key is exactly the key that a quorum of the committee
    submitted, and reading it never raises a quorum conflict. *)
Theorem finalized_key_iff_quorum m eid st : reachable m → _get m eid = Ok st →
  (∃ o, get_finalized_key m eid = Ok o) ∧ ∀ fk, get_finalized_key m eid = Ok (Some fk) ↔
    quorum (threshold (st_config st)) <= Z.of_nat (size (backers (st_dkg_by_keyper st) fk)).
Proof.
  intros Hm%reachable_ok Hg. pose proof (ok_core _ _ (mem_stored _ Hm eid st (proj1 (get_Ok _ _ _) Hg))) as Hok.
  unfold get_finalized_key. rewrite Hg, bind_Ok.
  destruct (finalized_key_of_spec eid st Hok) as (o & Ho & Hs). split; [by exists o|]. intros fk. split.
  - intros Hfk. rewrite Hfk in Ho. injection Ho as <-. exact Hs.
  - apply (finalized_key_of_quorum eid st Hok).
Qed.

(** When keypers forming a quorum, none of which has submitted another
    key, each submit the same key, every submission is accepted and the key is
    finalized. *)
Theorem agreeing_quorum_finalizes m eid st pk pks d sigs : reachable m → _get m eid = Ok st →
  dkg_result_digest eid pk pks = Ok d →
  (∀ sig, sig ∈ sigs → ∃ i, _keyper_index_by_recovery (st_config st) d sig = Ok i
     ∧ undecided_or_agrees pk pks st i) →
  quorum (threshold (st_config st)) <= Z.of_nat (size (signers (st_config st) d sigs)) →
  ∃ m', foldM (λ m sig, submit_dkg_result m eid pk pks sig) sigs m = Ok m'
    ∧ get_finalized_key m' eid = Ok (Some (mkFinalizedKey pk pks)).
Proof.
  intros Hm%reachable_ok Hg%get_Ok Hd Hs Hq.
  destruct (agreeing_submissions eid pk pks d Hd sigs m st Hm Hg Hs)
    as (m' & st' & E & Hm' & Hg' & Hc & _ & Hall).
  exists m'. split; [done|]. unfold get_finalized_key. rewrite (proj2 (get_Ok m' eid st') Hg'), bind_Ok.
  apply (finalized_key_of_quorum eid st' (ok_core _ _ (mem_stored _ Hm' _ _ Hg'))). rewrite Hc.
  etransitivity; [exact Hq|]. apply inj_le, subseteq_size. unfold signers.
  intros i (sig & Hsig & Hi)%elem_of_list_to_set%list_elem_of_omap.
  destruct (_keyper_index_by_recovery (st_config st) d sig) eqn:Ei; simplify_eq. by eapply Hall.
Qed.

(** A registration is accepted once: after it, the same signed
    configuration is refused in every later store. *)
Theorem registration_single_use m c sig m1 eid m2 : reachable m → valid_config c →
  register_election float_repr m c sig = Ok (m1, eid) → rtc step m1 m2 →
  ∃ e, register_election float_repr m2 c sig = Err e.
Proof.
  intros Hm%reachable_ok Hc Hr Hs.
  assert (Hm1 : mem_ok m1) by (eapply effect_ok, register_effect; done).
  pose proof (steps_counters _ _ Hm1 Hs) as [Hn _]. pose proof (mem_next _ (steps_ok _ _ Hm1 Hs)) as Hn2.
  pose proof (mem_next _ Hm) as Hn0.
  unfold register_election in Hr |- *. apply bind_Ok_inv in Hr as ([] & Hv & Hr). rewrite Hv, bind_Ok.
  apply bind_Ok_inv in Hr as (e & [He ->]%to_bytes_be_Ok & Hr).
  apply bind_Ok_inv in Hr as ([] & Hid%raise_if_Ok & [<- _]%Ok_inj%pair_equal_spec).
  apply negb_false_iff, bool_decide_eq_true in Hid. cbn [_next_id] in Hn.
  destruct (to_bytes_be (_next_id m2 + 1) 32) as [e2|] eqn:E2; [|by eexists]. rewrite bind_Ok.
  apply to_bytes_be_Ok in E2 as [Hr2 ->]. rewrite bool_decide_eq_false_2; [by eexists|].
  rewrite Hid. intros E%be_bytes_inj; [lia|done..].
Qed.

(** A stall or resume request is spent by its first use: in every later
    store any request for the same election, direction and time is refused,
    whatever its signature. *)
Theorem stall_request_single_use m now now' eid b sig t m1 m2 : reachable m →
  set_tally_stalled m now now' eid b sig t = Ok m1 → rtc step m1 m2 →
  ∀ now2 now2' sig2, set_tally_stalled m2 now2 now2' eid b sig2 t = Err WriteAuthorizationError.
Proof.
  intros Hm%reachable_ok Hr Hs now2 now2' sig2.
  assert (Hm1 : mem_ok m1) by (eapply effect_ok; [done|eapply step_effect; [done|by eapply step_stalled]]).
  pose proof (steps_counters _ _ Hm1 Hs) as [_ Hn].
  unfold set_tally_stalled in Hr |- *. apply bind_Ok_inv in Hr as (st & Hst%get_Ok & Hr).
  do 4 (apply bind_Ok_inv in Hr as (? & _ & Hr)). apply Ok_inj in Hr as <-.
  assert (Hst1 : dict_get (_elections (mkMemory (dict_set (_elections m) eid (set_stalled st b)) (_next_id m)
    ({[(eid, if b then "tally_stall" else "tally_resume", t)]} ∪ _used_request_nonces m))) eid
    = Some (set_stalled st b)) by (cbn; by rewrite dict_get_set, decide_True).
  destruct (steps_extend _ _ _ _ Hm1 Hs Hst1) as (st2 & Hst2 & _).
  rewrite (proj2 (get_Ok m2 eid st2) Hst2), bind_Ok.
  assert (Hin : (eid, if b then "tally_stall" else "tally_resume", t) ∈ _used_request_nonces m2)
    by (cbn in Hn; set_solver).
  destruct (negb (request_is_fresh t now2)); [done|]. by rewrite (bool_decide_eq_true_2 _ Hin).
Qed.

End safety.

(** * A run of the store *)

Module memory_example.
Import prefix_abi naming_account.
#[local] Existing Instance concrete_crypto.

Definition float_text (_ _ : Z) : string := "0.5".

(** A 2-of-3 committee whose members hold the secrets 1, 2 and 3; the
    administrator holds 7 and the publisher 8. *)
Definition addr (sk : Z) : bytes := address_of (be_bytes 32 sk).
Definition eid : bytes := be_bytes 32 1.
Definition cfg : ElectionConfig :=
  mkElectionConfig eid 2 1 EXACT VariantA false LAST_WINS 100 200 (mkThreshold 2 3)
    [mkKeyperIdentity (addr 1) "k1"; mkKeyperIdentity (addr 2) "k2"; mkKeyperIdentity (addr 3) "k3"]
    (replicate 48 Byte.x00) (addr 8) [] (addr 7) "1" 1 0.
Lemma example_cfg_valid : valid_config cfg.
Proof. split; vm_compute; reflexivity. Qed.

Definition get_ok {A} (d : A) (m : result A) : A := match m with Ok a => a | Err _ => d end.

Definition pk : bytes := replicate 96 Byte.x01.
Definition pks : list bytes := [replicate 96 Byte.x02].
Definition reg_sig : bytes := Eval vm_compute in get_ok [] (sign_register float_text 7 cfg).
Definition dkg_digest : bytes := Eval vm_compute in get_ok [] (dkg_result_digest eid pk pks).
Definition dkg_sig (sk : Z) : bytes := get_ok [] (sign_digest sk dkg_digest).
Definition stall_sig : bytes :=
  Eval vm_compute in get_ok [] (p ← request_nonce_payload 250; sign_request 8 "tally_stall" eid p).

Definition registered : InMemoryDataLayer :=
  Eval vm_compute in (get_ok (new_memory, []) (register_election float_text new_memory cfg reg_sig)).1.
Definition stalled : InMemoryDataLayer :=
  Eval vm_compute in get_ok new_memory (set_tally_stalled registered 251 252 eid true stall_sig 250).

Lemma registers : register_election float_text new_memory cfg reg_sig = Ok (registered, eid).
Proof. vm_compute. reflexivity. Qed.
Lemma stalls : set_tally_stalled registered 251 252 eid true stall_sig 250 = Ok stalled.
Proof. vm_compute. reflexivity. Qed.
Lemma registered_reachable : reachable float_text registered.
Proof. eapply rtc_once, step_register; [apply example_cfg_valid|apply registers]. Qed.
Lemma registered_get : _get registered eid = Ok (new_stored cfg).
Proof. vm_compute. reflexivity. Qed.

Lemma memory_invariant_witness :
  let c := concrete_crypto in reachable float_text registered ∧ mem_ok registered.
Proof.
  intros c. split; [exact registered_reachable|]. apply (memory_invariant float_text registered registered_reachable).
Defined.

Lemma steps_to_stalled : rtc (step float_text) registered stalled.
Proof. eapply rtc_once, step_stalled, stalls. Qed.

(** The election registered first survives a stall. *)
Lemma memory_append_only_witness :
  let c := concrete_crypto in
  ∃ st', _get stalled eid = Ok st' ∧ extends (new_stored cfg) st'.
Proof.
  intros c. apply (memory_append_only float_text registered stalled eid (new_stored cfg)
    registered_reachable steps_to_stalled registered_get).
Defined.

Lemma finalized_key_iff_quorum_witness :
  let c := concrete_crypto in
  (∃ o, get_finalized_key registered eid = Ok o) ∧
  (get_finalized_key registered eid = Ok (Some (mkFinalizedKey pk pks)) ↔
   2 <= Z.of_nat (size (backers [] (mkFinalizedKey pk pks)))).
Proof.
  intros c.
  pose proof (finalized_key_iff_quorum float_text registered eid (new_stored cfg) registered_reachable
    registered_get) as [H1 H2].
  split; [exact H1|]. apply H2.
Defined.

Lemma signature_of_1 : _keyper_index_by_recovery cfg dkg_digest (dkg_sig 1) = Ok 1.
Proof. vm_compute. reflexivity. Qed.
Lemma signature_of_3 : _keyper_index_by_recovery cfg dkg_digest (dkg_sig 3) = Ok 3.
Proof. vm_compute. reflexivity. Qed.

(** Keypers 3 and 1 submit the key and it is finalized. *)
Lemma agreeing_quorum_finalizes_witness :
  let c := concrete_crypto in
  ∃ m', foldM (λ m sig, submit_dkg_result m eid pk pks sig) [dkg_sig 3; dkg_sig 1] registered = Ok m'
    ∧ get_finalized_key m' eid = Ok (Some (mkFinalizedKey pk pks)).
Proof.
  intros c.
  apply (agreeing_quorum_finalizes float_text registered eid (new_stored cfg) pk pks dkg_digest
    [dkg_sig 3; dkg_sig 1] registered_reachable registered_get).
  - vm_compute. reflexivity.
  - intros sig [->|[->|[]%not_elem_of_nil]%elem_of_cons]%elem_of_cons;
      [exists 3; split; [exact signature_of_3|]|exists 1; split; [exact signature_of_1|]]; intros sub [=].
  - vm_compute. discriminate.
Defined.

Lemma registration_single_use_witness :
  let c := concrete_crypto in ∃ e, register_election float_text stalled cfg reg_sig = Err e.
Proof.
  intros c. apply (registration_single_use float_text new_memory cfg reg_sig registered eid stalled);
    [apply rtc_refl|exact example_cfg_valid|exact registers|exact steps_to_stalled].
Defined.

Lemma stall_request_single_use_witness :
  let c := concrete_crypto in
  set_tally_stalled stalled 260 261 eid true stall_sig 250 = Err WriteAuthorizationError.
Proof.
  intros c. apply (stall_request_single_use float_text registered 251 252 eid true stall_sig 250 stalled stalled
    registered_reachable stalls (rtc_refl _ _)).
Defined.

End memory_example.
