(* ===== verification/Postgres.v ===== *)
(** The database adapter (adapters/db/store.py, adapters/db/schema.py): tables
    as keyed rows, artifacts as their JSON envelopes in [jsonb] columns.  An
    operation is one transaction, so an exception leaves the tables unchanged,
    except that a sequence never goes back.  Postgres is a parameter: what a
    [jsonb] column returns, and the order in which an unordered SELECT lists
    rows. *)

From S2P Require Import Prelude Params Primality Field Points Transcript Types Config Codecs WriteAuth Quorum DataLayer.

(** * What Postgres does *)

(** [jsonb v]: the value a [jsonb] column returns for [v], or the error for a
    value it cannot hold; [heap_order l]: the rows of a SELECT without ORDER BY. *)
Class Postgres : Type := {
  jsonb : json → result json;
  heap_order {A : Type} : list A → list A;
}.

(** [order_by key rows]: ORDER BY an integer column. *)
Definition by_key {A} (key : A → Z) (a b : A) : Prop := key a <= key b.
#[export] Instance by_key_dec {A} (key : A → Z) : RelDecision (by_key key).
Proof. intros a b. unfold by_key. apply _. Defined.
Definition order_by {A} (key : A → Z) (rows : list A) : list A := merge_sort (by_key key) rows.

(** The order of [bytea] values. *)
Fixpoint bytea_le (a b : bytes) : bool :=
  match a, b with
  | [], _ => true
  | _ :: _, [] => false
  | x :: a', y :: b' =>
      if byte_val x <? byte_val y then true else if byte_val y <? byte_val x then false else bytea_le a' b'
  end.

Definition bytea_order (a b : bytes) : Prop := bytea_le a b = true.
#[export] Instance bytea_order_dec : RelDecision bytea_order.
Proof. intros a b. unfold bytea_order. apply _. Defined.

(** A [BIGINT] column. *)
Definition bigint (n : Z) : result Z :=
  if (- 2 ^ 63 <=? n) && (n <? 2 ^ 63) then Ok n else Err DatabaseError.

(** * adapters/db/schema.py *)

Record election_row := mkRow {
  row_config : json;
  row_admin_key : bytes;
  row_voting_start : Z;
  row_cancelled : bool;
  row_tally_stalled : bool;
}.

Record PostgresStore := mkPostgres {
  (** [last_value] and [is_called] of [election_id_seq] *)
  election_id_seq : Z * bool;
  elections : dict bytes election_row;
  dkg_submissions : dict (bytes * Z) json;
  ballots : dict (bytes * Z) (json * Z);
  decryption_shares : dict (bytes * Z) json;
  pg_aggregates : dict (bytes * Z) json;
  results : dict bytes json;
  request_nonces : dict (bytes * string * Z) unit;
}.

(** The tables after [init_schema]. *)
Definition new_postgres : PostgresStore := mkPostgres (1, false) [] [] [] [] [] [] [].

Definition with_elections (p : PostgresStore) (t : dict bytes election_row) : PostgresStore :=
  mkPostgres (election_id_seq p) t (dkg_submissions p) (ballots p) (decryption_shares p) (pg_aggregates p)
    (results p) (request_nonces p).
Definition with_seq (p : PostgresStore) (s : Z * bool) : PostgresStore :=
  mkPostgres s (elections p) (dkg_submissions p) (ballots p) (decryption_shares p) (pg_aggregates p)
    (results p) (request_nonces p).
Definition with_dkg_submissions (p : PostgresStore) (t : dict (bytes * Z) json) : PostgresStore :=
  mkPostgres (election_id_seq p) (elections p) t (ballots p) (decryption_shares p) (pg_aggregates p)
    (results p) (request_nonces p).
Definition with_ballots (p : PostgresStore) (t : dict (bytes * Z) (json * Z)) : PostgresStore :=
  mkPostgres (election_id_seq p) (elections p) (dkg_submissions p) t (decryption_shares p) (pg_aggregates p)
    (results p) (request_nonces p).
Definition with_decryption_shares (p : PostgresStore) (t : dict (bytes * Z) json) : PostgresStore :=
  mkPostgres (election_id_seq p) (elections p) (dkg_submissions p) (ballots p) t (pg_aggregates p)
    (results p) (request_nonces p).
Definition with_pg_aggregates (p : PostgresStore) (t : dict (bytes * Z) json) : PostgresStore :=
  mkPostgres (election_id_seq p) (elections p) (dkg_submissions p) (ballots p) (decryption_shares p) t
    (results p) (request_nonces p).
Definition with_results (p : PostgresStore) (t : dict bytes json) : PostgresStore :=
  mkPostgres (election_id_seq p) (elections p) (dkg_submissions p) (ballots p) (decryption_shares p)
    (pg_aggregates p) t (request_nonces p).
Definition with_request_nonces (p : PostgresStore) (t : dict (bytes * string * Z) unit) : PostgresStore :=
  mkPostgres (election_id_seq p) (elections p) (dkg_submissions p) (ballots p) (decryption_shares p)
    (pg_aggregates p) (results p) t.

(** [WHERE election_id = %s] on a table keyed by election and number. *)
Definition rows_of {A} (eid : bytes) (t : dict (bytes * Z) A) : dict Z A :=
  (λ r, (r.1.2, r.2)) <$> filter (λ r, r.1.1 = eid) t.

(** INSERT; a primary key that is present is an error. *)
Definition insert_row {K V} `{EqDecision K} (t : dict K V) (k : K) (v : V) : result (dict K V) :=
  match dict_get t k with Some _ => Err DatabaseError | None => Ok (t ++ [(k, v)]) end.

(** * adapters/db/store.py *)

Module pg.
Section store.
Context `{Crypto} `{EthAccount} `{Abi} (float_repr : Z → Z → string) (py_repr : json → string) `{Postgres}.

Definition _row (p : PostgresStore) (eid : bytes) : result election_row :=
  match dict_get (elections p) eid with Some r => Ok r | None => Err KeyError end.

Definition _config (p : PostgresStore) (eid : bytes) : result ElectionConfig :=
  r ← _row p eid; dec_config py_repr (row_config r).

Definition _keyper_index_by_recovery (config : ElectionConfig) (digest sig : bytes) : result Z :=
  match recover_digest digest sig with
  | Ok recovered => find_keyper (keypers config) 1 recovered
  | Err _ => Err WriteAuthorizationError
  end.

(** ** Election lifecycle *)

(** [peek]: the value the next [nextval] returns. *)
Definition peek (p : PostgresStore) : Z :=
  let '(last, called) := election_id_seq p in if called then last + 1 else last.

(** The tables it leaves and the new identifier: [nextval] is not undone when
    the INSERT fails. *)
Definition register_election (p : PostgresStore) (config : ElectionConfig) (admin_sig : bytes)
  : PostgresStore * result bytes :=
  if negb (verify_register float_repr (admin_key config) admin_sig config)
  then (p, Err WriteAuthorizationError) else
  match to_bytes_be (peek p) 32 with
  | Err e => (p, Err e)
  | Ok expected =>
      if negb (bool_decide (Config.election_id config = expected)) then (p, Err ImmutabilityError) else
      match bigint (peek p) with
      | Err e => (p, Err e)
      | Ok next_id =>
          let p := with_seq p (next_id, true) in
          let eid := be_bytes 32 next_id in
          let stored := with_election_id config eid in
          match
            (j ← jsonb (enc_config stored); vs ← bigint (voting_start stored);
             insert_row (elections p) eid (mkRow j (admin_key stored) vs false false))
          with
          | Err e => (p, Err e)
          | Ok t => (with_elections p t, Ok eid)
          end
      end
  end.

Definition cancel_election (p : PostgresStore) (now : Z) (eid admin_sig : bytes) : result PostgresStore :=
  r ← _row p eid;
  _ ← raise_if (row_voting_start r <=? now) ImmutabilityError;
  _ ← raise_if (negb (verify_request (row_admin_key r) admin_sig "cancel" eid [])) WriteAuthorizationError;
  Ok (with_elections p (dict_set (elections p) eid
        (mkRow (row_config r) (row_admin_key r) (row_voting_start r) true (row_tally_stalled r)))).

(** One turn of the grouping loop; the rows come with their [keyper_index]. *)
Definition _finalized_key (p : PostgresStore) (config : ElectionConfig) : result (option FinalizedKey) :=
  subs ← mapM (λ '(i, j), sub ← dec_dkg_result j; Ok (i, sub))
           (heap_order (rows_of (Config.election_id config) (dkg_submissions p)));
  winner ← resolve_unique (dkg_groups subs) (quorum (threshold config));
  Ok (match winner with Some (pk, com) => Some (mkFinalizedKey pk com) | None => None end).

Definition get_election (p : PostgresStore) (eid : bytes) : result ElectionRecord :=
  r ← _row p eid;
  config ← dec_config py_repr (row_config r);
  fk ← _finalized_key p config;
  Ok (mkElectionRecord config (row_cancelled r) fk (row_tally_stalled r)).

(** [WHERE admin_key = %s], when the filter has one. *)
Definition row_keeps (f : option ElectionFilter) (r : election_row) : bool :=
  match f with
  | Some (mkElectionFilter (Some k)) => bool_decide (row_admin_key r = k)
  | _ => true
  end.

Definition list_elections (p : PostgresStore) (f : option ElectionFilter) : list bytes :=
  merge_sort bytea_order (filter (λ e, row_keeps f e.2 = true) (elections p)).*1.

(** ** DKG *)

Definition submit_dkg_result (p : PostgresStore) (eid pk : bytes) (pks : list bytes) (keyper_sig : bytes)
  : result PostgresStore :=
  config ← _config p eid;
  digest ← dkg_result_digest eid pk pks;
  idx ← _keyper_index_by_recovery config digest keyper_sig;
  let submission := mkDKGResultSubmission eid pk pks keyper_sig in
  match dict_get (dkg_submissions p) (eid, idx) with
  | Some existing =>
      prev ← dec_dkg_result existing;
      _ ← raise_if (negb (bool_decide ((dkg_pk_election prev, dkg_committee_pks prev) = (pk, pks))))
            ImmutabilityError;
      Ok p
  | None =>
      j ← jsonb (enc_dkg_result submission);
      t ← insert_row (dkg_submissions p) (eid, idx) j;
      Ok (with_dkg_submissions p t)
  end.

Definition get_dkg_submissions (p : PostgresStore) (eid : bytes) : result (list DKGResultSubmission) :=
  mapM (λ r, dec_dkg_result r.2) (order_by fst (rows_of eid (dkg_submissions p))).

Definition get_finalized_key (p : PostgresStore) (eid : bytes) : result (option FinalizedKey) :=
  config ← _config p eid; _finalized_key p config.

(** ** Ballots *)

Definition _require_voting_open (p : PostgresStore) (eid : bytes) (now : Z) : result unit :=
  config ← _config p eid;
  r ← _row p eid;
  let published := bool_decide (is_Some (dict_get (results p) eid)) in
  fk ← _finalized_key p config;
  let facts := mkStateFacts (row_cancelled r) (bool_decide (is_Some fk)) published false in
  raise_if (negb (bool_decide (derive_state config facts now = VOTING))) VotingWindowError.

(** [COALESCE(MAX(seq) + 1, 0)] *)
Definition next_seq {A} (rows : dict Z A) : Z :=
  match dict_keys rows with [] => 0 | k :: ks => foldl Z.max k ks + 1 end.

Definition submit_ballot (p : PostgresStore) (now : Z) (eid : bytes) (ballot : BallotEnvelope)
    (gateway_sig : bytes) : result (PostgresStore * Z) :=
  config ← _config p eid;
  _ ← match gateway_keys config with
      | [] => Ok tt
      | keys =>
          match recover_digest (ballot_digest float_repr eid ballot) gateway_sig with
          | Err _ => Err WriteAuthorizationError
          | Ok recovered => raise_if (negb (bool_decide (recovered ∈ keys))) WriteAuthorizationError
          end
      end;
  _ ← _row p eid;
  _ ← _require_voting_open p eid now;
  let seq := next_seq (rows_of eid (ballots p)) in
  j ← jsonb (enc_ballot ballot);
  seq ← bigint seq;
  t ← bigint now;
  rows ← insert_row (ballots p) (eid, seq) (j, t);
  Ok (with_ballots p rows, seq).

Definition list_ballots (p : PostgresStore) (eid : bytes) (start count : Z) : result (list StoredBallot) :=
  _ ← raise_if (count <? 0) DatabaseError;
  _ ← bigint count;
  let rows := order_by fst (filter (λ r, start <= r.1) (rows_of eid (ballots p))) in
  mapM (λ '(seq, (j, t)), b ← dec_ballot j; Ok (mkStoredBallot seq b (Some t))) (take (Z.to_nat count) rows).

Definition count_ballots (p : PostgresStore) (eid : bytes) : result Z := Ok (len (rows_of eid (ballots p))).

(** ** Tally artifacts *)

Definition _aggregate_group_counts (p : PostgresStore) (eid : bytes)
  : result (dict bytes (AggregateArtifact * gset Z)) :=
  foldM (λ g '(i, j), agg ← dec_aggregate j; aggregate_group_step eid g (i, agg))
    (heap_order (rows_of eid (pg_aggregates p))) [].

Definition _aggregate_finalized (p : PostgresStore) (config : ElectionConfig) : result bool :=
  groups ← _aggregate_group_counts p (Config.election_id config);
  a ← resolve_unique (dict_values groups) (quorum (threshold config));
  Ok (bool_decide (is_Some a)).

Definition get_aggregate (p : PostgresStore) (eid : bytes) : result (option AggregateArtifact) :=
  config ← _config p eid;
  groups ← _aggregate_group_counts p eid;
  resolve_unique (dict_values groups) (quorum (threshold config)).

Definition submit_aggregate (p : PostgresStore) (now : Z) (eid : bytes) (aggregate : AggregateArtifact)
    (keyper_sig : bytes) : result PostgresStore :=
  config ← _config p eid;
  _ ← raise_if (now <? voting_end config) VotingWindowError;
  digest ← aggregate_digest_of eid aggregate;
  idx ← _keyper_index_by_recovery config digest keyper_sig;
  _ ← _row p eid;
  same ← match dict_get (pg_aggregates p) (eid, idx) with
         | Some existing => a ← dec_aggregate existing; Ok (bool_decide (a = aggregate))
         | None => Ok false
         end;
  if same : bool then Ok p else
  finalized ← _aggregate_finalized p config;
  _ ← raise_if finalized ImmutabilityError;
  j ← jsonb (enc_aggregate aggregate);
  Ok (with_pg_aggregates p (dict_set (pg_aggregates p) (eid, idx) j)).

Definition submit_decryption_share (p : PostgresStore) (now : Z) (eid : bytes)
    (share : DecryptionShareEnvelope) (keyper_sig : bytes) : result PostgresStore :=
  config ← _config p eid;
  _ ← raise_if (now <? voting_end config) VotingWindowError;
  finalized ← _aggregate_finalized p config;
  _ ← raise_if (negb finalized) VotingWindowError;
  let '(shares, proofs) := share_payload share in
  digest ← decryption_share_digest eid shares proofs;
  idx ← _keyper_index_by_recovery config digest keyper_sig;
  _ ← raise_if (negb (idx =? keyper_index share)) WriteAuthorizationError;
  match dict_get (decryption_shares p) (eid, idx) with
  | Some existing =>
      s ← dec_decryption_share existing;
      _ ← raise_if (negb (bool_decide (s = share))) ImmutabilityError;
      Ok p
  | None =>
      j ← jsonb (enc_decryption_share share);
      t ← insert_row (decryption_shares p) (eid, idx) j;
      Ok (with_decryption_shares p t)
  end.

Definition list_decryption_shares (p : PostgresStore) (eid : bytes) : result (list DecryptionShareEnvelope) :=
  mapM (λ r, dec_decryption_share r.2) (order_by fst (rows_of eid (decryption_shares p))).

Definition publish_result (p : PostgresStore) (eid : bytes) (result : ResultArtifact)
    (result_publisher_sig : bytes) : Prelude.result PostgresStore :=
  config ← _config p eid;
  payload ← result_digest eid result;
  _ ← raise_if (negb (verify_request (result_publisher_key config) result_publisher_sig "result" eid payload))
        WriteAuthorizationError;
  match dict_get (results p) eid with
  | Some existing =>
      r ← dec_result existing;
      _ ← raise_if (negb (bool_decide (r = result))) ImmutabilityError;
      Ok p
  | None =>
      j ← jsonb (enc_result result);
      t ← insert_row (results p) eid j;
      Ok (with_results p t)
  end.

Definition get_result (p : PostgresStore) (eid : bytes) : result (option ResultArtifact) :=
  match dict_get (results p) eid with
  | Some j => r ← dec_result j; Ok (Some r)
  | None => Ok None
  end.

(** The clock is read twice when marking: [now] for freshness, [now'] for the
    window. *)
Definition set_tally_stalled (p : PostgresStore) (now now' : Z) (eid : bytes) (stalled : bool)
    (sig : bytes) (issued_at : Z) : result PostgresStore :=
  config ← _config p eid;
  let op := if stalled then "tally_stall" else "tally_resume" in
  _ ← raise_if (negb (request_is_fresh issued_at now)) WriteAuthorizationError;
  payload ← request_nonce_payload issued_at;
  _ ← (if stalled then
         _ ← raise_if (now' <? voting_end config) VotingWindowError;
         _ ← raise_if (bool_decide (is_Some (dict_get (results p) eid))) ImmutabilityError;
         raise_if (negb (verify_request (result_publisher_key config) sig op eid payload)) WriteAuthorizationError
       else
         raise_if (negb (verify_request (admin_key config) sig op eid payload)) WriteAuthorizationError);
  t ← bigint issued_at;
  _ ← raise_if (bool_decide (is_Some (dict_get (request_nonces p) (eid, op, t)))) WriteAuthorizationError;
  let p := with_request_nonces p (request_nonces p ++ [((eid, op, t), tt)]) in
  r ← _row p eid;
  Ok (with_elections p (dict_set (elections p) eid
        (mkRow (row_config r) (row_admin_key r) (row_voting_start r) (row_cancelled r) stalled))).

Definition verifiability_tier (p : PostgresStore) : Z := 0.

End store.
End pg.
