(* ===== verification/Jsonb.v ===== *)
(** What an artifact is after a [jsonb] column: JSON values up to the order of
    keys, the laws of the database, and that every decoder of the transport
    codecs reads a stored value as it reads the encoded one. *)

From S2P Require Import Prelude Params Types Config Codecs Postgres.

(** * JSON values up to the order of keys *)

#[warnings="-register-all"]
Inductive json_same : json → json → Prop :=
| same_null : json_same JNull JNull
| same_bool b : json_same (JBool b) (JBool b)
| same_int n : json_same (JInt n) (JInt n)
| same_str s : json_same (JStr s) (JStr s)
| same_arr l l' : Forall2 json_same l l' → json_same (JArr l) (JArr l')
| same_obj o o' : (∀ k, option_Forall2 json_same (dict_get o k) (dict_get o' k)) →
    json_same (JObj o) (JObj o').

(** Values without floats, whose objects have distinct keys. *)
#[warnings="-register-all"]
Inductive plain : json → Prop :=
| plain_null : plain JNull
| plain_bool b : plain (JBool b)
| plain_int n : plain (JInt n)
| plain_str s : plain (JStr s)
| plain_arr l : Forall plain l → plain (JArr l)
| plain_obj o : NoDup (dict_keys o) → Forall plain (dict_values o) → plain (JObj o).

Lemma plain_refl : ∀ v, plain v → json_same v v.
Proof.
  fix IH 1. intros [| | |m e| |l|o] Hp; try constructor.
  - inversion Hp.
  - inversion Hp as [| | | |l' Hl|]; subst. clear Hp. induction l as [|v l IHl]; [constructor|].
    apply Forall_cons in Hl as [Hv Hl]. constructor; [by apply IH|by apply IHl].
  - inversion Hp as [| | | | |o' _ Ho]; subst. clear Hp. unfold dict_values in Ho.
    induction o as [|[k v] o IHo]; intros k'; [constructor|].
    rewrite fmap_cons in Ho. cbn [snd] in Ho. apply Forall_cons in Ho as [Hv Ho]. cbn [dict_get].
    destruct (decide (k' = k)); [constructor; by apply IH|by apply IHo].
Qed.

(** What the documentation of [jsonb] promises of the values it holds: an
    object keeps its keys and values in an order of its own.  (Numbers with a
    fraction or an exponent are kept as decimals; the adapter stores none.) *)
Class PostgresLaws `{Postgres} : Prop := {
  jsonb_same v v' : plain v → jsonb v = Ok v' → json_same v v';
  heap_order_perm {A} (l : list A) : heap_order l ≡ₚ l;
}.

Create HintDb same.

Section decoders.

Lemma req_same d d' k v : json_same d d' → _req d k = Ok v → ∃ v', _req d' k = Ok v' ∧ json_same v v'.
Proof.
  unfold _req. destruct 1 as [| | | | |o o' Ho]; try done.
  destruct (Ho k) as [v0 v0' Hv|]; [|done]. intros <-%Ok_inj. eauto.
Qed.

Lemma req_same_err d d' k e : json_same d d' → _req d k = Err e → _req d' k = Err e.
Proof. unfold _req. destruct 1 as [| | | | |o o' Ho]; try done. by destruct (Ho k). Qed.

(** A decoder that starts with a required field. *)
Lemma req_bind_same {B} d d' k (f f' : json → result B) : json_same d d' →
  (∀ v v', _req d k = Ok v → json_same v v' → f v = f' v') → (_req d k ≫= f) = (_req d' k ≫= f').
Proof.
  intros Hd Hf. destruct (_req d k) as [v|e] eqn:E.
  - destruct (req_same _ _ _ _ Hd E) as (v' & -> & Hv). rewrite !bind_Ok. by apply Hf.
  - by rewrite (req_same_err _ _ _ _ Hd E).
Qed.

Lemma list_bind_same {B} v v' (f f' : list json → result B) : json_same v v' →
  (∀ l l', Forall2 json_same l l' → f l = f' l') → (_list v ≫= f) = (_list v' ≫= f').
Proof. intros Hv Hf. destruct Hv; try done. cbn [_list]. rewrite !bind_Ok. by apply Hf. Qed.

Lemma bind_ext {A B} (m : result A) (f f' : A → result B) : (∀ a, m = Ok a → f a = f' a) → (m ≫= f) = (m ≫= f').
Proof. intros Hf. destruct m; [|done]. rewrite !bind_Ok. by apply Hf. Qed.

Lemma dec_bytes_same v v' size : json_same v v' → dec_bytes v size = dec_bytes v' size.
Proof. by destruct 1. Qed.
Lemma _int_same v v' m : json_same v v' → _int v m = _int v' m.
Proof. by destruct 1. Qed.
Lemma _enum_same {A} (ms : list (string * A)) v v' : json_same v v' → _enum ms v = _enum ms v'.
Proof. by destruct 1. Qed.
Lemma get_or_same d d' k v v' : json_same d d' → json_same v v' → json_same (get_or d k v) (get_or d' k v').
Proof. intros Hd Hv. unfold get_or. destruct Hd as [| | | | |o o' Ho]; try done. by destruct (Ho k). Qed.

Lemma empty_object_same (o o' : dict string json) : (∀ k, option_Forall2 json_same (dict_get o k) (dict_get o' k)) →
  match o with [] => false | _ => true end = match o' with [] => false | _ => true end.
Proof.
  intros Ho. destruct o as [|[k v] o], o' as [|[k' v'] o']; try done.
  - specialize (Ho k'). cbn in Ho. rewrite decide_True in Ho by done. inversion Ho.
  - specialize (Ho k). cbn in Ho. rewrite decide_True in Ho by done. inversion Ho.
Qed.

Lemma py_bool_same v v' : json_same v v' → py_bool v = py_bool v'.
Proof. destruct 1 as [| | | |l l' Hl|o o' Ho]; try done; [by destruct Hl|by apply empty_object_same]. Qed.

Lemma py_int_same v v' : json_same v v' → py_int v = py_int v'.
Proof. by destruct 1. Qed.

Lemma mapM_same {B} (f : json → result B) l l' :
  Forall2 json_same l l' → (∀ v v', json_same v v' → f v = f v') → mapM f l = mapM f l'.
Proof. intros Hl Hf. induction Hl as [|v v' l l' Hv _ IH]; [done|]. cbn [mapM]. by rewrite (Hf _ _ Hv), IH. Qed.

End decoders.

(** Walks two runs of one decoder in step. *)
Ltac same_step :=
  match goal with
  | |- (_req _ _ ≫= _) = (_req _ _ ≫= _) =>
      apply req_bind_same; [assumption|]; let Hr := fresh "Hr" in let Hs := fresh "Hs" in intros ? ? Hr Hs
  | |- (_list _ ≫= _) = (_list _ ≫= _) => apply list_bind_same; [assumption|]; intros ? ? ?
  | |- (dec_bytes ?v ?s ≫= _) = (dec_bytes ?v' ?s ≫= _) =>
      rewrite (dec_bytes_same v v' s) by eassumption; apply bind_ext; intros ? _
  | |- (_int ?v ?s ≫= _) = (_int ?v' ?s ≫= _) =>
      rewrite (_int_same v v' s) by (eassumption || (by apply get_or_same; [assumption|first [assumption|constructor]]));
      apply bind_ext; intros ? _
  | |- (_enum ?m ?v ≫= _) = (_enum ?m ?v' ≫= _) => rewrite (_enum_same m v v') by eassumption; apply bind_ext; intros ? _
  | |- (?m ≫= _) = (?m ≫= _) => apply bind_ext; intros ? _
  end.

Lemma dec_ciphertext_same d d' : json_same d d' → dec_ciphertext d = dec_ciphertext d'.
Proof. intros Hd. unfold dec_ciphertext. repeat same_step. done. Qed.

Lemma dec_dkg_result_same d d' : json_same d d' → dec_dkg_result d = dec_dkg_result d'.
Proof.
  intros Hd. unfold dec_dkg_result. do 6 same_step.
  rewrite (mapM_same _ l l') by (done || (intros; by apply dec_bytes_same)). repeat same_step. done.
Qed.

Lemma dec_share_entry_same d d' : json_same d d' → dec_share_entry d = dec_share_entry d'.
Proof. intros Hd. unfold dec_share_entry. repeat same_step. done. Qed.

Lemma dec_share_same d d' : json_same d d' → dec_decryption_share d = dec_decryption_share d'.
Proof.
  intros Hd. unfold dec_decryption_share. do 6 same_step.
  rewrite (mapM_same _ l l' ltac:(done) dec_share_entry_same). repeat same_step. done.
Qed.

Lemma dec_exclusion_same d d' : json_same d d' → _dec_exclusion d = _dec_exclusion d'.
Proof. intros Hd. unfold _dec_exclusion. repeat same_step. done. Qed.

Lemma dec_aggregate_same d d' : json_same d d' → dec_aggregate d = dec_aggregate d'.
Proof.
  intros Hd. unfold dec_aggregate. do 8 same_step.
  rewrite (mapM_same _ l l' ltac:(done) dec_ciphertext_same). same_step.
  rewrite (mapM_same _ l0 l'0) by (done || (intros; by apply _int_same)). same_step.
  rewrite (mapM_same _ l1 l'1 ltac:(done) dec_exclusion_same). repeat same_step. done.
Qed.

Lemma dec_result_same d d' : json_same d d' → dec_result d = dec_result d'.
Proof.
  intros Hd. unfold dec_result. do 6 same_step.
  rewrite (mapM_same _ l l') by (done || (intros; by apply _int_same)). same_step.
  rewrite (mapM_same _ l0 l'0) by (done || (intros; by apply _int_same)). repeat same_step. done.
Qed.

Lemma dec_attestation_same d d' : json_same d d' → dec_attestation d = dec_attestation d'.
Proof.
  intros Hd. unfold dec_attestation.
  assert (Hs : ∀ dflt, json_same dflt dflt →
    json_same (match d with JObj o => default dflt (dict_get o "scheme") | _ => JNull end)
              (match d' with JObj o => default dflt (dict_get o "scheme") | _ => JNull end)).
  { intros dflt Hf. destruct Hd as [| | | | |o o' Ho]; try constructor. by destruct (Ho "scheme"). }
  rewrite (_enum_same _ _ _ (Hs (JStr "ATTESTATION_V1") ltac:(constructor))). same_step.
  assert (Hn : match d with
               | JObj o => match dict_get o "nonce" with Some v => _int v (Some 1) | None => Ok 1 end
               | _ => Ok 1 end = match d' with
               | JObj o => match dict_get o "nonce" with Some v => _int v (Some 1) | None => Ok 1 end
               | _ => Ok 1 end).
  { destruct Hd as [| | | | |o o' Ho]; try done. destruct (Ho "nonce") as [v v' Hv|]; [|done]. by apply _int_same. }
  rewrite Hn. repeat same_step. done.
Qed.

Lemma dec_ballot_same d d' : json_same d d' → dec_ballot d = dec_ballot d'.
Proof.
  intros Hd. unfold dec_ballot. do 8 same_step.
  rewrite (mapM_same _ l l' ltac:(done) dec_ciphertext_same). do 6 same_step.
  by erewrite dec_attestation_same by eassumption.
Qed.

(** ** The configuration: its free text fields are strings *)

Definition is_str (v : json) : Prop := ∃ s, v = JStr s.

Lemma py_str_same py_repr v v' : json_same v v' → is_str v → py_str py_repr v = py_str py_repr v'.
Proof. intros Hv [s ->]. by inversion Hv. Qed.

Definition keyper_text (k : json) : Prop := ∀ u, _req k "url" = Ok u → is_str u.

Lemma dec_keyper_same py_repr d d' : json_same d d' → keyper_text d → dec_keyper py_repr d = dec_keyper py_repr d'.
Proof.
  intros Hd Ht. unfold dec_keyper. do 3 same_step. by rewrite (py_str_same _ v0 v'0) by eauto.
Qed.

Lemma dec_keypers_same py_repr l l' : Forall2 json_same l l' → Forall keyper_text l →
  mapM (dec_keyper py_repr) l = mapM (dec_keyper py_repr) l'.
Proof.
  induction 1 as [|v v' l l' Hv _ IH]; [done|]. intros [Ht Hts]%Forall_cons. cbn [mapM].
  by rewrite (dec_keyper_same _ _ _ Hv Ht), IH.
Qed.

Definition config_text (d : json) : Prop :=
  (∀ v l, _req d "keypers" = Ok v → _list v = Ok l → Forall keyper_text l) ∧
  (∀ v, _req d "protocolVersion" = Ok v → is_str v).

Lemma list_same v v' l : json_same v v' → _list v = Ok l → ∃ l', _list v' = Ok l' ∧ Forall2 json_same l l'.
Proof. destruct 1; try done. cbn [_list]. intros <-%Ok_inj. eauto. Qed.

Lemma dec_config_same py_repr d d' : json_same d d' → config_text d →
  dec_config py_repr d = dec_config py_repr d'.
Proof.
  intros Hd [Hk Hp]. unfold dec_config. do 2 same_step.
  destruct (_list v0) as [l|e] eqn:El.
  2: { by (destruct Hs0; cbn in *; congruence). }
  destruct (list_same _ _ _ Hs0 El) as (l' & -> & Hl). rewrite !bind_Ok. f_equal.
  specialize (Hk _ _ Hr0 El). do 10 same_step.
  apply req_bind_same; [done|]. intros w w' _ Hw.
  do 11 same_step. cbv zeta. same_step. rewrite (dec_keypers_same py_repr l l' Hl Hk). do 7 same_step.
  rewrite (mapM_same _ l0 l'0) by (done || (intros; by apply dec_bytes_same)). do 3 same_step.
  apply req_bind_same; [done|]. intros pv pv' Hpv Hpvs.
  pose proof (get_or_same d d' "selfSubmitFee" (JInt 0) (JInt 0) Hd ltac:(constructor)) as Hfee.
  rewrite (py_bool_same _ _ Hfee), (py_int_same _ _ Hfee), (py_bool_same _ _ Hw), (py_str_same py_repr _ _ Hpvs (Hp _ Hpv)).
  done.
Qed.

(** * What comes back from a column *)

Lemma plain_list {A} (enc : A → json) l : (∀ x, plain (enc x)) → plain (JArr (enc <$> l)).
Proof. intros He. constructor. apply Forall_fmap, Forall_forall. intros x _. apply He. Qed.

Lemma plain_bytes b : plain (enc_bytes b).
Proof. constructor. Qed.

#[local] Hint Resolve plain_bytes plain_list : same.
#[local] Hint Constructors plain : same.

(** An object with literal keys. *)
Ltac plain_object :=
  apply plain_obj; [apply (bool_decide_unpack _); vm_compute; exact I
                   |cbn [dict_values fmap list_fmap fst snd]; repeat (apply Forall_cons; split); try apply Forall_nil];
  eauto with same.

Lemma plain_ciphertext ct : plain (enc_ciphertext ct).
Proof. unfold enc_ciphertext. plain_object. Qed.
#[local] Hint Resolve plain_ciphertext : same.
Lemma plain_attestation a : plain (enc_attestation a).
Proof. unfold enc_attestation. plain_object. Qed.
#[local] Hint Resolve plain_attestation : same.
Lemma plain_ballot b : plain (enc_ballot b).
Proof. unfold enc_ballot. plain_object. Qed.
Lemma plain_dkg_result s : plain (enc_dkg_result s).
Proof. unfold enc_dkg_result. plain_object. Qed.
Lemma plain_share s : plain (enc_decryption_share s).
Proof. unfold enc_decryption_share. plain_object. apply plain_list. intros e. plain_object. Qed.
Lemma plain_exclusion x : plain (enc_exclusion x).
Proof. unfold enc_exclusion. plain_object. Qed.
#[local] Hint Resolve plain_exclusion : same.
Lemma plain_aggregate a : plain (enc_aggregate a).
Proof. unfold enc_aggregate. plain_object. Qed.
Lemma plain_result r : plain (enc_result r).
Proof. unfold enc_result. plain_object. Qed.
Lemma plain_config c : plain (enc_config c).
Proof.
  unfold enc_config. plain_object; [plain_object|]. apply plain_list. intros k. plain_object.
Qed.

Lemma enc_config_text c : config_text (enc_config c).
Proof.
  unfold config_text, enc_config. split; intros v.
  - intros l. dec_run. intros <-%Ok_inj. rewrite _list_JArr. intros <-%Ok_inj.
    apply Forall_fmap, Forall_forall. intros k _ u. cbn [compose]. dec_run. intros <-%Ok_inj. by eexists.
  - dec_run. intros <-%Ok_inj. by eexists.
Qed.

Section columns.
Context `{PostgresLaws} (py_repr : json → string).

Lemma jsonb_dkg s j : dkg_result_wf s → jsonb (enc_dkg_result s) = Ok j → dec_dkg_result j = Ok s.
Proof.
  intros Hs Hj. rewrite <- (dec_dkg_result_same _ _ (jsonb_same _ _ (plain_dkg_result s) Hj)).
  by apply dec_enc_dkg_result.
Qed.
Lemma jsonb_ballot b j : ballot_wf b → jsonb (enc_ballot b) = Ok j → dec_ballot j = Ok b.
Proof.
  intros Hs Hj. rewrite <- (dec_ballot_same _ _ (jsonb_same _ _ (plain_ballot b) Hj)). by apply dec_enc_ballot.
Qed.
Lemma jsonb_share s j : share_wf s → jsonb (enc_decryption_share s) = Ok j → dec_decryption_share j = Ok s.
Proof.
  intros Hs Hj. rewrite <- (dec_share_same _ _ (jsonb_same _ _ (plain_share s) Hj)). by apply dec_enc_share.
Qed.
Lemma jsonb_aggregate a j : aggregate_wf a → jsonb (enc_aggregate a) = Ok j → dec_aggregate j = Ok a.
Proof.
  intros Hs Hj. rewrite <- (dec_aggregate_same _ _ (jsonb_same _ _ (plain_aggregate a) Hj)).
  by apply dec_enc_aggregate.
Qed.
Lemma jsonb_result r j : result_wf r → jsonb (enc_result r) = Ok j → dec_result j = Ok r.
Proof.
  intros Hs Hj. rewrite <- (dec_result_same _ _ (jsonb_same _ _ (plain_result r) Hj)). by apply dec_enc_result.
Qed.
Lemma jsonb_config c j : valid_config c → len (election_id c) = 32 → jsonb (enc_config c) = Ok j →
  dec_config py_repr j = Ok c.
Proof.
  intros Hc Hl Hj.
  rewrite <- (dec_config_same py_repr _ _ (jsonb_same _ _ (plain_config c) Hj) (enc_config_text c)).
  by apply dec_enc_config.
Qed.

End columns.
