(* ===== verification/Port.v ===== *)
(** The storage port as an interface: the operations of [ElectionDataLayer]
    that the services call, the laws they rely on, and the in-memory adapter as
    an instance of both.  The paged ballot reader (services/common/reads.py) is
    the first client. *)

From S2P Require Import Prelude Params Primality Field Points Transcript Types Config Codecs WriteAuth Quorum DataLayer DataLayerSafety.

(** * The interface *)

(** Reads and writes over a store; the writes whose adapter consults its
    clock take its reading. *)
Class DataLayer (store : Type) : Type := {
  dl_register_election : store → ElectionConfig → bytes → result (store * bytes);
  dl_cancel_election : store → Z → bytes → bytes → result store;
  dl_list_elections : store → option ElectionFilter → result (list bytes);
  dl_get_election : store → bytes → result ElectionRecord;
  dl_get_dkg_submissions : store → bytes → result (list DKGResultSubmission);
  dl_get_finalized_key : store → bytes → result (option FinalizedKey);
  dl_list_ballots : store → bytes → Z → Z → result (list StoredBallot);
  dl_count_ballots : store → bytes → result Z;
  dl_get_aggregate : store → bytes → result (option AggregateArtifact);
  dl_list_decryption_shares : store → bytes → result (list DecryptionShareEnvelope);
  dl_get_result : store → bytes → result (option ResultArtifact);
  dl_submit_dkg_result : store → bytes → bytes → list bytes → bytes → result store;
  dl_submit_ballot : store → Z → bytes → BallotEnvelope → bytes → result (store * Z);
  dl_submit_aggregate : store → Z → bytes → AggregateArtifact → bytes → result store;
  dl_submit_decryption_share : store → Z → bytes → DecryptionShareEnvelope → bytes → result store;
  dl_publish_result : store → bytes → ResultArtifact → bytes → result store;
  dl_set_tally_stalled : store → Z → Z → bytes → bool → bytes → Z → result store;
  dl_verifiability_tier : store → Z;
}.

(** The stable total order the port promises, of the stores the adapter can
    be in: [l] is the election's ballot list, numbered by position and served
    in pages. *)
Record serves {store} `{DataLayer store} (s : store) (eid : bytes) (l : list StoredBallot) : Prop := {
  serves_count : dl_count_ballots s eid = Ok (len l);
  serves_page start count : 0 <= start → 0 <= count < 2 ^ 63 →
    dl_list_ballots s eid start count = Ok (take (Z.to_nat count) (drop (Z.to_nat start) l));
  serves_order i b : l !! i = Some b → sequence_number b = Z.of_nat i;
}.

Class DataLayerLaws (store : Type) `{DataLayer store} : Type := {
  dl_ok : store → Prop;
  dl_serves s eid rec : dl_ok s → dl_get_election s eid = Ok rec → ∃ l, serves s eid l;
}.

(** * services/common/reads.py *)

Section reads.
Context {store : Type} `{DataLayer store}.

Definition BALLOT_PAGE : Z := 1000.

(** The paging loop; every turn asks for one page, and [fuel] bounds the
    turns: [None] when the turns run out. *)
Fixpoint read_pages (fuel : nat) (s : store) (eid : bytes) (total start : Z) (out : list StoredBallot)
  : option (result (list StoredBallot)) :=
  if start <? total then
    match fuel with
    | O => None
    | S fuel =>
        match dl_list_ballots s eid start (Z.min BALLOT_PAGE (total - start)) with
        | Err e => Some (Err e)
        | Ok [] => Some (Err IncompleteBallotRead)
        | Ok page => read_pages fuel s eid total (start + len page) (out ++ page)
        end
    end
  else Some (Ok out).

(** As many turns as reported ballots; [read_pages_terminates] shows that they
    never run out. *)
Definition read_all_ballots (s : store) (eid : bytes) : result (list StoredBallot) :=
  total ← dl_count_ballots s eid;
  out ← default (Err RuntimeError) (read_pages (Z.to_nat total) s eid total 0 []);
  _ ← raise_if (negb (bool_decide (sequence_number <$> out = seqZ 0 total))) IncompleteBallotRead;
  Ok out.

Lemma read_pages_total s eid total fuel start out : total - start <= Z.of_nat fuel →
  is_Some (read_pages fuel s eid total start out).
Proof.
  revert start out. induction fuel as [|fuel IH]; intros start out Hf; cbn;
    destruct (Z.ltb_spec start total) as [Hlt|]; try (by eexists); [lia|].
  destruct (dl_list_ballots s eid start _) as [[|b page]|]; try (by eexists). apply IH.
  unfold len. cbn [length]. lia.
Qed.

(** What a lawful store answers. *)
Lemma read_pages_serves s eid l fuel start out : serves s eid l → 0 <= start <= len l →
  len l - start <= Z.of_nat fuel →
  read_pages fuel s eid (len l) start out = Some (Ok (out ++ drop (Z.to_nat start) l)).
Proof.
  intros Hs. revert start out. induction fuel as [|fuel IH]; intros start out Hr Hf; unfold len in *;
    cbn [read_pages]; destruct (Z.ltb_spec start (Z.of_nat (length l))) as [Hlt|Hge].
  - lia.
  - rewrite drop_ge, app_nil_r by lia. done.
  - rewrite (serves_page _ _ _ Hs) by (unfold BALLOT_PAGE; lia).
    set (n := Z.to_nat _). destruct (take n (drop (Z.to_nat start) l)) as [|b page] eqn:Ep.
    { apply (f_equal length) in Ep. rewrite length_take, length_drop in Ep. cbn in Ep.
      unfold n, BALLOT_PAGE in Ep. lia. }
    assert (Hlen : length (b :: page) = n) by (rewrite <- Ep, length_take, length_drop; unfold n, BALLOT_PAGE; lia).
    unfold len. rewrite Hlen, IH by (unfold n, BALLOT_PAGE; lia). do 2 f_equal.
    rewrite <- app_assoc. f_equal. rewrite <- Ep.
    replace (Z.to_nat (start + Z.of_nat n)) with (Z.to_nat start + n)%nat by lia.
    rewrite <- drop_drop. apply take_drop.
  - rewrite drop_ge, app_nil_r by lia. done.
Qed.

Lemma sequence_numbers (l : list StoredBallot) :
  (∀ i b, l !! i = Some b → sequence_number b = Z.of_nat i) → sequence_number <$> l = seqZ 0 (len l).
Proof.
  intros Hl. apply list_eq. intros i. rewrite list_lookup_fmap.
  destruct (l !! i) as [b|] eqn:Hi; cbn.
  - rewrite (Hl _ _ Hi). symmetry. apply lookup_seqZ. apply lookup_lt_Some in Hi. unfold len. lia.
  - symmetry. apply lookup_seqZ_ge. apply lookup_ge_None in Hi. unfold len. lia.
Qed.

Lemma read_all_serves s eid l : serves s eid l → read_all_ballots s eid = Ok l.
Proof.
  intros Hs. unfold read_all_ballots. rewrite (serves_count _ _ _ Hs), bind_Ok.
  rewrite (read_pages_serves s eid l) by (done || (pose proof (len_nonneg l); lia)).
  cbn [default from_option id app Z.to_nat drop]. rewrite bind_Ok. rewrite bool_decide_eq_true_2; [done|]. by apply sequence_numbers, (serves_order _ _ _ Hs).
Qed.

End reads.

(** * The in-memory adapter *)

Section memory_port.
Context `{Crypto} `{EthAccount} `{Abi} (float_repr : Z → Z → string).

Definition memory_layer : DataLayer InMemoryDataLayer := {|
  dl_register_election := register_election float_repr;
  dl_cancel_election := cancel_election;
  dl_list_elections m f := Ok (list_elections m f);
  dl_get_election := get_election;
  dl_get_dkg_submissions := get_dkg_submissions;
  dl_get_finalized_key := get_finalized_key;
  dl_list_ballots := list_ballots;
  dl_count_ballots := count_ballots;
  dl_get_aggregate := get_aggregate;
  dl_list_decryption_shares := list_decryption_shares;
  dl_get_result := get_result;
  dl_submit_dkg_result := submit_dkg_result;
  dl_submit_ballot := submit_ballot float_repr;
  dl_submit_aggregate := submit_aggregate;
  dl_submit_decryption_share := submit_decryption_share;
  dl_publish_result := publish_result;
  dl_set_tally_stalled := set_tally_stalled;
  dl_verifiability_tier := verifiability_tier;
|}.

#[local] Existing Instance memory_layer.

Lemma memory_serves m eid st : mem_ok m → _get m eid = Ok st → serves m eid (st_ballots st).
Proof.
  intros Hm Hst. constructor; cbn.
  - unfold count_ballots. by rewrite Hst.
  - intros start count Hs Hc. unfold list_ballots. rewrite Hst, bind_Ok. f_equal.
    unfold py_slice, py_index. destruct (Z.ltb_spec start 0); [lia|].
    destruct (Z.ltb_spec (start + count) 0); [lia|]. unfold len.
    destruct (Z.le_gt_cases (Z.of_nat (length (st_ballots st))) start) as [Hge|Hlt].
    + rewrite !drop_ge by lia. by rewrite !take_nil.
    + rewrite (Z.min_l start) by lia.
      destruct (Z.le_gt_cases (start + count) (Z.of_nat (length (st_ballots st)))).
      * rewrite Z.min_l by lia. do 2 f_equal. lia.
      * rewrite Z.min_r by lia. rewrite !take_ge; [done|rewrite length_drop; lia..].
  - intros i b Hb. apply get_Ok in Hst. by apply (ok_ballots _ _ (ok_core _ _ (mem_stored _ Hm _ _ Hst))).
Qed.

Definition memory_laws : DataLayerLaws InMemoryDataLayer.
Proof.
  refine {| dl_ok := mem_ok |}. intros m eid rec Hm Hr. cbn in Hr. unfold get_election in Hr.
  apply bind_Ok_inv in Hr as (st & Hst & _). exists (st_ballots st). by apply memory_serves.
Defined.

End memory_port.

(** * Properties *)

(** C26: The paging loop stops after at most as many requests as ballots were
    reported, whatever the data layer answers: a page is an error, empty (and
    refused) or progress. *)
Theorem read_pages_terminates {store} `{DataLayer store} s eid total out :
  is_Some (read_pages (Z.to_nat total) s eid total 0 out).
Proof. apply read_pages_total. lia. Qed.

(** The reader returns the complete ballot list or raises: over any data
    layer a returned list has exactly the sequence numbers 0..total-1 of the
    reported total, and over a lawful one it returns the election's ballots. *)
Theorem read_all_ballots_complete {store} `{DataLayerLaws store} s eid rec :
  (∀ out, read_all_ballots s eid = Ok out →
     ∃ total, dl_count_ballots s eid = Ok total ∧ sequence_number <$> out = seqZ 0 total)
  ∧ (dl_ok s → dl_get_election s eid = Ok rec → ∃ l, serves s eid l ∧ read_all_ballots s eid = Ok l).
Proof.
  split.
  - intros out Ho. unfold read_all_ballots in Ho. apply bind_Ok_inv in Ho as (total & Ht & Ho).
    apply bind_Ok_inv in Ho as (l & _ & Ho). apply bind_Ok_inv in Ho as ([] & Hs%raise_if_Ok & <-%Ok_inj).
    exists total. split; [done|]. by apply negb_false_iff, bool_decide_eq_true in Hs.
  - intros Hs Hr. destruct (dl_serves s eid rec Hs Hr) as [l Hl]. exists l. split; [done|].
    by apply read_all_serves.
Qed.

Module port_example.
Import prefix_abi naming_account memory_example.
#[local] Existing Instance concrete_crypto.
Definition layer : DataLayer InMemoryDataLayer := memory_layer float_text.
Definition laws : @DataLayerLaws InMemoryDataLayer layer := memory_laws float_text.

Lemma read_all_ballots_complete_witness : ∃ l, @serves _ layer registered eid l.
Proof.
  destruct (get_election registered eid) as [rec|e] eqn:E;
    [|exfalso; apply (f_equal is_ok) in E; vm_compute in E; discriminate].
  destruct (proj2 (@read_all_ballots_complete _ layer laws registered eid rec)) as (l & Hl & _).
  - apply (reachable_ok float_text), registered_reachable.
  - exact E.
  - exists l. exact Hl.
Defined.

End port_example.
