(* ===== verification/Gateway.v ===== *)
(** The ballot ingest filter (services/gateway/gateway.py) over any data layer:
    the bounded backward nonce scan and the submission of one ballot. *)

From S2P Require Import Prelude Params Primality Field Points Transcript Types Config Schnorr Ballot Admission Codecs WriteAuth Quorum DataLayer DataLayerSafety Port.

Section gateway.
Context `{Crypto} `{EthAccount} `{Abi} (float_repr : Z → Z → string).
Context {store : Type} `{DataLayer store}.

Definition _NONCE_SCAN_PAGE : Z := 200.
Definition _NONCE_SCAN_LIMIT : Z := 1000.

(** The page's rows against the best nonce so far. *)
Definition scan_page (pseudonym : bytes) (best : Z) (page : list StoredBallot) : Z :=
  foldl (λ best sb,
    let env := envelope sb in
    if bool_decide (env_pseudonym env = pseudonym) && (best <? att_nonce (env_attestation env))
    then att_nonce (env_attestation env) else best) best page.

(** The loop walks from the newest page down to [floor]; [None] when [fuel]
    runs out. *)
Fixpoint scan_nonces (fuel : nat) (s : store) (eid pseudonym : bytes) (total floor off best : Z)
  : option (result Z) :=
  if (floor <=? off) && negb (total =? 0) then
    match fuel with
    | O => None
    | S fuel =>
        match dl_list_ballots s eid off (Z.min _NONCE_SCAN_PAGE (total - off)) with
        | Err e => Some (Err e)
        | Ok page =>
            let best := scan_page pseudonym best page in
            if off =? floor then Some (Ok best) else
            scan_nonces fuel s eid pseudonym total floor (Z.max floor (off - _NONCE_SCAN_PAGE)) best
        end
    end
  else Some (Ok best).

(** Six pages reach back over the whole limit. *)
Definition SCAN_TURNS : nat := 6.

Definition _max_stored_nonce (s : store) (eid pseudonym : bytes) : result Z :=
  total ← dl_count_ballots s eid;
  let floor := Z.max 0 (total - _NONCE_SCAN_LIMIT) in
  let off := if total =? 0 then 0
             else Z.max floor ((total - 1) / _NONCE_SCAN_PAGE * _NONCE_SCAN_PAGE) in
  default (Err RuntimeError) (scan_nonces SCAN_TURNS s eid pseudonym total floor off 0).

(** The facts the services derive the state from. *)
Definition state_facts (rec : ElectionRecord) (res : option ResultArtifact) : StateFacts :=
  mkStateFacts (rec_cancelled rec) (bool_decide (is_Some (rec_finalized_key rec)))
    (bool_decide (is_Some res)) false.

(** [now] is the gateway's clock, [now'] the data layer's. *)
Definition gateway_submit_ballot (s : store) (now now' : Z) (eid : bytes) (ballot : BallotEnvelope)
    (filter_on : bool) (gateway_signer : option Signer) : result (store * Z) :=
  rec ← dl_get_election s eid;
  res ← dl_get_result s eid;
  let cfg := rec_config rec in
  _ ← raise_if (negb (bool_decide (derive_state cfg (state_facts rec res) now = VOTING)))
        (GatewayRejection "voting is not open");
  _ ← (if filter_on then
         match rec_finalized_key rec with
         | None => Err (GatewayRejection "no finalized key")
         | Some fk =>
             mpk ← g2_from_compressed (pk_election fk);
             reason ← validate_ballot (mkStoredBallot (-1) ballot (Some now)) cfg mpk;
             match reason with
             | Some r => Err (GatewayRejection (reason_value r))
             | None =>
                 match att_scheme (env_attestation ballot) with
                 | V1 =>
                     best ← _max_stored_nonce s eid (env_pseudonym ballot);
                     raise_if (att_nonce (env_attestation ballot) <=? best)
                       (GatewayRejection "STALE_OR_REPLAYED")
                 end
             end
         end
       else Ok tt);
  gateway_sig ← match gateway_signer with
                | Some sg => sign_ballot float_repr (private_key sg) eid ballot
                | None => Ok []
                end;
  dl_submit_ballot s now' eid ballot gateway_sig.

(** * The scan *)

(** The highest nonce stored under the pseudonym. *)
Definition max_nonce (pseudonym : bytes) (l : list StoredBallot) : Z := scan_page pseudonym 0 l.

Lemma scan_page_max ps best l : 0 <= best → scan_page ps best l = Z.max best (max_nonce ps l).
Proof.
  unfold max_nonce. intros Hb.
  assert (Hgen : ∀ l b c, 0 <= c <= b → scan_page ps b l = Z.max b (scan_page ps c l)); [|by apply Hgen].
  clear. intros l. unfold scan_page. induction l as [|sb l IH] using rev_ind; intros b c Hc; [cbn; lia|].
  rewrite !foldl_snoc. rewrite (IH b c Hc). set (x := foldl _ c l) in *.
  assert (Hx : c <= x).
  { subst x. clear IH. induction l as [|y l IHl] using rev_ind; [cbn; lia|]. rewrite foldl_snoc.
    case_bool_decide; cbn [andb]; [|lia]. case_match eqn:E; [apply Z.ltb_lt in E|]; lia. }
  case_bool_decide; cbn [andb]; [|lia].
  destruct (Z.ltb_spec (Z.max b x) (att_nonce (env_attestation (envelope sb)))),
    (Z.ltb_spec x (att_nonce (env_attestation (envelope sb)))); lia.
Qed.

Lemma max_nonce_app ps l k : max_nonce ps (l ++ k) = Z.max (max_nonce ps l) (max_nonce ps k).
Proof.
  assert (Hnn : ∀ l, 0 <= max_nonce ps l).
  { intros l'. pose proof (scan_page_max ps 0 l' ltac:(lia)) as E. unfold max_nonce in *. lia. }
  unfold max_nonce at 1, scan_page. rewrite foldl_app. apply scan_page_max, Hnn.
Qed.

Lemma slice_split {A} (l : list A) (a b c : nat) : (a <= b <= c)%nat →
  slice a c l = slice a b l ++ slice b c l.
Proof.
  intros Hb. unfold slice. replace (c - a)%nat with ((b - a) + (c - b))%nat by lia.
  rewrite <- take_take_drop. f_equal. rewrite drop_drop. by replace (a + (b - a))%nat with b by lia.
Qed.

(** Overlapping segments give the maximum of their union. *)
Lemma max_nonce_overlap ps l (a b c d : nat) : (a <= b <= c)%nat → (c <= d)%nat →
  Z.max (max_nonce ps (slice b d l)) (max_nonce ps (slice a c l)) = max_nonce ps (slice a d l).
Proof.
  intros Hb Hc. rewrite (slice_split l a b d), (slice_split l a b c), (slice_split l b c d) by lia.
  rewrite !max_nonce_app. lia.
Qed.

Lemma max_nonce_nonneg ps l : 0 <= max_nonce ps l.
Proof. pose proof (scan_page_max ps 0 l ltac:(lia)) as E. unfold max_nonce in *. lia. Qed.

Lemma scan_nonces_serves s eid ps l fuel (floor off : nat) best : serves s eid l → 0 <= best →
  (floor <= off < length l)%nat → (0 < fuel)%nat → (off - floor <= 200 * (fuel - 1))%nat →
  scan_nonces fuel s eid ps (len l) (Z.of_nat floor) (Z.of_nat off) best
  = Some (Ok (Z.max best (max_nonce ps (slice floor (min (off + 200) (length l)) l)))).
Proof.
  intros Hs. revert off best. induction fuel as [|fuel IH]; intros off best Hb Ho Hf Hf1; [lia|].
  cbn [scan_nonces]. unfold len at 1.
  destruct (Z.leb_spec (Z.of_nat floor) (Z.of_nat off)); [|lia].
  destruct (Z.eqb_spec (Z.of_nat (length l)) 0); [lia|]. cbn [andb negb].
  rewrite (serves_page _ _ _ Hs) by (unfold _NONCE_SCAN_PAGE, len; lia).
  set (e := min (off + 200) (length l)).
  assert (Hpage : take (Z.to_nat (Z.min _NONCE_SCAN_PAGE (len l - Z.of_nat off))) (drop (Z.to_nat (Z.of_nat off)) l)
    = slice off e l).
  { unfold slice, len, _NONCE_SCAN_PAGE. f_equal; [lia|]. f_equal. lia. }
  rewrite Hpage, scan_page_max by done.
  destruct (Z.eqb_spec (Z.of_nat off) (Z.of_nat floor)) as [E|Hne]; [by apply Nat2Z.inj in E as ->|].
  set (off' := max floor (off - 200)).
  replace (Z.max (Z.of_nat floor) (Z.of_nat off - _NONCE_SCAN_PAGE)) with (Z.of_nat off')
    by (unfold off', _NONCE_SCAN_PAGE; lia).
  rewrite IH by (pose proof (max_nonce_nonneg ps (slice off e l)); unfold off'; lia).
  do 2 f_equal. rewrite <- Z.max_assoc, (max_nonce_overlap ps l floor off); [done|unfold off', e; lia..].
Qed.

(** The replay filter's bounded scan is exact on what it covers: over a
    lawful data layer it returns the highest nonce stored for the pseudonym
    among the last thousand ballots, and six page requests always suffice. *)
Theorem max_stored_nonce_exact s eid ps l : serves s eid l →
  _max_stored_nonce s eid ps = Ok (max_nonce ps (drop (Z.to_nat (len l - _NONCE_SCAN_LIMIT)) l)).
Proof.
  intros Hs. unfold _max_stored_nonce. rewrite (serves_count _ _ _ Hs), bind_Ok.
  destruct (Z.eqb_spec (len l) 0) as [Hz|Hnz].
  - apply len_nil_inv in Hz as ->. reflexivity.
  - set (floor := Z.to_nat (len l - _NONCE_SCAN_LIMIT)).
    set (off := Z.to_nat (Z.max (Z.of_nat floor) ((len l - 1) / 200 * 200))).
    pose proof (Z.div_mod (len l - 1) 200 ltac:(lia)). pose proof (Z.mod_pos_bound (len l - 1) 200 ltac:(lia)).
    pose proof (len_nonneg l).
    assert (Hq : 0 <= (len l - 1) / 200) by (apply Z.div_pos; lia).
    replace (Z.max 0 (len l - _NONCE_SCAN_LIMIT)) with (Z.of_nat floor)
      by (unfold floor, _NONCE_SCAN_LIMIT; lia).
    replace (Z.max (Z.of_nat floor) ((len l - 1) / _NONCE_SCAN_PAGE * _NONCE_SCAN_PAGE)) with (Z.of_nat off)
      by (unfold off, _NONCE_SCAN_PAGE; lia).
    rewrite (scan_nonces_serves s eid ps l) by
      (first [done|lia|unfold off, floor, SCAN_TURNS, _NONCE_SCAN_LIMIT, len in *; lia]).
    cbn [default from_option id]. do 2 f_equal.
    pose proof (max_nonce_nonneg ps (slice floor (min (off + 200) (length l)) l)). rewrite Z.max_r by lia.
    f_equal. unfold slice. apply take_ge. rewrite length_drop. unfold off, len in *. lia.
Qed.

End gateway.

(** * Over the in-memory adapter *)

Section gateway_memory.
Context `{Crypto} `{EthAccount} `{Abi} (float_repr : Z → Z → string).
#[local] Instance layer : DataLayer InMemoryDataLayer := memory_layer float_repr.

(** Inside the window the verdict depends on the envelope alone. *)
Lemma validate_ballot_in_window a b ballot t t' config mpk :
  is_voting_open config t = true → is_voting_open config t' = true →
  validate_ballot (mkStoredBallot a ballot (Some t)) config mpk
  = validate_ballot (mkStoredBallot b ballot (Some t')) config mpk.
Proof. intros Ht Ht'. unfold validate_ballot. cbn [envelope submitted_at]. by rewrite Ht, Ht'. Qed.

Lemma submit_ballot_Ok m now eid b sig m' seq st : mem_ok m → _get m eid = Ok st →
  submit_ballot float_repr m now eid b sig = Ok (m', seq) →
  seq = len (st_ballots st) ∧ is_voting_open (st_config st) now = true
  ∧ m' = put m eid (append_ballot st (mkStoredBallot seq b (Some now))).
Proof.
  intros Hm Hst Hr. unfold submit_ballot in Hr. rewrite Hst, bind_Ok in Hr.
  apply bind_Ok_inv in Hr as ([] & _ & Hr).
  apply bind_Ok_inv in Hr as ([] & Hv & [<- <-]%Ok_inj%pair_equal_spec).
  unfold _require_voting_open in Hv. apply bind_Ok_inv in Hv as (fk & Hfk & Hv%raise_if_Ok).
  apply negb_false_iff, bool_decide_eq_true, voting_state in Hv as [_ Ho]. done.
Qed.

(** C25: A ballot the gateway accepts is a ballot the tally keeps: it is stored
    under the returned sequence number, passes the tally's validation against
    the finalized key, and carries a nonce above every nonce of its pseudonym
    among the thousand ballots before it. *)
Theorem gateway_accepts_tally_valid m now now' eid ballot sg m' seq : reachable float_repr m →
  gateway_submit_ballot float_repr m now now' eid ballot true sg = Ok (m', seq) →
  ∃ st st' fk mpk sb, _get m eid = Ok st ∧ _get m' eid = Ok st'
    ∧ get_finalized_key m' eid = Ok (Some fk) ∧ g2_from_compressed (pk_election fk) = Ok mpk
    ∧ seq = len (st_ballots st) ∧ st_ballots st' = st_ballots st ++ [sb] ∧ envelope sb = ballot
    ∧ validate_ballot sb (st_config st') mpk = Ok None
    ∧ max_nonce (env_pseudonym ballot) (drop (Z.to_nat (len (st_ballots st) - _NONCE_SCAN_LIMIT)) (st_ballots st))
        < att_nonce (env_attestation ballot).
Proof.
  intros Hm%reachable_ok Hr. unfold gateway_submit_ballot in Hr. cbn [dl_get_election dl_get_result layer memory_layer] in Hr.
  apply bind_Ok_inv in Hr as (rec & Hrec & Hr). apply bind_Ok_inv in Hr as (res & _ & Hr).
  apply bind_Ok_inv in Hr as ([] & Hv%raise_if_Ok & Hr). apply bind_Ok_inv in Hr as ([] & Hf & Hr).
  apply bind_Ok_inv in Hr as (sig & _ & Hr). cbn [dl_submit_ballot layer memory_layer] in Hr.
  unfold get_election in Hrec. apply bind_Ok_inv in Hrec as (st & Hst & Hrec).
  apply bind_Ok_inv in Hrec as (ofk & Hfk & <-%Ok_inj). cbn [rec_finalized_key rec_config] in *.
  apply negb_false_iff, bool_decide_eq_true, voting_state in Hv as [_ Ho].
  destruct (submit_ballot_Ok _ _ _ _ _ _ _ _ Hm Hst Hr) as (Hseq & Ho' & ->).
  destruct ofk as [fk|]; [|done]. apply bind_Ok_inv in Hf as (mpk & Hmpk & Hf).
  apply bind_Ok_inv in Hf as (reason & Hval & Hf). destruct reason; [done|].
  destruct (att_scheme (env_attestation ballot)).
  apply bind_Ok_inv in Hf as (best & Hbest & Hn%raise_if_Ok%Z.leb_gt).
  rewrite (max_stored_nonce_exact m eid _ (st_ballots st)) in Hbest by by apply memory_serves.
  apply Ok_inj in Hbest as <-.
  exists st, (append_ballot st (mkStoredBallot seq ballot (Some now'))), fk, mpk, (mkStoredBallot seq ballot (Some now')).
  assert (Hg : _get (put m eid (append_ballot st (mkStoredBallot seq ballot (Some now')))) eid
    = Ok (append_ballot st (mkStoredBallot seq ballot (Some now')))).
  { apply get_Ok. cbn. by rewrite dict_get_set, decide_True. }
  split_and!; try done.
  - unfold get_finalized_key in Hfk |- *. rewrite Hst, bind_Ok in Hfk. rewrite Hg, bind_Ok. exact Hfk.
  - cbn [st_config append_ballot]. rewrite <- Hval. by apply validate_ballot_in_window.
Qed.

End gateway_memory.

(** * A run: registration, DKG results, two ballots through the gateway *)

Module gateway_example.
Import prefix_abi naming_account.
#[local] Existing Instance concrete_crypto.

Definition float_text : Z → Z → string := memory_example.float_text.
Definition addr : Z → bytes := memory_example.addr.
Definition get_ok {A} : A → result A → A := @memory_example.get_ok A.
#[local] Instance layer : DataLayer InMemoryDataLayer := memory_layer float_text.

Definition eid : bytes := admission_example.eid.
Definition cfg : ElectionConfig := Eval vm_compute in
  mkElectionConfig eid 2 1 EXACT VariantA true LAST_WINS 100 200 (mkThreshold 2 3)
    [mkKeyperIdentity (addr 1) "k1"; mkKeyperIdentity (addr 2) "k2"; mkKeyperIdentity (addr 3) "k3"]
    (pt_to_compressed G1ops admission_example.elig_vk) (addr 8) [] (addr 7) "1" 1 0.

(** The joint key 5·G and the public shares of the polynomial 5 + 3x. *)
Definition pk : bytes := Eval vm_compute in admission_example.mpk_bytes.
Definition pks : list bytes := Eval vm_compute in
  (λ i, pt_to_compressed G2ops (mul G2 (5 + 3 * i))) <$> [1; 2; 3].

Definition reg_sig : bytes := Eval vm_compute in get_ok [] (sign_register float_text 7 cfg).
Definition m0 : InMemoryDataLayer := Eval vm_compute in
  (get_ok (new_memory, []) (register_election float_text new_memory cfg reg_sig)).1.
Definition key_sig (sk : Z) : bytes := get_ok [] (sign_dkg_result sk eid pk pks).
Definition m1 : InMemoryDataLayer := Eval vm_compute in
  get_ok m0 (submit_dkg_result m0 eid pk pks (key_sig 1)).
Definition m2 : InMemoryDataLayer := Eval vm_compute in
  get_ok m0 (submit_dkg_result m1 eid pk pks (key_sig 2)).
Definition m3 : InMemoryDataLayer := Eval vm_compute in
  (get_ok (m0, 0) (gateway_submit_ballot float_text m2 150 151 eid (envelope admission_example.alice2) true None)).1.
Definition m4 : InMemoryDataLayer := Eval vm_compute in
  (get_ok (m0, 0) (gateway_submit_ballot float_text m3 152 153 eid (envelope admission_example.bob1) true None)).1.

Lemma gateway_cfg_valid : valid_config cfg.
Proof. split; vm_compute; reflexivity. Qed.
Lemma m0_registered : register_election float_text new_memory cfg reg_sig = Ok (m0, eid).
Proof. vm_compute. reflexivity. Qed.
Lemma m1_submitted : submit_dkg_result m0 eid pk pks (key_sig 1) = Ok m1.
Proof. vm_compute. reflexivity. Qed.
Lemma m2_submitted : submit_dkg_result m1 eid pk pks (key_sig 2) = Ok m2.
Proof. vm_compute. reflexivity. Qed.
Lemma m3_submitted :
  gateway_submit_ballot float_text m2 150 151 eid (envelope admission_example.alice2) true None = Ok (m3, 0).
Proof. vm_compute. reflexivity. Qed.
Lemma m3_stored : submit_ballot float_text m2 151 eid (envelope admission_example.alice2) [] = Ok (m3, 0).
Proof. vm_compute. reflexivity. Qed.
Lemma m4_stored : submit_ballot float_text m3 153 eid (envelope admission_example.bob1) [] = Ok (m4, 1).
Proof. vm_compute. reflexivity. Qed.

Lemma m2_reachable : reachable float_text m2.
Proof.
  eapply rtc_l; [eapply step_register; [apply gateway_cfg_valid|apply m0_registered]|].
  eapply rtc_l; [eapply step_dkg, m1_submitted|]. eapply rtc_once, step_dkg, m2_submitted.
Qed.
Lemma m4_reachable : reachable float_text m4.
Proof.
  unfold reachable. etransitivity; [apply m2_reachable|]. eapply rtc_l; [eapply step_ballot, m3_stored|].
  eapply rtc_once, step_ballot, m4_stored.
Qed.

Definition st4 : _Stored := Eval vm_compute in get_ok (new_stored cfg) (_get m4 eid).
Lemma m4_get : _get m4 eid = Ok st4.
Proof. vm_compute. reflexivity. Qed.

(** The scan over the two stored ballots finds the nonce of the first voter. *)
Lemma max_stored_nonce_exact_witness :
  _max_stored_nonce m4 eid admission_example.alice = Ok (max_nonce admission_example.alice (st_ballots st4)).
Proof.
  apply (max_stored_nonce_exact m4 eid admission_example.alice (st_ballots st4)).
  apply memory_serves; [apply (reachable_ok float_text), m4_reachable|apply m4_get].
Defined.

Lemma gateway_accepts_tally_valid_witness : ∃ st st' fk mpk sb,
  _get m2 eid = Ok st ∧ _get m3 eid = Ok st' ∧ get_finalized_key m3 eid = Ok (Some fk)
  ∧ st_ballots st' = st_ballots st ++ [sb] ∧ validate_ballot sb (st_config st') mpk = Ok None.
Proof.
  destruct (gateway_accepts_tally_valid float_text m2 150 151 eid (envelope admission_example.alice2) None m3 0
    m2_reachable m3_submitted) as (st & st' & fk & mpk & sb & Hst & Hst' & Hfk & _ & _ & Hb & _ & Hv & _).
  exists st, st', fk, mpk, sb. split; [exact Hst|]. split; [exact Hst'|]. split; [exact Hfk|].
  split; [exact Hb|exact Hv].
Defined.

End gateway_example.
