(* ===== verification/Keyper.v ===== *)
(** The keyper (services/keyper/keyper.py) and the tally driver
    (services/tally_aggregator/tally_aggregator.py), over any data layer.  A
    keyper's clock reading and the randomness of its proofs are arguments. *)

From S2P Require Import Prelude Params Primality Field Points Transcript Elgamal Proofs Recovery Dkg Types Config Schnorr Ballot Admission Aggregation Codecs WriteAuth Quorum DataLayer DataLayerSafety Port Gateway.

Section keyper.
Context `{Crypto} `{EthAccount} `{Abi} (float_repr : Z → Z → string).
Context {store : Type} `{DataLayer store}.

(** * services/keyper/keyper.py *)

Record KeyperService := mkKeyperService {
  k_index : Z;
  k_signer : Signer;
  k_dkg : KeyperDKGState;
}.

Definition new_keyper (index : Z) (signer : Signer) : KeyperService := mkKeyperService index signer init_state.

Definition with_dkg (k : KeyperService) (d : KeyperDKGState) : KeyperService :=
  mkKeyperService (k_index k) (k_signer k) d.

Definition dkg_round1 (k : KeyperService) (n t : Z) (rng : nat → Z)
  : KeyperService * (list (pt G2ops) * dict Z Z) :=
  let '(d, out) := round1 (k_dkg k) (k_index k) n t rng in (with_dkg k d, out).

Definition dkg_round2 (k : KeyperService) (all_commitments : dict Z (list (pt G2ops)))
    (received_shares : dict Z Z) : result (KeyperService * (Z * pt G2ops)) :=
  '(d, out) ← round2 (k_dkg k) all_commitments received_shares;
  Ok (with_dkg k d, out).

Definition keyper_submit_dkg_result (k : KeyperService) (s : store) (eid : bytes)
    (all_commitments : dict Z (list (pt G2ops))) : result store :=
  match dkg_quorum (k_dkg k) with
  | None => Err TypeError
  | Some quorum =>
      pk ← derive_joint_mpk all_commitments quorum;
      committee ← mapM (λ i, derive_mpk_share i all_commitments quorum) (sortedZ (dict_keys all_commitments));
      pk_b ← g2_to_compressed pk;
      committee_b ← mapM g2_to_compressed committee;
      sig ← sign_dkg_result (private_key (k_signer k)) eid pk_b committee_b;
      dl_submit_dkg_result s eid pk_b committee_b sig
  end.

Definition tallying (st : ElectionState) : bool :=
  bool_decide (st = TALLYING) || bool_decide (st = COMPLETE).

Definition check_can_aggregate (s : store) (now : Z) (eid : bytes) : result ElectionRecord :=
  rec ← dl_get_election s eid;
  res ← dl_get_result s eid;
  _ ← raise_if (negb (tallying (derive_state (rec_config rec) (state_facts rec res) now))) KeyperRefusal;
  _ ← raise_if (bool_decide (rec_finalized_key rec = None)) KeyperRefusal;
  Ok rec.

Definition produce_aggregate (k : KeyperService) (s : store) (now : Z) (eid : bytes)
  : result (AggregateArtifact * bytes) :=
  rec ← check_can_aggregate s now eid;
  let cfg := rec_config rec in
  stored ← read_all_ballots s eid;
  match rec_finalized_key rec with
  | None => Err TypeError
  | Some fk =>
      admission ← admit_ballots stored cfg (pk_election fk);
      artifact ← build_aggregate_artifact cfg admission;
      sig ← sign_aggregate (private_key (k_signer k)) eid artifact;
      Ok (artifact, sig)
  end.

(** [now'] is the data layer's clock. *)
Definition aggregate_and_submit (k : KeyperService) (s : store) (now now' : Z) (eid : bytes) : result store :=
  '(artifact, sig) ← produce_aggregate k s now eid;
  dl_submit_aggregate s now' eid artifact sig.

(** The entry for candidate [j], proved with the nonce [w]. *)
Definition decryption_entry (k : KeyperService) (eid : bytes) (j : nat) (ct : WireCiphertext) (w : Z)
  : result DecryptionShareEntry :=
  C1 ← g2_from_compressed (c1 ct);
  C2 ← g2_from_compressed (c2 ct);
  sg ← partial_decrypt (k_dkg k) C1;
  t ← make_decrypt_transcript eid (Z.of_nat j);
  match dkg_public_key_share (k_dkg k), dkg_combined_share (k_dkg k) with
  | Some pks, Some cs =>
      '(e, z, _) ← prove_decryption_share C1 C2 pks sg cs (k_index k) w t;
      sb ← g2_to_compressed sg;
      pf ← encode_dleq e z;
      Ok (mkDecryptionShareEntry sb pf)
  | _, _ => Err TypeError
  end.

(** [rng j] is the randomness of candidate [j]'s proof. *)
Definition produce_decryption_share (k : KeyperService) (s : store) (now : Z) (eid : bytes) (rng : nat → Z)
  : result (option (DecryptionShareEnvelope * bytes)) :=
  rec ← dl_get_election s eid;
  res ← dl_get_result s eid;
  _ ← raise_if (negb (tallying (derive_state (rec_config rec) (state_facts rec res) now))) KeyperRefusal;
  _ ← raise_if (bool_decide (rec_finalized_key rec = None)) KeyperRefusal;
  agg ← dl_get_aggregate s eid;
  match agg with
  | None => Err KeyperRefusal
  | Some agg =>
      shares ← dl_list_decryption_shares s eid;
      if bool_decide (filter (λ sh, keyper_index sh = k_index k) shares ≠ []) then Ok None else
      entries ← mapM (λ '(j, ct), decryption_entry k eid j ct (rng j)) (imap pair (aggregates agg));
      let share := mkDecryptionShareEnvelope eid (k_index k) entries in
      let '(sigmas, dleq_proofs) := share_payload share in
      sig ← sign_decryption_share (private_key (k_signer k)) eid sigmas dleq_proofs;
      Ok (Some (share, sig))
  end.

Definition decrypt_and_submit (k : KeyperService) (s : store) (now now' : Z) (eid : bytes) (rng : nat → Z)
  : result store :=
  produced ← produce_decryption_share k s now eid rng;
  match produced with
  | None => Ok s
  | Some (share, sig) => dl_submit_decryption_share s now' eid share sig
  end.

(** * services/tally_aggregator/tally_aggregator.py *)

Definition _state (s : store) (eid : bytes) (now : Z) : result (ElectionRecord * ElectionState) :=
  rec ← dl_get_election s eid;
  res ← dl_get_result s eid;
  Ok (rec, derive_state (rec_config rec) (state_facts rec res) now).

(** A keyper with its clock readings and randomness for one call. *)
Record keyper_call := mkCall { call_keyper : KeyperService; call_now : Z; call_now' : Z; call_rng : nat → Z }.

(** Failures are swallowed. *)
Definition trigger_aggregate (s : store) (keypers : list keyper_call) (eid : bytes) : store :=
  foldl (λ s c, try_or (aggregate_and_submit (call_keyper c) s (call_now c) (call_now' c) eid) s) s keypers.

Definition trigger_keypers (s : store) (keypers : list keyper_call) (eid : bytes) : store :=
  foldl (λ s c, try_or (decrypt_and_submit (call_keyper c) s (call_now c) (call_now' c) eid (call_rng c)) s)
    s keypers.

Definition finalize (s : store) (eid : bytes) (result_publisher : Signer) (now : Z)
  : result (store * option ResultArtifact) :=
  '(rec, state) ← _state s eid now;
  if bool_decide (state = COMPLETE) then r ← dl_get_result s eid; Ok (s, r) else
  _ ← raise_if (negb (bool_decide (state = TALLYING))) TallyError;
  agg ← dl_get_aggregate s eid;
  match agg, rec_finalized_key rec with
  | Some agg, Some fk =>
      shares ← dl_list_decryption_shares s eid;
      result ← recover_result (rec_config rec) agg shares (committee_pks fk) (thr_t (threshold (rec_config rec))) None;
      match result with
      | None => Ok (s, None)
      | Some r =>
          payload ← result_digest eid r;
          sig ← signer_sign result_publisher "result" eid payload;
          s' ← dl_publish_result s eid r sig;
          Ok (s', Some r)
      end
  | _, _ => Err TallyError
  end.

Definition run_tally (s : store) (eid : bytes) (result_publisher : Signer) (keypers keypers' : list keyper_call)
    (now : Z) : result (store * option ResultArtifact) :=
  let s := trigger_aggregate s keypers eid in
  agg ← dl_get_aggregate s eid;
  _ ← raise_if (bool_decide (agg = None)) TallyError;
  let s := trigger_keypers s keypers' eid in
  finalize s eid result_publisher now.

End keyper.

Arguments KeyperService {_}.
Arguments keyper_call {_}.

(** * The keyper never decrypts early *)

Lemma tallying_facts c facts now : tallying (derive_state c facts now) = true →
  cancelled facts = false ∧ (result_published facts = true ∨ key_finalized facts = true ∧ voting_end c <= now).
Proof.
  unfold tallying, derive_state.
  destruct (cancelled facts), (result_published facts), (key_finalized facts); cbn [negb];
    rewrite ?andb_false_r, ?andb_true_r; try (intros; by auto); repeat case_match; try done; intros _; lia || auto.
Qed.

(** * Its shares verify *)

Section shares.
Context `{CryptoLaws} `{EthAccount} `{Abi}.

Lemma decode_encode_dleq e z b : encode_dleq e z = Ok b → decode_dleq b = Ok (e mod CURVE_ORDER, z mod CURVE_ORDER).
Proof.
  unfold encode_dleq, decode_dleq. intros Hb. apply bind_Ok_inv in Hb as (eb & He & Hb).
  apply bind_Ok_inv in Hb as (zb & Hz & <-%Ok_inj).
  pose proof (scalar_to_bytes_length _ _ He) as Hle. pose proof (scalar_to_bytes_length _ _ Hz) as Hlz.
  replace (len (eb ++ zb) =? DLEQ_BYTES) with true by (symmetry; apply Z.eqb_eq; rewrite len_app; unfold len; rewrite Hle, Hlz; done).
  cbn [negb raise_if]. rewrite bind_Ok, take_app_length', drop_app_length' by done.
  by rewrite (scalar_roundtrip _ _ He), bind_Ok, (scalar_roundtrip _ _ Hz), bind_Ok.
Qed.

Lemma prove_share_range C1 C2 K sg x i w t e z t' :
  prove_decryption_share C1 C2 K sg x i w t = Ok ((e, z), t') → 0 <= e < CURVE_ORDER ∧ 0 <= z < CURVE_ORDER.
Proof.
  unfold prove_decryption_share, prove_dleq. intros Hp.
  repeat match goal with
  | Hb : (_ ≫= _) _ = Ok _ |- _ => apply TM_bind_Ok_inv in Hb as (? & ? & ? & Hb)
  end.
  match goal with Hc : challenge _ _ = Ok _ |- _ => apply challenge_range in Hc end.
  injection Hp as <- <- _. split; [done|apply mod_q_range].
Qed.

(** The keyper's state after round 2. *)
Definition holds_share (k : KeyperService) (cs : Z) : Prop :=
  dkg_combined_share (k_dkg k) = Some cs ∧ dkg_public_key_share (k_dkg k) = Some (mul G2 cs).

Lemma decryption_entry_accepted (k : KeyperService) eid j ct w entry cs pk C1 C2 :
  holds_share k cs → decryption_entry k eid j ct w = Ok entry → decode_ct ct = Ok (C1, C2) →
  g2_from_compressed pk = Ok (mul G2 cs) →
  decode_share entry pk = Ok (mul C1 cs, (from_bytes_be (take 32 (proof entry)), from_bytes_be (drop 32 (proof entry))), mul G2 cs)
  ∧ ∃ t t', make_decrypt_transcript eid (Z.of_nat j) = Ok t ∧
    verify_decryption_share C1 C2 (mul G2 cs) (mul C1 cs) (from_bytes_be (take 32 (proof entry)))
      (from_bytes_be (drop 32 (proof entry))) (k_index k) t = Ok (true, t').
Proof.
  intros [Hcs Hps] He Hct Hpk. unfold decode_ct in Hct. unfold decryption_entry, partial_decrypt in He.
  apply bind_Ok_inv in Hct as (A & HA & Hct). apply bind_Ok_inv in Hct as (B & HB & [= -> ->]).
  rewrite HA, bind_Ok, HB, bind_Ok, Hcs, bind_Ok, Hps in He.
  apply bind_Ok_inv in He as (t & Ht & He). apply bind_Ok_inv in He as ([[e z] t'] & Hp & He).
  apply bind_Ok_inv in He as (sb & Hsb & He). apply bind_Ok_inv in He as (pf & Hpf & <-%Ok_inj).
  destruct (prove_share_range _ _ _ _ _ _ _ _ _ _ _ Hp) as [Hre Hrz].
  pose proof (decode_encode_dleq _ _ _ Hpf) as Hd. rewrite !Z.mod_small in Hd by done.
  assert (HC : in_subgroup C1) by (unfold g2_from_compressed in HA; by apply from_compressed_Ok in HA as [? _]).
  unfold decode_share. cbn [sigma proof]. unfold g2_to_compressed in Hsb. rewrite to_compressed_Ok in Hsb.
  apply Ok_inj in Hsb as <-. unfold g2_from_compressed in Hpk |- *.
  assert (e = from_bytes_be (take 32 pf) ∧ z = from_bytes_be (drop 32 pf)) as [-> ->].
  { unfold decode_dleq in Hd. apply bind_Ok_inv in Hd as ([] & _ & Hd).
    apply bind_Ok_inv in Hd as (e' & He'%scalar_from_bytes_Ok & Hd).
    apply bind_Ok_inv in Hd as (z' & Hz'%scalar_from_bytes_Ok & Hd). naive_solver. }
  split.
  - rewrite from_to_compressed, bind_Ok by by apply mul_subgroup. by rewrite Hd, bind_Ok, Hpk, bind_Ok.
  - exists t, t'. split; [done|]. by eapply decryption_share_complete.
Qed.

(** An entry is the partial decryption of its ciphertext under the keyper's
    combined share, with a proof that verifies. *)
Lemma decryption_entry_opens (k : KeyperService) eid j ct w entry : decryption_entry k eid j ct w = Ok entry →
  ∃ C1 C2 cs, decode_ct ct = Ok (C1, C2) ∧ dkg_combined_share (k_dkg k) = Some cs
    ∧ g2_to_compressed (mul C1 cs) = Ok (sigma entry)
    ∧ (dkg_public_key_share (k_dkg k) = Some (mul G2 cs) →
       ∃ t t', make_decrypt_transcript eid (Z.of_nat j) = Ok t
         ∧ verify_decryption_share C1 C2 (mul G2 cs) (mul C1 cs) (from_bytes_be (take 32 (proof entry)))
             (from_bytes_be (drop 32 (proof entry))) (k_index k) t = Ok (true, t')).
Proof.
  intros He. pose proof He as Hacc. unfold decryption_entry, partial_decrypt in He.
  apply bind_Ok_inv in He as (C1 & HA & He). apply bind_Ok_inv in He as (C2 & HB & He).
  destruct (dkg_combined_share (k_dkg k)) as [cs|] eqn:Hcs; [|done]. rewrite bind_Ok in He.
  assert (Hct : decode_ct ct = Ok (C1, C2)).
  { unfold decode_ct. by rewrite HA, bind_Ok, HB, bind_Ok. }
  exists C1, C2, cs. split_and!; [done|done| |].
  - apply bind_Ok_inv in He as (t & _ & He). destruct (dkg_public_key_share (k_dkg k)); [|done].
    apply bind_Ok_inv in He as ([[e z] t'] & _ & He). apply bind_Ok_inv in He as (sb & Hsb & He).
    by apply bind_Ok_inv in He as (pf & _ & <-%Ok_inj).
  - intros Hps.
    apply (decryption_entry_accepted k eid j ct w entry cs (pt_to_compressed G2ops (mul G2 cs)) C1 C2);
      [done|done|done|]. unfold g2_from_compressed. apply from_to_compressed. solve_subgroup.
Qed.

(** Recovery accepts the entries of a keyper that holds its combined secret, and
    uses its partial decryptions. *)
Lemma honest_entries_count (k : KeyperService) eid cts rng es config pks cs pk j ct C1 C2 :
  mapM (λ '(j, ct), decryption_entry k eid j ct (rng j)) (imap pair cts) = Ok es → holds_share k cs →
  election_id config = eid → 1 <= k_index k <= len pks → pks !! Z.to_nat (k_index k - 1) = Some pk →
  g2_from_compressed pk = Ok (mul G2 cs) → cts !! j = Some ct → decode_ct ct = Ok (C1, C2) →
  check_share config pks j C1 C2 (mkDecryptionShareEnvelope eid (k_index k) es) = Ok (Some (k_index k, mul C1 cs)).
Proof.
  intros Hes%mapM_Ok Hk Hid Hi Hpk Hpt Hj Hct.
  destruct (Forall2_lookup_l _ _ _ j (j, ct) Hes) as (entry & Hentry & He);
    [by rewrite list_lookup_imap, Hj|]. subst eid.
  destruct (decryption_entry_accepted k _ j ct _ entry cs pk C1 C2 Hk He Hct Hpt) as (Hd & t & t' & Ht & Hv).
  unfold check_share. cbn [entries keyper_index]. rewrite Hentry.
  replace ((1 <=? k_index k) && (k_index k <=? len pks)) with true by lia. cbn [negb].
  by rewrite Hpk, Hd, Ht, bind_Ok, Hv, bind_Ok.
Qed.

Context {store : Type} `{DataLayer store}.

(** C19: A keyper decrypts only what it should: if it produces a share then,
    as the data layer reports, the election is not cancelled, voting has ended
    or a result is already public, a key is finalized, a canonical aggregate
    exists, and the keyper had not submitted a share before.  The share is under
    the keyper's own index and signed with its key, and it has one entry per
    ciphertext of the canonical aggregate: the first component of that ciphertext
    raised to the keyper's combined share, with a proof that verifies for that
    ciphertext and candidate against the matching public share. *)
Theorem keyper_decrypts_only_after_close (k : KeyperService) (s : store) now eid rng share sig :
  produce_decryption_share k s now eid rng = Ok (Some (share, sig)) →
  ∃ rec res agg shares, dl_get_election s eid = Ok rec ∧ dl_get_result s eid = Ok res
    ∧ rec_cancelled rec = false ∧ is_Some (rec_finalized_key rec)
    ∧ (is_Some res ∨ voting_end (rec_config rec) <= now)
    ∧ dl_get_aggregate s eid = Ok (Some agg)
    ∧ dl_list_decryption_shares s eid = Ok shares ∧ k_index k ∉ keyper_index <$> shares
    ∧ share_election_id share = eid ∧ keyper_index share = k_index k
    ∧ sign_decryption_share (private_key (k_signer k)) eid (share_payload share).1 (share_payload share).2 = Ok sig
    ∧ length (entries share) = length (aggregates agg)
    ∧ ∀ j entry, entries share !! j = Some entry →
        ∃ ct C1 C2 cs, aggregates agg !! j = Some ct ∧ decode_ct ct = Ok (C1, C2)
          ∧ dkg_combined_share (k_dkg k) = Some cs ∧ g2_to_compressed (mul C1 cs) = Ok (sigma entry)
          ∧ (dkg_public_key_share (k_dkg k) = Some (mul G2 cs) →
             ∃ t t', make_decrypt_transcript eid (Z.of_nat j) = Ok t
               ∧ verify_decryption_share C1 C2 (mul G2 cs) (mul C1 cs) (from_bytes_be (take 32 (proof entry)))
                   (from_bytes_be (drop 32 (proof entry))) (k_index k) t = Ok (true, t')).
Proof.
  unfold produce_decryption_share. intros Hp. apply bind_Ok_inv in Hp as (rec & Hrec & Hp).
  apply bind_Ok_inv in Hp as (res & Hres & Hp).
  apply bind_Ok_inv in Hp as ([] & Ht%raise_if_Ok%negb_false_iff & Hp).
  apply bind_Ok_inv in Hp as ([] & Hk%raise_if_Ok%bool_decide_eq_false & Hp).
  apply bind_Ok_inv in Hp as ([agg|] & Hagg & Hp); [|done].
  apply bind_Ok_inv in Hp as (shares & Hsh & Hp). case_bool_decide as Hmine; [done|].
  apply bind_Ok_inv in Hp as (es & Hes%mapM_Ok & Hp). destruct (share_payload _) as [sigmas dleqs] eqn:Hpay.
  apply bind_Ok_inv in Hp as (sg & Hsg & [= <- <-]). rewrite Hpay.
  apply tallying_facts in Ht as [Hc Ht]. cbn in Hc, Ht.
  exists rec, res, agg, shares. split_and!; try done.
  - by apply not_eq_None_Some.
  - destruct Ht as [Ht%bool_decide_eq_true|[_ Ht]]; auto.
  - intros (sh & Hi & Hin)%list_elem_of_fmap.
    assert (Hin' : sh ∈ filter (λ sh, keyper_index sh = k_index k) shares) by by apply list_elem_of_filter.
    rewrite Hmine in Hin'. by apply not_elem_of_nil in Hin'.
  - cbn. apply Forall2_length in Hes. by rewrite length_imap in Hes.
  - cbn [entries]. intros j entry Hj. destruct (Forall2_lookup_r _ _ _ j entry Hes Hj) as ([j' ct] & Hct & He).
    rewrite list_lookup_imap in Hct. destruct (aggregates agg !! j) as [ct'|]; [|done]. injection Hct as <- <-.
    destruct (decryption_entry_opens _ _ _ _ _ _ He) as (C1 & C2 & cs & Hdec & Hcs & Hsig & Hver).
    by exists ct', C1, C2, cs.
Qed.

(** The share of a keyper that holds its combined secret is counted: for
    every candidate, recovery against the committee's public shares accepts the
    keyper's entry and uses exactly the partial decryption under that secret. *)
Theorem honest_share_counts (k : KeyperService) (s : store) now eid rng share sig agg config pks cs pk j ct C1 C2 :
  produce_decryption_share k s now eid rng = Ok (Some (share, sig)) → holds_share k cs →
  dl_get_aggregate s eid = Ok (Some agg) → election_id config = eid →
  1 <= k_index k <= len pks → pks !! Z.to_nat (k_index k - 1) = Some pk →
  g2_from_compressed pk = Ok (mul G2 cs) →
  aggregates agg !! j = Some ct → decode_ct ct = Ok (C1, C2) →
  check_share config pks j C1 C2 share = Ok (Some (k_index k, mul C1 cs)).
Proof.
  intros Hp Hk Hagg Hid Hi Hpk Hpt Hj Hct. unfold produce_decryption_share in Hp.
  apply bind_Ok_inv in Hp as (rec & _ & Hp). apply bind_Ok_inv in Hp as (res & _ & Hp).
  apply bind_Ok_inv in Hp as ([] & _ & Hp). apply bind_Ok_inv in Hp as ([] & _ & Hp).
  rewrite Hagg, bind_Ok in Hp. apply bind_Ok_inv in Hp as (shares & _ & Hp). case_bool_decide; [done|].
  apply bind_Ok_inv in Hp as (es & Hes & Hp). destruct (share_payload _) as [sigmas dleqs].
  apply bind_Ok_inv in Hp as (sg & _ & [= <- <-]). by eapply honest_entries_count.
Qed.

End shares.
