(* ===== verification/Tally.v ===== *)
(** The tally over the in-memory store: honest keypers agree on the aggregate
    and a quorum of them makes it canonical; finalizing publishes what recovery
    computes.  A complete election is run at the end. *)

From S2P Require Import Prelude Params Primality Field Points Transcript Elgamal Proofs Recovery Dkg Types Config Schnorr Ballot Admission Aggregation Codecs WriteAuth Quorum DataLayer DataLayerSafety Port Gateway Keyper.

Section tally.
Context `{Crypto} `{EthAccount} `{Abi} (float_repr : Z → Z → string).
#[local] Instance layer : DataLayer InMemoryDataLayer := memory_layer float_repr.

(** * The canonical aggregate *)

(** The keypers whose aggregate has this digest. *)
Definition agg_backers (eid : bytes) (d : dict Z AggregateArtifact) (k : bytes) : gset Z :=
  list_to_set (filter (λ e, aggregate_digest_of eid e.2 = Ok k) d).*1.

Lemma elem_of_agg_backers eid d k i :
  i ∈ agg_backers eid d k ↔ ∃ a, (i, a) ∈ d ∧ aggregate_digest_of eid a = Ok k.
Proof.
  unfold agg_backers. rewrite elem_of_list_to_set, list_elem_of_fmap. split.
  - intros ([i' a] & -> & [Hk Hin]%list_elem_of_filter). eauto.
  - intros (a & Hin & Hk). exists (i, a). split; [done|]. by apply list_elem_of_filter.
Qed.

Lemma agg_supporters eid d votes k : agg_votes eid d = Ok votes → supporters votes k = agg_backers eid d k.
Proof.
  intros Hv%mapM_Ok. apply set_eq. intros i. rewrite elem_of_supporters, elem_of_agg_backers. split.
  - intros [a (n & Hn)%list_elem_of_lookup].
    destruct (Forall2_lookup_r _ _ _ n _ Hv Hn) as ([i' a'] & Hd & Hvote).
    unfold agg_vote in Hvote. apply bind_Ok_inv in Hvote as (k' & Hk' & [= -> -> ->]).
    exists a. split; [by eapply list_elem_of_lookup_2|done].
  - intros (a & (n & Hn)%list_elem_of_lookup & Hk).
    destruct (Forall2_lookup_l _ _ _ n _ Hv Hn) as (v & Hvn & Hvote).
    unfold agg_vote in Hvote. cbn [fst snd] in Hvote. rewrite Hk, bind_Ok in Hvote.
    apply Ok_inj in Hvote as <-. exists a. by eapply list_elem_of_lookup_2.
Qed.

Section stored.
Context (eid : bytes) (st : _Stored) (Hok : stored_core eid st).
Let needed := quorum (threshold (st_config st)).

Lemma aggregate_of_spec : ∃ o, aggregate_of st = Ok o ∧
  match o with
  | Some a => ∃ k, aggregate_digest_of eid a = Ok k
      ∧ needed <= Z.of_nat (size (agg_backers eid (st_aggregate_by_keyper st) k))
  | None => ∀ k, Z.of_nat (size (agg_backers eid (st_aggregate_by_keyper st) k)) < needed
  end.
Proof.
  destruct (stored_majority eid st Hok) as (Hn & Hq & Hm).
  destruct (agg_votes_Ok eid st Hok) as (votes & E & _ & Hc).
  destruct (resolve_group _ _ Hn Hq Hm _ Hc) as (o & Ho & Hw). exists o. split.
  - unfold aggregate_of. by rewrite (ok_id _ _ Hok), agg_groups_group, E, !bind_Ok.
  - destruct o as [a|].
    + destruct Hw as (k & Hv & Hk). exists k. rewrite <- (agg_supporters _ _ _ _ E). split; [|done].
      apply first_value_elem in Hv as (i & Hin). apply mapM_Ok in E.
      apply list_elem_of_lookup in Hin as [n Hn'].
      destruct (Forall2_lookup_r _ _ _ n _ E Hn') as ([i' a'] & _ & Hvote).
      unfold agg_vote in Hvote. by apply bind_Ok_inv in Hvote as (k' & Hk' & [= -> -> ->]).
    + intros k. rewrite <- (agg_supporters _ _ _ _ E). apply Hw.
Qed.

(** The canonical aggregate is one that was submitted. *)
Lemma aggregate_of_recorded a : aggregate_of st = Ok (Some a) → ∃ i, (i, a) ∈ st_aggregate_by_keyper st.
Proof.
  intros Ha. destruct (stored_majority eid st Hok) as (Hn & Hq & Hm).
  destruct (agg_votes_Ok eid st Hok) as (votes & E & _ & Hc).
  destruct (resolve_group _ _ Hn Hq Hm _ Hc) as (o & Ho & Hw).
  unfold aggregate_of in Ha. rewrite (ok_id _ _ Hok), agg_groups_group, E, !bind_Ok, Ho in Ha. injection Ha as ->.
  destruct Hw as (k & (i & Hin)%first_value_elem & _). apply mapM_Ok in E.
  apply list_elem_of_lookup in Hin as [n Hin].
  destruct (Forall2_lookup_r _ _ _ n _ E Hin) as ([i' a'] & Hd & Hvote).
  unfold agg_vote in Hvote. apply bind_Ok_inv in Hvote as (k' & _ & [= -> _ ->]).
  exists i. by eapply list_elem_of_lookup_2.
Qed.

End stored.

(** * Honest keypers *)

(** What a keyper reads of the election. *)
Definition same_inputs (st st' : _Stored) : Prop :=
  st_config st' = st_config st ∧ st_cancelled st' = st_cancelled st
  ∧ st_dkg_by_keyper st' = st_dkg_by_keyper st ∧ st_ballots st' = st_ballots st ∧ st_result st' = st_result st
  ∧ st_shares_by_keyper st' = st_shares_by_keyper st.

(** The artifact every honest keyper computes. *)
Definition aggregate_artifact (st : _Stored) (fk : FinalizedKey) : result AggregateArtifact :=
  admission ← admit_ballots (st_ballots st) (st_config st) (pk_election fk);
  build_aggregate_artifact (st_config st) admission.

Definition open_for_tally (st : _Stored) (fk : FinalizedKey) (now : Z) : Prop :=
  _finalized_key_of st = Ok (Some fk) ∧
  tallying (derive_state (st_config st)
    (mkStateFacts (st_cancelled st) true (bool_decide (is_Some (st_result st))) false) now) = true.

Lemma produce_aggregate_memory (k : KeyperService) m eid st fk now a sig : mem_ok m → _get m eid = Ok st →
  open_for_tally st fk now → aggregate_artifact st fk = Ok a →
  sign_aggregate (private_key (k_signer k)) eid a = Ok sig →
  produce_aggregate k m now eid = Ok (a, sig).
Proof.
  intros Hm Hst [Hfk Ht] Ha Hsig. unfold produce_aggregate, check_can_aggregate.
  cbn [dl_get_election dl_get_result layer memory_layer]. unfold get_election, get_finalized_key, get_result.
  rewrite !Hst, !bind_Ok, Hfk, !bind_Ok. unfold state_facts. cbn [rec_cancelled rec_finalized_key rec_config].
  rewrite (bool_decide_eq_true_2 (is_Some (Some fk))) by by eexists. rewrite Ht. cbn [negb raise_if].
  rewrite (bool_decide_eq_false_2 (Some fk = None)) by done. cbn [raise_if]. rewrite !bind_Ok.
  cbn [rec_finalized_key rec_config].
  rewrite (read_all_serves m eid (st_ballots st)) by by apply memory_serves. rewrite bind_Ok.
  unfold aggregate_artifact in Ha. apply bind_Ok_inv in Ha as (adm & -> & Ha).
  by rewrite bind_Ok, Ha, bind_Ok, Hsig, bind_Ok.
Qed.

(** The keyper signs as committee member [i]. *)
Definition acts_as (c : ElectionConfig) (k : KeyperService) (i : Z) : Prop :=
  ∃ sk, from_sk sk = Ok (k_signer k) ∧ find_keyper (keypers c) 1 (identity (k_signer k)) = Ok i.

Context `{!EthAccountLaws}.

Lemma acts_as_recovers c k i d sig : acts_as c k i → sign_digest (private_key (k_signer k)) d = Ok sig →
  _keyper_index_by_recovery c d sig = Ok i.
Proof.
  intros (sk & Hs & Hf) Hsig. destruct (from_sk_key _ _ Hs) as [Hp Hk]. rewrite Hp in Hsig.
  unfold _keyper_index_by_recovery. rewrite (sign_digest_recover sk d sig _ Hk Hsig). exact Hf.
Qed.

Lemma sign_aggregate_digest sk eid a sig d : aggregate_digest_of eid a = Ok d →
  sign_aggregate sk eid a = Ok sig → sign_digest sk d = Ok sig.
Proof. intros Hd Hs. unfold sign_aggregate in Hs. by rewrite Hd, bind_Ok in Hs. Qed.

Section quorum.
Context (eid : bytes) (st0 : _Stored) (fk : FinalizedKey) (a : AggregateArtifact) (d : bytes).
Context (Ha : aggregate_artifact st0 fk = Ok a) (Hd : aggregate_digest_of eid a = Ok d).

(** A call by an honest committee member at the right time. *)
Definition honest_call (c : keyper_call) (i : Z) : Prop :=
  acts_as (st_config st0) (call_keyper c) i ∧ open_for_tally st0 fk (call_now c)
  ∧ voting_end (st_config st0) <= call_now' c
  ∧ is_ok (sign_aggregate (private_key (k_signer (call_keyper c))) eid a) = true.

(** Only [a] was added to the record. *)
Definition grown (st : _Stored) : Prop := ∀ i x, (i, x) ∈ st_aggregate_by_keyper st →
  (i, x) ∈ st_aggregate_by_keyper st0 ∨ x = a.

(** Either the aggregate is canonical, or the calls so far are on record. *)
Definition progress (st : _Stored) (done_ : list Z) : Prop :=
  grown st ∧ ((∃ a', aggregate_of st = Ok (Some a') ∧ aggregate_digest_of eid a' = Ok d)
  ∨ aggregate_of st = Ok None ∧ ∀ i, i ∈ done_ → dict_get (st_aggregate_by_keyper st) i = Some a).

Lemma override_shrinks st i k : NoDup (dict_keys (st_aggregate_by_keyper st)) → k ≠ d →
  agg_backers eid (dict_set (st_aggregate_by_keyper st) i a) k
  ⊆ agg_backers eid (st_aggregate_by_keyper st) k.
Proof.
  intros _ Hk j (a' & [[= -> ->]|Hin]%elem_dict_set & Hk')%elem_of_agg_backers; [congruence|].
  apply elem_of_agg_backers. eauto.
Qed.

Lemma aggregate_write_progress m st i l : mem_ok m → mem_ok (put m eid (set_aggregates st
    (dict_set (st_aggregate_by_keyper st) i a))) → dict_get (_elections m) eid = Some st →
  aggregate_of st = Ok None → progress st l →
  progress (set_aggregates st (dict_set (st_aggregate_by_keyper st) i a)) (i :: l).
Proof.
  intros Hm Hm' Hst Hnone Hp. set (st' := set_aggregates st _) in *.
  assert (Hgrown : grown st').
  { intros j x [[= -> ->]|Hin]%elem_dict_set; [by right|]. by apply Hp. }
  pose proof (ok_core _ _ (mem_stored _ Hm _ _ Hst)) as Hok.
  assert (Hok' : stored_core eid st').
  { apply ok_core, (mem_stored _ Hm'). cbn. by rewrite dict_get_set, decide_True. }
  destruct (aggregate_of_spec eid st Hok) as (o & Ho & Hs). rewrite Hnone in Ho. injection Ho as <-.
  destruct (aggregate_of_spec eid st' Hok') as ([a'|] & Ho' & Hs').
  - split; [done|]. left. exists a'. split; [done|]. destruct Hs' as (k & Hk & Hsize).
    destruct (decide (k = d)) as [->|Hne]; [done|]. exfalso. specialize (Hs k).
    pose proof (subseteq_size _ _ (override_shrinks st i k (ok_agg_keys _ _ Hok) Hne)) as Hle.
    apply inj_le in Hle. unfold st' in Hsize. cbn [set_aggregates st_aggregate_by_keyper st_config] in Hsize. lia.
  - split; [done|]. right. split; [done|]. intros j Hj. unfold st'. cbn [set_aggregates st_aggregate_by_keyper].
    rewrite dict_get_set. case_decide as E; [done|].
    destruct Hp as [_ [(a' & Ha' & _)|[_ Hp]]]; [congruence|]. apply Hp. by apply elem_of_cons in Hj as [?|].
Qed.

Lemma honest_call_step c i m st l : mem_ok m → dict_get (_elections m) eid = Some st →
  same_inputs st0 st → progress st l → honest_call c i →
  let m' := try_or (aggregate_and_submit (call_keyper c) m (call_now c) (call_now' c) eid) m in
  ∃ st', mem_ok m' ∧ dict_get (_elections m') eid = Some st' ∧ same_inputs st0 st' ∧ progress st' (i :: l).
Proof.
  intros Hm Hst Hin Hp (Hact & Hopen & Hend & Hsig) m'.
  pose proof (ok_core _ _ (mem_stored _ Hm _ _ Hst)) as Hok.
  destruct (sign_aggregate _ eid a) as [sig|] eqn:Esig; [|done].
  destruct Hin as (Hc & Hcan & Hdkg & Hb & Hr & Hsh).
  assert (Hprod : produce_aggregate (call_keyper c) m (call_now c) eid = Ok (a, sig)).
  { apply (produce_aggregate_memory _ m eid st fk); [done|by apply get_Ok| | |done].
    - destruct Hopen as [Hf Ht]. split; [|by rewrite Hc, Hcan, Hr].
      unfold _finalized_key_of in *. by rewrite Hdkg, Hc.
    - unfold aggregate_artifact in *. by rewrite Hb, Hc. }
  assert (Hidx : _keyper_index_by_recovery (st_config st) d sig = Ok i).
  { rewrite Hc. eapply acts_as_recovers; [done|]. by eapply sign_aggregate_digest. }
  assert (Hstay : m' = m → progress st (i :: l) → ∃ st', mem_ok m' ∧ dict_get (_elections m') eid = Some st'
    ∧ same_inputs st0 st' ∧ progress st' (i :: l)) by (intros ->; exists st; by split_and!).
  unfold m', aggregate_and_submit in *. rewrite Hprod, bind_Ok in *.
  cbn [dl_submit_aggregate layer memory_layer] in *.
  destruct (submit_aggregate m (call_now' c) eid a sig) as [m1|e] eqn:Esub.
  - pose proof (aggregate_effect _ _ _ _ _ _ Hm Esub) as Heff. unfold submit_aggregate in Esub.
    rewrite (proj2 (get_Ok m eid st) Hst), bind_Ok in Esub. apply bind_Ok_inv in Esub as ([] & _ & Esub).
    rewrite Hd, bind_Ok, Hidx, bind_Ok in Esub. case_bool_decide as He.
    + apply Ok_inj in Esub as <-. apply Hstay; [done|]. destruct Hp as [Hg [Hp|[Hn Hp]]]; (split; [done|]); [by left|]. right.
      split; [done|]. intros j [->|Hj]%elem_of_cons; [done|by apply Hp].
    + apply bind_Ok_inv in Esub as (b & Hf & Esub). apply bind_Ok_inv in Esub as ([] & ->%raise_if_Ok & <-%Ok_inj).
      eapply aggregate_finalized_Ok in Hf as (o & Ho & Hn); [|by apply get_Ok|apply Hok].
      symmetry in Hn. apply bool_decide_eq_false, eq_None_not_Some in Hn as ->.
      pose proof (effect_ok float_repr _ _ Hm Heff) as Hm1.
      eexists. split; [done|]. split; [cbn; by rewrite dict_get_set, decide_True|]. split; [done|].
      by apply (aggregate_write_progress m).
  - apply Hstay; [done|]. destruct Hp as [Hg [Hp|[Hn Hp]]]; [by split; [|left]|]. exfalso.
    unfold submit_aggregate in Esub. rewrite (proj2 (get_Ok m eid st) Hst), bind_Ok in Esub.
    replace (call_now' c <? voting_end (st_config st)) with false in Esub by (rewrite Hc; lia).
    cbn [raise_if] in Esub. rewrite bind_Ok, Hd, bind_Ok, Hidx, bind_Ok in Esub. case_bool_decide; [done|].
    unfold _aggregate_finalized in Esub. rewrite (ok_id _ _ Hok) in Esub.
    rewrite (get_aggregate_of m eid st), Hn in Esub; [done|by apply get_Ok|apply Hok].
Qed.

Lemma honest_calls calls idxs m st l : Forall2 honest_call calls idxs → mem_ok m →
  dict_get (_elections m) eid = Some st → same_inputs st0 st → progress st l →
  ∃ st', mem_ok (trigger_aggregate m calls eid)
    ∧ dict_get (_elections (trigger_aggregate m calls eid)) eid = Some st'
    ∧ same_inputs st0 st' ∧ progress st' (reverse idxs ++ l).
Proof.
  intros Hc. unfold trigger_aggregate. revert m st l.
  induction Hc as [|c i calls idxs Hci _ IH]; intros m st l Hm Hst Hin Hp; cbn [foldl].
  - exists st. by split_and!.
  - destruct (honest_call_step c i m st l Hm Hst Hin Hp Hci) as (st1 & Hm1 & Hst1 & Hin1 & Hp1).
    destruct (IH _ _ _ Hm1 Hst1 Hin1 Hp1) as (st' & Hm' & Hst' & Hin' & Hp').
    exists st'. split_and!; try done. rewrite reverse_cons, <- app_assoc. exact Hp'.
Qed.

End quorum.

(** * Properties *)

Context `{!AbiLaws}.

(** The texts that are hashed when these aggregates are signed. *)
Definition aggregate_texts (eid : bytes) (l : list AggregateArtifact) : list bytes :=
  omap (λ a, match aggregate_preimage_of eid a with Ok p => Some p | Err _ => None end) l.

Lemma elem_of_aggregate_texts eid a l p : a ∈ l → aggregate_preimage_of eid a = Ok p → p ∈ aggregate_texts eid l.
Proof. intros Ha Hp. apply list_elem_of_omap. exists a. by rewrite Hp. Qed.

Lemma aggregate_digest_binds eid l a a' d : coll_free (aggregate_texts eid l) → a ∈ l → a' ∈ l →
  aggregate_digest_of eid a = Ok d → aggregate_digest_of eid a' = Ok d →
  _aggregate_fields a = _aggregate_fields a'.
Proof.
  intros Hc Hin Hin' Hd Hd'.
  rewrite (write_digest_hashes float_repr (WAggregate eid a) : aggregate_digest_of eid a = _) in Hd.
  rewrite (write_digest_hashes float_repr (WAggregate eid a') : aggregate_digest_of eid a' = _) in Hd'.
  apply bind_Ok_inv in Hd as (p & Hp & <-%Ok_inj). apply bind_Ok_inv in Hd' as (p' & Hp' & Hk%Ok_inj).
  apply (coll_free_eq _ _ _ Hc) in Hk as ->;
    [|by apply (elem_of_aggregate_texts _ a')|by apply (elem_of_aggregate_texts _ a)].
  by eapply aggregate_preimage_inj.
Qed.

(** After a quorum of honest calls there is a canonical aggregate with the
    fields of the re-derived one. *)
Lemma honest_quorum_agrees m eid st fk a d calls idxs : mem_ok m → len eid = 32 →
  _get m eid = Ok st → aggregate_of st = Ok None →
  aggregate_artifact st fk = Ok a → aggregate_digest_of eid a = Ok d →
  Forall2 (honest_call eid st fk a) calls idxs →
  quorum (threshold (st_config st)) <= Z.of_nat (size (list_to_set idxs : gset Z)) →
  coll_free (aggregate_texts eid (a :: (st_aggregate_by_keyper st).*2)) →
  ∃ st' a', mem_ok (trigger_aggregate m calls eid) ∧ _get (trigger_aggregate m calls eid) eid = Ok st'
    ∧ same_inputs st st' ∧ grown st a st' ∧ aggregate_of st' = Ok (Some a')
    ∧ _aggregate_fields a' = _aggregate_fields a.
Proof.
  intros Hm Hlen Hst%get_Ok Hnone Ha Hd Hcalls Hq Hcf.
  assert (Hp0 : progress eid st a d st []).
  { split; [by left|]. right. split; [done|]. by intros i ?%not_elem_of_nil. }
  destruct (honest_calls eid st fk a d Ha Hd calls idxs m st [] Hcalls Hm Hst) as (st' & Hm' & Hst' & Hin & Hg & Hp);
    [by split_and!|done|].
  pose proof (ok_core _ _ (mem_stored _ Hm' _ _ Hst')) as Hok. clear Hcalls Hp0.
  assert (∃ a', aggregate_of st' = Ok (Some a') ∧ aggregate_digest_of eid a' = Ok d) as (a' & Ha' & Hd').
  { destruct Hp as [Hp|[Hn Hp]]; [done|]. exfalso.
    destruct (aggregate_of_spec eid st' Hok) as (o & Ho & Hs). rewrite Hn in Ho. injection Ho as <-.
    specialize (Hs d). destruct Hin as (Hc & _). rewrite Hc in Hs.
    assert (Hsub : (list_to_set idxs : gset Z) ⊆ agg_backers eid (st_aggregate_by_keyper st') d).
    { intros i Hi%elem_of_list_to_set. apply elem_of_agg_backers. exists a. split; [|done].
      apply dict_get_elem, Hp, elem_of_app. left. by apply elem_of_reverse. }
    apply subseteq_size, inj_le in Hsub. lia. }
  exists st', a'. split_and!; try done; [by apply get_Ok|].
  destruct (aggregate_of_recorded eid st' Hok a' Ha') as (i & Hi%Hg).
  eapply (aggregate_digest_binds _ _ _ _ _ Hcf); [|by left|done..].
  destruct Hi as [Hi| ->]; [right|by left]. apply list_elem_of_fmap. by exists (i, a').
Qed.

(** Honest keypers converge: when voting has closed and no aggregate is
    canonical, triggering keypers that form a quorum makes an aggregate
    canonical, whatever other aggregates are on record; its ciphertexts,
    admitted set, exclusions and totals are those of the deterministic
    re-derivation, if the texts signed for it and for the aggregates on record
    do not collide under Keccak. *)
Theorem honest_quorum_aggregates m eid st fk a d calls idxs : reachable float_repr m → len eid = 32 →
  _get m eid = Ok st → aggregate_of st = Ok None →
  aggregate_artifact st fk = Ok a → aggregate_digest_of eid a = Ok d →
  Forall2 (honest_call eid st fk a) calls idxs →
  quorum (threshold (st_config st)) <= Z.of_nat (size (list_to_set idxs : gset Z)) →
  coll_free (aggregate_texts eid (a :: (st_aggregate_by_keyper st).*2)) →
  ∃ a', get_aggregate (trigger_aggregate m calls eid) eid = Ok (Some a')
    ∧ _aggregate_fields a' = _aggregate_fields a.
Proof.
  intros Hm%reachable_ok Hlen Hst Hnone Ha Hd Hcalls Hq Hcf.
  destruct (honest_quorum_agrees m eid st fk a d calls idxs) as (st' & a' & Hm' & Hst' & _ & _ & Ha' & Hf); try done.
  exists a'. split; [|done]. rewrite (get_aggregate_of _ eid st'); [done..|].
  by apply (ok_core _ _ (mem_stored _ Hm' _ _ (proj1 (get_Ok _ _ _) Hst'))).
Qed.

(** C18: Finalizing publishes what recovery computes: if it returns a result
    for an election that has none, voting has ended on a live election with a
    finalized key, the result is the one recovered from the canonical aggregate
    and the stored shares under the committee's threshold, and every later
    store serves that same result. *)
Theorem finalize_publishes_recovery m eid publisher now m' r st : reachable float_repr m →
  _get m eid = Ok st → st_result st = None →
  finalize m eid publisher now = Ok (m', Some r) →
  st_cancelled st = false ∧ voting_end (st_config st) <= now
  ∧ (∃ agg fk, aggregate_of st = Ok (Some agg) ∧ _finalized_key_of st = Ok (Some fk)
      ∧ recover_result (st_config st) agg (sorted_values (st_shares_by_keyper st)) (committee_pks fk)
          (quorum (threshold (st_config st))) None = Ok (Some r))
  ∧ ∀ m'', rtc (step float_repr) m' m'' → get_result m'' eid = Ok (Some r).
Proof.
  intros Hm%reachable_ok Hst Hres Hf. pose proof (proj1 (get_Ok m eid st) Hst) as Hst0.
  pose proof (ok_core _ _ (mem_stored _ Hm _ _ Hst0)) as Hok.
  unfold finalize, _state in Hf. apply bind_Ok_inv in Hf as ([rec state] & Hs & Hf).
  apply bind_Ok_inv in Hs as (rec' & Hrec & Hs). apply bind_Ok_inv in Hs as (res & Hr & [= -> <-]).
  cbn [dl_get_election dl_get_result dl_get_aggregate dl_list_decryption_shares dl_publish_result layer memory_layer] in *.
  unfold get_election in Hrec. rewrite Hst, bind_Ok in Hrec. apply bind_Ok_inv in Hrec as (ofk & Hfk & <-%Ok_inj).
  unfold get_result in Hr. rewrite Hst, bind_Ok, Hres in Hr. apply Ok_inj in Hr as <-.
  unfold state_facts in Hf. cbn [rec_cancelled rec_finalized_key rec_config] in Hf.
  set (state := derive_state _ _ _) in *.
  case_bool_decide as Hstate.
  { exfalso. unfold state, derive_state in Hstate. cbn in Hstate. repeat case_match; done. }
  apply bind_Ok_inv in Hf as ([] & Htl%raise_if_Ok%negb_false_iff%bool_decide_eq_true & Hf).
  assert (Htal : tallying state = true) by (unfold tallying; by rewrite Htl).
  apply tallying_facts in Htal as [Hcan [Hpub|[Hkey Hend]]]; [done|]. cbn in Hcan.
  rewrite (get_aggregate_of m eid st Hst (ok_id _ _ Hok)) in Hf.
  apply bind_Ok_inv in Hf as ([agg|] & Hagg & Hf); [|done]. destruct ofk as [fk|]; [|done].
  unfold list_decryption_shares in Hf. rewrite Hst, !bind_Ok in Hf.
  apply bind_Ok_inv in Hf as ([r'|] & Hrec & Hf); [|done].
  apply bind_Ok_inv in Hf as (payload & Hpay & Hf). apply bind_Ok_inv in Hf as (sig & _ & Hf).
  apply bind_Ok_inv in Hf as (m1 & Hpublish & [= -> ->]).
  split_and!; [done|done|exists agg, fk; split_and!; try done|].
  { unfold get_finalized_key in Hfk. by rewrite Hst, bind_Ok in Hfk. }
  intros m'' Hsteps.
  assert (Hm1 : mem_ok m') by (eapply (effect_ok float_repr); [done|]; eapply (step_effect float_repr); [done|]; by eapply step_result).
  unfold publish_result in Hpublish. rewrite Hst, bind_Ok, Hpay, bind_Ok, Hres in Hpublish.
  apply bind_Ok_inv in Hpublish as ([] & _ & <-%Ok_inj).
  assert (Hst1 : dict_get (_elections (put m eid (set_result st r))) eid = Some (set_result st r))
    by (cbn; by rewrite dict_get_set, decide_True).
  destruct (steps_extend float_repr _ _ _ _ Hm1 Hsteps Hst1) as (st2 & Hst2%get_Ok & Hext).
  unfold get_result. rewrite Hst2, bind_Ok. by rewrite (ext_result _ _ Hext r).
Qed.

End tally.

(** The harness only takes steps of the store. *)
Section harness.
Context `{Crypto} `{EthAccount} `{Abi} (float_repr : Z → Z → string).
#[local] Instance harness_layer : DataLayer InMemoryDataLayer := memory_layer float_repr.

Lemma trigger_aggregate_steps calls m eid : rtc (step float_repr) m (trigger_aggregate m calls eid).
Proof.
  unfold trigger_aggregate. revert m. induction calls as [|c calls IH]; intros m; [done|]. cbn [foldl].
  etransitivity; [|apply IH]. unfold aggregate_and_submit.
  destruct (produce_aggregate _ _ _ _) as [[a sig]|]; [|done]. rewrite bind_Ok.
  cbn [dl_submit_aggregate harness_layer memory_layer].
  destruct (submit_aggregate _ _ _ _ _) eqn:E; [|done]. by eapply rtc_once, step_aggregate.
Qed.

Lemma trigger_keypers_steps calls m eid : rtc (step float_repr) m (trigger_keypers m calls eid).
Proof.
  unfold trigger_keypers. revert m. induction calls as [|c calls IH]; intros m; [done|]. cbn [foldl].
  etransitivity; [|apply IH]. unfold decrypt_and_submit.
  destruct (produce_decryption_share _ _ _ _ _) as [[[sh sig]|]|]; [|done|done]. rewrite bind_Ok.
  cbn [dl_submit_decryption_share harness_layer memory_layer].
  destruct (submit_decryption_share _ _ _ _ _) eqn:E; [|done]. by eapply rtc_once, step_share.
Qed.

End harness.

(** * A complete election *)

Module election_example.
Import prefix_abi naming_account gateway_example.
#[local] Existing Instance concrete_crypto.
#[local] Instance layer : DataLayer InMemoryDataLayer := memory_layer float_text.

(** Keyper [i] holds the share 5 + 3i and signs with the secret [i]. *)
Definition keyper (i : Z) : KeyperService :=
  mkKeyperService i (mkSigner (be_bytes 32 i))
    (mkKeyperDKGState (Some i) (Some 3) (Some 2) None None [] (Some (5 + 3 * i)) (Some (mul G2 (5 + 3 * i)))).
Definition call (i now : Z) : keyper_call := mkCall (keyper i) now (now + 1) (λ j, 20 + i + Z.of_nat j).
Definition publisher : Signer := mkSigner (be_bytes 32 8).

Definition fk : FinalizedKey := mkFinalizedKey pk pks.
Definition artifact : AggregateArtifact := Eval vm_compute in
  get_ok (mkAggregateArtifact [] [] [] [] 0 0) (aggregate_artifact st4 fk).
Definition artifact_digest : bytes := Eval vm_compute in get_ok [] (aggregate_digest_of eid artifact).

(** Keypers 1 and 3 submit the aggregate, then their shares. *)
Definition agg_sig (i : Z) : bytes := get_ok [] (sign_aggregate i eid artifact).
Definition m5a : InMemoryDataLayer := Eval vm_compute in
  get_ok m4 (submit_aggregate m4 211 eid artifact (agg_sig 1)).
Definition m5 : InMemoryDataLayer := Eval vm_compute in
  get_ok m4 (submit_aggregate m5a 212 eid artifact (agg_sig 3)).
Definition produced (i : Z) : option (DecryptionShareEnvelope * bytes) :=
  get_ok None (produce_decryption_share (keyper i) m5 221 eid (λ j, 20 + i + Z.of_nat j)).
Definition share1 : DecryptionShareEnvelope * bytes := Eval vm_compute in
  default (mkDecryptionShareEnvelope [] 0 [], []) (produced 1).
Definition share3 : DecryptionShareEnvelope * bytes := Eval vm_compute in
  default (mkDecryptionShareEnvelope [] 0 [], []) (produced 3).
Definition m6a : InMemoryDataLayer := Eval vm_compute in
  get_ok m5 (submit_decryption_share m5 221 eid share3.1 share3.2).
Definition m6 : InMemoryDataLayer := Eval vm_compute in
  get_ok m5 (submit_decryption_share m6a 222 eid share1.1 share1.2).
Definition published : ResultArtifact := mkResultArtifact eid [4; 3] [1; 3] 7.
Definition m7 : InMemoryDataLayer := Eval vm_compute in
  (get_ok (m0, None) (finalize m6 eid publisher 230)).1.

Lemma finalized : finalize m6 eid publisher 230 = Ok (m7, Some published).
Proof. vm_compute. reflexivity. Qed.

Lemma m5a_run : submit_aggregate m4 211 eid artifact (agg_sig 1) = Ok m5a.
Proof. vm_compute. reflexivity. Qed.
Lemma m5_run : submit_aggregate m5a 212 eid artifact (agg_sig 3) = Ok m5.
Proof. vm_compute. reflexivity. Qed.
Lemma m6a_run : submit_decryption_share m5 221 eid share3.1 share3.2 = Ok m6a.
Proof. vm_compute. reflexivity. Qed.
Lemma m6_run : submit_decryption_share m6a 222 eid share1.1 share1.2 = Ok m6.
Proof. vm_compute. reflexivity. Qed.
Lemma m6_reachable : reachable float_text m6.
Proof.
  unfold reachable. etransitivity; [apply m4_reachable|].
  eapply rtc_l; [eapply step_aggregate, m5a_run|]. eapply rtc_l; [eapply step_aggregate, m5_run|].
  eapply rtc_l; [eapply step_share, m6a_run|]. eapply rtc_once, step_share, m6_run.
Qed.

Definition st6 : _Stored := Eval vm_compute in get_ok (new_stored cfg) (_get m6 eid).
Lemma m6_get : _get m6 eid = Ok st6.
Proof. vm_compute. reflexivity. Qed.

Lemma artifact_built : aggregate_artifact st4 fk = Ok artifact.
Proof. vm_compute. reflexivity. Qed.

Lemma call_honest i now : acts_as (st_config st4) (keyper i) i →
  tallying (derive_state (st_config st4) (mkStateFacts (st_cancelled st4) true false false) now) = true →
  voting_end (st_config st4) <= now + 1 →
  is_ok (sign_aggregate (private_key (k_signer (keyper i))) eid artifact) = true →
  honest_call eid st4 fk artifact (call i now) i.
Proof.
  intros Ha Ht He Hs. split; [exact Ha|]. split; [|split; [exact He|exact Hs]].
  split; [vm_compute; reflexivity|exact Ht].
Qed.

Lemma keyper_acts i : from_sk i = Ok (mkSigner (be_bytes 32 i)) →
  find_keyper (keypers (st_config st4)) 1 (identity (mkSigner (be_bytes 32 i))) = Ok i →
  acts_as (st_config st4) (keyper i) i.
Proof. intros Hs Hf. exists i. split; [exact Hs|exact Hf]. Qed.

(** Keypers 1 and 3 make the re-derived aggregate canonical. *)
Lemma honest_quorum_aggregates_witness : ∃ a',
  get_aggregate (trigger_aggregate m4 [call 1 210; call 3 211] eid) eid = Ok (Some a')
  ∧ _aggregate_fields a' = _aggregate_fields artifact.
Proof.
  apply (honest_quorum_aggregates float_text m4 eid st4 fk artifact artifact_digest [call 1 210; call 3 211] [1; 3]
    m4_reachable).
  - vm_compute. reflexivity.
  - exact m4_get.
  - vm_compute. reflexivity.
  - exact artifact_built.
  - vm_compute. reflexivity.
  - apply Forall2_cons_2; [|apply Forall2_cons_2; [|apply Forall2_nil_2]].
    + apply call_honest; [apply keyper_acts; vm_compute; reflexivity|vm_compute; reflexivity
        |vm_compute; discriminate|vm_compute; reflexivity].
    + apply call_honest; [apply keyper_acts; vm_compute; reflexivity|vm_compute; reflexivity
        |vm_compute; discriminate|vm_compute; reflexivity].
  - vm_compute. discriminate.
  - apply (bool_decide_eq_true_1 _). vm_compute. reflexivity.
Defined.

(** The tally publishes 4 votes and 3 votes, and they stay published. *)
Lemma finalize_publishes_recovery_witness :
  voting_end (st_config st6) <= 230 ∧ get_result m7 eid = Ok (Some published).
Proof.
  destruct (finalize_publishes_recovery float_text m6 eid publisher 230 m7 published st6 m6_reachable m6_get
    ltac:(vm_compute; reflexivity) finalized) as (_ & He & _ & Hr).
  split; [exact He|]. apply Hr. apply rtc_refl.
Defined.

Lemma share1_produced :
  produce_decryption_share (keyper 1) m5 221 eid (λ j, 21 + Z.of_nat j) = Ok (Some (share1.1, share1.2)).
Proof. vm_compute. reflexivity. Qed.

(** Keyper 1's share has an entry for each of the two ciphertexts. *)
Lemma keyper_decrypts_only_after_close_witness :
  let c := concrete_crypto in
  ∃ agg, dl_get_aggregate m5 eid = Ok (Some agg) ∧ length (aggregates agg) = 2%nat
    ∧ ∀ j entry, entries share1.1 !! j = Some entry → ∃ ct C1 C2 cs, aggregates agg !! j = Some ct
        ∧ decode_ct ct = Ok (C1, C2) ∧ dkg_combined_share (k_dkg (keyper 1)) = Some cs
        ∧ g2_to_compressed (mul C1 cs) = Ok (sigma entry).
Proof.
  intros c.
  destruct (keyper_decrypts_only_after_close (keyper 1) m5 221 eid (λ j, 21 + Z.of_nat j) share1.1 share1.2
    share1_produced) as (rec & res & agg & shares & _ & _ & _ & _ & _ & Hagg & _ & _ & _ & _ & _ & Hl & Hes).
  exists agg. split; [exact Hagg|]. split; [rewrite <- Hl; vm_compute; reflexivity|].
  intros j entry Hj. destruct (Hes j entry Hj) as (ct & C1 & C2 & cs & H1 & H2 & H3 & H4 & _).
  exists ct, C1, C2, cs. split_and!; [exact H1|exact H2|exact H3|exact H4].
Defined.

Definition ct0 : WireCiphertext := Eval vm_compute in
  match aggregates artifact with ct :: _ => ct | [] => mkWireCiphertext [] [] end.
Definition ct0_points : Ciphertext := match decode_ct ct0 with Ok c => c | Err _ => (G2, G2) end.
Definition pk1 : bytes := Eval vm_compute in pks !!! 0%nat.

Lemma share1_aggregate : dl_get_aggregate m5 eid = Ok (Some artifact).
Proof. vm_compute. reflexivity. Qed.
Lemma ct0_decodes : decode_ct ct0 = Ok (ct0_points.1, ct0_points.2).
Proof. vm_compute. reflexivity. Qed.
Lemma pk1_decodes : g2_from_compressed pk1 = Ok (mul G2 8).
Proof. vm_compute. reflexivity. Qed.

(** Recovery counts keyper 1's share of the first candidate's aggregate. *)
Lemma honest_share_counts_witness :
  check_share cfg pks 0 ct0_points.1 ct0_points.2 share1.1 = Ok (Some (1, mul ct0_points.1 8)).
Proof.
  apply (honest_share_counts (keyper 1) m5 221 eid (λ j, 21 + Z.of_nat j) share1.1 share1.2 artifact cfg pks 8
    pk1 0 ct0 ct0_points.1 ct0_points.2 share1_produced).
  - split; [reflexivity|vm_compute; reflexivity].
  - exact share1_aggregate.
  - reflexivity.
  - split; [vm_compute; discriminate|vm_compute; discriminate].
  - reflexivity.
  - exact pk1_decodes.
  - reflexivity.
  - exact ct0_decodes.
Defined.

End election_example.
