(* ===== verification/PostgresRefines.v ===== *)
(** The database adapter implements the contract of the in-memory one: a
    forward simulation between the tables and the reference store, operation by
    operation, whatever order Postgres lists rows in and however [jsonb] orders
    the keys of an object. *)

From S2P Require Import Prelude Params Primality Field Points Transcript Types Config Codecs WriteAuth Quorum DataLayer DataLayerSafety Postgres Jsonb Schnorr Ballot Admission Aggregation Port Gateway Keyper Tally.

(** * Tables *)

Section tables.
Context {A : Type}.
Implicit Types (t : dict (bytes * Z) A) (eid : bytes).

Lemma rows_of_cons eid e i v t :
  rows_of eid ((e, i, v) :: t) = if decide (e = eid) then (i, v) :: rows_of eid t else rows_of eid t.
Proof. unfold rows_of. rewrite filter_cons. cbn [fst snd]. by case_decide. Qed.

Lemma rows_of_app eid t t' : rows_of eid (t ++ t') = rows_of eid t ++ rows_of eid t'.
Proof. unfold rows_of. by rewrite filter_app, fmap_app. Qed.

Lemma rows_of_get eid t i : dict_get (rows_of eid t) i = dict_get t (eid, i).
Proof.
  induction t as [|[[e j] v] t IH]; [done|]. rewrite rows_of_cons. cbn [dict_get].
  destruct (decide (e = eid)) as [->|Hne].
  - cbn [dict_get]. destruct (decide (i = j)) as [->|]; [by rewrite decide_True|].
    rewrite decide_False by congruence. apply IH.
  - rewrite decide_False by congruence. apply IH.
Qed.

Lemma rows_of_set eid t i v : rows_of eid (dict_set t (eid, i) v) = dict_set (rows_of eid t) i v.
Proof.
  induction t as [|[[e j] w] t IH]; cbn [dict_set].
  - by rewrite rows_of_cons, decide_True.
  - rewrite (rows_of_cons eid e j w). destruct (decide ((eid, i) = (e, j))) as [E|Hne].
    + apply pair_equal_spec in E as [-> ->]. rewrite rows_of_cons, !decide_True by done. cbn [dict_set].
      by rewrite !decide_True.
    + rewrite rows_of_cons, IH. destruct (decide (e = eid)) as [->|]; [|done].
      cbn [dict_set]. by rewrite decide_False by congruence.
Qed.

Lemma rows_of_set_other eid eid' t i v : eid' ≠ eid → rows_of eid' (dict_set t (eid, i) v) = rows_of eid' t.
Proof.
  intros Hne. induction t as [|[[e j] w] t IH]; cbn [dict_set].
  - by rewrite rows_of_cons, decide_False.
  - case_decide; rewrite !rows_of_cons.
    + simplify_eq. by rewrite !decide_False.
    + by rewrite IH.
Qed.

Lemma insert_row_Ok {K V} `{EqDecision K} (t t' : dict K V) k v :
  insert_row t k v = Ok t' ↔ dict_get t k = None ∧ t' = dict_set t k v.
Proof.
  unfold insert_row. destruct (dict_get t k) eqn:E; [naive_solver|]. rewrite dict_set_None by done. naive_solver.
Qed.

End tables.

(** The rows hold the encodings of the entries. *)
Definition stores {J V} (dec : J → result V) (rows : dict Z J) (d : dict Z V) : Prop :=
  Forall2 (λ r e, r.1 = e.1 ∧ dec r.2 = Ok e.2) rows d.

Section stores.
Context {J V : Type} (dec : J → result V).
Implicit Types (rows : dict Z J) (d : dict Z V).

Lemma stores_keys rows d : stores dec rows d → dict_keys rows = dict_keys d.
Proof.
  unfold stores, dict_keys. induction 1 as [|[i j] [i' v] rows d [Hi _] _ IH]; [done|].
  rewrite !fmap_cons. cbn in *. congruence.
Qed.

Lemma stores_get rows d i : stores dec rows d →
  match dict_get rows i with
  | Some j => ∃ v, dict_get d i = Some v ∧ dec j = Ok v
  | None => dict_get d i = None
  end.
Proof.
  induction 1 as [|[i' j] [i'' v] rows d [Hi Hd] _ IH]; [done|]. cbn in *. subst i''.
  case_decide; [|exact IH]. eauto.
Qed.

Lemma stores_set rows d i j v : stores dec rows d → dec j = Ok v →
  stores dec (dict_set rows i j) (dict_set d i v).
Proof.
  intros Hs Hj. induction Hs as [|[i' j'] [i'' v'] rows d [Hi Hd] Hs IH]; cbn in *.
  - by repeat constructor.
  - subst i''. case_decide; by constructor.
Qed.

Lemma stores_decode rows d : stores dec rows d → mapM (λ '(i, j), v ← dec j; Ok (i, v)) rows = Ok d.
Proof.
  induction 1 as [|[i j] [i' v] rows d [Hi Hd] _ IH]; [done|]. cbn [fst snd] in *. subst i'.
  cbn [mapM]. by rewrite Hd, !bind_Ok, IH, bind_Ok.
Qed.

Lemma stores_perm rows rows' d : stores dec rows d → rows' ≡ₚ rows → ∃ d', stores dec rows' d' ∧ d' ≡ₚ d.
Proof.
  intros Hs Hp. revert d Hs. induction Hp as [|r l l' _ IH|r r' l|l l' l'' _ IH _ IH']; intros d Hs.
  - inversion Hs; subst. exists []. split; [constructor|done].
  - inversion Hs as [|? e ? d0 He Hs0]; subst. destruct (IH _ Hs0) as (d' & Hd' & Hp'). exists (e :: d').
    by split; [constructor|constructor].
  - inversion Hs as [|? e ? d0 He Hs0]; subst. inversion Hs0 as [|? e' ? d1 He' Hs1]; subst.
    exists (e' :: e :: d1). split; [constructor; [done|by constructor]|constructor].
  - destruct (IH' _ Hs) as (d1 & H1 & P1). destruct (IH _ H1) as (d2 & H2 & P2). exists d2. split; [done|by etransitivity].
Qed.

End stores.

Lemma bigint_Ok n : - 2 ^ 63 <= n < 2 ^ 63 → bigint n = Ok n.
Proof. intros Hn. unfold bigint. by rewrite (proj2 (Z.leb_le _ _)), (proj2 (Z.ltb_lt _ _)) by lia. Qed.

(** ** ORDER BY *)

Section ordering.
Context {A : Type} (R : relation A) `{!RelDecision R} `{!Transitive R} `{!Total R}.

Definition strictly (a b : A) : Prop := R a b ∧ ¬ R b a.

Lemma sorted_unique l l' : l ≡ₚ l' → StronglySorted R l → StronglySorted strictly l' → l = l'.
Proof.
  revert l. induction l' as [|y l' IH]; intros l Hp Hs Hs'; [by apply Permutation_nil_r in Hp|].
  destruct l as [|x l]; [by apply Permutation_nil_l in Hp|].
  inversion Hs as [|? ? Hsl Hx]; subst. inversion Hs' as [|? ? Hsl' Hy]; subst.
  assert (x = y) as ->.
  { assert (Hin : x ∈ y :: l') by (rewrite <- Hp; left). apply elem_of_cons in Hin as [|Hin]; [done|].
    assert (Hiny : y ∈ x :: l) by (rewrite Hp; left). apply elem_of_cons in Hiny as [|Hiny]; [done|].
    rewrite Forall_forall in Hx, Hy. destruct (Hy _ Hin) as [_ Hn]. by destruct Hn; apply Hx. }
  f_equal. apply IH; [by apply (Permutation_cons_inv Hp)|done..].
Qed.

Lemma merge_sort_sorted l : StronglySorted strictly l → merge_sort R l = l.
Proof.
  intros Hl. apply sorted_unique; [apply merge_sort_Permutation|by apply StronglySorted_merge_sort|done].
Qed.

End ordering.

#[export] Instance by_key_trans {A} (key : A → Z) : Transitive (by_key key).
Proof. intros a b c. unfold by_key. lia. Qed.
#[export] Instance by_key_total {A} (key : A → Z) : Total (by_key key).
Proof. intros a b. unfold by_key. lia. Qed.

Lemma StronglySorted_impl {A} (R R' : relation A) l :
  (∀ a b, R a b → R' a b) → StronglySorted R l → StronglySorted R' l.
Proof. intros Hi. induction 1 as [|a l _ IH Ha]; constructor; [done|]. eapply Forall_impl; [exact Ha|]. apply Hi. Qed.

Lemma StronglySorted_fmap {A B} (R : relation B) (f : A → B) l :
  StronglySorted R (f <$> l) ↔ StronglySorted (λ a b, R (f a) (f b)) l.
Proof.
  induction l as [|a l IH]; [split; constructor|]. rewrite fmap_cons. split; inversion 1; subst;
    constructor; try (by apply IH); by apply Forall_fmap.
Qed.

(** The decoded rows in key order are the entries in key order. *)
Lemma stores_sorted {J V} (dec : J → result V) rows d : stores dec rows d → NoDup (dict_keys d) →
  mapM (λ r, dec r.2) (order_by fst rows) = Ok (sorted_values d).
Proof.
  intros Hs Hnd. destruct (stores_perm dec rows (order_by fst rows) d Hs) as (d' & Hs' & Hp);
    [apply merge_sort_Permutation|].
  assert (Hk : dict_keys d' = merge_sort Z.le (dict_keys d)).
  { apply (Sorted_unique Z.le).
    - rewrite <- (stores_keys _ _ _ Hs'). apply StronglySorted_Sorted, StronglySorted_fmap.
      apply (StronglySorted_merge_sort (by_key fst)).
    - apply Sorted_merge_sort. intros a b. lia.
    - rewrite merge_sort_Permutation. unfold dict_keys. by rewrite Hp. }
  unfold sorted_values. rewrite <- Hk.
  assert (Hget : ∀ k v, (k, v) ∈ d' → dict_get d k = Some v).
  { intros k v Hin. apply elem_dict_get; [done|]. by rewrite <- Hp. }
  clear Hk Hp Hnd Hs. revert Hget. unfold dict_keys.
  induction Hs' as [|[i j] [i' v] rs d' [Hi Hd] _ IH]; intros Hget; [done|].
  cbn [fst snd] in *. subst i'. cbn [mapM snd]. rewrite Hd, bind_Ok, IH, bind_Ok by (intros k w Hin; apply Hget; by right).
  rewrite fmap_cons. cbn [omap list_omap fst]. by rewrite (Hget i v ltac:(left)).
Qed.

(** * The simulation *)

(** What the tables hold about one election. *)
Record view := mkView {
  v_row : option election_row;
  v_dkg : dict Z json;
  v_ballots : dict Z (json * Z);
  v_shares : dict Z json;
  v_aggregates : dict Z json;
  v_result : option json;
}.

Definition view_of (p : PostgresStore) (eid : bytes) : view :=
  mkView (dict_get (elections p) eid) (rows_of eid (dkg_submissions p)) (rows_of eid (ballots p))
    (rows_of eid (decryption_shares p)) (rows_of eid (pg_aggregates p)) (dict_get (results p) eid).

Definition empty_view : view := mkView None [] [] [] [] None.

(** Two results: the same exception, or related values. *)
Definition agrees {A B} (R : A → B → Prop) (m : result A) (p : result B) : Prop :=
  match m, p with Ok a, Ok b => R a b | Err e, Err e' => e = e' | _, _ => False end.

Lemma agrees_bind {A B A' B'} (S : A → B → Prop) (R : A' → B' → Prop) m p (f : A → result A') (g : B → result B') :
  agrees S m p → (∀ a b, m = Ok a → p = Ok b → S a b → agrees R (f a) (g b)) → agrees R (m ≫= f) (p ≫= g).
Proof. destruct m, p; cbn; try done. intros HS Hf. rewrite ?bind_Ok. by apply Hf. Qed.

Lemma agrees_same {A B A'} (R : A → B → Prop) (m : result A') (f : A' → result A) (g : A' → result B) :
  (∀ a, m = Ok a → agrees R (f a) (g a)) → agrees R (m ≫= f) (m ≫= g).
Proof. intros Hf. eapply (agrees_bind eq); [by destruct m|]. intros a b Ha _ <-. by apply Hf. Qed.

Lemma agrees_eq {A} (m p : result A) : agrees eq m p ↔ m = p.
Proof. destruct m, p; cbn; split; try done; by intros [= ->] || intros ->. Qed.

Section refinement.
Context `{CryptoLaws} `{EthAccount} `{Abi} (float_repr : Z → Z → string) (py_repr : json → string) `{PostgresLaws}.

Definition row_shows (r : election_row) (st : _Stored) : Prop :=
  dec_config py_repr (row_config r) = Ok (st_config st) ∧ row_admin_key r = admin_key (st_config st) ∧
  row_voting_start r = voting_start (st_config st) ∧ row_cancelled r = st_cancelled st ∧
  row_tally_stalled r = st_tally_stalled st.

Definition ballot_shows (r : Z * (json * Z)) (b : StoredBallot) : Prop :=
  r.1 = sequence_number b ∧ dec_ballot r.2.1 = Ok (envelope b) ∧ submitted_at b = Some r.2.2.

Record shows (v : view) (st : _Stored) : Prop := {
  shows_row : ∃ r, v_row v = Some r ∧ row_shows r st;
  shows_dkg : stores dec_dkg_result (v_dkg v) (st_dkg_by_keyper st);
  shows_ballots : Forall2 ballot_shows (v_ballots v) (st_ballots st);
  shows_shares : stores dec_decryption_share (v_shares v) (st_shares_by_keyper st);
  shows_aggregates : stores dec_aggregate (v_aggregates v) (st_aggregate_by_keyper st);
  shows_result : match v_result v with
                 | Some j => ∃ r, st_result st = Some r ∧ dec_result j = Ok r
                 | None => st_result st = None
                 end;
}.

(** The tables hold exactly the reference store. *)
Record sim (m : InMemoryDataLayer) (p : PostgresStore) : Prop := {
  sim_seq : pg.peek p = _next_id m + 1;
  sim_keys : dict_keys (elections p) = dict_keys (_elections m);
  sim_shows eid st : dict_get (_elections m) eid = Some st → shows (view_of p eid) st;
  sim_none eid : dict_get (_elections m) eid = None → view_of p eid = empty_view;
  sim_nonces x : is_Some (dict_get (request_nonces p) x) ↔ x ∈ _used_request_nonces m;
}.

(** A write to one election. *)
Lemma sim_write m p p' eid st st' nonces : sim m p → dict_get (_elections m) eid = Some st →
  shows (view_of p' eid) st' → (∀ e, e ≠ eid → view_of p' e = view_of p e) →
  election_id_seq p' = election_id_seq p → dict_keys (elections p') = dict_keys (elections p) →
  (∀ x, is_Some (dict_get (request_nonces p') x) ↔ x ∈ nonces) →
  sim (mkMemory (dict_set (_elections m) eid st') (_next_id m) nonces) p'.
Proof.
  intros Hs Hst Hv Hother Hseq Hkeys Hn. constructor; cbn [_elections _next_id _used_request_nonces].
  - unfold pg.peek. rewrite Hseq. apply (sim_seq _ _ Hs).
  - rewrite Hkeys, (sim_keys _ _ Hs), (dict_keys_update _ _ st) by done. done.
  - intros e st0. rewrite dict_get_set. case_decide as He; [by intros [= <-]; subst|].
    intros Hg. rewrite Hother by done. by apply (sim_shows _ _ Hs).
  - intros e. rewrite dict_get_set. case_decide as He; [done|]. intros Hg. rewrite Hother by done.
    by apply (sim_none _ _ Hs).
  - done.
Qed.

(** [put] leaves the spent requests alone. *)
Lemma sim_put m p p' eid st st' : sim m p → dict_get (_elections m) eid = Some st →
  shows (view_of p' eid) st' → (∀ e, e ≠ eid → view_of p' e = view_of p e) →
  election_id_seq p' = election_id_seq p → dict_keys (elections p') = dict_keys (elections p) →
  request_nonces p' = request_nonces p → sim (put m eid st') p'.
Proof.
  intros Hs Hst Hv Ho Hq Hk Hn. eapply sim_write; [done..|]. rewrite Hn. apply (sim_nonces _ _ Hs).
Qed.

(** ** Reads *)

Section election.
Context (m : InMemoryDataLayer) (p : PostgresStore) (Hsim : sim m p) (Hm : mem_ok m).

Lemma row_agrees eid : agrees (λ st r, shows (view_of p eid) st ∧ row_shows r st ∧ stored_ok eid st ∧
    dict_get (_elections m) eid = Some st ∧ dict_get (elections p) eid = Some r) (_get m eid) (pg._row p eid).
Proof.
  unfold _get, pg._row. destruct (dict_get (_elections m) eid) as [st|] eqn:Est.
  - pose proof (sim_shows _ _ Hsim _ _ Est) as Hv. destruct (shows_row _ _ Hv) as (r & Hr & Hrs).
    cbn [v_row view_of] in Hr. rewrite Hr. cbn. split_and!; try done. by apply (mem_stored _ Hm).
  - pose proof (f_equal v_row (sim_none _ _ Hsim _ Est)) as Hn. cbn [v_row view_of empty_view] in Hn.
    by rewrite Hn.
Qed.

Lemma config_agrees eid : agrees (λ st c, c = st_config st ∧ shows (view_of p eid) st ∧ stored_ok eid st ∧
    dict_get (_elections m) eid = Some st) (_get m eid) (pg._config py_repr p eid).
Proof.
  unfold pg._config. pose proof (row_agrees eid) as Hr. unfold agrees in *.
  destruct (_get m eid) as [st|e], (pg._row p eid) as [r|e']; try done.
  destruct Hr as (Hv & (Hc & _) & Hok & Hg & _). rewrite bind_Ok, Hc. done.
Qed.

End election.

(** ** Quorums do not depend on the order of the rows *)

Lemma stored_core_dkg eid st d : stored_core eid st → d ≡ₚ st_dkg_by_keyper st → stored_core eid (set_dkg st d).
Proof.
  intros [] Hp. constructor; cbn; try done.
  - unfold dict_keys. by rewrite Hp.
  - intros i sub Hin. apply ok_dkg. by rewrite <- Hp.
Qed.

Lemma backers_perm d d' fk : d ≡ₚ d' → backers d fk = backers d' fk.
Proof.
  intros Hp. apply set_eq. intros i. unfold backers. rewrite !elem_of_supporters. unfold dkg_votes.
  split; intros [v Hv]; exists v; [by rewrite <- Hp|by rewrite Hp].
Qed.

Lemma finalized_key_perm eid st d : stored_core eid st → d ≡ₚ st_dkg_by_keyper st →
  _finalized_key_of (set_dkg st d) = _finalized_key_of st.
Proof.
  intros Hok Hp. pose proof (stored_core_dkg _ _ _ Hok Hp) as Hok'.
  destruct (finalized_key_of_spec eid st Hok) as ([fk|] & Ho & Hs); rewrite Ho.
  - apply (finalized_key_of_quorum eid _ Hok'). cbn [st_dkg_by_keyper st_config set_dkg]. by rewrite (backers_perm _ _ fk Hp).
  - destruct (finalized_key_of_spec eid _ Hok') as ([fk'|] & Ho' & Hs'); [|done]. cbn [st_dkg_by_keyper st_config set_dkg] in Hs'.
    rewrite (backers_perm _ _ fk' Hp) in Hs'. specialize (Hs fk'). lia.
Qed.

Lemma finalized_key_same eid p st : shows (view_of p eid) st → stored_core eid st →
  pg._finalized_key p (st_config st) = _finalized_key_of st.
Proof.
  intros Hv Hok. unfold pg._finalized_key. rewrite (ok_id _ _ Hok).
  destruct (stores_perm _ _ (heap_order (rows_of eid (dkg_submissions p))) _ (shows_dkg _ _ Hv)
    (heap_order_perm _)) as (d & Hd & Hp).
  rewrite (stores_decode _ _ _ Hd), bind_Ok. rewrite <- (finalized_key_perm eid st d Hok Hp). done.
Qed.

(** Aggregates that sign the same digest. *)
Definition same_aggregate (eid : bytes) (a a' : AggregateArtifact) : Prop :=
  ∃ d, aggregate_digest_of eid a = Ok d ∧ aggregate_digest_of eid a' = Ok d.

Lemma stored_core_aggregates eid st d : stored_core eid st → d ≡ₚ st_aggregate_by_keyper st →
  stored_core eid (set_aggregates st d).
Proof.
  intros [] Hp. constructor; cbn; try done.
  - unfold dict_keys. by rewrite Hp.
  - intros i a Hin. apply ok_agg. by rewrite <- Hp.
Qed.

Lemma agg_votes_elem eid d votes i k a : agg_votes eid d = Ok votes →
  (i, k, a) ∈ votes ↔ (i, a) ∈ d ∧ aggregate_digest_of eid a = Ok k.
Proof.
  unfold agg_votes. intros Hv%mapM_Ok. split.
  - intros (j & Hj)%list_elem_of_lookup. destruct (Forall2_lookup_r _ _ _ _ _ Hv Hj) as ([i' a'] & Ha & Hk).
    unfold agg_vote in Hk. cbn [fst snd] in Hk. apply bind_Ok_inv in Hk as (k' & Hk & E%Ok_inj). simplify_eq.
    split; [by eapply list_elem_of_lookup_2|done].
  - intros [(j & Hj)%list_elem_of_lookup Hk]. destruct (Forall2_lookup_l _ _ _ _ _ Hv Hj) as (e & He & Ha).
    unfold agg_vote in Ha. cbn [fst snd] in Ha. rewrite Hk, bind_Ok in Ha. apply Ok_inj in Ha as <-.
    by eapply list_elem_of_lookup_2.
Qed.

Lemma aggregate_of_winner eid st : stored_core eid st → ∃ votes o,
  agg_votes eid (st_aggregate_by_keyper st) = Ok votes ∧ committee_of (thr_n (threshold (st_config st))) votes ∧
  aggregate_of st = Ok o ∧ quorum_winner (quorum (threshold (st_config st))) votes o.
Proof.
  intros Hok. destruct (stored_majority eid st Hok) as (Hn & Hq & Hmaj), (agg_votes_Ok eid st Hok) as (votes & E & _ & Hc).
  destruct (resolve_group _ _ Hn Hq Hmaj _ Hc) as (o & Ho & Hw). exists votes, o. split_and!; try done.
  unfold aggregate_of. rewrite (ok_id _ _ Hok), agg_groups_group, E, !bind_Ok. exact Ho.
Qed.

Lemma aggregate_of_perm eid st d : stored_core eid st → d ≡ₚ st_aggregate_by_keyper st →
  agrees (option_Forall2 (same_aggregate eid)) (aggregate_of st) (aggregate_of (set_aggregates st d)).
Proof.
  intros Hok Hp. pose proof (stored_core_aggregates _ _ _ Hok Hp) as Hok'.
  destruct (stored_majority eid st Hok) as (Hn & Hq & Hmaj).
  destruct (aggregate_of_winner eid st Hok) as (votes & o & Hv & Hc & -> & Hw).
  destruct (aggregate_of_winner eid _ Hok') as (votes' & o' & Hv' & Hc' & -> & Hw').
  cbn [st_config set_aggregates st_aggregate_by_keyper] in *.
  assert (Hin : ∀ i k a, (i, k, a) ∈ votes ↔ (i, k, a) ∈ votes').
  { intros i k a. rewrite (agg_votes_elem _ _ _ _ _ _ Hv), (agg_votes_elem _ _ _ _ _ _ Hv'). by rewrite Hp. }
  assert (Hsup : ∀ k, supporters votes k = supporters votes' k).
  { intros k. apply set_eq. intros i. rewrite !elem_of_supporters. by setoid_rewrite Hin. }
  destruct o as [a|], o' as [a'|]; cbn in *.
  - destruct Hw as (k & Ha & Hk), Hw' as (k' & Ha' & Hk'). rewrite <- Hsup in Hk'.
    rewrite (quorum_key_unique _ _ Hn Hmaj votes k' k Hc Hk' Hk) in Ha'. constructor. exists k.
    apply first_value_elem in Ha as (i & Hi), Ha' as (i' & Hi').
    apply (agg_votes_elem _ _ _ _ _ _ Hv) in Hi as [_ ?]. apply (agg_votes_elem _ _ _ _ _ _ Hv') in Hi' as [_ ?].
    done.
  - destruct Hw as (k & _ & Hk). specialize (Hw' k). rewrite <- Hsup in Hw'. lia.
  - destruct Hw' as (k & _ & Hk). specialize (Hw k). rewrite Hsup in Hw. lia.
  - constructor.
Qed.

Lemma group_counts_decode eid rows d g : stores dec_aggregate rows d →
  foldM (λ g '(i, j), agg ← dec_aggregate j; aggregate_group_step eid g (i, agg)) rows g
  = foldM (aggregate_group_step eid) d g.
Proof.
  intros Hs. revert g. induction Hs as [|[i j] [i' a] rows d [Hi Hd] _ IH]; intros g; [done|].
  cbn [fst snd] in *. subst i'. cbn [foldM]. rewrite Hd, bind_Ok. apply bind_ext. intros g' _. apply IH.
Qed.

Lemma group_counts_same eid p st : shows (view_of p eid) st → stored_core eid st →
  agrees (option_Forall2 (same_aggregate eid)) (aggregate_of st)
    (groups ← pg._aggregate_group_counts p eid; resolve_unique (dict_values groups) (quorum (threshold (st_config st)))).
Proof.
  intros Hv Hok. unfold pg._aggregate_group_counts.
  destruct (stores_perm _ _ (heap_order (rows_of eid (pg_aggregates p))) _ (shows_aggregates _ _ Hv)
    (heap_order_perm _)) as (d & Hd & Hp).
  rewrite (group_counts_decode eid _ d _ Hd).
  pose proof (aggregate_of_perm eid st d Hok Hp) as Ha. unfold aggregate_of in Ha at 2.
  cbn [st_config set_aggregates st_aggregate_by_keyper] in Ha. rewrite (ok_id _ _ Hok) in Ha. exact Ha.
Qed.

(** ** Ballot rows *)

Lemma filter_id {A} (P : A → Prop) `{∀ x, Decision (P x)} l : Forall P l → filter P l = l.
Proof. induction 1 as [|x l Hx _ IH]; [done|]. by rewrite filter_cons_True, IH. Qed.

Lemma seqZ_rows_filter {A} (rows : dict Z A) s n a : dict_keys rows = seqZ s n → s <= a →
  filter (λ r, a <= r.1) rows = drop (Z.to_nat (a - s)) rows.
Proof.
  unfold dict_keys. revert s n. induction rows as [|[i x] rows IH]; intros s n Hk Ha; [by rewrite drop_nil|].
  rewrite fmap_cons in Hk. cbn [fst] in Hk.
  destruct (Z.le_gt_cases n 0); [by rewrite seqZ_nil in Hk by lia|]. rewrite seqZ_cons in Hk by lia.
  apply (f_equal (λ l, (head l, tail l))) in Hk. cbn in Hk. injection Hk as -> Hk.
  rewrite filter_cons. cbn [fst]. destruct (decide (a <= s)).
  - replace (Z.to_nat (a - s)) with 0%nat by lia. cbn [drop]. f_equal. apply filter_id, Forall_forall.
    intros r Hr. assert (Hin : r.1 ∈ rows.*1) by (apply list_elem_of_fmap; eauto).
    rewrite Hk in Hin. apply elem_of_seqZ in Hin. lia.
  - rewrite (IH (Z.succ s) (Z.pred n)) by (done || lia).
    replace (Z.to_nat (a - s)) with (S (Z.to_nat (a - Z.succ s))) by lia. done.
Qed.

Lemma seqZ_sorted s n : StronglySorted Z.lt (seqZ s n).
Proof.
  unfold seqZ. apply StronglySorted_fmap. generalize 0%nat as k. induction (Z.to_nat n) as [|m IH]; intros k; [constructor|].
  cbn [seq]. constructor; [apply IH|]. apply Forall_forall. intros j Hj%elem_of_seq. lia.
Qed.

Lemma ballot_keys eid st rows : stored_core eid st → Forall2 ballot_shows rows (st_ballots st) →
  dict_keys rows = seqZ 0 (len rows).
Proof.
  intros Hok Hf. apply list_eq. intros i. unfold dict_keys. rewrite list_lookup_fmap.
  destruct (rows !! i) as [r|] eqn:Hr; cbn.
  - destruct (Forall2_lookup_l _ _ _ _ _ Hf Hr) as (b & Hb & (Hs & _)).
    rewrite Hs. destruct (ok_ballots _ _ Hok _ _ Hb) as [-> _]. symmetry. apply lookup_seqZ.
    apply lookup_lt_Some in Hr. unfold len. lia.
  - symmetry. apply lookup_seqZ_ge. apply lookup_ge_None in Hr. unfold len. lia.
Qed.

Lemma next_seq_same eid st rows : stored_core eid st → Forall2 ballot_shows rows (st_ballots st) →
  pg.next_seq rows = len (st_ballots st).
Proof.
  intros Hok Hf. pose proof (ballot_keys eid st rows Hok Hf) as Hk.
  assert (Hlen : len rows = len (st_ballots st)) by (unfold len; by rewrite (Forall2_length _ _ _ Hf)).
  rewrite <- Hlen. unfold pg.next_seq. rewrite Hk. unfold len at 1. destruct rows as [|r rows]; [done|].
  rewrite seqZ_cons by (unfold len; cbn; lia).
  assert (Hmax : ∀ s n, foldl Z.max s (seqZ (Z.succ s) n) = Z.max s (s + n)).
  { intros s n. destruct (Z.le_gt_cases n 0) as [|Hn]; [rewrite seqZ_nil by lia; cbn; lia|].
    replace n with (Z.of_nat (Z.to_nat n)) by lia. clear Hn. generalize (Z.to_nat n) as k. intros k. revert s.
    induction k as [|k IH]; intros s; [rewrite seqZ_nil by lia; cbn [foldl]; lia|]. rewrite seqZ_cons by lia.
    replace (Z.pred (Z.of_nat (S k))) with (Z.of_nat k) by lia. cbn [foldl].
    rewrite Z.max_r by lia. rewrite IH. lia. }
  rewrite Hmax. unfold len. cbn [length]. lia.
Qed.

Definition dec_ballot_row (r : Z * (json * Z)) : result StoredBallot :=
  let '(seq, (j, t)) := r in b ← dec_ballot j; Ok (mkStoredBallot seq b (Some t)).

Lemma dec_ballot_rows rows l : Forall2 ballot_shows rows l → mapM dec_ballot_row rows = Ok l.
Proof.
  induction 1 as [|[i [j t]] b rows l (Hs & He & Ht) _ IH]; [done|]. cbn [fst snd] in *. cbn [mapM dec_ballot_row].
  rewrite He, !bind_Ok, IH, bind_Ok, Hs, <- Ht. by destruct b.
Qed.

Lemma list_ballots_same eid p st start count : shows (view_of p eid) st → stored_core eid st →
  0 <= start → 0 <= count < 2 ^ 63 →
  pg.list_ballots p eid start count = Ok (take (Z.to_nat count) (drop (Z.to_nat start) (st_ballots st))).
Proof.
  intros Hv Hok Hs Hc. unfold pg.list_ballots. rewrite (proj2 (Z.ltb_ge count 0)) by lia. cbn [raise_if].
  rewrite bind_Ok, bigint_Ok, bind_Ok by lia.
  pose proof (shows_ballots _ _ Hv) as Hb. cbn [v_ballots view_of] in Hb. set (rows := rows_of eid (ballots p)) in *.
  pose proof (ballot_keys eid st rows Hok Hb) as Hk.
  rewrite (seqZ_rows_filter rows 0 _ start Hk Hs), Z.sub_0_r.
  unfold order_by. rewrite (merge_sort_sorted (by_key fst)).
  - apply (dec_ballot_rows (take (Z.to_nat count) (drop (Z.to_nat start) rows))).
    by apply Forall2_take, Forall2_drop.
  - assert (Hall : StronglySorted (strictly (by_key fst)) rows).
    { assert (Hlt : StronglySorted (λ a b : Z * (json * Z), a.1 < b.1) rows)
        by (apply (StronglySorted_fmap Z.lt fst); change (fst <$> rows) with (dict_keys rows); rewrite Hk; apply seqZ_sorted).
      eapply StronglySorted_impl; [|exact Hlt]. intros a b Hab. cbn beta in Hab. unfold strictly, by_key. lia. }
    rewrite <- (take_drop (Z.to_nat start) rows) in Hall. by eapply StronglySorted_app_1_r.
Qed.

(** ** The order of identifiers *)

Lemma from_bytes_cons x b : from_bytes_be (x :: b) = byte_val x * 256 ^ len b + from_bytes_be b.
Proof.
  unfold len. induction b as [|y b IH] using rev_ind; [unfold from_bytes_be; cbn; lia|].
  rewrite app_comm_cons, !from_bytes_snoc, IH, length_app. cbn [length].
  rewrite Nat2Z.inj_add, Z.pow_add_r by lia. change (256 ^ Z.of_nat 1) with 256. lia.
Qed.

Lemma bytea_le_numeric a b : length a = length b → (bytea_le a b = true ↔ from_bytes_be a <= from_bytes_be b).
Proof.
  revert b. induction a as [|x a IH]; intros [|y b] Hl; try done. cbn [bytea_le].
  injection Hl as Hl. rewrite !from_bytes_cons.
  pose proof (from_bytes_range a) as Ha. pose proof (from_bytes_range b) as Hb.
  assert (Hlen : len a = len b) by (unfold len; by rewrite Hl). rewrite Hlen in *.
  set (B := 256 ^ len b) in *.
  destruct (Z.ltb_spec (byte_val x) (byte_val y)); [split; [nia|done]|].
  destruct (Z.ltb_spec (byte_val y) (byte_val x)); [split; [done|nia]|].
  assert (byte_val x = byte_val y) as -> by lia. rewrite (IH b Hl). lia.
Qed.

#[local] Instance bytea_total : Total bytea_order.
Proof.
  intros a. unfold bytea_order. induction a as [|x a IH]; intros [|y b]; cbn; auto.
  destruct (Z.ltb_spec (byte_val x) (byte_val y)); [by left|].
  destruct (Z.ltb_spec (byte_val y) (byte_val x)); [by right|]. apply IH.
Qed.
#[local] Instance bytea_trans : Transitive bytea_order.
Proof.
  intros a b c. unfold bytea_order. revert b c. induction a as [|x a IH]; intros [|y b] [|z c]; cbn; try done.
  destruct (Z.ltb_spec (byte_val x) (byte_val y)), (Z.ltb_spec (byte_val y) (byte_val x)),
    (Z.ltb_spec (byte_val y) (byte_val z)), (Z.ltb_spec (byte_val z) (byte_val y)),
    (Z.ltb_spec (byte_val x) (byte_val z)), (Z.ltb_spec (byte_val z) (byte_val x)); try done; try lia. apply IH.
Qed.

Lemma election_ids_sorted m : mem_ok m → StronglySorted (strictly bytea_order) (dict_keys (_elections m)).
Proof.
  intros [Hn Hk _]. rewrite Hk. apply StronglySorted_fmap.
  assert (Hin : Forall (λ i, 1 <= i < 256 ^ 32) (seqZ 1 (_next_id m))).
  { apply Forall_forall. intros i Hi%elem_of_seqZ. lia. }
  pose proof (seqZ_sorted 1 (_next_id m)) as Hs. revert Hin Hs. generalize (seqZ 1 (_next_id m)) as l.
  induction l as [|i l IH]; [constructor|]. intros [Hi Hl]%Forall_cons [Hlt Hs]%StronglySorted_cons.
  constructor; [by apply IH|]. apply Forall_forall. intros j Hj.
  rewrite Forall_forall in Hlt, Hl. specialize (Hlt j Hj). specialize (Hl j Hj).
  unfold strictly, bytea_order. rewrite !bytea_le_numeric by (by rewrite !length_be_bytes).
  rewrite !from_be_bytes, !Z.mod_small by (change (256 ^ Z.of_nat 32) with (256 ^ 32); lia). lia.
Qed.

Lemma sorted_sublist {A} (R : relation A) (P : A → Prop) `{∀ x, Decision (P x)} l :
  StronglySorted R l → StronglySorted R (filter P l).
Proof.
  induction 1 as [|x l Hs IH Hx]; [constructor|]. rewrite filter_cons. case_decide; [|done].
  constructor; [done|]. rewrite Forall_forall in *. intros y [_ Hy]%list_elem_of_filter. by apply Hx.
Qed.

Lemma list_elections_same m p f : sim m p → mem_ok m → pg.list_elections p f = list_elections m f.
Proof.
  intros Hs Hm. unfold pg.list_elections, list_elections.
  assert (Hf : (filter (λ e : bytes * election_row, pg.row_keeps f e.2 = true) (elections p)).*1
             = (filter (λ e, filter_keeps f (st_config e.2) = true) (_elections m)).*1).
  { assert (HF : Forall2 (λ e e', e.1 = e'.1 ∧ pg.row_keeps f e.2 = filter_keeps f (st_config e'.2)) (elections p) (_elections m)).
    { apply Forall2_same_length_lookup_2.
      - pose proof (f_equal length (sim_keys _ _ Hs)) as Hl. unfold dict_keys in Hl. by rewrite !length_fmap in Hl.
      - intros i [e r] [e' st] Hr Hst. cbn [fst snd].
        pose proof (f_equal (λ l, l !! i) (sim_keys _ _ Hs)) as Hi. unfold dict_keys in Hi. cbn beta in Hi.
        rewrite !list_lookup_fmap, Hr, Hst in Hi. injection Hi as ->. split; [done|].
        assert (Hnd : NoDup (dict_keys (_elections m))).
        { rewrite (mem_ids _ Hm). apply NoDup_fmap_2_strong; [|apply NoDup_seqZ].
          pose proof (mem_next _ Hm). intros x y Hx%elem_of_seqZ Hy%elem_of_seqZ.
          apply be_bytes_inj; change (256 ^ Z.of_nat 32) with (256 ^ 32); lia. }
        assert (Hg : dict_get (_elections m) e' = Some st)
          by (apply elem_dict_get; [done|by eapply list_elem_of_lookup_2]).
        assert (Hgr : dict_get (elections p) e' = Some r).
        { apply elem_dict_get; [by rewrite (sim_keys _ _ Hs)|by eapply list_elem_of_lookup_2]. }
        destruct (shows_row _ _ (sim_shows _ _ Hs _ _ Hg)) as (r' & Hr' & _ & Ha & _).
        cbn [v_row view_of] in Hr'. rewrite Hgr in Hr'. injection Hr' as <-.
        destruct f as [[[k|]]|]; cbn [pg.row_keeps filter_keeps]; [by rewrite Ha|done..]. }
    clear -HF. induction HF as [|[e r] [e' st] l l' [He Hk] _ IH]; [done|]. cbn [fst snd] in *. subst e'.
    rewrite !filter_cons. cbn [snd]. rewrite Hk. case_decide; rewrite ?fmap_cons; cbn [fst]; by rewrite IH. }
  rewrite Hf. apply (merge_sort_sorted bytea_order).
  assert (Hsub : ∀ l : dict bytes _Stored, StronglySorted (strictly bytea_order) l.*1 →
    StronglySorted (strictly bytea_order) (filter (λ e, filter_keeps f (st_config e.2) = true) l).*1).
  { intros l Hl. apply (StronglySorted_fmap _ fst), sorted_sublist. by apply (StronglySorted_fmap _ fst) in Hl. }
  apply Hsub. by apply election_ids_sorted.
Qed.

(** ** Writes *)

(** Projections of updated tables and stored elections. *)
#[local] Ltac view_cbn :=
  cbn [view_of v_row v_dkg v_ballots v_shares v_aggregates v_result with_elections with_dkg_submissions with_ballots
       with_decryption_shares with_pg_aggregates with_results with_request_nonces election_id_seq elections
       dkg_submissions ballots decryption_shares pg_aggregates results request_nonces set_cancelled set_dkg
       append_ballot set_aggregates set_shares set_result set_stalled st_config st_cancelled st_dkg_by_keyper
       st_ballots st_aggregate_by_keyper st_shares_by_keyper st_result st_tally_stalled] in *.

(** A value a [jsonb] column can hold. *)
Definition storable (v : json) : Prop := ∃ v', jsonb v = Ok v'.

Lemma dkg_sim m p eid pk pks sig : sim m p → mem_ok m → dkg_result_wf (mkDKGResultSubmission eid pk pks sig) →
  storable (enc_dkg_result (mkDKGResultSubmission eid pk pks sig)) →
  agrees sim (submit_dkg_result m eid pk pks sig) (pg.submit_dkg_result py_repr p eid pk pks sig).
Proof.
  intros Hs Hm Hwf [j Hj]. unfold submit_dkg_result, pg.submit_dkg_result.
  eapply agrees_bind; [apply (config_agrees m p Hs Hm)|]. intros st c _ _ (-> & Hv & Hok & Hg).
  apply agrees_same. intros d _. apply agrees_same. intros i _.
  pose proof (stores_get _ _ _ i (shows_dkg _ _ Hv)) as Hi. cbn [v_dkg view_of] in Hi. rewrite rows_of_get in Hi.
  destruct (dict_get (dkg_submissions p) (eid, i)) as [j0|] eqn:Ej.
  - destruct Hi as (sub & -> & Hsub). rewrite Hsub, bind_Ok. apply agrees_same. intros _ _. exact Hs.
  - rewrite Hi, Hj, bind_Ok. unfold insert_row. rewrite Ej, bind_Ok. cbn [agrees].
    rewrite <- (dict_set_None _ _ j Ej). eapply sim_put; try done.
    + destruct Hv. constructor; try done; view_cbn. rewrite rows_of_set. apply stores_set; [done|by apply jsonb_dkg].
    + intros e He. unfold view_of. view_cbn. by rewrite rows_of_set_other.
Qed.

Lemma voting_open_same eid m p st now : sim m p → shows (view_of p eid) st → stored_ok eid st →
  dict_get (_elections m) eid = Some st →
  pg._require_voting_open py_repr p eid now = _require_voting_open st now.
Proof.
  intros Hs Hv Hok Hg. destruct (shows_row _ _ Hv) as (r & Hr & Hc & _ & _ & Hcan & _). cbn [v_row view_of] in Hr.
  unfold pg._require_voting_open, _require_voting_open, pg._config, pg._row. rewrite Hr, !bind_Ok, Hc, !bind_Ok.
  rewrite (finalized_key_same eid p st Hv (ok_core _ _ Hok)). apply bind_ext. intros fk _.
  pose proof (shows_result _ _ Hv) as Hres. cbn [v_result view_of] in Hres.
  assert (Hp : bool_decide (is_Some (dict_get (results p) eid)) = bool_decide (is_Some (st_result st))).
  { destruct (dict_get (results p) eid) as [j|]; [by destruct Hres as (x & -> & _)|by rewrite Hres]. }
  by rewrite Hp, Hcan.
Qed.

Lemma ballot_sim m p now eid b sig : sim m p → mem_ok m → ballot_wf b → storable (enc_ballot b) →
  - 2 ^ 63 <= now < 2 ^ 63 → (∀ st, _get m eid = Ok st → len (st_ballots st) < 2 ^ 63) →
  agrees (λ x y, sim x.1 y.1 ∧ x.2 = y.2) (submit_ballot float_repr m now eid b sig)
    (pg.submit_ballot float_repr py_repr p now eid b sig).
Proof.
  intros Hs Hm Hwf [j Hj] Hnow Hfew. unfold submit_ballot, pg.submit_ballot.
  eapply agrees_bind; [apply (config_agrees m p Hs Hm)|]. intros st c Hst _ (-> & Hv & Hok & Hg).
  unfold _require_gateway. rewrite (ok_id _ _ (ok_core _ _ Hok)). apply agrees_same. intros _ _.
  destruct (shows_row _ _ Hv) as (r & Hr & _). cbn [v_row view_of] in Hr. unfold pg._row at 1. rewrite Hr, bind_Ok.
  rewrite (voting_open_same eid m p st now Hs Hv Hok Hg). apply agrees_same. intros _ _.
  pose proof (shows_ballots _ _ Hv) as Hb. cbn [v_ballots view_of] in Hb.
  rewrite (next_seq_same eid st _ (ok_core _ _ Hok) Hb). specialize (Hfew _ Hst).
  assert (Hl : 0 <= len (st_ballots st)) by (unfold len; lia).
  rewrite Hj, bind_Ok, !bigint_Ok, !bind_Ok by lia.
  assert (Hfresh : dict_get (ballots p) (eid, len (st_ballots st)) = None).
  { rewrite <- rows_of_get. apply dict_get_None. rewrite (ballot_keys eid st _ (ok_core _ _ Hok) Hb).
    intros Hin%elem_of_seqZ. unfold len in *. rewrite (Forall2_length _ _ _ Hb) in Hin. lia. }
  unfold insert_row. rewrite Hfresh, bind_Ok. cbn [agrees fst snd]. split; [|done].
  rewrite <- (dict_set_None _ _ (j, now) Hfresh). eapply sim_put; try done.
  - destruct Hv. constructor; try done; view_cbn. rewrite rows_of_set, dict_set_None by (by rewrite rows_of_get).
    apply Forall2_app; [done|]. constructor; [|constructor]. split_and!; [done|by apply jsonb_ballot|done].
  - intros e He. unfold view_of. view_cbn. by rewrite rows_of_set_other.
Qed.

Lemma aggregate_finalized_same eid m p st : sim m p → shows (view_of p eid) st → stored_core eid st →
  dict_get (_elections m) eid = Some st →
  pg._aggregate_finalized p (st_config st) = _aggregate_finalized m st.
Proof.
  intros Hs Hv Hok Hg. unfold pg._aggregate_finalized, _aggregate_finalized. rewrite (ok_id _ _ Hok).
  rewrite (get_aggregate_of m eid st) by (by apply get_Ok || apply Hok).
  pose proof (group_counts_same eid p st Hv Hok) as Ha. unfold agrees in Ha.
  destruct (aggregate_of_total eid st Hok) as [o Ho]. rewrite Ho in *.
  destruct (_ ≫= _) as [o'|] eqn:Eo in Ha; [|done]. apply bind_Ok_inv in Eo as (g & Eg & Eo).
  rewrite Eg, bind_Ok, Eo, !bind_Ok. f_equal. by destruct Ha.
Qed.

Lemma aggregate_sim m p now eid a sig : sim m p → mem_ok m → aggregate_wf a → storable (enc_aggregate a) →
  agrees sim (submit_aggregate m now eid a sig) (pg.submit_aggregate py_repr p now eid a sig).
Proof.
  intros Hs Hm Hwf [j Hj]. unfold submit_aggregate, pg.submit_aggregate.
  eapply agrees_bind; [apply (config_agrees m p Hs Hm)|]. intros st c _ _ (-> & Hv & Hok & Hg).
  apply agrees_same. intros _ _. apply agrees_same. intros d _.
  apply agrees_same. intros i _. destruct (shows_row _ _ Hv) as (r & Hr & _). cbn [v_row view_of] in Hr.
  unfold pg._row at 1. rewrite Hr, bind_Ok.
  pose proof (stores_get _ _ _ i (shows_aggregates _ _ Hv)) as Hi. cbn [v_aggregates view_of] in Hi.
  rewrite rows_of_get in Hi.
  assert (Hsame : match dict_get (pg_aggregates p) (eid, i) with
    | Some existing => a0 ← dec_aggregate existing; Ok (bool_decide (a0 = a)) | None => Ok false end
    = Ok (bool_decide (dict_get (st_aggregate_by_keyper st) i = Some a))).
  { destruct (dict_get (pg_aggregates p) (eid, i)) as [j0|].
    - destruct Hi as (a0 & -> & ->). rewrite bind_Ok. f_equal. apply bool_decide_ext. split; congruence.
    - rewrite Hi. by rewrite bool_decide_eq_false_2. }
  rewrite Hsame, bind_Ok. case_bool_decide; [exact Hs|].
  rewrite (aggregate_finalized_same eid m p st Hs Hv (ok_core _ _ Hok) Hg). apply agrees_same. intros b _.
  apply agrees_same. intros _ _. rewrite Hj, bind_Ok. cbn [agrees]. eapply sim_put; try done.
  - destruct Hv. constructor; try done; view_cbn. rewrite rows_of_set. apply stores_set; [done|by apply jsonb_aggregate].
  - intros e He. unfold view_of. view_cbn. by rewrite rows_of_set_other.
Qed.

Lemma share_sim m p now eid s sig : sim m p → mem_ok m → share_wf s → storable (enc_decryption_share s) →
  agrees sim (submit_decryption_share m now eid s sig) (pg.submit_decryption_share py_repr p now eid s sig).
Proof.
  intros Hs Hm Hwf [j Hj]. unfold submit_decryption_share, pg.submit_decryption_share.
  eapply agrees_bind; [apply (config_agrees m p Hs Hm)|]. intros st c _ _ (-> & Hv & Hok & Hg).
  apply agrees_same. intros _ _. rewrite (aggregate_finalized_same eid m p st Hs Hv (ok_core _ _ Hok) Hg).
  apply agrees_same. intros b _. apply agrees_same. intros _ _. destruct (share_payload s) as [sg pf].
  apply agrees_same. intros d _. apply agrees_same. intros i _.
  apply agrees_same. intros _ _.
  pose proof (stores_get _ _ _ i (shows_shares _ _ Hv)) as Hi. cbn [v_shares view_of] in Hi. rewrite rows_of_get in Hi.
  destruct (dict_get (decryption_shares p) (eid, i)) as [j0|] eqn:Ej.
  - destruct Hi as (s0 & -> & Hs0). rewrite Hs0, bind_Ok. apply agrees_same. intros _ _. exact Hs.
  - rewrite Hi, Hj, bind_Ok. unfold insert_row. rewrite Ej, bind_Ok. cbn [agrees].
    rewrite <- (dict_set_None _ _ j Ej). eapply sim_put; try done.
    + destruct Hv. constructor; try done; view_cbn. rewrite rows_of_set. apply stores_set; [done|by apply jsonb_share].
    + intros e He. unfold view_of. view_cbn. by rewrite rows_of_set_other.
Qed.

Lemma result_sim m p eid r sig : sim m p → mem_ok m → result_wf r → storable (enc_result r) →
  agrees sim (publish_result m eid r sig) (pg.publish_result py_repr p eid r sig).
Proof.
  intros Hs Hm Hwf [j Hj]. unfold publish_result, pg.publish_result.
  eapply agrees_bind; [apply (config_agrees m p Hs Hm)|]. intros st c _ _ (-> & Hv & Hok & Hg).
  apply agrees_same. intros d _. apply agrees_same. intros _ _.
  pose proof (shows_result _ _ Hv) as Hi. cbn [v_result view_of] in Hi.
  destruct (dict_get (results p) eid) as [j0|] eqn:Ej.
  - destruct Hi as (r0 & -> & Hr0). rewrite Hr0, bind_Ok. apply agrees_same. intros _ _. exact Hs.
  - rewrite Hi, Hj, bind_Ok. unfold insert_row. rewrite Ej, bind_Ok. cbn [agrees].
    rewrite <- (dict_set_None _ _ j Ej). eapply sim_put; try done.
    + destruct Hv. constructor; try done; view_cbn. rewrite dict_get_set, decide_True by done.
      exists r. split; [done|by apply jsonb_result].
    + intros e He. unfold view_of. view_cbn. by rewrite dict_get_set, decide_False.
Qed.

Lemma row_update_keys p eid r r' : dict_get (elections p) eid = Some r →
  dict_keys (dict_set (elections p) eid r') = dict_keys (elections p).
Proof. apply dict_keys_update. Qed.

Lemma cancel_sim m p now eid sig : sim m p → mem_ok m →
  agrees sim (cancel_election m now eid sig) (pg.cancel_election p now eid sig).
Proof.
  intros Hs Hm. unfold cancel_election, pg.cancel_election.
  eapply agrees_bind; [apply (row_agrees m p Hs Hm)|]. intros st r _ _ (Hv & (Hc & Ha & Hvs & Hcan & Hst) & Hok & Hg & Hr).
  rewrite Hvs, Ha. apply agrees_same. intros _ _. apply agrees_same. intros _ _. cbn [agrees].
  eapply sim_put; try done.
  - destruct Hv. constructor; try done; view_cbn. rewrite dict_get_set, decide_True by done. eexists. split; [done|].
    unfold row_shows. cbn. split_and!; done.
  - intros e He. unfold view_of. view_cbn. by rewrite dict_get_set, decide_False.
  - by eapply row_update_keys.
Qed.

(** Both succeed with related stores or both raise, perhaps differently. *)
Definition both {A B} (R : A → B → Prop) (m : result A) (p : result B) : Prop :=
  match m, p with Ok a, Ok b => R a b | Err _, Err _ => True | _, _ => False end.

Lemma both_same {A B A'} (R : A → B → Prop) (m : result A') (f : A' → result A) (g : A' → result B) :
  (∀ a, m = Ok a → both R (f a) (g a)) → both R (m ≫= f) (m ≫= g).
Proof. intros Hf. destruct m; [|done]. rewrite !bind_Ok. by apply Hf. Qed.

Lemma both_err {A B A'} (R : A → B → Prop) e (m : result A') (g : A' → result B) :
  (∀ a, m = Ok a → both R (Err e) (g a)) → both R (Err e) (m ≫= g).
Proof. intros Hg. destruct m; [|done]. rewrite bind_Ok. by apply Hg. Qed.

Lemma stalled_sim m p now now' eid b sig t : sim m p → mem_ok m → - 2 ^ 63 <= t < 2 ^ 63 →
  both sim (set_tally_stalled m now now' eid b sig t) (pg.set_tally_stalled py_repr p now now' eid b sig t).
Proof.
  intros Hs Hm Ht. unfold set_tally_stalled, pg.set_tally_stalled.
  pose proof (config_agrees m p Hs Hm eid) as Hc. unfold agrees in Hc.
  destruct (_get m eid) as [st|] eqn:Est, (pg._config py_repr p eid) as [c|] eqn:Ec; try done.
  destruct Hc as (-> & Hv & Hok & Hg). rewrite !bind_Ok. set (op := if b then _ else _).
  apply both_same. intros _ _.
  destruct (shows_row _ _ Hv) as (r & Hr & Hc & Ha & Hvs & Hcan & Hst). cbn [v_row view_of] in Hr.
  pose proof (shows_result _ _ Hv) as Hres. cbn [v_result view_of] in Hres.
  assert (Hp : bool_decide (is_Some (dict_get (results p) eid)) = bool_decide (is_Some (st_result st))).
  { destruct (dict_get (results p) eid) as [j|]; [by destruct Hres as (x & -> & _)|by rewrite Hres]. }
  assert (Hu : bool_decide (is_Some (dict_get (request_nonces p) (eid, op, t)))
             = bool_decide ((eid, op, t) ∈ _used_request_nonces m)) by apply bool_decide_ext, (sim_nonces _ _ Hs).
  rewrite Hp, (bigint_Ok t) by done.
  destruct (bool_decide ((eid, op, t) ∈ _used_request_nonces m)) eqn:Eu; cbn [raise_if].
  - change (Err ?e ≫= _) with (@Err InMemoryDataLayer e). apply both_err. intros pl _. apply both_err. intros _ _.
    rewrite bind_Ok, Hu. done.
  - rewrite bind_Ok. apply both_same. intros pl _. apply both_same. intros _ _. rewrite bind_Ok, Hu.
    cbn [raise_if]. rewrite bind_Ok. unfold pg._row. view_cbn. rewrite Hr, bind_Ok. cbn [both].
    assert (Hnew : dict_get (request_nonces p) (eid, op, t) = None).
    { apply eq_None_not_Some. by apply bool_decide_eq_false in Hu. }
    eapply sim_write; try done.
    + destruct Hv. constructor; try done; view_cbn. rewrite dict_get_set, decide_True by done. eexists. split; [done|].
      unfold row_shows. cbn. split_and!; done.
    + intros e He. unfold view_of. view_cbn. by rewrite dict_get_set, decide_False.
    + by eapply row_update_keys.
    + intros x. view_cbn. rewrite <- (dict_set_None _ _ () Hnew), dict_get_set.
      rewrite elem_of_union, elem_of_singleton, <- (sim_nonces _ _ Hs). destruct (decide (x = (eid, op, t)));
        [split; [by left|by intros _; eexists]|tauto].
Qed.

(** A configuration the elections table can hold. *)
Definition row_storable (c : ElectionConfig) : Prop :=
  storable (enc_config c) ∧ - 2 ^ 63 <= voting_start c < 2 ^ 63.

Lemma register_sim m p c sig : sim m p → mem_ok m → valid_config c → row_storable c → _next_id m + 1 < 2 ^ 63 →
  match register_election float_repr m c sig, pg.register_election float_repr p c sig with
  | Ok (m', eid), (p', Ok eid') => eid' = eid ∧ sim m' p'
  | Err e, (p', Err e') => e' = e ∧ p' = p
  | _, _ => False
  end.
Proof.
  intros Hs Hm Hc [[j Hj] Hvs] Hid. unfold register_election, pg.register_election.
  rewrite (sim_seq _ _ Hs). pose proof (mem_next _ Hm) as Hn.
  destruct (verify_register _ _ _ _); cbn [negb raise_if]; [rewrite bind_Ok|done].
  unfold to_bytes_be. change (256 ^ Z.of_nat 32) with (256 ^ 32).
  assert (H63 : 2 ^ 63 <= 256 ^ 32) by (vm_compute; discriminate).
  rewrite (proj2 (Z.ltb_ge _ _)), (proj2 (Z.leb_gt _ _)) by lia. cbn [orb]. rewrite bind_Ok.
  case_bool_decide as He; cbn [negb raise_if]; [rewrite bind_Ok|done].
  rewrite (bigint_Ok (_next_id m + 1)) by lia.
  rewrite <- He, with_election_id_same, Hj, bind_Ok, bigint_Ok, bind_Ok by done.
  assert (Hfresh : dict_get (_elections m) (election_id c) = None).
  { apply dict_get_None. rewrite He. apply next_id_fresh; [done|lia]. }
  pose proof (sim_none _ _ Hs _ Hfresh) as Hev.
  assert (Hrow : dict_get (elections p) (election_id c) = None) by exact (f_equal v_row Hev).
  cbn [with_seq elections]. unfold insert_row. rewrite Hrow. split; [done|].
  rewrite <- (dict_set_None _ _ _ Hrow).
  constructor; cbn [_elections _next_id _used_request_nonces with_elections with_seq elections request_nonces].
  - unfold pg.peek. cbn [with_elections with_seq election_id_seq]. done.
  - rewrite !dict_keys_set, (sim_keys _ _ Hs). done.
  - intros e st. rewrite dict_get_set. case_decide as Hee.
    + subst e. intros [= <-]. unfold view_of, empty_view in *. view_cbn.
      injection Hev as Hv1 Hv2 Hv3 Hv4 Hv5 Hv6. cbn [with_elections with_seq dkg_submissions ballots decryption_shares
        pg_aggregates results elections]. rewrite Hv2, Hv3, Hv4, Hv5, Hv6, dict_get_set, decide_True by done.
      constructor; cbn; try constructor. eexists. split; [done|]. unfold row_shows. cbn. split_and!; try done.
      apply jsonb_config; [done| |done]. rewrite He. unfold len. by rewrite length_be_bytes.
    + intros Hg. pose proof (sim_shows _ _ Hs _ _ Hg) as [].
      constructor; try done. unfold view_of in *. view_cbn. cbn [with_elections with_seq elections].
      by rewrite dict_get_set, decide_False.
  - intros e. rewrite dict_get_set. case_decide as Hee; [done|]. intros Hg.
    pose proof (sim_none _ _ Hs _ Hg) as Hev'. unfold view_of, empty_view in *.
    cbn [with_elections with_seq elections]. rewrite dict_get_set, decide_False by done. exact Hev'.
  - apply (sim_nonces _ _ Hs).
Qed.

(** ** Reads *)

(** Everything a client can read about an election agrees.  [jsonb] and
    [heap_order] are those of the moment of the read. *)
Record same_reads (m : InMemoryDataLayer) (p : PostgresStore) (eid : bytes) : Prop := {
  same_get_election : pg.get_election py_repr p eid = get_election m eid;
  same_finalized_key : pg.get_finalized_key py_repr p eid = get_finalized_key m eid;
  same_get_aggregate :
    agrees (option_Forall2 (same_aggregate eid)) (get_aggregate m eid) (pg.get_aggregate py_repr p eid);
  same_known st : _get m eid = Ok st →
    pg.get_dkg_submissions p eid = get_dkg_submissions m eid ∧
    pg.count_ballots p eid = count_ballots m eid ∧
    (∀ start count, 0 <= start → 0 <= count < 2 ^ 63 →
       pg.list_ballots p eid start count = list_ballots m eid start count) ∧
    pg.list_decryption_shares p eid = list_decryption_shares m eid ∧
    pg.get_result p eid = get_result m eid;
}.

Lemma py_slice_page {A} (l : list A) start count : 0 <= start → 0 <= count →
  py_slice l start (start + count) = take (Z.to_nat count) (drop (Z.to_nat start) l).
Proof.
  intros Hs Hc. unfold py_slice, py_index. rewrite !(proj2 (Z.ltb_ge _ _)) by lia. unfold len.
  destruct (Z.le_gt_cases (Z.of_nat (length l)) start).
  - rewrite !drop_ge by lia. by rewrite !take_nil.
  - rewrite (Z.min_l start) by lia. destruct (Z.le_gt_cases (start + count) (Z.of_nat (length l))).
    + rewrite Z.min_l by lia. do 2 f_equal. lia.
    + rewrite Z.min_r by lia. rewrite !take_ge; [done|rewrite length_drop; lia..].
Qed.

Lemma sim_reads m p eid : sim m p → mem_ok m → same_reads m p eid.
Proof.
  intros Hs Hm. constructor.
  - unfold pg.get_election, get_election, get_finalized_key.
    pose proof (row_agrees m p Hs Hm eid) as Hr. unfold agrees in Hr.
    destruct (_get m eid) as [st|] eqn:Est, (pg._row p eid) as [r|]; try done; [|by subst].
    destruct Hr as (Hv & (Hc & _ & _ & Hcan & Hst) & Hok & _). rewrite !bind_Ok, Hc, bind_Ok, Hcan, Hst.
    rewrite (finalized_key_same eid p st Hv (ok_core _ _ Hok)). done.
  - unfold pg.get_finalized_key, get_finalized_key.
    pose proof (config_agrees m p Hs Hm eid) as Hr. unfold agrees in Hr.
    destruct (_get m eid) as [st|] eqn:Est, (pg._config py_repr p eid) as [r|]; try done; [|by subst].
    destruct Hr as (-> & Hv & Hok & _). rewrite !bind_Ok. by apply (finalized_key_same eid p st Hv (ok_core _ _ Hok)).
  - unfold pg.get_aggregate. pose proof (config_agrees m p Hs Hm eid) as Hr. unfold agrees in Hr.
    destruct (_get m eid) as [st|] eqn:Est, (pg._config py_repr p eid) as [r|]; try done.
    + destruct Hr as (-> & Hv & Hok & _). rewrite bind_Ok.
      rewrite (get_aggregate_of m eid st Est) by apply Hok. by apply group_counts_same, Hok.
    + unfold get_aggregate. rewrite Est. exact Hr.
  - intros st Est. pose proof (proj1 (get_Ok m eid st) Est) as Hg. pose proof (sim_shows _ _ Hs _ _ Hg) as Hv.
    pose proof (ok_core _ _ (mem_stored _ Hm _ _ Hg)) as Hok.
    unfold get_dkg_submissions, count_ballots, list_ballots, list_decryption_shares, get_result.
    rewrite Est, !bind_Ok. split_and!.
    + apply stores_sorted; [apply (shows_dkg _ _ Hv)|apply Hok].
    + unfold pg.count_ballots. pose proof (shows_ballots _ _ Hv) as Hb. cbn [v_ballots view_of] in Hb.
      unfold len. by rewrite (Forall2_length _ _ _ Hb).
    + intros start count Hst Hc. rewrite bind_Ok, py_slice_page by lia. by apply list_ballots_same.
    + apply stores_sorted; [apply (shows_shares _ _ Hv)|apply Hok].
    + unfold pg.get_result. pose proof (shows_result _ _ Hv) as Hr. cbn [v_result view_of] in Hr.
      destruct (dict_get (results p) eid) as [j|]; [destruct Hr as (r & -> & ->); done|by rewrite Hr].
Qed.

End refinement.

(** * Runs *)

(** The writes of the port. *)
Inductive request :=
| RRegister (c : ElectionConfig) (sig : bytes)
| RCancel (now : Z) (eid sig : bytes)
| RDkg (eid pk : bytes) (pks : list bytes) (sig : bytes)
| RBallot (now : Z) (eid : bytes) (b : BallotEnvelope) (sig : bytes)
| RAggregate (now : Z) (eid : bytes) (a : AggregateArtifact) (sig : bytes)
| RShare (now : Z) (eid : bytes) (s : DecryptionShareEnvelope) (sig : bytes)
| RResult (eid : bytes) (r : ResultArtifact) (sig : bytes)
| RStalled (now now' : Z) (eid : bytes) (b : bool) (sig : bytes) (issued_at : Z).

(** What the caller gets back: nothing, an identifier or a sequence number. *)
Inductive answer := ANone | AId (eid : bytes) | ASeq (n : Z).

(** The store after a request: an exception changes nothing. *)
Definition settle {S} (s : S) (r : result (S * answer)) : S * result answer :=
  match r with Ok (s', a) => (s', Ok a) | Err e => (s, Err e) end.

Section runs.
Context `{CryptoLaws} `{EthAccount} `{Abi} (float_repr : Z → Z → string) (py_repr : json → string).

Definition mem_apply (m : InMemoryDataLayer) (r : request) : InMemoryDataLayer * result answer :=
  settle m match r with
  | RRegister c sig => '(m', eid) ← register_election float_repr m c sig; Ok (m', AId eid)
  | RCancel now eid sig => m' ← cancel_election m now eid sig; Ok (m', ANone)
  | RDkg eid pk pks sig => m' ← submit_dkg_result m eid pk pks sig; Ok (m', ANone)
  | RBallot now eid b sig => '(m', n) ← submit_ballot float_repr m now eid b sig; Ok (m', ASeq n)
  | RAggregate now eid a sig => m' ← submit_aggregate m now eid a sig; Ok (m', ANone)
  | RShare now eid s sig => m' ← submit_decryption_share m now eid s sig; Ok (m', ANone)
  | RResult eid r sig => m' ← publish_result m eid r sig; Ok (m', ANone)
  | RStalled now now' eid b sig t => m' ← set_tally_stalled m now now' eid b sig t; Ok (m', ANone)
  end.

Definition pg_apply (P : Postgres) (p : PostgresStore) (r : request) : PostgresStore * result answer :=
  match r with
  | RRegister c sig => let '(p', r) := pg.register_election float_repr p c sig in (p', eid ← r; Ok (AId eid))
  | RCancel now eid sig => settle p (p' ← pg.cancel_election p now eid sig; Ok (p', ANone))
  | RDkg eid pk pks sig => settle p (p' ← pg.submit_dkg_result py_repr p eid pk pks sig; Ok (p', ANone))
  | RBallot now eid b sig =>
      settle p ('(p', n) ← pg.submit_ballot float_repr py_repr p now eid b sig; Ok (p', ASeq n))
  | RAggregate now eid a sig => settle p (p' ← pg.submit_aggregate py_repr p now eid a sig; Ok (p', ANone))
  | RShare now eid s sig => settle p (p' ← pg.submit_decryption_share py_repr p now eid s sig; Ok (p', ANone))
  | RResult eid r sig => settle p (p' ← pg.publish_result py_repr p eid r sig; Ok (p', ANone))
  | RStalled now now' eid b sig t =>
      settle p (p' ← pg.set_tally_stalled py_repr p now now' eid b sig t; Ok (p', ANone))
  end.

(** What the columns can hold: artifacts as the decoders return them, values
    [jsonb] accepts, times of 64 bits. *)
Definition request_ok (P : Postgres) (r : request) : Prop :=
  match r with
  | RRegister c _ => valid_config c ∧ row_storable c
  | RCancel _ _ _ => True
  | RDkg eid pk pks sig =>
      let s := mkDKGResultSubmission eid pk pks sig in dkg_result_wf s ∧ storable (enc_dkg_result s)
  | RBallot now _ b _ => ballot_wf b ∧ storable (enc_ballot b) ∧ - 2 ^ 63 <= now < 2 ^ 63
  | RAggregate _ _ a _ => aggregate_wf a ∧ storable (enc_aggregate a)
  | RShare _ _ s _ => share_wf s ∧ storable (enc_decryption_share s)
  | RResult _ r _ => result_wf r ∧ storable (enc_result r)
  | RStalled _ _ _ _ _ t => - 2 ^ 63 <= t < 2 ^ 63
  end.

(** The same answer or the same exception; a stall request may fail for
    another reason, since the adapters check the spent requests at different
    times. *)
Definition same_answer (r : request) (a a' : result answer) : Prop :=
  a = a' ∨ match r with RStalled _ _ _ _ _ _ => is_ok a = false ∧ is_ok a' = false | _ => False end.

Fixpoint mem_run (m : InMemoryDataLayer) (l : list (Postgres * request)) : InMemoryDataLayer * list (result answer) :=
  match l with
  | [] => (m, [])
  | (_, r) :: l => let '(m', a) := mem_apply m r in let '(m'', al) := mem_run m' l in (m'', a :: al)
  end.

Fixpoint pg_run (p : PostgresStore) (l : list (Postgres * request)) : PostgresStore * list (result answer) :=
  match l with
  | [] => (p, [])
  | (P, r) :: l => let '(p', a) := pg_apply P p r in let '(p'', al) := pg_run p' l in (p'', a :: al)
  end.

(** ** One request *)

Lemma settle_unit m p (M : result InMemoryDataLayer) (Q : result PostgresStore) : sim py_repr m p →
  agrees (sim py_repr) M Q →
  let x := settle m (m' ← M; Ok (m', ANone)) in let y := settle p (p' ← Q; Ok (p', ANone)) in
  sim py_repr x.1 y.1 ∧ x.2 = y.2.
Proof. intros Hs. destruct M, Q; cbn; try done. by intros ->. Qed.

Lemma apply_sim (P : Postgres) m p r : PostgresLaws → sim py_repr m p → mem_ok m → request_ok P r →
  _next_id m + 1 < 2 ^ 63 → (∀ eid st, _get m eid = Ok st → len (st_ballots st) < 2 ^ 63) →
  sim py_repr (mem_apply m r).1 (pg_apply P p r).1 ∧ same_answer r (mem_apply m r).2 (pg_apply P p r).2.
Proof.
  intros HP Hs Hm Hr Hid Hfew.
  assert (Hsame : ∀ x y, sim py_repr x.1 y.1 ∧ x.2 = y.2 → sim py_repr x.1 y.1 ∧ same_answer r x.2 y.2)
    by (intros x y [? ?]; split; [done|by left]).
  destruct r as [c sig|now eid sig|eid pk pks sig|now eid b sig|now eid a sig|now eid s sig|eid r sig
    |now now' eid b sig t]; unfold mem_apply, pg_apply, request_ok in *.
  - apply Hsame. pose proof (register_sim float_repr py_repr m p c sig Hs Hm (proj1 Hr) (proj2 Hr) Hid) as Hreg.
    destruct (register_election float_repr m c sig) as [[m' e]|e], (pg.register_election float_repr p c sig) as [p' [e'|e']];
      try done; destruct Hreg as [-> Hreg]; cbn; [done|by subst].
  - apply Hsame, settle_unit; [done|]. by apply cancel_sim.
  - destruct Hr. apply Hsame, settle_unit; [done|]. by apply dkg_sim.
  - apply Hsame.
    pose proof (ballot_sim float_repr py_repr m p now eid b sig Hs Hm (proj1 Hr) (proj1 (proj2 Hr))
      (proj2 (proj2 Hr)) (Hfew eid)) as Hb.
    unfold agrees in Hb. destruct (submit_ballot float_repr m now eid b sig) as [[m' n]|e],
      (pg.submit_ballot float_repr py_repr p now eid b sig) as [[p' n']|e']; try done; cbn in *;
      [destruct Hb as [Hb ->]; done|by subst].
  - destruct Hr. apply Hsame, settle_unit; [done|]. by apply aggregate_sim.
  - destruct Hr. apply Hsame, settle_unit; [done|]. by apply share_sim.
  - destruct Hr. apply Hsame, settle_unit; [done|]. by apply result_sim.
  - pose proof (stalled_sim float_repr py_repr m p now now' eid b sig t Hs Hm Hr) as Hb. unfold both in Hb.
    destruct (set_tally_stalled m now now' eid b sig t) as [m'|e],
      (pg.set_tally_stalled py_repr p now now' eid b sig t) as [p'|e']; try done; cbn; split; try done;
      [by left|by right].
Qed.

(** A request changes nothing or is one step of the reference store. *)
Lemma apply_step (P : Postgres) m r : request_ok P r →
  (mem_apply m r).1 = m ∨ step float_repr m (mem_apply m r).1.
Proof.
  intros Hr. unfold mem_apply.
  destruct r as [c sig|now eid sig|eid pk pks sig|now eid b sig|now eid a sig|now eid s sig|eid r sig
    |now now' eid b sig t]; cbn [request_ok] in Hr.
  - destruct (register_election float_repr m c sig) as [[m' e]|] eqn:E; [|by left]. right.
    by eapply step_register; [apply Hr|].
  - destruct (cancel_election m now eid sig) eqn:E; [|by left]. right. by eapply step_cancel.
  - destruct (submit_dkg_result m eid pk pks sig) eqn:E; [|by left]. right. by eapply step_dkg.
  - destruct (submit_ballot float_repr m now eid b sig) as [[m' n]|] eqn:E; [|by left]. right.
    by eapply step_ballot.
  - destruct (submit_aggregate m now eid a sig) eqn:E; [|by left]. right. by eapply step_aggregate.
  - destruct (submit_decryption_share m now eid s sig) eqn:E; [|by left]. right. by eapply step_share.
  - destruct (publish_result m eid r sig) eqn:E; [|by left]. right. by eapply step_result.
  - destruct (set_tally_stalled m now now' eid b sig t) eqn:E; [|by left]. right. by eapply step_stalled.
Qed.

(** At most [k] elections, and at most [k] ballots in each. *)
Definition within (k : Z) (m : InMemoryDataLayer) : Prop :=
  _next_id m <= k ∧ ∀ eid st, dict_get (_elections m) eid = Some st → len (st_ballots st) <= k.

Lemma write_grows eid st st' : write eid st st' → len (st_ballots st') <= len (st_ballots st) + 1.
Proof.
  destruct 1; unfold len; cbn [st_ballots set_cancelled set_dkg append_ballot set_aggregates set_shares set_result
    set_stalled]; rewrite ?length_app; cbn [length]; lia.
Qed.

Lemma effect_within k m m' : 0 <= k → effect m m' → within k m → within (k + 1) m'.
Proof.
  intros Hk He [Hn Hb]. destruct He as [|c _ _ _|eid st st' nonces Hg Hw _]; split;
    cbn [_next_id _elections]; try lia; intros e s Hs.
  - specialize (Hb _ _ Hs). lia.
  - rewrite dict_get_set in Hs. case_decide; [simplify_eq; unfold len; cbn [st_ballots new_stored length]; lia|]. specialize (Hb _ _ Hs). lia.
  - rewrite dict_get_set in Hs. case_decide; [simplify_eq|specialize (Hb _ _ Hs); lia].
    pose proof (write_grows _ _ _ Hw). specialize (Hb _ _ Hg). lia.
Qed.

Lemma apply_effect (P : Postgres) m r : mem_ok m → request_ok P r → effect m (mem_apply m r).1.
Proof.
  intros Hm Hr. destruct (apply_step P m r Hr) as [->|Hs]; [constructor|by eapply step_effect].
Qed.

Lemma run_sim l m p k : mem_ok m → sim py_repr m p → within k m → 0 <= k → k + len l + 1 < 2 ^ 63 →
  Forall (λ x, @PostgresLaws x.1 ∧ request_ok x.1 x.2) l →
  mem_ok (mem_run m l).1 ∧ sim py_repr (mem_run m l).1 (pg_run p l).1 ∧
  Forall2 (λ x '(a, a'), same_answer x.2 a a') l (zip (mem_run m l).2 (pg_run p l).2).
Proof.
  revert m p k. induction l as [|[P r] l IH]; intros m p k Hm Hs Hw Hk Hl Hall; [split_and!; [done..|constructor]|].
  apply Forall_cons in Hall as [[HP Hr] Hall]. cbn [fst snd] in HP, Hr. unfold len in Hl. cbn [length] in Hl.
  destruct (apply_sim P m p r HP Hs Hm Hr) as [Hs' Ha].
  { destruct Hw. lia. }
  { intros eid st Hg%get_Ok. destruct Hw as [_ Hb]. specialize (Hb _ _ Hg). lia. }
  pose proof (apply_effect P m r Hm Hr) as He.
  specialize (IH _ _ (k + 1) (effect_ok float_repr _ _ Hm He) Hs' (effect_within _ _ _ Hk He Hw) ltac:(lia)
    ltac:(unfold len; lia) Hall).
  cbn [mem_run pg_run]. destruct (mem_apply m r) as [m1 a1], (pg_apply P p r) as [p1 a1']. cbn [fst snd] in *.
  destruct (mem_run m1 l) as [m2 al], (pg_run p1 l) as [p2 al']. cbn [fst snd] in *.
  destruct IH as (? & ? & ?). split_and!; [done..|]. cbn [zip zip_with]. by constructor.
Qed.

Lemma new_sim : sim py_repr new_memory new_postgres.
Proof.
  constructor; [done..| |].
  - intros eid _. done.
  - intros x. cbn. split; [by intros []|set_solver].
Qed.


(** a registration that passes every check but does not fit its row (a start
    time of more than 63 bits) is refused by the database adapter, yet consumes
    the identifier it asserted, although the adapter means identifiers to stay
    dense; the in-memory adapter accepts it. *)
Theorem failed_insert_burns_id (P : Postgres) m p c sig :
  verify_register float_repr (admin_key c) sig c = true →
  sim py_repr m p → mem_ok m → _next_id m + 1 < 2 ^ 63 → election_id c = be_bytes 32 (_next_id m + 1) →
  2 ^ 63 <= voting_start c →
  ∃ p' e, pg.register_election float_repr p c sig = (p', Err e) ∧
    elections p' = elections p ∧ pg.peek p' = pg.peek p + 1 ∧
    pg.register_election float_repr p' c sig = (p', Err ImmutabilityError) ∧
    ∃ m', register_election float_repr m c sig = Ok (m', election_id c).
Proof.
  intros Hsig Hs Hm Hid He Hvs. pose proof (mem_next _ Hm) as Hn.
  assert (H63 : 2 ^ 63 < 256 ^ 32) by (vm_compute; reflexivity).
  assert (Hb : ∀ n, 0 <= n <= 2 ^ 63 → to_bytes_be n 32 = Ok (be_bytes 32 n)).
  { intros n Hnr. unfold to_bytes_be. change (256 ^ Z.of_nat 32) with (256 ^ 32).
    by rewrite (proj2 (Z.ltb_ge _ _)), (proj2 (Z.leb_gt _ _)) by lia. }
  set (p' := with_seq p (_next_id m + 1, true)).
  assert (Hins : ∃ e, (j ← jsonb (enc_config c); vs ← bigint (voting_start c);
    insert_row (elections p') (election_id c) (mkRow j (admin_key c) vs false false)) = Err e).
  { destruct (jsonb (enc_config c)) as [j|e]; [|by eexists]. rewrite bind_Ok. unfold bigint.
    rewrite (proj2 (Z.ltb_ge _ _)), andb_false_r by lia. by eexists. }
  destruct Hins as [e Hins]. exists p', e. unfold pg.register_election, register_election.
  rewrite !Hsig, (sim_seq _ _ _ Hs). cbn [negb raise_if].
  replace (pg.peek p') with (_next_id m + 1 + 1) by done.
  rewrite !Hb, bind_Ok by lia. rewrite bind_Ok.
  rewrite (bool_decide_eq_true_2 _ He), (bigint_Ok (_next_id m + 1)) by lia. cbn [negb raise_if].
  rewrite <- He, with_election_id_same, bind_Ok. cbv zeta. fold p'. rewrite Hins.
  split_and!; [done|done|done| |by eexists].
  rewrite bool_decide_eq_false_2; [done|]. rewrite He. intros E%be_bytes_inj;
    change (256 ^ Z.of_nat 32) with (256 ^ 32); lia.
Qed.

(** Reads of an election that does not exist: the reference raises, the
    database adapter answers. *)
Lemma unknown_election_reads m p eid : sim py_repr m p → _get m eid = Err KeyError →
  (count_ballots m eid, get_result m eid, get_dkg_submissions m eid) = (Err KeyError, Err KeyError, Err KeyError) ∧
  (pg.count_ballots p eid, pg.get_result p eid, pg.get_dkg_submissions p eid) = (Ok 0, Ok None, Ok []).
Proof.
  intros Hs Hg. split; [unfold count_ballots, get_result, get_dkg_submissions; by rewrite Hg|].
  assert (Hn : dict_get (_elections m) eid = None) by (unfold _get in Hg; by destruct (dict_get _ _)).
  pose proof (sim_none _ _ _ Hs _ Hn) as Hv. unfold view_of, empty_view in Hv. injection Hv as _ E1 E2 _ _ E3.
  unfold pg.count_ballots, pg.get_result, pg.get_dkg_submissions. by rewrite E1, E2, E3.
Qed.

End runs.

(** * The port *)

Section port.
Context `{CryptoLaws} `{EthAccount} `{Abi} (float_repr : Z → Z → string) (py_repr : json → string) `{PostgresLaws}.

(** The database adapter as an instance of the storage port. *)
Definition postgres_layer : DataLayer PostgresStore := {|
  dl_register_election p c sig := let '(p', r) := pg.register_election float_repr p c sig in eid ← r; Ok (p', eid);
  dl_cancel_election := pg.cancel_election;
  dl_list_elections p f := Ok (pg.list_elections p f);
  dl_get_election := pg.get_election py_repr;
  dl_get_dkg_submissions := pg.get_dkg_submissions;
  dl_get_finalized_key := pg.get_finalized_key py_repr;
  dl_list_ballots := pg.list_ballots;
  dl_count_ballots := pg.count_ballots;
  dl_get_aggregate := pg.get_aggregate py_repr;
  dl_list_decryption_shares := pg.list_decryption_shares;
  dl_get_result := pg.get_result;
  dl_submit_dkg_result := pg.submit_dkg_result py_repr;
  dl_submit_ballot := pg.submit_ballot float_repr py_repr;
  dl_submit_aggregate := pg.submit_aggregate py_repr;
  dl_submit_decryption_share := pg.submit_decryption_share py_repr;
  dl_publish_result := pg.publish_result py_repr;
  dl_set_tally_stalled := pg.set_tally_stalled py_repr;
  dl_verifiability_tier := pg.verifiability_tier;
|}.

#[local] Existing Instance postgres_layer.

Lemma postgres_serves m p eid st : sim py_repr m p → mem_ok m → _get m eid = Ok st → serves p eid (st_ballots st).
Proof.
  intros Hs Hm Hst. pose proof (memory_serves float_repr m eid st Hm Hst) as [Hc Hp Ho].
  destruct (same_known _ _ _ _ (sim_reads py_repr m p eid Hs Hm) st Hst) as (_ & Ec & El & _).
  constructor; cbn [dl_count_ballots dl_list_ballots postgres_layer].
  - by rewrite Ec.
  - intros start count Hst0 Hct. rewrite El by done. by apply Hp.
  - exact Ho.
Qed.

(** Tables that the simulation relates to a reference store keep the promises
    of the port, so what is proved of the services over any lawful data layer
    holds over the database. *)
Definition postgres_port_laws : DataLayerLaws PostgresStore.
Proof.
  refine {| dl_ok p := ∃ m, sim py_repr m p ∧ mem_ok m |}. intros p eid rec (m & Hs & Hm) Hr. cbn in Hr.
  rewrite (same_get_election _ _ _ _ (sim_reads py_repr m p eid Hs Hm)) in Hr. unfold get_election in Hr.
  apply bind_Ok_inv in Hr as (st & Hst & _). exists (st_ballots st). by eapply postgres_serves.
Defined.

End port.

(** * The hypotheses hold *)

(** A database that keeps the order of keys and lists rows newest first. *)
Module newest_first.

Definition postgres : Postgres := {| jsonb v := Ok v; heap_order A l := reverse l |}.

Lemma postgres_laws : @PostgresLaws postgres.
Proof.
  constructor.
  - intros v v' Hp Hv. cbn in Hv. apply Ok_inj in Hv as <-. by apply plain_refl.
  - intros A l. apply reverse_Permutation.
Qed.

End newest_first.

Module postgres_example.
Import prefix_abi naming_account gateway_example election_example newest_first.
#[local] Existing Instance concrete_crypto.
#[local] Existing Instance newest_first.postgres.

Definition result_sig : bytes := Eval vm_compute in
  get_ok [] (payload ← result_digest eid published; signer_sign publisher "result" eid payload).

(** A whole election, with a refused share of a stranger in between. *)
Definition requests : list request :=
  [RRegister cfg reg_sig; RDkg eid pk pks (key_sig 1); RDkg eid pk pks (key_sig 2);
   RBallot 151 eid (envelope admission_example.alice2) []; RBallot 153 eid (envelope admission_example.bob1) [];
   RAggregate 211 eid artifact (agg_sig 1); RAggregate 212 eid artifact (agg_sig 3);
   RShare 221 eid share3.1 share1.2; RShare 221 eid share3.1 share3.2; RShare 222 eid share1.1 share1.2;
   RResult eid published result_sig].
Definition history : list (Postgres * request) := (λ r, (postgres, r)) <$> requests.

Lemma stores_all v : @storable postgres v.
Proof. by exists v. Qed.

(** An artifact that its codec returns unchanged is well sized. *)
Lemma dkg_request_ok i : i = 1 ∨ i = 2 → request_ok postgres (RDkg eid pk pks (key_sig i)).
Proof.
  intros Hi. split; [|apply stores_all]. match goal with |- dkg_result_wf ?x => apply (dec_dkg_result_wf (enc_dkg_result x)) end.
  destruct Hi as [->| ->]; vm_compute; reflexivity.
Qed.
Lemma ballot_request_ok now b : b = envelope admission_example.alice2 ∨ b = envelope admission_example.bob1 →
  0 <= now < 1000 → request_ok postgres (RBallot now eid b []).
Proof.
  intros Hb Hn. split; [|split; [apply stores_all|lia]]. apply (dec_ballot_wf (enc_ballot b)).
  destruct Hb as [->| ->]; vm_compute; reflexivity.
Qed.
Lemma aggregate_request_ok now i : request_ok postgres (RAggregate now eid artifact (agg_sig i)).
Proof.
  split; [|apply stores_all]. apply (dec_aggregate_wf (enc_aggregate artifact)). vm_compute. reflexivity.
Qed.
Lemma share_request_ok now s sig : s = share1.1 ∨ s = share3.1 → request_ok postgres (RShare now eid s sig).
Proof.
  intros Hs. split; [|apply stores_all]. apply (dec_share_wf (enc_decryption_share s)).
  destruct Hs as [->| ->]; vm_compute; reflexivity.
Qed.
Lemma result_request_ok : request_ok postgres (RResult eid published result_sig).
Proof.
  split; [|apply stores_all]. apply (dec_result_wf (enc_result published)). vm_compute. reflexivity.
Qed.
Lemma register_request_ok : request_ok postgres (RRegister cfg reg_sig).
Proof. split; [apply gateway_cfg_valid|]. split; [apply stores_all|split; vm_compute; congruence]. Qed.

Lemma history_ok : Forall (λ x, @PostgresLaws x.1 ∧ request_ok x.1 x.2) history.
Proof.
  unfold history. apply Forall_fmap, Forall_forall. intros r Hr. split; [exact postgres_laws|]. cbn [fst snd].
  unfold requests in Hr.
  repeat (apply elem_of_cons in Hr as [->|Hr];
    [first [apply register_request_ok|apply dkg_request_ok; by auto|apply ballot_request_ok; [by auto|lia]
           |apply aggregate_request_ok|apply share_request_ok; by auto|apply result_request_ok]|]).
  by apply not_elem_of_nil in Hr.
Qed.

Definition final_memory : InMemoryDataLayer := Eval vm_compute in (mem_run float_text new_memory history).1.
Definition final_postgres : PostgresStore := Eval vm_compute in (pg_run float_text (λ _, "") new_postgres history).1.
Definition answers : list (result answer) :=
  [Ok (AId eid); Ok ANone; Ok ANone; Ok (ASeq 0); Ok (ASeq 1); Ok ANone; Ok ANone;
   Err WriteAuthorizationError; Ok ANone; Ok ANone; Ok ANone].

Lemma pg_ran : pg_run float_text (λ _, "") new_postgres history = (final_postgres, answers).
Proof. vm_compute. reflexivity. Qed.
Lemma mem_ran : mem_run float_text new_memory history = (final_memory, answers).
Proof. vm_compute. reflexivity. Qed.


(** An election that starts in the year 292 billion. *)
Definition late_cfg : ElectionConfig :=
  mkElectionConfig eid 2 1 EXACT VariantA true LAST_WINS (2 ^ 63) (2 ^ 63 + 1) (mkThreshold 2 3) (keypers cfg)
    (eligibility_key cfg) (addr 8) [] (addr 7) "1" 1 0.
Definition late_sig : bytes := Eval vm_compute in get_ok [] (sign_register float_text 7 late_cfg).

Lemma failed_insert_burns_id_witness : ∃ p' e,
  pg.register_election float_text new_postgres late_cfg late_sig = (p', Err e) ∧ pg.peek p' = 2 ∧
  pg.register_election float_text p' cfg reg_sig = (p', Err ImmutabilityError) ∧
  ∃ m', register_election float_text new_memory late_cfg late_sig = Ok (m', eid).
Proof.
  destruct (failed_insert_burns_id float_text (λ _, "") postgres new_memory new_postgres late_cfg late_sig)
    as (p' & e & Hr & _ & Hp & _ & Hm);
    [vm_compute; reflexivity|apply new_sim|apply new_memory_ok|vm_compute; reflexivity|vm_compute; reflexivity
    |vm_compute; discriminate|].
  exists p', e. split_and!; [exact Hr|exact Hp| |exact Hm].
  assert (p' = with_seq new_postgres (1, true)) as ->.
  { apply (f_equal fst) in Hr. cbn [fst] in Hr. rewrite <- Hr. vm_compute. reflexivity. }
  vm_compute. reflexivity.
Defined.

End postgres_example.
