(* ===== verification/Auditor.v ===== *)
(** The public audit (services/auditor/auditor.py) over any data layer. *)

From S2P Require Import Prelude Params Primality Field Points Transcript Elgamal Proofs Recovery Dkg Types Config Schnorr Ballot Admission Aggregation Codecs WriteAuth Quorum DataLayer DataLayerSafety Port Gateway Keyper Tally.

Record AuditReport := mkAuditReport {
  dkg_ok : bool;
  aggregate_ok : bool;
  shares_ok : bool;
  result_ok : bool;
  discrepancies : list string;
}.

(** The [ok] property. *)
Definition report_ok (r : AuditReport) : bool :=
  dkg_ok r && aggregate_ok r && shares_ok r && result_ok r && bool_decide (discrepancies r = []).

Section auditor.
Context `{Crypto} `{EthAccount} `{Abi}.
Context {store : Type} `{DataLayer store}.

Definition _submitter_index (cfg : ElectionConfig) (eid : bytes) (sub : DKGResultSubmission) : option Z :=
  match (d ← dkg_result_digest eid (dkg_pk_election sub) (dkg_committee_pks sub);
         recover_digest d (dkg_keyper_signature sub)) with
  | Err _ => None
  | Ok recovered => match find_keyper (keypers cfg) 1 recovered with Ok i => Some i | Err _ => None end
  end.

(** The loop over the submissions: the groups and the complaints. *)
Definition audit_group_step (cfg : ElectionConfig) (eid : bytes)
    (acc : dict (bytes * list bytes) (gset Z) * list string) (sub : DKGResultSubmission)
  : dict (bytes * list bytes) (gset Z) * list string :=
  let '(groups, ds) := acc in
  match _submitter_index cfg eid sub with
  | None => (groups, ds ++ ["dkg: a submission is signed by no registered keyper"])
  | Some idx =>
      (dict_set groups (dkg_key sub) ({[idx]} ∪ default ∅ (dict_get groups (dkg_key sub))), ds)
  end.

(** [next((k for k, v in groups.items() if len(v) >= quorum), None)] *)
Definition first_quorum (groups : dict (bytes * list bytes) (gset Z)) (q : Z) : option (bytes * list bytes) :=
  fst <$> head (filter (λ g, q <= Z.of_nat (size g.2)) groups).

(** The complaints about the aggregate. *)
Definition aggregate_complaints (recomputed published : AggregateArtifact) : list string :=
  (if bool_decide (agg_admitted recomputed = agg_admitted published) then []
   else ["aggregate: admitted set differs from recomputation"]) ++
  (if bool_decide (aggregates recomputed = aggregates published) then []
   else ["aggregate: ciphertexts differ from recomputation"]) ++
  (if bool_decide (agg_exclusions recomputed = agg_exclusions published) then []
   else ["aggregate: exclusions differ from recomputation"]) ++
  (if bool_decide (agg_total_admitted_weight recomputed = agg_total_admitted_weight published) then []
   else ["aggregate: total admitted weight differs"]).

(** Steps 3 and 4: the shares and the published result. *)
Definition audit_result (cfg : ElectionConfig) (agg : AggregateArtifact) (shares : list DecryptionShareEnvelope)
    (fk : FinalizedKey) (published : option ResultArtifact) (dkg agg_ok : bool) (ds : list string)
  : result AuditReport :=
  match published with
  | None => Ok (mkAuditReport dkg agg_ok false false (ds ++ ["result: none published"]))
  | Some r =>
      '(ok, reason) ← check_result cfg agg shares (committee_pks fk) (thr_t (threshold cfg)) (totals r);
      if ok : bool then
        let expected_bound := bsgs_bound cfg (agg_total_admitted_weight agg) in
        if negb (res_bsgs_bound r =? expected_bound) then
          Ok (mkAuditReport dkg agg_ok true false
                (ds ++ ["result: published BSGS bound " +:+ pretty (res_bsgs_bound r)
                        +:+ " != derived " +:+ pretty expected_bound]))
        else Ok (mkAuditReport dkg agg_ok true true ds)
      else
        match reason with
        | None => Err TypeError
        | Some why =>
            Ok (mkAuditReport dkg agg_ok (negb (String.prefix "shares:" why)) false (ds ++ [why]))
        end
  end.

Definition audit (s : store) (eid : bytes) : result AuditReport :=
  rec ← dl_get_election s eid;
  let cfg := rec_config rec in
  submissions ← dl_get_dkg_submissions s eid;
  let '(groups, ds) := foldl (audit_group_step cfg eid) ([], []) submissions in
  let finalized := first_quorum groups (quorum (threshold cfg)) in
  published_key ← dl_get_finalized_key s eid;
  let '(dkg, ds) :=
    match finalized, published_key with
    | None, _ => (false, ds ++ ["dkg: no quorum among submissions"])
    | Some k, Some fk =>
        if bool_decide ((pk_election fk, committee_pks fk) = k) then (true, ds)
        else (false, ds ++ ["dkg: published finalized key disagrees with recomputation"])
    | Some _, None => (false, ds ++ ["dkg: published finalized key disagrees with recomputation"])
    end in
  match published_key with
  | None => Ok (mkAuditReport dkg false false false ds)
  | Some fk =>
      stored ← read_all_ballots s eid;
      admission ← admit_ballots stored cfg (pk_election fk);
      recomputed ← build_aggregate_artifact cfg admission;
      published_agg ← dl_get_aggregate s eid;
      match published_agg with
      | None => Ok (mkAuditReport dkg false false false (ds ++ ["aggregate: none published"]))
      | Some agg =>
          let agg_ok := bool_decide (recomputed = agg) in
          let ds := if agg_ok then ds else ds ++ aggregate_complaints recomputed agg in
          shares ← dl_list_decryption_shares s eid;
          published ← dl_get_result s eid;
          audit_result cfg agg shares fk published dkg agg_ok ds
      end
  end.

(** * What a clean report means *)

(** The committee members that signed this key. *)
Definition signed_submitters (cfg : ElectionConfig) (eid : bytes) (subs : list DKGResultSubmission)
    (k : bytes * list bytes) : gset Z :=
  list_to_set (omap (λ sub, if bool_decide (dkg_key sub = k) then _submitter_index cfg eid sub else None) subs).

Lemma audit_groups cfg eid subs k :
  default ∅ (dict_get (foldl (audit_group_step cfg eid) ([], []) subs).1 k) = signed_submitters cfg eid subs k.
Proof.
  induction subs as [|sub subs IH] using rev_ind; [done|]. rewrite foldl_snoc.
  unfold signed_submitters. rewrite omap_app, list_to_set_app_L.
  change (list_to_set (omap _ subs)) with (signed_submitters cfg eid subs k). rewrite <- IH.
  destruct (foldl _ _ subs) as [groups ds]. unfold audit_group_step. cbn [fst].
  destruct (_submitter_index cfg eid sub) as [i|] eqn:Ei; cbn [fst omap list_omap].
  - rewrite Ei, dict_get_set. case_decide as Hk.
    + subst k. rewrite bool_decide_eq_true_2 by done. cbn [from_option id]. set_solver.
    + rewrite bool_decide_eq_false_2 by congruence. set_solver.
  - rewrite Ei. destruct (bool_decide _); set_solver.
Qed.

Lemma group_keys_nodup cfg eid subs :
  NoDup (dict_keys (foldl (audit_group_step cfg eid) ([], []) subs).1).
Proof.
  induction subs as [|sub subs IH] using rev_ind; [constructor|]. rewrite foldl_snoc.
  destruct (foldl _ _ subs) as [groups ds]. unfold audit_group_step. cbn [fst] in *.
  destruct (_submitter_index cfg eid sub); cbn [fst]; [by apply dict_set_NoDup|done].
Qed.

Lemma first_quorum_Some groups q k : NoDup (dict_keys groups) → first_quorum groups q = Some k →
  q <= Z.of_nat (size (default ∅ (dict_get groups k))).
Proof.
  unfold first_quorum. intros Hnd Hf. destruct (filter _ groups) as [|[k' s] l] eqn:E; [done|].
  injection Hf as <-. assert (Hin : (k', s) ∈ filter (λ g, q <= Z.of_nat (size g.2)) groups) by (rewrite E; left).
  apply list_elem_of_filter in Hin as [Hs Hin]. cbn [fst snd] in *.
  by rewrite (elem_dict_get _ _ _ Hnd Hin).
Qed.

Lemma report_ok_spec r : report_ok r = true →
  dkg_ok r = true ∧ aggregate_ok r = true ∧ shares_ok r = true ∧ result_ok r = true ∧ discrepancies r = [].
Proof.
  unfold report_ok. intros Hr. repeat (apply andb_prop in Hr as [Hr ?]).
  split_and!; try done. by eapply bool_decide_eq_true_1.
Qed.

Lemma audit_result_ok cfg agg shares fk published dkg agg_ok ds rep :
  audit_result cfg agg shares fk published dkg agg_ok ds = Ok rep → report_ok rep = true →
  dkg = true ∧ agg_ok = true ∧ ds = [] ∧ ∃ r, published = Some r
    ∧ (∃ why, check_result cfg agg shares (committee_pks fk) (thr_t (threshold cfg)) (totals r) = Ok (true, why))
    ∧ res_bsgs_bound r = bsgs_bound cfg (agg_total_admitted_weight agg).
Proof.
  intros Ha (Hd & Hg & _ & Hr & Hds)%report_ok_spec. unfold audit_result in Ha.
  destruct published as [r|]; [|apply Ok_inj in Ha as <-; done].
  apply bind_Ok_inv in Ha as ([ok why] & Hc & Ha). destruct ok.
  - destruct (Z.eqb_spec (res_bsgs_bound r) (bsgs_bound cfg (agg_total_admitted_weight agg))); cbn [negb] in Ha;
      apply Ok_inj in Ha as <-; [|done]. cbn in *. eauto 10.
  - destruct why; [|done]. apply Ok_inj in Ha as <-. done.
Qed.

(** C24: A clean audit is conclusive: if the report is ok, then a quorum of
    committee members signed the published key, the published aggregate is the
    one this audit re-derives from the complete ballot list, the published
    totals pass the share-by-share check against that aggregate, and nothing was
    skipped. *)
Theorem clean_audit_sound (s : store) eid rep : audit s eid = Ok rep → report_ok rep = true →
  ∃ rec subs fk stored adm agg shares r why,
    dl_get_election s eid = Ok rec ∧ dl_get_dkg_submissions s eid = Ok subs
    ∧ dl_get_finalized_key s eid = Ok (Some fk)
    ∧ quorum (threshold (rec_config rec)) <= Z.of_nat (size (signed_submitters (rec_config rec) eid subs
        (pk_election fk, committee_pks fk)))
    ∧ read_all_ballots s eid = Ok stored
    ∧ admit_ballots stored (rec_config rec) (pk_election fk) = Ok adm
    ∧ build_aggregate_artifact (rec_config rec) adm = Ok agg ∧ dl_get_aggregate s eid = Ok (Some agg)
    ∧ dl_list_decryption_shares s eid = Ok shares ∧ dl_get_result s eid = Ok (Some r)
    ∧ check_result (rec_config rec) agg shares (committee_pks fk) (quorum (threshold (rec_config rec))) (totals r)
      = Ok (true, why).
Proof.
  intros Ha Hok. unfold audit in Ha. apply bind_Ok_inv in Ha as (rec & Hrec & Ha).
  apply bind_Ok_inv in Ha as (subs & Hsubs & Ha).
  destruct (foldl _ _ subs) as [groups ds] eqn:Eg.
  apply bind_Ok_inv in Ha as (ofk & Hfk & Ha).
  destruct (match first_quorum _ _ with Some _ => _ | None => _ end) as [dkg ds1] eqn:Ed.
  destruct ofk as [fk|]; [|apply Ok_inj in Ha as <-; apply report_ok_spec in Hok; cbn in Hok; naive_solver].
  apply bind_Ok_inv in Ha as (stored & Hst & Ha). apply bind_Ok_inv in Ha as (adm & Hadm & Ha).
  apply bind_Ok_inv in Ha as (rc & Hrc & Ha). apply bind_Ok_inv in Ha as (oagg & Hagg & Ha).
  destruct oagg as [agg|]; [|apply Ok_inj in Ha as <-; apply report_ok_spec in Hok; cbn in Hok; naive_solver].
  apply bind_Ok_inv in Ha as (shares & Hsh & Ha). apply bind_Ok_inv in Ha as (pub & Hpub & Ha).
  destruct (audit_result_ok _ _ _ _ _ _ _ _ _ Ha Hok) as (-> & Hrecomp & Hds & r & -> & (why & Hc) & _).
  apply bool_decide_eq_true in Hrecomp. subst rc.
  exists rec, subs, fk, stored, adm, agg, shares, r, why. split_and!; try done.
  clear Ha Hok Hds. destruct (first_quorum groups _) as [k|] eqn:Ek; [|done].
  case_bool_decide as Hk; [|done]. rewrite Hk, <- audit_groups, Eg. cbn [fst].
  apply first_quorum_Some; [|done]. pose proof (group_keys_nodup (rec_config rec) eid subs) as Hnd. by rewrite Eg in Hnd.
Qed.

(** The audit disagrees with the tally about scaled elections: where
    scaling changes the total weight, every result that carries the bound
    recovery publishes is reported as a discrepancy. *)
Theorem scaled_result_fails_audit (s : store) eid rep rec agg r : audit s eid = Ok rep →
  dl_get_election s eid = Ok rec → dl_get_aggregate s eid = Ok (Some agg) →
  dl_get_result s eid = Ok (Some r) → 1 <= budget (rec_config rec) →
  res_bsgs_bound r = bsgs_bound (rec_config rec) (agg_total_scaled_weight agg) →
  agg_total_scaled_weight agg ≠ agg_total_admitted_weight agg → report_ok rep = false.
Proof.
  intros Ha Hrec Hagg Hr Hb Hbound Hne. apply not_true_iff_false. intros Hok.
  unfold audit in Ha. rewrite Hrec, bind_Ok in Ha. apply bind_Ok_inv in Ha as (subs & _ & Ha).
  destruct (foldl _ _ subs) as [groups ds]. apply bind_Ok_inv in Ha as (ofk & _ & Ha).
  destruct (match first_quorum _ _ with Some _ => _ | None => _ end) as [dkg ds1].
  destruct ofk as [fk|]; [|apply Ok_inj in Ha as <-; apply report_ok_spec in Hok; cbn in Hok; naive_solver].
  apply bind_Ok_inv in Ha as (stored & _ & Ha). apply bind_Ok_inv in Ha as (adm & _ & Ha).
  apply bind_Ok_inv in Ha as (rc & _ & Ha). rewrite Hagg, bind_Ok in Ha.
  apply bind_Ok_inv in Ha as (shares & _ & Ha). rewrite Hr, bind_Ok in Ha.
  destruct (audit_result_ok _ _ _ _ _ _ _ _ _ Ha Hok) as (_ & _ & _ & r' & [= <-] & _ & Hbd).
  unfold bsgs_bound in *. nia.
Qed.

End auditor.

(** * Two audits *)

Module audit_example.
Import prefix_abi naming_account gateway_example election_example.
#[local] Existing Instance concrete_crypto.
#[local] Instance layer : DataLayer InMemoryDataLayer := memory_layer float_text.

Definition clean : AuditReport := mkAuditReport true true true true [].

(** The election of [election_example] passes. *)
Lemma audits_clean : audit m7 eid = Ok clean.
Proof. vm_compute. reflexivity. Qed.

Lemma clean_audit_sound_witness : ∃ fk, get_finalized_key m7 eid = Ok (Some fk).
Proof.
  destruct (clean_audit_sound m7 eid clean audits_clean (eq_refl true)) as (rec & subs & fk & stored & adm & agg & shares & r & why & _ & _ & Hfk & _).
  exists fk. exact Hfk.
Defined.

(** The same election at scale 2: the weights 3 and 4 both count 2. *)
Definition cfg2 : ElectionConfig :=
  mkElectionConfig eid 2 1 EXACT VariantA true LAST_WINS 100 200 (mkThreshold 2 3) (keypers cfg)
    (eligibility_key cfg) (result_publisher_key cfg) [] (admin_key cfg) "1" 2 0.
Definition base2 : _Stored :=
  mkStored cfg2 false (st_dkg_by_keyper st4) (st_ballots st4) [] [] None false.
Definition agg2 : AggregateArtifact := Eval vm_compute in
  get_ok (mkAggregateArtifact [] [] [] [] 0 0) (aggregate_artifact base2 fk).
Definition share2 (i : Z) : DecryptionShareEnvelope :=
  mkDecryptionShareEnvelope eid i (get_ok [] (mapM (λ '(j, ct), decryption_entry (keyper i) eid j ct 20)
    (imap pair (aggregates agg2)))).
Definition shares2 : dict Z DecryptionShareEnvelope := Eval vm_compute in [(1, share2 1); (2, share2 2)].
Definition result2 : ResultArtifact := Eval vm_compute in
  default (mkResultArtifact [] [] [] 0) (get_ok None
    (recover_result cfg2 agg2 (shares2.*2) pks 2 None)).
Definition store2 : InMemoryDataLayer :=
  mkMemory [(eid, mkStored cfg2 false (st_dkg_by_keyper st4) (st_ballots st4) [(1, agg2); (2, agg2)] shares2
    (Some result2) false)] 1 ∅.
Definition report2 : AuditReport := Eval vm_compute in get_ok clean (audit store2 eid).

Lemma audits_scaled : audit store2 eid = Ok report2.
Proof. vm_compute. reflexivity. Qed.
Definition rec2 : ElectionRecord := mkElectionRecord cfg2 false (Some fk) false.
Lemma store2_election : dl_get_election store2 eid = Ok rec2.
Proof. vm_compute. reflexivity. Qed.
Lemma store2_aggregate : dl_get_aggregate store2 eid = Ok (Some agg2).
Proof. vm_compute. reflexivity. Qed.
Lemma store2_result : dl_get_result store2 eid = Ok (Some result2).
Proof. vm_compute. reflexivity. Qed.

Lemma scaled_result_fails_audit_witness :
  totals result2 = [2; 2] ∧ discrepancies report2 = ["result: published BSGS bound 4 != derived 7"]
  ∧ report_ok report2 = false.
Proof.
  split; [reflexivity|]. split; [reflexivity|].
  apply (scaled_result_fails_audit store2 eid report2 rec2 agg2 result2 audits_scaled store2_election
    store2_aggregate store2_result).
  - vm_compute. discriminate.
  - vm_compute. reflexivity.
  - vm_compute. discriminate.
Defined.

End audit_example.
