(* ===== verification/Election.v ===== *)
(** The whole tally of an election, from the key ceremony to the audit: keypers
    that completed the ceremony, ballots that encrypt votes, the driver's run
    ([run_tally]) over the in-memory store, and the audit of what it leaves. *)

From Stdlib Require Import Zmod.
From S2P Require Import Prelude Params Primality Field Points Transcript Elgamal Proofs Recovery Dkg Types Config Schnorr Ballot Admission Aggregation Codecs WriteAuth Quorum DataLayer DataLayerSafety Port Gateway Keyper Tally Auditor.

(** * The committee after the ceremony *)

Section committee.
Context `{CryptoLaws}.

(** The key that [keyper_submit_dkg_result] derives from these commitments. *)
Definition ceremony_key (c : ElectionConfig) (all : dict Z (list (pt G2ops))) (fk : FinalizedKey) : Prop :=
  let q := quorum (threshold c) in
  Forall (λ dc, Forall (λ p, in_subgroup p) dc.2) all
  ∧ sortedZ (dict_keys all) = seqZ 1 (thr_n (threshold c))
  ∧ ∃ pk committee, derive_joint_mpk all q = Ok pk
      ∧ mapM (λ i, derive_mpk_share i all q) (sortedZ (dict_keys all)) = Ok committee
      ∧ g2_to_compressed pk = Ok (pk_election fk) ∧ mapM g2_to_compressed committee = Ok (committee_pks fk).

(** The keyper completed round 2 with a share from every dealer. *)
Definition completed (c : ElectionConfig) (all : dict Z (list (pt G2ops))) (k : KeyperService) : Prop :=
  ∃ k0 received out, dkg_keyper_id (k_dkg k0) = Some (k_index k)
    ∧ dkg_quorum (k_dkg k0) = Some (quorum (threshold c))
    ∧ dict_keys received ≡ₚ dict_keys all ∧ dkg_round2 k0 all received = Ok (k, out).

(** [p] is the committee's polynomial: the key is [p(0)] and keyper [i]'s public
    share is [p(i)]. *)
Definition committee_poly (c : ElectionConfig) (fk : FinalizedKey) (p : list F) : Prop :=
  Z.of_nat (length p) <= quorum (threshold c)
  ∧ pk_election fk = pt_to_compressed G2ops (gmul (polyF p F0))
  ∧ committee_pks fk = (λ i, pt_to_compressed G2ops (gmul (polyF p (inF i)))) <$> seqZ 1 (thr_n (threshold c)).

Lemma sorted_keys_perm (d : dict Z (list (pt G2ops))) n : sortedZ (dict_keys d) = seqZ 1 n → NoDup (dict_keys d).
Proof.
  intros Hs. rewrite <- (merge_sort_Permutation Z.le (dict_keys d)). change (NoDup (sortedZ (dict_keys d))).
  rewrite Hs. apply NoDup_seqZ.
Qed.

(** The ceremony fixes one polynomial, and whoever completed it holds its
    value. *)
Lemma ceremony_poly c all fk : 1 <= quorum (threshold c) → ceremony_key c all fk →
  ∃ p, committee_poly c fk p ∧
    ∀ k, completed c all k → ∃ cs, holds_share k cs ∧ inF cs = polyF p (inF (k_index k)).
Proof.
  intros Hq ([ds ->]%dealt_exists & Hkeys & pk & com & Hpk & Hcom & Hb & Hcb).
  set (q := quorum (threshold c)) in *. pose proof (sorted_keys_perm _ _ Hkeys) as Hnd. rewrite dealt_keys in Hnd.
  assert (Hu : uniform (Z.to_nat q) ds).
  { unfold derive_joint_mpk in Hpk. apply bind_Ok_inv in Hpk as (u & Hu & _).
    by eapply check_commitment_lengths_Ok. }
  exists (joint_poly (Z.to_nat q) ds). split.
  - split_and!.
    + rewrite length_joint_poly by done. lia.
    + rewrite derive_joint_mpk_spec in Hpk by done. apply Ok_inj in Hpk as <-.
      unfold g2_to_compressed in Hb. rewrite to_compressed_Ok in Hb. by apply Ok_inj in Hb as <-.
    + rewrite Hkeys in Hcom. rewrite (mapM_fmap_Ok _ (λ i, gmul (polyF (joint_poly (Z.to_nat q) ds) (inF i)))) in Hcom
        by (intros; by apply derive_mpk_share_spec).
      apply Ok_inj in Hcom as <-. rewrite (mapM_fmap_Ok _ (pt_to_compressed G2ops)) in Hcb
        by (intros; apply to_compressed_Ok).
      apply Ok_inj in Hcb as <-. by rewrite <- list_fmap_compose.
  - intros k (k0 & received & [cs pks] & Hid & Hkq & HP & Hr). unfold dkg_round2 in Hr.
    apply bind_Ok_inv in Hr as ([d [cs' pks']] & Hr & [= <- <- <-]). rewrite dealt_keys in HP.
    destruct (round2_share _ _ _ _ _ _ _ _ Hid Hkq Hnd HP Hr) as (_ & Hcs & _ & Hcomb & Hrange).
    exists cs'. split; [|done]. split; [done|].
    rewrite (round2_spec _ (k_index k0) _ _ Hid) in Hr. case_bool_decide; [|done].
    injection Hr as <- <- <-. done.
Qed.

End committee.

(** * The shares on record *)

Lemma elem_sorted_values {A} (d : dict Z A) v : v ∈ sorted_values d ↔ ∃ i, dict_get d i = Some v.
Proof.
  unfold sorted_values. rewrite list_elem_of_omap. split; [intros (i & _ & Hi); eauto|].
  intros (i & Hi). exists i. split; [|done]. rewrite merge_sort_Permutation.
  apply list_elem_of_fmap. exists (i, v). split; [done|]. by apply dict_get_elem.
Qed.

Lemma sorted_values_indices d (f : DecryptionShareEnvelope → Z) : NoDup (dict_keys d) →
  (∀ i s, dict_get d i = Some s → f s = i) → NoDup (f <$> sorted_values d).
Proof.
  intros Hnd Hf. eapply (sublist_NoDup _ (merge_sort Z.le (dict_keys d))); [by rewrite merge_sort_Permutation|].
  unfold sorted_values. generalize (merge_sort Z.le (dict_keys d)). intros l.
  induction l as [|i l IH]; [constructor|]. cbn [omap list_omap].
  destruct (dict_get d i) as [s|] eqn:E; [|by constructor]. rewrite fmap_cons, (Hf _ _ E). by constructor.
Qed.

Lemma size_list_to_set_le (l : list Z) : (size (list_to_set l : gset Z) <= length l)%nat.
Proof.
  induction l as [|x l IH]; [done|]. cbn [list_to_set length]. destruct (decide (x ∈ (list_to_set l : gset Z))).
  - rewrite subseteq_union_1_L by set_solver. lia.
  - rewrite size_union, size_singleton by set_solver. lia.
Qed.

Section decryption.
Context `{CryptoLaws} `{EthAccount} `{Abi} (float_repr : Z → Z → string).
#[local] Instance layer : DataLayer InMemoryDataLayer := memory_layer float_repr.

Section counted.
Context (c : ElectionConfig) (pks : list bytes) (p : list F) (aggs : list WireCiphertext).

(** Whatever recovery takes from this share is the committee's. *)
Definition sound_share (s : DecryptionShareEnvelope) : Prop :=
  ∀ j ct C1 C2 i sg, aggs !! j = Some ct → decode_ct ct = Ok (C1, C2) →
    check_share c pks j C1 C2 s = Ok (Some (i, sg)) → sg = mul C1 (Zmod.to_Z (polyF p (inF i))).

(** Recovery takes the share of every candidate. *)
Definition full_share (s : DecryptionShareEnvelope) : Prop :=
  ∀ j ct C1 C2, aggs !! j = Some ct → decode_ct ct = Ok (C1, C2) →
    is_Some (contribution c pks j C1 C2 s).

Lemma mul_inF (P : pt G2ops) x y : in_subgroup P → inF x = inF y → mul P x = mul P y.
Proof. intros HP E. dlog. rewrite !gmul_mul. by rewrite E. Qed.

Lemma honest_share_good s cs : 
  (∀ j ct C1 C2, aggs !! j = Some ct → decode_ct ct = Ok (C1, C2) →
     check_share c pks j C1 C2 s = Ok (Some (keyper_index s, mul C1 cs))) →
  inF cs = polyF p (inF (keyper_index s)) → sound_share s ∧ full_share s.
Proof.
  intros Hs Hcs. split.
  - intros j ct C1 C2 i sg Hj Hd Hc. rewrite (Hs _ _ _ _ Hj Hd) in Hc. injection Hc as <- <-.
    apply mul_inF; [|by rewrite inF_to_Z]. unfold decode_ct in Hd.
    apply bind_Ok_inv in Hd as (A & HA & Hd). apply bind_Ok_inv in Hd as (B & _ & [= -> ->]).
    by apply from_compressed_Ok in HA as [? _].
  - intros j ct C1 C2 Hj Hd. unfold contribution. rewrite (Hs _ _ _ _ Hj Hd). by eexists.
Qed.

(** A quorum of full shares among sound ones is what recovery needs. *)
Lemma quorum_shares_sound shares idxs q j ct : Forall sound_share shares → aggs !! j = Some ct →
  (∀ i, i ∈ idxs → ∃ s, s ∈ shares ∧ keyper_index s = i ∧ full_share s) →
  q <= Z.of_nat (size (list_to_set idxs : gset Z)) → shares_sound c pks shares q p j ct.
Proof.
  intros Hsound Hj Hfull Hq C1 C2 Hd. split.
  - set (l := omap (contribution c pks j C1 C2) shares).
    assert (Hsub : (list_to_set idxs : gset Z) ⊆ list_to_set l.*1).
    { intros i Hi%elem_of_list_to_set. apply elem_of_list_to_set, list_elem_of_fmap.
      destruct (Hfull i Hi) as (s & Hs & <- & Hf). destruct (Hf _ _ _ _ Hj Hd) as [[i sg] Hc].
      exists (i, sg). split; [|by apply list_elem_of_omap; eauto].
      unfold contribution, try_or in Hc. destruct (check_share _ _ _ _ _ s) as [r|] eqn:E; [|done]. subst r.
      by apply check_share_Some in E as [-> _]. }
    apply subseteq_size in Hsub. pose proof (size_list_to_set_le l.*1) as Hle. rewrite length_fmap in Hle. unfold len. lia.
  - intros i sg (s & Hs & Hc)%list_elem_of_omap. rewrite Forall_forall in Hsound.
    unfold contribution, try_or in Hc. destruct (check_share _ _ _ _ _ s) as [r|] eqn:E; [|done]. subst r.
    by eapply (Hsound s Hs).
Qed.

End counted.
(** ** One keyper's call *)

Definition uint256 (n : Z) : Prop := 0 <= n < 2 ^ 256.

(** The keyper's account and the ABI encoder take its shares: at most 2^16
    points and proofs. *)
Definition signs_shares (k : KeyperService) (eid : bytes) : Prop :=
  ∀ sigmas proofs, len sigmas <= 2 ^ 16 → Forall (λ b : bytes, len b = G2_BYTES) sigmas → len proofs <= 2 ^ 16 →
    Forall (λ ez : Z * Z, uint256 ez.1 ∧ uint256 ez.2) proofs →
    is_ok (sign_decryption_share (private_key (k_signer k)) eid sigmas proofs) = true.

Lemma decryption_entry_succeeds (k : KeyperService) eid j ct w cs C : holds_share k cs → len eid = 32 →
  Z.of_nat j < 2 ^ 16 → 0 <= k_index k < 2 ^ 16 → decode_ct ct = Ok C →
  ∃ e, decryption_entry k eid j ct w = Ok e ∧ len (proof e) = 64 ∧ len (sigma e) = G2_BYTES.
Proof.
  intros [Hcs Hpk] Heid Hj Hi Hct. unfold decode_ct in Hct.
  apply bind_Ok_inv in Hct as (A & HA & Hct). apply bind_Ok_inv in Hct as (B & HB & <-%Ok_inj).
  unfold decryption_entry, partial_decrypt. rewrite HA, bind_Ok, HB, bind_Ok, Hcs, bind_Ok, Hpk.
  destruct (make_decrypt_transcript_succeeds eid (Z.of_nat j) Heid ltac:(lia)) as [t ->]. rewrite bind_Ok.
  destruct (prove_decryption_share_succeeds A B (mul G2 cs) (mul A cs) cs (k_index k) w t Hi) as (e & z & t' & ->).
  rewrite bind_Ok. unfold g2_to_compressed. rewrite to_compressed_Ok, bind_Ok. unfold encode_dleq.
  rewrite !scalar_to_bytes_Ok, !bind_Ok. eexists. split_and!; [done| |]; cbn [proof sigma].
  - rewrite len_app. unfold len. by rewrite !length_be_bytes.
  - apply compressed_size.
Qed.

Lemma share_payload_fits s : Forall (λ e, len (proof e) = 64 ∧ len (sigma e) = G2_BYTES) (entries s) →
  Forall (λ b : bytes, len b = G2_BYTES) (share_payload s).1 ∧
  Forall (λ ez : Z * Z, uint256 ez.1 ∧ uint256 ez.2) (share_payload s).2.
Proof.
  intros Hp. cbn. split; apply Forall_fmap; (eapply Forall_impl; [exact Hp|]); [by intros e [_ ?]|].
  intros e [He _]. cbn. unfold len in He.
  assert (Hb : ∀ b : bytes, length b = 32%nat → uint256 (from_bytes_be b)).
  { intros b Hb. pose proof (from_bytes_range b) as Hr. unfold len in Hr. by rewrite Hb in Hr. }
  split; apply Hb; rewrite ?length_take, ?length_drop; lia.
Qed.

Lemma mapM_Forall_Ok {A B} (f : A → result B) (P : B → Prop) l :
  Forall (λ x, ∃ y, f x = Ok y ∧ P y) l → ∃ k, mapM f l = Ok k ∧ Forall P k.
Proof.
  induction 1 as [|x l (y & Hy & HP) _ (k & Hk & IH)]; [by exists []|].
  exists (y :: k). cbn [mapM]. rewrite Hy, bind_Ok, Hk, bind_Ok. by split; [|constructor].
Qed.

Lemma entries_succeed (k : KeyperService) eid cts rng cs : holds_share k cs → len eid = 32 →
  0 <= k_index k < 2 ^ 16 → len cts <= 2 ^ 16 → Forall (λ ct, is_ok (decode_ct ct) = true) cts →
  ∃ es, mapM (λ '(j, ct), decryption_entry k eid j ct (rng j)) (imap pair cts) = Ok es
    ∧ Forall (λ e, len (proof e) = 64 ∧ len (sigma e) = G2_BYTES) es.
Proof.
  intros Hk Heid Hi Hl Hct. apply mapM_Forall_Ok. apply Forall_forall. intros [j ct] Hin.
  apply list_elem_of_lookup in Hin as [n Hn]. rewrite list_lookup_imap in Hn.
  destruct (cts !! n) as [ct'|] eqn:E; [|done]. injection Hn as <- <-.
  pose proof (proj1 (Forall_lookup _ _) Hct _ _ E) as Hd. cbn in Hd.
  destruct (decode_ct ct') as [C|] eqn:Ed; [|done]. apply lookup_lt_Some in E. unfold len in Hl.
  eapply decryption_entry_succeeds; [done|done|lia|done|done].
Qed.

(** In the tallying phase a keyper produces its share unless one is on
    record. *)
Lemma produce_share_eq (k : KeyperService) m eid st fk agg now rng : mem_ok m → _get m eid = Ok st →
  open_for_tally st fk now → aggregate_of st = Ok (Some agg) →
  produce_decryption_share k m now eid rng =
    if bool_decide (is_Some (dict_get (st_shares_by_keyper st) (k_index k))) then Ok None else
    es ← mapM (λ '(j, ct), decryption_entry k eid j ct (rng j)) (imap pair (aggregates agg));
    let share := mkDecryptionShareEnvelope eid (k_index k) es in
    sig ← sign_decryption_share (private_key (k_signer k)) eid (share_payload share).1 (share_payload share).2;
    Ok (Some (share, sig)).
Proof.
  intros Hm Hst [Hfk Ht] Hagg.
  pose proof (ok_core _ _ (mem_stored _ Hm _ _ (proj1 (get_Ok m eid st) Hst))) as Hok.
  unfold produce_decryption_share.
  cbn [dl_get_election dl_get_result dl_get_aggregate dl_list_decryption_shares layer memory_layer].
  unfold get_election, get_finalized_key, get_result, list_decryption_shares.
  rewrite (get_aggregate_of m eid st Hst (ok_id _ _ Hok)), Hagg.
  rewrite !Hst, !bind_Ok, Hfk, !bind_Ok. unfold state_facts. cbn [rec_cancelled rec_finalized_key rec_config].
  rewrite (bool_decide_eq_true_2 (is_Some (Some fk))) by by eexists. rewrite Ht. cbn [negb raise_if].
  rewrite (bool_decide_eq_false_2 (Some fk = None)) by done. cbn [raise_if]. rewrite !bind_Ok.
  set (mine := filter _ _). rewrite (bool_decide_ext (mine ≠ []) (is_Some (dict_get (st_shares_by_keyper st) (k_index k)))).
  { case_bool_decide; [done|]. destruct (mapM _ _) as [es|]; [|done]. rewrite !bind_Ok.
    by destruct (share_payload _). }
  assert (Hmine : ∀ s, s ∈ mine ↔ dict_get (st_shares_by_keyper st) (k_index k) = Some s).
  { intros s. unfold mine. rewrite list_elem_of_filter, elem_sorted_values. split.
    - intros [Hix (i & Hs)]. destruct (ok_shares _ _ Hok i s) as [Hki _]; [by apply dict_get_elem|]. congruence.
    - intros Hs. destruct (ok_shares _ _ Hok (k_index k) s) as [Hki _]; [by apply dict_get_elem|]. eauto. }
  split.
  - intros Hne. destruct mine as [|s l]; [done|]. exists s. apply Hmine. left.
  - intros [s Hs%Hmine] Hnil. rewrite Hnil in Hs. by apply not_elem_of_nil in Hs.
Qed.

(** A keyper with its secret produces its share. *)
Lemma produce_share_memory (k : KeyperService) m eid st fk agg now rng cs : mem_ok m → _get m eid = Ok st →
  open_for_tally st fk now → aggregate_of st = Ok (Some agg) → holds_share k cs → len eid = 32 →
  0 <= k_index k < 2 ^ 16 → len (aggregates agg) <= 2 ^ 16 →
  Forall (λ ct, is_ok (decode_ct ct) = true) (aggregates agg) →
  dict_get (st_shares_by_keyper st) (k_index k) = None → signs_shares k eid →
  ∃ share sig, produce_decryption_share k m now eid rng = Ok (Some (share, sig)) ∧ keyper_index share = k_index k
    ∧ sign_decryption_share (private_key (k_signer k)) eid (share_payload share).1 (share_payload share).2 = Ok sig.
Proof.
  intros Hm Hst Hopen Hagg Hk Heid Hi Hl Hct Hnone Hsign. rewrite (produce_share_eq k m eid st fk agg) by done.
  rewrite bool_decide_eq_false_2 by (rewrite Hnone; by apply is_Some_None).
  destruct (entries_succeed k eid (aggregates agg) rng cs) as (es & Hes & Hpf); [done..|].
  rewrite Hes, bind_Ok. set (share := mkDecryptionShareEnvelope eid (k_index k) es).
  destruct (share_payload_fits share Hpf) as [Hf1 Hf2].
  assert (Hle : len es <= 2 ^ 16) by (apply mapM_Ok, Forall2_length in Hes; rewrite length_imap in Hes; unfold len in *; lia).
  assert (Hs : is_ok (sign_decryption_share (private_key (k_signer k)) eid (share_payload share).1
    (share_payload share).2) = true) by (apply Hsign; try done; cbn; unfold len in *; by rewrite length_fmap).
  cbv zeta. destruct (sign_decryption_share _ eid _ _) as [sig|] eqn:Esig; [|done].
  exists share, sig. by rewrite bind_Ok.
Qed.

(** ** A quorum of calls *)

Context `{!EthAccountLaws}.

Section calls.
Context (eid : bytes) (st0 : _Stored) (fk : FinalizedKey) (agg : AggregateArtifact) (p : list F).
Context (Heid : len eid = 32) (Hn : thr_n (threshold (st_config st0)) < 2 ^ 16).
Context (Hagg : aggregate_of st0 = Ok (Some agg)) (Hlen : len (aggregates agg) <= 2 ^ 16).
Context (Hdec : Forall (λ ct, is_ok (decode_ct ct) = true) (aggregates agg)).
Context (Hpoly : committee_poly (st_config st0) fk p).
Let c0 := st_config st0.
Let sound := sound_share c0 (committee_pks fk) p (aggregates agg).
Let full := full_share c0 (committee_pks fk) (aggregates agg).

(** A call by a committee member that holds its share, after voting. *)
Definition honest_decrypter (c : keyper_call) (i : Z) : Prop :=
  acts_as c0 (call_keyper c) i ∧ k_index (call_keyper c) = i ∧ 1 <= i <= thr_n (threshold c0)
  ∧ (∃ cs, holds_share (call_keyper c) cs ∧ inF cs = polyF p (inF i))
  ∧ open_for_tally st0 fk (call_now c) ∧ voting_end c0 <= call_now' c ∧ signs_shares (call_keyper c) eid.

(** The election apart from its shares. *)
Definition same_but_shares (st : _Stored) : Prop :=
  st_config st = st_config st0 ∧ st_cancelled st = st_cancelled st0 ∧ st_dkg_by_keyper st = st_dkg_by_keyper st0
  ∧ st_ballots st = st_ballots st0 ∧ st_result st = st_result st0
  ∧ st_aggregate_by_keyper st = st_aggregate_by_keyper st0.

(** Nothing wrong verifies, honest members have full shares on record or none,
    and those of [done_] have one. *)
Definition collected (honest : Z → Prop) (st : _Stored) (done_ : list Z) : Prop :=
  Forall sound (sorted_values (st_shares_by_keyper st))
  ∧ (∀ i s, honest i → dict_get (st_shares_by_keyper st) i = Some s → full s)
  ∧ ∀ i, i ∈ done_ → is_Some (dict_get (st_shares_by_keyper st) i).

Lemma collected_done (honest : Z → Prop) st l i : honest i → collected honest st l →
  is_Some (dict_get (st_shares_by_keyper st) i) → collected honest st (i :: l).
Proof. intros Hi (Hs & Hf & Hd) Hx. split_and!; [done|done|]. intros j [->|Hj]%elem_of_cons; auto. Qed.

(** What an honest member produces is taken for every candidate. *)
Lemma honest_share_taken m st (k : KeyperService) i cs now rng share sig : mem_ok m → _get m eid = Ok st →
  st_config st = c0 → aggregate_of st = Ok (Some agg) → k_index k = i → 1 <= i <= thr_n (threshold c0) →
  holds_share k cs → inF cs = polyF p (inF i) → keyper_index share = i →
  produce_decryption_share k m now eid rng = Ok (Some (share, sig)) → sound share ∧ full share.
Proof.
  intros Hm Hget Hc Hagg' Hix Hr Hcs Hp Hsi Hprod. subst c0.
  pose proof (ok_core _ _ (mem_stored _ Hm _ _ (proj1 (get_Ok m eid st) Hget))) as Hok.
  apply (honest_share_good _ _ p _ share cs); [|by rewrite Hsi].
  intros j ct C1 C2 Hj Hd. rewrite Hsi, <- Hix. destruct Hpoly as (_ & _ & Hpks).
  assert (Hlp : len (committee_pks fk) = thr_n (threshold (st_config st0)))
    by (rewrite Hpks; unfold len; rewrite length_fmap, length_seqZ; lia).
  eapply honest_share_counts; [exact Hprod|done| | |rewrite Hix, Hlp; lia| | |done|done].
  - cbn [dl_get_aggregate layer memory_layer]. by rewrite (get_aggregate_of m eid st Hget (ok_id _ _ Hok)).
  - by rewrite <- Hc, (ok_id _ _ Hok).
  - rewrite Hpks, list_lookup_fmap, lookup_seqZ_lt by (rewrite Hix; lia). reflexivity.
  - unfold g2_from_compressed. rewrite from_to_compressed by apply gmul_subgroup. f_equal.
    replace (1 + Z.of_nat (Z.to_nat (k_index k - 1))) with i by lia. rewrite <- Hp.
    unfold G2. to_gmul. f_equal. ring.
Qed.

(** The store takes a share signed by the member it is from. *)
Lemma submit_share_memory m st (k : KeyperService) i now share sig : mem_ok m → _get m eid = Ok st →
  st_config st = c0 → aggregate_of st = Ok (Some agg) → acts_as c0 k i → voting_end c0 <= now →
  keyper_index share = i → dict_get (st_shares_by_keyper st) i = None →
  sign_decryption_share (private_key (k_signer k)) eid (share_payload share).1 (share_payload share).2 = Ok sig →
  submit_decryption_share m now eid share sig
  = Ok (put m eid (set_shares st (dict_set (st_shares_by_keyper st) i share))).
Proof.
  intros Hm Hget Hc Hagg' Hact Hend Hsi Hnone Hss.
  pose proof (ok_core _ _ (mem_stored _ Hm _ _ (proj1 (get_Ok m eid st) Hget))) as Hok.
  unfold submit_decryption_share. rewrite Hget, bind_Ok.
  replace (now <? voting_end (st_config st)) with false by (rewrite Hc; lia).
  cbn [raise_if]. rewrite bind_Ok. unfold _aggregate_finalized.
  rewrite (ok_id _ _ Hok), (get_aggregate_of m eid st Hget (ok_id _ _ Hok)), Hagg', bind_Ok.
  rewrite (bool_decide_eq_true_2 (is_Some (Some agg))) by by eexists. cbn [negb raise_if]. rewrite !bind_Ok.
  destruct (share_payload share) as [sigmas proofs]. cbn [fst snd] in Hss. unfold sign_decryption_share in Hss.
  apply bind_Ok_inv in Hss as (d & Hd & Hsd). rewrite Hd, bind_Ok.
  rewrite (acts_as_recovers _ k i d sig) by (rewrite ?Hc; done). rewrite bind_Ok, Hsi, Z.eqb_refl.
  cbn [negb raise_if]. by rewrite bind_Ok, Hnone.
Qed.

Lemma collected_set (honest : Z → Prop) st l i share : collected honest st l → sound share → full share →
  collected honest (set_shares st (dict_set (st_shares_by_keyper st) i share)) (i :: l).
Proof.
  intros (Hs & Hf & Hd) Hso Hfu. split_and!; cbn [set_shares st_shares_by_keyper].
  - apply Forall_forall. intros s (j & Hj)%elem_sorted_values. rewrite dict_get_set in Hj.
    case_decide; [by injection Hj as <-|]. rewrite Forall_forall in Hs. apply Hs, elem_sorted_values. eauto.
  - intros j s Hj Hjs. rewrite dict_get_set in Hjs. case_decide; [by injection Hjs as <-|by eapply Hf].
  - intros j Hj. rewrite dict_get_set. case_decide; [by eexists|].
    apply elem_of_cons in Hj as [->|Hj]; [done|by apply Hd].
Qed.

Lemma honest_decrypt_step (honest : Z → Prop) c i m st l : mem_ok m → dict_get (_elections m) eid = Some st →
  same_but_shares st → collected honest st l → honest i → honest_decrypter c i →
  let m' := try_or (decrypt_and_submit (call_keyper c) m (call_now c) (call_now' c) eid (call_rng c)) m in
  ∃ st', mem_ok m' ∧ dict_get (_elections m') eid = Some st' ∧ same_but_shares st' ∧ collected honest st' (i :: l).
Proof.
  intros Hm Hst Hsame Hcol Hi (Hact & Hix & Hr & (cs & Hcs & Hp) & Hopen & Hend & Hsig) m'.
  pose proof (proj2 (get_Ok m eid st) Hst) as Hget. pose proof Hsame as (Hc & Hcan & Hdkg & Hb & Hres & Hag).
  assert (Hagg' : aggregate_of st = Ok (Some agg)) by (unfold aggregate_of in *; by rewrite Hc, Hag).
  assert (Hopen' : open_for_tally st fk (call_now c)).
  { destruct Hopen as [Hf Ht]. split; [|by rewrite Hc, Hcan, Hres].
    unfold _finalized_key_of in *. by rewrite Hdkg, Hc. }
  unfold m', decrypt_and_submit. destruct (dict_get (st_shares_by_keyper st) i) as [s|] eqn:Es.
  - rewrite (produce_share_eq _ _ _ _ _ _ _ _ Hm Hget Hopen' Hagg'), Hix, Es, bool_decide_eq_true_2 by by eexists.
    rewrite bind_Ok. exists st. split_and!; try done. apply collected_done; [done|done|by rewrite Es].
  - destruct (produce_share_memory (call_keyper c) m eid st fk agg (call_now c) (call_rng c) cs) as
      (share & sig & Hprod & Hsi & Hss); try done; [unfold c0 in *; lia|by rewrite Hix|]. rewrite Hix in Hsi.
    destruct (honest_share_taken m st (call_keyper c) i cs _ _ share sig Hm Hget Hc Hagg' Hix Hr Hcs Hp Hsi Hprod)
      as [Hso Hfu].
    pose proof (submit_share_memory m st _ i _ share sig Hm Hget Hc Hagg' Hact Hend Hsi Es Hss) as Hsub.
    rewrite Hprod, bind_Ok. cbn [dl_submit_decryption_share layer memory_layer]. rewrite Hsub. cbn [try_or].
    eexists. split_and!; [|cbn; by rewrite dict_get_set, decide_True|done|by apply collected_set].
    eapply (effect_ok float_repr); [done|]. by eapply share_effect.
Qed.

Lemma honest_decrypts calls idxs (honest : Z → Prop) m st l : Forall2 honest_decrypter calls idxs →
  (∀ i, i ∈ idxs → honest i) → mem_ok m → dict_get (_elections m) eid = Some st →
  same_but_shares st → collected honest st l →
  ∃ st', mem_ok (trigger_keypers m calls eid)
    ∧ dict_get (_elections (trigger_keypers m calls eid)) eid = Some st'
    ∧ same_but_shares st' ∧ collected honest st' (reverse idxs ++ l).
Proof.
  intros Hc. unfold trigger_keypers. revert m st l.
  induction Hc as [|c i calls idxs Hci _ IH]; intros m st l Hi Hm Hst Hin Hp; cbn [foldl].
  - exists st. by split_and!.
  - destruct (honest_decrypt_step honest c i m st l) as (st1 & Hm1 & Hst1 & Hin1 & Hp1); try done; [by apply Hi; left|].
    destruct (IH _ _ (i :: l) ltac:(intros j Hj; apply Hi; by right) Hm1 Hst1 Hin1 Hp1)
      as (st' & Hm' & Hst' & Hin' & Hp').
    exists st'. split_and!; try done. by rewrite reverse_cons, <- app_assoc.
Qed.

End calls.

(** * Publishing *)

Definition result_fits (r : ResultArtifact) : Prop :=
  len (totals r) <= 2 ^ 16 ∧ Forall uint256 (totals r) ∧ len (keyper_indices r) <= 2 ^ 16
  ∧ Forall uint256 (keyper_indices r) ∧ uint256 (res_bsgs_bound r).

(** The publisher's account and the ABI encoder take results of this size. *)
Definition publishes (c : ElectionConfig) (publisher : Signer) (eid : bytes) : Prop :=
  (∃ sk, from_sk sk = Ok publisher) ∧ identity publisher = result_publisher_key c
  ∧ ∀ r, result_fits r → ∃ payload sig, result_digest eid r = Ok payload ∧ signer_sign publisher "result" eid payload = Ok sig.

Lemma derive_taus_indices config shares pks q j aggs taus0 idx0 taus idx :
  derive_taus_from config shares pks q j aggs taus0 idx0 = Ok (Some (taus, idx)) →
  Forall (λ i, 1 <= i <= len pks) (default [] idx0) ∧ (length (default [] idx0) <= Z.to_nat q)%nat →
  Forall (λ i, 1 <= i <= len pks) idx ∧ (length idx <= Z.to_nat q)%nat.
Proof.
  revert j taus0 idx0. induction aggs as [|ct aggs IH]; intros j taus0 idx0 Hd Hi.
  - by injection Hd as _ <-.
  - cbn [derive_taus_from] in Hd.
    apply bind_Ok_inv in Hd as (C1 & _ & Hd). apply bind_Ok_inv in Hd as (C2 & HC2 & Hd).
    apply bind_Ok_inv in Hd as (valid & Hv & Hd). destruct (len valid <? q); [done|].
    apply bind_Ok_inv in Hd as (sg & Hsg & Hd). apply IH in Hd; [done|].
    destruct idx0; [done|]. cbn. split; [|rewrite length_fmap, length_take; lia].
    apply Forall_fmap, Forall_take, Forall_forall. intros [i P] Hin.
    apply valid_shares_Ok in Hv as [Hv _]. destruct (Hv _ Hin) as (s & _ & (_ & Hr & _)%check_share_Some). done.
Qed.

Lemma recover_result_indices config agg shares pks q ceiling r :
  recover_result config agg shares pks q ceiling = Ok (Some r) →
  Forall (λ i, 1 <= i <= len pks) (keyper_indices r) ∧ (length (keyper_indices r) <= Z.to_nat q)%nat.
Proof.
  unfold recover_result. intros Hr. apply bind_Ok_inv in Hr as ([] & _ & Hr).
  apply bind_Ok_inv in Hr as ([[taus idx]|] & Hd & Hr); [|done].
  destruct (solve_all _ taus); [|done]. injection Hr as <-. eapply derive_taus_indices; [exact Hd|]. cbn. split; [constructor|lia].
Qed.

Lemma publish_memory m eid st publisher r : _get m eid = Ok st → st_result st = None →
  publishes (st_config st) publisher eid → result_fits r →
  ∃ payload sig, result_digest eid r = Ok payload ∧ signer_sign publisher "result" eid payload = Ok sig
    ∧ publish_result m eid r sig = Ok (put m eid (set_result st r)).
Proof.
  intros Hst Hres ([sk Hsk] & Hid & Hp) Hfits. destruct (Hp r Hfits) as (payload & sig & Hpay & Hsig).
  exists payload, sig. split_and!; [done|done|]. unfold publish_result. rewrite Hst, bind_Ok, Hpay, bind_Ok.
  destruct (from_sk_key _ _ Hsk) as [Hk Hb]. unfold signer_sign in Hsig. rewrite Hk in Hsig.
  rewrite (sign_request_verifies _ _ _ _ _ _ Hb Hsig).
  rewrite bool_decide_eq_true_2 by exact Hid. cbn [negb raise_if]. by rewrite bind_Ok, Hres.
Qed.

(** What the driver does when recovery answers. *)
Lemma finalize_memory m eid st fk agg publisher now r : mem_ok m → _get m eid = Ok st → st_result st = None →
  open_for_tally st fk now → aggregate_of st = Ok (Some agg) → publishes (st_config st) publisher eid →
  recover_result (st_config st) agg (sorted_values (st_shares_by_keyper st)) (committee_pks fk)
    (quorum (threshold (st_config st))) None = Ok (Some r) →
  result_fits r → finalize m eid publisher now = Ok (put m eid (set_result st r), Some r).
Proof.
  intros Hm Hst Hres [Hfk Ht] Hagg Hp Hrec Hfits.
  pose proof (ok_core _ _ (mem_stored _ Hm _ _ (proj1 (get_Ok m eid st) Hst))) as Hok.
  destruct (publish_memory m eid st publisher r Hst Hres Hp Hfits) as (payload & sig & Hpay & Hsig & Hpub).
  unfold finalize, _state.
  cbn [dl_get_election dl_get_result dl_get_aggregate dl_list_decryption_shares dl_publish_result layer memory_layer].
  unfold get_election, get_finalized_key, get_result, list_decryption_shares.
  rewrite (get_aggregate_of m eid st Hst (ok_id _ _ Hok)), Hagg.
  rewrite !Hst, !bind_Ok, Hfk, !bind_Ok. unfold state_facts. cbn [rec_cancelled rec_finalized_key rec_config].
  rewrite (bool_decide_eq_true_2 (is_Some (Some fk))) by by eexists.
  rewrite Hres in Ht |- *. set (state := derive_state _ _ now) in *.
  assert (state = TALLYING) as ->.
  { subst state. unfold tallying in Ht. apply orb_true_iff in Ht as [?%bool_decide_eq_true|Hc%bool_decide_eq_true];
      [done|]. exfalso. unfold derive_state in Hc. cbn in Hc. repeat case_match; done. }
  rewrite bool_decide_eq_false_2, bool_decide_eq_true_2 by done. cbn [negb raise_if]. rewrite !bind_Ok.
  change (thr_t (threshold (st_config st))) with (quorum (threshold (st_config st))).
  by rewrite Hrec, bind_Ok, Hpay, bind_Ok, Hsig, bind_Ok, Hpub, bind_Ok.
Qed.

(** * From the ballots to the result *)

(** The artifacts agree where the signed digest looks. *)
Lemma aggregate_fields_eq a a' : _aggregate_fields a = _aggregate_fields a' →
  aggregates a = aggregates a' ∧ agg_admitted a = agg_admitted a' ∧ agg_exclusions a = agg_exclusions a'
  ∧ agg_total_admitted_weight a = agg_total_admitted_weight a' ∧ agg_total_scaled_weight a = agg_total_scaled_weight a'.
Proof.
  unfold _aggregate_fields. intros E. injection E as Ec Ea Ex Et Es. split_and!; try done.
  - revert Ec. apply list_fmap_eq_inj. intros [x y] [x' y'] E. by injection E as -> ->.
  - revert Ex. apply list_fmap_eq_inj. intros [x y] [x' y'] E. by injection E as -> ->.
Qed.

(** What the tally starts from: the committee's key is that of a ceremony, and
    the admitted ballots encrypt votes that spend the budget. *)
Record tally_setup (st : _Stored) (fk : FinalizedKey) (all : dict Z (list (pt G2ops)))
    (adm : AdmissionResult) (bs : list (AdmittedBallot * list Z)) : Prop := {
  su_mode : mode (st_config st) = EXACT;
  su_committee : thr_n (threshold (st_config st)) < 2 ^ 16;
  su_key : ceremony_key (st_config st) all fk;
  su_admitted : admit_ballots (st_ballots st) (st_config st) (pk_election fk) = Ok adm;
  su_ballots : admitted adm = bs.*1;
  su_votes mpk : g2_from_compressed (pk_election fk) = Ok mpk → well_voted (st_config st) mpk bs;
  su_bound : bsgs_bound (st_config st) (zsum_with (λ bv, scaled_weight (ab_weight bv.1) (scale (st_config st))) bs)
             < CURVE_ORDER;
}.

(** A call by a committee member that completed the ceremony. *)
Definition honest_tallier (eid : bytes) (st : _Stored) (fk : FinalizedKey) (all : dict Z (list (pt G2ops)))
    (c : keyper_call) (i : Z) : Prop :=
  acts_as (st_config st) (call_keyper c) i ∧ k_index (call_keyper c) = i
  ∧ completed (st_config st) all (call_keyper c) ∧ open_for_tally st fk (call_now c)
  ∧ voting_end (st_config st) <= call_now' c ∧ signs_shares (call_keyper c) eid.

Lemma acts_as_range c k i : valid_config c → acts_as c k i → 1 <= i <= thr_n (threshold c).
Proof.
  intros [_ (_ & _ & _ & _ & _ & Hl & _)%config_post_init_Ok] (sk & _ & (Hi & x & Hx & _)%find_keyper_Ok).
  apply lookup_lt_Some in Hx. unfold len in Hl. lia.
Qed.

Lemma open_for_tally_same st st' fk now : st_config st' = st_config st → st_cancelled st' = st_cancelled st →
  st_dkg_by_keyper st' = st_dkg_by_keyper st → st_result st' = st_result st →
  open_for_tally st fk now → open_for_tally st' fk now.
Proof.
  intros Hc Hcan Hdkg Hr [Hf Ht]. split; [|by rewrite Hc, Hcan, Hr].
  unfold _finalized_key_of in *. by rewrite Hdkg, Hc.
Qed.

Section publish.
Context (eid : bytes) (st : _Stored) (fk : FinalizedKey) (p : list F) (adm : AdmissionResult).
Context (bs : list (AdmittedBallot * list Z)) (art agg : AggregateArtifact).
Context (Heid : len eid = 32) (Hok : stored_core eid st).
Context (Hn : thr_n (threshold (st_config st)) < 2 ^ 16) (Hpoly : committee_poly (st_config st) fk p).
Context (Hbs : admitted adm = bs.*1) (Hwell : well_voted (st_config st) (gmul (polyF p F0)) bs).
Context (Hart : build_aggregate_artifact (st_config st) adm = Ok art).
Context (Hfields : _aggregate_fields agg = _aggregate_fields art).
Let bound := bsgs_bound (st_config st) (zsum_with (λ bv, scaled_weight (ab_weight bv.1) (scale (st_config st))) bs).
Context (Hbound : bound < CURVE_ORDER).

Lemma agg_votes_held :
  holds_votes (gmul (polyF p F0)) (aggregates agg) (totals_of (st_config st) bs)
  ∧ bsgs_bound (st_config st) (agg_total_scaled_weight agg) = bound ∧ len (aggregates agg) <= 2 ^ 16
  ∧ totals_of (st_config st) bs ≠ [] ∧ Forall (λ m, 0 <= m <= bound) (totals_of (st_config st) bs)
  ∧ zsum (totals_of (st_config st) bs) = bound.
Proof.
  destruct (ok_valid _ _ Hok) as [_ (Hnc & _ & Hsc & _)%config_post_init_Ok]. unfold MAX_NUM_CANDIDATES in Hnc.
  destruct (well_voted_totals _ _ bs Hwell Hsc) as [Hb Hsum].
  destruct (build_aggregate_encrypts (gmul (polyF p F0)) (gmul_subgroup _) (st_config st) bs adm Hbs)
    as (art' & Hart' & Htot & Hv).
  { eapply Forall_impl; [exact Hwell|]. by intros bv (? & ? & _). }
  rewrite Hart in Hart'. apply Ok_inj in Hart' as <-.
  destruct (aggregate_fields_eq _ _ Hfields) as (-> & _ & _ & _ & ->). fold (totals_of (st_config st) bs) in Hv.
  pose proof (Forall2_length _ _ _ Hv) as Hl. unfold totals_of in Hl. rewrite length_fmap, length_seq in Hl.
  split_and!; [done|by rewrite Htot|unfold len; lia| |done|done].
  intros E%(f_equal length). unfold totals_of in E. rewrite length_fmap, length_seq in E. cbn in E. lia.
Qed.

Lemma agg_decodes : Forall (λ ct, is_ok (decode_ct ct) = true) (aggregates agg).
Proof.
  destruct agg_votes_held as (Hv & _). apply Forall_forall. intros ct [j Hj]%list_elem_of_lookup.
  destruct (Forall2_lookup_l _ _ _ _ _ Hv Hj) as (v & _ & c & r & -> & _). done.
Qed.

(** A quorum of full shares among sound ones opens the aggregate. *)
Lemma quorum_recovers st' (honest : Z → Prop) idxs : stored_core eid st' → same_but_shares st st' →
  collected st fk agg p honest st' idxs → (∀ i, i ∈ idxs → honest i) →
  quorum (threshold (st_config st)) <= Z.of_nat (size (list_to_set idxs : gset Z)) →
  ∃ r, recover_result (st_config st) agg (sorted_values (st_shares_by_keyper st')) (committee_pks fk)
      (quorum (threshold (st_config st))) None = Ok (Some r)
    ∧ totals r = totals_of (st_config st) bs ∧ res_bsgs_bound r = bound.
Proof.
  intros Hok' (Hc & _) (Hsound & Hfull & Hdone) Hh Hq.
  destruct agg_votes_held as (Hv & Hb & Hl & Hne & Hm & _). rewrite <- Hb in Hbound, Hm.
  destruct (stored_majority eid st Hok) as (Hn0 & Hq1 & _). destruct Hpoly as (Hp & _ & Hpks).
  assert (Hnd : NoDup (keyper_index <$> sorted_values (st_shares_by_keyper st'))).
  { apply sorted_values_indices; [apply Hok'|]. intros i s Hi. by apply (ok_shares _ _ Hok'), dict_get_elem. }
  destruct (recover_correct (st_config st) (committee_pks fk) (sorted_values (st_shares_by_keyper st'))
    ltac:(by rewrite (ok_id _ _ Hok)) ltac:(rewrite Hpks; unfold len; rewrite length_fmap, length_seqZ; lia)
    (quorum (threshold (st_config st))) (gmul (polyF p F0)) p Hq1 Hp eq_refl Hnd agg (totals_of (st_config st) bs) None)
    as [idx Hr]; try done.
  - intros j ct Hj. eapply quorum_shares_sound; [exact Hsound|done| |done].
    intros i Hi. destruct (Hdone i Hi) as [s Hs]. exists s. split_and!; [apply elem_sorted_values; eauto| |].
    + by apply (ok_shares _ _ Hok'), dict_get_elem.
    + by eapply Hfull; [apply Hh|].
  - rewrite Hr. eexists. split_and!; [done|done|]. cbn. by rewrite Hb.
Qed.

Lemma totals_uint256 : Forall uint256 (totals_of (st_config st) bs) ∧ uint256 bound.
Proof.
  assert (Hq : CURVE_ORDER < 2 ^ 256) by (apply Z.ltb_lt; vm_compute; reflexivity).
  destruct agg_votes_held as (_ & _ & _ & Hne & Htr & _). unfold uint256. split.
  - eapply Forall_impl; [exact Htr|]. cbn. intros x Hx. lia.
  - destruct (totals_of (st_config st) bs); [done|]. apply Forall_cons in Htr as [? _]. lia.
Qed.

(** The auditor's check accepts what recovery returned. *)
Lemma recovered_checks shares r : mode (st_config st) = EXACT → totals r = totals_of (st_config st) bs →
  recover_result (st_config st) agg shares (committee_pks fk) (quorum (threshold (st_config st))) None = Ok (Some r) →
  check_result (st_config st) agg shares (committee_pks fk) (quorum (threshold (st_config st))) (totals r)
  = Ok (true, None).
Proof.
  intros Hmode Htot Hr. destruct agg_votes_held as (_ & Hb & _ & _ & _ & Hsum). destruct totals_uint256 as [_ [Hb0 _]].
  apply check_recover_agree; [rewrite Hb; done|]. split; [|by exists r]. unfold sum_ok. by rewrite Hmode, Htot, Hb.
Qed.

(** Honest members that form a quorum, and then the driver, publish the totals
    whatever other shares are on record, as long as nothing wrong verifies. *)
Lemma decrypt_then_publish m (honest : Z → Prop) calls idxs publisher now : mem_ok m → _get m eid = Ok st →
  aggregate_of st = Ok (Some agg) → st_result st = None → collected st fk agg p honest st [] →
  (∀ i, i ∈ idxs → honest i) → Forall2 (honest_decrypter eid st fk p) calls idxs →
  quorum (threshold (st_config st)) <= Z.of_nat (size (list_to_set idxs : gset Z)) →
  publishes (st_config st) publisher eid → open_for_tally st fk now →
  let m2 := trigger_keypers m calls eid in
  ∃ st2 r, mem_ok m2 ∧ _get m2 eid = Ok st2 ∧ same_but_shares st st2
    ∧ recover_result (st_config st) agg (sorted_values (st_shares_by_keyper st2)) (committee_pks fk)
        (quorum (threshold (st_config st))) None = Ok (Some r)
    ∧ totals r = totals_of (st_config st) bs ∧ res_bsgs_bound r = bound
    ∧ finalize m2 eid publisher now = Ok (put m2 eid (set_result st2 r), Some r).
Proof.
  intros Hm Hst Hagg Hres Hcol Hh Hcalls Hq Hpub Hopen m2.
  destruct agg_votes_held as (_ & _ & Hl & _). destruct totals_uint256 as [Ht Hb].
  destruct (honest_decrypts eid st fk agg p Heid Hn Hagg Hl agg_decodes Hpoly calls idxs honest m st [])
    as (st2 & Hm2 & Hst2 & Hin2 & Hcol2); try done; [by apply get_Ok|]. fold m2 in Hm2, Hst2.
  pose proof (ok_core _ _ (mem_stored _ Hm2 _ _ Hst2)) as Hok2. rewrite app_nil_r in Hcol2.
  destruct (quorum_recovers st2 honest (reverse idxs)) as (r & Hrec & Htot & Hbd); try done.
  { intros i Hi. by apply Hh, elem_of_reverse. }
  { replace (list_to_set (reverse idxs) : gset Z) with (list_to_set idxs : gset Z); [done|].
    apply set_eq. intros i. by rewrite !elem_of_list_to_set, elem_of_reverse. }
  pose proof Hin2 as (Hc2 & Hcan2 & Hdkg2 & Hb2 & Hres2 & Hag2).
  assert (Hagg2 : aggregate_of st2 = Ok (Some agg)) by (unfold aggregate_of in *; by rewrite Hc2, Hag2).
  exists st2, r. split_and!; try done; [by apply get_Ok|].
  eapply finalize_memory; [done|by apply get_Ok|congruence| |done|by rewrite Hc2|by rewrite Hc2|].
  - eapply open_for_tally_same; [..|exact Hopen]; congruence.
  - destruct (recover_result_indices _ _ _ _ _ _ _ Hrec) as [Hix Hlx]. destruct Hpoly as (_ & _ & Hpks).
    destruct (stored_majority eid st Hok) as (Hn0 & Hq1 & Hmaj).
    destruct (ok_valid _ _ Hok) as [Hth%threshold_post_init_Ok (Hnc & _)%config_post_init_Ok].
    unfold result_fits, MAX_NUM_CANDIDATES, quorum in *. split_and!; rewrite ?Htot, ?Hbd; try done.
    + unfold totals_of, len. rewrite length_fmap, length_seq. lia.
    + unfold len. lia.
    + eapply Forall_impl; [exact Hix|]. rewrite Hpks. unfold len, uint256. rewrite length_fmap, length_seqZ. cbn. lia.
Qed.

End publish.

Lemma tallier_decrypts eid st st' fk all p c i : valid_config (st_config st) →
  (∀ k, completed (st_config st) all k → ∃ cs, holds_share k cs ∧ inF cs = polyF p (inF (k_index k))) →
  same_inputs st st' → honest_tallier eid st fk all c i → honest_decrypter eid st' fk p c i.
Proof.
  intros Hv Hcs (Hc & Hcan & Hdkg & _ & Hr & _) (Hact & Hi & Hcomp & Hopen & Hend & Hsig).
  unfold honest_decrypter. rewrite Hc. pose proof (acts_as_range _ _ _ Hv Hact).
  destruct (Hcs _ Hcomp) as (cs & Hh & Hp). split_and!; try (done || lia).
  - exists cs. by rewrite <- Hi.
  - by eapply open_for_tally_same.
Qed.

Context `{!AbiLaws}.

Section run.
Context (m : InMemoryDataLayer) (eid : bytes) (st : _Stored) (fk : FinalizedKey).
Context (all : dict Z (list (pt G2ops))) (adm : AdmissionResult) (bs : list (AdmittedBallot * list Z)).
Context (a : AggregateArtifact) (d : bytes) (calls calls' : list keyper_call) (idxs idxs' : list Z).
Context (publisher : Signer) (now : Z).
#[local] Abbreviation c := (st_config st).
#[local] Abbreviation q := (quorum (threshold (st_config st))).
Context (Hm : mem_ok m) (Heid : len eid = 32) (Hst : _get m eid = Ok st) (Hnone : aggregate_of st = Ok None).
Context (Hres : st_result st = None) (Hset : tally_setup st fk all adm bs).
Context (Ha : aggregate_artifact st fk = Ok a) (Hd : aggregate_digest_of eid a = Ok d).
Context (Hcalls : Forall2 (honest_call eid st fk a) calls idxs).
Context (Hq : q <= Z.of_nat (size (list_to_set idxs : gset Z))).
Context (Hcalls' : Forall2 (honest_tallier eid st fk all) calls' idxs').
Context (Hq' : q <= Z.of_nat (size (list_to_set idxs' : gset Z))).
Context (Hpub : publishes c publisher eid) (Hopen : open_for_tally st fk now).
Context (Hcf : coll_free (aggregate_texts eid (a :: (st_aggregate_by_keyper st).*2))).

(** What the run leaves in the store. *)
Record tallied (m2 : InMemoryDataLayer) (st2 : _Stored) (agg : AggregateArtifact) (r : ResultArtifact) : Prop := {
  tl_ok : mem_ok m2;
  tl_get : _get m2 eid = Ok st2;
  tl_config : st_config st2 = c;
  tl_dkg : st_dkg_by_keyper st2 = st_dkg_by_keyper st;
  tl_ballots : st_ballots st2 = st_ballots st;
  tl_result : st_result st2 = None;
  tl_aggregate : aggregate_of st2 = Ok (Some agg);
  tl_fields : _aggregate_fields agg = _aggregate_fields a;
  tl_grown : grown st a st2;
  tl_checked : check_result c agg (sorted_values (st_shares_by_keyper st2)) (committee_pks fk) q (totals r)
    = Ok (true, None);
  tl_totals : totals r = totals_of c bs;
  tl_bound : res_bsgs_bound r = bsgs_bound c (zsum_with (λ bv, scaled_weight (ab_weight bv.1) (scale c)) bs);
}.

Lemma run_tallies : ∃ m2 st2 agg r, tallied m2 st2 agg r ∧
  run_tally m eid publisher calls calls' now = Ok (put m2 eid (set_result st2 r), Some r).
Proof.
  pose proof (mem_stored _ Hm _ _ (proj1 (get_Ok m eid st) Hst)) as Hsto. pose proof (ok_core _ _ Hsto) as Hok.
  destruct (honest_quorum_agrees float_repr m eid st fk a d calls idxs) as
    (st1 & agg & Hm1 & Hst1 & Hin & Hg & Hagg & Hf); try done.
  destruct (stored_majority eid st Hok) as (Hn0 & Hq1 & _).
  destruct (ceremony_poly (st_config st) all fk Hq1 (su_key _ _ _ _ _ Hset)) as (p & Hpoly & Hcs).
  pose proof Hin as (Hc & Hcan & Hdkg & Hb & Hr1 & Hsh).
  assert (Hsh0 : st_shares_by_keyper st1 = []).
  { rewrite Hsh. destruct (st_shares_by_keyper st) eqn:E; [done|].
    destruct (ok_shares_agg _ _ Hsto) as [x Hx]; [by rewrite E|]. congruence. }
  pose proof (ok_core _ _ (mem_stored _ Hm1 _ _ (proj1 (get_Ok _ eid st1) Hst1))) as Hok1.
  assert (Hwell : well_voted (st_config st1) (gmul (polyF p F0)) bs).
  { rewrite Hc. eapply su_votes; [done|]. destruct Hpoly as (_ & -> & _).
    unfold g2_from_compressed. by rewrite from_to_compressed by apply gmul_subgroup. }
  unfold aggregate_artifact in Ha. rewrite (su_admitted _ _ _ _ _ Hset), bind_Ok in Ha.
  destruct Hset as [Hmode Hn _ _ Hbs _ Hbound]. rewrite <- Hc in Hpoly, Hmode, Hn, Hbound, Ha, Hq', Hpub.
  destruct (decrypt_then_publish eid st1 fk p adm bs a agg Heid Hok1 Hn Hpoly Hbs Hwell Ha Hf Hbound
    (trigger_aggregate m calls eid) (λ i, i ∈ idxs') calls' idxs' publisher now)
    as (st2 & r & Hm2 & Hst2 & Hin2 & Hrec & Htot & Hbd & Hfin); try done; [congruence| | | |].
  - unfold collected. rewrite Hsh0. split_and!; [constructor|done|]. by intros i ?%not_elem_of_nil.
  - eapply Forall2_impl; [exact Hcalls'|]. intros x i Hx. eapply tallier_decrypts; [apply Hok|done|done|done].
  - eapply open_for_tally_same; [..|exact Hopen]; congruence.
  - destruct Hin2 as (Hc2 & Hcan2 & Hdkg2 & Hb2 & Hres2 & Hag2).
    assert (Hagg2 : aggregate_of st2 = Ok (Some agg)) by (unfold aggregate_of in *; by rewrite Hc2, Hag2).
    pose proof (recovered_checks eid st1 fk p adm bs a agg Hok1 Hbs Hwell Ha Hf Hbound _ r Hmode Htot Hrec) as Hck.
    exists (trigger_keypers (trigger_aggregate m calls eid) calls' eid), st2, agg, r. split.
    + rewrite Hc in *. constructor; try done; [congruence..|].
      intros i x. rewrite Hag2. apply Hg.
    + unfold run_tally. cbn [dl_get_aggregate layer memory_layer].
      rewrite (get_aggregate_of _ eid st1 Hst1 (ok_id _ _ Hok1)), Hagg, bind_Ok.
      rewrite bool_decide_eq_false_2 by done. cbn [raise_if]. by rewrite bind_Ok.
Qed.

End run.

End decryption.
