(* ===== verification/ElectionAudit.v ===== *)
(** The audit of a tallied election: a run by honest quorums ends with the
    weighted votes published and a clean report; and an aggregate that carries
    another election's id spoils the report without a word. *)

From Stdlib Require Import Zmod.
From S2P Require Import Prelude Params Primality Field Points Transcript Elgamal Proofs Recovery Dkg Types Config Schnorr Ballot Admission Aggregation Codecs WriteAuth Quorum DataLayer DataLayerSafety Port Gateway Keyper Tally Auditor Election.

Section audit.
Context `{CryptoLaws} `{EthAccount} `{Abi} (float_repr : Z → Z → string).
#[local] Instance layer : DataLayer InMemoryDataLayer := memory_layer float_repr.

(** * The key ceremony re-checked *)

Lemma find_keyper_at ks i k n : NoDup (signing_key <$> ks) → ks !! n = Some k →
  find_keyper ks i (signing_key k) = Ok (i + Z.of_nat n).
Proof.
  revert i n. induction ks as [|k' ks IH]; intros i n Hnd Hn; [done|]. apply NoDup_cons in Hnd as [Hk Hnd].
  destruct n as [|n]; cbn [find_keyper].
  - injection Hn as <-. rewrite bool_decide_eq_true_2 by done. f_equal. lia.
  - rewrite bool_decide_eq_false_2.
    + rewrite (IH (i + 1) n Hnd Hn). f_equal. lia.
    + intros E. apply Hk. rewrite E. apply list_elem_of_fmap. exists k. split; [done|].
      by apply (list_elem_of_lookup_2 _ n).
Qed.

Section stored.
Context (eid : bytes) (st : _Stored) (Hok : stored_core eid st).

Lemma submitter_index_stored i sub : (i, sub) ∈ st_dkg_by_keyper st →
  _submitter_index (st_config st) eid sub = Some i.
Proof.
  intros Hin. destruct (ok_dkg _ _ Hok i sub Hin) as [_ (d & k & Hd & Hr & Hi & Hk)].
  unfold _submitter_index. rewrite Hd, bind_Ok, Hr.
  destruct (ok_valid _ _ Hok) as [_ (_ & _ & _ & _ & _ & _ & Hnd)%config_post_init_Ok].
  rewrite (find_keyper_at _ 1 k _ Hnd Hk). f_equal. lia.
Qed.

Lemma signed_submitters_stored k :
  signed_submitters (st_config st) eid (sorted_values (st_dkg_by_keyper st)) k
  = supporters (dkg_votes (st_dkg_by_keyper st)) k.
Proof.
  apply set_eq. intros i. unfold signed_submitters.
  rewrite elem_of_list_to_set, list_elem_of_omap, elem_of_supporters. unfold dkg_votes. split.
  - intros (sub & (j & Hj)%elem_sorted_values & Hs). case_bool_decide as Hk; [|done].
    apply dict_get_elem in Hj. rewrite (submitter_index_stored j sub Hj) in Hs. injection Hs as <-.
    exists k. apply list_elem_of_fmap. exists (j, sub). cbn. by rewrite Hk.
  - intros (v & ([j sub] & E & Hin)%list_elem_of_fmap). cbn in E. injection E as <- -> ->.
    exists sub. rewrite bool_decide_eq_true_2 by done. split; [|by apply submitter_index_stored].
    apply elem_sorted_values. exists i. by apply (elem_dict_get _ _ _ (ok_dkg_keys _ _ Hok)).
Qed.

Lemma audit_complaints_stored : (foldl (audit_group_step (st_config st) eid) ([], [])
  (sorted_values (st_dkg_by_keyper st))).2 = [].
Proof.
  assert (Hall : Forall (λ sub, is_Some (_submitter_index (st_config st) eid sub)) (sorted_values (st_dkg_by_keyper st))).
  { apply Forall_forall. intros sub (i & Hi%dict_get_elem)%elem_sorted_values. exists i.
    by apply submitter_index_stored. }
  induction (sorted_values (st_dkg_by_keyper st)) as [|sub subs IH] using rev_ind; [done|].
  apply Forall_app in Hall as [Hall [[i Hi] _]%Forall_cons]. specialize (IH Hall). rewrite foldl_snoc.
  destruct (foldl _ _ subs) as [groups ds]. cbn in IH |- *. by rewrite Hi.
Qed.

(** The audit finds the finalized key of the store. *)
Lemma first_quorum_stored fk : _finalized_key_of st = Ok (Some fk) →
  first_quorum (foldl (audit_group_step (st_config st) eid) ([], []) (sorted_values (st_dkg_by_keyper st))).1
    (quorum (threshold (st_config st))) = Some (pk_election fk, committee_pks fk).
Proof.
  intros Hfk. destruct (finalized_key_of_spec eid st Hok) as (o & Ho & Hs). rewrite Hfk in Ho. injection Ho as <-.
  destruct (stored_majority eid st Hok) as (Hn & Hq & Hm).
  set (groups := (foldl _ _ _).1). pose proof (audit_groups (st_config st) eid (sorted_values (st_dkg_by_keyper st))) as Hg.
  pose proof (group_keys_nodup (st_config st) eid (sorted_values (st_dkg_by_keyper st))) as Hnd. fold groups in Hg, Hnd.
  destruct (first_quorum groups (quorum (threshold (st_config st)))) as [k|] eqn:E.
  - apply (first_quorum_Some _ _ _ Hnd) in E. rewrite Hg, signed_submitters_stored in E.
    f_equal. by eapply (quorum_key_unique _ _ Hn Hm _ _ _ (dkg_committee eid st Hok)).
  - exfalso. specialize (Hg (pk_election fk, committee_pks fk)). rewrite signed_submitters_stored in Hg.
    fold (backers (st_dkg_by_keyper st) fk) in Hg.
    destruct (dict_get groups _) as [s|] eqn:Eg; [|cbn in Hg; rewrite <- Hg, size_empty in Hs; lia].
    cbn in Hg. subst s. apply dict_get_elem in Eg. unfold first_quorum in E.
    assert (Hin : (pk_election fk, committee_pks fk, backers (st_dkg_by_keyper st) fk)
      ∈ filter (λ g, quorum (threshold (st_config st)) <= Z.of_nat (size g.2)) groups) by by apply list_elem_of_filter.
    destruct (filter _ groups); [by apply not_elem_of_nil in Hin|done].
Qed.

End stored.

(** * A clean report *)

Lemma audit_clean m eid st fk adm agg r : mem_ok m → _get m eid = Ok st → _finalized_key_of st = Ok (Some fk) →
  admit_ballots (st_ballots st) (st_config st) (pk_election fk) = Ok adm →
  build_aggregate_artifact (st_config st) adm = Ok agg → aggregate_of st = Ok (Some agg) → st_result st = Some r →
  check_result (st_config st) agg (sorted_values (st_shares_by_keyper st)) (committee_pks fk)
    (quorum (threshold (st_config st))) (totals r) = Ok (true, None) →
  res_bsgs_bound r = bsgs_bound (st_config st) (agg_total_admitted_weight agg) →
  audit m eid = Ok (mkAuditReport true true true true []).
Proof.
  intros Hm Hst Hfk Hadm Hbuild Hagg Hres Hcheck Hbound.
  pose proof (ok_core _ _ (mem_stored _ Hm _ _ (proj1 (get_Ok m eid st) Hst))) as Hok.
  unfold audit. rewrite (read_all_serves m eid (st_ballots st)) by by apply memory_serves.
  cbn [dl_get_election dl_get_dkg_submissions dl_get_finalized_key dl_get_result dl_get_aggregate
       dl_list_decryption_shares layer memory_layer].
  unfold get_election, get_dkg_submissions, get_finalized_key, get_result, list_decryption_shares.
  rewrite (get_aggregate_of m eid st Hst (ok_id _ _ Hok)), Hagg, !Hst, !bind_Ok, Hfk, !bind_Ok. cbn [rec_config].
  pose proof (audit_complaints_stored eid st Hok) as Hds. pose proof (first_quorum_stored eid st Hok fk Hfk) as Hfq.
  destruct (foldl _ _ _) as [groups ds]. cbn [fst snd] in Hds, Hfq. subst ds.
  rewrite Hfq, bind_Ok. rewrite bool_decide_eq_true_2 by done. rewrite bind_Ok, Hadm, bind_Ok, Hbuild, !bind_Ok.
  rewrite (bool_decide_eq_true_2 (agg = agg)) by done. rewrite Hres. unfold audit_result. change (thr_t (threshold (st_config st))) with (quorum (threshold (st_config st))).
  by rewrite Hcheck, bind_Ok, Hbound, Z.eqb_refl.
Qed.

Context `{!EthAccountLaws} `{!AbiLaws}.

(** C1: An election with honest quorums comes to its end: once voting is over,
    in the mode that spends the whole budget, with a key from a ceremony and
    admitted ballots that encrypt votes spending the budget, the driver
    triggering a quorum of keypers that re-derive the aggregate and a quorum
    that completed the ceremony publishes exactly the weighted votes, whatever
    aggregates other keypers submitted before, if the texts signed for the
    aggregate and for those on record do not collide under Keccak; and if the
    aggregates on record carry the election's id and scaling does not change
    the total weight, the audit of the store is clean. *)
Theorem honest_election_completes m eid st fk all adm bs a d calls idxs calls' idxs' publisher now :
  reachable float_repr m → len eid = 32 → _get m eid = Ok st → aggregate_of st = Ok None → st_result st = None →
  tally_setup st fk all adm bs → aggregate_artifact st fk = Ok a → aggregate_digest_of eid a = Ok d →
  Forall2 (honest_call eid st fk a) calls idxs →
  quorum (threshold (st_config st)) <= Z.of_nat (size (list_to_set idxs : gset Z)) →
  Forall2 (honest_tallier eid st fk all) calls' idxs' →
  quorum (threshold (st_config st)) <= Z.of_nat (size (list_to_set idxs' : gset Z)) →
  publishes (st_config st) publisher eid → open_for_tally st fk now →
  coll_free (aggregate_texts eid (a :: (st_aggregate_by_keyper st).*2)) →
  ∃ m' r, run_tally m eid publisher calls calls' now = Ok (m', Some r)
    ∧ totals r = totals_of (st_config st) bs ∧ get_result m' eid = Ok (Some r)
    ∧ ((∀ i x, (i, x) ∈ st_aggregate_by_keyper st → agg_election_id x = eid) →
       total_admitted_weight adm = zsum_with (λ bv, scaled_weight (ab_weight bv.1) (scale (st_config st))) bs →
       audit m' eid = Ok (mkAuditReport true true true true [])).
Proof.
  intros Hm%reachable_ok Heid Hst Hnone Hres Hset Ha Hd Hcalls Hq Hcalls' Hq' Hpub Hopen Hcf.
  destruct (run_tallies float_repr m eid st fk all adm bs a d calls calls' idxs idxs' publisher now)
    as (m2 & st2 & agg & r & Ht & Hrun); try done.
  pose proof (ok_core _ _ (mem_stored _ Hm _ _ (proj1 (get_Ok m eid st) Hst))) as Hok0.
  destruct Ht as [Hm2 Hst2 Hc Hdkg Hb Hres2 Hagg Hf Hg Hck Htot Hbd].
  pose proof (ok_core _ _ (mem_stored _ Hm2 _ _ (proj1 (get_Ok m2 eid st2) Hst2))) as Hok.
  set (st3 := set_result st2 r). set (m3 := put m2 eid st3).
  assert (Hget : dict_get (_elections m3) eid = Some st3) by (cbn; by rewrite dict_get_set, decide_True).
  exists m3, r. split_and!; [done|done|unfold get_result; by rewrite (proj2 (get_Ok m3 eid st3) Hget)|].
  intros Hlabel Htw. unfold aggregate_artifact in Ha.
  rewrite (su_admitted _ _ _ _ _ Hset), bind_Ok in Ha.
  assert (agg = a) as ->.
  { destruct (aggregate_of_recorded eid st2 Hok agg Hagg) as (i & [Hi| ->]%Hg); [|done].
    apply Hlabel in Hi. destruct (aggregate_fields_eq _ _ Hf) as (E1 & E2 & E3 & E4 & E5).
    assert (Hid : agg_election_id a = eid).
    { unfold build_aggregate_artifact in Ha. apply bind_Ok_inv in Ha as (pts & _ & Ha).
      apply bind_Ok_inv in Ha as (cts & _ & <-%Ok_inj). apply (ok_id _ _ Hok0). }
    destruct agg, a. cbn in *. congruence. }
  assert (Hst3 : mem_ok m3).
  { eapply (effect_ok float_repr); [exact Hm2|]. eapply effect_put; [done|]. by apply write_result. }
  apply (audit_clean m3 eid st3 fk adm a r); try done; [by apply get_Ok|..].
  - destruct Hopen as [Hfk _]. unfold _finalized_key_of in *. cbn [st3 set_result st_dkg_by_keyper st_config].
    by rewrite Hdkg, Hc.
  - cbn [st3 set_result st_ballots st_config]. rewrite Hb, Hc. apply Hset.
  - cbn [st3 set_result st_config]. by rewrite Hc.
  - cbn [st3 set_result st_config st_shares_by_keyper]. by rewrite Hc.
  - cbn [st3 set_result st_config]. rewrite Hc, Hbd, <- Htw. unfold build_aggregate_artifact in Ha.
    apply bind_Ok_inv in Ha as (pts & _ & Ha). by apply bind_Ok_inv in Ha as (cts & _ & <-%Ok_inj).
Qed.

(** * Mislabelled aggregates *)

Definition relabel (a : AggregateArtifact) (id : bytes) : AggregateArtifact :=
  mkAggregateArtifact id (aggregates a) (agg_admitted a) (agg_exclusions a) (agg_total_admitted_weight a)
    (agg_total_scaled_weight a).

Lemma audit_result_aggregate cfg agg shares fk published dkg b ds rep :
  audit_result cfg agg shares fk published dkg b ds = Ok rep → aggregate_ok rep = b.
Proof.
  unfold audit_result. destruct published as [r|]; [|by intros <-%Ok_inj].
  intros Hr. apply bind_Ok_inv in Hr as ([ok why] & _ & Hr).
  destruct ok; [destruct (negb _)|destruct why; [|done]]; by apply Ok_inj in Hr as <-.
Qed.

(** C22: A keyper's signature does not cover the id inside the aggregate, and no
    store checks it (a fault): whoever delivers a keyper's submission can put
    another id into it, the signature still holds, and when such an aggregate has
    become canonical, no later audit of the election is clean, although the
    auditor has nothing to say against an aggregate that is otherwise the
    recomputed one. *)
Theorem mislabelled_aggregate_fails_audit m eid st agg : reachable float_repr m → _get m eid = Ok st →
  aggregate_of st = Ok (Some agg) → agg_election_id agg ≠ eid →
  (∀ sk, sign_aggregate sk eid agg = sign_aggregate sk eid (relabel agg eid))
  ∧ aggregate_complaints (relabel agg eid) agg = []
  ∧ ∀ m' rep, rtc (step float_repr) m m' → audit m' eid = Ok rep → report_ok rep = false.
Proof.
  intros Hm%reachable_ok Hst Hagg Hne. split_and!; [done| |].
  { unfold aggregate_complaints. cbn. by rewrite !bool_decide_eq_true_2 by done. }
  intros m' rep Hs Ha. destruct (steps_extend float_repr m m' eid st Hm Hs) as (st' & Hst' & Hext); [by apply get_Ok|].
  pose proof (steps_ok float_repr _ _ Hm Hs) as Hm'. pose proof (proj2 (get_Ok m' eid st') Hst') as Hget.
  pose proof (ok_core _ _ (mem_stored _ Hm' _ _ Hst')) as Hok.
  unfold audit in Ha.
  cbn [dl_get_election dl_get_dkg_submissions dl_get_finalized_key dl_get_result dl_get_aggregate
       dl_list_decryption_shares layer memory_layer] in Ha.
  rewrite (get_aggregate_of m' eid st' Hget (ok_id _ _ Hok)), (ext_aggregate _ _ Hext agg Hagg) in Ha.
  unfold get_election in Ha. rewrite Hget, bind_Ok in Ha. apply bind_Ok_inv in Ha as (rec & Hrec & Ha).
  apply bind_Ok_inv in Hrec as (ofk' & _ & <-%Ok_inj). cbn [rec_config] in Ha.
  apply bind_Ok_inv in Ha as (subs & _ & Ha). destruct (foldl _ _ subs) as [groups ds].
  apply bind_Ok_inv in Ha as (ofk & _ & Ha).
  destruct (match first_quorum _ _ with Some _ => _ | None => _ end) as [dkg ds1].
  apply not_true_iff_false. intros (_ & Hg & _)%report_ok_spec.
  destruct ofk as [fk|]; [|by apply Ok_inj in Ha as <-].
  apply bind_Ok_inv in Ha as (stored & _ & Ha). apply bind_Ok_inv in Ha as (adm & _ & Ha).
  apply bind_Ok_inv in Ha as (rc & Hrc & Ha). rewrite bind_Ok in Ha.
  apply bind_Ok_inv in Ha as (shares & _ & Ha). apply bind_Ok_inv in Ha as (pub & _ & Ha).
  apply audit_result_aggregate in Ha. rewrite Hg in Ha. symmetry in Ha. apply bool_decide_eq_true in Ha as ->.
  apply Hne. unfold build_aggregate_artifact in Hrc. apply bind_Ok_inv in Hrc as (pts & _ & Hrc).
  apply bind_Ok_inv in Hrc as (cts & _ & <-%Ok_inj). apply (ok_id _ _ Hok).
Qed.

End audit.

(** * A complete election *)

(** The example encoder takes what fits. *)
Module encoder.
Import prefix_abi naming_account.
#[local] Existing Instance concrete_crypto.

Lemma flat_list_ok vs : Forall (λ v, is_ok (flat v) = true) vs → is_ok (flat_list vs) = true.
Proof.
  induction 1 as [|v vs Hv _ IH]; [done|]. cbn [flat_list]. destruct (flat v); [|done].
  rewrite bind_Ok. by destruct (flat_list vs).
Qed.

Lemma flat_array_ok vs : len vs <= 2 ^ 16 → Forall (λ v, is_ok (flat v) = true) vs → is_ok (flat (AArray vs)) = true.
Proof.
  intros Hl Hv%flat_list_ok. cbn [flat]. rewrite to_bytes_be_small by (pose proof (len_nonneg vs); lia).
  rewrite bind_Ok. change (is_ok (b ← flat_list vs; Ok (be_bytes 32 (len vs) ++ b)) = true).
  by destruct (flat_list vs).
Qed.

Lemma flat_uint_ok n : uint256 n → is_ok (flat (AUint n)) = true.
Proof. intros Hn. cbn [flat]. by rewrite to_bytes_be_small. Qed.

Lemma flat_uints_ok l : len l <= 2 ^ 16 → Forall uint256 l → is_ok (flat (AArray (AUint <$> l))) = true.
Proof.
  intros Hl Hu. apply flat_array_ok; [unfold len; by rewrite length_fmap|].
  apply Forall_fmap. eapply Forall_impl; [exact Hu|]. apply flat_uint_ok.
Qed.

Lemma signs d i : uint256 i → is_ok (sign_message d (be_bytes 32 i)) = true.
Proof. intros Hi. cbn [sign_message account]. unfold len. by rewrite length_be_bytes. Qed.

Lemma example_signs_shares (k : KeyperService) eid : uint256 (private_key (k_signer k)) → signs_shares k eid.
Proof.
  intros Hk sigmas proofs Hl Hs Hl' Hp. unfold sign_decryption_share, decryption_share_digest, decryption_share_preimage.
  assert (H1 : is_ok (abi_encode [bytes_array] [AArray (ABytes <$> sigmas)]) = true).
  { apply flat_list_ok. constructor; [|constructor]. apply flat_array_ok; [unfold len; by rewrite length_fmap|].
    apply Forall_fmap. eapply Forall_impl; [exact Hs|]. intros b Hb. cbn [compose flat].
    by rewrite Hb, to_bytes_be_small by (unfold G2_BYTES; lia). }
  assert (H2 : is_ok (abi_encode [TArray (TTuple [TUint 256; TUint 256])]
    [AArray ((λ '(e, z), ATuple [AUint e; AUint z]) <$> proofs)]) = true).
  { apply flat_list_ok. constructor; [|constructor]. apply flat_array_ok; [unfold len; by rewrite length_fmap|].
    apply Forall_fmap. eapply Forall_impl; [exact Hp|]. intros [e z] [He Hz].
    apply (flat_list_ok [AUint e; AUint z]). by repeat constructor; apply flat_uint_ok. }
  destruct (abi_encode [bytes_array] _); [|done]. rewrite bind_Ok.
  destruct (abi_encode [TArray _] _); [|done]. rewrite !bind_Ok. unfold sign_digest.
  rewrite to_bytes_be_small, bind_Ok by exact Hk. by apply signs.
Qed.

Lemma example_publishes c publisher sk eid : from_sk sk = Ok publisher → identity publisher = result_publisher_key c →
  len eid = 32 → publishes c publisher eid.
Proof.
  intros Hsk Hid Heid. split_and!; [by exists sk|done|]. intros r (Hl & Ht & Hl' & Hi & Hb).
  unfold result_digest, result_preimage.
  assert (Ha : is_ok (abi_encode [TArray (TUint 256); TArray (TUint 256); TUint 256]
    [AArray (AUint <$> totals r); AArray (AUint <$> keyper_indices r); AUint (res_bsgs_bound r)]) = true).
  { apply flat_list_ok. repeat constructor; [by apply flat_uints_ok..|by apply flat_uint_ok]. }
  destruct (abi_encode _ _) as [x|]; [|done]. rewrite !bind_Ok. exists (keccak (RESULT_DST ++ eid ++ x)).
  unfold signer_sign, sign_request.
  destruct (from_sk_key _ _ Hsk) as [-> Hk]. apply to_bytes_be_Ok in Hk as [Hr Hk].
  rewrite to_bytes_be_small, bind_Ok by done. unfold request_digest, request_preimage. cbv zeta.
  rewrite Heid, keccak_size. change (len (encode_utf8 "result")) with 6.
  rewrite !(to_bytes_be_small 6), !(to_bytes_be_small 32), !bind_Ok by lia.
  pose proof (signs (keccak (REQUEST_DST ++ be_bytes 4 6 ++ encode_utf8 "result" ++
    be_bytes 4 32 ++ eid ++ be_bytes 4 32 ++ keccak (RESULT_DST ++ eid ++ x))) sk Hr) as Hs.
  destruct (sign_message _ _) as [sig|]; [|done]. by exists sig.
Qed.

End encoder.

Module complete_example.
Import prefix_abi naming_account gateway_example election_example.
#[local] Existing Instance concrete_crypto.
#[local] Instance layer : DataLayer InMemoryDataLayer := memory_layer float_text.

(** Three dealers whose polynomials 1 + x, 2 + x and 2 + x add up to 5 + 3x. *)
Definition commitments : dict Z (list (pt G2ops)) :=
  [(1, [mul G2 1; mul G2 1]); (2, [mul G2 2; mul G2 1]); (3, [mul G2 2; mul G2 1])].
Definition received (i : Z) : dict Z Z := [(1, 1 + i); (2, 2 + i); (3, 2 + i)].
Definition before (i : Z) : KeyperService :=
  mkKeyperService i (mkSigner (be_bytes 32 i)) (mkKeyperDKGState (Some i) (Some 3) (Some 2) None None [] None None).

Lemma ceremony_commitments : ceremony_key (st_config st4) commitments fk.
Proof.
  split_and!.
  - unfold commitments. repeat (apply Forall_cons_2 || apply Forall_nil_2); cbn [snd];
      repeat (apply Forall_cons_2 || apply Forall_nil_2); solve_subgroup.
  - vm_compute. reflexivity.
  - exists (mul G2 5), ((λ i, mul G2 (5 + 3 * i)) <$> [1; 2; 3]).
    split_and!; vm_compute; reflexivity.
Qed.

Lemma keyper_completed i : i = 1 ∨ i = 3 → completed (st_config st4) commitments (keyper i).
Proof.
  intros Hi. exists (before i), (received i), (5 + 3 * i, mul G2 (5 + 3 * i)).
  assert (Hk : dict_keys (received i) = dict_keys commitments) by (destruct Hi as [-> | ->]; vm_compute; reflexivity).
  split_and!; [reflexivity|reflexivity|by rewrite Hk|].
  unfold dkg_round2. rewrite (round2_spec _ i) by reflexivity.
  rewrite bool_decide_eq_true_2 by (destruct Hi as [-> | ->]; vm_compute; reflexivity).
  assert (zsum (dict_values (received i)) mod CURVE_ORDER = 5 + 3 * i) as ->
    by (destruct Hi as [-> | ->]; vm_compute; reflexivity).
  reflexivity.
Qed.

Definition adm4 : AdmissionResult := Eval vm_compute in
  get_ok (mkAdmissionResult [] [] 0) (admit_ballots (st_ballots st4) (st_config st4) pk).
Definition voted4 : list (AdmittedBallot * list Z) := Eval vm_compute in zip (admitted adm4) [[0; 1]; [1; 0]].

Lemma adm4_admitted : admit_ballots (st_ballots st4) (st_config st4) (pk_election fk) = Ok adm4.
Proof. vm_compute. reflexivity. Qed.

Lemma votes4_held : well_voted (st_config st4) admission_example.mpk voted4.
Proof.
  repeat apply Forall_cons_2; [| |apply Forall_nil_2];
    (split_and!; [|reflexivity|cbn; lia|apply (bool_decide_unpack _); vm_compute; exact I|reflexivity]);
    (apply Forall2_cons_2; [|apply Forall2_cons_2; [|apply Forall2_nil_2]]).
  - exists (encrypt admission_example.mpk 0 3).1, 3. split; [vm_compute; reflexivity|reflexivity].
  - exists (encrypt admission_example.mpk 1 5).1, 5. split; [vm_compute; reflexivity|reflexivity].
  - exists (encrypt admission_example.mpk 1 3).1, 3. split; [vm_compute; reflexivity|reflexivity].
  - exists (encrypt admission_example.mpk 0 5).1, 5. split; [vm_compute; reflexivity|reflexivity].
Qed.

Lemma setup4 : tally_setup st4 fk commitments adm4 voted4.
Proof.
  constructor.
  - reflexivity.
  - reflexivity.
  - exact ceremony_commitments.
  - exact adm4_admitted.
  - reflexivity.
  - intros mpk Hm. assert (g2_from_compressed (pk_election fk) = Ok admission_example.mpk) as E
      by (vm_compute; reflexivity).
    rewrite E in Hm. apply Ok_inj in Hm as <-. exact votes4_held.
  - apply Z.ltb_lt. vm_compute. reflexivity.
Qed.

Lemma call_tallies i now : i = 1 ∨ i = 3 → acts_as (st_config st4) (keyper i) i →
  tallying (derive_state (st_config st4) (mkStateFacts (st_cancelled st4) true false false) now) = true →
  voting_end (st_config st4) <= now + 1 → honest_tallier eid st4 fk commitments (call i now) i.
Proof.
  intros Hi Ha Ht He. split_and!; [exact Ha|reflexivity|by apply keyper_completed|split; [vm_compute; reflexivity|exact Ht]
    |exact He|]. apply encoder.example_signs_shares. cbn [call call_keyper keyper k_signer].
  unfold private_key. cbn [account_key]. rewrite from_be_bytes. unfold uint256. apply Z.mod_pos_bound. reflexivity.
Qed.

(** Keypers 1 and 3 carry the election from its two ballots, of weight 3 and 4,
    to the result 4 : 3 and a clean audit. *)
Lemma honest_election_completes_witness :
  ∃ m' r, run_tally m4 eid publisher [call 1 210; call 3 211] [call 1 220; call 3 221] 230 = Ok (m', Some r)
    ∧ totals r = [4; 3] ∧ audit m' eid = Ok (mkAuditReport true true true true []).
Proof.
  destruct (honest_election_completes float_text m4 eid st4 fk commitments adm4 voted4 artifact artifact_digest
    [call 1 210; call 3 211] [1; 3] [call 1 220; call 3 221] [1; 3] publisher 230) as
    (m' & r & Hr & Ht & _ & Haud).
  - exact m4_reachable.
  - vm_compute. reflexivity.
  - exact m4_get.
  - vm_compute. reflexivity.
  - reflexivity.
  - exact setup4.
  - exact artifact_built.
  - vm_compute. reflexivity.
  - apply Forall2_cons_2; [|apply Forall2_cons_2; [|apply Forall2_nil_2]];
      (apply call_honest; [apply keyper_acts; vm_compute; reflexivity|vm_compute; reflexivity
        |vm_compute; discriminate|vm_compute; reflexivity]).
  - vm_compute. discriminate.
  - apply Forall2_cons_2; [|apply Forall2_cons_2; [|apply Forall2_nil_2]];
      (apply call_tallies; [auto|apply keyper_acts; vm_compute; reflexivity|vm_compute; reflexivity
        |vm_compute; discriminate]).
  - vm_compute. discriminate.
  - apply (encoder.example_publishes _ _ 8); vm_compute; reflexivity.
  - split; vm_compute; reflexivity.
  - apply (bool_decide_eq_true_1 _). vm_compute. reflexivity.
  - exists m', r. split; [exact Hr|]. split; [rewrite Ht; vm_compute; reflexivity|].
    apply Haud; [|vm_compute; reflexivity]. intros i x Hx. vm_compute in Hx. inversion Hx.
Defined.

(** Keyper 1's submission arrives under the id of election 2. *)
Definition m5w : InMemoryDataLayer := Eval vm_compute in
  get_ok m4 (submit_aggregate m4 211 eid (relabel artifact (be_bytes 32 2)) (agg_sig 1)).
Definition m6w : InMemoryDataLayer := Eval vm_compute in
  get_ok m4 (submit_aggregate m5w 212 eid artifact (agg_sig 3)).
Definition st6w : _Stored := Eval vm_compute in get_ok (new_stored cfg) (_get m6w eid).

Lemma m6w_reachable : reachable float_text m6w.
Proof.
  unfold reachable. etransitivity; [apply m4_reachable|].
  eapply rtc_l; [eapply (step_aggregate _ m4 211 eid (relabel artifact (be_bytes 32 2)) (agg_sig 1) m5w); vm_compute; reflexivity|].
  eapply rtc_once, (step_aggregate _ m5w 212 eid artifact (agg_sig 3) m6w). vm_compute. reflexivity.
Qed.

Lemma mislabelled_aggregate_fails_audit_witness :
  aggregate_of st6w = Ok (Some (relabel artifact (be_bytes 32 2)))
  ∧ ∀ m' rep, rtc (step float_text) m6w m' → audit m' eid = Ok rep → report_ok rep = false.
Proof.
  split; [vm_compute; reflexivity|].
  apply (mislabelled_aggregate_fails_audit float_text m6w eid st6w (relabel artifact (be_bytes 32 2)) m6w_reachable);
    vm_compute; try reflexivity. discriminate.
Defined.

End complete_example.
