(* ===== verification/Eligibility.v ===== *)
(** Issuing eligibility credentials: the stub adapter
    (adapters/eligibility_stub.py), the wallet adapter
    (adapters/eligibility_wallet.py), and the attestation endpoint with its
    re-vote counters (services/eligibility/eligibility.py).  HMAC-SHA256 and the
    EIP-712 encoding are parameters; signing randomness is an argument. *)

From Stdlib Require Import Ascii.
From S2P Require Import Prelude Params Primality Field Points Transcript Types Config Schnorr Ballot Admission Codecs WriteAuth.

(** * ports/eligibility.py *)

Record AttestationRequest := mkAttestationRequest {
  req_election_id : bytes;
  req_pseudonym : bytes;
  req_vk : bytes;
  req_weight : Z;
  req_nonce : Z;
}.

Section issuers.
Context `{Crypto} `{EthAccount}.

(** * adapters/eligibility_stub.py *)

Record StubEligibilityService := mkStub {
  stub_sk : Z;
  stub_vk : pt G1ops;
  stub_eligibility_key : bytes;
  stub_fixed_weight : option Z;
}.

Definition new_stub (elig_sk : Z) (fixed_weight : option Z) : result StubEligibilityService :=
  '(sk, vk) ← schnorr.keygen elig_sk;
  key ← g1_to_compressed vk;
  Ok (mkStub sk vk key fixed_weight).

Definition stub_issue_attestation (svc : StubEligibilityService) (request : AttestationRequest) (k : Z)
  : result Attestation :=
  let weight := match stub_fixed_weight svc with Some w => w | None => req_weight request end in
  sig ← sign_attestation (stub_sk svc) (stub_vk svc) (req_election_id request) (req_pseudonym request)
          (req_vk request) weight (req_nonce request) k;
  Ok (mkAttestation (req_election_id request) (req_pseudonym request) (req_vk request) weight sig V1
        (req_nonce request)).

(** * adapters/eligibility_wallet.py *)

Record WalletAttestationRequest := mkWalletRequest {
  wreq_election_id : bytes;
  wreq_vk : bytes;
  wreq_signature : bytes;
}.

Section wallet.
(** [recover_challenge eid vk sig]: the address recovered from the EIP-712
    challenge; [voting_power] is the injected reader. *)
Context (recover_challenge : bytes → bytes → bytes → result bytes) (voting_power : bytes → result Z).

Record WalletEligibilityService := mkWallet {
  wal_sk : Z;
  wal_vk : pt G1ops;
  wal_eligibility_key : bytes;
  wal_prevent_reissue : bool;
  wal_issued : gset (bytes * bytes);
}.

Definition new_wallet (elig_sk : Z) (prevent_reissue : bool) : result WalletEligibilityService :=
  '(sk, vk) ← schnorr.keygen elig_sk;
  key ← g1_to_compressed vk;
  Ok (mkWallet sk vk key prevent_reissue ∅).

Definition _recover_address (eid vk signature : bytes) : result bytes :=
  match recover_challenge eid vk signature with Ok a => Ok a | Err _ => Err EligibilityError end.

Definition pseudonym_for (address eid : bytes) : bytes := keccak (address ++ eid).

Definition issue_for_wallet (svc : WalletEligibilityService) (eid vk signature : bytes) (k : Z)
  : result (WalletEligibilityService * Attestation) :=
  _ ← raise_if (negb (len eid =? 32)) EligibilityError;
  _ ← raise_if (negb (len vk =? 48)) EligibilityError;
  address ← _recover_address eid vk signature;
  vp ← voting_power address;
  _ ← raise_if (vp <=? 0) NotEligible;
  _ ← raise_if (wal_prevent_reissue svc && bool_decide ((eid, address) ∈ wal_issued svc)) EligibilityError;
  let weight := vp in
  let pseudonym := pseudonym_for address eid in
  let nonce := 1 in
  sig ← sign_attestation (wal_sk svc) (wal_vk svc) eid pseudonym vk weight nonce k;
  Ok (mkWallet (wal_sk svc) (wal_vk svc) (wal_eligibility_key svc) (wal_prevent_reissue svc)
        ({[(eid, address)]} ∪ wal_issued svc),
      mkAttestation eid pseudonym vk weight sig V1 nonce).

Definition wallet_issue_attestation (svc : WalletEligibilityService) (request : WalletAttestationRequest) (k : Z)
  : result (WalletEligibilityService * Attestation) :=
  issue_for_wallet svc (wreq_election_id request) (wreq_vk request) (wreq_signature request) k.

End wallet.

End issuers.

(** * services/eligibility/eligibility.py *)

Definition challenge_message (eid vk : bytes) : string :=
  let nl := String (ascii_of_N 10) "" in
  "Shutter Governance Protocol eligibility attestation" +:+ nl
  +:+ "electionId: 0x" +:+ hex eid +:+ nl +:+ "vk: 0x" +:+ hex vk.

(** ** Re-vote counters *)

(** A counter per election and pseudonym; [alloc] returns the next value. *)
Class NonceAllocator (A : Type) : Type := {
  last_nonce : A → bytes → bytes → Z;
  alloc : A → bytes → bytes → result (A * Z);
}.

Class NonceAllocatorLaws (A : Type) `{NonceAllocator A} : Prop := {
  alloc_Ok a e p a' n : alloc a e p = Ok (a', n) →
    n = last_nonce a e p + 1 ∧
    ∀ e' p', last_nonce a' e' p' = if decide ((e', p') = (e, p)) then n else last_nonce a e' p';
}.

(** [_in_memory_nonce_allocator]: the [counts] dictionary. *)
Definition memory_counts : Type := dict (bytes * bytes) Z.
#[global] Instance memory_nonces : NonceAllocator memory_counts := {
  last_nonce counts e p := default 0 (dict_get counts (e, p));
  alloc counts e p :=
    let n := default 0 (dict_get counts (e, p)) + 1 in Ok (dict_set counts (e, p) n, n);
}.

(** [SqliteNonceStore]: the rows of [revote_nonce], keyed by hexadecimal text;
    an INTEGER column holds 64 bits. *)
Record SqliteNonceStore := mkSqlite { revote_nonce : dict (string * string) Z }.
#[global] Instance sqlite_nonces : NonceAllocator SqliteNonceStore := {
  last_nonce st e p := default 0 (dict_get (revote_nonce st) (hex e, hex p));
  alloc st e p :=
    let n := default 0 (dict_get (revote_nonce st) (hex e, hex p)) + 1 in
    _ ← raise_if (2 ^ 63 <=? n) OverflowError;
    Ok (mkSqlite (dict_set (revote_nonce st) (hex e, hex p) n), n);
}.

#[global] Instance memory_nonces_laws : NonceAllocatorLaws memory_counts.
Proof.
  constructor. intros a e p a' n Ha. cbn in *. apply Ok_inj, pair_equal_spec in Ha as [<- <-].
  split; [done|]. intros e' p'. rewrite dict_get_set. by case_decide.
Qed.

Lemma hex_inj b b' : hex b = hex b' → b = b'.
Proof. intros E. apply (f_equal fromhex) in E. rewrite !fromhex_hex in E. congruence. Qed.

#[global] Instance sqlite_nonces_laws : NonceAllocatorLaws SqliteNonceStore.
Proof.
  constructor. intros a e p a' n Ha. cbn in *. apply bind_Ok_inv in Ha as ([] & _ & Ha).
  apply Ok_inj, pair_equal_spec in Ha as [<- <-]. split; [done|]. intros e' p'. cbn. rewrite dict_get_set.
  destruct (decide ((e', p') = (e, p))) as [E|Hne].
  - rewrite decide_True by congruence. done.
  - rewrite decide_False; [done|]. intros [?%hex_inj ?%hex_inj]%pair_equal_spec. congruence.
Qed.

(** ** The allowlist *)

(** [str.isspace] on a code point. *)
Definition is_space_point (n : Z) : bool :=
  ((9 <=? n) && (n <=? 13)) || ((28 <=? n) && (n <=? 32)) || (n =? 133) || (n =? 160) || (n =? 5760)
  || ((8192 <=? n) && (n <=? 8202)) || (n =? 8232) || (n =? 8233) || (n =? 8239) || (n =? 8287) || (n =? 12288).

Fixpoint drop_spaces (l : list Z) : list Z :=
  match l with
  | [] => []
  | n :: l' => if is_space_point n then drop_spaces l' else l
  end.

(** [s.strip()] on code points. *)
Definition strip_points (l : list Z) : list Z := reverse (drop_spaces (reverse (drop_spaces l))).

(** [s.lower()] as far as hexadecimal text is concerned. *)
Definition lower_point (n : Z) : Z := if (65 <=? n) && (n <=? 90) then n + 32 else n.

(** [s.removeprefix("0x")] *)
Definition remove_0x (l : list Z) : list Z :=
  match l with
  | n :: m :: l' => if (n =? 48) && (m =? 120) then l' else l
  | _ => l
  end.

(** The text of ASCII code points; other text is not hexadecimal. *)
Definition ascii_text (l : list Z) : result string :=
  if forallb (λ n, (0 <=? n) && (n <? 128)) l
  then Ok (foldr (λ n s, String (ascii_of_N (Z.to_N n)) s) "" l) else Err ValueError.

Definition _norm_addr (a : string) : result string :=
  let h := remove_0x (lower_point <$> strip_points (code_points a)) in
  _ ← raise_if (negb (len h =? 40)) ValueError;
  t ← ascii_text h;
  match fromhex t with Some _ => Ok t | None => Err ValueError end.

(** The parsed file: an array of addresses or an object of weights. *)
Definition load_allowlist (data : json) (default_weight : Z) : result (dict string Z) :=
  match data with
  | JArr l =>
      foldM (λ d a, match a with
                    | JStr a => k ← _norm_addr a; Ok (dict_set d k default_weight)
                    | _ => Err AttributeError
                    end) l []
  | JObj o => foldM (λ d '(a, w), k ← _norm_addr a; n ← py_int w; Ok (dict_set d k n)) o []
  | _ => Err ValueError
  end.

(** ** POST /attest *)

Definition http : Type := Z * json.
Definition refusal (status : Z) (error message : string) : http :=
  (status, JObj [("error", JStr error); ("message", JStr message)]).

Section attest.
Context `{Crypto} `{EthAccount} {A : Type} `{NonceAllocator A}.
(** [hmac_sha256 key msg] *)
Context (hmac_sha256 : bytes → bytes → bytes).

Definition derive_pseudonym (secret eid address : bytes) : bytes := take 32 (hmac_sha256 secret (eid ++ address)).

(** The weight of an address: the default without an allowlist, otherwise the
    listed weight; [None] when the address is not listed. *)
Definition voter_weight (weight : Z) (allowlist : option (result json)) (addr_hex : string)
  : result (option Z) :=
  match allowlist with
  | None => Ok (Some weight)
  | Some file => data ← file; allow ← load_allowlist data weight; Ok (dict_get allow addr_hex)
  end.

(** [body[key]] *)
Definition body_item (body : json) (key : string) : result json :=
  match body with
  | JObj o => match dict_get o key with Some v => Ok v | None => Err KeyError end
  | _ => Err TypeError
  end.

(** The handler: the counters it leaves, and the response or the exception that
    leaves the handler (the application answers a [ValueError] with 400).
    [allowlist] is the parsed content of the configured file; an unreadable or
    unparsable file is a [ValueError] here. *)
Definition attest (svc : StubEligibilityService) (secret : bytes) (weight : Z)
    (allowlist : option (result json)) (a : A) (body : json) (k : Z) : A * result http :=
  match body with
  | JObj _ =>
      let signature := get_or body "signature" JNull in
      if negb (py_bool signature)
      then (a, Ok (refusal 401 "Unauthorized" "Connect your wallet to vote.")) else
      match
        (v ← body_item body "electionId"; eid ← dec_bytes v None;
         v ← body_item body "vk"; vk ← dec_bytes v None; Ok (eid, vk))
      with
      | Err err => (a, Err err)
      | Ok (eid, vk) =>
          match (sig ← dec_bytes signature None;
                 recover_message (encode_utf8 (challenge_message eid vk)) sig) with
          | Err _ => (a, Ok (refusal 401 "Unauthorized" "Could not verify your wallet signature."))
          | Ok address =>
              match voter_weight weight allowlist (hex address) with
              | Err err =>
                  if is_value_error err
                  then (a, Ok (refusal 500 "ServerError"
                                 "The eligibility allowlist is misconfigured — contact the operator."))
                  else (a, Err err)
              | Ok None => (a, Ok (refusal 403 "Forbidden" "This wallet isn't eligible for this election."))
              | Ok (Some w) =>
                  let pseudonym := derive_pseudonym secret eid address in
                  match alloc a eid pseudonym with
                  | Err err => (a, Err err)
                  | Ok (a', nonce) =>
                      (a', att ← stub_issue_attestation svc (mkAttestationRequest eid pseudonym vk w nonce) k;
                           Ok (200, JObj [("attestation", enc_attestation att);
                                          ("pseudonym", enc_bytes pseudonym)]))
                  end
              end
          end
      end
  | _ => (a, Err AttributeError)
  end.

(** The requests a server answers, one after the other; each comes with the
    allowlist as it is then and the signing randomness. *)
Fixpoint serve (svc : StubEligibilityService) (secret : bytes) (weight : Z) (a : A)
    (requests : list (option (result json) * json * Z)) : A * list (result http) :=
  match requests with
  | [] => (a, [])
  | (allowlist, body, k) :: requests' =>
      let '(a', r) := attest svc secret weight allowlist a body k in
      let '(a'', rs) := serve svc secret weight a' requests' in (a'', r :: rs)
  end.

(** ** What an issued credential is *)

(** [att] is the credential for the wallet that signed the challenge of the
    request, with the next re-vote nonce. *)
Record issued_for (svc : StubEligibilityService) (secret : bytes) (weight : Z)
    (allowlist : option (result json)) (a a' : A) (body : json) (iss_address iss_signature : bytes)
    (att : Attestation) : Prop := {
  iss_election : (v ← body_item body "electionId"; dec_bytes v None) = Ok (att_election_id att);
  iss_vk : (v ← body_item body "vk"; dec_bytes v None) = Ok (att_vk att);
  iss_signed : (v ← body_item body "signature"; dec_bytes v None) = Ok iss_signature;
  iss_recovered :
    recover_message (encode_utf8 (challenge_message (att_election_id att) (att_vk att))) iss_signature
      = Ok iss_address;
  iss_pseudonym : att_pseudonym att = derive_pseudonym secret (att_election_id att) iss_address;
  iss_weight : ∃ w, voter_weight weight allowlist (hex iss_address) = Ok (Some w) ∧
    att_weight att = default w (stub_fixed_weight svc);
  iss_nonce : att_nonce att = last_nonce a (att_election_id att) (att_pseudonym att) + 1;
  iss_counters e p : last_nonce a' e p =
    if decide ((e, p) = (att_election_id att, att_pseudonym att)) then att_nonce att else last_nonce a e p;
}.

(** The body of a 200 response. *)
Definition credential_response (att : Attestation) : http :=
  (200, JObj [("attestation", enc_attestation att); ("pseudonym", enc_bytes (att_pseudonym att))]).

Context `{!CryptoLaws} `{!NonceAllocatorLaws A}.

Lemma stub_issue_Ok elig_sk fw svc req k att :
  new_stub elig_sk fw = Ok svc → stub_issue_attestation svc req k = Ok att →
  att_election_id att = req_election_id req ∧ att_pseudonym att = req_pseudonym req ∧
  att_vk att = req_vk req ∧ att_weight att = default (req_weight req) (stub_fixed_weight svc) ∧
  att_nonce att = req_nonce req ∧
  attestation_wf att ∧ verify_attestation (stub_eligibility_key svc) att (req_election_id req) = true.
Proof.
  unfold new_stub, stub_issue_attestation. intros Hn Hi.
  apply bind_Ok_inv in Hn as ([sk vk] & Hk & Hn). apply bind_Ok_inv in Hn as (kb & Hkb & <-%Ok_inj).
  cbn [stub_sk stub_vk stub_eligibility_key stub_fixed_weight] in *.
  apply bind_Ok_inv in Hi as (sig & Hs & <-%Ok_inj).
  pose proof (sign_attestation_verifies _ _ _ _ _ _ _ _ _ _ _ Hk Hkb Hs) as Hver.
  pose proof (verify_attestation_sig_true _ _ _ _ _ _ _ Hver) as (He & Hp & Hv & Hw & Hnn & _).
  destruct (sign_attestation_succeeds sk vk _ _ _ _ _ k He Hp Hv Hw Hnn) as (sig' & Hs' & Hl).
  rewrite Hs in Hs'. apply Ok_inj in Hs' as <-.
  cbn [att_election_id att_pseudonym att_vk att_weight att_nonce].
  unfold attestation_wf, verify_attestation.
  cbn [att_election_id att_pseudonym att_vk att_weight att_nonce att_scheme att_signature].
  rewrite !bool_decide_eq_true_2, (proj2 (Z.ltb_ge _ 1) Hw) by done. cbn [negb].
  by split_and!.
Qed.

(** The one branch of the handler that answers 200. *)
Lemma attest_200 elig_sk fw svc secret weight allowlist a a' body k r :
  new_stub elig_sk fw = Ok svc →
  attest svc secret weight allowlist a body k = (a', Ok (200, r)) →
  ∃ address signature att, issued_for svc secret weight allowlist a a' body address signature att ∧
    (200, r) = credential_response att ∧ attestation_wf att ∧
    verify_attestation (stub_eligibility_key svc) att (att_election_id att) = true.
Proof.
  intros Hn Ha. unfold attest in Ha. destruct body as [| | | | | |o]; try discriminate.
  unfold get_or in Ha. destruct (py_bool _) eqn:Hb in Ha; [|discriminate]. cbn [negb] in Ha.
  destruct (_ ≫= _) as [[eid vk]|] eqn:Hd in Ha; [|discriminate].
  apply bind_Ok_inv in Hd as (ve & Hve & Hd). apply bind_Ok_inv in Hd as (eid' & Heid & Hd).
  apply bind_Ok_inv in Hd as (vv & Hvv & Hd).
  apply bind_Ok_inv in Hd as (vk' & Hvk & [-> ->]%Ok_inj%pair_equal_spec).
  destruct (_ ≫= _) as [address|] eqn:Hr in Ha; [|discriminate].
  apply bind_Ok_inv in Hr as (sig & Hsig & Hr).
  destruct (voter_weight weight allowlist (hex address)) as [[w|]|err] eqn:Hw;
    [|discriminate|destruct (is_value_error err); discriminate].
  destruct (alloc a eid _) as [[a1 n]|] eqn:Hal; [|discriminate].
  apply pair_equal_spec in Ha as [<- Ha]. apply bind_Ok_inv in Ha as (att & Hatt & Ha%Ok_inj).
  destruct (stub_issue_Ok _ _ _ _ _ _ Hn Hatt) as (E1 & E2 & E3 & E4 & E5 & Hwf & Hver).
  cbn [req_election_id req_pseudonym req_vk req_weight req_nonce] in *.
  destruct (alloc_Ok _ _ _ _ _ Hal) as [Hnx Hcs].
  exists address, sig, att. split_and!; [|by rewrite <- Ha, <- E2|done|by rewrite E1].
  constructor; rewrite ?E1, ?E2, ?E3, ?E5; [by rewrite Hve|by rewrite Hvv| |done|done|by exists w|done|done].
  cbn [body_item]. destruct (dict_get o "signature") as [v|]; [done|]. cbn in Hb. done.
Qed.

(** Every other branch leaves the counters of the issued credentials monotone. *)
Lemma attest_counters svc secret weight allowlist a body k e p :
  last_nonce a e p <= last_nonce (attest svc secret weight allowlist a body k).1 e p.
Proof.
  unfold attest. repeat (case_match; cbn [fst]; try lia). 
  match goal with H : alloc _ _ _ = Ok _ |- _ => apply alloc_Ok in H as [-> Hc] end.
  rewrite Hc. case_decide; simplify_eq; lia.
Qed.

Lemma serve_counters svc secret weight requests a e p :
  last_nonce a e p <= last_nonce (serve svc secret weight a requests).1 e p.
Proof.
  revert a. induction requests as [|[[al body] k] rs IH]; intros a; [done|]. cbn [serve].
  pose proof (attest_counters svc secret weight al a body k e p) as Hc.
  destruct (attest _ _ _ _ _ _ _) as [a' r]. specialize (IH a').
  destruct (serve _ _ _ a' rs) as [a'' l]. cbn [fst] in *. lia.
Qed.

(** The credentials of one voter: those after the first [n] requests have a
    nonce above the counter. *)
Lemma serve_above elig_sk fw svc secret weight requests a j att :
  new_stub elig_sk fw = Ok svc →
  (serve svc secret weight a requests).2 !! j = Some (Ok (credential_response att)) → attestation_wf att →
  last_nonce a (att_election_id att) (att_pseudonym att) < att_nonce att.
Proof.
  intros Hn. revert a j. induction requests as [|[[al body] k] rs IH]; intros a j; [done|]. cbn [serve].
  pose proof (attest_counters svc secret weight al a body k (att_election_id att) (att_pseudonym att)) as Hc.
  destruct (attest _ _ _ _ _ _ _) as [a' r] eqn:Ha. specialize (IH a').
  destruct (serve _ _ _ a' rs) as [a'' l]. cbn [fst snd] in *. destruct j as [|j]; cbn [lookup list_lookup].
  - intros Hr Hwf. apply (inj Some) in Hr. subst r.
    destruct (attest_200 _ _ _ _ _ _ _ _ _ _ _ Hn Ha) as (ad & sg & att' & Hi & Hres & Hwf' & _).
    assert (att' = att) as ->.
    { apply Ok_inj. rewrite <- (dec_enc_attestation att), <- (dec_enc_attestation att') by done.
      apply (f_equal snd) in Hres. cbn [snd credential_response] in Hres. congruence. }
    rewrite (iss_nonce _ _ _ _ _ _ _ _ _ _ Hi). lia.
  - intros Hr Hwf. specialize (IH j Hr Hwf). lia.
Qed.

(** The credential a client reads out of a response. *)
Definition response_attestation (r : json) : result Attestation :=
  v ← _req r "attestation"; dec_attestation v.

Lemma response_credential att : attestation_wf att →
  response_attestation (credential_response att).2 = Ok att.
Proof. intros Hwf. by rewrite <- (dec_enc_attestation att Hwf). Qed.

Lemma serve_credential elig_sk fw svc secret weight requests a i r :
  new_stub elig_sk fw = Ok svc →
  (serve svc secret weight a requests).2 !! i = Some (Ok (200, r)) →
  ∃ att, (200, r) = credential_response att ∧ attestation_wf att.
Proof.
  intros Hn. revert a i. induction requests as [|[[al body] k] rs IH]; intros a i; [done|]. cbn [serve].
  destruct (attest _ _ _ _ _ _ _) as [a' r'] eqn:Ha. specialize (IH a').
  destruct (serve _ _ _ a' rs) as [a'' l]. cbn [snd] in *. destruct i as [|i]; cbn [lookup list_lookup].
  - intros Hr. apply (inj Some) in Hr. subst r'.
    destruct (attest_200 _ _ _ _ _ _ _ _ _ _ _ Hn Ha) as (_ & _ & att & _ & Hres & Hwf & _). by exists att.
  - intros Hr. exact (IH i Hr).
Qed.

Lemma attest_issues elig_sk fw svc secret weight allowlist a a' body k r :
  new_stub elig_sk fw = Ok svc →
  attest svc secret weight allowlist a body k = (a', Ok (200, r)) →
  ∃ address signature att, response_attestation r = Ok att ∧
    verify_attestation (stub_eligibility_key svc) att (att_election_id att) = true ∧
    issued_for svc secret weight allowlist a a' body address signature att.
Proof.
  intros Hn Ha. destruct (attest_200 _ _ _ _ _ _ _ _ _ _ _ Hn Ha) as (ad & sg & att & Hi & Hres & Hwf & Hv).
  exists ad, sg, att. split_and!; [|done..]. apply (f_equal snd) in Hres. cbn [snd] in Hres.
  rewrite Hres. by apply response_credential.
Qed.

(** C27: POST /attest answers 200 only with a credential that the client decodes,
    that verifies under the published eligibility key, that is for the wallet
    which signed the challenge of exactly that election and ballot key, and that
    carries the wallet's pseudonym, its listed weight and the next re-vote nonce;
    no other counter moves. *)
Theorem attest_issues_verifiable elig_sk fw svc secret weight allowlist a a' body k r :
  new_stub elig_sk fw = Ok svc →
  attest svc secret weight allowlist a body k = (a', Ok (200, r)) →
  ∃ address signature att, response_attestation r = Ok att ∧
    verify_attestation (stub_eligibility_key svc) att (att_election_id att) = true ∧
    issued_for svc secret weight allowlist a a' body address signature att.
Proof. exact (attest_issues elig_sk fw svc secret weight allowlist a a' body k r). Qed.

(** whatever else is requested in between and however the allowlist is
    edited, two credentials for one voter in one election carry strictly
    increasing nonces, so a re-vote outranks the ballots before it. *)
Theorem revote_nonces_increase elig_sk fw svc secret weight requests a i j ri rj atti attj :
  new_stub elig_sk fw = Ok svc → (i < j)%nat →
  (serve svc secret weight a requests).2 !! i = Some (Ok (200, ri)) →
  (serve svc secret weight a requests).2 !! j = Some (Ok (200, rj)) →
  response_attestation ri = Ok atti → response_attestation rj = Ok attj →
  att_election_id atti = att_election_id attj → att_pseudonym atti = att_pseudonym attj →
  att_nonce atti < att_nonce attj.
Proof.
  intros Hn Hij Hi Hj Hai Haj He Hp.
  destruct (serve_credential _ _ _ _ _ _ _ _ _ Hn Hj) as (att & Hrj & Hwf).
  assert (att = attj) as ->.
  { apply (f_equal snd) in Hrj. cbn [snd] in Hrj. rewrite Hrj, response_credential in Haj by done. by apply Ok_inj. }
  rewrite Hrj in Hj. clear Haj Hrj. revert a i j Hij Hi Hj.
  induction requests as [|[[al body] k] rs IH]; intros a i j Hij; [done|]. cbn [serve].
  destruct (attest _ _ _ _ _ _ _) as [a' r'] eqn:Ha. specialize (IH a').
  pose proof (serve_above elig_sk fw svc secret weight rs a') as Hab.
  destruct (serve _ _ _ a' rs) as [a'' l]. cbn [snd] in *. destruct j as [|j]; [lia|].
  destruct i as [|i]; cbn [lookup list_lookup]; intros Hi Hj; [|by apply (IH i j); [lia|..]].
  apply (inj Some) in Hi. subst r'.
  destruct (attest_issues _ _ _ _ _ _ _ _ _ _ _ Hn Ha) as (ad & sg & att & Hr & _ & Hiss).
  rewrite Hai in Hr. apply Ok_inj in Hr as <-.
  specialize (Hab j attj Hn Hj Hwf).
  rewrite (iss_counters _ _ _ _ _ _ _ _ _ _ Hiss), decide_True in Hab by congruence. done.
Qed.

End attest.

(** * One credential per wallet *)

Section wallet_theory.
Context `{CryptoLaws} (recover_challenge : bytes → bytes → bytes → result bytes)
        (voting_power : bytes → result Z).

(** The requests a wallet issuer answers; an exception changes nothing. *)
Fixpoint wallet_serve (svc : WalletEligibilityService) (requests : list (WalletAttestationRequest * Z))
  : list (result Attestation) :=
  match requests with
  | [] => []
  | (r, k) :: requests' =>
      match wallet_issue_attestation recover_challenge voting_power svc r k with
      | Ok (svc', att) => Ok att :: wallet_serve svc' requests'
      | Err err => Err err :: wallet_serve svc requests'
      end
  end.

Lemma issue_for_wallet_Ok svc svc' eid vk sig k att :
  issue_for_wallet recover_challenge voting_power svc eid vk sig k = Ok (svc', att) →
  ∃ address, recover_challenge eid vk sig = Ok address ∧ len eid = 32 ∧ att_election_id att = eid ∧
    att_vk att = vk ∧ att_pseudonym att = pseudonym_for address eid ∧
    voting_power address = Ok (att_weight att) ∧ 1 <= att_weight att ∧
    (wal_prevent_reissue svc = true → (eid, address) ∉ wal_issued svc) ∧
    wal_prevent_reissue svc' = wal_prevent_reissue svc ∧
    wal_issued svc' = {[(eid, address)]} ∪ wal_issued svc ∧
    wal_sk svc' = wal_sk svc ∧ wal_vk svc' = wal_vk svc ∧ wal_eligibility_key svc' = wal_eligibility_key svc ∧
    sign_attestation (wal_sk svc) (wal_vk svc) eid (att_pseudonym att) vk (att_weight att) (att_nonce att) k
      = Ok (att_signature att) ∧ att_scheme att = V1.
Proof.
  unfold issue_for_wallet. intros Hi.
  apply bind_Ok_inv in Hi as ([] & Hl%raise_if_Ok & Hi). apply bind_Ok_inv in Hi as ([] & _ & Hi).
  apply bind_Ok_inv in Hi as (address & Hr & Hi). apply bind_Ok_inv in Hi as (vp & Hvp & Hi).
  apply bind_Ok_inv in Hi as ([] & Hpos%raise_if_Ok & Hi). apply bind_Ok_inv in Hi as ([] & Hiss%raise_if_Ok & Hi).
  apply bind_Ok_inv in Hi as (sg & Hsg & [<- <-]%Ok_inj%pair_equal_spec). exists address.
  cbn [att_election_id att_pseudonym att_vk att_weight att_nonce att_signature att_scheme
       wal_prevent_reissue wal_issued wal_sk wal_vk wal_eligibility_key].
  unfold _recover_address in Hr. split_and!; try done; [by destruct (recover_challenge eid vk sig)|lia|lia|].
  intros Hp. rewrite Hp in Hiss. by case_bool_decide.
Qed.

Lemma wallet_serve_fresh svc requests j att :
  wal_prevent_reissue svc = true →
  wallet_serve svc requests !! j = Some (Ok att) →
  ∃ address, att_pseudonym att = pseudonym_for address (att_election_id att) ∧ len (att_election_id att) = 32 ∧
    (att_election_id att, address) ∉ wal_issued svc.
Proof.
  revert svc j. induction requests as [|[r k] rs IH]; intros svc j Hp; [done|]. cbn [wallet_serve].
  destruct (wallet_issue_attestation _ _ svc r k) as [[svc' att']|err] eqn:Hi.
  - destruct (issue_for_wallet_Ok _ _ _ _ _ _ _ Hi)
      as (address & _ & Hl & He & _ & Hps & _ & _ & Hfresh & Hpr & Hss & _).
    destruct j as [|j]; cbn [lookup list_lookup].
    + intros [= <-]. exists address. rewrite Hps, He. auto.
    + intros Hj. destruct (IH svc' j ltac:(congruence) Hj) as (ad & ? & ? & Hn). exists ad.
      split_and!; [done..|]. intros Hin. apply Hn. rewrite Hss. by apply elem_of_union_r.
  - destruct j as [|j]; cbn [lookup list_lookup]; [done|]. apply IH. done.
Qed.

(** an issuer that prevents re-issue gives a wallet one credential per
    election: the credentials it issues for one election are for different
    wallets, whose pseudonyms differ if the two texts hashed for them do not
    collide. *)
Theorem wallet_credentials_distinct svc requests i j atti attj :
  wal_prevent_reissue svc = true → (i < j)%nat →
  wallet_serve svc requests !! i = Some (Ok atti) → wallet_serve svc requests !! j = Some (Ok attj) →
  att_election_id atti = att_election_id attj →
  ∃ ad ad', ad ≠ ad' ∧ att_pseudonym atti = pseudonym_for ad (att_election_id atti)
    ∧ att_pseudonym attj = pseudonym_for ad' (att_election_id attj)
    ∧ (coll_free [ad ++ att_election_id atti; ad' ++ att_election_id attj] → att_pseudonym atti ≠ att_pseudonym attj).
Proof.
  revert svc i j. induction requests as [|[r k] rs IH]; intros svc i j Hp Hij; [done|]. cbn [wallet_serve].
  destruct (wallet_issue_attestation _ _ svc r k) as [[svc' att']|err] eqn:Hi.
  - destruct (issue_for_wallet_Ok _ _ _ _ _ _ _ Hi)
      as (address & _ & Hl & He & _ & Hps & _ & _ & _ & Hpr & Hss & _).
    destruct j as [|j]; [lia|]. destruct i as [|i]; cbn [lookup list_lookup]; [|apply (IH svc'); [congruence|lia]].
    intros [= <-] Hj Heq. destruct (wallet_serve_fresh svc' rs j attj ltac:(congruence) Hj) as (ad & Hps' & _ & Hn).
    assert (Hne : address ≠ ad).
    { intros ->. destruct Hn. rewrite Hss, <- Heq, He. by apply elem_of_union_l, elem_of_singleton_2. }
    exists address, ad. rewrite He. split_and!; [done..|]. rewrite Hps, Hps'. intros Hc E.
    apply (coll_free_eq _ _ _ Hc) in E; [|set_solver..].
    apply app_inj_2 in E as [E _]; [done|rewrite <- Heq, He; done].
  - destruct i as [|i], j as [|j]; try done; try lia. cbn [lookup list_lookup]. apply (IH svc); [done|lia].
Qed.

End wallet_theory.

(** * The hypotheses hold *)

Module eligibility_example.
Import naming_account.
#[local] Existing Instance concrete_crypto.

Definition eid : bytes := Eval vm_compute in be_bytes 32 1.
Definition vk : bytes := Eval vm_compute in be_bytes 48 7.
Definition wallet_key : bytes := Eval vm_compute in be_bytes 32 77.
Definition hmac (key msg : bytes) : bytes := keccak (key ++ msg).
Definition secret : bytes := [Byte.x01].
Definition svc : StubEligibilityService :=
  mkStub 9 (mul G1 9) (pt_to_compressed G1ops (mul G1 9)) None.
Definition body : json := Eval vm_compute in
  JObj [("electionId", enc_bytes eid); ("vk", enc_bytes vk);
        ("signature", enc_bytes (wallet_key ++ encode_utf8 (challenge_message eid vk)))].
(** The wallet is listed in mixed case with weight 5. *)
Definition allowlist : option (result json) := Eval vm_compute in
  Some (Ok (JObj [((" 0X" +:+ hex (drop 12 wallet_key))%string, JInt 5)])).

Lemma svc_made : new_stub 9 None = Ok svc.
Proof.
  unfold new_stub, schnorr.keygen. replace (9 mod CURVE_ORDER) with 9 by (vm_compute; reflexivity).
  change (9 =? 0) with false. cbn [raise_if mbind result_bind]. unfold g1_to_compressed.
  rewrite to_compressed_Ok. reflexivity.
Qed.

(** Three requests of the wallet: to vote, with a damaged signature, and again
    to vote. *)
Definition requests : list (option (result json) * json * Z) :=
  [(allowlist, body, 3);
   (allowlist, JObj [("electionId", enc_bytes eid); ("vk", enc_bytes vk); ("signature", enc_bytes eid)], 4);
   (None, body, 5)].
Definition responses : list (result http) := Eval vm_compute in (serve hmac svc secret 1 ([] : memory_counts) requests).2.
Definition response (i : nat) : json := Eval vm_compute in
  match responses !! i with Some (Ok (_, r)) => r | _ => JNull end.
Definition credential (i : nat) : Attestation :=
  match response_attestation (response i) with Ok a => a | Err _ => mkAttestation [] [] [] 0 [] V1 0 end.
Definition first_run : memory_counts * result http := Eval vm_compute in attest hmac svc secret 1 allowlist ([] : memory_counts) body 3.

Lemma responses_are : (serve hmac svc secret 1 ([] : memory_counts) requests).2 = responses.
Proof. vm_compute. reflexivity. Qed.

Lemma first_is : attest hmac svc secret 1 allowlist ([] : memory_counts) body 3 = (first_run.1, Ok (200, response 0)).
Proof. vm_compute. reflexivity. Qed.

(** A listed wallet gets a credential. *)
Lemma attest_issues_verifiable_witness :
  let c := concrete_crypto in
  ∃ address signature att, response_attestation (response 0) = Ok att ∧
    verify_attestation (stub_eligibility_key svc) att (att_election_id att) = true ∧
    issued_for hmac svc secret 1 allowlist [] first_run.1 body address signature att.
Proof.
  intros c. apply (attest_issues_verifiable hmac 9 None svc secret 1 allowlist [] first_run.1 body 3 (response 0)).
  - exact svc_made.
  - exact first_is.
Defined.

(** The wallet votes, fails once and votes again. *)
Lemma revote_nonces_increase_witness :
  let c := concrete_crypto in att_nonce (credential 0) < att_nonce (credential 2).
Proof.
  intros c.
  apply (revote_nonces_increase hmac 9 None svc secret 1 requests ([] : memory_counts) 0 2 (response 0) (response 2)
           (credential 0) (credential 2) svc_made); [lia|rewrite responses_are; reflexivity..| | | |];
    vm_compute; reflexivity.
Defined.

(** A challenge signature is the address followed by what it signs. *)
Definition recover_challenge (e v sg : bytes) : result bytes :=
  if bool_decide (drop 20 sg = e ++ v) then Ok (take 20 sg) else Err ValueError.
Definition wallet_request (address : bytes) : WalletAttestationRequest :=
  mkWalletRequest eid vk (address ++ eid ++ vk).
Definition wallet_svc : WalletEligibilityService :=
  mkWallet 9 (mul G1 9) (pt_to_compressed G1ops (mul G1 9)) true ∅.
Definition wallet_requests : list (WalletAttestationRequest * Z) :=
  [(wallet_request (replicate 20 Byte.x01), 3); (wallet_request (replicate 20 Byte.x01), 4);
   (wallet_request (replicate 20 Byte.x02), 5)].
Definition wallet_out : list (result Attestation) :=
  Eval vm_compute in wallet_serve recover_challenge (λ _, Ok 6) wallet_svc wallet_requests.
Definition wallet_credential (i : nat) : Attestation :=
  match wallet_out !! i with Some (Ok a) => a | _ => mkAttestation [] [] [] 0 [] V1 0 end.

Lemma wallet_out_is : wallet_serve recover_challenge (λ _, Ok 6) wallet_svc wallet_requests = wallet_out.
Proof. vm_compute. reflexivity. Qed.

(** The second request of a wallet is refused; another wallet's is not. *)
Lemma wallet_credentials_distinct_witness :
  let c := concrete_crypto in
  wallet_out !! 1%nat = Some (Err EligibilityError)
  ∧ ∃ ad ad', ad ≠ ad' ∧ att_pseudonym (wallet_credential 0) = pseudonym_for ad eid
      ∧ att_pseudonym (wallet_credential 2) = pseudonym_for ad' eid.
Proof.
  intros c. split; [reflexivity|].
  destruct (wallet_credentials_distinct recover_challenge (λ _, Ok 6) wallet_svc wallet_requests 0 2
           (wallet_credential 0) (wallet_credential 2)) as (ad & ad' & Hn & H0 & H2 & _);
    [reflexivity|lia|rewrite wallet_out_is; reflexivity..|reflexivity|].
  exists ad, ad'. split_and!; [exact Hn|exact H0|exact H2].
Defined.

End eligibility_example.
