(* ===== verification/Bootstrap.v ===== *)
(** Channel bootstrap between the coordinator and the keypers
    (services/keyper/keyper_bootstrap.py): signed payloads, sealed boxes, bound
    encryption keys, sealed DKG shares and the replay guard; and the bearer-token
    comparison (services/common/auth.py).  X25519, HKDF and AES-GCM are
    parameters; the ephemeral key and the nonce of a seal are arguments. *)

From Stdlib Require Import Ascii.
From S2P Require Import Prelude Params Primality Field Points Transcript Types Config Codecs WriteAuth.

(** * The primitives *)

Class SealPrimitives : Type := {
  x25519_public : bytes → bytes;
  x25519_exchange : bytes → bytes → result bytes;
  hkdf : bytes → bytes → bytes;                       (* info, shared secret *)
  aes_encrypt : bytes → bytes → bytes → bytes;        (* key, nonce, plaintext *)
  aes_decrypt : bytes → bytes → bytes → result bytes;
}.

Class SealLaws `{SealPrimitives} : Prop := {
  x25519_public_size sk : length (x25519_public sk) = 32%nat;
  x25519_agree a b : x25519_exchange a (x25519_public b) = x25519_exchange b (x25519_public a);
  aes_correct k n m : aes_decrypt k n (aes_encrypt k n m) = Ok m;
}.

(** * base64 *)

Definition b64_char (n : Z) : ascii :=
  ascii_of_N (Z.to_N (if n <? 26 then 65 + n else if n <? 52 then 71 + n else if n <? 62 then n - 4
                      else if n =? 62 then 43 else 47)).

Definition b64_value (c : ascii) : option Z :=
  let n := Z.of_N (N_of_ascii c) in
  if (65 <=? n) && (n <=? 90) then Some (n - 65)
  else if (97 <=? n) && (n <=? 122) then Some (n - 71)
  else if (48 <=? n) && (n <=? 57) then Some (n + 4)
  else if n =? 43 then Some 62 else if n =? 47 then Some 63 else None.

(** [base64.b64encode] *)
Fixpoint b64encode (b : bytes) : string :=
  match b with
  | [] => ""
  | [x] => let x := byte_val x in
      String (b64_char (x / 4)) (String (b64_char (x mod 4 * 16)) "==")
  | [x; y] => let x := byte_val x in let y := byte_val y in
      String (b64_char (x / 4)) (String (b64_char (x mod 4 * 16 + y / 16))
        (String (b64_char (y mod 16 * 4)) "="))
  | x :: y :: z :: b' => let x := byte_val x in let y := byte_val y in let z := byte_val z in
      String (b64_char (x / 4)) (String (b64_char (x mod 4 * 16 + y / 16))
        (String (b64_char (y mod 16 * 4 + z / 64)) (String (b64_char (z mod 64)) (b64encode b'))))
  end.

(** [binascii.a2b_base64], not strict: [quad] is the position in the group of
    four, [left] the bits kept of it, [pads] the padding seen in a row. *)
Fixpoint a2b_base64 (quad left pads : Z) (s : string) : result bytes :=
  match s with
  | EmptyString => if quad =? 0 then Ok [] else Err ValueError
  | String c s =>
      if Ascii.eqb c "="%char then
        if (2 <=? quad) && (4 <=? quad + (pads + 1)) then Ok []
        else a2b_base64 quad left (if 2 <=? quad then pads + 1 else pads) s
      else match b64_value c with
      | None => a2b_base64 quad left pads s
      | Some v =>
          if quad =? 0 then a2b_base64 1 v 0 s
          else if quad =? 1 then
            r ← a2b_base64 2 (v mod 16) 0 s; Ok (byte_of (left * 4 + v / 16) :: r)
          else if quad =? 2 then
            r ← a2b_base64 3 (v mod 4) 0 s; Ok (byte_of (left * 16 + v / 4) :: r)
          else r ← a2b_base64 0 0 0 s; Ok (byte_of (left * 64 + v) :: r)
      end
  end.

(** [base64.b64decode] of a JSON value: text with a character outside ASCII is a
    [ValueError], other types a [TypeError]. *)
Definition b64decode (v : json) : result bytes :=
  match v with
  | JStr s => if forallb (λ n, n <? 128) (code_points s) then a2b_base64 0 0 0 s else Err ValueError
  | _ => Err TypeError
  end.

(** * services/keyper/keyper_bootstrap.py *)

Definition BOOTSTRAP_DST : bytes := encode_utf8 "SHUTTER-GOVERNANCE-PROTOCOL-KEYPER-TOKEN-BOOTSTRAP-v1".
Definition _HKDF_INFO : bytes := encode_utf8 "shutter-governance-protocol-keyper-token-bootstrap-v1".
Definition NONCE_WINDOW_S : Z := 300.
Definition ENC_PUBKEY_DST : bytes := encode_utf8 "SHUTTER-GOVERNANCE-PROTOCOL-ENC-PUBKEY-v1".
Definition SHARE_SEAL_DST : bytes := encode_utf8 "SHUTTER-GOVERNANCE-PROTOCOL-DKG-SHARE-SEAL-v1".

(** [s.removeprefix("0x")] *)
Definition without_0x (s : string) : string :=
  match s with String "0"%char (String "x"%char s') => s' | _ => s end.

(** [bytes.fromhex] *)
Definition bytes_fromhex (s : string) : result bytes :=
  match fromhex s with Some b => Ok b | None => Err ValueError end.

Section bootstrap.
Context `{Crypto} `{EthAccount} `{SealPrimitives} (float_repr : Z → Z → string).

(** ** Signed payloads *)

Definition canonical_payload_bytes (payload : json) : bytes := encode_utf8 (json_dumps float_repr payload).
Definition _payload_digest (payload : json) : bytes := keccak (BOOTSTRAP_DST ++ canonical_payload_bytes payload).

Definition sign_payload (signer : Signer) (payload : json) : result bytes :=
  key ← to_bytes_be (private_key signer) 32;
  sign_message (_payload_digest payload) key.

Definition verify_payload (trusted_identities : list bytes) (payload : json) (signature : bytes) : bool :=
  match recover_message (_payload_digest payload) signature with
  | Ok recovered => bool_decide (recovered ∈ trusted_identities)
  | Err _ => false
  end.

(** ** Sealed boxes *)

Definition seal_key (eph_pub recipient_pub shared : bytes) : bytes :=
  hkdf (_HKDF_INFO ++ eph_pub ++ recipient_pub) shared.

(** [eph] is the ephemeral private key, [nonce] the 12 random bytes. *)
Definition x25519_seal (plaintext recipient_pub eph nonce : bytes) : result bytes :=
  let eph_pub := x25519_public eph in
  shared ← x25519_exchange eph recipient_pub;
  Ok (eph_pub ++ nonce ++ aes_encrypt (seal_key eph_pub recipient_pub shared) nonce plaintext).

Definition x25519_unseal (sealed recipient_sk : bytes) : result bytes :=
  _ ← raise_if (len sealed <? 44) ValueError;
  let eph_pub := take 32 sealed in
  let nonce := take 12 (drop 32 sealed) in
  let ct := drop 44 sealed in
  shared ← x25519_exchange recipient_sk eph_pub;
  aes_decrypt (seal_key eph_pub (x25519_public recipient_sk) shared) nonce ct.

(** ** Bound encryption keys *)

Definition enc_pubkey_hash (pubkey_bytes : bytes) : bytes := keccak (ENC_PUBKEY_DST ++ pubkey_bytes).

Definition sign_encryption_pubkey (signer : Signer) (pubkey_bytes : bytes) : result bytes :=
  key ← to_bytes_be (private_key signer) 32;
  sign_message (enc_pubkey_hash pubkey_bytes) key.

(** The address is that of a committee member, in bytes. *)
Definition verify_encryption_pubkey (address : bytes) (pubkey_hex sig_hex : string) : result bytes :=
  pubkey_bytes ← bytes_fromhex (without_0x pubkey_hex);
  sig ← bytes_fromhex (without_0x sig_hex);
  recovered ← recover_message (enc_pubkey_hash pubkey_bytes) sig;
  _ ← raise_if (negb (bool_decide (recovered = address))) ValueError;
  _ ← raise_if (negb (len pubkey_bytes =? 32)) ValueError;
  Ok pubkey_bytes.

(** ** Sealed shares *)

Definition seal_share (share : Z) (recipient_pub eph nonce : bytes) : result string :=
  s ← to_bytes_be (share mod CURVE_ORDER) 32;
  sealed ← x25519_seal (SHARE_SEAL_DST ++ s) recipient_pub eph nonce;
  Ok (b64encode sealed).

Definition unseal_share (sealed_b64 : json) (recipient_sk : bytes) : result Z :=
  sealed ← b64decode sealed_b64;
  plaintext ← x25519_unseal sealed recipient_sk;
  _ ← raise_if (negb (bool_decide (take (length SHARE_SEAL_DST) plaintext = SHARE_SEAL_DST))) ValueError;
  let body := drop (length SHARE_SEAL_DST) plaintext in
  _ ← raise_if (negb (len body =? 32)) ValueError;
  Ok (from_bytes_be body).

End bootstrap.

(** ** The replay guard

    Clock readings count microseconds. *)

Definition MICROS : Z := 1000000.

Record NonceTracker := mkNonceTracker { _window : Z; _seen : dict string Z }.

Definition new_nonce_tracker : NonceTracker := mkNonceTracker (NONCE_WINDOW_S * MICROS) [].

Definition _prune (t : NonceTracker) (now : Z) : NonceTracker :=
  mkNonceTracker (_window t) (filter (λ e, ¬ _window t < now - e.2) (_seen t)).

Definition check_and_record (t : NonceTracker) (now : Z) (nonce : string) (timestamp : Z) : NonceTracker * bool :=
  let t := _prune t now in
  if String.eqb nonce "" || (_window t <? Z.abs (now - timestamp * MICROS)) then (t, false) else
  if bool_decide (is_Some (dict_get (_seen t) nonce)) then (t, false) else
  (mkNonceTracker (_window t) (dict_set (_seen t) nonce now), true).

(** * services/common/auth.py *)

(** A token as it arrives: text, bytes, or something else. *)
Inductive token := TStr (s : string) | TBytes (b : bytes) | TOther.

Definition token_bytes (t : token) : option bytes :=
  match t with TStr s => Some (encode_utf8 s) | TBytes b => Some b | TOther => None end.

Definition tokens_equal (presented expected : token) : bool :=
  match token_bytes presented, token_bytes expected with
  | Some [], _ | _, Some [] => false
  | Some p, Some e => bool_decide (p = e)
  | _, _ => false
  end.

(** * base64 round trip *)

Lemma b64_value_char n : 0 <= n < 64 → b64_value (b64_char n) = Some n.
Proof.
  intros Hn. assert (HF : Forall (λ k, b64_value (b64_char k) = Some k) (seqZ 0 64)) by (by repeat constructor).
  rewrite Forall_forall in HF. apply HF, elem_of_seqZ. lia.
Qed.

Lemma b64_char_code n : 0 <= n < 64 → code (b64_char n) < 128 ∧ Ascii.eqb (b64_char n) "="%char = false.
Proof.
  intros Hn.
  assert (HF : Forall (λ k, code (b64_char k) < 128 ∧ Ascii.eqb (b64_char k) "="%char = false) (seqZ 0 64))
    by (by repeat constructor).
  rewrite Forall_forall in HF. apply HF, elem_of_seqZ. lia.
Qed.

(** One alphabet character read at each of the four positions. *)
Lemma a2b_char n quad left pads s : 0 <= n < 64 →
  a2b_base64 quad left pads (String (b64_char n) s) =
    if quad =? 0 then a2b_base64 1 n 0 s
    else if quad =? 1 then r ← a2b_base64 2 (n mod 16) 0 s; Ok (byte_of (left * 4 + n / 16) :: r)
    else if quad =? 2 then r ← a2b_base64 3 (n mod 4) 0 s; Ok (byte_of (left * 16 + n / 4) :: r)
    else r ← a2b_base64 0 0 0 s; Ok (byte_of (left * 64 + n) :: r).
Proof.
  intros Hn. cbn [a2b_base64]. destruct (b64_char_code n Hn) as [_ ->]. by rewrite b64_value_char.
Qed.

(** Induction over the groups of three bytes. *)
Lemma triples_ind (P : bytes → Prop) :
  P [] → (∀ x, P [x]) → (∀ x y, P [x; y]) → (∀ x y z b, P b → P (x :: y :: z :: b)) → ∀ b, P b.
Proof.
  intros H0 H1 H2 H3. fix IH 1. intros [|x [|y [|z b]]]; [done|apply H1|apply H2|apply H3, IH].
Qed.

Ltac solve_byte := apply byte_val_inj; rewrite byte_val_of; Z.div_mod_to_equations; lia.

Lemma a2b_pad2 left : a2b_base64 2 left 0 "==" = Ok [].
Proof. reflexivity. Qed.
Lemma a2b_pad1 left : a2b_base64 3 left 0 "=" = Ok [].
Proof. reflexivity. Qed.

Lemma a2b_b64encode b : a2b_base64 0 0 0 (b64encode b) = Ok b.
Proof.
  induction b as [|x|x y|x y z b IH] using triples_ind; [done|..];
    pose proof (byte_val_range x); try pose proof (byte_val_range y); try pose proof (byte_val_range z);
    cbn [b64encode]; repeat rewrite a2b_char by (Z.div_mod_to_equations; lia);
    cbn [Z.eqb Pos.eqb]; rewrite ?a2b_pad2, ?a2b_pad1, ?IH, ?bind_Ok; repeat f_equal; solve_byte.
Qed.

Lemma code_points_char n s : 0 <= n < 64 →
  code_points (String (b64_char n) s) = code (b64_char n) :: code_points s.
Proof.
  intros Hn. cbn [code_points]. destruct (b64_char_code n Hn) as [Hc _].
  rewrite (proj2 (Z.ltb_lt _ 192)) by lia. done.
Qed.

Lemma b64encode_ascii b : forallb (λ n, n <? 128) (code_points (b64encode b)) = true.
Proof.
  induction b as [|x|x y|x y z b IH] using triples_ind; [done|..];
    pose proof (byte_val_range x); try pose proof (byte_val_range y); try pose proof (byte_val_range z);
    cbn [b64encode]; repeat rewrite code_points_char by (Z.div_mod_to_equations; lia);
    cbn [forallb]; [..|rewrite IH]; rewrite ?andb_true_iff, ?Z.ltb_lt; split_and!; try done;
    apply b64_char_code; Z.div_mod_to_equations; lia.
Qed.

Lemma b64_roundtrip b : b64decode (JStr (b64encode b)) = Ok b.
Proof. unfold b64decode. rewrite b64encode_ascii. apply a2b_b64encode. Qed.

(** * Sealed boxes open for their recipient *)

Section sealing.
Context `{SealLaws}.

Lemma unseal_seal m sk eph nonce sealed : length nonce = 12%nat →
  x25519_seal m (x25519_public sk) eph nonce = Ok sealed → x25519_unseal sealed sk = Ok m.
Proof.
  intros Hn (shared & Hx & Hs%Ok_inj)%bind_Ok_inv. subst sealed.
  pose proof (x25519_public_size eph) as He. unfold x25519_unseal.
  rewrite (proj2 (Z.ltb_ge _ _)); cbn [raise_if].
  - rewrite bind_Ok, take_app_length', drop_app_length' by done.
    rewrite app_assoc, (drop_app_length' (x25519_public eph ++ nonce)) by (rewrite length_app; lia).
    rewrite take_app_length' by done. rewrite x25519_agree, Hx, bind_Ok. apply aes_correct.
  - unfold len. rewrite !length_app. lia.
Qed.

(** What [unseal_share] makes of any box sealed to its key: a share if the
    plaintext is a tagged 32-byte scalar, a [ValueError] otherwise. *)
Lemma unseal_share_box m sk eph nonce sealed : length nonce = 12%nat →
  x25519_seal m (x25519_public sk) eph nonce = Ok sealed →
  unseal_share (JStr (b64encode sealed)) sk =
    if bool_decide (take (length SHARE_SEAL_DST) m = SHARE_SEAL_DST) && (len (drop (length SHARE_SEAL_DST) m) =? 32)
    then Ok (from_bytes_be (drop (length SHARE_SEAL_DST) m)) else Err ValueError.
Proof.
  intros Hn Hs. unfold unseal_share. rewrite b64_roundtrip, bind_Ok, (unseal_seal _ _ _ _ _ Hn Hs), bind_Ok.
  by destruct (bool_decide _), (_ =? 32).
Qed.

Lemma unseal_sealed share sk eph nonce sealed : length nonce = 12%nat →
  seal_share share (x25519_public sk) eph nonce = Ok sealed → unseal_share (JStr sealed) sk = Ok (share mod CURVE_ORDER).
Proof.
  intros Hn (s & Hs & (box & Hb & <-%Ok_inj)%bind_Ok_inv)%bind_Ok_inv.
  rewrite (unseal_share_box _ _ _ _ _ Hn Hb), take_app_length, drop_app_length.
  rewrite bool_decide_eq_true_2 by done. unfold len. rewrite (to_bytes_be_length _ _ _ Hs). cbn [andb Z.of_nat Z.eqb].
  by rewrite (from_to_bytes_be _ _ _ Hs).
Qed.

(** A share sealed to a keyper's key opens there to the share reduced modulo
    the group order, sealing fails only where the key exchange does, and a box
    of the same key whose plaintext lacks the share tag is refused. *)
Theorem sealed_share_roundtrip share sk eph nonce : length nonce = 12%nat →
  (∀ sealed, seal_share share (x25519_public sk) eph nonce = Ok sealed →
     unseal_share (JStr sealed) sk = Ok (share mod CURVE_ORDER))
  ∧ is_ok (seal_share share (x25519_public sk) eph nonce) = is_ok (x25519_exchange eph (x25519_public sk))
  ∧ (∀ m sealed, ¬ SHARE_SEAL_DST `prefix_of` m → x25519_seal m (x25519_public sk) eph nonce = Ok sealed →
     unseal_share (JStr (b64encode sealed)) sk = Err ValueError).
Proof.
  intros Hn. split_and!.
  - intros sealed. by apply unseal_sealed.
  - unfold seal_share. pose proof (mod_q_range share). pose proof q_lt_256_32.
    rewrite to_bytes_be_small, bind_Ok by lia. unfold x25519_seal. by destruct (x25519_exchange _ _).
  - intros m sealed Ht Hb. rewrite (unseal_share_box _ _ _ _ _ Hn Hb).
    case_bool_decide as Hp; [|done]. destruct Ht. rewrite <- Hp. apply prefix_take.
Qed.

End sealing.

(** * Encryption keys are bound to their owner *)

Section enc_keys.
Context `{Crypto} `{EthAccountLaws}.

Lemma hex_char_not_x n : 0 <= n < 16 → Ascii.eqb (hex_char n) "x"%char = false.
Proof.
  intros Hn. assert (HF : Forall (λ k, Ascii.eqb (hex_char k) "x"%char = false) (seqZ 0 16)) by (by repeat constructor).
  rewrite Forall_forall in HF. apply HF, elem_of_seqZ. lia.
Qed.

Lemma without_0x_id a b s : Ascii.eqb b "x"%char = false → without_0x (String a (String b s)) = String a (String b s).
Proof. intros Hb. unfold without_0x. repeat (case_match; try done). Qed.

Lemma fromhex_without_0x b : bytes_fromhex (without_0x (hex b)) = Ok b.
Proof.
  assert (without_0x (hex b) = hex b) as ->.
  { destruct b as [|x b]; [done|]. cbn [hex]. apply without_0x_id, hex_char_not_x.
    apply Z.mod_pos_bound. lia. }
  unfold bytes_fromhex. by rewrite fromhex_hex.
Qed.

Lemma fromhex_0x b : bytes_fromhex (without_0x ("0x" +:+ hex b)) = Ok b.
Proof.
  change (without_0x ("0x" +:+ hex b)) with (hex b). unfold bytes_fromhex. by rewrite fromhex_hex.
Qed.

Lemma verify_enc_recovers addr pubkey_hex sig_hex pub : verify_encryption_pubkey addr pubkey_hex sig_hex = Ok pub →
  length pub = 32%nat ∧ ∃ sig, recover_message (enc_pubkey_hash pub) sig = Ok addr.
Proof.
  unfold verify_encryption_pubkey. intros Hv. apply bind_Ok_inv in Hv as (pb & _ & Hv).
  apply bind_Ok_inv in Hv as (sig & _ & Hv). apply bind_Ok_inv in Hv as (r & Hr & Hv).
  apply bind_Ok_inv in Hv as ([] & Ha%raise_if_Ok%negb_false_iff%bool_decide_eq_true & Hv).
  apply bind_Ok_inv in Hv as ([] & Hl%raise_if_Ok%negb_false_iff%Z.eqb_eq & <-%Ok_inj).
  subst r. unfold len in Hl. split; [lia|]. by exists sig.
Qed.

(** The check a dealer runs before sealing to a relayed key accepts the key a
    keyper published with its own signature, and accepts no key that the expected
    address has not signed under the encryption-key tag. *)
Theorem enc_key_binding sk s addr : from_sk sk = Ok s →
  (∀ pub sig, length pub = 32%nat → sign_encryption_pubkey s pub = Ok sig →
     verify_encryption_pubkey (identity s) (hex pub) (hex sig) = Ok pub)
  ∧ (∀ pubkey_hex sig_hex pub, verify_encryption_pubkey addr pubkey_hex sig_hex = Ok pub →
     length pub = 32%nat ∧ ∃ sig, recover_message (keccak (ENC_PUBKEY_DST ++ pub)) sig = Ok addr).
Proof.
  intros Hs. split.
  - intros pub sig Hp Hsig. apply bind_Ok_inv in Hsig as (key & Hkey & Hsig).
    apply from_sk_key in Hs as [Hk Ha]. rewrite Hk, Ha in Hkey. apply Ok_inj in Hkey as <-.
    unfold verify_encryption_pubkey. rewrite !fromhex_without_0x, !bind_Ok.
    rewrite (recover_sign _ _ _ Hsig), bind_Ok. rewrite bool_decide_eq_true_2 by done.
    unfold len. by rewrite Hp.
  - intros ph sh pub Hv. by apply verify_enc_recovers in Hv.
Qed.

End enc_keys.

(** * The replay guard *)

(** A call of the guard: the clock reading, the nonce and the timestamp. *)
Definition guard_call : Type := Z * string * Z.

(** The guard after a sequence of calls. *)
Definition guard_run (t : NonceTracker) (calls : list guard_call) : NonceTracker :=
  foldl (λ t '(now, nonce, ts), (check_and_record t now nonce ts).1) t calls.

Lemma prune_get d (W now at_ : Z) nonce : dict_get d nonce = Some at_ → now - at_ <= W →
  dict_get (filter (λ e : string * Z, ¬ W < now - e.2) d) nonce = Some at_.
Proof.
  induction d as [|[k v] d IH]; [done|]. intros Hg Hw. rewrite filter_cons. cbn [dict_get] in Hg.
  case_decide as Hk.
  - simplify_eq. rewrite decide_True by (cbn; lia). cbn. by rewrite decide_True.
  - case_decide; [|auto]. cbn. rewrite decide_False by done. auto.
Qed.

(** The nonce is on record since [at_]; the window never changes. *)
Definition on_record (t : NonceTracker) (W : Z) (nonce : string) (at_ : Z) : Prop :=
  _window t = W ∧ dict_get (_seen t) nonce = Some at_.

Lemma check_keeps_record t W nonce at_ now nonce' ts' : on_record t W nonce at_ → now - at_ <= W →
  on_record (check_and_record t now nonce' ts').1 W nonce at_.
Proof.
  intros [HW Hg] Hw. unfold check_and_record.
  assert (Hp : on_record (_prune t now) W nonce at_) by (split; [done|]; subst W; by apply prune_get).
  destruct (String.eqb nonce' "" || _); [done|]. case_bool_decide as Hs; [done|].
  destruct Hp as [Hp1 Hp2]. split; [done|]. cbn [fst _seen]. rewrite dict_get_set.
  rewrite decide_False; [done|]. intros ->. destruct Hs. by exists at_.
Qed.

Lemma run_keeps_record t W nonce at_ calls : on_record t W nonce at_ →
  Forall (λ c, c.1.1 - at_ <= W) calls → on_record (guard_run t calls) W nonce at_.
Proof.
  intros Hr HF. revert t Hr. induction HF as [|[[now n] ts] calls Hc _ IH]; intros t Hr; [done|].
  cbn [guard_run foldl]. apply IH. by apply check_keeps_record.
Qed.

Lemma check_window t now nonce ts : _window (check_and_record t now nonce ts).1 = _window t.
Proof. unfold check_and_record. by repeat case_match. Qed.

Lemma run_window t calls : _window (guard_run t calls) = _window t.
Proof.
  revert t. induction calls as [|[[now n] ts] calls IH]; intros t; [done|].
  cbn. rewrite IH. apply check_window.
Qed.

Lemma check_accepts t now nonce ts t' : check_and_record t now nonce ts = (t', true) →
  on_record t' (_window t) nonce now ∧ Z.abs (now - ts * MICROS) <= _window t.
Proof.
  unfold check_and_record. destruct (String.eqb nonce ""); [done|]. cbn [orb _prune _window].
  destruct (Z.ltb_spec (_window t) (Z.abs (now - ts * MICROS))); [done|].
  case_bool_decide; [done|]. intros [= <-]. repeat split; [|lia]. cbn. by rewrite dict_get_set, decide_True.
Qed.

(** Whatever calls come between, under a clock that does not run backwards,
    a nonce and timestamp that were accepted are accepted again only if the
    timestamp lay in the future when it was first accepted: a payload stamped at
    or before its first use cannot be replayed. *)
Theorem replay_needs_future_stamp t now nonce ts t1 calls now' t2 :
  check_and_record t now nonce ts = (t1, true) →
  Forall (λ c, c.1.1 <= now') calls →
  check_and_record (guard_run t1 calls) now' nonce ts = (t2, true) →
  now < ts * MICROS ∧ now + _window t < now'.
Proof.
  intros [Hr Hw]%check_accepts Hc Ha.
  assert (Hlate : _window t < now' - now).
  { apply Z.nle_gt. intros Hle. assert (Hrec : on_record (guard_run t1 calls) (_window t) nonce now).
    { apply run_keeps_record; [done|]. eapply Forall_impl; [exact Hc|]. cbn. lia. }
    revert Ha. unfold check_and_record.
    destruct (String.eqb nonce "" || _); [done|]. cbn [_prune _seen]. rewrite (proj1 Hrec).
    rewrite (prune_get _ _ _ _ _ (proj2 Hrec) Hle), bool_decide_eq_true_2 by (by eexists). done. }
  apply check_accepts in Ha as [_ Ha]. rewrite run_window in Ha.
  assert (_window t1 = _window t) as Ht by exact (proj1 Hr). rewrite Ht in Ha. lia.
Qed.

(** A payload stamped in the future can be replayed: the guard forgets a nonce
    one window after it saw it, while the timestamp is still within the window. *)
Theorem future_stamp_replayed :
  let '(t1, first) := check_and_record new_nonce_tracker 0 "n" NONCE_WINDOW_S in
  let '(t2, at_once) := check_and_record t1 1 "n" NONCE_WINDOW_S in
  let '(_, later) := check_and_record t2 (NONCE_WINDOW_S * MICROS + 1) "n" NONCE_WINDOW_S in
  first = true ∧ at_once = false ∧ later = true.
Proof. vm_compute. auto. Qed.

(** * Bearer tokens *)

(** Only equal non-empty tokens match, and a missing token never does. *)
Lemma tokens_equal_spec presented expected :
  tokens_equal presented expected = true ↔
  ∃ b, token_bytes presented = Some b ∧ token_bytes expected = Some b ∧ b ≠ [].
Proof.
  unfold tokens_equal. destruct (token_bytes presented) as [[|x p]|], (token_bytes expected) as [[|y e]|];
    try (split; [done|intros (? & ? & ? & ?); congruence]).
  rewrite bool_decide_eq_true. split; [intros [= -> ->]; by eexists|]. intros (? & ? & ? & ?); congruence.
Qed.

(** * Witnesses *)

(** A toy key exchange (the concatenation of the two public keys in a fixed
    order) and cipher (the key and nonce as a tag). *)
Module toy_seal.

Definition pad32 (b : bytes) : bytes := take 32 (b ++ replicate 32 Byte.x00).

#[export] Instance toy_primitives : SealPrimitives := {|
  x25519_public sk := pad32 sk;
  x25519_exchange sk pk :=
    Ok (be_bytes 33 (from_bytes_be (pad32 sk) + from_bytes_be pk));
  hkdf info shared := info ++ shared;
  aes_encrypt k n m := be_bytes 4 (len (k ++ n)) ++ k ++ n ++ m;
  aes_decrypt k n c :=
    let tag := be_bytes 4 (len (k ++ n)) ++ k ++ n in
    if decide (take (length tag) c = tag) then Ok (drop (length tag) c) else Err InvalidTag;
|}.

#[export] Instance toy_seal_laws : SealLaws.
Proof.
  split.
  - intros sk. cbn. unfold pad32. rewrite length_take, length_app, length_replicate. lia.
  - intros a b. cbn [x25519_exchange x25519_public toy_primitives]. by rewrite Z.add_comm.
  - intros k n m. cbn [aes_decrypt aes_encrypt toy_primitives]. rewrite !app_assoc.
    rewrite take_app_length, decide_True by done. by rewrite drop_app_length.
Qed.

End toy_seal.

Module bootstrap_example.
Import toy_seal naming_account.
#[local] Existing Instance concrete_crypto.

Definition sk : bytes := be_bytes 32 11.
Definition eph : bytes := be_bytes 32 12.
Definition nonce : bytes := be_bytes 12 13.

(** The share 5 sealed to the key 11, and a box without the tag. *)
Lemma sealed_share_roundtrip_witness :
  ∃ sealed box, seal_share 5 (x25519_public sk) eph nonce = Ok sealed
    ∧ unseal_share (JStr sealed) sk = Ok (5 mod CURVE_ORDER)
    ∧ x25519_seal [] (x25519_public sk) eph nonce = Ok box
    ∧ unseal_share (JStr (b64encode box)) sk = Err ValueError.
Proof.
  destruct (sealed_share_roundtrip 5 sk eph nonce eq_refl) as (Hr & Ho & Ht).
  destruct (seal_share 5 (x25519_public sk) eph nonce) as [sealed|e]; [|discriminate Ho].
  destruct (x25519_seal [] (x25519_public sk) eph nonce) as [box|e] eqn:Eb; [|discriminate Eb].
  exists sealed, box. split; [reflexivity|]. split; [apply Hr; reflexivity|]. split; [reflexivity|].
  apply (Ht []); [|exact Eb]. intros [k Hk]. discriminate Hk.
Defined.

(** The signer of the secret 7 publishes the encryption key of 11. *)
Lemma enc_key_binding_witness :
  let s := mkSigner (be_bytes 32 7) in
  from_sk 7 = Ok s ∧ ∃ sig, sign_encryption_pubkey s (x25519_public sk) = Ok sig
    ∧ verify_encryption_pubkey (identity s) (hex (x25519_public sk)) (hex sig) = Ok (x25519_public sk).
Proof.
  intros s. assert (H7 : from_sk 7 = Ok s) by (vm_compute; reflexivity).
  split; [exact H7|].
  destruct (sign_encryption_pubkey s (x25519_public sk)) as [sig|e] eqn:E;
    [|exfalso; apply (f_equal is_ok) in E; vm_compute in E; discriminate].
  exists sig. split; [reflexivity|].
  apply (proj1 (enc_key_binding 7 s [] H7)); [reflexivity|exact E].
Defined.

(** A replay one microsecond after the window of a payload stamped 300s ahead. *)
Lemma replay_needs_future_stamp_witness : 0 < 300 * MICROS ∧ 0 + NONCE_WINDOW_S * MICROS < NONCE_WINDOW_S * MICROS + 1.
Proof.
  exact (replay_needs_future_stamp new_nonce_tracker 0 "n" 300 _ [] (NONCE_WINDOW_S * MICROS + 1) _
           eq_refl (Forall_nil_2 _) eq_refl).
Defined.

End bootstrap_example.
