(* ===== verification/Http.v ===== *)
(** What the HTTP services share: reading JSON bodies the way Python does, and
    replies. *)

From Stdlib Require Import Ascii.
From S2P Require Import Prelude Codecs Bootstrap.

(** * JSON access *)

(** [d[key]] *)
Definition getitem (d : json) (key : string) : result json :=
  match d with
  | JObj o => match dict_get o key with Some v => Ok v | None => Err KeyError end
  | _ => Err TypeError
  end.

(** [d.get(key)] *)
Definition json_get (d : json) (key : string) : result json :=
  match d with JObj _ => Ok (get_or d key JNull) | _ => Err AttributeError end.

(** [bytes.fromhex(v)] *)
Definition fromhex_json (v : json) : result bytes :=
  match v with JStr s => bytes_fromhex s | _ => Err TypeError end.

(** [iter(v)]: a text gives its characters, an object its keys. *)
Definition json_iter (v : json) : result (list json) :=
  match v with
  | JArr l => Ok l
  | JObj o => Ok (JStr <$> dict_keys o)
  | JStr s => Ok ((λ c, JStr (String c "")) <$> String.list_ascii_of_string s)
  | _ => Err TypeError
  end.

(** * Replies *)

Inductive reply := Reply (code : Z) (body : json).

(** The status of a request: Flask answers 500 to an exception it does not know. *)
Definition http_status (r : result reply) : Z :=
  match r with Ok (Reply code _) => code | Err (HTTPException code) => code | Err _ => 500 end.

(** [s.rstrip("/")] *)
Fixpoint rstrip_slash (s : string) : string :=
  match s with
  | EmptyString => ""
  | String c s' =>
      match rstrip_slash s' with
      | EmptyString => if Ascii.eqb c "/"%char then "" else String c ""
      | r => String c r
      end
  end.

(** [dict(v)] of an object. *)
Definition py_dict (v : json) : result (dict string json) :=
  match v with JObj o => Ok o | JArr [] => Ok [] | _ => Err TypeError end.
