(* ===== verification/KeyperServer.v ===== *)
(** The deployed keyper (services/keyper/keyper_server.py) with the state it
    keeps on disk (services/keyper/keyper_persistence.py).

    A request handler is a computation over the process, the messages it has
    posted to its peers and the data layer: it changes that state and returns a
    reply or raises.  Reads and writes go to one data layer (the deployment
    without a relay).  The clock readings, random draws and the outcomes of the
    posts are arguments. *)

From Stdlib Require Import Ascii.
From S2P Require Import Prelude Params Primality Field Points Transcript Elgamal Proofs Recovery Dkg Types Config Schnorr Ballot Admission Aggregation Codecs WriteAuth Quorum DataLayer DataLayerSafety Port Gateway Keyper Bootstrap Http.

(** [except (KeyError, ValueError, TypeError)] *)
Definition malformed (e : exn) : bool :=
  is_value_error e || match e with KeyError | TypeError => true | _ => false end.

(** [s.strip()], for the white space of [is_space]. *)
Fixpoint rstrip (s : string) : string :=
  match s with
  | EmptyString => ""
  | String c s' => if all_space s then "" else String c (rstrip s')
  end.
Definition strip (s : string) : string := rstrip (lstrip s).

(** [s.removeprefix(p)] *)
Definition removeprefix (s p : string) : string :=
  if String.prefix p s then String.substring (String.length p) (String.length s - String.length p) s else s.

(** [s.lower()] of ASCII text. *)
Fixpoint ascii_lower (s : string) : string :=
  match s with
  | EmptyString => ""
  | String c s =>
      let n := N_of_ascii c in
      String (if (65 <=? n)%N && (n <=? 90)%N then ascii_of_N (n + 32) else c) (ascii_lower s)
  end.

(** * services/keyper/keyper_persistence.py *)

Record DkgEntry := mkDkgEntry { entry_combined_share : Z; entry_expires_at : option Z }.

Definition entry_public_key_share `{Crypto} (e : DkgEntry) : pt G2ops := mul G2 (entry_combined_share e).

(** [hex(n)] *)
Fixpoint hex_digits (fuel : nat) (n : Z) : string :=
  match fuel with
  | O => ""
  | S fuel => (if n <? 16 then "" else hex_digits fuel (n / 16)) +:+ String (hex_char (n mod 16)) ""
  end.
Definition hex_int (n : Z) : string :=
  (if n <? 0 then "-0x" else "0x") +:+ hex_digits (S (Z.to_nat (Z.log2 (Z.abs n)))) (Z.abs n).

(** [int(s, 16)] of what [hex] writes: an optional sign, [0x] and digits. *)
Fixpoint parse_hex (acc : Z) (s : string) : option Z :=
  match s with
  | EmptyString => Some acc
  | String c s => match hex_value c with Some d => parse_hex (acc * 16 + d) s | None => None end
  end.
Definition parse_hex_digits (s : string) : option Z :=
  match without_0x s with EmptyString => None | s => parse_hex 0 s end.
Definition int_base16 (v : json) : result Z :=
  match v with
  | JStr s =>
      let r := match s with
               | String "-"%char s => Z.opp <$> parse_hex_digits s
               | String "+"%char s => parse_hex_digits s
               | _ => parse_hex_digits s
               end in
      match r with Some n => Ok n | None => Err ValueError end
  | _ => Err TypeError
  end.

Definition entry_row (e : DkgEntry) : json :=
  JObj (("share", JStr (hex_int (entry_combined_share e))) ::
        match entry_expires_at e with Some t => [("expires_at", JInt t)] | None => [] end).

(** [save_dkg_secrets]: the plaintext of [dkg_secrets.enc]. *)
Definition save_dkg_secrets (completed : dict string DkgEntry) : json :=
  JObj ((λ '(eid, e), (eid, entry_row e)) <$> completed).

(** The body of the loading loop. *)
Definition load_entry (raw : json) : result DkgEntry :=
  exp ← json_get raw "expires_at";
  v ← getitem raw "share";
  share ← int_base16 v;
  exp ← match exp with JNull => Ok None | v => n ← py_int v; Ok (Some n) end;
  Ok (mkDkgEntry share exp).

Fixpoint load_entries (rows : list (string * json)) (completed : dict string DkgEntry) : dict string DkgEntry :=
  match rows with
  | [] => completed
  | (eid, raw) :: rows =>
      match load_entry raw with
      | Ok e => load_entries rows (dict_set completed eid e)
      | Err _ => completed
      end
  end.

(** [load_dkg_secrets]: [None] when there is no file, or one that cannot be
    decrypted; a row that cannot be read ends the loading. *)
Definition load_dkg_secrets (file : option json) (completed : dict string DkgEntry) : dict string DkgEntry :=
  match file with Some (JObj rows) => load_entries rows completed | _ => completed end.

Definition expired (now : Z) (e : DkgEntry) : bool :=
  match entry_expires_at e with Some t => t <=? now | None => false end.

(** * The keyper process *)

Definition _DEFAULT_SECRET_RETENTION_S : Z := 90 * 24 * 3600.

Definition _parse_secret_ttl (raw : option string) : result (option Z) :=
  let value := strip (default "" raw) in
  if String.eqb (ascii_lower value) "never" then Ok None else
  n ← (if String.eqb value "" then Ok _DEFAULT_SECRET_RETENTION_S else py_int_of_str value);
  Ok (Some n).

(** An entry of [inbox]; [complained] is a set. *)
Record Inbox `{Crypto} := mkInbox {
  box_commitments : dict Z (list (pt G2ops));
  box_shares : dict Z Z;
  box_complained : list Z;
  box_share_sigs : dict Z string;
}.

Arguments Inbox {_}.
Arguments mkInbox {_} _ _ _ _.

Inductive aggregate_status := running | submitted.

(** What [build_keyper_app] closes over: [saved] is the file of the secrets, and
    [workers] the aggregation threads that have not finished. *)
Record KeyperServer `{Crypto} := mkKeyperServer {
  ks_signer : Signer;
  trusted_identities : list bytes;
  x25519_key : bytes;
  secret_ttl : option Z;
  completed : dict string DkgEntry;
  saved : option json;
  dkg_states : dict string KeyperDKGState;
  aggregate_state : dict string aggregate_status;
  workers : list (bytes * string);
  inbox : dict string Inbox;
  nonce_tracker : NonceTracker;
  api_token : option string;
  peer_token : option string;
  relay_token : option string;
  peers : dict string json;
  tokens_file : option json;
}.

Arguments KeyperServer {_}.
Arguments mkKeyperServer {_} _ _ _ _ _ _ _ _ _ _ _ _ _ _ _ _.

(** A request posted to a peer. *)
Record peer_post := mkPost { post_url : string; post_bearer : string; post_body : json }.

Record world `{Crypto} (store : Type) := mkWorld {
  server : KeyperServer;
  posts : list peer_post;
  layer : store;
}.
Arguments mkWorld {_ _} _ _ _.
Arguments server {_ _} _.
Arguments posts {_ _} _.
Arguments layer {_ _} _.

(** ** Handlers *)

Definition handler `{Crypto} (store : Type) (A : Type) : Type := world store → world store * result A.

#[global] Instance handler_ret `{Crypto} store : MRet (handler store) := λ A a w, (w, Ok a).
#[global] Instance handler_bind `{Crypto} store : MBind (handler store) := λ A B f m w,
  let '(w, r) := m w in match r with Ok a => f a w | Err e => (w, Err e) end.

Section monad.
Context `{Crypto} {store : Type}.

Definition lift {A} (r : result A) : handler store A := λ w, (w, r).
Definition throw {A} (e : exn) : handler store A := λ w, (w, Err e).
Definition the_server : handler store KeyperServer := λ w, (w, Ok (server w)).
Definition set_server (s : KeyperServer) : handler store unit :=
  λ w, (mkWorld s (posts w) (layer w), Ok tt).
Definition modify (f : KeyperServer → KeyperServer) : handler store unit :=
  λ w, (mkWorld (f (server w)) (posts w) (layer w), Ok tt).
Definition the_layer : handler store store := λ w, (w, Ok (layer w)).
Definition set_layer (l : store) : handler store unit := λ w, (mkWorld (server w) (posts w) l, Ok tt).

(** [try: m  except Exception as err: k(err)] where [m] leaves the state alone. *)
Definition attempt {A} (r : result A) : handler store (A + exn) :=
  λ w, (w, Ok match r with Ok a => inl a | Err e => inr e end).

(** [for x in l: f(x)] *)
Fixpoint forM {X} (l : list X) (f : X → handler store unit) : handler store unit :=
  match l with [] => mret tt | x :: l => _ ← f x; forM l f end.
End monad.

(** [abort(code)] *)
Definition abort `{Crypto} {store A} (code : Z) : handler store A := throw (HTTPException code).

Section updates.
Context `{Crypto}.

Definition with_inbox (s : KeyperServer) (i : dict string Inbox) : KeyperServer :=
  mkKeyperServer (ks_signer s) (trusted_identities s) (x25519_key s) (secret_ttl s) (completed s) (saved s)
    (dkg_states s) (aggregate_state s) (workers s) i (nonce_tracker s) (api_token s) (peer_token s)
    (relay_token s) (peers s) (tokens_file s).
Definition with_dkg_states (s : KeyperServer) (d : dict string KeyperDKGState) : KeyperServer :=
  mkKeyperServer (ks_signer s) (trusted_identities s) (x25519_key s) (secret_ttl s) (completed s) (saved s)
    d (aggregate_state s) (workers s) (inbox s) (nonce_tracker s) (api_token s) (peer_token s)
    (relay_token s) (peers s) (tokens_file s).
Definition with_completed (s : KeyperServer) (c : dict string DkgEntry) (f : option json) : KeyperServer :=
  mkKeyperServer (ks_signer s) (trusted_identities s) (x25519_key s) (secret_ttl s) c f
    (dkg_states s) (aggregate_state s) (workers s) (inbox s) (nonce_tracker s) (api_token s) (peer_token s)
    (relay_token s) (peers s) (tokens_file s).
Definition with_aggregate (s : KeyperServer) (a : dict string aggregate_status) (ws : list (bytes * string))
  : KeyperServer :=
  mkKeyperServer (ks_signer s) (trusted_identities s) (x25519_key s) (secret_ttl s) (completed s) (saved s)
    (dkg_states s) a ws (inbox s) (nonce_tracker s) (api_token s) (peer_token s) (relay_token s) (peers s) (tokens_file s).
Definition with_nonces (s : KeyperServer) (t : NonceTracker) : KeyperServer :=
  mkKeyperServer (ks_signer s) (trusted_identities s) (x25519_key s) (secret_ttl s) (completed s) (saved s)
    (dkg_states s) (aggregate_state s) (workers s) (inbox s) t (api_token s) (peer_token s)
    (relay_token s) (peers s) (tokens_file s).
Definition with_tokens (s : KeyperServer) (api peer relay : option string) (ps : dict string json) : KeyperServer :=
  mkKeyperServer (ks_signer s) (trusted_identities s) (x25519_key s) (secret_ttl s) (completed s) (saved s)
    (dkg_states s) (aggregate_state s) (workers s) (inbox s) (nonce_tracker s) api peer relay ps (tokens_file s).

Definition with_tokens_file (s : KeyperServer) (f : option json) : KeyperServer :=
  mkKeyperServer (ks_signer s) (trusted_identities s) (x25519_key s) (secret_ttl s) (completed s) (saved s)
    (dkg_states s) (aggregate_state s) (workers s) (inbox s) (nonce_tracker s) (api_token s) (peer_token s)
    (relay_token s) (peers s) f.

(** A stored token, and the stored peers. *)
Definition saved_token (f : option json) (key : string) : option string :=
  match f with Some v => match get_or v key JNull with JStr t => Some t | _ => None end | None => None end.
Definition saved_peers (f : option json) : dict string json :=
  match f with Some v => match get_or v "peers" (JObj []) with JObj o => o | _ => [] end | None => [] end.

(** [build_keyper_app], started from the secrets and the tokens on disk. *)
Definition new_server (signer : Signer) (trusted : list bytes) (x25519 : bytes) (ttl : option Z)
    (secrets tokens : option json) : KeyperServer :=
  mkKeyperServer signer trusted x25519 ttl (load_dkg_secrets secrets []) secrets [] [] [] [] new_nonce_tracker
    (saved_token tokens "api_token") (saved_token tokens "peer_token") (saved_token tokens "relay_token")
    (saved_peers tokens) tokens.

(** [save_bootstrap_tokens] of what is installed. *)
Definition opt_str (t : option string) : json := match t with Some t => JStr t | None => JNull end.
Definition save_bootstrap_tokens (s : KeyperServer) : json :=
  JObj [("api_token", opt_str (api_token s)); ("peer_token", opt_str (peer_token s));
        ("peers", JObj (peers s)); ("relay_token", opt_str (relay_token s))].

End updates.

(** * services/keyper/keyper_server.py *)

Section keyper_server.
Context `{Crypto} `{EthAccount} `{Abi} `{SealPrimitives}.
Context (float_repr : Z → Z → string) (py_repr : json → string).
Context {store : Type} `{DataLayer store}.
(** The reply to the last of the posts: [Ok] for a success status. *)
Context (net : list peer_post → result unit).

Abbreviation M := (handler store).

(** ** Helpers *)

Definition _is_benign_write_conflict (e : exn) : bool :=
  match e with ImmutabilityError => true | HTTPException code => code =? 409 | _ => false end.

Definition _eid (body : json) : result bytes :=
  v ← getitem body "electionId"; fromhex_json v.

Definition _config (eid : bytes) : M ElectionConfig :=
  l ← the_layer; rec ← lift (dl_get_election l eid); mret (rec_config rec).

(** The first 1-based position of the signer among the keypers. *)
Fixpoint index_of (identity : bytes) (i : Z) (ks : list KeyperIdentity) : option Z :=
  match ks with
  | [] => None
  | k :: ks => if decide (signing_key k = identity) then Some i else index_of identity (i + 1) ks
  end.
Definition my_index (s : KeyperServer) (c : ElectionConfig) : result Z :=
  match index_of (identity (ks_signer s)) 1 (keypers c) with Some i => Ok i | None => Err (HTTPException 403) end.
Definition _my_index (c : ElectionConfig) : M Z := s ← the_server; lift (my_index s c).

Definition _members_addr (c : ElectionConfig) (index : Z) : option bytes :=
  if (1 <=? index) && (index <=? len (keypers c)) then signing_key <$> keypers c !! Z.to_nat (index - 1) else None.

Definition empty_box : Inbox := mkInbox [] [] [] [].
Definition _inbox (eid_hex : string) : M Inbox :=
  s ← the_server;
  match dict_get (inbox s) eid_hex with
  | Some box => mret box
  | None => _ ← set_server (with_inbox s (dict_set (inbox s) eid_hex empty_box)); mret empty_box
  end.
Definition put_box (eid_hex : string) (box : Inbox) : M unit :=
  modify (λ s, with_inbox s (dict_set (inbox s) eid_hex box)).

Definition _peer (index : Z) : M json :=
  s ← the_server;
  match dict_get (peers s) (pretty index) with Some p => mret p | None => throw KeyError end.

(** [requests.post(...).raise_for_status()] *)
Definition send (post : peer_post) : M unit :=
  λ w, let ps := posts w ++ [post] in (mkWorld (server w) ps (layer w), net ps).

Definition _post_peer (index : Z) (path : string) (body : json) : M unit :=
  p ← _peer index;
  u ← lift (getitem p "url");
  u ← match u with JStr u => mret u | _ => throw AttributeError end;
  t ← lift (getitem p "token");
  send (mkPost (rstrip_slash u +:+ path) (py_str py_repr t) body).

(** [dkg_states[eid_hex]] *)
Definition dkg_state (eid_hex : string) : M KeyperDKGState :=
  s ← the_server;
  match dict_get (dkg_states s) eid_hex with Some st => mret st | None => throw KeyError end.
Definition put_dkg_state (eid_hex : string) (st : KeyperDKGState) : M unit :=
  modify (λ s, with_dkg_states s (dict_set (dkg_states s) eid_hex st)).

(** ** Authentication *)

Definition _OPEN : list string := ["/status"; "/health"; "/auth/bootstrap"].
Definition _PEER : list string := ["/dkg/receive_commitments"; "/dkg/receive_share"].

Definition token_of (t : option string) : token := match t with Some s => TStr s | None => TOther end.

Definition _require_bearer (s : KeyperServer) (path authorization : string) : result unit :=
  if bool_decide (path ∈ _OPEN) then Ok tt else
  _ ← raise_if (bool_decide (api_token s = None)) (HTTPException 503);
  let tok := strip (removeprefix authorization "Bearer ") in
  let expected := if bool_decide (path ∈ _PEER) then peer_token s else api_token s in
  raise_if (negb (tokens_equal (TStr tok) (token_of expected))) (HTTPException 401).

(** ** Bootstrap *)

(** [json.loads] *)
Context (json_loads : bytes → result json).

(** The key under which the tracker's dict keeps a nonce, one per value that
    Python compares equal; [None] when the value cannot be a key. *)
Definition nonce_key (v : json) : option string :=
  if negb (py_bool v) then Some "" else
  match v with
  | JStr s => Some ("s" +:+ s)
  | JInt n => Some ("n" +:+ pretty n)
  | JBool b => Some ("n" +:+ pretty (Z.b2z b))
  | JFloat m e => if (0 <=? e) || (m mod 2 ^ (- e) =? 0)
                  then Some ("n" +:+ pretty (if 0 <=? e then m * 2 ^ e else m / 2 ^ (- e)))
                  else Some ("f" +:+ float_repr m e)
  | JNull => Some ""
  | JArr _ | JObj _ => None
  end.

(** [nonce_tracker.check_and_record(nonce, timestamp)] *)
Definition check_nonce (now : Z) (nonce : json) (timestamp : Z) : M bool :=
  s ← the_server;
  match nonce_key nonce with
  | Some k =>
      let '(t, ok) := check_and_record (nonce_tracker s) now k timestamp in
      _ ← set_server (with_nonces s t); mret ok
  | None =>
      let t := _prune (nonce_tracker s) now in
      _ ← set_server (with_nonces s t);
      if _window t <? Z.abs (now - timestamp * MICROS) then mret false else throw TypeError
  end.

Definition bootstrap (now : Z) (body : json) : M reply :=
  s ← the_server;
  payload ← match (v ← getitem body "sealed"; sealed ← fromhex_json v;
                   text ← x25519_unseal sealed (x25519_key s); json_loads text) with
            | Ok p => mret p
            | Err _ => abort 400
            end;
  v ← lift (getitem body "signature");
  sig ← lift (fromhex_json v);
  if negb (verify_payload float_repr (trusted_identities s) payload sig) then abort 401 else
  nonce ← match payload with JObj _ => mret (get_or payload "nonce" (JStr "")) | _ => throw AttributeError end;
  ts ← lift (py_int (get_or payload "timestamp" (JInt 0)));
  fresh ← check_nonce now nonce ts;
  if negb (fresh : bool) then abort 401 else
  v ← lift (getitem payload "api_token");
  _ ← modify (λ s, with_tokens s (Some (py_str py_repr v)) (peer_token s) (relay_token s) (peers s));
  v ← lift (getitem payload "peer_token");
  _ ← modify (λ s, with_tokens s (api_token s) (Some (py_str py_repr v)) (relay_token s) (peers s));
  v ← lift (getitem payload "peers");
  ps ← lift (py_dict v);
  _ ← modify (λ s, with_tokens s (api_token s) (peer_token s) (relay_token s) ps);
  let relay := get_or payload "relay_token" JNull in
  _ ← (if py_bool relay
       then modify (λ s, with_tokens s (api_token s) (peer_token s) (Some (py_str py_repr relay)) (peers s))
       else mret tt);
  _ ← modify (λ s, with_tokens_file s (Some (save_bootstrap_tokens s)));
  mret (Reply 200 (JObj [("ok", JBool true)])).

(** ** The ceremony *)

Definition ok_reply : reply := Reply 200 (JObj [("ok", JBool true)]).

Definition handle_round1 (rng : nat → Z) (body : json) : M reply :=
  eid ← lift (_eid body);
  let eid_hex := hex eid in
  config ← _config eid;
  idx ← _my_index config;
  let '(st, (comms, shares)) := round1 init_state idx (thr_n (threshold config)) (quorum (threshold config)) rng in
  _ ← put_dkg_state eid_hex st;
  _ ← _inbox eid_hex;
  match dict_get (dkg_shares_for_others st) idx with
  | None => throw KeyError
  | Some own =>
      _ ← put_box eid_hex (mkInbox [(idx, comms)] [(idx, own)] [] []);
      mret (Reply 200 (JObj [("ok", JBool true); ("index", JInt idx)]))
  end.

(** The body of a commitments message. *)
Definition commitments_body (eid_hex : string) (idx : Z) (comms : list bytes) (sig : bytes) : json :=
  JObj [("electionId", JStr eid_hex); ("dealerIndex", JInt idx);
        ("commitments", JArr ((λ c, JStr (hex c)) <$> comms)); ("signature", JStr ("0x" +:+ hex sig))].

(** The peers of keyper [idx]. *)
Definition others (idx n : Z) : list Z := filter (λ i, i ≠ idx) (seqZ 1 n).

Definition handle_distribute_commitments (body : json) : M reply :=
  eid ← lift (_eid body);
  let eid_hex := hex eid in
  config ← _config eid;
  idx ← _my_index config;
  st ← dkg_state eid_hex;
  comms ← match dkg_commitments st with Some c => mret c | None => throw TypeError end;
  comms_c ← lift (mapM g2_to_compressed comms);
  s ← the_server;
  sig ← lift (d ← dkg_commitments_digest eid idx comms_c; sign_digest (private_key (ks_signer s)) d);
  _ ← forM (others idx (thr_n (threshold config)))
        (λ peer_index, _post_peer peer_index "/dkg/receive_commitments" (commitments_body eid_hex idx comms_c sig));
  mret ok_reply.

(** Whether a message's signature is the dealer's: [expected] is its member
    address, and a malformed signature counts as a wrong one. *)
Definition signed_by (expected : option bytes) (digest : result bytes) (sig : result bytes) : result bool :=
  match (sig ← sig;
         match expected with
         | None => Ok false
         | Some addr => d ← digest; r ← recover_digest d sig; Ok (bool_decide (r = addr))
         end) with
  | Ok b => Ok b
  | Err e => if malformed e then Ok false else Err e
  end.

(** [bytes.fromhex(str(v).removeprefix("0x"))] *)
Definition sig_bytes (v : json) : result bytes := bytes_fromhex (without_0x (py_str py_repr v)).

Definition handle_receive_commitments (body : json) : M reply :=
  v ← lift (getitem body "electionId");
  eid ← lift (fromhex_json v);
  let eid_hex := py_str py_repr v in
  v ← lift (getitem body "dealerIndex");
  dealer ← lift (py_int v);
  v ← lift (getitem body "commitments");
  items ← lift (json_iter v);
  incoming ← lift (mapM fromhex_json items);
  config ← _config eid;
  let dealer_addr := _members_addr config dealer in
  ok ← lift (signed_by dealer_addr (dkg_commitments_digest eid dealer incoming)
               (v ← getitem body "signature"; sig_bytes v));
  if negb (ok : bool) then abort 401 else
  if negb (len incoming =? quorum (threshold config)) then abort 400 else
  box ← _inbox eid_hex;
  match dict_get (box_commitments box) dealer with
  | Some comms =>
      stored ← lift (mapM g2_to_compressed comms);
      if bool_decide (stored = incoming) then mret ok_reply else abort 409
  | None =>
      comms ← lift (mapM g2_from_compressed incoming);
      _ ← put_box eid_hex (mkInbox (dict_set (box_commitments box) dealer comms) (box_shares box)
                             (box_complained box) (box_share_sigs box));
      mret ok_reply
  end.

(** The recipient's encryption key, verified against its member address. *)
Definition _verified_peer_enc_key (config : ElectionConfig) (recipient : Z) : M bytes :=
  peer ← _peer recipient;
  enc_hex ← lift (json_get peer "enc_pubkey");
  enc_sig ← lift (json_get peer "enc_pubkey_sig");
  match _members_addr config recipient with
  | None => abort 500
  | Some member =>
      if negb (py_bool enc_hex) || negb (py_bool enc_sig) then abort 500 else
      match enc_hex, enc_sig with
      | JStr h, JStr g =>
          match verify_encryption_pubkey member h g with Ok pub => mret pub | Err _ => abort 500 end
      | _, _ => abort 500
      end
  end.

Definition share_body (eid_hex : string) (idx recipient : Z) (sealed : string) (sig : bytes) : json :=
  JObj [("electionId", JStr eid_hex); ("dealerIndex", JInt idx); ("recipientIndex", JInt recipient);
        ("sealedShare", JStr sealed); ("signature", JStr ("0x" +:+ hex sig))].

(** [draw] is the ephemeral key and nonce of the seal. *)
Definition _seal_and_send_share (draw : bytes * bytes) (eid : bytes) (eid_hex : string) (idx recipient : Z)
    (st : KeyperDKGState) (enc_pub : bytes) : M unit :=
  share_val ← match dict_get (dkg_shares_for_others st) recipient with Some v => mret v | None => throw KeyError end;
  sealed ← lift (seal_share share_val enc_pub draw.1 draw.2);
  s ← the_server;
  sig ← lift (d ← dkg_share_digest eid idx recipient share_val; sign_digest (private_key (ks_signer s)) d);
  _post_peer recipient "/dkg/receive_share" (share_body eid_hex idx recipient sealed sig).

Definition handle_distribute_shares (draws : Z → bytes * bytes) (body : json) : M reply :=
  eid ← lift (_eid body);
  let eid_hex := hex eid in
  config ← _config eid;
  idx ← _my_index config;
  st ← dkg_state eid_hex;
  _ ← forM (others idx (thr_n (threshold config))) (λ recipient,
        enc_pub ← _verified_peer_enc_key config recipient;
        _seal_and_send_share (draws recipient) eid eid_hex idx recipient st enc_pub);
  mret ok_reply.

(** The fields of a share message with the unsealed scalar; what is malformed
    is a 400. *)
Definition read_share (x25519 : bytes) (body : json) : result (Z * Z * string * Z) :=
  match (v ← getitem body "dealerIndex"; dealer ← py_int v;
         v ← getitem body "recipientIndex"; recipient ← py_int v;
         v ← getitem body "signature";
         match body with
         | JObj o =>
             match dict_get o "sealedShare" with
             | None => Err (HTTPException 400)
             | Some sealed => share ← unseal_share sealed x25519; Ok (dealer, recipient, py_str py_repr v, share)
             end
         | _ => Err TypeError
         end) with
  | Ok r => Ok r
  | Err e => Err (if malformed e then HTTPException 400 else e)
  end.

(** Whether a share other than the stored one may replace it. *)
Definition repairs (box : Inbox) (dealer recipient share : Z) : bool :=
  bool_decide (dealer ∈ box_complained box) &&
  match dict_get (box_commitments box) dealer with
  | Some ((_ :: _) as comms) => verify_share comms recipient share
  | _ => false
  end.

Definition handle_receive_share (body : json) : M reply :=
  v ← lift (getitem body "electionId");
  eid ← lift (fromhex_json v);
  let eid_hex := py_str py_repr v in
  config ← _config eid;
  s ← the_server;
  '(dealer, recipient, sig_hex, share) ← lift (read_share (x25519_key s) body);
  me ← _my_index config;
  if negb (recipient =? me) then abort 400 else
  ok ← lift (signed_by (_members_addr config dealer) (dkg_share_digest eid dealer recipient share)
               (bytes_fromhex (without_0x sig_hex)));
  if negb (ok : bool) then abort 401 else
  box ← _inbox eid_hex;
  if match dict_get (box_shares box) dealer with
     | Some old => negb (old =? share) && negb (repairs box dealer recipient share)
     | None => false
     end then abort 409 else
  _ ← put_box eid_hex (mkInbox (box_commitments box) (dict_set (box_shares box) dealer share)
                         (box_complained box) (dict_set (box_share_sigs box) dealer sig_hex));
  mret ok_reply.

Definition accusation (s : KeyperServer) (eid : bytes) (my_idx bad_dealer : Z) : result json :=
  d ← dkg_accusation_digest eid bad_dealer my_idx;
  sig ← sign_digest (private_key (ks_signer s)) d;
  Ok (JObj [("electionId", JStr (hex eid)); ("accusedDealerIndex", JInt bad_dealer);
            ("recipientIndex", JInt my_idx); ("signature", JStr ("0x" +:+ hex sig))]).

Definition complaint_reply (bad : list Z) (accusations : list json) : reply :=
  Reply 200 (JObj [("verified", JBool false); ("complaints", JArr (JInt <$> bad)); ("accusations", JArr accusations)]).

Definition handle_round2 (body : json) : M reply :=
  eid ← lift (_eid body);
  let eid_hex := hex eid in
  config ← _config eid;
  st ← dkg_state eid_hex;
  box ← _inbox eid_hex;
  my_idx ← _my_index config;
  r ← attempt (round2 st (box_commitments box) (box_shares box));
  match r with
  | inr e =>
      if is_value_error e then
        let bad := match e with DealerFault ds => ds | _ => [] end in
        _ ← put_box eid_hex (mkInbox (box_commitments box) (box_shares box)
                               (box_complained box ++ bad) (box_share_sigs box));
        s ← the_server;
        accusations ← lift (mapM (accusation s eid my_idx) bad);
        mret (complaint_reply bad accusations)
      else throw e
  | inl (st', (combined, _)) =>
      _ ← put_dkg_state eid_hex st';
      _ ← modify (λ s,
        let entry := mkDkgEntry combined ((λ ttl, voting_end config + ttl) <$> secret_ttl s) in
        let c := dict_set (completed s) eid_hex entry in
        with_completed s c (Some (save_dkg_secrets c)));
      mret (Reply 200 (JObj [("verified", JBool true)]))
  end.

(** A gate either denies with a reason and a status, or passes. *)
Definition gate (A : Type) : Type := (string * Z) + A.

Definition read_accusation (acc : json) : gate (string * Z * Z * bytes) :=
  match acc with
  | JObj _ =>
      match (v ← getitem acc "electionId";
             w ← getitem acc "accusedDealerIndex"; accused ← py_int w;
             w ← getitem acc "recipientIndex"; recipient ← py_int w;
             g ← getitem acc "signature"; sig ← sig_bytes g;
             Ok (py_str py_repr v, accused, recipient, sig)) with
      | Ok r => inr r
      | Err _ => inl ("bad_accusation", 400)
      end
  | _ => inl ("missing_accusation", 400)
  end.

Definition _gate_accusation (s : KeyperServer) (l : store) (acc : json)
  : gate (bytes * string * ElectionConfig * Z * Z * KeyperDKGState) :=
  match read_accusation acc with
  | inl d => inl d
  | inr (acc_eid_hex, accused_dealer, recipient, acc_sig) =>
      match dict_get (dkg_states s) acc_eid_hex with
      | None => inl ("not_in_ceremony", 401)
      | Some st =>
          match (eid ← bytes_fromhex acc_eid_hex; rec ← dl_get_election l eid;
                 i ← my_index s (rec_config rec); Ok (eid, rec_config rec, i)) with
          | Err _ => inl ("not_committee_member", 401)
          | Ok (eid, config, my_idx) =>
              if negb (accused_dealer =? my_idx)
                 || bool_decide (dict_get (dkg_shares_for_others st) recipient = None)
              then inl ("wrong_dealer_or_recipient", 401) else
              match _members_addr config recipient,
                    (d ← dkg_accusation_digest eid accused_dealer recipient; recover_digest d acc_sig) with
              | Some expected, Ok recovered =>
                  if bool_decide (recovered = expected) then inr (eid, acc_eid_hex, config, my_idx, recipient, st)
                  else inl ("bad_accusation_signer", 401)
              | _, _ => inl ("bad_accusation_signer", 401)
              end
          end
      end
  end.

(** A missing body is [JNull]. *)
Definition handle_reveal_share (draw : bytes * bytes) (body : json) : M reply :=
  let body := if py_bool body then body else JObj [] in
  acc ← lift (json_get body "accusation");
  s ← the_server;
  l ← the_layer;
  match _gate_accusation s l acc with
  | inl (reason, status) =>
      mret (Reply status (JObj [("error", JStr (if status =? 401 then "unauthorized" else reason))]))
  | inr (eid, eid_hex, config, my_idx, recipient, st) =>
      enc_pub ← _verified_peer_enc_key config recipient;
      _ ← _seal_and_send_share draw eid eid_hex my_idx recipient st enc_pub;
      mret (Reply 200 (JObj [("ok", JBool true); ("dealerIndex", JInt my_idx); ("recipientIndex", JInt recipient)]))
  end.

Definition handle_publish (body : json) : M reply :=
  eid ← lift (_eid body);
  let eid_hex := hex eid in
  s ← the_server;
  if bool_decide (dict_get (completed s) eid_hex = None) then abort 409 else
  box ← _inbox eid_hex;
  config ← _config eid;
  let commitments := box_commitments box in
  let q := quorum (threshold config) in
  pk ← lift (derive_joint_mpk commitments q);
  committee ← lift (mapM (λ i, derive_mpk_share i commitments q) (sortedZ (dict_keys commitments)));
  pk_b ← lift (g2_to_compressed pk);
  committee_b ← lift (mapM g2_to_compressed committee);
  sig ← lift (sign_dkg_result (private_key (ks_signer s)) eid pk_b committee_b);
  l ← the_layer;
  l' ← lift (dl_submit_dkg_result l eid pk_b committee_b sig);
  _ ← set_layer l';
  s ← the_server;
  _ ← match dict_get (dkg_states s) eid_hex with
      | Some st => put_dkg_state eid_hex (zeroize_dealing st)
      | None => mret tt
      end;
  mret ok_reply.

(** ** Aggregation *)

(** [del d[k]] where [k] may be missing *)
Definition dict_pop {V} (d : dict string V) (k : string) : dict string V := filter (λ e, e.1 ≠ k) d.

Definition service (s : KeyperServer) (index : Z) : KeyperService := new_keyper index (ks_signer s).

(** The worker's run: [now] is the keyper's clock, [now'] the data layer's. *)
Definition worker_submit (k : KeyperService) (l : store) (now now' : Z) (eid : bytes) : result store :=
  '(artifact, sig) ← produce_aggregate k l now eid;
  match dl_submit_aggregate l now' eid artifact sig with
  | Ok l' => Ok l'
  | Err e => if _is_benign_write_conflict e then Ok l else Err e
  end.

(** The thread of the first worker for [eid_hex] runs to its end. *)
Fixpoint remove_worker (eid_hex : string) (ws : list (bytes * string)) : list (bytes * string) :=
  match ws with
  | [] => []
  | w :: ws => if String.eqb w.2 eid_hex then ws else w :: remove_worker eid_hex ws
  end.

Definition _run_aggregate (k : KeyperService) (now now' : Z) (eid : bytes) (eid_hex : string) : M unit :=
  l ← the_layer;
  r ← attempt (worker_submit k l now now' eid);
  match r with
  | inl l' =>
      _ ← set_layer l';
      modify (λ s, with_aggregate s (dict_set (aggregate_state s) eid_hex submitted)
                     (remove_worker eid_hex (workers s)))
  | inr _ =>
      modify (λ s, with_aggregate s (dict_pop (aggregate_state s) eid_hex) (remove_worker eid_hex (workers s)))
  end.

Definition status_reply (code : Z) (ok : bool) (status : string) : reply :=
  Reply code (JObj [("ok", JBool ok); ("status", JStr status)]).

(** The reason text of a refusal is not modelled. *)
Definition handle_aggregate (now : Z) (body : json) : M reply :=
  eid ← lift (_eid body);
  let eid_hex := hex eid in
  config ← _config eid;
  idx ← _my_index config;
  l ← the_layer;
  r ← attempt (check_can_aggregate l now eid);
  match r with
  | inr _ => mret (status_reply 409 false "refused")
  | inl _ =>
      let recompute := py_bool (get_or body "recompute" JNull) in
      s ← the_server;
      match dict_get (aggregate_state s) eid_hex, recompute with
      | Some submitted, false => mret (status_reply 200 true "submitted")
      | Some running, _ => mret (status_reply 202 true "in_progress")
      | _, _ =>
          _ ← set_server (with_aggregate s (dict_set (aggregate_state s) eid_hex running)
                            ((eid, eid_hex) :: workers s));
          mret (status_reply 202 true "started")
      end
  end.

(** ** Partial decryption *)

Definition completed_keyper (s : KeyperServer) (index : Z) (e : DkgEntry) : KeyperService :=
  let d := init_state in
  mkKeyperService index (ks_signer s)
    (mkKeyperDKGState (dkg_keyper_id d) (dkg_n d) (dkg_quorum d) (dkg_coefficients d) (dkg_commitments d)
       (dkg_shares_for_others d) (Some (entry_combined_share e)) (Some (entry_public_key_share e))).

Definition handle_publish_decr_share (now now' : Z) (rng : nat → Z) (body : json) : M reply :=
  eid ← lift (_eid body);
  let eid_hex := hex eid in
  s ← the_server;
  match dict_get (completed s) eid_hex with
  | None => abort 409
  | Some entry =>
      config ← _config eid;
      idx ← _my_index config;
      l ← the_layer;
      r ← attempt (produce_decryption_share (completed_keyper s idx entry) l now eid rng);
      match r with
      | inr _ => mret (Reply 409 (JObj [("ok", JBool false)]))
      | inl None => mret ok_reply
      | inl (Some (share, sig)) =>
          match dl_submit_decryption_share l now' eid share sig with
          | Ok l' => _ ← set_layer l'; mret ok_reply
          | Err e =>
              if _is_benign_write_conflict e
              then mret (Reply 200 (JObj [("ok", JBool true); ("note", JStr "decryption share already recorded")]))
              else throw e
          end
      end
  end.

(** ** The prune loop *)

Definition prune_expired (now : Z) : M (list string) :=
  s ← the_server;
  let gone := (filter (λ e, expired now e.2 = true) (completed s)).*1 in
  let c := filter (λ e, expired now e.2 = false) (completed s) in
  _ ← (if bool_decide (gone = []) then mret tt else set_server (with_completed s c (Some (save_dkg_secrets c))));
  mret gone.

End keyper_server.
