(* ===== verification/KeyperSafety.v ===== *)
(** What the keyper process guarantees: who it discloses shares to, which
    stored shares may change, that one aggregation runs at a time, that its
    secrets survive a restart, and what its publish guard does not cover. *)

From Stdlib Require Import Zmod Ascii.
From S2P Require Import Prelude Params Primality Field Points Transcript Elgamal Proofs Recovery Dkg Types Config Schnorr Ballot Admission Aggregation Codecs WriteAuth Quorum DataLayer DataLayerSafety Port Gateway Keyper Bootstrap Http KeyperServer.

(** * Reasoning about handlers *)

Section handler_lemmas.
Context `{Crypto} {store : Type}.
Implicit Types w : world store.

(** A sequence either stops with the first part's exception or goes on. *)
Lemma hbind_inv {A B} (m : handler store A) (f : A → handler store B) w w' r :
  (m ≫= f) w = (w', r) →
  (∃ w1 a, m w = (w1, Ok a) ∧ f a w1 = (w', r)) ∨ (∃ e, m w = (w', Err e) ∧ r = Err e).
Proof.
  unfold mbind, handler_bind. destruct (m w) as [w1 [a|e]]; intros Hm; [left; eauto|].
  right. exists e. by simplify_eq.
Qed.

Lemma hbind_Ok {A B} (m : handler store A) (f : A → handler store B) w w' b :
  (m ≫= f) w = (w', Ok b) → ∃ w1 a, m w = (w1, Ok a) ∧ f a w1 = (w', Ok b).
Proof. intros [Hm|(? & _ & ?)]%hbind_inv; done. Qed.

Lemma lift_inv {A} (x : result A) w w' r : lift x w = (w', r) → w' = w ∧ x = r.
Proof. by intros [= <- <-]. Qed.

Lemma abort_inv {A} code w w' (r : result A) : abort code w = (w', r) → w' = w ∧ r = Err (HTTPException code).
Proof. by intros [= <- <-]. Qed.

(** Whatever a handler computes, [P] still holds. *)
Definition keeps (P : world store → Prop) {A} (m : handler store A) : Prop := ∀ w, P w → P (m w).1.

Lemma keeps_bind P {A B} (m : handler store A) (f : A → handler store B) :
  keeps P m → (∀ a, keeps P (f a)) → keeps P (m ≫= f).
Proof.
  intros Hm Hf w Hw. specialize (Hm w Hw). unfold mbind, handler_bind.
  destruct (m w) as [w1 [a|e]]; [by apply Hf|done].
Qed.

Lemma keeps_ret P {A} (a : A) : keeps P (mret a).
Proof. by intros w. Qed.
Lemma keeps_lift P {A} (x : result A) : keeps P (lift x).
Proof. by intros w. Qed.
Lemma keeps_throw P {A} e : keeps P (throw (A := A) e).
Proof. by intros w. Qed.
Lemma keeps_abort P {A} e : keeps P (abort (A := A) e).
Proof. by intros w. Qed.
Lemma keeps_the_server P : keeps P the_server.
Proof. by intros w. Qed.
Lemma keeps_the_layer P : keeps P the_layer.
Proof. by intros w. Qed.
Lemma keeps_attempt P {A} (x : result A) : keeps P (attempt x).
Proof. by intros w. Qed.
Lemma keeps_forM P {X} (l : list X) f : (∀ x, keeps P (f x)) → keeps P (forM l f).
Proof.
  intros Hf. induction l as [|x l IH]; [apply keeps_ret|]. cbn. by apply keeps_bind.
Qed.
End handler_lemmas.

(** Walks a handler, splitting on what it branches on; [leaf] closes the state
    changes. *)
Ltac keeps_tac leaf :=
  repeat first
    [ done
    | leaf
    | apply keeps_bind; [|intros ?]
    | apply keeps_ret | apply keeps_lift | apply keeps_throw | apply keeps_abort
    | apply keeps_the_server | apply keeps_the_layer | apply keeps_attempt
    | apply keeps_forM; intros ?
    | case_match ].

(** * The secrets file *)

Lemma string_app_cons c (a b : string) : String c a +:+ b = String c (a +:+ b).
Proof. reflexivity. Qed.
Lemma string_app_nil (a : string) : "" +:+ a = a.
Proof. reflexivity. Qed.
Lemma string_app_assoc (a b c : string) : (a +:+ b) +:+ c = a +:+ (b +:+ c).
Proof. induction a as [|x a IH]; [done|]. by rewrite !string_app_cons, IH. Qed.
Lemma string_app_empty_r (a : string) : a +:+ "" = a.
Proof. induction a as [|x a IH]; [done|]. by rewrite !string_app_cons, IH. Qed.

Lemma hex_digits_parse fuel n acc t : 0 <= n < 16 ^ Z.of_nat fuel → acc = 0 →
  parse_hex acc (hex_digits fuel n +:+ t) = parse_hex n t.
Proof.
  intros Hn ->. revert n t Hn. induction fuel as [|fuel IH]; intros n t Hn.
  - cbn in Hn. assert (n = 0) as -> by lia. done.
  - cbn [hex_digits]. rewrite string_app_assoc. rewrite Nat2Z.inj_succ, Z.pow_succ_r in Hn by lia.
    assert (Hd : ∀ a, parse_hex a (String (hex_char (n mod 16)) t) = parse_hex (a * 16 + n mod 16) t).
    { intros a. cbn [parse_hex]. by rewrite (proj1 (hex_char_value (n mod 16) ltac:(apply Z.mod_pos_bound; lia))). }
    destruct (Z.ltb_spec n 16).
    + rewrite string_app_cons, !string_app_nil, Hd, Z.mod_small by lia. done.
    + rewrite IH by (Z.div_mod_to_equations; lia). rewrite string_app_cons, string_app_nil, Hd. f_equal.
      Z.div_mod_to_equations; lia.
Qed.

Lemma hex_digits_nonempty fuel n : ∃ c s, hex_digits (S fuel) n = String c s.
Proof.
  cbn [hex_digits]. destruct (if n <? 16 then _ else _) as [|c s]; rewrite ?string_app_cons, ?string_app_nil; eauto.
Qed.

Lemma parse_hex_abs n : 0 <= n →
  parse_hex_digits ("0x" +:+ hex_digits (S (Z.to_nat (Z.log2 n))) n) = Some n.
Proof.
  intros Hn. unfold parse_hex_digits. change (without_0x ("0x" +:+ ?s)) with s.
  destruct (hex_digits_nonempty (Z.to_nat (Z.log2 n)) n) as (c & s & E).
  pose proof (hex_digits_parse (S (Z.to_nat (Z.log2 n))) n 0 "") as Hp. rewrite string_app_empty_r in Hp.
  rewrite E in *. apply Hp; [|done]. split; [done|].
  pose proof (Z.log2_nonneg n). rewrite Nat2Z.inj_succ, Z2Nat.id by done.
  destruct (Z.eq_dec n 0) as [->|]; [done|]. pose proof (Z.log2_spec n ltac:(lia)) as [_ Hl].
  eapply Z.lt_le_trans; [exact Hl|]. apply Z.pow_le_mono_l. lia.
Qed.

Lemma parse_hex_0x s :
  match "0x" +:+ s with
  | String "-"%char s => Z.opp <$> parse_hex_digits s
  | String "+"%char s => parse_hex_digits s
  | _ => parse_hex_digits ("0x" +:+ s)
  end = parse_hex_digits ("0x" +:+ s).
Proof. reflexivity. Qed.

Lemma hex_int_roundtrip n : int_base16 (JStr (hex_int n)) = Ok n.
Proof.
  unfold int_base16, hex_int. destruct (Z.ltb_spec n 0).
  - change ("-0x" +:+ ?s) with (String "-"%char ("0x" +:+ s)). cbn iota.
    rewrite parse_hex_abs by lia. cbn. f_equal. lia.
  - rewrite Z.abs_eq, parse_hex_0x by done. by rewrite parse_hex_abs.
Qed.

Lemma load_entry_row e : load_entry (entry_row e) = Ok e.
Proof.
  destruct e as [share [t|]]; unfold load_entry, entry_row; cbn [entry_combined_share entry_expires_at].
  - change (json_get _ "expires_at") with (Ok (JInt t)). rewrite bind_Ok.
    change (getitem _ "share") with (Ok (JStr (hex_int share))). by rewrite bind_Ok, hex_int_roundtrip.
  - change (json_get _ "expires_at") with (Ok JNull). rewrite bind_Ok.
    change (getitem _ "share") with (Ok (JStr (hex_int share))). by rewrite bind_Ok, hex_int_roundtrip.
Qed.

Lemma load_entries_rows (c acc : dict string DkgEntry) : NoDup (dict_keys (acc ++ c)) →
  load_entries ((λ '(eid, e), (eid, entry_row e)) <$> c) acc = acc ++ c.
Proof.
  revert acc. induction c as [|[eid e] c IH]; intros acc Hnd; [by rewrite app_nil_r|].
  cbn [fmap list_fmap load_entries]. rewrite load_entry_row. rewrite dict_set_None.
  - by rewrite IH, <- app_assoc by (by rewrite <- app_assoc).
  - apply dict_get_None. unfold dict_keys in *. rewrite fmap_app in Hnd. apply NoDup_app in Hnd as (_ & Hd & _).
    intros Hin. apply (Hd _ Hin). left.
Qed.

Lemma load_save (c : dict string DkgEntry) : NoDup (dict_keys c) → load_dkg_secrets (Some (save_dkg_secrets c)) [] = c.
Proof. intros Hnd. by apply (load_entries_rows c []). Qed.

(** * Requests *)

(** Every way in which the process changes its state: the requests it serves,
    and its worker and prune threads. *)
Section requests.
Context `{Crypto} `{EthAccount} `{Abi} `{SealPrimitives}.
Context (float_repr : Z → Z → string) (py_repr : json → string).
Context {store : Type} `{DataLayer store}.
Context (json_loads : bytes → result json).

Inductive event :=
| EBootstrap (now : Z) (body : json)
| ERound1 (rng : nat → Z) (body : json)
| EDistributeCommitments (body : json)
| EReceiveCommitments (body : json)
| EDistributeShares (draws : Z → bytes * bytes) (body : json)
| EReceiveShare (body : json)
| ERound2 (body : json)
| ERevealShare (draw : bytes * bytes) (body : json)
| EPublish (body : json)
| EAggregate (now : Z) (body : json)
| EPublishDecrShare (now now' : Z) (rng : nat → Z) (body : json)
| EPrune (now : Z).

Definition serve (net : list peer_post → result unit) (e : event) : handler store unit :=
  match e with
  | EBootstrap now body => _ ← bootstrap float_repr py_repr json_loads now body; mret tt
  | ERound1 rng body => _ ← handle_round1 rng body; mret tt
  | EDistributeCommitments body => _ ← handle_distribute_commitments py_repr net body; mret tt
  | EReceiveCommitments body => _ ← handle_receive_commitments py_repr body; mret tt
  | EDistributeShares draws body => _ ← handle_distribute_shares py_repr net draws body; mret tt
  | EReceiveShare body => _ ← handle_receive_share py_repr body; mret tt
  | ERound2 body => _ ← handle_round2 body; mret tt
  | ERevealShare draw body => _ ← handle_reveal_share py_repr net draw body; mret tt
  | EPublish body => _ ← handle_publish body; mret tt
  | EAggregate now body => _ ← handle_aggregate now body; mret tt
  | EPublishDecrShare now now' rng body => _ ← handle_publish_decr_share now now' rng body; mret tt
  | EPrune now => _ ← prune_expired now; mret tt
  end.

(** ** What each request may change

    [P] is kept by a handler as soon as it is kept by the changes of the parts
    of the process the handler writes. *)

Section footprint.
Context (P : world store → Prop) (net : list peer_post → result unit).

Definition stable (f : KeyperServer → KeyperServer → Prop) : Prop :=
  ∀ w s', P w → f (server w) s' → P (mkWorld s' (posts w) (layer w)).

Definition writes_inbox s s' : Prop := ∃ i, s' = with_inbox s i.
Definition writes_dkg s s' : Prop := ∃ d, s' = with_dkg_states s d.
Definition writes_nonces s s' : Prop := ∃ t, s' = with_nonces s t.
Definition writes_tokens s s' : Prop := (∃ a p r ps, s' = with_tokens s a p r ps) ∨ ∃ f, s' = with_tokens_file s (Some f).

Lemma keeps_modify (R : KeyperServer → KeyperServer → Prop) g : stable R → (∀ s, R s (g s)) → keeps P (modify g).
Proof. intros HR Hg w Hw. apply HR; [done|apply Hg]. Qed.

Lemma keeps_put_box h b : stable writes_inbox → keeps P (put_box h b).
Proof. intros HR. apply (keeps_modify _ _ HR). intros s. by eexists. Qed.
Lemma keeps_put_dkg h st : stable writes_dkg → keeps P (put_dkg_state h st).
Proof. intros HR. apply (keeps_modify _ _ HR). intros s. by eexists. Qed.
Lemma keeps_inbox h : stable writes_inbox → keeps P (_inbox h).
Proof.
  intros HR w Hw. unfold _inbox, mbind, handler_bind, the_server. cbn beta iota zeta.
  destruct (dict_get (inbox (server w)) h); [done|]. apply HR; [done|]. by eexists.
Qed.
Lemma keeps_config eid : keeps P (_config eid).
Proof. unfold _config. keeps_tac fail. Qed.
Lemma keeps_my_index c : keeps P (_my_index c).
Proof. unfold _my_index. keeps_tac fail. Qed.
Lemma keeps_dkg_state h : keeps P (dkg_state h).
Proof. unfold dkg_state. keeps_tac fail. Qed.
Lemma keeps_peer i : keeps P (_peer i).
Proof. unfold _peer. keeps_tac fail. Qed.

(** Posts only. *)
Hypothesis P_posts : ∀ w ps, P w → P (mkWorld (server w) ps (layer w)).

Lemma keeps_post_peer i path body : keeps P (_post_peer py_repr net i path body).
Proof. unfold _post_peer. keeps_tac ltac:(first [apply keeps_peer|intros ? ?; by apply P_posts]). Qed.

Lemma keeps_enc_key c i : keeps P (_verified_peer_enc_key c i).
Proof. unfold _verified_peer_enc_key. keeps_tac ltac:(apply keeps_peer). Qed.

Ltac footprint_leaf :=
  first [ apply keeps_config | apply keeps_my_index | apply keeps_dkg_state | apply keeps_peer
        | apply keeps_post_peer | apply keeps_enc_key | (by apply keeps_inbox) | (by apply keeps_put_box)
        | (by apply keeps_put_dkg) ].

Lemma keeps_send_share draw eid h i j st pub : keeps P (_seal_and_send_share py_repr net draw eid h i j st pub).
Proof. unfold _seal_and_send_share. keeps_tac footprint_leaf. Qed.

Lemma keeps_distribute_commitments body : keeps P (handle_distribute_commitments py_repr net body).
Proof. unfold handle_distribute_commitments. keeps_tac footprint_leaf. Qed.
Lemma keeps_distribute_shares draws body : keeps P (handle_distribute_shares py_repr net draws body).
Proof. unfold handle_distribute_shares. keeps_tac ltac:(first [footprint_leaf|apply keeps_send_share]). Qed.
Lemma keeps_reveal_share draw body : keeps P (handle_reveal_share py_repr net draw body).
Proof. unfold handle_reveal_share. keeps_tac ltac:(first [footprint_leaf|apply keeps_send_share]). Qed.

Lemma keeps_round1 rng body : stable writes_inbox → stable writes_dkg → keeps P (handle_round1 rng body).
Proof. intros. unfold handle_round1. keeps_tac footprint_leaf. Qed.
Lemma keeps_receive_commitments body : stable writes_inbox → keeps P (handle_receive_commitments py_repr body).
Proof. intros. unfold handle_receive_commitments. keeps_tac footprint_leaf. Qed.
Lemma keeps_receive_share body : stable writes_inbox → keeps P (handle_receive_share py_repr body).
Proof. intros. unfold handle_receive_share. keeps_tac footprint_leaf. Qed.

Lemma keeps_check_nonce now n ts : stable writes_nonces → keeps P (check_nonce float_repr now n ts).
Proof.
  intros HR w Hw. unfold check_nonce, mbind, handler_bind, the_server. cbn beta iota zeta.
  destruct (nonce_key float_repr n); [|].
  - destruct (check_and_record _ _ _ _) as [t ok]. apply HR; [done|]. by eexists.
  - cbn. destruct (_ <? _); (apply HR; [done|]; by eexists).
Qed.

Lemma keeps_tokens g : stable writes_tokens →
  ((∀ s, ∃ a p r ps, g s = with_tokens s a p r ps) ∨ ∀ s, ∃ f, g s = with_tokens_file s (Some f)) → keeps P (modify g).
Proof.
  intros HR Hg. apply (keeps_modify _ _ HR). intros s. destruct Hg as [Hg|Hg]; [left|right]; apply Hg.
Qed.

Lemma keeps_bootstrap now body : stable writes_nonces → stable writes_tokens →
  keeps P (bootstrap float_repr py_repr json_loads now body).
Proof.
  intros HN HT. unfold bootstrap.
  keeps_tac ltac:(first [ (by apply keeps_check_nonce)
                        | (apply keeps_tokens; [done|first [left; intros s; by do 4 eexists|right; intros s; by eexists]]) ]).
Qed.

Hypothesis P_layer : ∀ w l, P w → P (mkWorld (server w) (posts w) l).

Lemma keeps_publish body : (∀ h, keeps P (_inbox h)) → stable writes_dkg → keeps P (handle_publish body).
Proof.
  intros HI HD. unfold handle_publish.
  keeps_tac ltac:(first [apply HI|footprint_leaf|intros ? ?; by apply P_layer]).
Qed.
Lemma keeps_publish_decr_share now now' rng body : keeps P (handle_publish_decr_share now now' rng body).
Proof.
  unfold handle_publish_decr_share. keeps_tac ltac:(first [footprint_leaf|intros ? ?; by apply P_layer]).
Qed.

Definition writes_completed s s' : Prop := ∃ c f, s' = with_completed s c (Some f).

Lemma keeps_round2 body : stable writes_inbox → stable writes_dkg → stable writes_completed →
  keeps P (handle_round2 body).
Proof.
  intros HI HD HC. unfold handle_round2.
  keeps_tac ltac:(first [footprint_leaf|(apply (keeps_modify _ _ HC); intros s; by do 2 eexists)]).
Qed.

Lemma keeps_prune now : stable writes_completed → keeps P (prune_expired now).
Proof.
  intros HC w Hw. unfold prune_expired, mbind, handler_bind, the_server. cbn beta iota zeta.
  case_bool_decide; [done|]. apply HC; [done|]. by do 2 eexists.
Qed.

End footprint.

(** The process and its surroundings: it serves a request, an aggregation
    thread that was started ends, or others change the data layer. *)
Inductive step : world store → world store → Prop :=
| step_serve net e w : step w (serve net e w).1
| step_worker w k now now' eid eid_hex : (eid, eid_hex) ∈ workers (server w) →
    step w (_run_aggregate k now now' eid eid_hex w).1
| step_layer w l : step w (mkWorld (server w) (posts w) l).

(** Properties of the process alone, kept by every change except those to its
    aggregation table, its inbox and its secrets. *)
Lemma keeps_ret_unit (P : world store → Prop) {A} (m : handler store A) : keeps P m → keeps P (_ ← m; mret tt).
Proof. intros. apply keeps_bind; [done|]. intros. apply keeps_ret. Qed.

Lemma serve_keeps (Q : KeyperServer → Prop) net e :
  (∀ s i, Q s → Q (with_inbox s i)) → (∀ s d, Q s → Q (with_dkg_states s d)) →
  (∀ s t, Q s → Q (with_nonces s t)) → (∀ s a p r ps, Q s → Q (with_tokens s a p r ps)) →
  (∀ s f, Q s → Q (with_tokens_file s (Some f))) →
  (∀ body, e = ERound2 body → keeps (λ w : world store, Q (server w)) (handle_round2 body)) →
  (∀ now, e = EPrune now → keeps (λ w : world store, Q (server w)) (prune_expired now)) →
  (∀ now body, e = EAggregate now body → keeps (λ w : world store, Q (server w)) (handle_aggregate now body)) →
  keeps (λ w : world store, Q (server w)) (serve net e).
Proof.
  intros HI HD HN HT HF Hr2 Hp Ha.
  assert (SI : stable (λ w : world store, Q (server w)) writes_inbox) by (intros w s' Hw [i ->]; by apply HI).
  assert (SD : stable (λ w : world store, Q (server w)) writes_dkg) by (intros w s' Hw [d ->]; by apply HD).
  assert (SN : stable (λ w : world store, Q (server w)) writes_nonces) by (intros w s' Hw [t ->]; by apply HN).
  assert (ST : stable (λ w : world store, Q (server w)) writes_tokens)
    by (intros w s' Hw [(a & p & r & ps & ->)|[f ->]]; [by apply HT|by apply HF]).
  destruct e; apply keeps_ret_unit.
  - by apply keeps_bootstrap.
  - by apply keeps_round1.
  - by apply keeps_distribute_commitments.
  - by apply keeps_receive_commitments.
  - by apply keeps_distribute_shares.
  - by apply keeps_receive_share.
  - by apply Hr2.
  - by apply keeps_reveal_share.
  - apply keeps_publish; [done|..|done]. intros h. by apply keeps_inbox.
  - by apply Ha.
  - by apply keeps_publish_decr_share.
  - by apply Hp.
Qed.

Lemma rtc_keeps (P : world store → Prop) w w' :
  (∀ w w', step w w' → P w → P w') → rtc step w w' → P w → P w'.
Proof. intros HP. induction 1; eauto. Qed.

(** ** One aggregation at a time *)

Definition single_flight (s : KeyperServer) : Prop := ∀ h,
  length (filter (λ wk, wk.2 = h) (workers s)) =
    match dict_get (aggregate_state s) h with Some running => 1%nat | _ => 0%nat end.

Lemma dict_get_pop {V} (d : dict string V) k h :
  dict_get (dict_pop d k) h = if decide (h = k) then None else dict_get d h.
Proof.
  unfold dict_pop. induction d as [|[k0 v] d IH]; [by case_decide|]. rewrite filter_cons. cbn [fst].
  destruct (decide (k0 ≠ k)) as [Hk|Hk]; cbn [dict_get].
  - rewrite IH. destruct (decide (h = k0)), (decide (h = k)); congruence.
  - rewrite IH. apply dec_stable in Hk. destruct (decide (h = k0)), (decide (h = k)); congruence.
Qed.

Lemma remove_worker_count (ws : list (bytes * string)) eid k h : (eid, k) ∈ ws →
  length (filter (λ wk, wk.2 = h) ws) =
    (length (filter (λ wk, wk.2 = h) (remove_worker k ws)) + if decide (h = k) then 1 else 0)%nat.
Proof.
  induction ws as [|[e0 k0] ws IH]; [by intros ?%not_elem_of_nil|]. intros Hin. cbn [remove_worker snd].
  destruct (String.eqb_spec k0 k) as [->|Hk].
  - rewrite filter_cons. cbn. repeat case_decide; subst; cbn; try done; lia.
  - assert (Hin' : (eid, k) ∈ ws) by (apply elem_of_cons in Hin as [|]; congruence).
    rewrite !filter_cons. cbn. specialize (IH Hin'). repeat case_decide; subst; cbn; try done; lia.
Qed.

Lemma single_flight_end s eid k a : single_flight s → (eid, k) ∈ workers s →
  (∀ h, dict_get a h = if decide (h = k) then dict_get a k else dict_get (aggregate_state s) h) →
  dict_get a k ≠ Some running →
  single_flight (with_aggregate s a (remove_worker k (workers s))).
Proof.
  intros Hs Hin Ha Hk h. specialize (Hs h). rewrite (remove_worker_count _ _ _ h Hin) in Hs.
  cbn [with_aggregate workers aggregate_state]. rewrite Ha. case_decide as E.
  - subst h. destruct (dict_get (aggregate_state s) k) as [[]|], (dict_get a k) as [[]|]; try done; lia.
  - lia.
Qed.

Lemma keeps_read (P : world store → Prop) {A} (f : KeyperServer → handler store A) :
  (∀ w, P w → P (f (server w) w).1) → keeps P (s ← the_server; f s).
Proof. intros Hf w Hw. by apply Hf. Qed.

Lemma aggregate_keeps_single_flight now body :
  keeps (λ w : world store, single_flight (server w)) (handle_aggregate now body).
Proof.
  unfold handle_aggregate. apply keeps_bind; [apply keeps_lift|intros eid].
  apply keeps_bind; [apply keeps_config|intros config]. apply keeps_bind; [apply keeps_my_index|intros idx].
  apply keeps_bind; [apply keeps_the_layer|intros l]. apply keeps_bind; [apply keeps_attempt|intros [rec|err]];
    [|apply keeps_ret].
  apply keeps_read. intros w Hw. pose proof (Hw (hex eid)) as Hc.
  assert (Hnew : dict_get (aggregate_state (server w)) (hex eid) ≠ Some running →
    single_flight (with_aggregate (server w) (dict_set (aggregate_state (server w)) (hex eid) running)
                     ((eid, hex eid) :: workers (server w)))).
  { intros Hn h. cbn [with_aggregate workers aggregate_state]. rewrite filter_cons, dict_get_set. cbn [snd].
    specialize (Hw h). repeat case_decide; subst; try done. cbn [length]. rewrite Hc. by repeat case_match. }
  destruct (dict_get _ _) as [[]|]; [done| |]; repeat case_match; try done; by apply Hnew.
Qed.

(** However requests, aggregation threads and other writers interleave, an
    election never has two aggregation threads in one keyper, and its table says
    [running] exactly while there is one. *)
Theorem aggregation_single_flight signer trusted x25519 ttl secrets tokens ps l w :
  rtc step (mkWorld (new_server signer trusted x25519 ttl secrets tokens) ps l) w →
  ∀ h, length (filter (λ wk, wk.2 = h) (workers (server w))) =
    match dict_get (aggregate_state (server w)) h with Some running => 1%nat | _ => 0%nat end.
Proof.
  intros Hr. refine (rtc_keeps (λ w, single_flight (server w)) _ _ _ Hr _); [|done].
  clear w Hr. intros w w' Hs Hw. destruct Hs as [net e w|w k now now' eid eid_hex Hin|w l'].
  - revert w Hw. apply (serve_keeps single_flight); try done.
    + intros body _. apply keeps_round2; intros w s' Hw.
      * by intros [? ->].
      * by intros [? ->].
      * by intros (? & ? & ->).
    + intros now _. apply keeps_prune. by intros w s' Hw (? & ? & ->).
    + intros now body _. apply aggregate_keeps_single_flight.
  - unfold _run_aggregate, mbind, handler_bind, the_layer, attempt. cbn beta iota zeta.
    destruct (worker_submit k (layer w) now now' eid) as [l'|err]; cbn.
    + eapply single_flight_end; [done..| |]; [intros h|]; rewrite ?dict_get_set; repeat case_decide; congruence.
    + eapply single_flight_end; [done..| |]; [intros h|]; rewrite ?dict_get_pop; repeat case_decide; congruence.
  - exact Hw.
Qed.

(** ** Secrets on disk *)

Lemma load_entries_NoDup rows c : NoDup (dict_keys c) → NoDup (dict_keys (load_entries rows c)).
Proof.
  revert c. induction rows as [|[eid raw] rows IH]; intros c Hc; [done|]. cbn [load_entries].
  destruct (load_entry raw); [|done]. by apply IH, dict_set_NoDup.
Qed.

Lemma load_NoDup file : NoDup (dict_keys (load_dkg_secrets file [])).
Proof. destruct file as [[]|]; try constructor. apply load_entries_NoDup. constructor. Qed.

Definition durable (s : KeyperServer) : Prop :=
  NoDup (dict_keys (completed s)) ∧ load_dkg_secrets (saved s) [] = completed s.

Lemma durable_save s c : NoDup (dict_keys c) → durable (with_completed s c (Some (save_dkg_secrets c))).
Proof. intros Hc. split; [done|]. by apply load_save. Qed.

Lemma filter_keys_NoDup {K V} (P : K * V → Prop) `{!∀ e, Decision (P e)} (d : dict K V) :
  NoDup (dict_keys d) → NoDup (dict_keys (filter P d)).
Proof.
  intros Hd. eapply sublist_NoDup; [exact Hd|]. apply fmap_sublist, sublist_filter.
Qed.

(** An aggregation request changes the table of aggregations only. *)
Lemma keeps_aggregate (Q : KeyperServer → Prop) now body : (∀ s a ws, Q s → Q (with_aggregate s a ws)) →
  keeps (λ w : world store, Q (server w)) (handle_aggregate now body).
Proof.
  intros HQ. unfold handle_aggregate.
  keeps_tac ltac:(first [ apply keeps_config | apply keeps_my_index
    | (apply keeps_read; intros w Hw; repeat case_match; first [exact Hw|by apply HQ]) ]).
Qed.

Lemma serve_durable net e : keeps (λ w : world store, durable (server w)) (serve net e).
Proof.
  apply (serve_keeps durable); try done.
  - intros body _. unfold handle_round2.
    keeps_tac ltac:(first [ apply keeps_config | apply keeps_dkg_state | apply keeps_my_index
      | (apply keeps_inbox; by intros w s' Hw [? ->]) | (apply keeps_put_box; by intros w s' Hw [? ->])
      | (apply keeps_put_dkg; by intros w s' Hw [? ->])
      | (intros w Hw; apply durable_save, dict_set_NoDup, Hw) ]).
  - intros now _ w Hw. unfold prune_expired, mbind, handler_bind, the_server. cbn beta iota zeta.
    case_bool_decide; [done|]. by apply durable_save, filter_keys_NoDup, Hw.
  - intros now body _. by apply keeps_aggregate.
Qed.

(** Whatever the process went through, a keyper restarted from its secrets
    file holds exactly the completed shares it held before, and those are keyed
    by election. *)
Theorem secrets_survive_restart signer trusted x25519 ttl secrets tokens ps l w tokens' :
  rtc step (mkWorld (new_server signer trusted x25519 ttl secrets tokens) ps l) w →
  completed (new_server signer trusted x25519 ttl (saved (server w)) tokens') = completed (server w)
  ∧ NoDup (dict_keys (completed (server w))).
Proof.
  intros Hr. enough (Hd : durable (server w)) by (split; apply Hd).
  refine (rtc_keeps (λ w, durable (server w)) _ _ _ Hr _); [|split; [apply load_NoDup|done]].
  clear. intros w w' Hs Hw. destruct Hs as [net e w|w k now now' eid eid_hex Hin|w l']; [|..|done].
  - by apply serve_durable.
  - unfold _run_aggregate, mbind, handler_bind, the_layer, attempt. cbn beta iota zeta.
    by destruct (worker_submit k (layer w) now now' eid).
Qed.

(** ** Stored shares *)

(** The share a keyper holds from a dealer in a ceremony. *)
Definition stored (w : world store) (h : string) (d : Z) : option Z :=
  box ← dict_get (inbox (server w)) h; dict_get (box_shares box) d.

Lemma config_run eid (w : world store) : _config eid w = (w, rec_config <$> dl_get_election (layer w) eid).
Proof. unfold _config, mbind, handler_bind, the_layer, lift. cbn. by destruct (dl_get_election _ _). Qed.

Lemma my_index_run c (w : world store) : _my_index c w = (w, my_index (server w) c).
Proof. reflexivity. Qed.

Lemma dkg_state_run h (w : world store) :
  dkg_state h w = (w, match dict_get (dkg_states (server w)) h with Some st => Ok st | None => Err KeyError end).
Proof. unfold dkg_state, mbind, handler_bind, the_server. cbn. by destruct (dict_get _ _). Qed.

Lemma inbox_run h (w : world store) : ∃ box w1, _inbox h w = (w1, Ok box)
  ∧ dict_get (inbox (server w1)) h = Some box ∧ (∀ h' d, stored w1 h' d = stored w h' d)
  ∧ box = default empty_box (dict_get (inbox (server w)) h) ∧ layer w1 = layer w ∧ ks_signer (server w1) = ks_signer (server w).
Proof.
  unfold _inbox, mbind, handler_bind, the_server. cbn beta iota zeta.
  destruct (dict_get (inbox (server w)) h) as [box|] eqn:E; [by exists box, w|].
  exists empty_box. eexists. split; [reflexivity|]. cbn. rewrite dict_get_set, decide_True by done.
  split_and!; try done. intros h' d. unfold stored. cbn. rewrite dict_get_set.
  case_decide; [subst; by rewrite E|done].
Qed.

(** Storing a box that differs from the one in place only at one dealer's share. *)
Lemma put_box_stored h box d x (w w1 : world store) comms compl sigs : dict_get (inbox (server w1)) h = Some box →
  (∀ h' d', stored w1 h' d' = stored w h' d') → ∀ h' d',
  stored (put_box h (mkInbox comms (dict_set (box_shares box) d x) compl sigs) w1).1 h' d' =
    if decide (h' = h ∧ d' = d) then Some x else stored w h' d'.
Proof.
  intros Hb Hs h' d'. unfold stored at 1. cbn. rewrite dict_get_set.
  destruct (decide (h' = h)) as [->|Hh].
  - cbn. rewrite dict_get_set. destruct (decide (d' = d)) as [->|Hd]; [by rewrite decide_True|].
    rewrite decide_False by (by intros [_ ?]). rewrite <- Hs. unfold stored. by rewrite Hb.
  - rewrite decide_False by (by intros [? _]). apply Hs.
Qed.

Lemma put_box_same h box (w w1 : world store) comms compl sigs : dict_get (inbox (server w1)) h = Some box →
  (∀ h' d', stored w1 h' d' = stored w h' d') → ∀ h' d',
  stored (put_box h (mkInbox comms (box_shares box) compl sigs) w1).1 h' d' = stored w h' d'.
Proof.
  intros Hb Hs h' d'. unfold stored at 1. cbn. rewrite dict_get_set.
  case_decide as Hh; [|apply Hs]. subst. cbn. rewrite <- Hs. unfold stored. by rewrite Hb.
Qed.

End requests.

(** Splits a run of a sequence into the run of its first step, whose result is
    [x], and the rest; the case where the first step raises comes second. *)
Tactic Notation "hstep" hyp(H) "as" simple_intropattern(w1) simple_intropattern(x) simple_intropattern(Hx) :=
  apply hbind_inv in H as [(w1 & x & Hx & H)|(? & Hx & ->)].

Section stored_shares.
Context `{Crypto} `{EthAccount} `{Abi} `{SealPrimitives}.
Context (float_repr : Z → Z → string) (py_repr : json → string).
Context {store : Type} `{DataLayer store}.
Context (json_loads : bytes → result json).

Lemma signed_by_true expected digest sig : signed_by expected digest sig = Ok true →
  ∃ addr d sg, expected = Some addr ∧ digest = Ok d ∧ sig = Ok sg ∧ recover_digest d sg = Ok addr.
Proof.
  unfold signed_by. destruct sig as [sg|e]; cbn; [|by destruct (malformed e)].
  destruct expected as [addr|]; [|done]. destruct digest as [d|e]; cbn; [|by destruct (malformed e)].
  destruct (recover_digest d sg) as [a|e] eqn:Er; cbn; [|by destruct (malformed e)].
  intros [= ->%bool_decide_eq_true]. by exists addr, d, sg.
Qed.

(** A share message was accepted: it is for this keyper, its dealer's member
    address signed the scalar, and if it replaces another share of that dealer
    then this keyper had complained and the new share passes the Feldman check. *)
Definition accepted_share (w : world store) (body : json) (h : string) (dealer share : Z) : Prop :=
  ∃ eid rec me addr sig digest,
    getitem body "electionId" = Ok (JStr h) ∧ bytes_fromhex h = Ok eid ∧ dl_get_election (layer w) eid = Ok rec
    ∧ my_index (server w) (rec_config rec) = Ok me ∧ _members_addr (rec_config rec) dealer = Some addr
    ∧ dkg_share_digest eid dealer me share = Ok digest ∧ recover_digest digest sig = Ok addr
    ∧ ∀ old, stored w h dealer = Some old → old ≠ share →
        ∃ box comms, dict_get (inbox (server w)) h = Some box ∧ dealer ∈ box_complained box
          ∧ dict_get (box_commitments box) dealer = Some comms ∧ verify_share comms me share = true.

Lemma receive_share_spec body (w w' : world store) r : handle_receive_share py_repr body w = (w', r) →
  (∀ h d, stored w' h d = stored w h d) ∨
  ∃ h dealer share, accepted_share w body h dealer share
    ∧ ∀ h' d', stored w' h' d' = if decide (h' = h ∧ d' = dealer) then Some share else stored w h' d'.
Proof.
  unfold handle_receive_share. intros Hr.
  hstep Hr as w1 v Hv; [|apply lift_inv in Hv as [-> _]; by left]. apply lift_inv in Hv as [-> Hv].
  hstep Hr as w1 eid He; [|apply lift_inv in He as [-> _]; by left]. apply lift_inv in He as [-> He].
  hstep Hr as w1 config Hc; rewrite config_run in Hc; [|simplify_eq; by left].
  injection Hc as <- Hc. destruct (dl_get_election (layer w) eid) as [rec|] eqn:Erec; [|done].
  injection Hc as <-.
  hstep Hr as w1 s Hs; [|done]. injection Hs as <- <-.
  hstep Hr as w1 x Hx; [|apply lift_inv in Hx as [-> _]; by left]. apply lift_inv in Hx as [-> Hx].
  destruct x as [[[dealer recipient] sig_hex] share].
  hstep Hr as w1 me Hme; rewrite my_index_run in Hme; [|simplify_eq; by left]. injection Hme as <- Hme.
  destruct (Z.eqb_spec recipient me) as [->|]; cbn [negb] in Hr; [|apply abort_inv in Hr as [-> _]; by left].
  hstep Hr as w1 ok Hok; [|apply lift_inv in Hok as [-> _]; by left]. apply lift_inv in Hok as [-> Hok].
  destruct ok; cbn [negb] in Hr; [|apply abort_inv in Hr as [-> _]; by left].
  destruct (inbox_run (py_str py_repr v) w) as (box & w1 & Eb & Hb & Hst & Hd & _ & _).
  hstep Hr as w2 b Hb'; rewrite Eb in Hb'; [|done]. injection Hb' as <- <-.
  destruct (match dict_get (box_shares box) dealer with Some _ => _ | None => _ end) eqn:Eold.
  { apply abort_inv in Hr as [-> _]. by left. }
  hstep Hr as w2 u Hu; [|done]. injection Hr as <- _.
  right. exists (py_str py_repr v), dealer, share. split.
  - destruct v as [| | | |h| |]; try done.
    apply signed_by_true in Hok as (addr & digest & sig & Ha & Hdg & _ & Hrec).
    exists eid, rec, me, addr, sig, digest. split_and!; try done. intros old Hold Hne.
    change (py_str py_repr (JStr h)) with h in *.
    unfold stored in Hold. destruct (dict_get (inbox (server w)) h) as [box0|] eqn:E0; [|done].
    cbn in Hd, Hold. subst box0. rewrite Hold in Eold. apply andb_false_iff in Eold as [Eold|Eold].
    { apply negb_false_iff, Z.eqb_eq in Eold. congruence. }
    apply negb_false_iff, andb_true_iff in Eold as [Hcm%bool_decide_eq_true Hv'].
    destruct (dict_get (box_commitments box) dealer) as [[|c cs]|] eqn:Ec; try done. by exists box, (c :: cs).
  - intros h' d'. rewrite <- (put_box_stored _ _ _ _ _ _ (box_commitments box) (box_complained box)
      (dict_set (box_share_sigs box) dealer sig_hex) Hb Hst). by rewrite Hu.
Qed.

Lemma receive_commitments_stored body (w : world store) h d :
  stored (handle_receive_commitments py_repr body w).1 h d = stored w h d.
Proof.
  destruct (handle_receive_commitments py_repr body w) as [w' r] eqn:Hr. cbn [fst].
  unfold handle_receive_commitments in Hr.
  do 3 (hstep Hr as w1 ? Hx; apply lift_inv in Hx as [-> _]; [|done]).
  hstep Hr as w1 dealer Hx; apply lift_inv in Hx as [-> _]; [|done].
  do 3 (hstep Hr as w1 ? Hx; apply lift_inv in Hx as [-> _]; [|done]).
  hstep Hr as w1 config Hc; rewrite config_run in Hc; [|by simplify_eq]. injection Hc as <- _.
  hstep Hr as w1 ok Hok; apply lift_inv in Hok as [-> _]; [|done].
  destruct ok; cbn [negb] in Hr; [|by apply abort_inv in Hr as [-> _]].
  destruct (_ =? _); cbn [negb] in Hr; [|by apply abort_inv in Hr as [-> _]].
  match type of Hr with (_inbox ?hh ≫= _) _ = _ => destruct (inbox_run hh w) as (box & w1 & Eb & Hb & Hst & _) end.
  hstep Hr as w2 b Hb'; rewrite Eb in Hb'; [|done]. injection Hb' as <- <-.
  destruct (dict_get (box_commitments box) _).
  - hstep Hr as w2 cs Hcs; apply lift_inv in Hcs as [-> _]; [|by apply Hst].
    case_bool_decide; [|apply abort_inv in Hr as [-> _]; apply Hst]. injection Hr as <- _. apply Hst.
  - hstep Hr as w2 cs Hcs; apply lift_inv in Hcs as [-> _]; [|by apply Hst].
    hstep Hr as w2 u Hu; [|done]. injection Hr as <- _.
    rewrite <- (put_box_same _ _ _ _ (dict_set (box_commitments box) dealer cs) (box_complained box)
      (box_share_sigs box) Hb Hst). by rewrite Hu.
Qed.

Lemma round2_stored body (w : world store) h d : stored (handle_round2 body w).1 h d = stored w h d.
Proof.
  destruct (handle_round2 body w) as [w' r] eqn:Hr. cbn [fst]. unfold handle_round2 in Hr.
  hstep Hr as w1 eid Hx; apply lift_inv in Hx as [-> _]; [|done].
  hstep Hr as w1 config Hc; rewrite config_run in Hc; [|by simplify_eq]. injection Hc as <- _.
  hstep Hr as w1 st Hst; rewrite dkg_state_run in Hst; [|by simplify_eq]. injection Hst as <- _.
  destruct (inbox_run (hex eid) w) as (box & w1 & Eb & Hb & Hs & _).
  hstep Hr as w2 b Hb'; rewrite Eb in Hb'; [|done]. injection Hb' as <- <-.
  hstep Hr as w2 me Hme; rewrite my_index_run in Hme; [|simplify_eq; apply Hs]. injection Hme as <- _.
  hstep Hr as w2 x Hx; [|done]. injection Hx as <- <-.
  destruct (round2 _ _ _) as [[st' [combined pks]]|err].
  - hstep Hr as w2 u Hu; [|done]. injection Hu as <-. hstep Hr as w2 u' Hu; [|done].
    injection Hu as <-. injection Hr as <- _. apply Hs.
  - destruct (is_value_error err); [|injection Hr as <- _; apply Hs].
    hstep Hr as w2 u' Hu; [|done]. hstep Hr as w3 s Hs'; [|done]. injection Hs' as <- <-.
    rewrite <- (put_box_same _ _ _ _ (box_commitments box) (box_complained box ++
      match err with DealerFault ds => ds | _ => [] end) (box_share_sigs box) Hb Hs). rewrite Hu. cbn [fst].
    hstep Hr as w3 acc Ha; apply lift_inv in Ha as [-> _]; [|done]. by injection Hr as <- _.
Qed.

Lemma round1_stored rng body (w : world store) h d :
  stored (handle_round1 rng body w).1 h d = stored w h d ∨ ∃ eid, _eid body = Ok eid ∧ h = hex eid.
Proof.
  destruct (handle_round1 rng body w) as [w' r] eqn:Hr. cbn [fst]. unfold handle_round1 in Hr.
  hstep Hr as w1 eid Hx; apply lift_inv in Hx as [-> Hx]; [|by left].
  destruct (decide (h = hex eid)) as [->|Hh]; [right; by exists eid|]. left.
  hstep Hr as w1 config Hc; rewrite config_run in Hc; [|by simplify_eq]. injection Hc as <- _.
  hstep Hr as w1 idx Hi; rewrite my_index_run in Hi; [|by simplify_eq]. injection Hi as <- _.
  destruct (round1 _ _ _ _ _) as [st [comms shares]].
  hstep Hr as w1 u Hu; [|done]. destruct (inbox_run (hex eid) w1) as (box & w2 & Eb & _ & Hst & _).
  assert (Hw1 : stored w1 h d = stored w h d) by (by injection Hu as <-).
  hstep Hr as w3 b Hb'; rewrite Eb in Hb'; [|done]. injection Hb' as <- _.
  destruct (dict_get _ idx); [|injection Hr as <- _; by rewrite Hst].
  hstep Hr as w3 u2 Hu2; [|done]. injection Hr as <- _. injection Hu2 as <-.
  unfold stored at 1. cbn. rewrite dict_get_set, decide_False by done. rewrite <- Hw1. apply Hst.
Qed.

(** C21: A share a keyper holds from a dealer changes only when the keyper starts
    the ceremony afresh, or on a share message that the dealer's member address
    signed for this election and this keyper; and such a message replaces an
    earlier share only after this keyper complained about that dealer, and only
    by a share that passes the Feldman check against the stored commitments. *)
Theorem stored_share_changes net e (w w' : world store) r h d :
  serve float_repr py_repr json_loads net e w = (w', r) →
  stored w' h d = stored w h d
  ∨ (∃ rng body eid, e = ERound1 rng body ∧ _eid body = Ok eid ∧ h = hex eid)
  ∨ (∃ body share, e = EReceiveShare body ∧ accepted_share w body h d share ∧ stored w' h d = Some share).
Proof.
  intros He. assert (Hk : ∀ (m : handler store unit) , keeps (λ w0, stored w0 h d = stored w h d) m →
    m w = (w', r) → stored w' h d = stored w h d).
  { intros m Hm Hw. specialize (Hm w eq_refl). by rewrite Hw in Hm. }
  assert (Hfr : ∀ A (m : handler store A), stored (m w).1 h d = stored w h d → (_ ← m; mret tt) w = (w', r) →
    stored w' h d = stored w h d).
  { intros A m Hm Hw. unfold mbind, handler_bind in Hw. destruct (m w) as [w1 [a|err]]; by injection Hw as <- _. }
  destruct e; cbn [serve] in He.
  - left. revert He. apply Hk, keeps_ret_unit, keeps_bootstrap; [intros w0 s' Hw0 [? ->]; exact Hw0|].
    by intros w0 s' Hw0 [(? & ? & ? & ? & ->)|[? ->]].
  - destruct (round1_stored rng body w h d) as [Hr1|Hr1]; [left; revert He; by apply Hfr|].
    destruct Hr1 as (eid & Heid & ->). right. left. by exists rng, body, eid.
  - left. revert He. by apply Hk, keeps_ret_unit, keeps_distribute_commitments.
  - left. revert He. apply Hfr, receive_commitments_stored.
  - left. revert He. by apply Hk, keeps_ret_unit, keeps_distribute_shares.
  - destruct (handle_receive_share py_repr body w) as [w1 r1] eqn:Er.
    assert (w1 = w') as ->.
    { unfold mbind, handler_bind in He. rewrite Er in He. destruct r1; by injection He. }
    apply receive_share_spec in Er as [Er|(h0 & d0 & share & Ha & Hs)]; [by left|].
    rewrite Hs. case_decide as E; [|by left]. destruct E as [-> ->]. right. right. by exists body, share.
  - left. revert He. apply Hfr, round2_stored.
  - left. revert He. by apply Hk, keeps_ret_unit, keeps_reveal_share.
  - left. revert He. apply Hk, keeps_ret_unit, keeps_publish; [done| |by intros w0 s' Hw0 [? ->]].
    intros h' w0 Hw0. destruct (inbox_run h' w0) as (box & w1 & Eb & _ & Hst & _). rewrite Eb. cbn. by rewrite Hst.
  - left. revert He. apply Hk, keeps_ret_unit. unfold handle_aggregate.
    keeps_tac ltac:(first [ apply keeps_config | apply keeps_my_index
      | (apply keeps_read; intros w0 Hw0; repeat case_match; exact Hw0) ]).
  - left. revert He. by apply Hk, keeps_ret_unit, keeps_publish_decr_share.
  - left. revert He. apply Hk, keeps_ret_unit, keeps_prune. by intros w0 s' Hw0 (? & ? & ->).
Qed.

(** ** Disclosures *)

Lemma gate_passes (w : world store) acc eid h config me recipient st :
  _gate_accusation py_repr (server w) (layer w) acc = inr (eid, h, config, me, recipient, st) →
  ∃ rec member sig dg, read_accusation py_repr acc = inr (h, me, recipient, sig) ∧ bytes_fromhex h = Ok eid
    ∧ dl_get_election (layer w) eid = Ok rec ∧ config = rec_config rec
    ∧ my_index (server w) config = Ok me ∧ _members_addr config recipient = Some member
    ∧ dkg_accusation_digest eid me recipient = Ok dg ∧ recover_digest dg sig = Ok member
    ∧ dict_get (dkg_states (server w)) h = Some st.
Proof.
  unfold _gate_accusation. destruct (read_accusation py_repr acc) as [|[[[h' accused] rcp] sig]]; [done|].
  destruct (dict_get (dkg_states (server w)) h') as [st'|] eqn:Est; [|done].
  destruct (eid ← bytes_fromhex h'; _) as [[[eid' config'] me']|] eqn:Er; [|done].
  apply bind_Ok_inv in Er as (e1 & Hhex & Er). apply bind_Ok_inv in Er as (rec & Hrec & Er).
  apply bind_Ok_inv in Er as (i & Hi & [= -> <- ->]).
  destruct (Z.eqb_spec accused me') as [->|]; [|done]. cbn [negb orb].
  case_bool_decide; [done|]. destruct (_members_addr (rec_config rec) rcp) as [member|] eqn:Em; [|done].
  destruct (dkg_accusation_digest eid' me' rcp) as [dg|] eqn:Ed; [|done]. cbn [mbind result_bind].
  destruct (recover_digest dg sig) as [r|] eqn:Er; [|done]. case_bool_decide; [subst|done].
  intros [= -> -> <- -> -> ->]. by exists rec, member, sig, dg.
Qed.

Lemma gate_denies (w : world store) acc reason status :
  _gate_accusation py_repr (server w) (layer w) acc = inl (reason, status) → status = 400 ∨ status = 401.
Proof.
  unfold _gate_accusation, read_accusation. intros Hg.
  repeat (case_match; simplify_eq; try (by left); try (by right)).
Qed.

Lemma enc_key_run config i (w w' : world store) r : _verified_peer_enc_key config i w = (w', r) →
  w' = w ∧ ∀ pub, r = Ok pub → ∃ member sig, _members_addr config i = Some member
    ∧ recover_message (enc_pubkey_hash pub) sig = Ok member.
Proof.
  intros Hr. split.
  { pose proof (keeps_enc_key (λ w0, w0 = w) config i w eq_refl) as Hk. by rewrite Hr in Hk. }
  intros pub Hpub. subst r. unfold _verified_peer_enc_key in Hr.
  apply hbind_Ok in Hr as (w1 & peer & _ & Hr). apply hbind_Ok in Hr as (w2 & eh & _ & Hr).
  apply hbind_Ok in Hr as (w3 & es & _ & Hr). destruct (_members_addr config i) as [member|]; [|done]. destruct (_ || _); [done|].
  destruct eh; try done. destruct es; try done.
  destruct (verify_encryption_pubkey member _ _) as [pub'|] eqn:Ev; [|done]. injection Hr as _ <-.
  apply verify_enc_recovers in Ev as [_ [sig Hsig]]. by exists member, sig.
Qed.

(** The run of a post: the message is recorded, and nothing else changes. *)
Lemma post_peer_run net i path body (w w' : world store) r : _post_peer py_repr net i path body w = (w', r) →
  server w' = server w ∧ layer w' = layer w
  ∧ (w' = w ∧ (∀ u, r ≠ Ok u) ∨ ∃ peer url bearer, dict_get (peers (server w)) (pretty i) = Some peer
       ∧ getitem peer "url" = Ok (JStr url) ∧ posts w' = posts w ++ [mkPost (rstrip_slash url +:+ path) bearer body]).
Proof.
  unfold _post_peer. intros Hr.
  hstep Hr as w1 peer Hp; unfold _peer, mbind, handler_bind, the_server in Hp; cbn beta iota zeta in Hp;
    (destruct (dict_get (peers (server w)) (pretty i)) as [p|] eqn:Ep; [|try done]);
    [|done|injection Hp as <- _; split_and!; [done..|by left]].
  injection Hp as <- <-.
  hstep Hr as w1 u Hu; apply lift_inv in Hu as [-> Hu]; [|split_and!; [done..|by left]].
  destruct u as [| | | |url| |];
    try (hstep Hr as w1 x Hx; [done|injection Hx as <- _; split_and!; [done..|by left]]).
  hstep Hr as w1 x Hx; [|done]. injection Hx as <- <-.
  hstep Hr as w1 t Ht; apply lift_inv in Ht as [-> Ht]; [|split_and!; [done..|by left]].
  injection Hr as <- _. split_and!; [done..|]. right. by exists p, url, (py_str py_repr t).
Qed.

Lemma send_share_run net draw eid h me recipient st pub (w w' : world store) r :
  _seal_and_send_share py_repr net draw eid h me recipient st pub w = (w', r) →
  server w' = server w ∧ layer w' = layer w ∧ (posts w' = posts w ∨ ∃ share sealed share_sig peer url bearer,
    dict_get (dkg_shares_for_others st) recipient = Some share ∧ seal_share share pub draw.1 draw.2 = Ok sealed
    ∧ (d ← dkg_share_digest eid me recipient share; sign_digest (private_key (ks_signer (server w))) d) = Ok share_sig
    ∧ dict_get (peers (server w)) (pretty recipient) = Some peer ∧ getitem peer "url" = Ok (JStr url)
    ∧ posts w' = posts w ++ [mkPost (rstrip_slash url +:+ "/dkg/receive_share") bearer
                               (share_body h me recipient sealed share_sig)]).
Proof.
  unfold _seal_and_send_share. intros Hs.
  destruct (dict_get (dkg_shares_for_others st) recipient) as [share|];
    [|hstep Hs as w1 x Hx; [done|injection Hx as <- _; split_and!; [done..|by left]]].
  hstep Hs as w1 x Hx; [|done]. injection Hx as <- <-.
  hstep Hs as w1 sealed Hx; apply lift_inv in Hx as [-> Hx]; [|split_and!; [done..|by left]].
  hstep Hs as w1 s Hss; [|done]. injection Hss as <- <-.
  hstep Hs as w1 share_sig Hg; apply lift_inv in Hg as [-> Hg]; [|split_and!; [done..|by left]].
  apply post_peer_run in Hs as (Hw & Hl & [[-> _]|(peer & url & bearer & Hpe & Hu & Hp)]);
    split_and!; [done..|by left|done|done|right].
  by exists share, sealed, share_sig, peer, url, bearer.
Qed.

(** C20: A dealer discloses a share only to the recipient it was dealt to: serving
    a reveal request changes nothing but the outgoing messages, and if one leaves
    then the request carried an accusation of this dealer by that recipient,
    signed for the accused election by the recipient's member address; the
    message is the recipient's own share in the dealing of that same election,
    signed by this keyper, sealed to an encryption key that this address signed, and goes to that
    recipient's endpoint; the caller's reply carries no share. *)
Theorem reveal_only_to_accuser net draw body (w w' : world store) r :
  handle_reveal_share py_repr net draw body w = (w', r) →
  server w' = server w ∧ layer w' = layer w
  ∧ (posts w' = posts w ∨
     ∃ acc eid h rec me recipient member sig dg st share enc_pub enc_sig sealed share_sig peer url bearer,
       json_get (if py_bool body then body else JObj []) "accusation" = Ok acc
       ∧ read_accusation py_repr acc = inr (h, me, recipient, sig) ∧ bytes_fromhex h = Ok eid
       ∧ dl_get_election (layer w) eid = Ok rec ∧ my_index (server w) (rec_config rec) = Ok me
       ∧ _members_addr (rec_config rec) recipient = Some member
       ∧ dkg_accusation_digest eid me recipient = Ok dg ∧ recover_digest dg sig = Ok member
       ∧ recover_message (enc_pubkey_hash enc_pub) enc_sig = Ok member
       ∧ dict_get (dkg_states (server w)) h = Some st ∧ dict_get (dkg_shares_for_others st) recipient = Some share
       ∧ seal_share share enc_pub draw.1 draw.2 = Ok sealed
       ∧ (d ← dkg_share_digest eid me recipient share; sign_digest (private_key (ks_signer (server w))) d)
         = Ok share_sig
       ∧ dict_get (peers (server w)) (pretty recipient) = Some peer ∧ getitem peer "url" = Ok (JStr url)
       ∧ posts w' = posts w ++ [mkPost (rstrip_slash url +:+ "/dkg/receive_share") bearer
                                  (share_body h me recipient sealed share_sig)])
  ∧ (∀ b, r = Ok (Reply 200 b) → ∃ me recipient,
       b = JObj [("ok", JBool true); ("dealerIndex", JInt me); ("recipientIndex", JInt recipient)]).
Proof.
  unfold handle_reveal_share. intros Hr.
  hstep Hr as w1 acc Ha; apply lift_inv in Ha as [-> Hacc]; [|split_and!; [done..|by left|done]].
  hstep Hr as w1 s Hs; [|done]. injection Hs as <- <-. hstep Hr as w1 l Hl; [|done]. injection Hl as <- <-.
  destruct (_gate_accusation py_repr (server w) (layer w) acc) as [[reason status]|g] eqn:Eg.
  { injection Hr as <- <-. split_and!; [done..|by left|]. intros b [= -> _].
    by apply gate_denies in Eg as []. }
  destruct g as [[[[[eid h] config] me] recipient] st].
  apply gate_passes in Eg as (rec & member & sig & dg & Hread & Hhex & Hrec & -> & Hme & Hmem & Hdg & Hsig & Hst).
  hstep Hr as w1 pub Hpub; apply enc_key_run in Hpub as [-> Hpub]; [|split_and!; [done..|by left|done]].
  destruct (Hpub pub eq_refl) as (member' & enc_sig & Hm' & Henc). rewrite Hmem in Hm'. injection Hm' as <-.
  hstep Hr as w1 u Hs; apply send_share_run in Hs as (Hw & Hl & Hp);
    [injection Hr as <- <-; split_and!; [done..| |intros b [= <-]; by exists me, recipient]|split_and!; [done..| |done]];
    (destruct Hp as [Hp|(share & sealed & share_sig & peer & url & bearer & Hp)]; [by left|right]);
    destruct Hp as (Hsh & Hse & Hsg & Hpe & Hu & Hp);
    by exists acc, eid, h, rec, me, recipient, member, sig, dg, st, share, pub, enc_sig, sealed, share_sig, peer, url, bearer.
Qed.

End stored_shares.
