(* ===== verification/KeyperCeremony.v ===== *)
(** Keypers talking to each other: what a dealer posts is what its peers store,
    the ceremony through the request handlers, what goes unnoticed when a dealer
    withholds a share or a keyper starts over, and the bearer check. *)

From Stdlib Require Import Zmod Ascii.
From S2P Require Import Prelude Params Primality Field Points Transcript Elgamal Proofs Recovery Dkg Types Config Schnorr Ballot Admission Aggregation Codecs WriteAuth Quorum DataLayer DataLayerSafety Port Gateway Keyper Bootstrap Http KeyperServer KeyperSafety.

(** * Delivery *)

Section delivery.
Context `{Crypto} `{EthAccountLaws} `{Abi} `{SealLaws}.
Context (py_repr : json → string).
Context {store : Type} `{DataLayer store}.

(** Running a sequence whose first step is known. *)
Lemma run_lift {A B} (x : result A) a (f : A → handler store B) w : x = Ok a → (lift x ≫= f) w = f a w.
Proof. by intros ->. Qed.
Lemma run_bind {A B} (m : handler store A) a (f : A → handler store B) w w1 : m w = (w1, Ok a) → (m ≫= f) w = f a w1.
Proof. intros Hm. unfold mbind, handler_bind. by rewrite Hm. Qed.

Lemma signed_by_Ok addr d sg : recover_digest d sg = Ok addr → signed_by (Some addr) (Ok d) (Ok sg) = Ok true.
Proof. intros Hr. unfold signed_by. cbn. rewrite Hr. cbn. by rewrite bool_decide_eq_true_2. Qed.

Lemma read_share_body h d r sealed sig sk share : unseal_share (JStr sealed) sk = Ok share →
  read_share py_repr sk (share_body h d r sealed sig) = Ok (d, r, "0x" +:+ hex sig, share).
Proof.
  intros Hu. unfold read_share, share_body.
  change (getitem _ "dealerIndex") with (Ok (JInt d)). rewrite bind_Ok. cbn [py_int]. rewrite bind_Ok.
  change (getitem _ "recipientIndex") with (Ok (JInt r)). rewrite bind_Ok. cbn [py_int]. rewrite bind_Ok.
  change (getitem _ "signature") with (Ok (JStr ("0x" +:+ hex sig))). rewrite bind_Ok.
  change (dict_get _ "sealedShare") with (Some (JStr sealed)). cbn iota. rewrite Hu, bind_Ok. done.
Qed.

(** The message of a successful send. *)
Lemma send_share_message net draw eid h d r st pub (w w' : world store) u :
  _seal_and_send_share py_repr net draw eid h d r st pub w = (w', Ok u) →
  ∃ share sealed digest sig url bearer, dict_get (dkg_shares_for_others st) r = Some share
    ∧ seal_share share pub draw.1 draw.2 = Ok sealed ∧ dkg_share_digest eid d r share = Ok digest
    ∧ sign_digest (private_key (ks_signer (server w))) digest = Ok sig
    ∧ posts w' = posts w ++ [mkPost url bearer (share_body h d r sealed sig)].
Proof.
  unfold _seal_and_send_share. intros Hs. apply hbind_Ok in Hs as (w1 & share & Hsh & Hs).
  destruct (dict_get (dkg_shares_for_others st) r) as [sh|]; [|done]. injection Hsh as <- <-.
  apply hbind_Ok in Hs as (w1 & sealed & [-> Hse]%lift_inv & Hs).
  apply hbind_Ok in Hs as (w1 & s & [= <- <-] & Hs).
  apply hbind_Ok in Hs as (w1 & sig & [-> (dg & Hdg & Hsig)%bind_Ok_inv]%lift_inv & Hs).
  apply post_peer_run in Hs as (_ & _ & [[_ Hno]|(peer & url & bearer & _ & _ & Hp)]); [by destruct (Hno u)|].
  exists sh, sealed, dg, sig. by do 2 eexists.
Qed.

(** A share that a dealer posts to a peer arrives: the peer, under the same
    election and with no earlier share of that dealer, accepts the message and
    stores the dealt scalar. *)
Theorem dealt_share_delivered net draw eid d r st (wd wd' wr : world store) sk rec share u :
  from_sk sk = Ok (ks_signer (server wd)) → length draw.2 = 12%nat →
  _seal_and_send_share py_repr net draw eid (hex eid) d r st (x25519_public (x25519_key (server wr))) wd = (wd', Ok u) →
  dict_get (dkg_shares_for_others st) r = Some share → 0 <= share < CURVE_ORDER →
  dl_get_election (layer wr) eid = Ok rec →
  _members_addr (rec_config rec) d = Some (identity (ks_signer (server wd))) →
  my_index (server wr) (rec_config rec) = Ok r →
  stored wr (hex eid) d = None →
  ∃ post wr', posts wd' = posts wd ++ [post] ∧ handle_receive_share py_repr (post_body post) wr = (wr', Ok ok_reply)
    ∧ stored wr' (hex eid) d = Some share.
Proof.
  intros Hsk Hn Hsend Hsh Hrange Hrec Hd Hr Hnew.
  apply send_share_message in Hsend as (share' & sealed & dg & sig & url & bearer & Hsh' & Hse & Hdg & Hsig & Hp).
  rewrite Hsh in Hsh'. injection Hsh' as <-.
  assert (Hu : unseal_share (JStr sealed) (x25519_key (server wr)) = Ok share).
  { apply (unseal_sealed _ _ _ _ _ Hn) in Hse. rewrite Z.mod_small in Hse by done. done. }
  apply from_sk_key in Hsk as [Hpk Hkey]. rewrite Hpk in Hsig.
  pose proof (sign_digest_recover _ _ _ _ Hkey Hsig) as Hrv.
  eexists. assert (Hg : ∃ wr', handle_receive_share py_repr (share_body (hex eid) d r sealed sig) wr = (wr', Ok ok_reply)
    ∧ stored wr' (hex eid) d = Some share); [|destruct Hg as (wr' & Hg & Hst); exists wr'; split; [exact Hp|done]].
  clear Hp. unfold handle_receive_share.
  rewrite (run_lift _ (JStr (hex eid))) by done.
  rewrite (run_lift _ eid) by (cbn [fromhex_json]; unfold bytes_fromhex; by rewrite fromhex_hex).
  rewrite (run_bind _ (rec_config rec) _ _ wr) by (by rewrite config_run, Hrec).
  rewrite (run_bind _ (server wr) _ _ wr) by done.
  rewrite (run_lift _ _ _ _ (read_share_body _ _ _ _ _ _ _ Hu)). cbn beta iota.
  rewrite (run_bind _ r _ _ wr) by (by rewrite my_index_run, Hr). rewrite Z.eqb_refl. cbn [negb].
  rewrite (run_lift _ true) by (rewrite Hd, Hdg, fromhex_0x; by apply signed_by_Ok). cbn [negb].
  change (py_str py_repr (JStr (hex eid))) with (hex eid).
  destruct (inbox_run (hex eid) wr) as (box & w1 & Eb & Hb & Hst & _).
  rewrite (run_bind _ _ _ _ _ Eb).
  assert (dict_get (box_shares box) d = None) as ->.
  { specialize (Hst (hex eid) d). unfold stored in Hst at 1. rewrite Hb in Hst. cbn in Hst. congruence. }
  eexists. split; [reflexivity|].
  pose proof (put_box_stored (hex eid) box d share wr w1 (box_commitments box) (box_complained box)
    (dict_set (box_share_sigs box) d ("0x" +:+ hex sig)) Hb Hst (hex eid) d) as Hput.
  rewrite decide_True in Hput by done. exact Hput.
Qed.

End delivery.

(** * A dealer that sends no share *)

Lemma filter_ext_elem {A} (f g : A → bool) (l : list A) : (∀ x, x ∈ l → f x = g x) →
  filter (λ x, f x = true) l = filter (λ x, g x = true) l.
Proof.
  induction l as [|x l IH]; intros Hfg; [done|]. rewrite !filter_cons, (Hfg x) by left.
  rewrite IH by (intros y Hy; apply Hfg; by right). done.
Qed.

(** Round 2 does not notice a dealer whose commitments arrived and whose share
    did not: the keyper completes with the same secret as without that dealer,
    while the committee key that everyone derives for it also counts the
    dealer's polynomial, so the two differ unless that polynomial vanishes at
    the keyper's index. *)
Theorem withheld_share_undetected `{CryptoLaws} all d comms q st my_id received st' cs pks :
  Forall (λ dc, Forall (λ c, in_subgroup c) dc.2) ((d, comms) :: all) → NoDup (dict_keys ((d, comms) :: all)) →
  1 <= q → len comms = q → dkg_keyper_id st = Some my_id → dkg_quorum st = Some q →
  dict_keys received ≡ₚ dict_keys all →
  round2 st all received = Ok (st', (cs, pks)) →
  round2 st ((d, comms) :: all) received = Ok (st', (cs, pks))
  ∧ ∃ dealt_key, derive_mpk_share my_id [(d, comms)] q = Ok dealt_key
    ∧ derive_mpk_share my_id ((d, comms) :: all) q = Ok (add dealt_key pks)
    ∧ (dealt_key ≠ Z2 → add dealt_key pks ≠ mul G2 cs).
Proof.
  intros Hsub Hnd Hq Hlen Hid Hqq HP Hr.
  apply dealt_exists in Hsub as [ds Hds]. destruct ds as [|[d' p] ds]; [done|].
  injection Hds as <- -> ->. change ((d, gmul <$> p) :: dealt ds) with (dealt ((d, p) :: ds)) in *.
  rewrite dealt_keys in *. pose proof Hnd as Hnd'. apply NoDup_cons in Hnd as [Hd Hnd].
  assert (Hp : length p = Z.to_nat q) by (unfold len in Hlen; rewrite length_fmap in Hlen; lia).
  split.
  - rewrite (round2_spec st my_id) in Hr |- * by done. cbn zeta in *.
    assert (filter (λ x, faulty my_id (dkg_quorum st) (dealt ((d, p) :: ds)) x = true) received
            = filter (λ x, faulty my_id (dkg_quorum st) (dealt ds) x = true) received) as ->; [|exact Hr].
    apply filter_ext_elem. intros [e s] Hin. unfold faulty; cbn [fst snd]. rewrite !dealt_get. cbn [dict_get].
    rewrite decide_False; [done|]. intros ->. apply Hd. rewrite <- HP. apply list_elem_of_fmap. by exists (d, s).
  - destruct (round2_share _ _ _ _ _ _ _ _ Hid Hqq Hnd HP Hr) as (Hu & Hcs & -> & _ & _).
    assert (Hu' : uniform (Z.to_nat q) ((d, p) :: ds)) by (constructor; done).
    assert (Hu1 : uniform (Z.to_nat q) [(d, p)]) by (constructor; [done|constructor]).
    exists (gmul (polyF p (inF my_id))). split_and!.
    + change [(d, gmul <$> p)] with (dealt [(d, p)]). rewrite derive_mpk_share_spec by (done || apply NoDup_singleton).
      do 2 f_equal. rewrite joint_poly_eval by done. cbn [fmap list_fmap]. unfold sumF. cbn [foldr snd]. ring.
    + rewrite derive_mpk_share_spec by done. rewrite joint_poly_eval by done. cbn [fmap list_fmap].
      rewrite sumF_cons, <- (joint_poly_eval (Z.to_nat q)), <- Hcs by done. cbn [snd]. by rewrite gmul_add.
    + rewrite gmul_add. unfold G2, Z2. to_gmul.
      intros Hne Heq. apply Hne. apply gmul_inj in Heq. f_equal.
      transitivity (polyF p (inF my_id) + inF cs - inF cs)%F; [ring|]. rewrite Heq. ring.
Qed.

(** * The bearer check *)

(** Until a bootstrap installs an API token every protected request is
    refused; from then on a request passes exactly when it presents the
    installed token of its side, the peer token for the keyper-to-keyper paths
    and the API token for the others. *)
Theorem bearer_gate `{Crypto} (s : KeyperServer) path authorization : path ∉ _OPEN →
  (api_token s = None → _require_bearer s path authorization = Err (HTTPException 503))
  ∧ (_require_bearer s path authorization = Ok tt ↔
     api_token s ≠ None ∧ ∃ t, (if bool_decide (path ∈ _PEER) then peer_token s else api_token s) = Some t
       ∧ t ≠ "" ∧ strip (removeprefix authorization "Bearer ") = t).
Proof.
  intros Hp. unfold _require_bearer. rewrite bool_decide_eq_false_2 by done.
  split; [intros E; by rewrite (bool_decide_eq_true_2 (api_token s = None))|].
  destruct (api_token s) as [api|] eqn:Eapi;
    [rewrite (bool_decide_eq_false_2 (Some api = None)) by done|rewrite (bool_decide_eq_true_2 (None = None)) by done; split; [done|by intros [[] _]]].
  cbn [raise_if]. rewrite bind_Ok.
  assert (Ht : ∀ tok expected, raise_if (negb (tokens_equal (TStr tok) (token_of expected))) (HTTPException 401) = Ok tt
    ↔ ∃ t, expected = Some t ∧ t ≠ "" ∧ tok = t).
  { intros tok expected. destruct (tokens_equal (TStr tok) (token_of expected)) eqn:Et; cbn.
    - split; [intros _|done]. apply tokens_equal_spec in Et as (b & Hb & He & Hne). destruct expected as [t|]; [|done].
      cbn in Hb, He. exists t. split; [done|]. split; [by intros ->; apply Hne; simplify_eq|].
      apply encode_utf8_inj. congruence.
    - split; [done|]. intros (t & -> & Hne & ->). apply not_true_iff_false in Et. destruct Et. apply tokens_equal_spec.
      exists (encode_utf8 t). split_and!; [done..|]. intros Hz. apply Hne. by apply encode_utf8_inj. }
  rewrite Ht. split; [intros Hx; split; [done|exact Hx]|by intros [_ Hx]].
Qed.

(** * A ceremony of three keypers *)

Module ceremony_run.
Import prefix_abi naming_account toy_seal memory_example.
#[local] Existing Instance concrete_crypto.
#[local] Existing Instance port_example.layer.

Definition repr (_ : json) : string := "?".
Definition loads (_ : bytes) : result json := Err ValueError.
Definition network (_ : list peer_post) : result unit := Ok tt.

Definition signer (i : Z) : Signer := mkSigner (be_bytes 32 i).
Definition xkey (i : Z) : bytes := be_bytes 32 (100 + i).
Definition draw (i : Z) : bytes * bytes := (be_bytes 32 (200 + i), be_bytes 12 i).

Definition peer_entry (j : Z) : string * json :=
  (pretty j, JObj [("url", JStr (pretty j)); ("token", JStr "peer");
                   ("enc_pubkey", JStr (hex (x25519_public (xkey j))));
                   ("enc_pubkey_sig", JStr (hex (get_ok [] (sign_encryption_pubkey (signer j) (x25519_public (xkey j))))))]).

Definition start (i : Z) : world InMemoryDataLayer :=
  mkWorld (with_tokens (new_server (signer i) [] (xkey i) (Some 1000) None None) (Some "api") (Some "peer") None
             (peer_entry <$> [1; 2; 3])) [] registered.

Definition body : json := JObj [("electionId", JStr (hex eid))].
Definition rng (i : Z) (j : nat) : Z := i * 100 + Z.of_nat j.

Definition dealt (i : Z) : world InMemoryDataLayer :=
  (handle_distribute_shares repr network draw body
    (handle_distribute_commitments repr network body (handle_round1 (rng i) body (start i)).1).1).1.

(** The messages for [j] among the posts of the others, but those in [lost]. *)
Definition mail (j : Z) (lost : list (Z * string)) : list (string * json) :=
  i ← [1; 2; 3];
  p ← posts (dealt i);
  let path := if String.eqb (post_url p) (pretty j +:+ "/dkg/receive_commitments") then "commitments"
              else if String.eqb (post_url p) (pretty j +:+ "/dkg/receive_share") then "share" else "" in
  if String.eqb path "" || bool_decide ((i, path) ∈ lost) then [] else [(path, post_body p)].

Definition deliver (j : Z) (lost : list (Z * string)) : world InMemoryDataLayer :=
  foldl (λ w m, if String.eqb m.1 "share" then (handle_receive_share repr m.2 w).1
                else (handle_receive_commitments repr m.2 w).1) (dealt j) (mail j lost).

Definition finish (j : Z) (lost : list (Z * string)) : world InMemoryDataLayer * result reply :=
  handle_round2 body (deliver j lost).

Definition published (w : world InMemoryDataLayer * result reply) : list (list bytes) :=
  match dl_get_dkg_submissions (layer w.1) eid with Ok l => dkg_committee_pks <$> l | Err _ => [] end.

(** The public form of the share a keyper completed with. *)
Definition own_key (w : world InMemoryDataLayer) : result bytes :=
  match dict_get (completed (server w)) (hex eid) with
  | Some e => g2_to_compressed (entry_public_key_share e)
  | None => Err KeyError
  end.

(** All three keypers publish, one after the other, into one data layer. *)
Definition ceremony (lost : list (Z * string)) : InMemoryDataLayer * list Z :=
  foldl (λ '(l, codes) j,
    let w := (finish j lost).1 in
    let '(w', r) := handle_publish body (mkWorld (server w) (posts w) l) in (layer w', codes ++ [http_status r]))
    (registered, []) [1; 2; 3].

(** Without losses the key is finalized, and each keyper's share is the one its
    committee key stands for. *)
Example ceremony_finalizes :
  (ceremony []).2 = [200; 200; 200]
  ∧ match dl_get_finalized_key (ceremony []).1 eid with
    | Ok (Some fk) => mapM (λ j, own_key (finish j []).1) [1; 2; 3] = Ok (committee_pks fk)
    | _ => False
    end.
Proof. vm_compute. split; reflexivity. Qed.

(** A dealer that withholds its shares breaks the ceremony unnoticed: dealer 1
    sends commitments to everyone and shares to no one, every keyper still
    reports success and publishes, the key is finalized, and keypers 2 and 3 hold
    a share that is not the one their committee key stands for, so that no quorum
    of two can decrypt. *)
Theorem withheld_shares_finalize :
  let lost := [(1, "share")] in
  ((finish 2 lost).2 = Ok (Reply 200 (JObj [("verified", JBool true)]))
   ∧ (finish 3 lost).2 = Ok (Reply 200 (JObj [("verified", JBool true)])))
  ∧ (ceremony lost).2 = [200; 200; 200]
  ∧ match dl_get_finalized_key (ceremony lost).1 eid with
    | Ok (Some fk) =>
        own_key (finish 2 lost).1 ≠ from_option Ok (Err KeyError) (committee_pks fk !! 1%nat)
        ∧ own_key (finish 3 lost).1 ≠ from_option Ok (Err KeyError) (committee_pks fk !! 2%nat)
    | _ => False
    end.
Proof. vm_compute. split_and!; (reflexivity || discriminate). Qed.

(** A keyper that completed a ceremony and starts another. *)
Definition restarted : world InMemoryDataLayer := (handle_round1 (rng 7) body (finish 1 []).1).1.

(** The publish guard does not look at the attempt: a keyper that completed one
    ceremony, then began another and received nothing in it, publishes a joint
    key made of its own new commitments alone, for which it holds no share. *)
Theorem stale_completion_publishes :
  http_status (handle_publish body restarted).2 = 200
  ∧ own_key restarted = own_key (finish 1 []).1
  ∧ match published (handle_publish body restarted) with
    | [[key]] => own_key restarted ≠ Ok key
    | _ => False
    end.
Proof. vm_compute. split_and!; (reflexivity || discriminate). Qed.

(** ** Instances of the theorems *)

Definition bare : world InMemoryDataLayer :=
  mkWorld (new_server (signer 1) [] (xkey 1) (Some 1000) None None) [] registered.
Definition served (w : world InMemoryDataLayer) (e : event) : world InMemoryDataLayer :=
  (serve float_text repr loads network e w).1.
Definition alone : world InMemoryDataLayer := served (served bare (ERound1 (rng 1) body)) (ERound2 body).

Lemma reaches_alone : rtc (step float_text repr loads) bare alone.
Proof. eapply rtc_l; [apply step_serve|]. eapply rtc_once, step_serve. Qed.

Lemma aggregation_single_flight_witness : length (filter (λ wk, wk.2 = "ab") (workers (server alone))) = 0%nat.
Proof.
  rewrite (aggregation_single_flight float_text repr loads (signer 1) [] (xkey 1) (Some 1000) None None [] registered
    alone reaches_alone "ab"). vm_compute. reflexivity.
Defined.

(** A keyper that completed alone and restarts. *)
Lemma secrets_survive_restart_witness :
  length (completed (new_server (signer 1) [] (xkey 1) (Some 1000) (saved (server alone)) None)) = 1%nat.
Proof.
  rewrite (proj1 (secrets_survive_restart float_text repr loads (signer 1) [] (xkey 1) (Some 1000) None None []
    registered alone None reaches_alone)). vm_compute. reflexivity.
Defined.

(** Keyper 2 receives the share of dealer 1. *)
Definition share_message : json := match mail 2 [] with (_ :: (_, b) :: _) => b | _ => JNull end.

Lemma receive_share_inj a b : EReceiveShare a = EReceiveShare b → a = b.
Proof. congruence. Qed.

Lemma stored_share_changes_witness :
  ∃ share, accepted_share (dealt 2) share_message (hex eid) 1 share.
Proof.
  destruct (stored_share_changes float_text repr loads network (EReceiveShare share_message) (dealt 2)
    (served (dealt 2) (EReceiveShare share_message))
    (serve float_text repr loads network (EReceiveShare share_message) (dealt 2)).2 (hex eid) 1)
    as [Hs|[(r & b & e & He & _)|(b & share & He & Ha & _)]].
  - apply surjective_pairing.
  - exfalso. revert Hs. vm_compute. discriminate.
  - discriminate He.
  - apply receive_share_inj in He. subst b. exists share. exact Ha.
Defined.

(** Keyper 2 accuses dealer 1, which posts the share again. *)
Definition accusation_body : json :=
  JObj [("accusation", get_ok JNull (accusation (server (start 2)) eid 2 1))].

Lemma reveal_only_to_accuser_witness :
  let out := handle_reveal_share repr network (draw 9) accusation_body (dealt 1) in
  length (posts out.1) = 5%nat ∧ http_status out.2 = 200 ∧ server out.1 = server (dealt 1)
  ∧ ∃ acc h me recipient sig id st share, read_accusation repr acc = inr (h, me, recipient, sig)
      ∧ bytes_fromhex h = Ok id ∧ dict_get (dkg_states (server (dealt 1))) h = Some st
      ∧ dict_get (dkg_shares_for_others st) recipient = Some share.
Proof.
  intros out.
  destruct (reveal_only_to_accuser repr network (draw 9) accusation_body (dealt 1) out.1 out.2) as (Hs & _ & Hp & _);
    [apply surjective_pairing|].
  split; [vm_compute; reflexivity|]. split; [vm_compute; reflexivity|]. split; [exact Hs|].
  destruct Hp as [Hp|Hp].
  - exfalso. apply (f_equal length) in Hp. revert Hp. vm_compute. discriminate.
  - destruct Hp as (acc & id & h & rec & me & recipient & member & sig & dg & st & share & pub & esig & sealed & ssig
      & peer & url & bearer & _ & Hread & Hhex & _ & _ & _ & _ & _ & _ & Hst & Hsh & _).
    exists acc, h, me, recipient, sig, id, st, share. split_and!; [exact Hread|exact Hhex|exact Hst|exact Hsh].
Defined.

Definition dealer_state : KeyperDKGState :=
  (round1 init_state 1 3 2 (rng 1)).1.

Lemma dealt_share_delivered_witness : ∃ post wr',
  handle_receive_share repr (post_body post) (start 2) = (wr', Ok ok_reply) ∧ stored wr' (hex eid) 1 = Some 305.
Proof.
  set (out := _seal_and_send_share repr network (draw 2) eid (hex eid) 1 2 dealer_state
                (x25519_public (x25519_key (server (start 2)))) (start 1)).
  destruct (get_election registered eid) as [rec|e] eqn:Er;
    [|exfalso; apply (f_equal is_ok) in Er; vm_compute in Er; discriminate].
  assert (Hcfg : rec_config rec = cfg).
  { apply (f_equal (λ r, match r with Ok r => rec_config r | Err _ => cfg end)) in Er. rewrite <- Er.
    vm_compute. reflexivity. }
  destruct (dealt_share_delivered repr network (draw 2) eid 1 2 dealer_state (start 1) out.1 (start 2) 1 rec 305 tt)
    as (post & wr' & _ & Hr & Hs).
  - vm_compute. reflexivity.
  - reflexivity.
  - assert (Ho : out.2 = Ok tt) by (vm_compute; reflexivity). rewrite <- Ho. apply surjective_pairing.
  - vm_compute. reflexivity.
  - vm_compute. split; [discriminate|reflexivity].
  - exact Er.
  - rewrite Hcfg. vm_compute. reflexivity.
  - rewrite Hcfg. vm_compute. reflexivity.
  - reflexivity.
  - exists post, wr'. split; [exact Hr|exact Hs].
Defined.

Lemma bearer_gate_witness : _require_bearer (server (start 1)) "/dkg/round1" "Bearer api" = Ok tt.
Proof.
  apply (proj2 (proj2 (bearer_gate (server (start 1)) "/dkg/round1" "Bearer api" ltac:(apply (bool_decide_unpack _); exact I)))).
  split; [discriminate|]. exists "api". split; [reflexivity|]. split; [discriminate|reflexivity].
Defined.

End ceremony_run.

(** Keyper 3 gets nothing from dealer 1 of the three-keyper ceremony. *)
Module withheld_run.
#[local] Existing Instance concrete_crypto.

Definition rest : dict Z (list (pt G2ops)) := (λ d, (d, (ceremony.dealer d).2.1)) <$> [2; 3].
Definition got : dict Z Z := (λ d, (d, default 0 (dict_get (ceremony.dealer d).2.2 3))) <$> [2; 3].

Lemma withheld_share_undetected_witness : ∃ st' cs pks,
  round2 (ceremony.dealer 3).1 rest got = Ok (st', (cs, pks))
  ∧ round2 (ceremony.dealer 3).1 ((1, (ceremony.dealer 1).2.1) :: rest) got = Ok (st', (cs, pks)).
Proof.
  destruct (round2 (ceremony.dealer 3).1 rest got) as [[st' [cs pks]]|e] eqn:E;
    [|exfalso; apply (f_equal is_ok) in E; vm_compute in E; discriminate].
  exists st', cs, pks. split; [reflexivity|].
  apply (withheld_share_undetected rest 1 (ceremony.dealer 1).2.1 2 (ceremony.dealer 3).1 3 got st' cs pks);
    [by repeat constructor|apply (bool_decide_unpack _); vm_compute; exact I|lia|reflexivity..|exact E].
Defined.
End withheld_run.
