(* ===== verification/HttpPort.v ===== *)
(** The storage port over HTTP: the data-layer service
    (services/data_layer/data_layer.py) around any adapter, and the client that
    the other services hold (adapters/db/client.py).

    A request is a route with its path argument, query and JSON body; the URL
    text and Flask's dispatch are not modelled.  [wire] is a JSON value after
    transport: objects may come back with their keys in another order. *)

From S2P Require Import Prelude Params Primality Field Points Transcript Types Config Codecs WriteAuth Quorum DataLayer DataLayerSafety Port Postgres Jsonb Schnorr Ballot Admission Aggregation Gateway Keyper Tally PostgresRefines Bootstrap Http.

(** * Requests *)

Inductive request :=
| GetElection (eid : string)
| ListElections (admin_key : option string)
| GetDkg (eid : string)
| GetFinalized (eid : string)
| ListBallots (eid : string) (start count : option string)
| CountBallots (eid : string)
| GetAggregate (eid : string)
| ListShares (eid : string)
| GetResult (eid : string)
| Capability.

Inductive post :=
| PostElection (body : json)
| PostCancel (eid : string) (body : json)
| PostDkg (eid : string) (body : json)
| PostBallot (eid : string) (body : json)
| PostAggregate (eid : string) (body : json)
| PostShare (eid : string) (body : json)
| PostResult (eid : string) (body : json)
| PostTallyStalled (eid : string) (body : json).

(** * services/data_layer/data_layer.py *)

Definition MAX_BALLOT_PAGE : Z := 1000.

(** The largest body a route reads, in bytes of its text. *)
Definition MAX_CONTENT_LENGTH : Z := 2 * 1024 * 1024.

(** The status of an exception on the read routes. *)
Definition read_status (e : exn) : Z :=
  match e with
  | KeyError => 404
  | WriteAuthorizationError => 403
  | ImmutabilityError => 409
  | VotingWindowError => 422
  | QuorumConflictError => 409
  | _ => if is_value_error e then 400 else 500
  end.

(** On the write routes, which have no handler for a quorum conflict. *)
Definition write_status (e : exn) : Z :=
  match e with
  | KeyError => 404
  | WriteAuthorizationError => 403
  | ImmutabilityError => 409
  | VotingWindowError => 422
  | _ => if is_value_error e then 400 else 500
  end.

Definition _finalized_key_json (fk : option FinalizedKey) : json :=
  match fk with
  | None => JNull
  | Some fk => JObj [("pkElection", enc_bytes (pk_election fk)); ("committeePKs", JArr (enc_bytes <$> committee_pks fk))]
  end.

Definition json_opt {A} (enc : A → json) (o : option A) : json :=
  match o with Some a => enc a | None => JNull end.

Definition ballot_row (sb : StoredBallot) : json :=
  JObj [("ballot", enc_ballot (envelope sb)); ("sequenceNumber", JInt (sequence_number sb));
        ("submittedAt", json_opt JInt (submitted_at sb))].

(** [dec_bytes(body[key])] *)
Definition body_bytes (body : json) (key : string) : result bytes := v ← getitem body key; dec_bytes v None.

(** A list field, decoded item by item. *)
Definition list_field {A} (dec : json → result A) (d : json) (key : string) : result (list A) :=
  v ← getitem d key; items ← json_iter v; mapM dec items.

(** [int(request.args.get(key, 0))] *)
Definition arg_int (arg : option string) : result Z :=
  match arg with Some text => py_int_of_str text | None => Ok 0 end.

Section service.
Context {store : Type} `{DataLayer store} (py_repr : json → string).

Definition with_eid {A} (eid : string) (f : bytes → result A) : result A := e ← bytes_fromhex eid; f e.

(** [port_read_blueprint] *)
Definition handle_get (s : store) (r : request) : result json :=
  match r with
  | GetElection eid => with_eid eid (λ e,
      rec ← dl_get_election s e;
      Ok (JObj [("config", enc_config (rec_config rec)); ("cancelled", JBool (rec_cancelled rec));
                ("tallyStalled", JBool (rec_tally_stalled rec));
                ("finalizedKey", _finalized_key_json (rec_finalized_key rec))]))
  | ListElections admin_key =>
      filt ← match admin_key with
             | Some k => if String.eqb k "" then Ok None
                         else b ← dec_bytes (JStr k) None; Ok (Some (mkElectionFilter (Some b)))
             | None => Ok None
             end;
      ids ← dl_list_elections s filt;
      Ok (JObj [("electionIds", JArr (enc_bytes <$> ids))])
  | GetDkg eid => with_eid eid (λ e,
      subs ← dl_get_dkg_submissions s e; Ok (JObj [("submissions", JArr (enc_dkg_result <$> subs))]))
  | GetFinalized eid => with_eid eid (λ e,
      fk ← dl_get_finalized_key s e; Ok (JObj [("finalizedKey", _finalized_key_json fk)]))
  | ListBallots eid start count =>
      start ← arg_int start;
      count ← arg_int count;
      with_eid eid (λ e,
        page ← dl_list_ballots s e start (Z.min count MAX_BALLOT_PAGE);
        Ok (JObj [("ballots", JArr (ballot_row <$> page))]))
  | CountBallots eid => with_eid eid (λ e, n ← dl_count_ballots s e; Ok (JObj [("count", JInt n)]))
  | GetAggregate eid => with_eid eid (λ e,
      agg ← dl_get_aggregate s e; Ok (JObj [("aggregate", json_opt enc_aggregate agg)]))
  | ListShares eid => with_eid eid (λ e,
      shares ← dl_list_decryption_shares s e; Ok (JObj [("shares", JArr (enc_decryption_share <$> shares))]))
  | GetResult eid => with_eid eid (λ e,
      res ← dl_get_result s e; Ok (JObj [("result", json_opt enc_result res)]))
  | Capability => Ok (JObj [("verifiabilityTier", JInt (dl_verifiability_tier s))])
  end.

(** The write routes of [build_app]; [now] and [now'] are the adapter's clock
    readings.  The reply is the JSON of a 200, or [None] for a 204. *)
Definition handle_post (s : store) (now now' : Z) (r : post) : result (store * option json) :=
  match r with
  | PostElection body =>
      v ← getitem body "config"; config ← dec_config py_repr v;
      sig ← body_bytes body "adminSig";
      '(s', eid) ← dl_register_election s config sig;
      Ok (s', Some (JObj [("electionId", enc_bytes eid)]))
  | PostCancel eid body =>
      e ← bytes_fromhex eid;
      sig ← body_bytes body "adminSig";
      s' ← dl_cancel_election s now e sig; Ok (s', None)
  | PostDkg eid body =>
      e ← bytes_fromhex eid;
      pk ← body_bytes body "pkElection";
      pks ← list_field (λ p, dec_bytes p None) body "committeePKs";
      sig ← body_bytes body "keyperSig";
      s' ← dl_submit_dkg_result s e pk pks sig; Ok (s', None)
  | PostBallot eid body =>
      g ← json_get body "gatewaySig";
      sig ← (if py_bool g then dec_bytes g None else Ok []);
      e ← bytes_fromhex eid;
      v ← getitem body "ballot"; ballot ← dec_ballot v;
      '(s', seq) ← dl_submit_ballot s now e ballot sig;
      Ok (s', Some (JObj [("sequenceNumber", JInt seq)]))
  | PostAggregate eid body =>
      e ← bytes_fromhex eid;
      v ← getitem body "aggregate"; agg ← dec_aggregate v;
      sig ← body_bytes body "keyperSig";
      s' ← dl_submit_aggregate s now e agg sig; Ok (s', None)
  | PostShare eid body =>
      e ← bytes_fromhex eid;
      v ← getitem body "share"; share ← dec_decryption_share v;
      sig ← body_bytes body "keyperSig";
      s' ← dl_submit_decryption_share s now e share sig; Ok (s', None)
  | PostResult eid body =>
      e ← bytes_fromhex eid;
      v ← getitem body "result"; res ← dec_result v;
      sig ← body_bytes body "resultPublisherSig";
      s' ← dl_publish_result s e res sig; Ok (s', None)
  | PostTallyStalled eid body =>
      e ← bytes_fromhex eid;
      st ← getitem body "stalled";
      sig ← body_bytes body "resultPublisherSig";
      v ← getitem body "issuedAt"; issued_at ← py_int v;
      s' ← dl_set_tally_stalled s now now' e (py_bool st) sig issued_at; Ok (s', None)
  end.

(** What the service answers: a status, and the JSON of a success. *)
Definition answer_get (s : store) (r : request) : Z * option json :=
  match handle_get s r with Ok v => (200, Some v) | Err e => (read_status e, None) end.

Definition answer_post (s : store) (now now' : Z) (r : post) : store * (Z * option json) :=
  match handle_post s now now' r with
  | Ok (s', Some v) => (s', (200, Some v))
  | Ok (s', None) => (s', (204, None))
  | Err e => (s, (write_status e, None))
  end.

(** * adapters/db/client.py *)

(** [_raise_for_status] *)
Definition _raise_for_status (status : Z) : result unit :=
  if status <? 400 then Ok tt else
  if status =? 404 then Err KeyError else
  if status =? 403 then Err WriteAuthorizationError else
  if status =? 409 then Err ImmutabilityError else
  if status =? 422 then Err VotingWindowError else Err ValueError.

Definition _finalized_key (d : json) : result (option FinalizedKey) :=
  match d with
  | JNull => Ok None
  | _ =>
      pk ← body_bytes d "pkElection";
      pks ← list_field (λ p, dec_bytes p None) d "committeePKs";
      Ok (Some (mkFinalizedKey pk pks))
  end.

Context (wire : json → json) (content_length : json → Z).

(** [HttpDataLayerClient._get] *)
Definition client_get (s : store) (r : request) : result json :=
  let '(status, body) := answer_get s r in
  _ ← _raise_for_status status;
  match body with Some v => Ok (wire v) | None => Err ValueError end.

(** [HttpDataLayerClient._post], with the store after the request: [request.get_json]
    answers 413 to a body over the limit. *)
Definition client_post (s : store) (now now' : Z) (route : json → post) (fields : dict string json) :
    result (store * option json) :=
  let '(s', (status, out)) :=
    if MAX_CONTENT_LENGTH <? content_length (JObj fields) then (s, (413, None))
    else answer_post s now now' (route (wire (JObj fields))) in
  _ ← _raise_for_status status;
  Ok (s', wire <$> out).

(** [dec(d[key]) if d[key] else None] *)
Definition opt_field {A} (dec : json → result A) (d : json) (key : string) : result (option A) :=
  v ← getitem d key; if py_bool v then a ← dec v; Ok (Some a) else Ok None.

Definition dec_row (row : json) : result StoredBallot :=
  v ← getitem row "sequenceNumber"; seq ← py_int v;
  v ← getitem row "ballot"; ballot ← dec_ballot v;
  at_ ← json_get row "submittedAt";
  at_ ← match at_ with JNull => Ok None | v => n ← py_int v; Ok (Some n) end;
  Ok (mkStoredBallot seq ballot at_).

Definition int_field (d : json) (key : string) : result Z := v ← getitem d key; py_int v.

Definition the_store (r : result (store * option json)) : result store := '(s', _) ← r; Ok s'.

(** The bodies the client sends. *)
Definition election_body config sig : dict string json := [("config", enc_config config); ("adminSig", enc_bytes sig)].
Definition cancel_body sig : dict string json := [("adminSig", enc_bytes sig)].
Definition dkg_body pk pks sig : dict string json :=
  [("pkElection", enc_bytes pk); ("committeePKs", JArr (enc_bytes <$> pks)); ("keyperSig", enc_bytes sig)].
Definition ballot_body ballot sig : dict string json :=
  ("ballot", enc_ballot ballot) :: if bool_decide (sig = []) then [] else [("gatewaySig", enc_bytes sig)].
Definition aggregate_body agg sig : dict string json := [("aggregate", enc_aggregate agg); ("keyperSig", enc_bytes sig)].
Definition decryption_share_body share sig : dict string json := [("share", enc_decryption_share share); ("keyperSig", enc_bytes sig)].
Definition result_body res sig : dict string json := [("result", enc_result res); ("resultPublisherSig", enc_bytes sig)].
Definition stalled_body stalled sig issued_at : dict string json :=
  [("stalled", JBool stalled); ("resultPublisherSig", enc_bytes sig); ("issuedAt", JInt issued_at)].

(** [HttpDataLayerClient], as an adapter of the port. *)
Definition http_layer : DataLayer store := {|
  dl_register_election s config sig :=
    '(s', out) ← client_post s 0 0 PostElection (election_body config sig);
    match out with Some d => eid ← body_bytes d "electionId"; Ok (s', eid) | None => Err TypeError end;
  dl_cancel_election s now eid sig :=
    the_store (client_post s now 0 (PostCancel (hex eid)) (cancel_body sig));
  dl_list_elections s f :=
    let admin_key := match f with Some (mkElectionFilter (Some k)) => Some ("0x" +:+ hex k) | _ => None end in
    d ← client_get s (ListElections admin_key); list_field (λ v, dec_bytes v None) d "electionIds";
  dl_get_election s eid :=
    d ← client_get s (GetElection (hex eid));
    v ← getitem d "config"; config ← dec_config py_repr v;
    c ← getitem d "cancelled";
    st ← json_get d "tallyStalled";
    f ← getitem d "finalizedKey"; fk ← _finalized_key f;
    Ok (mkElectionRecord config (py_bool c) fk (py_bool st));
  dl_get_dkg_submissions s eid := d ← client_get s (GetDkg (hex eid)); list_field dec_dkg_result d "submissions";
  dl_get_finalized_key s eid :=
    d ← client_get s (GetFinalized (hex eid)); v ← getitem d "finalizedKey"; _finalized_key v;
  dl_list_ballots s eid start count :=
    d ← client_get s (ListBallots (hex eid) (Some (pretty start)) (Some (pretty count))); list_field dec_row d "ballots";
  dl_count_ballots s eid := d ← client_get s (CountBallots (hex eid)); int_field d "count";
  dl_get_aggregate s eid := d ← client_get s (GetAggregate (hex eid)); opt_field dec_aggregate d "aggregate";
  dl_list_decryption_shares s eid :=
    d ← client_get s (ListShares (hex eid)); list_field dec_decryption_share d "shares";
  dl_get_result s eid := d ← client_get s (GetResult (hex eid)); opt_field dec_result d "result";
  dl_submit_dkg_result s eid pk pks sig :=
    the_store (client_post s 0 0 (PostDkg (hex eid)) (dkg_body pk pks sig));
  dl_submit_ballot s now eid ballot sig :=
    '(s', out) ← client_post s now 0 (PostBallot (hex eid)) (ballot_body ballot sig);
    match out with Some d => seq ← int_field d "sequenceNumber"; Ok (s', seq) | None => Err TypeError end;
  dl_submit_aggregate s now eid agg sig :=
    the_store (client_post s now 0 (PostAggregate (hex eid)) (aggregate_body agg sig));
  dl_submit_decryption_share s now eid share sig :=
    the_store (client_post s now 0 (PostShare (hex eid)) (decryption_share_body share sig));
  dl_publish_result s eid res sig :=
    the_store (client_post s 0 0 (PostResult (hex eid)) (result_body res sig));
  dl_set_tally_stalled s now now' eid stalled sig issued_at :=
    the_store (client_post s now now' (PostTallyStalled (hex eid)) (stalled_body stalled sig issued_at));
  dl_verifiability_tier s :=
    try_or (d ← client_get s Capability; int_field d "verifiabilityTier") 0;
|}.

End service.

(** * The client sees what the adapter answers *)

(** The exception the client raises for one of a read, and of a write, route. *)
Definition read_error (e : exn) : exn :=
  match e with
  | KeyError => KeyError
  | WriteAuthorizationError => WriteAuthorizationError
  | ImmutabilityError | QuorumConflictError => ImmutabilityError
  | VotingWindowError => VotingWindowError
  | _ => ValueError
  end.

Definition write_error (e : exn) : exn :=
  match e with
  | KeyError => KeyError
  | WriteAuthorizationError => WriteAuthorizationError
  | ImmutabilityError => ImmutabilityError
  | VotingWindowError => VotingWindowError
  | _ => ValueError
  end.

Definition map_err {A} (f : exn → exn) (r : result A) : result A :=
  match r with Ok a => Ok a | Err e => Err (f e) end.

Lemma raise_read e : _raise_for_status (read_status e) = Err (read_error e).
Proof. by destruct e. Qed.
Lemma raise_write e : _raise_for_status (write_status e) = Err (write_error e).
Proof. by destruct e. Qed.

(** A body has distinct keys and plain values. *)
Ltac solve_nodup := apply (bool_decide_unpack _); vm_compute; exact I.
Ltac solve_plain :=
  cbn [dict_values fmap list_fmap snd];
  repeat apply Forall_cons_2; try apply Forall_nil_2; cbn [snd];
  first [apply plain_bytes | apply plain_config | apply plain_aggregate | apply plain_share | apply plain_result
        | apply plain_ballot | apply plain_list, plain_bytes | constructor].

(** ** Fields of a value that was transported *)

Section fields.

Lemma same_get (o : dict string json) d k v : json_same (JObj o) d → dict_get o k = Some v →
  ∃ v', getitem d k = Ok v' ∧ json_same v v'.
Proof.
  intros Hd Hk. inversion Hd as [| | | | |? o' Ho]; subst. specialize (Ho k). rewrite Hk in Ho. cbn.
  destruct (dict_get o' k) as [v'|]; inversion Ho; subst. by exists v'.
Qed.

Lemma same_get_opt (o : dict string json) d k : json_same (JObj o) d →
  ∃ v', json_get d k = Ok v' ∧ json_same (get_or (JObj o) k JNull) v'.
Proof.
  intros Hd. inversion Hd as [| | | | |? o' Ho]; subst. eexists. split; [reflexivity|].
  apply get_or_same; [done|constructor].
Qed.

Lemma same_bytes o d k b : json_same (JObj o) d → dict_get o k = Some (enc_bytes b) → body_bytes d k = Ok b.
Proof.
  intros Hd Hk. destruct (same_get _ _ _ _ Hd Hk) as (v & Hv & Hs). unfold body_bytes. rewrite Hv, bind_Ok.
  rewrite <- (dec_bytes_same _ _ None Hs). by apply dec_enc_bytes.
Qed.

Lemma same_int o d k n : json_same (JObj o) d → dict_get o k = Some (JInt n) → int_field d k = Ok n.
Proof.
  intros Hd Hk. destruct (same_get _ _ _ _ Hd Hk) as (v & Hv & Hs). unfold int_field. rewrite Hv, bind_Ok.
  by inversion Hs.
Qed.

(** An array of encoded items, decoded item by item. *)
Lemma same_items {A} (enc : A → json) (dec : json → result A) v l : json_same (JArr (enc <$> l)) v →
  (∀ x w, x ∈ l → json_same (enc x) w → dec w = Ok x) → (items ← json_iter v; mapM dec items) = Ok l.
Proof.
  intros Hv Hdec. inversion Hv as [| | | |? l' Hl|]; subst. cbn [json_iter]. rewrite bind_Ok.
  apply mapM_Ok. clear Hv. revert l' Hl. induction l as [|x l IH]; intros l' Hl; inversion Hl; subst; constructor.
  - apply Hdec; [left|done].
  - apply IH; [|done]. intros z w Hz. apply Hdec. by right.
Qed.

Lemma same_list {A} (enc : A → json) (dec : json → result A) o d k l : json_same (JObj o) d →
  dict_get o k = Some (JArr (enc <$> l)) → (∀ x w, x ∈ l → json_same (enc x) w → dec w = Ok x) →
  list_field dec d k = Ok l.
Proof.
  intros Hd Hk Hdec. destruct (same_get _ _ _ _ Hd Hk) as (v & Hv & Hs). unfold list_field. rewrite Hv, bind_Ok.
  by apply (same_items enc).
Qed.

Lemma same_opt {A} (enc : A → json) (dec : json → result A) o d k a : json_same (JObj o) d →
  dict_get o k = Some (json_opt enc a) → (∀ x w, a = Some x → json_same (enc x) w → dec w = Ok x) →
  (∀ x, py_bool (enc x) = true) → opt_field dec d k = Ok a.
Proof.
  intros Hd Hk Hdec Hb. destruct (same_get _ _ _ _ Hd Hk) as (v & Hv & Hs). unfold opt_field. rewrite Hv, bind_Ok.
  destruct a as [x|]; cbn in Hs.
  - rewrite <- (py_bool_same _ _ Hs), Hb. by rewrite (Hdec x v).
  - by inversion Hs.
Qed.

Lemma same_finalized_key fk v : json_same (_finalized_key_json fk) v → _finalized_key v = Ok fk.
Proof.
  destruct fk as [[pk pks]|]; cbn [_finalized_key_json pk_election committee_pks]; intros Hs; [|by inversion Hs].
  pose proof Hs as Hs'. inversion Hs as [| | | | |? o' _]; subst. unfold _finalized_key.
  rewrite (same_bytes _ _ _ pk Hs') by done. rewrite bind_Ok.
  rewrite (same_list enc_bytes (λ p, dec_bytes p None) _ _ _ pks Hs'); [done|done|].
  intros x w _ Hw. rewrite <- (dec_bytes_same _ _ None Hw). by apply dec_enc_bytes.
Qed.

End fields.

(** ** Reads *)

Section agreement.
Context {store : Type} `{DataLayer store} (py_repr : json → string) (wire : json → json) (content_length : json → Z).

(** JSON text keeps a value up to the order of keys. *)
Hypothesis wire_same : ∀ v, plain v → json_same v (wire v).

Definition http : DataLayer store := http_layer py_repr wire content_length.

(** What the adapter stores has the sizes the codecs require. *)
Record well_sized_store (s : store) (eid : bytes) : Prop := {
  ws_config rec : dl_get_election s eid = Ok rec → valid_config (rec_config rec) ∧ len (election_id (rec_config rec)) = 32;
  ws_dkg l : dl_get_dkg_submissions s eid = Ok l → Forall dkg_result_wf l;
  ws_ballots start count l : dl_list_ballots s eid start count = Ok l → Forall (λ sb, ballot_wf (envelope sb)) l;
  ws_aggregate a : dl_get_aggregate s eid = Ok (Some a) → aggregate_wf a;
  ws_shares l : dl_list_decryption_shares s eid = Ok l → Forall share_wf l;
  ws_result r : dl_get_result s eid = Ok (Some r) → result_wf r;
}.

Lemma with_hex {A} eid (f : bytes → result A) : with_eid (hex eid) f = f eid.
Proof. unfold with_eid, bytes_fromhex. by rewrite fromhex_hex, bind_Ok. Qed.

(** A read: the route answers with the encoding of what the adapter returned,
    and the client decodes it. *)
Lemma client_read {A} (s : store) r (m : result A) (enc : A → dict string json) (dec : json → result A) :
  handle_get s r = (a ← m; Ok (JObj (enc a))) →
  (∀ a, m = Ok a → plain (JObj (enc a))) →
  (∀ a d, m = Ok a → json_same (JObj (enc a)) d → dec d = Ok a) →
  (d ← client_get wire s r; dec d) = map_err read_error m.
Proof.
  intros Hh Hp Hd. unfold client_get, answer_get. rewrite Hh. destruct m as [a|e]; cbn.
  - by apply Hd, wire_same, Hp.
  - by rewrite raise_read.
Qed.

Lemma plain_obj1 k v : plain v → plain (JObj [(k, v)]).
Proof. intros Hv. constructor; [apply NoDup_singleton|]. by repeat constructor. Qed.

Lemma plain_opt {A} (enc : A → json) o : (∀ a, plain (enc a)) → plain (json_opt enc o).
Proof. intros He. destruct o; [apply He|constructor]. Qed.

Lemma plain_finalized_key fk : plain (_finalized_key_json fk).
Proof.
  destruct fk as [[pk pks]|]; cbn; [|constructor]. constructor.
  - apply (bool_decide_unpack _). vm_compute. exact I.
  - repeat constructor; try apply plain_bytes. apply Forall_fmap, Forall_forall. intros x _. apply plain_bytes.
Qed.

Lemma plain_obj_list {A} k (enc : A → json) l : (∀ a, plain (enc a)) → plain (JObj [(k, JArr (enc <$> l))]).
Proof. intros He. apply plain_obj1, plain_list, He. Qed.

Lemma plain_row sb : plain (ballot_row sb).
Proof.
  constructor; [apply (bool_decide_unpack _); vm_compute; exact I|].
  repeat apply Forall_cons_2; [apply plain_ballot|constructor|apply plain_opt; constructor|apply Forall_nil_2].
Qed.

Lemma dec_row_same sb w : ballot_wf (envelope sb) → json_same (ballot_row sb) w → dec_row w = Ok sb.
Proof.
  intros Hb Hw. unfold dec_row.
  destruct (same_get _ _ "sequenceNumber" (JInt (sequence_number sb)) Hw) as (v1 & E1 & S1); [done|].
  destruct (same_get _ _ "ballot" (enc_ballot (envelope sb)) Hw) as (v2 & E2 & S2); [done|].
  destruct (same_get_opt _ _ "submittedAt" Hw) as (v3 & E3 & S3).
  rewrite E1, bind_Ok. rewrite <- (py_int_same _ _ S1). cbn [py_int]. rewrite bind_Ok, E2, bind_Ok.
  rewrite <- (dec_ballot_same _ _ S2), (dec_enc_ballot _ Hb), bind_Ok, E3, bind_Ok.
  change (get_or _ "submittedAt" JNull) with (json_opt JInt (submitted_at sb)) in S3.
  destruct sb as [seq env [t|]]; cbn [json_opt submitted_at] in S3; inversion S3; subst; done.
Qed.

Lemma http_get_election s eid : well_sized_store s eid →
  @dl_get_election _ http s eid = map_err read_error (dl_get_election s eid).
Proof.
  intros Hws. cbn [http http_layer dl_get_election].
  apply (client_read _ _ _ (λ rec, [("config", enc_config (rec_config rec)); ("cancelled", JBool (rec_cancelled rec));
    ("tallyStalled", JBool (rec_tally_stalled rec)); ("finalizedKey", _finalized_key_json (rec_finalized_key rec))])).
  - cbn [handle_get]. by rewrite with_hex.
  - intros rec _. constructor; [apply (bool_decide_unpack _); vm_compute; exact I|].
    repeat apply Forall_cons_2; [apply plain_config|constructor|constructor|apply plain_finalized_key|apply Forall_nil_2].
  - intros rec d Hrec Hd. destruct (ws_config _ _ Hws rec Hrec) as [Hc Hl].
    destruct (same_get _ _ "config" (enc_config (rec_config rec)) Hd) as (v1 & E1 & S1); [done|].
    destruct (same_get _ _ "cancelled" (JBool (rec_cancelled rec)) Hd) as (v2 & E2 & S2); [done|].
    destruct (same_get_opt _ _ "tallyStalled" Hd) as (v3 & E3 & S3).
    destruct (same_get _ _ "finalizedKey" (_finalized_key_json (rec_finalized_key rec)) Hd) as (v4 & E4 & S4); [done|].
    rewrite E1, bind_Ok, <- (dec_config_same py_repr _ _ S1 (enc_config_text _)), dec_enc_config, bind_Ok by done.
    rewrite E2, bind_Ok, E3, bind_Ok, E4, bind_Ok, (same_finalized_key _ _ S4), bind_Ok.
    rewrite <- (py_bool_same _ _ S2), <- (py_bool_same _ _ S3). by destruct rec.
Qed.

(** Reads of a list, and of an optional artifact. *)
Lemma read_list {A} s r k (m : result (list A)) (enc : A → json) (dec : json → result A) :
  handle_get s r = (l ← m; Ok (JObj [(k, JArr (enc <$> l))])) → (∀ a, plain (enc a)) →
  (∀ l x w, m = Ok l → x ∈ l → json_same (enc x) w → dec w = Ok x) →
  (d ← client_get wire s r; list_field dec d k) = map_err read_error m.
Proof.
  intros Hh Hp Hdec. apply (client_read _ _ _ (λ l, [(k, JArr (enc <$> l))])); [done|..].
  - intros l _. by apply plain_obj_list.
  - intros l d Hl Hd. apply (same_list enc _ _ _ _ _ Hd); [by cbn; rewrite decide_True|]. intros x w. by apply Hdec.
Qed.

Lemma read_opt {A} s r k (m : result (option A)) (enc : A → json) (dec : json → result A) :
  handle_get s r = (o ← m; Ok (JObj [(k, json_opt enc o)])) → (∀ a, plain (enc a)) → (∀ a, py_bool (enc a) = true) →
  (∀ x w, m = Ok (Some x) → json_same (enc x) w → dec w = Ok x) →
  (d ← client_get wire s r; opt_field dec d k) = map_err read_error m.
Proof.
  intros Hh Hp Hb Hdec. apply (client_read _ _ _ (λ o, [(k, json_opt enc o)])); [done|..].
  - intros o _. by apply plain_obj1, plain_opt.
  - intros o d Ho Hd. apply (same_opt enc _ _ _ _ _ Hd); [by cbn; rewrite decide_True| |done].
    intros x w ->. by apply Hdec.
Qed.

Lemma Forall_in {A} (P : A → Prop) l x : Forall P l → x ∈ l → P x.
Proof. rewrite Forall_forall. auto. Qed.

Lemma http_get_finalized_key s eid :
  @dl_get_finalized_key _ http s eid = map_err read_error (dl_get_finalized_key s eid).
Proof.
  apply (client_read _ _ _ (λ fk, [("finalizedKey", _finalized_key_json fk)])).
  - cbn [handle_get]. by rewrite with_hex.
  - intros fk _. apply plain_obj1, plain_finalized_key.
  - intros fk d _ Hd. destruct (same_get _ _ "finalizedKey" (_finalized_key_json fk) Hd) as (v & -> & Hv); [done|].
    rewrite bind_Ok. by apply same_finalized_key.
Qed.

Lemma http_list_ballots s eid start count : well_sized_store s eid → 0 <= start → 0 <= count →
  @dl_list_ballots _ http s eid start count
  = map_err read_error (dl_list_ballots s eid start (Z.min count MAX_BALLOT_PAGE)).
Proof.
  intros Hws Hstart Hcount. apply (read_list _ _ _ _ ballot_row).
  - cbn [handle_get arg_int]. rewrite (proj1 (py_int_pretty start Hstart)), (proj1 (py_int_pretty count Hcount)), !bind_Ok.
    by rewrite with_hex.
  - apply plain_row.
  - intros l x w Hl Hx. apply dec_row_same. by apply (Forall_in _ _ _ (ws_ballots _ _ Hws _ _ l Hl)).
Qed.

Lemma http_count_ballots s eid : @dl_count_ballots _ http s eid = map_err read_error (dl_count_ballots s eid).
Proof.
  apply (client_read _ _ _ (λ n, [("count", JInt n)])).
  - cbn [handle_get]. by rewrite with_hex.
  - intros n _. apply plain_obj1. constructor.
  - intros n d _ Hd. by apply (same_int _ _ _ _ Hd).
Qed.

Lemma http_list_elections s f : f = None ∨ (∃ k, f = Some (mkElectionFilter (Some k))) →
  @dl_list_elections _ http s f = map_err read_error (dl_list_elections s f).
Proof.
  intros Hf. apply (read_list _ _ _ _ enc_bytes).
  - cbn [handle_get]. destruct Hf as [->|[k ->]]; [done|].
    assert (String.eqb ("0x" +:+ hex k) "" = false) as -> by done.
    change (JStr ("0x" +:+ hex k)) with (enc_bytes k). by rewrite dec_enc_bytes, !bind_Ok.
  - apply plain_bytes.
  - intros l x w _ _ Hw. rewrite <- (dec_bytes_same _ _ None Hw). by apply dec_enc_bytes.
Qed.

(** C36: Through HTTP a client reads from a well-sized store exactly what the
    adapter answers in process, except that ballot pages are cut at a thousand
    rows, that a quorum conflict arrives as an immutability error and that
    exceptions without a status of their own arrive as a [ValueError]. *)
Theorem http_reads_agree s eid start count : well_sized_store s eid → 0 <= start → 0 <= count →
  @dl_get_election _ http s eid = map_err read_error (dl_get_election s eid)
  ∧ @dl_get_dkg_submissions _ http s eid = map_err read_error (dl_get_dkg_submissions s eid)
  ∧ @dl_get_finalized_key _ http s eid = map_err read_error (dl_get_finalized_key s eid)
  ∧ @dl_list_ballots _ http s eid start count
    = map_err read_error (dl_list_ballots s eid start (Z.min count MAX_BALLOT_PAGE))
  ∧ @dl_count_ballots _ http s eid = map_err read_error (dl_count_ballots s eid)
  ∧ @dl_get_aggregate _ http s eid = map_err read_error (dl_get_aggregate s eid)
  ∧ @dl_list_decryption_shares _ http s eid = map_err read_error (dl_list_decryption_shares s eid)
  ∧ @dl_get_result _ http s eid = map_err read_error (dl_get_result s eid)
  ∧ (∀ f, f = None ∨ (∃ k, f = Some (mkElectionFilter (Some k))) →
       @dl_list_elections _ http s f = map_err read_error (dl_list_elections s f)).
Proof.
  intros Hws Hstart Hcount.
  split_and!; eauto using http_get_election, http_get_finalized_key, http_list_ballots, http_count_ballots,
    http_list_elections.
  - apply (read_list _ _ _ _ enc_dkg_result); [cbn [handle_get]; by rewrite with_hex|apply plain_dkg_result|].
    intros l x w Hl Hx Hw. rewrite <- (dec_dkg_result_same _ _ Hw).
    by apply dec_enc_dkg_result, (Forall_in _ _ _ (ws_dkg _ _ Hws l Hl)).
  - apply (read_opt _ _ _ _ enc_aggregate); [cbn [handle_get]; by rewrite with_hex|apply plain_aggregate|done|].
    intros x w Ha Hw. rewrite <- (dec_aggregate_same _ _ Hw). by apply dec_enc_aggregate, (ws_aggregate _ _ Hws).
  - apply (read_list _ _ _ _ enc_decryption_share); [cbn [handle_get]; by rewrite with_hex|apply plain_share|].
    intros l x w Hl Hx Hw. rewrite <- (dec_share_same _ _ Hw).
    by apply dec_enc_share, (Forall_in _ _ _ (ws_shares _ _ Hws l Hl)).
  - apply (read_opt _ _ _ _ enc_result); [cbn [handle_get]; by rewrite with_hex|apply plain_result|done|].
    intros x w Hr Hw. rewrite <- (dec_result_same _ _ Hw). by apply dec_enc_result, (ws_result _ _ Hws).
Qed.

(** ** Paging *)

Lemma http_read_pages s eid fuel total start out l : well_sized_store s eid → 0 <= start →
  @read_pages _ http fuel s eid total start out = Some (Ok l) ↔ read_pages fuel s eid total start out = Some (Ok l).
Proof.
  intros Hws. revert start out. induction fuel as [|fuel IH]; intros start out Hstart; cbn [read_pages]; [done|].
  destruct (Z.ltb_spec start total) as [Hlt|_]; [|done].
  rewrite http_list_ballots by (unfold BALLOT_PAGE; lia || done).
  replace (Z.min (Z.min BALLOT_PAGE (total - start)) MAX_BALLOT_PAGE) with (Z.min BALLOT_PAGE (total - start))
    by (unfold BALLOT_PAGE, MAX_BALLOT_PAGE; lia).
  destruct (dl_list_ballots s eid start _) as [[|b page]|e]; cbn [map_err]; [done| |done].
  apply IH. unfold len. lia.
Qed.

(** Over HTTP, whose pages hold at most a thousand rows, reading all ballots
    gives exactly the list it gives in process: nothing is cut off. *)
Theorem http_read_all_ballots s eid l : well_sized_store s eid →
  @read_all_ballots _ http s eid = Ok l ↔ read_all_ballots s eid = Ok l.
Proof.
  intros Hws. unfold read_all_ballots. rewrite http_count_ballots.
  destruct (dl_count_ballots s eid) as [total|e]; cbn [map_err]; [|done]. rewrite !bind_Ok.
  pose proof (http_read_pages s eid (Z.to_nat total) total 0 []) as Hp.
  assert (Hd : ∀ r : option (result (list StoredBallot)),
    (out ← default (Err RuntimeError) r;
     _ ← raise_if (negb (bool_decide (sequence_number <$> out = seqZ 0 total))) IncompleteBallotRead; Ok out) = Ok l
    ↔ r = Some (Ok l) ∧ sequence_number <$> l = seqZ 0 total).
  { intros [[out|e]|]; cbn; [|split; [done|by intros [? _]]..]. unfold raise_if.
    case_bool_decide as Hs; cbn; split.
    - by intros <-%Ok_inj.
    - by intros [[= ->] _].
    - done.
    - by intros [[= ->] ?]. }
  rewrite !Hd, Hp by done. done.
Qed.

(** ** Writes *)

(** A write whose body is over the limit fails. *)
Definition within_limit {A} (fields : dict string json) (m : result A) : result A :=
  if MAX_CONTENT_LENGTH <? content_length (JObj fields) then Err ValueError else m.

(** A body as it arrives. *)
Definition arrives (fields : dict string json) (w : json) : Prop := json_same (JObj fields) w.

Lemma body_arrives o : NoDup (dict_keys o) → Forall plain (dict_values o) → arrives o (wire (JObj o)).
Proof. intros Hn Hp. apply wire_same. by constructor. Qed.

(** A write: the route decodes its body to the arguments the client was given. *)
Lemma client_write s now now' route o (m : result store) : NoDup (dict_keys o) → Forall plain (dict_values o) →
  (∀ w, arrives o w → handle_post py_repr s now now' (route w) = (s' ← m; Ok (s', None))) →
  the_store (client_post py_repr wire content_length s now now' route o) = within_limit o (map_err write_error m).
Proof.
  intros Hn Hp Hh. unfold client_post, within_limit, answer_post. destruct (_ <? _); [done|].
  rewrite Hh by by apply body_arrives. destruct m as [s'|e]; cbn; [done|]. by rewrite raise_write.
Qed.

(** A write that answers with one field. *)
Lemma client_write_out {A} s now now' route o k (m : result (store * A)) (enc : A → json) (dec : json → result A) :
  NoDup (dict_keys o) → Forall plain (dict_values o) →
  (∀ w, arrives o w → handle_post py_repr s now now' (route w) = ('(s', x) ← m; Ok (s', Some (JObj [(k, enc x)])))) →
  (∀ x, plain (enc x)) → (∀ x d, json_same (JObj [(k, enc x)]) d → dec d = Ok x) →
  ('(s', out) ← client_post py_repr wire content_length s now now' route o;
   match out with Some d => x ← dec d; Ok (s', x) | None => Err TypeError end) = within_limit o (map_err write_error m).
Proof.
  intros Hn Ho Hh Hp Hdec. unfold client_post, within_limit, answer_post. destruct (_ <? _); [done|].
  rewrite Hh by by apply body_arrives. destruct m as [[s' x]|e]; cbn.
  - rewrite (Hdec x); [done|]. by apply wire_same, plain_obj1.
  - by rewrite raise_write.
Qed.

Lemma fromhex_hex_Ok eid : bytes_fromhex (hex eid) = Ok eid.
Proof. unfold bytes_fromhex. by rewrite fromhex_hex. Qed.

(** A decoded field of a body. *)
Lemma arrived_field {A B} o w (dec : json → result A) k v a (f : A → result B) : arrives o w →
  dict_get o k = Some v → (∀ w, json_same v w → dec w = Ok a) → (v ← getitem w k; x ← dec v; f x) = f a.
Proof.
  intros Ho Hk Hdec. destruct (same_get _ _ _ _ Ho Hk) as (v' & -> & Hw). by rewrite bind_Ok, (Hdec v').
Qed.

Lemma http_register s c sig : valid_config c → len (election_id c) = 32 →
  @dl_register_election _ http s c sig
  = within_limit (election_body c sig) (map_err write_error (dl_register_election s c sig)).
Proof.
  intros Hc Hl. apply (client_write_out _ _ _ _ _ "electionId" _ enc_bytes); [solve_nodup|solve_plain|..].
  - intros w Hw. cbn [handle_post]. rewrite (arrived_field _ _ _ _ (enc_config c) c _ Hw); [|done|].
    + rewrite (same_bytes _ _ _ sig Hw) by done. by rewrite bind_Ok.
    + intros v Hv. rewrite <- (dec_config_same py_repr _ _ Hv (enc_config_text _)). by apply dec_enc_config.
  - apply plain_bytes.
  - intros x d Hd. by apply (same_bytes _ _ _ _ Hd).
Qed.

Lemma http_submit_dkg s eid pk pks sig :
  @dl_submit_dkg_result _ http s eid pk pks sig
  = within_limit (dkg_body pk pks sig) (map_err write_error (dl_submit_dkg_result s eid pk pks sig)).
Proof.
  apply client_write; [solve_nodup|solve_plain|]. intros w Hw. cbn [handle_post].
  rewrite fromhex_hex_Ok, bind_Ok, (same_bytes _ _ "pkElection" pk Hw), bind_Ok by done.
  rewrite (same_list enc_bytes (λ p, dec_bytes p None) _ _ _ pks Hw); [|done|].
  - rewrite bind_Ok, (same_bytes _ _ _ sig Hw) by done. by rewrite bind_Ok.
  - intros x v _ Hv. rewrite <- (dec_bytes_same _ _ None Hv). by apply dec_enc_bytes.
Qed.

Lemma http_submit_ballot s now eid b sig : ballot_wf b →
  @dl_submit_ballot _ http s now eid b sig
  = within_limit (ballot_body b sig) (map_err write_error (dl_submit_ballot s now eid b sig)).
Proof.
  intros Hb. apply (client_write_out _ _ _ _ _ "sequenceNumber" _ JInt).
  - unfold ballot_body. case_bool_decide; solve_nodup.
  - unfold ballot_body. case_bool_decide; cbn [dict_values fmap list_fmap snd];
      repeat apply Forall_cons_2; try apply Forall_nil_2; cbn [snd]; apply plain_ballot || apply plain_bytes.
  - intros w Hw. cbn [handle_post]. destruct (same_get_opt _ _ "gatewaySig" Hw) as (g & -> & Hg). rewrite bind_Ok.
    assert ((if py_bool g then dec_bytes g None else Ok []) = Ok sig) as ->.
    { rewrite <- (py_bool_same _ _ Hg), <- (dec_bytes_same _ _ None Hg). unfold ballot_body.
      case_bool_decide as Hsig; [by subst|]. change (get_or _ "gatewaySig" JNull) with (enc_bytes sig).
      by rewrite dec_enc_bytes. }
    rewrite bind_Ok, fromhex_hex_Ok, bind_Ok. rewrite (arrived_field _ _ dec_ballot _ (enc_ballot b) b _ Hw); [done|done|].
    intros v Hv. rewrite <- (dec_ballot_same _ _ Hv). by apply dec_enc_ballot.
  - constructor.
  - intros x d Hd. by apply (same_int _ _ _ _ Hd).
Qed.

(** A write whose body holds an encoded artifact and the bytes of a signature. *)
Lemma write_artifact {A} s now route o (dec : json → result A) k v a k' sig (put : A → bytes → result store) :
  NoDup (dict_keys o) → Forall plain (dict_values o) → dict_get o k = Some v → dict_get o k' = Some (enc_bytes sig) →
  (∀ w, json_same v w → dec w = Ok a) →
  (∀ w, handle_post py_repr s now 0 (route w)
        = (v ← getitem w k; x ← dec v; g ← body_bytes w k'; s' ← put x g; Ok (s', None))) →
  the_store (client_post py_repr wire content_length s now 0 route o) = within_limit o (map_err write_error (put a sig)).
Proof.
  intros Hn Hp Hk Hk' Hdec Hroute. apply client_write; [done|done|]. intros w Hw.
  rewrite Hroute, (arrived_field _ _ _ _ v a _ Hw Hk Hdec), (same_bytes _ _ _ sig Hw Hk'). by rewrite bind_Ok.
Qed.

Lemma http_set_tally_stalled s now now' eid stalled sig issued_at :
  @dl_set_tally_stalled _ http s now now' eid stalled sig issued_at
  = within_limit (stalled_body stalled sig issued_at)
      (map_err write_error (dl_set_tally_stalled s now now' eid stalled sig issued_at)).
Proof.
  apply client_write; [solve_nodup|solve_plain|]. intros w Hw. cbn [handle_post]. rewrite fromhex_hex_Ok, bind_Ok.
  destruct (same_get _ _ "stalled" (JBool stalled) Hw) as (v & -> & Hv); [done|].
  destruct (same_get _ _ "issuedAt" (JInt issued_at) Hw) as (v' & -> & Hv'); [done|].
  rewrite bind_Ok, (same_bytes _ _ _ sig Hw), !bind_Ok by done. by inversion Hv; inversion Hv'.
Qed.

(** C37: A write through HTTP with well-sized arguments does to the store what the
    adapter's own write does and returns what it returns, provided its body is
    within the limit of two mebibytes; exceptions arrive as for reads, except
    that a quorum conflict has no status of its own and arrives as a [ValueError]. *)
Theorem http_writes_agree s now now' eid sig :
  (∀ c, valid_config c → len (election_id c) = 32 →
     @dl_register_election _ http s c sig
     = within_limit (election_body c sig) (map_err write_error (dl_register_election s c sig)))
  ∧ @dl_cancel_election _ http s now eid sig
    = within_limit (cancel_body sig) (map_err write_error (dl_cancel_election s now eid sig))
  ∧ (∀ pk pks, @dl_submit_dkg_result _ http s eid pk pks sig
       = within_limit (dkg_body pk pks sig) (map_err write_error (dl_submit_dkg_result s eid pk pks sig)))
  ∧ (∀ b, ballot_wf b → @dl_submit_ballot _ http s now eid b sig
       = within_limit (ballot_body b sig) (map_err write_error (dl_submit_ballot s now eid b sig)))
  ∧ (∀ a, aggregate_wf a → @dl_submit_aggregate _ http s now eid a sig
       = within_limit (aggregate_body a sig) (map_err write_error (dl_submit_aggregate s now eid a sig)))
  ∧ (∀ sh, share_wf sh → @dl_submit_decryption_share _ http s now eid sh sig
       = within_limit (decryption_share_body sh sig) (map_err write_error (dl_submit_decryption_share s now eid sh sig)))
  ∧ (∀ r, result_wf r → @dl_publish_result _ http s eid r sig
       = within_limit (result_body r sig) (map_err write_error (dl_publish_result s eid r sig)))
  ∧ (∀ stalled issued_at, @dl_set_tally_stalled _ http s now now' eid stalled sig issued_at
       = within_limit (stalled_body stalled sig issued_at)
           (map_err write_error (dl_set_tally_stalled s now now' eid stalled sig issued_at))).
Proof.
  split_and!; auto using http_register, http_submit_dkg, http_submit_ballot, http_set_tally_stalled.
  - apply client_write; [solve_nodup|solve_plain|]. intros w Hw. cbn [handle_post].
    rewrite fromhex_hex_Ok, bind_Ok, (same_bytes _ _ _ sig Hw) by done. by rewrite bind_Ok.
  - intros a Ha. apply (write_artifact _ _ _ _ dec_aggregate "aggregate" (enc_aggregate a) a "keyperSig" sig
      (λ a g, dl_submit_aggregate s now eid a g)); [solve_nodup|solve_plain|done|done|..].
    + intros w Hw. rewrite <- (dec_aggregate_same _ _ Hw). by apply dec_enc_aggregate.
    + intros w. cbn [handle_post]. by rewrite fromhex_hex_Ok, bind_Ok.
  - intros sh Hsh. apply (write_artifact _ _ _ _ dec_decryption_share "share" (enc_decryption_share sh) sh "keyperSig" sig
      (λ a g, dl_submit_decryption_share s now eid a g)); [solve_nodup|solve_plain|done|done|..].
    + intros w Hw. rewrite <- (dec_share_same _ _ Hw). by apply dec_enc_share.
    + intros w. cbn [handle_post]. by rewrite fromhex_hex_Ok, bind_Ok.
  - intros r Hr. apply (write_artifact _ _ _ _ dec_result "result" (enc_result r) r "resultPublisherSig" sig
      (λ a g, dl_publish_result s eid a g)); [solve_nodup|solve_plain|done|done|..].
    + intros w Hw. rewrite <- (dec_result_same _ _ Hw). by apply dec_enc_result.
    + intros w. cbn [handle_post]. by rewrite fromhex_hex_Ok, bind_Ok.
Qed.

End agreement.

(** * The database behind HTTP

    The database adapter decodes the rows it reads, so every store it can be
    given, also one that others wrote to, answers with well-sized artifacts. *)

Section database.
Context `{CryptoLaws} `{EthAccount} `{Abi} (float_repr : Z → Z → string) (py_repr : json → string) `{Postgres}.

#[local] Existing Instance postgres_layer.

Lemma as_codec_error_Ok {A} (m : result A) a : as_codec_error m = Ok a → m = Ok a.
Proof. by destruct m. Qed.

Lemma dec_config_valid v c : dec_config py_repr v = Ok c → valid_config c ∧ len (election_id c) = 32.
Proof.
  unfold dec_config. intros Hc. inv_ok. apply as_codec_error_Ok in Hc. inv_ok. subst c.
  cbn [election_id threshold]. split; [|by eapply dec_bytes_size].
  split; cbn [threshold]; match goal with H : _ = Ok ?u |- _ = Ok tt => by destruct u end.
Qed.

Lemma dict_set_values {K V} `{EqDecision K} (P : V → Prop) (d : dict K V) k v :
  Forall P (dict_values d) → P v → Forall P (dict_values (dict_set d k v)).
Proof.
  intros Hd Hv. induction d as [|[k' v'] d IH]; cbn; [by repeat constructor|].
  apply Forall_cons in Hd as [Hv' Hd]. case_decide; constructor; auto.
Qed.

(** The groups of the tallied votes hold the artifacts that were counted. *)
Lemma group_counts_wf eid rows g g' : Forall (λ e : AggregateArtifact * gset Z, aggregate_wf e.1) (dict_values g) →
  foldM (λ g '(i, j), agg ← dec_aggregate j; aggregate_group_step eid g (i, agg)) rows g = Ok g' →
  Forall (λ e, aggregate_wf e.1) (dict_values g').
Proof.
  revert g. induction rows as [|[i j] rows IH]; intros g Hg Hf; cbn [foldM] in Hf; [by inv_ok; subst|].
  apply bind_Ok_inv in Hf as (g1 & Hs & Hf). apply bind_Ok_inv in Hs as (a & Ha & Hs). apply (IH g1); [|done].
  unfold aggregate_group_step in Hs. apply bind_Ok_inv in Hs as (k & _ & Hs).
  destruct (default (a, ∅) (dict_get g k)) as [first kps] eqn:Ed. apply Ok_inj in Hs as <-.
  apply dict_set_values; [done|]. cbn [fst]. destruct (dict_get g k) as [e|] eqn:Ek; cbn in Ed.
  - subst e. apply dict_get_elem in Ek. rewrite Forall_forall in Hg. apply (Hg (first, kps)).
    by apply (list_elem_of_fmap_2 snd) in Ek.
  - injection Ed as <- _. by eapply dec_aggregate_wf.
Qed.

Lemma mapM_results {A B} (f : A → result B) (P : B → Prop) l k :
  (∀ x y, f x = Ok y → P y) → mapM f l = Ok k → Forall P k.
Proof. intros Hf Hk%mapM_Ok. induction Hk; constructor; eauto. Qed.

Lemma postgres_well_sized p eid : @well_sized_store _ (postgres_layer float_repr py_repr) p eid.
Proof.
  constructor; cbn.
  - intros rec Hr. unfold pg.get_election in Hr. inv_ok. subst rec. by eapply dec_config_valid.
  - intros l. apply mapM_results. intros x y. apply dec_dkg_result_wf.
  - intros start count l Hl. unfold pg.list_ballots in Hl. inv_ok. revert Hl. apply mapM_results.
    intros [seq [j t]] y Hy. inv_ok. subst y. by eapply dec_ballot_wf.
  - intros a Ha. unfold pg.get_aggregate, pg._aggregate_group_counts, resolve_unique in Ha. inv_ok.
    match goal with Hg : foldM _ _ _ = Ok ?g |- _ => apply group_counts_wf in Hg as Hwf; [|constructor] end.
    match goal with Hh : fst <$> head ?l = Some a |- _ => destruct l as [|e l'] eqn:El; [done|injection Hh as <-] end.
    rewrite Forall_forall in Hwf. apply Hwf.
    assert (He : e ∈ e :: l') by left. rewrite <- El in He. by apply list_elem_of_filter in He as [_ ?].
  - intros l. apply mapM_results. intros x y. apply dec_share_wf.
  - intros r Hr. unfold pg.get_result in Hr. destruct (dict_get _ _) as [j|]; [|done]. inv_ok.
    subst. by eapply dec_result_wf.
Qed.
End database.

(** * The hypotheses hold *)

Module http_example.
Import prefix_abi naming_account gateway_example election_example newest_first postgres_example.
#[local] Existing Instance concrete_crypto.
#[local] Existing Instance newest_first.postgres.
Definition layer : DataLayer PostgresStore := postgres_layer float_text (λ _, "").

(** A whole election in the database, read over a transport that keeps the text. *)
Lemma http_reads_agree_witness :
  @dl_get_election _ (@http _ layer (λ _, "") id (λ _, 100)) final_postgres eid
  = map_err read_error (@dl_get_election _ layer final_postgres eid).
Proof.
  refine (proj1 (@http_reads_agree _ layer (λ _, "") id (λ _, 100) plain_refl final_postgres eid 0 10 _ _ _)).
  - apply postgres_well_sized.
  - lia.
  - lia.
Defined.

Lemma http_read_all_ballots_witness : ∃ l,
  @read_all_ballots _ (@http _ layer (λ _, "") id (λ _, 100)) final_postgres eid = Ok l ∧ length l = 2%nat.
Proof.
  destruct (@read_all_ballots _ layer final_postgres eid) as [l|e] eqn:E;
    [|exfalso; apply (f_equal is_ok) in E; vm_compute in E; discriminate].
  exists l. split.
  - apply (@http_read_all_ballots _ layer (λ _, "") id (λ _, 100) plain_refl final_postgres eid l); [|done].
    apply postgres_well_sized.
  - apply (f_equal (λ r, match r with Ok l => length l | Err _ => 0%nat end)) in E. rewrite <- E. vm_compute. reflexivity.
Defined.

Lemma http_writes_agree_witness :
  @dl_submit_ballot _ (@http _ layer (λ _, "") id (λ _, 100)) final_postgres 151 eid (envelope admission_example.alice2) []
  = map_err write_error (@dl_submit_ballot _ layer final_postgres 151 eid (envelope admission_example.alice2) []).
Proof.
  refine (proj1 (proj2 (proj2 (proj2 (@http_writes_agree _ layer (λ _, "") id (λ _, 100) plain_refl
    final_postgres 151 0 eid [])))) _ _).
  apply (dec_ballot_wf (enc_ballot (envelope admission_example.alice2))). vm_compute. reflexivity.
Defined.

End http_example.
