(* ===== verification/Relay.v ===== *)
(** The coordinator's write relay (services/coordinator/coordinator.py,
    [build_coordinator_app]) and the client through which keypers submit
    ([CoordinatorClient]). *)

From S2P Require Import Prelude Params Primality Field Points Transcript Types Config Codecs WriteAuth Quorum DataLayer DataLayerSafety Port Postgres Jsonb Schnorr Ballot Admission Aggregation Gateway Keyper Tally PostgresRefines Bootstrap Http KeyperServer HttpPort.

(** * The service *)

Inductive relayed :=
| DkgResult (body : json)
| DecryptionShare (body : json)
| Aggregate (body : json).

(** [_auth]: [Ok] lets a request in. *)
Definition relay_auth (api_token : option string) (header : string) : result unit :=
  match api_token with
  | None => Err (HTTPException 503)
  | Some t =>
      if String.eqb t "" then Err (HTTPException 503) else
      let presented := if String.prefix "Bearer " header then String.substring 7 (String.length header - 7) header else "" in
      raise_if (negb (tokens_equal (TStr presented) (TStr t))) (HTTPException 401)
  end.

Section relay.
Context {store : Type} `{DataLayer store}.

Definition relay_route (s : store) (now : Z) (r : relayed) : result store :=
  match r with
  | DkgResult body =>
      eid ← body_bytes body "electionId";
      pk ← body_bytes body "pkElection";
      pks ← list_field (λ p, dec_bytes p None) body "committeePKs";
      sig ← body_bytes body "keyperSig";
      dl_submit_dkg_result s eid pk pks sig
  | DecryptionShare body =>
      eid ← body_bytes body "electionId";
      v ← getitem body "share"; share ← dec_decryption_share v;
      sig ← body_bytes body "keyperSig";
      dl_submit_decryption_share s now eid share sig
  | Aggregate body =>
      eid ← body_bytes body "electionId";
      v ← getitem body "aggregate"; agg ← dec_aggregate v;
      sig ← body_bytes body "keyperSig";
      dl_submit_aggregate s now eid agg sig
  end.

(** The status of a request, with the store after it; the error handlers are
    those of the data-layer service's write routes. *)
Definition relay_answer (api_token : option string) (header : string) (s : store) (now : Z) (too_large : bool) (r : relayed)
  : store * Z :=
  match relay_auth api_token header with
  | Err (HTTPException code) => (s, code)
  | Err _ => (s, 500)
  | Ok _ =>
      if too_large then (s, 413) else
      match relay_route s now r with Ok s' => (s', 204) | Err e => (s, write_status e) end
  end.

(** * The client *)

Context (wire : json → json) (content_length : json → Z).
Context (api_token : option string).

(** [CoordinatorClient._post] with the client's [token]. *)
Definition relay_post (token : string) (s : store) (now : Z) (route : json → relayed) (fields : dict string json) : result store :=
  let '(s', status) := relay_answer api_token ("Bearer " +:+ token) s now
    (MAX_CONTENT_LENGTH <? content_length (JObj fields)) (route (wire (JObj fields))) in
  _ ← raise_if ((400 <=? status) && (status <? 600)) (HTTPException status);
  Ok s'.

Definition relay_dkg_fields (eid pk : bytes) (pks : list bytes) (sig : bytes) : dict string json :=
  [("electionId", enc_bytes eid); ("pkElection", enc_bytes pk); ("committeePKs", JArr (enc_bytes <$> pks)); ("keyperSig", enc_bytes sig)].
Definition relay_share_fields (eid : bytes) (share : DecryptionShareEnvelope) (sig : bytes) : dict string json :=
  [("electionId", enc_bytes eid); ("share", enc_decryption_share share); ("keyperSig", enc_bytes sig)].
Definition relay_aggregate_fields (eid : bytes) (agg : AggregateArtifact) (sig : bytes) : dict string json :=
  [("electionId", enc_bytes eid); ("aggregate", enc_aggregate agg); ("keyperSig", enc_bytes sig)].

Definition relay_submit_dkg_result (token : string) (s : store) (now : Z) (eid pk : bytes) (pks : list bytes) (sig : bytes) : result store :=
  relay_post token s now DkgResult (relay_dkg_fields eid pk pks sig).
Definition relay_submit_decryption_share (token : string) (s : store) (now : Z) (eid : bytes) (share : DecryptionShareEnvelope) (sig : bytes)
  : result store := relay_post token s now DecryptionShare (relay_share_fields eid share sig).
Definition relay_submit_aggregate (token : string) (s : store) (now : Z) (eid : bytes) (agg : AggregateArtifact) (sig : bytes)
  : result store := relay_post token s now Aggregate (relay_aggregate_fields eid agg sig).

(** * Relayed writes *)

Hypothesis wire_same : ∀ v, plain v → json_same v (wire v).

(** What the client sees of an exception of the data layer. *)
Definition relay_error (e : exn) : exn := HTTPException (write_status e).

(** The outcome of a write of [fields] through a relay that lets the client in. *)
Definition relay_outcome (fields : dict string json) (m : result store) : result store :=
  if MAX_CONTENT_LENGTH <? content_length (JObj fields) then Err (HTTPException 413) else map_err relay_error m.

Lemma substring_drop p s : String.substring (String.length p) (String.length s) (p +:+ s) = s.
Proof.
  assert (H0 : ∀ s, String.substring 0 (String.length s) s = s).
  { clear. intros s. induction s as [|c s IH]; [done|]. cbn [String.length String.substring]. by rewrite IH. }
  induction p as [|c p IH]; [apply H0|exact IH].
Qed.

Lemma prefix_split p s : String.prefix p s = true ↔ ∃ r, s = p +:+ r.
Proof.
  revert s. induction p as [|c p IH]; intros s; [split; [by exists s|intros _; by destruct s]|].
  destruct s as [|c' s]; [split; [done|by intros [r ?]]|]. cbn [String.prefix].
  destruct (Ascii.ascii_dec c c') as [->|Hc].
  - rewrite IH. split; intros [r Hr]; exists r; [by rewrite Hr|by injection Hr].
  - split; [done|]. intros [r Hr]. by injection Hr.
Qed.

Lemma bearer_text r : let header := "Bearer " +:+ r in
  String.prefix "Bearer " header = true ∧ String.substring 7 (String.length header - 7) header = r.
Proof.
  cbn zeta. split; [apply prefix_split; by exists r|].
  replace (String.length ("Bearer " +:+ r) - 7)%nat with (String.length r) by apply (eq_sym (Nat.sub_0_r _)).
  apply (substring_drop "Bearer ").
Qed.

(** The relay lets in who presents its token as a bearer, and nobody when it has none. *)
Lemma relay_auth_spec header : relay_auth api_token header = Ok tt ↔
  ∃ t, api_token = Some t ∧ t ≠ "" ∧ header = "Bearer " +:+ t.
Proof.
  unfold relay_auth. destruct api_token as [t|]; [|by split; [|by intros (? & ? & _)]].
  destruct (String.eqb_spec t "") as [->|Ht]; [split; [done|]; by intros (? & [= <-] & ? & _)|].
  assert (Htok : ∀ p, raise_if (negb (tokens_equal (TStr p) (TStr t))) (HTTPException 401) = Ok tt ↔ p = t).
  { intros p. destruct (tokens_equal _ _) eqn:E; cbn.
    - apply tokens_equal_spec in E as (b & Hp & Ht' & _). cbn in Hp, Ht'. split; [intros _|done].
      apply encode_utf8_inj. congruence.
    - split; [done|]. intros ->. exfalso. apply not_true_iff_false in E. apply E, tokens_equal_spec.
      exists (encode_utf8 t). split_and!; [done|done|]. by destruct t. }
  destruct (String.prefix "Bearer " header) eqn:Ep.
  - apply prefix_split in Ep as [r ->]. rewrite (proj2 (bearer_text r)), Htok. split.
    + intros ->. by exists t.
    + intros (? & [= <-] & _ & Hr). by injection Hr.
  - rewrite Htok. split; [intros Hz; by destruct (Ht (eq_sym Hz))|]. intros (? & [= <-] & _ & ->). by rewrite (proj1 (bearer_text t)) in Ep.
Qed.

(** The relay writes only for a client that presents the configured token:
    with any other header, and always when no token is configured, the data
    layer stays as it is and the answer is 401 or 503. *)
Theorem relay_fails_closed header s now too_large r :
  (∀ t, api_token = Some t → t ≠ "" → header ≠ "Bearer " +:+ t) →
  relay_answer api_token header s now too_large r
  = (s, match api_token with Some t => if String.eqb t "" then 503 else 401 | None => 503 end).
Proof.
  intros Hno. unfold relay_answer. destruct (relay_auth api_token header) as [[]|e] eqn:E.
  - apply relay_auth_spec in E as (t & Ht & Hne & Hh). by destruct (Hno t Ht Hne).
  - unfold relay_auth in E. destruct api_token as [t|]; [|by injection E as <-].
    destruct (String.eqb t ""); [by injection E as <-|]. destruct (negb _); [by injection E as <-|done].
Qed.

Lemma relay_post_outcome t s now route fields m : api_token = Some t → t ≠ "" →
  NoDup (dict_keys fields) → Forall plain (dict_values fields) →
  (∀ w, arrives fields w → relay_route s now (route w) = m) →
  relay_post t s now route fields = relay_outcome fields m.
Proof.
  intros Ht Hne Hn Hp Hr. unfold relay_post, relay_answer, relay_outcome.
  rewrite (proj2 (relay_auth_spec _)) by by exists t.
  destruct (MAX_CONTENT_LENGTH <? _); [done|]. rewrite Hr by by apply body_arrives.
  destruct m as [s'|e]; [done|]. cbn. unfold relay_error. by destruct e.
Qed.

(** C38: A keyper that submits through the relay with the relay's token writes to
    the data layer what it would write directly; an exception of the data layer
    arrives as the status of its kind, so that the keyper recognises the same
    conflicts as benign. *)
Theorem relay_writes_agree t s now eid sig : api_token = Some t → t ≠ "" →
  (∀ pk pks, relay_submit_dkg_result t s now eid pk pks sig
     = relay_outcome (relay_dkg_fields eid pk pks sig) (dl_submit_dkg_result s eid pk pks sig))
  ∧ (∀ sh, share_wf sh → relay_submit_decryption_share t s now eid sh sig
       = relay_outcome (relay_share_fields eid sh sig) (dl_submit_decryption_share s now eid sh sig))
  ∧ (∀ a, aggregate_wf a → relay_submit_aggregate t s now eid a sig
       = relay_outcome (relay_aggregate_fields eid a sig) (dl_submit_aggregate s now eid a sig))
  ∧ (∀ e, (∀ code, e ≠ HTTPException code) → _is_benign_write_conflict (relay_error e) = _is_benign_write_conflict e).
Proof.
  intros Ht Hne. split_and!.
  - intros pk pks. apply relay_post_outcome; [done|done|solve_nodup|solve_plain|]. intros w Hw. cbn [relay_route].
    rewrite (same_bytes _ _ "electionId" eid Hw), bind_Ok, (same_bytes _ _ "pkElection" pk Hw), bind_Ok by done.
    rewrite (same_list enc_bytes (λ p, dec_bytes p None) _ _ _ pks Hw); [|done|].
    + by rewrite bind_Ok, (same_bytes _ _ _ sig Hw), bind_Ok.
    + intros x v _ Hv. rewrite <- (dec_bytes_same _ _ None Hv). by apply dec_enc_bytes.
  - intros sh Hsh. apply relay_post_outcome; [done|done|solve_nodup|solve_plain|]. intros w Hw. cbn [relay_route].
    rewrite (same_bytes _ _ "electionId" eid Hw), bind_Ok by done.
    rewrite (arrived_field _ _ dec_decryption_share _ (enc_decryption_share sh) sh _ Hw); [|done|].
    + by rewrite (same_bytes _ _ _ sig Hw), bind_Ok.
    + intros v Hv. rewrite <- (dec_share_same _ _ Hv). by apply dec_enc_share.
  - intros a Ha. apply relay_post_outcome; [done|done|solve_nodup|solve_plain|]. intros w Hw. cbn [relay_route].
    rewrite (same_bytes _ _ "electionId" eid Hw), bind_Ok by done.
    rewrite (arrived_field _ _ dec_aggregate _ (enc_aggregate a) a _ Hw); [|done|].
    + by rewrite (same_bytes _ _ _ sig Hw), bind_Ok.
    + intros v Hv. rewrite <- (dec_aggregate_same _ _ Hv). by apply dec_enc_aggregate.
  - intros e He. unfold relay_error. destruct e; try done. by destruct (He code).
Qed.

End relay.

(** * The hypotheses hold *)

Module relay_example.
Import prefix_abi naming_account memory_example.
#[local] Existing Instance concrete_crypto.

Lemma relay_writes_agree_witness :
  relay_submit_dkg_result (H := port_example.layer) id (λ _, 100) (Some "secret") "secret" registered 50 eid pk pks (dkg_sig 1)
  = map_err relay_error (@dl_submit_dkg_result _ port_example.layer registered eid pk pks (dkg_sig 1)).
Proof.
  exact (proj1 (relay_writes_agree (H := port_example.layer) id (λ _, 100) (Some "secret") plain_refl "secret" registered 50 eid
    (dkg_sig 1) eq_refl ltac:(discriminate)) pk pks).
Defined.

Lemma relay_fails_closed_witness :
  relay_answer (H := port_example.layer) (Some "secret") "Bearer other" registered 50 false (DkgResult JNull) = (registered, 401).
Proof.
  apply (relay_fails_closed (H := port_example.layer) (Some "secret") "Bearer other" registered 50 false (DkgResult JNull)).
  intros t [= <-] _. discriminate.
Defined.

End relay_example.
