(* ===== verification/Coordinator.v ===== *)
(** The coordinator (services/coordinator/coordinator.py and dkg_coordinator.py)
    with its credential store (services/common/token_store.py): the watcher that
    drives every election through key generation and tally.

    The watcher is a computation over its own state and the world outside: the
    keypers, which it reaches over HTTP and which may answer anything, the data
    layer that they share, clocks and randomness.  Whatever is outside may change
    between any two accesses.  Logging is not modelled, and times are whole
    seconds. *)

From S2P Require Import Prelude Params Primality Field Points Transcript Dkg Types Config Codecs WriteAuth DataLayer Port Keyper Bootstrap Http.

(** * The world outside *)

(** A response: its status, and its JSON when the body is JSON. *)
Record response := mkResponse { status_code : Z; response_json : option json }.

Class Outside (env store : Type) : Type := {
  out_get : env → string → env * result response;                               (* URL *)
  out_post : env → string → string → option string → json → env * result response;  (* base URL, path, bearer, body *)
  out_layer : env → env * store;
  out_write : env → store → env;
  out_clock : env → env * Z;              (* the injected clock *)
  out_time : env → env * Z;               (* [int(time.time())] *)
  out_token : env → env * string;         (* [secrets.token_urlsafe(32)] *)
  out_hex : env → env * string;           (* [secrets.token_hex(16)] *)
  out_seal : env → env * (bytes * bytes); (* the ephemeral key and the nonce of a seal *)
}.

(** A request posted to a keyper. *)
Record outgoing := mkOutgoing { og_base : string; og_path : string; og_bearer : option string; og_body : json }.

(** * The watcher's state *)

Record dkg_attempts := mkDkgAttempts { attempts : Z; next_at : Z }.
Record tally_attempts := mkTallyAttempts { agg_attempts : Z; dec_attempts : Z }.

(** [token_store] is absent, or the contents of its file: [None] when there is
    no file or it cannot be decrypted. *)
Record AutoDKG := mkAutoDKG {
  _done : gset string;
  _failed : gset string;
  _attempts : dict string dkg_attempts;
  _tally_attempts : dict string tally_attempts;
  _tokens_by_committee : dict (list (Z * string)) (dict Z json);
  _tally_phase : dict string string;
  token_store : option (option json);
}.

(** What the constructor is given. *)
Record settings := mkSettings {
  coordinator : Signer;
  backoff_base_s : Z;
  backoff_cap_s : Z;
  max_tally_attempts : Z;
  max_tally_phase_s : Z;
  url_overrides : dict string string;
  relay_token : option string;
}.

Definition new_auto (store : option (option json)) : AutoDKG := mkAutoDKG ∅ ∅ [] [] [] [] store.

(** [api_tokens] is the dict of bearer tokens that the running ceremony or
    trigger passes around and updates; [sent] are the requests posted so far. *)
Record world (env : Type) := mkWorld {
  auto : AutoDKG;
  api_tokens : dict Z json;
  sent : list outgoing;
  outside : env;
}.
Arguments mkWorld {_} _ _ _ _.
Arguments auto {_} _.
Arguments api_tokens {_} _.
Arguments sent {_} _.
Arguments outside {_} _.

(** * Computations *)

Definition act (env A : Type) : Type := world env → world env * result A.

#[global] Instance act_ret env : MRet (act env) := λ A a w, (w, Ok a).
#[global] Instance act_bind env : MBind (act env) := λ A B f m w,
  let '(w, r) := m w in match r with Ok a => f a w | Err e => (w, Err e) end.

Section acts.
Context {env : Type}.
Abbreviation M := (act env).

Definition lift {A} (r : result A) : M A := λ w, (w, r).
Definition the_auto : M AutoDKG := λ w, (w, Ok (auto w)).
Definition update (f : AutoDKG → AutoDKG) : M unit :=
  λ w, (mkWorld (f (auto w)) (api_tokens w) (sent w) (outside w), Ok tt).
Definition the_tokens : M (dict Z json) := λ w, (w, Ok (api_tokens w)).
Definition set_tokens (t : dict Z json) : M unit := λ w, (mkWorld (auto w) t (sent w) (outside w), Ok tt).

(** An access to the outside. *)
Definition access {A} (f : env → env * result A) : M A :=
  λ w, let '(o, r) := f (outside w) in (mkWorld (auto w) (api_tokens w) (sent w) o, r).
Definition query {A} (f : env → env * A) : M A := access (λ o, let '(o, a) := f o in (o, Ok a)).

(** [try: m  except Exception as err: ...] *)
Definition catch {A} (m : M A) : M (A + exn) :=
  λ w, let '(w, r) := m w in (w, Ok match r with Ok a => inl a | Err e => inr e end).

(** [for x in l: f(x)], and with an accumulator. *)
Fixpoint each {X} (l : list X) (f : X → M unit) : M unit :=
  match l with [] => mret tt | x :: l => _ ← f x; each l f end.
Fixpoint fold {X S} (l : list X) (f : S → X → M S) (s : S) : M S :=
  match l with [] => mret s | x :: l => s ← f s x; fold l f s end.
End acts.

(** [d[key]] of a dict *)
Definition dict_item {K V} `{EqDecision K} (d : dict K V) (k : K) : result V :=
  match dict_get d k with Some v => Ok v | None => Err KeyError end.

(** [tuple(sorted(d.items()))] of a dict with integer keys, and its sorted keys. *)
Definition key_order {V} (a b : Z * V) : Prop := a.1 <= b.1.
#[global] Instance key_order_dec {V} (a b : Z * V) : Decision (key_order a b) := Z_le_dec _ _.
Definition sorted_items {V} (d : dict Z V) : list (Z * V) := merge_sort key_order d.

(** * services/common/token_store.py *)

Definition _load (file : option json) : json := default (JObj []) file.

Definition token_get (file : option json) (url : string) : result (option (dict string json)) :=
  entry ← json_get (_load file) url;
  if py_bool entry then d ← py_dict entry; Ok (Some d) else Ok None.

Definition token_put (file : option json) (url : string) (api peer : json) : result (option json) :=
  match _load file with
  | JObj data => Ok (Some (JObj (dict_set data url (JObj [("api_token", api); ("peer_token", peer)]))))
  | _ => Err TypeError
  end.

(** * services/coordinator/dkg_coordinator.py *)

Definition _MAX_REPAIR_ROUNDS : nat := 2.

(** [enumerate(l, start=1)] *)
Definition enumerate1 {A} (l : list A) : list (Z * A) := imap (λ i x, (Z.of_nat i + 1, x)) l.

Definition keyper_urls_from (config : ElectionConfig) (overrides : dict string string) : dict Z string :=
  (λ '(i, k), (i, if String.eqb (url k) "" then default "" (dict_get overrides (hex (signing_key k))) else url k))
    <$> enumerate1 (keypers config).

Section coordinator.
Context `{Crypto} `{EthAccount} `{Abi} `{SealPrimitives}.
Context (float_repr : Z → Z → string) (py_repr : json → string).
Context {env store : Type} `{DataLayer store} `{!Outside env store}.
Context (cfg : settings).

Abbreviation M := (act env).

(** ** Access to the outside *)

(** A read of the data layer, and a write. *)
Definition dl_read {A} (f : store → result A) : M A := access (λ o, let '(o, l) := out_layer o in (o, f l)).
Definition dl_write {A} (f : store → result (store * A)) : M A :=
  access (λ o, let '(o, l) := out_layer o in match f l with Ok (l', a) => (out_write o l', Ok a) | Err e => (o, Err e) end).
Definition clock : M Z := query out_clock.

(** [requests.get] and [requests.post]; a request that was not answered raises. *)
Definition http_get (url : string) : M response := access (λ o, out_get o url).
Definition http_post (base path : string) (bearer : option string) (body : json) : M response :=
  λ w, let '(o, r) := out_post (outside w) base path bearer body in
       (mkWorld (auto w) (api_tokens w) (sent w ++ [mkOutgoing base path bearer body]) o, r).

Definition raise_for_status (r : response) : result unit :=
  raise_if ((400 <=? status_code r) && (status_code r <? 600)) (HTTPException (status_code r)).
Definition json_of (r : response) : result json :=
  match response_json r with Some v => Ok v | None => Err ValueError end.

(** ** Bootstrap *)

(** A credential of the store, or a minted one that is stored. *)
Definition credential (url : string) : M (json * json) :=
  s ← the_auto;
  cred ← match token_store s with Some file => lift (token_get file url) | None => mret None end;
  match cred with
  | Some d => api ← lift (dict_item d "api_token"); peer ← lift (dict_item d "peer_token"); mret (api, peer)
  | None =>
      api ← query out_token;
      peer ← query out_token;
      s ← the_auto;
      _ ← match token_store s with
          | Some file =>
              file' ← lift (token_put file url (JStr api) (JStr peer));
              update (λ s, mkAutoDKG (_done s) (_failed s) (_attempts s) (_tally_attempts s)
                             (_tokens_by_committee s) (_tally_phase s) (Some file'))
          | None => mret tt
          end;
      mret (JStr api, JStr peer)
  end.

(** A keyper's encryption key: what it says, and the verified key. *)
Definition encryption_key (member_addrs : dict Z bytes) (i : Z) (url : string) : M (dict string json * bytes) :=
  r ← http_get (rstrip_slash url +:+ "/status");
  st ← lift (json_of r);
  enc_hex ← lift (getitem st "encryptionPubkey");
  enc_sig ← lift (getitem st "encryptionPubkeySig");
  member ← lift (dict_item member_addrs i);
  match enc_hex, enc_sig with
  | JStr h, JStr g =>
      pub ← lift (verify_encryption_pubkey member h g);
      mret ([("enc_pubkey", enc_hex); ("enc_pubkey_sig", enc_sig)], pub)
  | _, _ => lift (Err AttributeError)
  end.

(** The entry of peer [j] in a bundle, and the bundle of keyper [i]. *)
Definition peer_entry (peer_tokens : dict Z json) (enc : dict Z (dict string json * bytes)) (j : Z) (url : string)
  : result (string * json) :=
  token ← dict_item peer_tokens j;
  '(raw, _) ← dict_item enc j;
  Ok (pretty j, JObj ([("url", JStr url); ("token", token)] ++ raw)).

Definition bundle (urls : dict Z string) (apis peer_tokens : dict Z json) (enc : dict Z (dict string json * bytes))
    (i : Z) (nonce : string) (timestamp : Z) : result json :=
  api ← dict_item apis i;
  peer ← dict_item peer_tokens i;
  ps ← mapM (λ e, peer_entry peer_tokens enc e.1 e.2) (filter (λ e, e.1 ≠ i) urls);
  Ok (JObj [("api_token", api); ("peer_token", peer);
            ("relay_token", match relay_token cfg with Some t => JStr t | None => JNull end);
            ("peers", JObj ps); ("nonce", JStr nonce); ("timestamp", JInt timestamp)]).

(** Seal and sign the bundle of keyper [i] and install it. *)
Definition install_bundle (urls : dict Z string) (apis peer_tokens : dict Z json)
    (enc : dict Z (dict string json * bytes)) (i : Z) (url : string) : M unit :=
  nonce ← query out_hex;
  timestamp ← query out_time;
  payload ← lift (bundle urls apis peer_tokens enc i nonce timestamp);
  sig ← lift (sign_payload float_repr (coordinator cfg) payload);
  '(_, pub) ← lift (dict_item enc i);
  draw ← query out_seal;
  sealed ← lift (x25519_seal (canonical_payload_bytes float_repr payload) pub draw.1 draw.2);
  r ← http_post (rstrip_slash url) "/auth/bootstrap" None
        (JObj [("sealed", JStr (hex sealed)); ("signature", JStr (hex sig))]);
  lift (raise_for_status r).

(** [install] names the keypers to post to; the default is all of them. *)
Definition bootstrap_keypers (urls : dict Z string) (member_addrs : dict Z bytes) (install : option (list Z))
  : M (dict Z json * dict Z json) :=
  '(apis, peer_tokens) ← fold urls (λ '(apis, peer_tokens) e,
    '(api, peer) ← credential e.2;
    mret (dict_set apis e.1 api, dict_set peer_tokens e.1 peer)) ([], []);
  enc ← fold urls (λ enc e, k ← encryption_key member_addrs e.1 e.2; mret (dict_set enc e.1 k)) [];
  targets ← match install with
            | None => mret urls
            | Some chosen => lift (mapM (λ i, u ← dict_item urls i; Ok (i, u)) chosen)
            end;
  _ ← each targets (λ e, install_bundle urls apis peer_tokens enc e.1 e.2);
  mret (apis, peer_tokens).

(** ** Requests to keypers *)

Definition bearer (token : json) : option string := Some (py_str py_repr token).

(** A post with the keyper's token; after a 401, the credential is installed
    again and the post is repeated once. *)
Definition authorized_post (rebootstrap : option (Z → M (option json))) (base path : string) (i : Z) (body : json)
  : M response :=
  tokens ← the_tokens;
  token ← lift (dict_item tokens i);
  r ← http_post (rstrip_slash base) path (bearer token) body;
  match rebootstrap with
  | Some again =>
      if status_code r =? 401 then
        fresh ← again i;
        match fresh with
        | Some token =>
            if py_bool token then
              tokens ← the_tokens;
              _ ← set_tokens (dict_set tokens i token);
              http_post (rstrip_slash base) path (bearer token) body
            else mret r
        | None => mret r
        end
      else mret r
  | None => mret r
  end.

(** [_post_keyper]: [None] when the call failed. *)
Definition _post_keyper (rebootstrap : option (Z → M (option json))) (base path : string) (eid : bytes) (i : Z)
    (extra : dict string json) : M (option response) :=
  r ← catch (authorized_post rebootstrap base path i (JObj (("electionId", JStr (hex eid)) :: extra)));
  mret match r with inl r => Some r | inr _ => None end.

(** ** The ceremony *)

Definition call (rebootstrap : option (Z → M (option json))) (urls : dict Z string) (eid : bytes) (i : Z) (phase : string)
  : M json :=
  base ← lift (dict_item urls i);
  r ← authorized_post rebootstrap base ("/dkg/" +:+ phase) i (JObj [("electionId", JStr (hex eid))]);
  _ ← lift (raise_for_status r);
  lift (json_of r).

(** The signed accusations of a response that did not verify. *)
Definition complaint (resp : json) : option json :=
  match resp with
  | JObj _ => match get_or resp "verified" JNull with
              | JBool false => Some (get_or resp "accusations" (JArr []))
              | _ => None
              end
  | _ => None
  end.

Definition round2_complaints (rebootstrap : option (Z → M (option json))) (urls : dict Z string) (eid : bytes)
    (targets : list Z) : M (dict Z json) :=
  fold targets (λ out i,
    resp ← call rebootstrap urls eid i "round2";
    mret match complaint resp with Some accs => dict_set out i accs | None => out end) [].

(** The keyper a JSON value names as a key of [keyper_urls]: numbers that are
    equal are one key, and arrays and objects cannot be keys. *)
Definition dealer_key (v : json) : result (option Z) :=
  match v with
  | JInt n => Ok (Some n)
  | JBool b => Ok (Some (Z.b2z b))
  | JFloat m e => Ok (if 0 <=? e then Some (m * 2 ^ e)
                      else if m mod 2 ^ (- e) =? 0 then Some (m / 2 ^ (- e)) else None)
  | JStr _ | JNull => Ok None
  | JArr _ | JObj _ => Err TypeError
  end.

(** Ask the accused dealer to deal again; its answer does not matter here. *)
Definition reveal (rebootstrap : option (Z → M (option json))) (urls : dict Z string) (eid : bytes) (acc : json) : M unit :=
  v ← lift (json_get acc "accusedDealerIndex");
  d ← lift (dealer_key v);
  match d with
  | Some dealer =>
      match dict_get urls dealer with
      | Some base =>
          _ ← _post_keyper rebootstrap base "/dkg/reveal_share" eid dealer [("accusation", acc)];
          mret tt
      | None => mret tt
      end
  | None => mret tt
  end.

(** The repair loop: at most [fuel] rounds. *)
Fixpoint repair (fuel : nat) (rebootstrap : option (Z → M (option json))) (urls : dict Z string) (eid : bytes)
    (complaints : dict Z json) : M (dict Z json) :=
  match fuel, complaints with
  | S fuel, _ :: _ =>
      _ ← each (sorted_items complaints) (λ e,
            accs ← lift (json_iter e.2);
            each accs (reveal rebootstrap urls eid));
      complaints ← round2_complaints rebootstrap urls eid (sortedZ (dict_keys complaints));
      repair fuel rebootstrap urls eid complaints
  | _, _ => mret complaints
  end.

(** [sorted({acc.get("accusedDealerIndex") for acc in accusations})] raises when
    the values cannot be compared. *)
Inductive sort_class := numbers | texts | nones.
#[global] Instance sort_class_eq_dec : EqDecision sort_class.
Proof. solve_decision. Defined.
Definition class_of (v : json) : result sort_class :=
  match v with
  | JInt _ | JBool _ | JFloat _ _ => Ok numbers
  | JStr _ => Ok texts
  | JNull => Ok nones
  | JArr _ | JObj _ => Err TypeError
  end.
Definition sort_accused (accusations : list json) : result unit :=
  cs ← mapM (λ acc, v ← json_get acc "accusedDealerIndex"; class_of v) accusations;
  raise_if (negb (forallb (λ c, bool_decide (Some c = head cs)) cs)) TypeError.

(** The keypers asked to publish are those without a complaint; a keyper that
    fails does not end the ceremony. *)
Definition publish_phase (rebootstrap : option (Z → M (option json))) (urls : dict Z string) (eid : bytes)
    (complaints : dict Z json) (idxs : list Z) : M (list Z) :=
  fold idxs (λ publishers i,
    if bool_decide (is_Some (dict_get complaints i)) then mret publishers else
    r ← catch (call rebootstrap urls eid i "publish");
    mret match r with inl _ => publishers ++ [i] | inr _ => publishers end) [].

Definition run_dkg_http (rebootstrap : option (Z → M (option json))) (eid : bytes) (urls : dict Z string) : M bool :=
  let idxs := sortedZ (dict_keys urls) in
  _ ← each ["round1"; "distribute_commitments"; "distribute_shares"] (λ phase,
        each idxs (λ i, _ ← call rebootstrap urls eid i phase; mret tt));
  complaints ← round2_complaints rebootstrap urls eid idxs;
  complaints ← repair _MAX_REPAIR_ROUNDS rebootstrap urls eid complaints;
  _ ← publish_phase rebootstrap urls eid complaints idxs;
  fk ← dl_read (λ l, dl_get_finalized_key l eid);
  let finalized := bool_decide (is_Some fk) in
  match complaints with
  | _ :: _ =>
      if finalized then mret true else
      accs ← lift (mapM json_iter (dict_values complaints));
      _ ← lift (sort_accused (concat accs));
      lift (Err DKGComplaint)
  | [] => mret finalized
  end.

(** ** Triggers *)

Definition trigger_decrypt_http (rebootstrap : option (Z → M (option json))) (eid : bytes) (urls : dict Z string) : M unit :=
  each urls (λ e, _ ← _post_keyper rebootstrap e.2 "/publish_decr_share" eid e.1 []; mret tt).

(** What one keyper said. *)
Definition aggregate_answer (r : option response) : string :=
  match r with
  | None => "failed"
  | Some r =>
      if 500 <=? status_code r then "failed" else
      if status_code r =? 409 then "refused" else
      match json_of r with
      | Ok (JObj _ as d) => py_str py_repr (get_or d "status" (JStr "started"))
      | _ => "started"
      end
  end.

Definition trigger_aggregate_http (rebootstrap : option (Z → M (option json))) (eid : bytes) (urls : dict Z string)
    (recompute : bool) : M (dict Z string) :=
  fold urls (λ out e,
    r ← _post_keyper rebootstrap e.2 "/aggregate" eid e.1 (if recompute then [("recompute", JBool true)] else []);
    mret (dict_set out e.1 (aggregate_answer r))) [].

(** * services/coordinator/coordinator.py *)

Definition set_attempts (s : AutoDKG) (a : dict string dkg_attempts) : AutoDKG :=
  mkAutoDKG (_done s) (_failed s) a (_tally_attempts s) (_tokens_by_committee s) (_tally_phase s) (token_store s).
Definition set_tally_attempts (s : AutoDKG) (a : dict string tally_attempts) : AutoDKG :=
  mkAutoDKG (_done s) (_failed s) (_attempts s) a (_tokens_by_committee s) (_tally_phase s) (token_store s).
Definition add_done (e : string) (s : AutoDKG) : AutoDKG :=
  mkAutoDKG ({[e]} ∪ _done s) (_failed s) (_attempts s) (_tally_attempts s) (_tokens_by_committee s) (_tally_phase s) (token_store s).
Definition add_failed (e : string) (s : AutoDKG) : AutoDKG :=
  mkAutoDKG (_done s) ({[e]} ∪ _failed s) (_attempts s) (_tally_attempts s) (_tokens_by_committee s) (_tally_phase s) (token_store s).
Definition cache_tokens (urls : dict Z string) (t : dict Z json) (s : AutoDKG) : AutoDKG :=
  mkAutoDKG (_done s) (_failed s) (_attempts s) (_tally_attempts s)
    (dict_set (_tokens_by_committee s) (sorted_items urls) t) (_tally_phase s) (token_store s).

Definition _keyper_urls (config : ElectionConfig) : dict Z string := keyper_urls_from config (url_overrides cfg).
Definition _member_addrs (config : ElectionConfig) : dict Z bytes :=
  (λ '(i, k), (i, signing_key k)) <$> enumerate1 (keypers config).

Definition _bootstrap (urls : dict Z string) (member_addrs : dict Z bytes) : M (dict Z json) :=
  '(apis, _) ← bootstrap_keypers urls member_addrs None;
  _ ← update (cache_tokens urls apis);
  mret apis.

(** The tokens the store has for every member; [None] when one is missing. *)
Fixpoint assemble (file : option json) (urls : dict Z string) (assembled : dict Z json) : result (option (dict Z json)) :=
  match urls with
  | [] => Ok (Some assembled)
  | (i, u) :: urls =>
      cred ← token_get file u;
      match cred with
      | None => Ok None
      | Some d => api ← dict_item d "api_token"; assemble file urls (dict_set assembled i api)
      end
  end.

Definition _committee_tokens (urls : dict Z string) (member_addrs : dict Z bytes) : M (dict Z json) :=
  s ← the_auto;
  match dict_get (_tokens_by_committee s) (sorted_items urls) with
  | Some t => mret t
  | None =>
      found ← match token_store s with Some file => lift (assemble file urls []) | None => mret None end;
      match found with
      | Some t => _ ← update (cache_tokens urls t); mret t
      | None => _bootstrap urls member_addrs
      end
  end.

Definition _rebootstrap_one (urls : dict Z string) (member_addrs : dict Z bytes) (i : Z) : M (option json) :=
  r ← catch ('(apis, _) ← bootstrap_keypers urls member_addrs (Some [i]);
             _ ← update (cache_tokens urls apis);
             lift (dict_item apis i));
  mret match r with inl t => Some t | inr _ => None end.

(** [_tally_transition] *)
Definition _tally_transition (eid_hex phase : string) : M unit :=
  update (λ s, mkAutoDKG (_done s) (_failed s) (_attempts s) (_tally_attempts s) (_tokens_by_committee s)
                 (if bool_decide (dict_get (_tally_phase s) eid_hex = Some phase) then _tally_phase s
                  else dict_set (_tally_phase s) eid_hex phase) (token_store s)).

(** A failure to write the mark is ignored; the payload is made outside of the
    [try].  [now] and [now'] are the data layer's clock readings. *)
Definition _mark_tally_stalled (eid : bytes) : M unit :=
  issued_at ← clock;
  payload ← lift (request_nonce_payload issued_at);
  _ ← catch (sig ← lift (signer_sign (coordinator cfg) "tally_stall" eid payload);
             now ← query out_time;
             now' ← query out_time;
             dl_write (λ l, l' ← dl_set_tally_stalled l now now' eid true sig issued_at; Ok (l', tt)));
  mret tt.

Definition _past_tally_deadline (config : ElectionConfig) : M bool :=
  now ← clock; mret (max_tally_phase_s cfg <? now - voting_end config).

(** [base * 2 ** k] of a float: the power must fit a float. *)
Definition float_backoff (k : Z) : result Z :=
  _ ← raise_if (1024 <=? k) OverflowError;
  Ok (Z.min (backoff_cap_s cfg) (backoff_base_s cfg * 2 ^ k)).

Definition missing_url (urls : dict Z string) : bool := existsb (λ u, String.eqb u "") (dict_values urls).

Definition put_attempts (eid_hex : string) (a : dkg_attempts) : M unit :=
  update (λ s, set_attempts s (dict_set (_attempts s) eid_hex a)).

(** The bootstrap and the ceremony of one attempt. *)
Definition dkg_ceremony (eid : bytes) (urls : dict Z string) (member_addrs : dict Z bytes) : M bool :=
  tokens ← _bootstrap urls member_addrs;
  _ ← set_tokens tokens;
  run_dkg_http (Some (_rebootstrap_one urls member_addrs)) eid urls.

Definition _drive_dkg (eid : bytes) (config : ElectionConfig) (now : Z) : M string :=
  let eid_hex := hex eid in
  s ← the_auto;
  let att := default (mkDkgAttempts 0 0) (dict_get (_attempts s) eid_hex) in
  _ ← put_attempts eid_hex att;
  if now <? next_at att then mret "backing_off" else
  let urls := _keyper_urls config in
  if missing_url urls then mret "no_urls" else
  r ← catch (dkg_ceremony eid urls (_member_addrs config));
  match r with
  | inl true => mret "finalized"
  | inr DKGComplaint => _ ← update (add_failed eid_hex); mret "dkg_complaint"
  | inl false | inr _ =>
      let n := attempts att + 1 in
      _ ← put_attempts eid_hex (mkDkgAttempts n (next_at att));
      wait ← lift (float_backoff (n - 1));
      _ ← put_attempts eid_hex (mkDkgAttempts n (now + wait));
      mret "registered_retry"
  end.

Definition put_tally_attempts (eid_hex : string) (a : tally_attempts) : M unit :=
  update (λ s, set_tally_attempts s (dict_set (_tally_attempts s) eid_hex a)).

Definition _abandon (eid : bytes) : M string := _ ← _mark_tally_stalled eid; mret "tally_abandoned".

(** The counters to continue with: spent ones are reset. *)
Definition fresh_budget (eid_hex : string) : M tally_attempts :=
  s ← the_auto;
  let att := default (mkTallyAttempts 0 0) (dict_get (_tally_attempts s) eid_hex) in
  let att := if (max_tally_attempts cfg <=? agg_attempts att) || (max_tally_attempts cfg <=? dec_attempts att)
             then mkTallyAttempts 0 0 else att in
  _ ← put_tally_attempts eid_hex att;
  mret att.

Definition is_working (st : string) : bool := String.eqb st "started" || String.eqb st "in_progress".

(** What a poll does when the keypers' answers did not complete a quorum. *)
Definition no_quorum (rebootstrap : Z → M (option json)) (eid : bytes) (config : ElectionConfig) (urls : dict Z string)
    (att : tally_attempts) (statuses : list string) : M string :=
  past ← _past_tally_deadline config;
  if (past : bool) then _abandon eid else
  if existsb is_working statuses then mret "collecting_aggregate" else
  let n := agg_attempts att + 1 in
  let diverged := match statuses with [] => false | _ => forallb (String.eqb "submitted") statuses end in
  _ ← put_tally_attempts (hex eid) (mkTallyAttempts n (dec_attempts att));
  if max_tally_attempts cfg <=? n then _abandon eid else
  _ ← (if diverged then trigger_aggregate_http (Some rebootstrap) eid urls true else mret []);
  mret "collecting_aggregate".

(** The decrypt phase. *)
Definition decrypt_phase (rebootstrap : Z → M (option json)) (eid : bytes) (config : ElectionConfig) (urls : dict Z string)
    (att : tally_attempts) : M string :=
  let eid_hex := hex eid in
  _ ← _tally_transition eid_hex "decrypting";
  _ ← trigger_decrypt_http (Some rebootstrap) eid urls;
  now ← clock;
  result ← dl_write (λ l, finalize l eid (coordinator cfg) now);
  match result with
  | Some _ => _ ← update (add_done eid_hex); mret "tallied"
  | None =>
      past ← _past_tally_deadline config;
      if (past : bool) then _abandon eid else
      let n := dec_attempts att + 1 in
      _ ← put_tally_attempts eid_hex (mkTallyAttempts (agg_attempts att) n);
      if max_tally_attempts cfg <=? n then _abandon eid else mret "collecting_shares"
  end.

Definition has_aggregate (eid : bytes) : M bool :=
  a ← dl_read (λ l, dl_get_aggregate l eid); mret (bool_decide (is_Some a)).

Definition _drive_tally (eid : bytes) (config : ElectionConfig) : M string :=
  let urls := _keyper_urls config in
  if missing_url urls then mret "no_urls" else
  let member_addrs := _member_addrs config in
  r ← catch (_committee_tokens urls member_addrs);
  match r with
  | inr _ => mret "error"
  | inl tokens =>
      _ ← set_tokens tokens;
      let rebootstrap := _rebootstrap_one urls member_addrs in
      att ← fresh_budget (hex eid);
      have ← has_aggregate eid;
      if (have : bool) then decrypt_phase rebootstrap eid config urls att else
      _ ← _tally_transition (hex eid) "aggregating";
      statuses ← trigger_aggregate_http (Some rebootstrap) eid urls false;
      have ← has_aggregate eid;
      if (have : bool) then decrypt_phase rebootstrap eid config urls att
      else no_quorum rebootstrap eid config urls att (dict_values statuses)
  end.

Definition _process (eid : bytes) (rec : ElectionRecord) (now : Z) : M string :=
  res ← dl_read (λ l, dl_get_result l eid);
  match derive_state (rec_config rec) (mkStateFacts (rec_cancelled rec) (bool_decide (is_Some (rec_finalized_key rec)))
          (bool_decide (is_Some res)) (rec_tally_stalled rec)) now with
  | COMPLETE => _ ← update (add_done (hex eid)); mret "complete"
  | DKG_FAILED => _ ← update (add_failed (hex eid)); mret "dkg_failed"
  | REGISTERED => _drive_dkg eid (rec_config rec) now
  | TALLYING => _drive_tally eid (rec_config rec)
  | TALLY_STALLED => mret "tally_stalled"
  | _ => mret "not_ready"
  end.

(** The first loop of a scan: outcomes, and the elections that need attention. *)
Definition triage (acc : dict string string * list (bytes * ElectionRecord)) (eid : bytes)
  : M (dict string string * list (bytes * ElectionRecord)) :=
  let '(outcomes, pending) := acc in
  s ← the_auto;
  if bool_decide (hex eid ∈ _done s) then mret (dict_set outcomes (hex eid) "complete", pending) else
  if bool_decide (hex eid ∈ _failed s) then mret (dict_set outcomes (hex eid) "already_failed", pending) else
  r ← catch (dl_read (λ l, dl_get_election l eid));
  mret match r with
       | inl rec => (outcomes, pending ++ [(eid, rec)])
       | inr _ => (dict_set outcomes (hex eid) "error", pending)
       end.

(** Nearest election first; elections that open together keep their order. *)
Definition opens_first (a b : bytes * ElectionRecord) : Prop :=
  voting_start (rec_config a.2) <= voting_start (rec_config b.2).
#[global] Instance opens_first_dec a b : Decision (opens_first a b) := Z_le_dec _ _.

Definition scan_one (now : Z) (outcomes : dict string string) (p : bytes * ElectionRecord) : M (dict string string) :=
  r ← catch (_process p.1 p.2 now);
  mret (dict_set outcomes (hex p.1) match r with inl o => o | inr _ => "error" end).

Definition scan_once : M (dict string string) :=
  now ← clock;
  ids ← dl_read (λ l, dl_list_elections l None);
  '(outcomes, pending) ← fold ids triage ([], []);
  fold (merge_sort opens_first pending) (scan_one now) outcomes.

(** [run_forever] for [n] polls. *)
Fixpoint run_forever (n : nat) : M unit :=
  match n with O => mret tt | S n => _ ← catch scan_once; run_forever n end.

End coordinator.
