(* ===== verification/CoordinatorSteps.v ===== *)
(** How to reason about the coordinator's computations, and the steps they
    consist of: whatever the keypers answer, driving an election changes the
    watcher and posts requests only in these ways. *)

From S2P Require Import Prelude Params Primality Field Points Transcript Dkg Types Config Codecs WriteAuth DataLayer Port Keyper Bootstrap Http Coordinator.

(** * Reasoning about computations *)

Section ensures.
Context {env : Type}.
Implicit Types (I : world env → Prop) (w : world env).

Lemma bind_run {A B} (m : act env A) (f : A → act env B) w w1 a : m w = (w1, Ok a) → (m ≫= f) w = f a w1.
Proof. intros E. unfold mbind, act_bind. by rewrite E. Qed.

Lemma bind_run_inv {A B} (m : act env A) (f : A → act env B) w w' b : (m ≫= f) w = (w', Ok b) →
  ∃ w1 a, m w = (w1, Ok a) ∧ f a w1 = (w', Ok b).
Proof. unfold mbind, act_bind. destruct (m w) as [w1 [a|e]]; [by eauto|done]. Qed.

(** [m] keeps [I], and what it returns satisfies [Q]. *)
Definition ensures I {A} (m : act env A) (Q : A → Prop) : Prop :=
  ∀ w, I w → I (m w).1 ∧ ∀ a, (m w).2 = Ok a → Q a.

Abbreviation keeps I m := (ensures I m (λ _, True)).

Lemma ensures_weaken I {A} (m : act env A) (Q Q' : A → Prop) :
  ensures I m Q → (∀ a, Q a → Q' a) → ensures I m Q'.
Proof. intros Hm HQ w Hw. destruct (Hm w Hw) as [? Hq]. split; [done|]. eauto. Qed.

Lemma ensures_keeps I {A} (m : act env A) Q : ensures I m Q → keeps I m.
Proof. intros Hm. by eapply ensures_weaken. Qed.

Lemma ensures_bind I {A B} (m : act env A) (f : A → act env B) Q Q' :
  ensures I m Q → (∀ a, Q a → ensures I (f a) Q') → ensures I (m ≫= f) Q'.
Proof.
  intros Hm Hf w Hw. destruct (Hm w Hw) as [Hi Hq]. unfold mbind, act_bind.
  destruct (m w) as [w1 [a|e]]; cbn in *; [by apply Hf; [apply Hq|]|by split].
Qed.

Lemma ensures_ret I {A} (a : A) (Q : A → Prop) : Q a → ensures I (mret a) Q.
Proof. intros Ha w Hw. split; [done|]. cbn. by intros ? <-%Ok_inj. Qed.
Lemma ensures_lift I {A} (r : result A) (Q : A → Prop) : (∀ a, r = Ok a → Q a) → ensures I (lift r) Q.
Proof. intros Hr w Hw. by split. Qed.
Lemma ensures_catch I {A} (m : act env A) (Q : A → Prop) : ensures I m Q →
  ensures I (catch m) (λ r, match r with inl a => Q a | inr _ => True end).
Proof.
  intros Hm w Hw. destruct (Hm w Hw) as [Hi Hq]. unfold catch. destruct (m w) as [w1 [a|e]]; cbn in *;
    (split; [done|]); intros ? <-%Ok_inj; auto.
Qed.
Lemma acts_bind I {A B} (m : act env A) (f : A → act env B) : keeps I m → (∀ a, keeps I (f a)) → keeps I (m ≫= f).
Proof. intros Hm Hf. eapply ensures_bind; [done|]. auto. Qed.
Lemma acts_ret I {A} (a : A) : keeps I (mret a).
Proof. by apply ensures_ret. Qed.
Lemma acts_lift I {A} (r : result A) : keeps I (lift r).
Proof. by apply ensures_lift. Qed.
Lemma keeps_catch I {A} (m : act env A) : keeps I m → keeps I (catch m).
Proof. intros Hm. by eapply ensures_keeps, ensures_catch. Qed.
Lemma keeps_the_auto I : keeps I the_auto.
Proof. by intros w Hw. Qed.
Lemma keeps_the_tokens I : keeps I the_tokens.
Proof. by intros w Hw. Qed.
Lemma keeps_each I {X} (l : list X) f : (∀ x, x ∈ l → keeps I (f x)) → keeps I (each l f).
Proof.
  induction l as [|x l IH]; intros Hf; cbn; [by apply ensures_ret|].
  eapply ensures_bind; [apply Hf; left|]. intros _ _. apply IH. intros y Hy. apply Hf. by right.
Qed.
Lemma keeps_fold I {X S} (l : list X) (f : S → X → act env S) s :
  (∀ s x, x ∈ l → keeps I (f s x)) → keeps I (fold l f s).
Proof.
  revert s. induction l as [|x l IH]; intros s Hf; cbn; [apply acts_ret|].
  apply acts_bind; [apply Hf; left|]. intros s'. apply IH. intros t y Hy. apply Hf. by right.
Qed.
Lemma ensures_fold I {X S} (l : list X) (f : S → X → act env S) (J : S → Prop) s :
  (∀ s x, x ∈ l → J s → ensures I (f s x) J) → J s → ensures I (fold l f s) J.
Proof.
  revert s. induction l as [|x l IH]; intros s Hf Hs; cbn; [by apply ensures_ret|].
  eapply ensures_bind; [apply Hf; [left|done]|]. intros s' Hs'. apply IH; [|done].
  intros t y Hy. apply Hf. by right.
Qed.
End ensures.

Abbreviation keeps I m := (ensures I m (λ _, True)).

(** Walks a computation; [leaf] closes the accesses and the state changes. *)
Ltac walk leaf :=
  repeat first
    [ leaf
    | apply keeps_the_auto | apply keeps_the_tokens
    | apply acts_ret | apply acts_lift | apply keeps_catch
    | apply acts_bind; [|intros ?]
    | apply keeps_each; intros | apply keeps_fold; intros
    | match goal with |- ensures _ (match ?x with _ => _ end _) _ => destruct x end
    | match goal with |- ensures _ (match ?x with _ => _ end) _ => destruct x end ].

(** * The steps of the watcher *)

Section steps.
Context {env : Type}.
Implicit Types (w : world env) (s : AutoDKG).

(** Changes of the watcher's state while it drives election [e]. *)
Inductive auto_step (e : string) : relation AutoDKG :=
| step_mint s file url api peer file' : token_store s = Some file → token_get file url = Ok None →
    token_put file url api peer = Ok file' →
    auto_step e s (mkAutoDKG (_done s) (_failed s) (_attempts s) (_tally_attempts s)
                     (_tokens_by_committee s) (_tally_phase s) (Some file'))
| step_cache s urls t : auto_step e s (cache_tokens urls t s)
| step_attempts s a : auto_step e s (set_attempts s (dict_set (_attempts s) e a))
| step_tally s a : auto_step e s (set_tally_attempts s (dict_set (_tally_attempts s) e a))
| step_phase s p : auto_step e s (mkAutoDKG (_done s) (_failed s) (_attempts s) (_tally_attempts s)
                                    (_tokens_by_committee s) p (token_store s))
| step_done s : auto_step e s (add_done e s)
| step_failed s : auto_step e s (add_failed e s).

(** What may be posted while election [e] is driven: bundles, and requests that
    name the election. *)
Definition about (e : string) (og : outgoing) : Prop :=
  og_path og = "/auth/bootstrap" ∨ getitem (og_body og) "electionId" = Ok (JStr e).

Inductive step (e : string) : relation (world env) :=
| step_outside w o : step e w (mkWorld (auto w) (api_tokens w) (sent w) o)
| step_post w og o : about e og → step e w (mkWorld (auto w) (api_tokens w) (sent w ++ [og]) o)
| step_tokens w t : step e w (mkWorld (auto w) t (sent w) (outside w))
| step_auto w s' : auto_step e (auto w) s' → step e w (mkWorld s' (api_tokens w) (sent w) (outside w)).

(** [m] only takes steps for [e]. *)
Definition takes (e : string) {A} (m : act env A) : Prop := ∀ w0, keeps (rtc (step e) w0) m.

Lemma takes_access e {A} (f : env → env * result A) : takes e (access f).
Proof.
  intros w0 w Hw. split; [|done]. unfold access. destruct (f (outside w)) as [o r].
  eapply rtc_r; [done|]. apply step_outside.
Qed.
Lemma takes_query e {A} (f : env → env * A) : takes e (query f).
Proof. apply takes_access. Qed.
Lemma takes_set_tokens e t : takes e (set_tokens t).
Proof. intros w0 w Hw. split; [|done]. eapply rtc_r; [done|]. apply step_tokens. Qed.
Lemma takes_update e f : (∀ s, auto_step e s (f s)) → takes e (update f).
Proof. intros Hf w0 w Hw. split; [|done]. eapply rtc_r; [done|]. by apply step_auto. Qed.
End steps.

Section coordinator_steps.
Context `{Crypto} `{EthAccount} `{Abi} `{SealPrimitives}.
Context (float_repr : Z → Z → string) (py_repr : json → string).
Context {env store : Type} `{DataLayer store} `{!Outside env store}.
Context (cfg : settings).

Lemma takes_dl_read e {A} (f : store → result A) : takes e (dl_read f : act env A).
Proof. apply takes_access. Qed.
Lemma takes_dl_write e {A} (f : store → result (store * A)) : takes e (dl_write f : act env A).
Proof. apply takes_access. Qed.
Lemma takes_clock e : takes e (clock : act env Z).
Proof. apply takes_access. Qed.
Lemma takes_http_get e url : takes e (http_get url : act env response).
Proof. apply takes_access. Qed.
Lemma takes_http_post e base path b body : about e (mkOutgoing base path b body) →
  takes e (http_post base path b body : act env response).
Proof.
  intros Ha w0 w Hw. split; [|done]. unfold http_post. destruct (out_post _ _ _ _ _) as [o r].
  eapply rtc_r; [done|]. by apply step_post.
Qed.

#[local] Create HintDb takes.
#[local] Hint Resolve takes_dl_read takes_dl_write takes_clock takes_http_get takes_query takes_set_tokens
  takes_http_post : takes.
#[local] Hint Extern 1 (about _ _) => first [by left | by right] : takes.
#[local] Hint Extern 1 (takes _ (update _)) => apply takes_update; intros; constructor : takes.

Ltac leaf := match goal with |- ensures (rtc (step ?e) ?w0) ?m _ =>
  let Ht := fresh "Ht" in assert (Ht : takes e m) by solve [auto with takes nocore]; exact (Ht w0) end.
Ltac steps := intros ?; walk ltac:(idtac; leaf).

Lemma takes_credential e url : takes e (credential url : act env (json * json)).
Proof.
  intros w0 [s t sn o] Hw. split; [|done]. cbn. unfold credential, mbind, act_bind, the_auto. cbn.
  destruct (token_store s) as [file|] eqn:Ef; cbn.
  - destruct (token_get file url) as [[d|]|] eqn:Eg; cbn; [| |done].
    + unfold lift. destruct (dict_item d "api_token"), (dict_item d "peer_token"); done.
    + unfold query, access. cbn. destruct (out_token o) as [o1 api]. cbn. destruct (out_token o1) as [o2 peer]. cbn.
      rewrite Ef. cbn. assert (Hw' : rtc (step e) w0 (mkWorld s t sn o2)) by (eapply rtc_r; [done|apply step_outside]).
      destruct (token_put file url (JStr api) (JStr peer)) as [file'|] eqn:Ep; cbn; [|done].
      eapply rtc_r; [done|]. apply (step_auto e (mkWorld s t sn o2)). by eapply step_mint.
  - unfold query, access. cbn. destruct (out_token o) as [o1 api]. cbn. destruct (out_token o1) as [o2 peer]. cbn.
    rewrite Ef. cbn. eapply rtc_r; [done|apply step_outside].
Qed.

#[local] Hint Resolve takes_credential : takes.

Abbreviation rebooter := (option (Z → act env (option json))).
Definition takes_again (e : string) (again : rebooter) : Prop := ∀ f i, again = Some f → takes e (f i).

Lemma takes_bootstrap_keypers e urls member_addrs install :
  takes e (bootstrap_keypers float_repr cfg urls member_addrs install : act env _).
Proof. unfold bootstrap_keypers, install_bundle, encryption_key. steps. Qed.
#[local] Hint Resolve takes_bootstrap_keypers : takes.

Lemma takes_bootstrap e urls member_addrs : takes e (_bootstrap float_repr cfg urls member_addrs : act env _).
Proof. unfold _bootstrap. steps. Qed.
#[local] Hint Resolve takes_bootstrap : takes.

Lemma takes_committee_tokens e urls member_addrs : takes e (_committee_tokens float_repr cfg urls member_addrs : act env _).
Proof. unfold _committee_tokens. steps. Qed.
Lemma takes_rebootstrap_one e urls member_addrs i : takes e (_rebootstrap_one float_repr cfg urls member_addrs i : act env _).
Proof. unfold _rebootstrap_one. steps. Qed.
#[local] Hint Resolve takes_committee_tokens takes_rebootstrap_one : takes.

Lemma takes_authorized_post e (again : rebooter) base path i body : takes_again e again →
  getitem body "electionId" = Ok (JStr e) → takes e (authorized_post py_repr again base path i body).
Proof.
  intros Ha Hb. unfold authorized_post.
  assert (∀ b, about e (mkOutgoing (rstrip_slash base) path b body)) by (intros; by right).
  destruct again as [f|]; [assert (∀ i, takes e (f i)) by (intros; by apply Ha)|]; steps.
Qed.

#[local] Hint Extern 1 (getitem _ _ = _) => reflexivity : takes.
#[local] Hint Resolve takes_authorized_post : takes.

Lemma takes_post_keyper eid (again : rebooter) base path i extra : takes_again (hex eid) again →
  takes (hex eid) (_post_keyper py_repr again base path eid i extra).
Proof. intros Ha. unfold _post_keyper. steps. Qed.

Lemma takes_call eid (again : rebooter) urls i phase : takes_again (hex eid) again →
  takes (hex eid) (call py_repr again urls eid i phase).
Proof. intros Ha. unfold call. steps. Qed.
#[local] Hint Resolve takes_post_keyper takes_call : takes.

Lemma takes_run_dkg_http eid (again : rebooter) urls : takes_again (hex eid) again →
  takes (hex eid) (run_dkg_http py_repr again eid urls).
Proof.
  intros Ha. unfold run_dkg_http, publish_phase, round2_complaints.
  assert (Hr : ∀ fuel complaints, takes (hex eid) (repair py_repr fuel again urls eid complaints)).
  { intros fuel. induction fuel as [|fuel IH]; intros [|c complaints]; cbn [repair]; unfold round2_complaints, reveal; steps. }
  steps.
Qed.

Lemma takes_trigger_aggregate eid (again : rebooter) urls recompute : takes_again (hex eid) again →
  takes (hex eid) (trigger_aggregate_http py_repr again eid urls recompute).
Proof. intros Ha. unfold trigger_aggregate_http. steps. Qed.
Lemma takes_trigger_decrypt eid (again : rebooter) urls : takes_again (hex eid) again →
  takes (hex eid) (trigger_decrypt_http py_repr again eid urls).
Proof. intros Ha. unfold trigger_decrypt_http. steps. Qed.
Lemma takes_again_one e urls member_addrs : takes_again e (Some (_rebootstrap_one float_repr cfg urls member_addrs)).
Proof. intros f i [= <-]. apply takes_rebootstrap_one. Qed.
#[local] Hint Resolve takes_run_dkg_http takes_trigger_aggregate takes_trigger_decrypt takes_again_one : takes.

Lemma takes_drive_dkg eid config now : takes (hex eid) (_drive_dkg float_repr py_repr cfg eid config now : act env _).
Proof. unfold _drive_dkg, dkg_ceremony, put_attempts. steps. Qed.

Lemma takes_drive_tally eid config : takes (hex eid) (_drive_tally float_repr py_repr cfg eid config : act env _).
Proof.
  unfold _drive_tally, decrypt_phase, no_quorum, fresh_budget, put_tally_attempts, _abandon, _mark_tally_stalled,
    _past_tally_deadline, has_aggregate, _tally_transition. steps.
Qed.
#[local] Hint Resolve takes_drive_dkg takes_drive_tally : takes.

Lemma takes_process eid rec now : takes (hex eid) (_process float_repr py_repr cfg eid rec now : act env _).
Proof. unfold _process. steps. Qed.
End coordinator_steps.
