(* ===== verification/CoordinatorSafety.v ===== *)
(** What the coordinator guarantees whatever the keypers answer: credentials
    are never replaced, one election does not disturb another, a complaint costs
    only the keyper that makes it, nobody decrypts before there is a canonical
    aggregate, and how failures are retried. *)

From S2P Require Import Prelude Params Primality Field Points Transcript Dkg Types Config Codecs WriteAuth DataLayer Port Keyper Bootstrap Http Coordinator CoordinatorSteps.

Section coordinator_scan.
Context `{Crypto} `{EthAccount} `{Abi} `{SealPrimitives}.
Context (float_repr : Z → Z → string) (py_repr : json → string).
Context {env store : Type} `{DataLayer store} `{!Outside env store}.
Context (cfg : settings).

(** * A whole scan *)

(** Steps of elections other than [x]. *)
Definition other_step (x : option string) (w w' : world env) : Prop := ∃ e, Some e ≠ x ∧ step e w w'.

Lemma takes_other {A} (m : act env A) x e w0 : takes e m → Some e ≠ x → keeps (rtc (other_step x) w0) m.
Proof.
  intros Hm Hx w Hw. split; [|done]. destruct (Hm w w) as [Hs _]; [done|]. etrans; [done|].
  eapply rtc_subrel; [|exact Hs]. intros v v' Hv. by exists e.
Qed.

(** Worlds that differ at most outside. *)
Definition same_inside (w0 w : world env) : Prop := ∃ o, w = mkWorld (auto w0) (api_tokens w0) (sent w0) o.

Lemma inside_access {A} (f : env → env * result A) w0 : keeps (same_inside w0) (access f).
Proof. intros w (o & ->). unfold access. cbn. destruct (f o) as [o' r]. split; [by exists o'|done]. Qed.

Lemma string_cons_neq a x : String a x ≠ x.
Proof. revert a. induction x as [|b x IH]; [done|]. intros a [= -> E]. by apply (IH b). Qed.
Lemma other_outside (x : option string) w0 w : same_inside w0 w → other_step x w0 w.
Proof.
  intros (o & ->). assert (∃ e, Some e ≠ x) as (e & He); [|exists e; split; [done|apply step_outside]].
  destruct x as [x|]; [|by exists ""]. exists (String Ascii.zero x). intros [= E]. by apply string_cons_neq in E.
Qed.

Definition finished (s : AutoDKG) (e : string) : Prop := e ∈ _done s ∨ e ∈ _failed s.

(** Triage changes nothing of the watcher, leaves out what is finished and
    forgets no election. *)
Record triaged (s : AutoDKG) (ids : list bytes) (acc : dict string string * list (bytes * ElectionRecord)) : Prop := {
  triaged_unfinished p : p ∈ acc.2 → ¬ finished s (hex p.1);
  triaged_all e : e ∈ dict_keys acc.1 ∨ e ∈ (λ p, hex p.1) <$> acc.2 ↔ e ∈ hex <$> ids;
}.

Lemma dict_set_keys {V} (d : dict string V) k v e : e ∈ dict_keys (dict_set d k v) ↔ e = k ∨ e ∈ dict_keys d.
Proof.
  rewrite !elem_dict_keys, dict_get_set. case_decide as Hc; [subst; split; [by left|by eexists]|]. split; [by right|by intros [->|?]].
Qed.

Lemma triage_one w0 ids eid acc : triaged (auto w0) ids acc →
  ensures (same_inside w0) (triage acc eid : act env _) (triaged (auto w0) (ids ++ [eid])).
Proof.
  intros [Hu Ha] w (o & ->). destruct acc as [outcomes pending]. cbn [fst snd] in *.
  unfold triage, mbind, act_bind, the_auto. cbn.
  assert (Hset : ∀ v, triaged (auto w0) (ids ++ [eid]) (dict_set outcomes (hex eid) v, pending)).
  { intros v. split; [done|]. intros e. cbn [fst snd]. rewrite dict_set_keys, fmap_app, elem_of_app, <- Ha. set_solver. }
  case_bool_decide as Hd; [split; [by eexists|]; by intros ? <-%Ok_inj|].
  case_bool_decide as Hf; [split; [by eexists|]; by intros ? <-%Ok_inj|].
  unfold catch, dl_read, access. cbn. destruct (out_layer o) as [o' l]. cbn. split; [by eexists|].
  intros ? <-%Ok_inj. destruct (dl_get_election l eid) as [rec|]; cbn; [|done]. split; cbn [fst snd].
  - intros p [Hp|Hp%list_elem_of_singleton]%elem_of_app; [by apply Hu|]. subst p. cbn. by intros [?|?].
  - intros e. rewrite !fmap_app, !elem_of_app, <- Ha. set_solver.
Qed.

Lemma triage_all w0 ids : ensures (same_inside w0) (fold ids triage ([], []) : act env _) (triaged (auto w0) ids).
Proof.
  assert (Hg : ∀ todo done_ acc, triaged (auto w0) done_ acc →
    ensures (same_inside w0) (fold todo triage acc : act env _) (triaged (auto w0) (done_ ++ todo))).
  { intros todo. induction todo as [|eid todo IH]; intros done_ acc Hacc; cbn [fold].
    - rewrite app_nil_r. by apply ensures_ret.
    - eapply ensures_bind; [by apply triage_one|]. intros acc' Hacc'. rewrite cons_middle, app_assoc. by apply IH. }
  apply (Hg ids []). split; [intros p Hp; by apply not_elem_of_nil in Hp|]. intros e. cbn. set_solver.
Qed.

(** Triage never raises. *)
Lemma fold_total {X S} (l : list X) (f : S → X → act env S) s w :
  (∀ s x w, ∃ s', (f s x w).2 = Ok s') → ∃ s', (fold l f s w).2 = Ok s'.
Proof.
  intros Hf. revert s w. induction l as [|x l IH]; intros s w; cbn; [by eexists|].
  unfold mbind, act_bind. destruct (Hf s x w) as [s' Hs]. destruct (f s x w) as [w1 r]. cbn in Hs. subst r. apply IH.
Qed.

Lemma triage_total acc eid (w : world env) : ∃ acc', (triage acc eid w).2 = Ok acc'.
Proof.
  destruct acc as [outcomes pending]. unfold triage, mbind, act_bind, the_auto. cbn.
  case_bool_decide; [by eexists|]. case_bool_decide; [by eexists|].
  unfold catch, dl_read, access. destruct (out_layer _) as [o l]. by eexists.
Qed.

Abbreviation scan := (scan_once float_repr py_repr cfg : act env _).
Abbreviation scan_pending now := (λ outcomes p, scan_one float_repr py_repr cfg now outcomes p : act env _).

Lemma scan_one_run now outcomes p (w : world env) : ∃ o,
  scan_pending now outcomes p w = ((_process float_repr py_repr cfg p.1 p.2 now w).1, Ok (dict_set outcomes (hex p.1) o)).
Proof.
  unfold scan_one, mbind, act_bind, catch. destruct (_process _ _ _ _ _ _ w) as [w1 [o|e]]; cbn; by eexists.
Qed.

Lemma process_keys now pending outcomes (w : world env) : ∃ outcomes',
  (fold pending (scan_pending now) outcomes w).2 = Ok outcomes' ∧
  ∀ e, e ∈ dict_keys outcomes' ↔ e ∈ dict_keys outcomes ∨ e ∈ (λ p, hex p.1) <$> pending.
Proof.
  revert outcomes w. induction pending as [|p pending IH]; intros outcomes w.
  - exists outcomes. split; [done|]. intros e. cbn. set_solver.
  - cbn [fold]. unfold mbind at 1, act_bind. destruct (scan_one_run now outcomes p w) as [o ->].
    destruct (IH (dict_set outcomes (hex p.1) o) (_process float_repr py_repr cfg p.1 p.2 now w).1) as (out & -> & Hout).
    exists out. split; [done|]. intros e. rewrite Hout, dict_set_keys. cbn. set_solver.
Qed.

(** The data layer that a scan lists. *)
Definition listed (w : world env) : result (list bytes) := dl_list_elections (out_layer (out_clock (outside w)).1).2 None.

(** A scan in three parts. *)
Lemma scan_parts w ids : listed w = Ok ids → ∃ now w1 outcomes pending, same_inside w w1 ∧
  triaged (auto w) ids (outcomes, pending) ∧
  scan w = fold (merge_sort opens_first pending) (scan_pending now) outcomes w1.
Proof.
  intros Hids. unfold scan_once. unfold mbind at 1, act_bind, clock, query, access.
  unfold listed in Hids. destruct w as [s t sn o]. cbn in *. destruct (out_clock o) as [o1 now]. cbn in *.
  unfold mbind at 1, act_bind, dl_read, access. cbn. destruct (out_layer o1) as [o2 l]. cbn in *. rewrite Hids.
  unfold mbind at 1, act_bind.
  destruct (triage_all (mkWorld s t sn o2) ids (mkWorld s t sn o2)) as [Hin Hq]; [by exists o2|].
  destruct (fold_total ids triage ([], []) (mkWorld s t sn o2) triage_total) as [[outcomes pending] E].
  specialize (Hq _ E). destruct (fold ids triage _ _) as [w1 r]. cbn in E, Hin. subst r.
  exists now, w1, outcomes, pending. split_and!; [|done|done]. destruct Hin as (o3 & ->). by exists o3.
Qed.

(** A scan gives an outcome to every election of the data layer and to no
    other, and does not raise: nothing that a keyper answers, and no failure of
    the data layer on one election, ends the pass. *)
Theorem scan_covers w ids : listed w = Ok ids →
  ∃ outcomes, (scan w).2 = Ok outcomes ∧ ∀ e, e ∈ dict_keys outcomes ↔ e ∈ hex <$> ids.
Proof.
  intros Hids. destruct (scan_parts w ids Hids) as (now & w1 & out & pending & _ & [_ Ha] & ->).
  destruct (process_keys now (merge_sort opens_first pending) out w1) as (out' & -> & Hout).
  exists out'. split; [done|]. intros e. rewrite Hout, <- Ha. cbn [fst snd].
  by rewrite (merge_sort_Permutation opens_first pending).
Qed.

(** A scan takes steps of unfinished elections only. *)
Lemma process_other x now pending outcomes w0 : (∀ p, p ∈ pending → Some (hex p.1) ≠ x) →
  keeps (rtc (other_step x) w0) (fold pending (scan_pending now) outcomes).
Proof.
  intros Hp. apply keeps_fold. intros out p Hin w Hw. destruct (scan_one_run now out p w) as [o ->]. split; [|done].
  cbn [fst]. apply (takes_other _ x (hex p.1)); [|by apply Hp|done]. apply takes_process.
Qed.

Lemma scan_other x w : (∀ e, x = Some e → finished (auto w) e) → rtc (other_step x) w (scan w).1.
Proof.
  intros Hx. destruct (listed w) as [ids|err] eqn:Hids.
  - destruct (scan_parts w ids Hids) as (now & w1 & out & pending & Hin & [Hu _] & ->).
    apply (process_other x now).
    + intros p Hp Hc. rewrite (merge_sort_Permutation opens_first) in Hp. apply (Hu p Hp). by apply Hx.
    + apply rtc_once. by apply other_outside.
  - apply rtc_once, other_outside. unfold scan_once, mbind, act_bind, clock, query, access. unfold listed in Hids.
    destruct w as [s t sn o]. cbn in *. destruct (out_clock o) as [o1 now]. cbn in *. unfold dl_read, access. cbn.
    destruct (out_layer o1) as [o2 l]. cbn in *. rewrite Hids. by exists o2.
Qed.

(** ** What a poll can do *)

Abbreviation polls n := (run_forever float_repr py_repr cfg n : act env unit).

(** An invariant of the steps of unfinished elections holds after any polls. *)
Lemma polls_keep x (P : world env → Prop) n : (∀ w w', P w → other_step x w w' → P w') →
  (∀ w e, P w → x = Some e → finished (auto w) e) → keeps P (polls n).
Proof.
  intros Hs Hf. induction n as [|n IH]; cbn [run_forever]; [apply acts_ret|].
  apply acts_bind; [|done]. apply keeps_catch. intros w Hw. split; [|done].
  assert (Hr : rtc (other_step x) w (scan w).1) by (apply scan_other; eauto).
  clear -Hs Hw Hr. induction Hr; eauto.
Qed.

(** A request that names election [e]. *)
Definition names (e : string) (og : outgoing) : Prop :=
  og_path og ≠ "/auth/bootstrap" ∧ getitem (og_body og) "electionId" = Ok (JStr e).

Lemma step_finished e e' w w' : step (env := env) e' w w' → finished (auto w) e → finished (auto w') e.
Proof. intros Hs. inversion Hs as [| | |? s' Ha]; subst; try done. destruct Ha; unfold finished; cbn; set_solver. Qed.

Lemma step_silent e e' w w' : step (env := env) e' w w' → e' ≠ e → ∃ l, sent w' = sent w ++ l ∧ Forall (λ og, ¬ names e og) l.
Proof.
  intros Hs He. inversion Hs as [|? og o Ho| |]; subst; cbn; try (exists []; by rewrite app_nil_r).
  exists [og]. split; [done|]. repeat constructor. intros [Hp Hb]. destruct Ho as [?|Hb']; [done|].
  rewrite Hb in Hb'. by injection Hb' as ->.
Qed.

(** Once an election is complete or its key generation has failed for good,
    it stays so: however often the coordinator polls, and whatever the keypers
    and the data layer answer, it never again sends a request about it. *)
Theorem finished_is_final n w e : finished (auto w) e →
  let w' := (polls n w).1 in
  finished (auto w') e ∧ ∃ l, sent w' = sent w ++ l ∧ Forall (λ og, ¬ names e og) l.
Proof.
  intros He. apply (polls_keep (Some e) (λ w', finished (auto w') e ∧ ∃ l, sent w' = sent w ++ l ∧ Forall (λ og, ¬ names e og) l)).
  - intros w1 w2 [Hf (l & Hl & Hn)] (e' & Hne & Hs). split; [by eapply step_finished|].
    destruct (step_silent e e' w1 w2 Hs) as (l' & Hl' & Hn'); [congruence|].
    exists (l ++ l'). rewrite Hl', Hl, app_assoc. split; [done|]. by apply Forall_app.
  - by intros w1 e1 [Hf _] [= <-].
  - split; [done|]. exists []. by rewrite app_nil_r.
Qed.

(** ** Credentials *)

(** Every credential of [file] is in [file'], unchanged. *)
Definition keeps_credentials (file file' : option json) : Prop :=
  ∀ url cred, token_get file url = Ok (Some cred) → token_get file' url = Ok (Some cred).

Lemma token_get_data file data url : _load file = JObj data →
  token_get file url = match dict_get data url with
                       | Some entry => if py_bool entry then d ← py_dict entry; Ok (Some d) else Ok None
                       | None => Ok None
                       end.
Proof. intros E. unfold token_get. rewrite E. cbn. by destruct (dict_get data url). Qed.

Lemma token_put_data file url api peer file' : token_put file url api peer = Ok file' → ∃ data,
  _load file = JObj data ∧ _load file' = JObj (dict_set data url (JObj [("api_token", api); ("peer_token", peer)])).
Proof.
  unfold token_put. destruct (_load file) as [| | | | | |data]; try done. intros <-%Ok_inj. by exists data.
Qed.

Lemma token_put_keeps file url api peer file' : token_get file url = Ok None →
  token_put file url api peer = Ok file' → keeps_credentials file file'.
Proof.
  intros Hn (data & E & E')%token_put_data u cred Hu. rewrite (token_get_data _ _ _ E') , dict_get_set.
  case_decide; [by subst; rewrite Hn in Hu|]. by rewrite (token_get_data _ _ _ E) in Hu.
Qed.

Lemma token_put_get file url api peer file' : token_put file url api peer = Ok file' →
  token_get file' url = Ok (Some [("api_token", api); ("peer_token", peer)]).
Proof. intros (data & _ & E)%token_put_data. by rewrite (token_get_data _ _ _ E), dict_get_set, decide_True. Qed.

(** The credential of a keyper, once stored, is never replaced: no number of
    polls, for elections with whatever overlapping committees, changes it. *)
Theorem credentials_stable n w file : token_store (auto w) = Some file →
  ∃ file', token_store (auto (polls n w).1) = Some file' ∧ keeps_credentials file file'.
Proof.
  intros Hf. apply (polls_keep None (λ w', ∃ file', token_store (auto w') = Some file' ∧ keeps_credentials file file')).
  - intros w1 w2 (f1 & E1 & Hk) (e & _ & Hs). inversion Hs as [| | |? s' Ha]; subst; cbn; eauto.
    destruct Ha as [s f2 url api peer f3 E2 Hg Hp| | | | | |]; cbn in *; eauto. rewrite E1 in E2. injection E2 as <-.
    exists f3. split; [done|]. intros u c Hu. eapply token_put_keeps; [done|done|]. by apply Hk.
  - done.
  - exists file. split; [done|]. by intros u c Hu.
Qed.

End coordinator_scan.
