(* ===== verification/CoordinatorCeremony.v ===== *)
(** The ceremony and the tally that the coordinator drives, against keypers and a
    data layer of which only a closed property is known: a property that every
    access preserves. *)

From S2P Require Import Prelude Params Primality Field Points Transcript Dkg Types Config Codecs WriteAuth DataLayer Port Keyper Bootstrap Http Coordinator CoordinatorSteps CoordinatorSafety.

Section closed.
Context `{Crypto} `{EthAccount} `{Abi} `{SealPrimitives}.
Context (float_repr : Z → Z → string) (py_repr : json → string).
Context {env store : Type} `{DataLayer store} `{!Outside env store}.
Context (cfg : settings).

(** What is outside keeps [P]. *)
Record closed (P : env → Prop) : Prop := {
  closed_get o url : P o → P (out_get o url).1;
  closed_post o base path b body : P o → P (out_post o base path b body).1;
  closed_layer o : P o → P (out_layer o).1;
  closed_clock o : P o → P (out_clock o).1;
  closed_time o : P o → P (out_time o).1;
  closed_token o : P o → P (out_token o).1;
  closed_hex o : P o → P (out_hex o).1;
  closed_seal o : P o → P (out_seal o).1;
}.

Context (P : env → Prop) (HP : closed P).
(** The tokens at hand satisfy [T], and every request since [w0] satisfies [ok]. *)
Context (T : dict Z json → Prop) (ok : outgoing → Prop) (w0 : world env).

Definition under (w : world env) : Prop :=
  P (outside w) ∧ T (api_tokens w) ∧ ∃ l, sent w = sent w0 ++ l ∧ Forall ok l.

Lemma under_query {A} (f : env → env * A) : (∀ o, P o → P (f o).1) → keeps under (query f).
Proof.
  intros Hf [s t sn o] (Ho & Ht & Hs). split; [|done]. unfold query, access. cbn in *. specialize (Hf o Ho).
  by destruct (f o).
Qed.
Lemma under_get url : keeps under (http_get url).
Proof.
  intros [s t sn o] (Ho & Ht & Hs). split; [|done]. unfold http_get, access. cbn in *.
  pose proof (closed_get P HP o url Ho). by destruct (out_get o url).
Qed.
Lemma under_post base path b body : ok (mkOutgoing base path b body) → keeps under (http_post base path b body).
Proof.
  intros Hok [s t sn o] (Ho & Ht & l & Hs & Hl). split; [|done]. unfold http_post. cbn in *.
  pose proof (closed_post P HP o base path b body Ho). destruct (out_post o base path b body). split_and!; [done|done|].
  exists (l ++ [mkOutgoing base path b body]). cbn. rewrite Hs, app_assoc. split; [done|]. by apply Forall_app_2; [|constructor].
Qed.
Lemma under_dl_read {A} (f : store → result A) : keeps under (dl_read f).
Proof.
  intros [s t sn o] (Ho & Ht & Hs). split; [|done]. unfold dl_read, access. cbn in *.
  pose proof (closed_layer P HP o Ho). by destruct (out_layer o).
Qed.
Lemma under_update f : keeps under (update f).
Proof. intros [s t sn o] Hw. by split. Qed.
Lemma under_set_tokens t : T t → keeps under (set_tokens t).
Proof. intros Ht [s t' sn o] (Ho & _ & Hs). by split. Qed.

#[local] Create HintDb under.
#[local] Hint Resolve under_get under_post under_dl_read under_update under_set_tokens under_query : under.
#[local] Hint Extern 1 (∀ o, P o → P _) =>
  first [apply (closed_clock P HP) | apply (closed_time P HP) | apply (closed_token P HP)
        | apply (closed_hex P HP) | apply (closed_seal P HP)] : under.
Ltac under_walk := walk ltac:(idtac; solve [eauto with under nocore]).

Lemma under_credential url : keeps under (credential url).
Proof. unfold credential. under_walk. Qed.

Hypothesis ok_bootstrap : ∀ base b body, ok (mkOutgoing base "/auth/bootstrap" b body).
#[local] Hint Resolve under_credential ok_bootstrap : under.

Lemma under_bootstrap_keypers urls member_addrs install :
  keeps under (bootstrap_keypers float_repr cfg urls member_addrs install).
Proof. unfold bootstrap_keypers, install_bundle, encryption_key. under_walk. Qed.
#[local] Hint Resolve under_bootstrap_keypers : under.
Lemma under_rebootstrap_one urls member_addrs i : keeps under (_rebootstrap_one float_repr cfg urls member_addrs i).
Proof. unfold _rebootstrap_one. under_walk. Qed.
Lemma under_committee_tokens urls member_addrs : keeps under (_committee_tokens float_repr cfg urls member_addrs).
Proof. unfold _committee_tokens, _bootstrap. under_walk. Qed.
#[local] Hint Resolve under_rebootstrap_one : under.

Hypothesis T_set : ∀ t i v, T t → T (dict_set t i v).

(** The tokens do not matter for a post. *)
Lemma under_authorized_post urls member_addrs base path i body : (∀ b, ok (mkOutgoing (rstrip_slash base) path b body)) →
  keeps under (authorized_post py_repr (Some (_rebootstrap_one float_repr cfg urls member_addrs)) base path i body).
Proof.
  intros Hok. unfold authorized_post. apply acts_bind; [apply keeps_the_tokens|]. intros tokens.
  apply acts_bind; [apply acts_lift|]. intros token.
  apply acts_bind; [by apply under_post|]. intros r.
  destruct (status_code r =? 401); [|apply acts_ret].
  apply acts_bind; [apply under_rebootstrap_one|]. intros [fresh|]; [|apply acts_ret].
  destruct (py_bool fresh); [|apply acts_ret]. intros [s t sn o] (Ho & Ht & Hs).
  unfold mbind, act_bind, the_tokens, set_tokens. cbn. apply under_post; [apply Hok|]. split_and!; [done|by apply T_set|done].
Qed.

Lemma under_post_keyper urls member_addrs base path eid i extra :
  (∀ b body, ok (mkOutgoing (rstrip_slash base) path b body)) →
  keeps under (_post_keyper py_repr (Some (_rebootstrap_one float_repr cfg urls member_addrs)) base path eid i extra).
Proof.
  intros Hok. unfold _post_keyper. apply acts_bind; [|intros; apply acts_ret].
  apply keeps_catch, under_authorized_post. intros b. apply Hok.
Qed.

End closed.

(** * No decryption before the canonical aggregate *)

Section tally.
Context `{Crypto} `{EthAccount} `{Abi} `{SealPrimitives}.
Context (float_repr : Z → Z → string) (py_repr : json → string).
Context {env store : Type} `{DataLayer store} `{!Outside env store}.
Context (cfg : settings) (eid : bytes) (P : env → Prop).

(** No canonical aggregate appears, and the mark of a stalled tally does not make one. *)
Record no_aggregate : Prop := {
  no_aggregate_closed : closed P;
  no_aggregate_read o : P o → dl_get_aggregate (out_layer o).2 eid = Ok None;
  no_aggregate_mark o now now' sig t l : P o →
    dl_set_tally_stalled (out_layer o).2 now now' eid true sig t = Ok l → P (out_write (out_layer o).1 l);
}.

Context (HP : no_aggregate) (w0 : world env).
Let quiet := under P (λ _, True) (λ og, og_path og ≠ "/publish_decr_share") w0.

Lemma quiet_has_aggregate : ensures quiet (has_aggregate eid) (λ b, b = false).
Proof.
  unfold has_aggregate. apply (ensures_bind _ _ _ (λ a, a = None)); [|by intros ? ->; apply ensures_ret].
  intros w Hw. split; [by apply (under_dl_read P (no_aggregate_closed HP))|].
  intros a. unfold dl_read, access. destruct Hw as (Ho & _). pose proof (no_aggregate_read HP _ Ho) as Hr.
  destruct (out_layer (outside w)) as [o l]. cbn in *. rewrite Hr. by intros <-%Ok_inj.
Qed.

Lemma quiet_mark : keeps quiet (_mark_tally_stalled cfg eid).
Proof.
  pose proof (no_aggregate_closed HP) as Hc. unfold _mark_tally_stalled.
  repeat (apply acts_bind; [|intros ?]); try apply acts_ret; try apply acts_lift;
    [by apply under_query, closed_clock|].
  apply keeps_catch. repeat (apply acts_bind; [|intros ?]); try apply acts_lift;
    [by apply under_query, closed_time..|].
  intros [s t sn o] (Ho & Ht & Hs). split; [|done]. unfold dl_write, access. cbn in *.
  destruct (out_layer o) as [o' l] eqn:E. destruct (dl_set_tally_stalled l _ _ eid true _ _) as [l'|e] eqn:Es; cbn.
  - split_and!; [|done|done]. cbn. pose proof (no_aggregate_mark HP o) as Hm. rewrite E in Hm. by eapply Hm.
  - split_and!; [|done|done]. cbn. pose proof (closed_layer P Hc o Ho) as Hl. by rewrite E in Hl.
Qed.

Lemma quiet_abandon : ensures quiet (_abandon cfg eid) (λ out, out = "tally_abandoned").
Proof. eapply ensures_bind; [apply quiet_mark|]. intros _ _. by apply ensures_ret. Qed.

Lemma quiet_trigger urls member_addrs recompute : keeps quiet
  (trigger_aggregate_http py_repr (Some (_rebootstrap_one float_repr cfg urls member_addrs)) eid urls recompute).
Proof.
  unfold trigger_aggregate_http. apply keeps_fold. intros out e _. apply acts_bind; [|intros; apply acts_ret].
  apply under_post_keyper; [apply HP|by intros|done|by intros].
Qed.

(** C29: While the data layer shows no canonical aggregate, driving a tally never
    asks a keyper for a decryption share, whatever the keypers answer; the tally
    does not count as done, and it never reports a result. *)
Theorem no_early_decryption config : P (outside w0) →
  let '(w', r) := _drive_tally float_repr py_repr cfg eid config w0 in
  (∃ l, sent w' = sent w0 ++ l ∧ Forall (λ og, og_path og ≠ "/publish_decr_share") l)
  ∧ r ≠ Ok "tallied" ∧ r ≠ Ok "collecting_shares".
Proof.
  intros Ho. assert (Hd : ensures quiet (_drive_tally float_repr py_repr cfg eid config)
    (λ out, out ≠ "tallied" ∧ out ≠ "collecting_shares")).
  { unfold _drive_tally. destruct (missing_url _); [by apply ensures_ret|].
    eapply ensures_bind; [apply keeps_catch, under_committee_tokens; [apply HP|by intros]|].
    intros [tokens|e] _; [|by apply ensures_ret].
    eapply ensures_bind; [by apply under_set_tokens|]. intros _ _.
    eapply ensures_bind; [unfold fresh_budget, put_tally_attempts; walk ltac:(apply under_update)|]. intros att _.
    eapply ensures_bind; [apply quiet_has_aggregate|]. intros ? ->.
    eapply ensures_bind; [apply under_update|]. intros _ _.
    eapply ensures_bind; [apply quiet_trigger|]. intros statuses _.
    eapply ensures_bind; [apply quiet_has_aggregate|]. intros ? ->.
    unfold no_quorum.
    eapply ensures_bind; [unfold _past_tally_deadline; apply acts_bind; [by apply under_query, closed_clock, HP|intros; apply acts_ret]|].
    assert (Ha : ensures quiet (_abandon cfg eid) (λ out, out ≠ "tallied" ∧ out ≠ "collecting_shares")).
    { eapply ensures_weaken; [apply quiet_abandon|]. by intros ? ->. }
    intros [] _; [done|]. destruct (existsb _ _); [by apply ensures_ret|].
    eapply ensures_bind; [apply under_update|]. intros _ _. destruct (_ <=? _); [done|].
    eapply ensures_bind; [|intros; by apply ensures_ret]. destruct (match _ with [] => _ | _ => _ end); [apply quiet_trigger|apply acts_ret]. }
  destruct (Hd w0) as [(_ & _ & Hl) Hr]; [by split_and!; [..|exists []; rewrite app_nil_r]|].
  destruct (_drive_tally _ _ _ _ _ w0) as [w' r]. cbn in *. split; [done|].
  split; intros ->; by destruct (Hr _ eq_refl).
Qed.
End tally.

(** * The repair loop is bounded *)

Section bounded.
Context `{Crypto} `{EthAccount} `{Abi} `{SealPrimitives}.
Context (float_repr : Z → Z → string) (py_repr : json → string).
Context {env store : Type} `{DataLayer store} `{!Outside env store}.
Context (cfg : settings).

Definition round2_posts (l : list outgoing) : nat := length (filter (λ og, og_path og = "/dkg/round2") l).

(** [m] asks for round 2 at most [c] times, and returns what satisfies [Q]. *)
Definition asks (c : nat) {A} (m : act env A) (Q : A → Prop) : Prop :=
  ∀ w, (∃ l, sent (m w).1 = sent w ++ l ∧ round2_posts l <= c)%nat ∧ ∀ a, (m w).2 = Ok a → Q a.

Lemma asks_bind c d {A B} (m : act env A) (f : A → act env B) Q Q' :
  asks c m Q → (∀ a, Q a → asks d (f a) Q') → asks (c + d) (m ≫= f) Q'.
Proof.
  intros Hm Hf w. destruct (Hm w) as [(l & Hl & Hc) Hq]. unfold mbind, act_bind.
  destruct (m w) as [w1 [a|e]]; cbn in *.
  - destruct (Hf a (Hq a eq_refl) w1) as [(l' & Hl' & Hd) Hq']. split; [|done].
    exists (l ++ l'). rewrite Hl', Hl, app_assoc. split; [done|]. unfold round2_posts in *. rewrite filter_app, length_app. lia.
  - split; [|done]. exists l. split; [done|lia].
Qed.

Lemma asks_more c d {A} (m : act env A) (Q Q' : A → Prop) : asks c m Q → (c <= d)%nat → (∀ a, Q a → Q' a) → asks d m Q'.
Proof. intros Hm Hd HQ w. destruct (Hm w) as [(l & Hl & Hc) Hq]. split; [exists l; split; [done|lia]|eauto]. Qed.

(** Computations that send no request for round 2. *)
Abbreviation silent m := (∀ w0, keeps (under (λ _ : env, True) (λ _, True) (λ og, og_path og ≠ "/dkg/round2") w0) m).
Lemma all_closed : closed (λ _ : env, True).
Proof. by constructor. Qed.

Lemma asks_silent {A} (m : act env A) : silent m → asks 0 m (λ _, True).
Proof.
  intros Hm w. destruct (Hm w w) as [(_ & _ & l & Hl & Hok) _]; [split_and!; [done..|exists []; by rewrite app_nil_r]|].
  split; [|done]. exists l. split; [done|]. unfold round2_posts. clear Hl.
  induction Hok as [|og l Hog _ IH]; [done|]. by rewrite filter_cons_False.
Qed.
Lemma asks_ret {A} (a : A) (Q : A → Prop) : Q a → asks 0 (mret a) Q.
Proof. intros Ha w. split; [exists []; by rewrite app_nil_r|]. by intros ? <-%Ok_inj. Qed.
Lemma asks_lift {A} (r : result A) : asks 0 (lift r) (λ _, True).
Proof. intros w. split; [exists []; by rewrite app_nil_r|done]. Qed.
Lemma asks_return c {A} (a : A) : asks c (mret a) (λ _, True).
Proof. apply (asks_more 0 _ _ (λ _, True)); [by apply asks_ret|lia|done]. Qed.
Lemma asks_the_tokens : asks 0 (the_tokens : act env _) (λ _, True).
Proof. intros w. split; [exists []; by rewrite app_nil_r|done]. Qed.
Lemma asks_set_tokens t : asks 0 (set_tokens t : act env _) (λ _, True).
Proof. intros w. split; [exists []; by rewrite app_nil_r|done]. Qed.
Lemma asks_catch c {A} (m : act env A) : asks c m (λ _, True) → asks c (catch m) (λ _, True).
Proof. intros Hm w. destruct (Hm w) as [Hl _]. split; [|done]. unfold catch. by destruct (m w) as [w1 [a|e]]. Qed.
Lemma asks_each c {X} (l : list X) (f : X → act env unit) : (∀ x, x ∈ l → asks c (f x) (λ _, True)) →
  asks (length l * c) (each l f) (λ _, True).
Proof.
  induction l as [|x l IH]; intros Hf; cbn [each length Nat.mul]; [by apply asks_ret|].
  eapply asks_bind; [apply Hf; left|]. intros _ _. apply IH. intros y Hy. apply Hf. by right.
Qed.

Section ceremony.
Context (eid : bytes) (urls : dict Z string) (member_addrs : dict Z bytes).
Abbreviation again := (Some (_rebootstrap_one float_repr cfg urls member_addrs)).

Lemma asks_post base path b body : asks 1 (http_post base path b body : act env _) (λ _, True).
Proof.
  intros w. split; [|done]. exists [mkOutgoing base path b body]. unfold http_post.
  destruct (out_post _ _ _ _ _) as [o r]. split; [done|]. unfold round2_posts. rewrite filter_cons. by case_decide; cbn; lia.
Qed.

Lemma asks_authorized_post base path i body : asks 2 (authorized_post py_repr again base path i body) (λ _, True).
Proof.
  unfold authorized_post. eapply (asks_bind 0); [apply asks_the_tokens|]. intros tokens _.
  eapply (asks_bind 0); [apply asks_lift|]. intros token _.
  eapply (asks_bind 1); [apply asks_post|]. intros r _. destruct (_ =? _); [|apply asks_return].
  eapply (asks_bind 0); [apply asks_silent; intros; apply under_rebootstrap_one; [apply all_closed|done]|].
  intros [fresh|] _; [|apply asks_return].
  destruct (py_bool fresh); [|apply asks_return].
  eapply (asks_bind 0); [apply asks_the_tokens|]. intros t _.
  eapply (asks_bind 0); [apply asks_set_tokens|]. intros _ _. apply asks_post.
Qed.

Lemma asks_call i phase : asks 2 (call py_repr again urls eid i phase) (λ _, True).
Proof.
  unfold call. eapply (asks_bind 0 2); [apply asks_lift|]. intros base _.
  eapply (asks_bind 2 0); [apply asks_authorized_post|]. intros r _.
  eapply (asks_bind 0 0); [apply asks_lift|]. intros _ _. apply asks_lift.
Qed.

Lemma asks_round2 targets :
  asks (2 * length targets) (round2_complaints py_repr again urls eid targets) (λ c, length c <= length targets)%nat.
Proof.
  assert (Hg : ∀ out, asks (2 * length targets) (fold targets (λ out i,
      resp ← call py_repr again urls eid i "round2";
      mret match complaint resp with Some accs => dict_set out i accs | None => out end) out)
    (λ c, length c <= length out + length targets)%nat); [|exact (Hg [])].
  induction targets as [|i targets IH]; intros out; cbn [fold length]; [apply asks_ret; lia|].
  replace (2 * S (length targets))%nat with (2 + 2 * length targets)%nat by lia.
  eapply (asks_bind 2 _ _ _ (λ out', length out' <= S (length out))%nat).
  - eapply (asks_bind 2 0); [apply asks_call|]. intros resp _. apply asks_ret. destruct (complaint resp); [|lia].
    clear. induction out as [|[k v] out IH]; cbn; [lia|]. case_decide; cbn; lia.
  - intros out' Ho. eapply asks_more; [apply IH|done|]. cbn. lia.
Qed.

Lemma asks_repair fuel n complaints : (length complaints <= n)%nat →
  asks (fuel * (2 * n)) (repair py_repr fuel again urls eid complaints) (λ _, True).
Proof.
  revert complaints. induction fuel as [|fuel IH]; intros [|c complaints] Hn; cbn [repair];
    try (apply asks_return).
  change (S fuel * (2 * n))%nat with (0 + (2 * n + fuel * (2 * n)))%nat. eapply asks_bind.
  - apply asks_silent. intros w0. apply keeps_each. intros e _. apply acts_bind; [apply acts_lift|]. intros accs.
    apply keeps_each. intros acc _. unfold reveal. walk ltac:(idtac;
      apply under_post_keyper; [apply all_closed|done|done|done]).
  - intros _ _. set (targets := sortedZ _).
    assert (Ht : (length targets <= n)%nat).
    { unfold targets. rewrite (Permutation_length (sortedZ_Permutation _)). unfold dict_keys. by rewrite length_fmap. }
    apply (asks_bind _ _ _ _ (λ c', length c' <= n)%nat); [|exact IH].
    eapply asks_more; [apply asks_round2|by apply Nat.mul_le_mono_l|]. intros c' Hc'. exact (Nat.le_trans _ _ _ Hc' Ht).
Qed.

(** C30: However the keypers answer, one ceremony asks for round 2 at most six
    times per keyper: the first check and two repair rounds, each request
    repeated at most once after a 401. *)
Theorem repair_bounded w : ∃ l,
  sent (run_dkg_http py_repr again eid urls w).1 = sent w ++ l ∧ (round2_posts l <= 6 * length urls)%nat.
Proof.
  assert (Hr : asks (6 * length urls) (run_dkg_http py_repr again eid urls) (λ _, True)); [|by destruct (Hr w)].
  assert (Hi : length (sortedZ (dict_keys urls)) = length urls).
  { rewrite (Permutation_length (sortedZ_Permutation _)). unfold dict_keys. by rewrite length_fmap. }
  assert (Hs : ∀ i phase, ("/dkg/" +:+ phase)%string ≠ "/dkg/round2" → silent (call py_repr again urls eid i phase)).
  { intros i phase Hp w0. unfold call. walk ltac:(idtac; apply under_authorized_post; [apply all_closed|done|done|done]). }
  unfold run_dkg_http. replace (6 * length urls)%nat with (0 + (2 * length urls + (2 * (2 * length urls) + 0)))%nat by lia.
  eapply asks_bind.
  - apply asks_silent. intros w0. apply keeps_each. intros phase Hp. apply keeps_each. intros i _.
    apply acts_bind; [|intros; apply acts_ret]. apply Hs.
    repeat (apply elem_of_cons in Hp as [->|Hp]; [done|]). by apply not_elem_of_nil in Hp.
  - intros _ _. apply (asks_bind _ _ _ _ (λ c, length c <= length urls)%nat).
    { rewrite <- Hi. apply asks_round2. }
    intros c Hc. eapply asks_bind; [by apply asks_repair|]. intros c' _. apply asks_silent. intros w0.
    unfold publish_phase. walk ltac:(idtac; first [by apply Hs | apply under_dl_read, all_closed]).
Qed.
End ceremony.
End bounded.

(** * A complaint costs only the keyper that makes it *)

Section no_veto.
Context `{Crypto} `{EthAccount} `{Abi} `{SealPrimitives}.
Context (float_repr : Z → Z → string) (py_repr : json → string).
Context {env store : Type} `{DataLayer store} `{!Outside env store}.
Context (cfg : settings) (eid : bytes) (urls : dict Z string) (member_addrs : dict Z bytes).
Abbreviation again := (Some (_rebootstrap_one float_repr cfg urls member_addrs)).

(** Accusations that the coordinator can read. *)
Definition readable_accusation (acc : json) : Prop :=
  ∃ v d, json_get acc "accusedDealerIndex" = Ok v ∧ dealer_key v = Ok d.
Definition readable (accs : json) : Prop := ∃ l, json_iter accs = Ok l ∧ Forall readable_accusation l.

Definition phases : list string := ["round1"; "distribute_commitments"; "distribute_shares"; "round2"; "publish"].
Definition phase_body : json := JObj [("electionId", JStr (hex eid))].

(** Every keyper answers every phase, and [k] alone complains, however often its
    dealers deal again, with accusations that satisfy [form]. *)
Record one_complainer (k : Z) (form : json → Prop) (P : env → Prop) : Prop := {
  complainer_closed : closed P;
  complainer_answers o i url phase b : P o → dict_get urls i = Some url → phase ∈ phases → ∃ js,
    (out_post o (rstrip_slash url) ("/dkg/" +:+ phase) b phase_body).2 = Ok (mkResponse 200 (Some js)) ∧
    (phase = "round2" → if decide (i = k) then ∃ accs, complaint js = Some accs ∧ form accs else complaint js = None);
}.

Context (k : Z) (form : json → Prop) (P : env → Prop) (HP : one_complainer k form P).

Definition armed (t : dict Z json) : Prop := ∀ i, is_Some (dict_get urls i) → is_Some (dict_get t i).
Definition unpublished (og : outgoing) : Prop := og_path og ≠ "/dkg/publish".

Lemma armed_set t i v : armed t → armed (dict_set t i v).
Proof. intros Ht j Hj. rewrite dict_get_set. case_decide; [by eexists|by apply Ht]. Qed.

(** [m] succeeds, keeps the property outside and the tokens, and posts requests
    that satisfy [ok]. *)
Definition runs (ok : outgoing → Prop) {A} (m : act env A) (Q : A → Prop) : Prop :=
  ∀ w, P (outside w) → armed (api_tokens w) → ∃ w' a, m w = (w', Ok a) ∧ Q a ∧ under P armed ok w w'.

Lemma runs_bind ok {A B} (m : act env A) (f : A → act env B) Q Q' :
  runs ok m Q → (∀ a, Q a → runs ok (f a) Q') → runs ok (m ≫= f) Q'.
Proof.
  intros Hm Hf w Ho Ht. destruct (Hm w Ho Ht) as (w1 & a & E1 & Ha & Ho1 & Ht1 & l1 & Hl1 & Hf1).
  destruct (Hf a Ha w1 Ho1 Ht1) as (w2 & b & E2 & Hb & Ho2 & Ht2 & l2 & Hl2 & Hf2).
  exists w2, b. unfold mbind, act_bind. rewrite E1, E2. split_and!; [done|done|]. split_and!; [done|done|].
  exists (l1 ++ l2). rewrite Hl2, Hl1, app_assoc. split; [done|]. by apply Forall_app.
Qed.
Lemma runs_weaken ok {A} (m : act env A) (Q Q' : A → Prop) : runs ok m Q → (∀ a, Q a → Q' a) → runs ok m Q'.
Proof. intros Hm HQ w Ho Ht. destruct (Hm w Ho Ht) as (w' & a & ? & ? & ?). exists w', a. auto. Qed.
Lemma runs_ret ok {A} (a : A) (Q : A → Prop) : Q a → runs ok (mret a) Q.
Proof. intros Ha w Ho Ht. exists w, a. split_and!; [done|done|]. split_and!; [done..|exists []]. by rewrite app_nil_r. Qed.
Lemma runs_lift ok {A} (r : result A) a : r = Ok a → runs ok (lift r) (λ x, x = a).
Proof. intros ->. by apply (runs_ret ok a). Qed.
Lemma runs_each ok {X} (l : list X) (f : X → act env unit) : (∀ x, x ∈ l → runs ok (f x) (λ _, True)) →
  runs ok (each l f) (λ _, True).
Proof.
  induction l as [|x l IH]; intros Hf; cbn; [by apply runs_ret|].
  eapply runs_bind; [apply Hf; left|]. intros _ _. apply IH. intros y Hy. apply Hf. by right.
Qed.

(** A phase call: one request, answered. *)
Lemma call_answered i url phase w : dict_get urls i = Some url → phase ∈ phases → P (outside w) → armed (api_tokens w) →
  ∃ b o js, call py_repr again urls eid i phase w
      = (mkWorld (auto w) (api_tokens w) (sent w ++ [mkOutgoing (rstrip_slash url) ("/dkg/" +:+ phase) b phase_body]) o, Ok js)
    ∧ P o ∧ (phase = "round2" → if decide (i = k) then ∃ accs, complaint js = Some accs ∧ form accs else complaint js = None).
Proof.
  intros Hi Hp Ho Ht. destruct (Ht i) as [token Htok]; [by eexists|].
  destruct (complainer_answers _ _ _ HP (outside w) i url phase (bearer py_repr token) Ho Hi Hp) as (js & Hr & Hjs).
  pose proof (closed_post P (complainer_closed _ _ _ HP) (outside w) (rstrip_slash url) ("/dkg/" +:+ phase) (bearer py_repr token) phase_body Ho) as Ho'.
  exists (bearer py_repr token). destruct (out_post _ _ _ _ _) as [o r] eqn:Eo. cbn in Hr, Ho'. subst r.
  exists o, js. split_and!; [|done|done].
  unfold call. rewrite (bind_run _ _ _ w url) by (unfold lift, dict_item; by rewrite Hi).
  rewrite (bind_run _ _ _ (mkWorld (auto w) (api_tokens w) (sent w ++ [mkOutgoing (rstrip_slash url) ("/dkg/" +:+ phase) (bearer py_repr token) phase_body]) o)
    (mkResponse 200 (Some js))); [done|].
  unfold authorized_post. rewrite (bind_run _ _ _ w (api_tokens w)) by done.
  rewrite (bind_run _ _ _ w token) by (unfold lift, dict_item; by rewrite Htok).
  erewrite bind_run; [|unfold http_post; change (JObj _) with phase_body; rewrite Eo; reflexivity]. done.
Qed.

Lemma runs_call i phase : is_Some (dict_get urls i) → phase ∈ phases → phase ≠ "publish" →
  runs unpublished (call py_repr again urls eid i phase)
    (λ js, phase = "round2" → if decide (i = k) then ∃ accs, complaint js = Some accs ∧ form accs else complaint js = None).
Proof.
  intros [url Hi] Hp Hne w Ho Ht. destruct (call_answered i url phase w Hi Hp Ho Ht) as (b & o & js & -> & Ho' & Hjs).
  eexists _, js. split_and!; [done|done|]. split_and!; [done|done|]. eexists. split; [done|]. repeat constructor.
  unfold unpublished. cbn. intros E. apply Hne. by injection E.
Qed.

(** The complaints are those of [k]. *)
Record only_complains (c : dict Z json) : Prop := {
  only_key i : is_Some (dict_get c i) → i = k;
  only_form e : e ∈ c → form e.2;
}.

Lemma dict_set_elem {K V} `{EqDecision K} (d : dict K V) i v e : e ∈ dict_set d i v → e = (i, v) ∨ e ∈ d.
Proof.
  induction d as [|[i' v'] d IH]; cbn; [intros ->%list_elem_of_singleton; by left|].
  case_decide; intros [->|He]%elem_of_cons; subst.
  - by left.
  - right. by right.
  - right. by left.
  - destruct (IH He) as [->|?]; [by left|right; by right].
Qed.

Lemma runs_round2 targets : (∀ i, i ∈ targets → is_Some (dict_get urls i)) →
  runs unpublished (round2_complaints py_repr again urls eid targets)
    (λ c, only_complains c ∧ (k ∈ targets → is_Some (dict_get c k))).
Proof.
  intros Hu. unfold round2_complaints.
  assert (Hg : ∀ out, only_complains out → runs unpublished (fold targets (λ out i,
      resp ← call py_repr again urls eid i "round2";
      mret match complaint resp with Some accs => dict_set out i accs | None => out end) out)
    (λ c, only_complains c ∧ (k ∈ targets ∨ is_Some (dict_get out k) → is_Some (dict_get c k)))).
  { induction targets as [|i targets IH]; intros out Hout; cbn [fold].
    - apply runs_ret. split; [done|]. intros [Hk|?]; [by apply not_elem_of_nil in Hk|done].
    - eapply (runs_bind _ _ _ (λ out', only_complains out' ∧ (i = k ∨ is_Some (dict_get out k) → is_Some (dict_get out' k)))).
      + eapply runs_bind; [apply runs_call; [apply Hu; left|by do 3 right; left|done]|]. intros resp Hresp. specialize (Hresp eq_refl).
        apply runs_ret. case_decide as Hik.
        * subst i. destruct Hresp as (accs & -> & Hform). split.
          -- split.
             ++ intros j. rewrite dict_get_set. case_decide; [done|]. by apply Hout.
             ++ intros e [->|He]%dict_set_elem; [done|]. by apply Hout.
          -- intros _. by rewrite dict_get_set, decide_True.
        * rewrite Hresp. split; [done|]. by intros [?|?].
      + intros out' [Ho' Hk']. eapply runs_weaken; [apply IH; [intros j Hj; apply Hu; by right|done]|].
        intros c [Hc Hkc]. split; [done|]. intros [[->|?]%elem_of_cons|?]; auto. }
  eapply runs_weaken; [apply Hg|].
  - split; [by intros i [? ?]|]. intros e He. by apply not_elem_of_nil in He.
  - intros c [Hc Hk]. auto.
Qed.

Lemma runs_reveal acc : readable_accusation acc → runs unpublished (reveal py_repr again urls eid acc) (λ _, True).
Proof.
  intros (v & d & Hv & Hd). unfold reveal. eapply runs_bind; [by apply runs_lift|]. intros v' ->.
  eapply runs_bind; [by apply runs_lift|]. intros d' ->. destruct d as [dealer|]; [|by apply runs_ret].
  destruct (dict_get urls dealer) as [base|]; [|by apply runs_ret].
  eapply (runs_bind _ _ _ (λ _, True)); [|intros; by apply runs_ret]. intros w Ho Ht.
  destruct (under_post_keyper float_repr py_repr cfg P (complainer_closed _ _ _ HP) armed unpublished w) with
    (urls := urls) (member_addrs := member_addrs) (base := base) (path := "/dkg/reveal_share") (eid := eid) (i := dealer)
    (extra := [("accusation", acc)]) (w := w) as [Hw _]; [done|apply armed_set|done|by split_and!; [..|exists []; rewrite app_nil_r]|].
  unfold _post_keyper in *. unfold mbind, act_bind, catch in *. destruct (authorized_post _ _ _ _ _ _ w) as [w' [r|e]];
    by eexists _, _.
Qed.

Lemma elem_sorted_keys {V} (d : dict Z V) i : i ∈ sortedZ (dict_keys d) ↔ is_Some (dict_get d i).
Proof. by rewrite (sortedZ_Permutation (dict_keys d)), elem_dict_keys. Qed.

Lemma runs_repair fuel complaints : (∀ accs, form accs → readable accs) → is_Some (dict_get urls k) → only_complains complaints → is_Some (dict_get complaints k) →
  runs unpublished (repair py_repr fuel again urls eid complaints) (λ c, only_complains c ∧ is_Some (dict_get c k)).
Proof.
  intros Hform Hu. revert complaints. induction fuel as [|fuel IH]; intros complaints Hc Hk; [destruct complaints; by apply runs_ret|].
  destruct complaints as [|c complaints]; [by destruct Hk|]. cbn [repair].
  eapply (runs_bind _ _ _ (λ _, True)).
  - apply runs_each. intros e He. unfold sorted_items in He. rewrite (merge_sort_Permutation key_order) in He.
    destruct (Hform _ (only_form _ Hc e He)) as (l & Hl & Hr). eapply runs_bind; [by apply runs_lift|]. intros l' ->.
    apply runs_each. intros acc Hacc. apply runs_reveal. rewrite Forall_forall in Hr. by apply Hr.
  - intros _ _. eapply runs_bind; [apply runs_round2|].
    + intros i Hi%elem_sorted_keys. by rewrite (only_key _ Hc i Hi).
    + intros c' [Hc' Hk']. apply IH; [done|]. by apply Hk', elem_sorted_keys.
Qed.

(** [og] asks keyper [i] to publish. *)
Definition publish_request (i : Z) (og : outgoing) : Prop :=
  ∃ url b, dict_get urls i = Some url ∧ og = mkOutgoing (rstrip_slash url) "/dkg/publish" b phase_body.

Lemma publish_phase_asks complaints idxs publishers w : only_complains complaints → is_Some (dict_get complaints k) →
  (∀ i, i ∈ idxs → is_Some (dict_get urls i)) → P (outside w) → armed (api_tokens w) → ∃ o l publishers',
  fold idxs (λ publishers i,
    if bool_decide (is_Some (dict_get complaints i)) then mret publishers else
    r ← catch (call py_repr again urls eid i "publish");
    mret match r with inl _ => publishers ++ [i] | inr _ => publishers end) publishers w
  = (mkWorld (auto w) (api_tokens w) (sent w ++ l) o, Ok publishers') ∧ P o
  ∧ (∀ i, i ∈ idxs → i ≠ k → ∃ og, publish_request i og ∧ og ∈ l)
  ∧ (∀ og, og ∈ l → ∃ i, i ≠ k ∧ publish_request i og).
Proof.
  intros Hc Hk. revert publishers w. induction idxs as [|i idxs IH]; intros publishers w Hu Ho Ht; cbn [fold].
  { exists (outside w), [], publishers. rewrite app_nil_r. destruct w. split_and!; [done|done|..]; by intros ? ?%not_elem_of_nil. }
  assert (Hu' : ∀ j, j ∈ idxs → is_Some (dict_get urls j)) by (intros j Hj; apply Hu; by right).
  case_bool_decide as Hi.
  - rewrite (bind_run _ _ w w publishers) by done. destruct (IH publishers w Hu' Ho Ht) as (o & l & ps & E & Ho' & Hall & Honly).
    exists o, l, ps. split_and!; [done|done| |done]. intros j [->|Hj]%elem_of_cons Hne; [by apply Hc in Hi|]. by apply Hall.
  - destruct (Hu i) as [url Hurl]; [left|].
    destruct (call_answered i url "publish" w Hurl) as (b & o1 & js & Ecall & Ho1 & _); [by do 4 right; left|done|done|].
    set (og := mkOutgoing (rstrip_slash url) ("/dkg/" +:+ "publish") b phase_body) in *.
    set (w1 := mkWorld (auto w) (api_tokens w) (sent w ++ [og]) o1) in *.
    rewrite (bind_run _ _ w w1 (publishers ++ [i])).
    2:{ rewrite (bind_run _ _ w w1 (inl js)); [done|]. unfold catch. by rewrite Ecall. }
    destruct (IH (publishers ++ [i]) w1 Hu' Ho1 Ht) as (o & l & ps & E & Ho' & Hall & Honly).
    exists o, (og :: l), ps. split_and!; [|done|..].
    + rewrite E. unfold w1. cbn [auto api_tokens sent]. by rewrite <- app_assoc.
    + intros j [->|Hj]%elem_of_cons Hne; [exists og; split; [by exists url, b|left]|].
      destruct (Hall j Hj Hne) as (og' & ? & ?). exists og'. split; [done|by right].
    + intros og' [->|Hog]%elem_of_cons; [|by apply Honly]. exists i. split; [|by exists url, b]. intros ->. by apply Hi.
Qed.

(** The ceremony up to the complaints of round 2. *)
Lemma runs_round1_2 : runs unpublished (_ ← each ["round1"; "distribute_commitments"; "distribute_shares"] (λ phase,
      each (sortedZ (dict_keys urls)) (λ i, _ ← call py_repr again urls eid i phase; mret tt));
    round2_complaints py_repr again urls eid (sortedZ (dict_keys urls)))
  (λ c, only_complains c ∧ (is_Some (dict_get urls k) → is_Some (dict_get c k))).
Proof.
  eapply (runs_bind _ _ _ (λ _, True)).
  - apply runs_each. intros phase Hp. apply runs_each. intros i Hi%elem_sorted_keys.
    eapply (runs_bind _ _ _ (λ _, True)); [|intros; by apply runs_ret].
    eapply runs_weaken; [apply runs_call; [done|set_solver|set_solver]|done].
  - intros _ _. eapply runs_weaken; [apply runs_round2; by intros i ?%elem_sorted_keys|].
    intros c [Hc Hk]. split; [done|]. intros Hu. by apply Hk, elem_sorted_keys.
Qed.

(** The ceremony up to its last read, that of the finalized key. *)
Definition until_publish : act env (dict Z json) :=
  _ ← each ["round1"; "distribute_commitments"; "distribute_shares"] (λ phase,
        each (sortedZ (dict_keys urls)) (λ i, _ ← call py_repr again urls eid i phase; mret tt));
  complaints ← round2_complaints py_repr again urls eid (sortedZ (dict_keys urls));
  complaints ← repair py_repr _MAX_REPAIR_ROUNDS again urls eid complaints;
  _ ← publish_phase py_repr again urls eid complaints (sortedZ (dict_keys urls));
  mret complaints.

(** What the key read makes of the complaints that are left. *)
Lemma finish_run (complaints : dict Z json) w : complaints ≠ [] →
  let '(w', r) := (fk ← dl_read (λ l, dl_get_finalized_key l eid);
    match complaints with
    | _ :: _ =>
        if bool_decide (is_Some fk) then mret true else
        accs ← lift (mapM json_iter (dict_values complaints));
        _ ← lift (sort_accused (concat accs));
        lift (Err DKGComplaint)
    | [] => mret (bool_decide (is_Some fk))
    end) w in
  sent w' = sent w ∧ outside w' = (out_layer (outside w)).1
  ∧ (r = Ok true ↔ ∃ fk, dl_get_finalized_key (out_layer (outside w)).2 eid = Ok (Some fk)).
Proof.
  intros Hne. set (its := mapM json_iter (dict_values complaints)). clearbody its.
  unfold mbind at 1, act_bind at 1, dl_read, access. destruct (out_layer (outside w)) as [o ly]. cbn [fst snd].
  destruct (dl_get_finalized_key ly eid) as [[fk|]|err].
  - destruct complaints as [|e c]; [done|]. cbn. split_and!; [done|done|]. split; [by exists fk|done].
  - destruct complaints as [|e c]; [done|]. cbn. unfold mbind, act_bind, lift.
    assert (Hno : ∀ r : result bool, r ≠ Ok true →
      sent w = sent w ∧ o = o ∧ (r = Ok true ↔ ∃ fk : FinalizedKey, Ok None = Ok (Some fk))).
    { intros r Hr. split_and!; [done|done|]. split; [done|by intros [? ?]]. }
    destruct its as [accs|]; cbn; [destruct (sort_accused _); cbn|]; by apply Hno.
  - cbn. split_and!; [done|done|]. split; [done|by intros [? ?]].
Qed.

(** C28: One keyper that complains, whatever its dealers deal again, cannot stop a
    ceremony in which the others answer, as long as its accusations can be read:
    every other keyper is asked to publish and the complaining one is not, and
    the ceremony succeeds exactly when the data layer, read once more after the
    last of these requests, reports a finalized key. *)
Theorem one_complaint_no_veto w : (∀ accs, form accs → readable accs) →
  is_Some (dict_get urls k) → P (outside w) → armed (api_tokens w) →
  let '(w', r) := run_dkg_http py_repr again eid urls w in
  let '(wp, rp) := until_publish w in
  is_ok rp = true ∧ sent w' = sent wp ∧ outside w' = (out_layer (outside wp)).1
  ∧ (r = Ok true ↔ ∃ fk, dl_get_finalized_key (out_layer (outside wp)).2 eid = Ok (Some fk))
  ∧ ∃ l, sent w' = sent w ++ l
  ∧ (∀ i, i ∈ dict_keys urls → i ≠ k → ∃ og, publish_request i og ∧ og ∈ l)
  ∧ (∀ og, og ∈ l → og_path og = "/dkg/publish" → ∃ i, i ≠ k ∧ publish_request i og).
Proof.
  intros Hform Hk Ho Ht. unfold run_dkg_http, until_publish.
  assert (Hpre := runs_bind unpublished _ (repair py_repr _MAX_REPAIR_ROUNDS again urls eid) _ _ runs_round1_2
    (λ c '(conj Hc Hkc), runs_repair _MAX_REPAIR_ROUNDS c Hform Hk Hc (Hkc Hk))).
  destruct (Hpre w Ho Ht) as (w1 & c & E & [Hc Hkc] & Ho1 & Ht1 & l1 & Hl1 & Hun). clear Hpre.
  apply bind_run_inv in E as (wb & c0 & E & Ec). apply bind_run_inv in E as (wa & u & Ea & Eb).
  destruct (publish_phase_asks c (sortedZ (dict_keys urls)) [] w1 Hc Hkc) as (o & l & ps & Ep & Ho' & Hall & Honly);
    [by intros i ?%elem_sorted_keys|done|done|].
  set (wp := mkWorld _ _ _ o) in Ep.
  assert (Hne : c ≠ []) by (intros ->; by destruct Hkc). pose proof (finish_run c wp Hne) as Hfin.
  rewrite !(bind_run _ _ _ _ _ Ea), !(bind_run _ _ _ _ _ Eb), !(bind_run _ _ _ _ _ Ec), !(bind_run _ _ _ _ _ Ep).
  match goal with |- let '(_, _) := ?x in _ => destruct x as [w' r] end. cbn.
  destruct Hfin as (Hs & Hout & Hr). split_and!; [done|done|done|done|]. exists (l1 ++ l). split_and!.
  - rewrite Hs. cbn. by rewrite Hl1, app_assoc.
  - intros i Hi Hne'. rewrite <- (sortedZ_Permutation (dict_keys urls)) in Hi.
    destruct (Hall i Hi Hne') as (og & ? & ?). exists og. split; [done|]. apply elem_of_app. by right.
  - intros og [Hog|Hog]%elem_of_app Hp; [|by apply Honly]. rewrite Forall_forall in Hun. by destruct (Hun og Hog).
Qed.

Lemma repair_raises fuel complaints w : complaints ≠ [] →
  (∀ e, e ∈ complaints → ∃ err, json_iter e.2 = Err err) →
  repair py_repr (S fuel) again urls eid complaints w = (w, Err TypeError).
Proof.
  intros Hne Herr. destruct complaints as [|c complaints]; [done|]. cbn [repair].
  pose proof (merge_sort_Permutation key_order (c :: complaints)) as Hp. unfold sorted_items.
  destruct (merge_sort key_order (c :: complaints)) as [|e l]; [by apply Permutation_nil_cons in Hp|].
  destruct (Herr e) as [err He]; [rewrite <- Hp; left|].
  cbn [each]. unfold mbind, act_bind, lift. rewrite He. destruct e as [i []]; cbn in He; congruence.
Qed.

(** A keyper whose complaint carries accusations that are not a list ends
    every ceremony: the coordinator raises before any keyper is asked to publish. *)
Theorem unreadable_accusations_veto w : (∀ accs, form accs → ∃ e, json_iter accs = Err e) →
  is_Some (dict_get urls k) → P (outside w) → armed (api_tokens w) →
  let '(w', r) := run_dkg_http py_repr again eid urls w in
  is_ok r = false ∧ r ≠ Err DKGComplaint ∧ ∃ l, sent w' = sent w ++ l ∧ Forall unpublished l.
Proof.
  intros Hform Hk Ho Ht. unfold run_dkg_http.
  destruct (runs_round1_2 w Ho Ht) as (w1 & c & E & [Hc Hkc] & Ho1 & Ht1 & l1 & Hl1 & Hun).
  apply bind_run_inv in E as (wa & u & Ea & Eb). rewrite (bind_run _ _ _ _ _ Ea), (bind_run _ _ _ _ _ Eb).
  assert (Er : repair py_repr _MAX_REPAIR_ROUNDS again urls eid c w1 = (w1, Err TypeError)).
  { apply repair_raises.
    - destruct c; [|done]. by destruct (Hkc Hk).
    - intros e He. by apply Hform, Hc. }
  unfold mbind, act_bind. rewrite Er. split_and!; [done|done|]. by exists l1.
Qed.
End no_veto.
