(* ===== verification/CoordinatorRetry.v ===== *)
(** How the coordinator retries: the back-off between key generations and the
    attempt budget of a tally, with the cases in which they do not do what they
    are for. *)

From S2P Require Import Prelude Params Primality Field Points Transcript Dkg Types Config Codecs WriteAuth DataLayer Port Keyper Bootstrap Http Coordinator CoordinatorSteps.

Section retry.
Context `{Crypto} `{EthAccount} `{Abi} `{SealPrimitives}.
Context (float_repr : Z → Z → string) (py_repr : json → string).
Context {env store : Type} `{DataLayer store} `{!Outside env store}.
Context (cfg : settings).

(** * The watcher's own state *)

Section own.
Context (J : AutoDKG → Prop).
Definition own (w : world env) : Prop := J (auto w).

Lemma own_access {A} (f : env → env * result A) : keeps own (access f).
Proof. intros w Hw. split; [|done]. unfold access. by destruct (f (outside w)). Qed.
Lemma own_post base path b body : keeps own (http_post base path b body).
Proof. intros w Hw. split; [|done]. unfold http_post. by destruct (out_post _ _ _ _ _). Qed.
Lemma own_set_tokens t : keeps own (set_tokens t).
Proof. by intros w Hw. Qed.
Lemma own_update f : (∀ s, J s → J (f s)) → keeps own (update f).
Proof. intros Hf w Hw. split; [|done]. by apply Hf. Qed.
End own.

(** Properties that stored credentials and cached tokens do not change. *)
Record unaware (J : AutoDKG → Prop) : Prop := {
  unaware_store s f : J s → J (mkAutoDKG (_done s) (_failed s) (_attempts s) (_tally_attempts s)
                                 (_tokens_by_committee s) (_tally_phase s) f);
  unaware_cache s urls t : J s → J (cache_tokens urls t s);
}.

Section unaware.
Context (J : AutoDKG → Prop) (HJ : unaware J) (eid : bytes) (urls : dict Z string) (member_addrs : dict Z bytes).
Abbreviation again := (Some (_rebootstrap_one float_repr cfg urls member_addrs)).

Lemma own_cache urls' t : keeps (own J) (update (cache_tokens urls' t)).
Proof. apply own_update. intros s. apply (unaware_cache J HJ). Qed.
Lemma own_bootstrap install : keeps (own J) (bootstrap_keypers float_repr cfg urls member_addrs install).
Proof.
  unfold bootstrap_keypers, credential, install_bundle, encryption_key. walk ltac:(idtac; first
    [apply own_access | apply own_post | apply own_update; intros; by apply (unaware_store J HJ)]).
Qed.
Lemma own_rebootstrap i : keeps (own J) (_rebootstrap_one float_repr cfg urls member_addrs i).
Proof. unfold _rebootstrap_one. walk ltac:(idtac; first [apply own_bootstrap | apply own_cache]). Qed.
Lemma own_authorized_post base path i body : keeps (own J) (authorized_post py_repr again base path i body).
Proof. unfold authorized_post. walk ltac:(idtac; first [apply own_rebootstrap | apply own_post | apply own_set_tokens]). Qed.
Lemma own_call i phase : keeps (own J) (call py_repr again urls eid i phase).
Proof. unfold call. walk ltac:(apply own_authorized_post). Qed.
Lemma own_post_keyper base path i extra : keeps (own J) (_post_keyper py_repr again base path eid i extra).
Proof. unfold _post_keyper. walk ltac:(apply own_authorized_post). Qed.
Lemma own_repair fuel c : keeps (own J) (repair py_repr fuel again urls eid c).
Proof.
  revert c. induction fuel as [|fuel IH]; intros [|e c]; cbn [repair]; unfold round2_complaints, reveal;
    walk ltac:(idtac; first [apply own_call | apply own_post_keyper | apply IH]).
Qed.
Lemma own_ceremony : keeps (own J) (dkg_ceremony float_repr py_repr cfg eid urls member_addrs).
Proof.
  unfold dkg_ceremony, _bootstrap, run_dkg_http, publish_phase, round2_complaints. walk ltac:(idtac; first
    [apply own_bootstrap | apply own_call | apply own_repair | apply own_access | apply own_set_tokens | apply own_cache]).
Qed.
Lemma own_trigger recompute : keeps (own J) (trigger_aggregate_http py_repr again eid urls recompute).
Proof. unfold trigger_aggregate_http. walk ltac:(apply own_post_keyper). Qed.
End unaware.

(** * Key generation *)

(** The counters of an election, and the world when its ceremony starts. *)
Definition dkg_counters (w : world env) (eid : bytes) : dkg_attempts :=
  default (mkDkgAttempts 0 0) (dict_get (_attempts (auto w)) (hex eid)).
Definition ceremony_start (w : world env) (eid : bytes) : world env := (put_attempts (hex eid) (dkg_counters w eid) w).1.

Definition failed_attempt (r : result bool) : Prop := r = Ok false ∨ ∃ e, r = Err e ∧ e ≠ DKGComplaint.

Lemma drive_dkg_fails eid config now w : let att := dkg_counters w eid in
  next_at att <= now → missing_url (_keyper_urls cfg config) = false →
  failed_attempt (dkg_ceremony float_repr py_repr cfg eid (_keyper_urls cfg config) (_member_addrs config) (ceremony_start w eid)).2 →
  ∃ w1, _drive_dkg float_repr py_repr cfg eid config now w
  = (_ ← put_attempts (hex eid) (mkDkgAttempts (attempts att + 1) (next_at att));
     wait ← lift (float_backoff cfg (attempts att + 1 - 1));
     _ ← put_attempts (hex eid) (mkDkgAttempts (attempts att + 1) (now + wait));
     mret "registered_retry") w1.
Proof.
  intros att Hn Hu Hf. unfold _drive_dkg. rewrite (bind_run _ _ w w (auto w)) by done.
  rewrite (bind_run _ _ w (ceremony_start w eid) tt) by done.
  fold (dkg_counters w eid). fold att. rewrite (proj2 (Z.ltb_ge _ _)) by done. rewrite Hu.
  destruct (dkg_ceremony _ _ _ _ _ _ (ceremony_start w eid)) as [w1 r] eqn:E. cbn in Hf. exists w1.
  rewrite (bind_run _ _ _ w1 match r with Ok b => inl b | Err e => inr e end) by (unfold catch; by rewrite E).
  destruct Hf as [->|(e & -> & He)]; [done|]. by destruct e.
Qed.

(** After the [n]-th failure in a row the next key generation waits
    [min(cap, base * 2^(n-1))] seconds, for the first 1024 failures.  From then
    on the power is no float: the watcher raises instead, the waiting time stays
    as it was, long over, and every poll starts a ceremony again. *)
Theorem dkg_backoff eid config now w : let att := dkg_counters w eid in
  next_at att <= now → missing_url (_keyper_urls cfg config) = false →
  failed_attempt (dkg_ceremony float_repr py_repr cfg eid (_keyper_urls cfg config) (_member_addrs config) (ceremony_start w eid)).2 →
  let '(w', out) := _drive_dkg float_repr py_repr cfg eid config now w in
  (attempts att < 1024 → out = Ok "registered_retry" ∧ dkg_counters w' eid
     = mkDkgAttempts (attempts att + 1) (now + Z.min (backoff_cap_s cfg) (backoff_base_s cfg * 2 ^ attempts att)))
  ∧ (1024 <= attempts att → out = Err OverflowError
     ∧ dkg_counters w' eid = mkDkgAttempts (attempts att + 1) (next_at att) ∧ next_at (dkg_counters w' eid) <= now).
Proof.
  intros att Hn Hu Hf. destruct (drive_dkg_fails eid config now w Hn Hu Hf) as (w1 & ->). fold att.
  replace (attempts att + 1 - 1) with (attempts att) by lia. unfold float_backoff.
  assert (Hget : ∀ (d : dict string dkg_attempts) v, default (mkDkgAttempts 0 0) (dict_get (dict_set d (hex eid) v) (hex eid)) = v).
  { intros d v. by rewrite dict_get_set, decide_True. }
  destruct (Z.leb_spec 1024 (attempts att)) as [Hbig|Hsmall]; cbn [raise_if].
  - cbn. split; [lia|]. intros _. unfold dkg_counters. cbn. by rewrite Hget.
  - cbn. split; [|lia]. intros _. split; [done|]. unfold dkg_counters. cbn. by rewrite Hget.
Qed.

(** * The tally's budget *)

(** The clock before the deadline of a tally. *)
Definition in_time (config : ElectionConfig) (w : world env) : Prop :=
  (out_clock (outside w)).2 - voting_end config <= max_tally_phase_s cfg.

Definition tally_counters (w : world env) (eid : bytes) : tally_attempts :=
  default (mkTallyAttempts 0 0) (dict_get (_tally_attempts (auto w)) (hex eid)).

Lemma deadline_in_time config w : in_time config w →
  _past_tally_deadline cfg config w = (mkWorld (auto w) (api_tokens w) (sent w) (out_clock (outside w)).1, Ok false).
Proof.
  intros Hw. unfold in_time in Hw. unfold _past_tally_deadline, mbind, act_bind, clock, query, access.
  destruct (out_clock (outside w)) as [o now]. cbn in *. by rewrite (proj2 (Z.ltb_ge _ _)).
Qed.

Lemma waiting rebootstrap eid config urls att statuses w : in_time config w → existsb is_working statuses = true →
  no_quorum py_repr cfg rebootstrap eid config urls att statuses w
  = (mkWorld (auto w) (api_tokens w) (sent w) (out_clock (outside w)).1, Ok "collecting_aggregate").
Proof.
  intros Hw Hs. unfold no_quorum. rewrite (bind_run _ _ _ _ _ (deadline_in_time config w Hw)). by rewrite Hs.
Qed.

(** A keyper that answers the aggregation request with a client error other
    than 409, such as a refused token, counts as one that is computing: before
    the deadline of hours such a poll neither uses up the attempt budget nor
    stalls the tally, however often it repeats. *)
Theorem client_error_is_waiting code rebootstrap eid config urls att statuses w :
  400 <= code < 500 → code ≠ 409 → in_time config w →
  aggregate_answer py_repr (Some (mkResponse code None)) ∈ statuses →
  let '(w', out) := no_quorum py_repr cfg rebootstrap eid config urls att statuses w in
  out = Ok "collecting_aggregate" ∧ auto w' = auto w ∧ sent w' = sent w.
Proof.
  intros Hc Hne Hw Hin. rewrite waiting; [done|done|]. apply existsb_exists. eexists. split; [by apply list_elem_of_In|].
  unfold aggregate_answer. cbn [status_code]. destruct (Z.leb_spec 500 code); [lia|]. by destruct (Z.eqb_spec code 409).
Qed.

Lemma trigger_total again eid urls recompute (w : world env) :
  ∃ w' statuses, trigger_aggregate_http py_repr again eid urls recompute w = (w', Ok statuses).
Proof.
  unfold trigger_aggregate_http. generalize (@nil (Z * string)) as out. revert w.
  induction urls as [|e urls' IH]; intros w out; cbn [fold]; [by eexists _, _|].
  unfold mbind at 1, act_bind, _post_keyper, mbind, act_bind, catch.
  destruct (authorized_post _ _ _ _ _ _ w) as [w1 [r|err]]; cbn; apply IH.
Qed.

(** The clock shows a time that fits eight bytes. *)
Definition sane_clock : Prop := ∀ o : env, 0 <= (out_clock o).2 < 2 ^ 64.

Lemma abandon_marks (J : AutoDKG → Prop) eid w : sane_clock → J (auto w) →
  ∃ w', _abandon cfg eid w = (w', Ok "tally_abandoned") ∧ J (auto w').
Proof.
  intros Hclock Hw. unfold _abandon, _mark_tally_stalled.
  pose proof (Hclock (outside w)) as Hc. destruct (out_clock (outside w)) as [o t] eqn:Eo. cbn in Hc.
  set (w1 := mkWorld (auto w) (api_tokens w) (sent w) o).
  set (write := λ payload, sig ← lift (signer_sign (coordinator cfg) "tally_stall" eid payload);
    now ← query out_time; now' ← query out_time;
    dl_write (λ l, l' ← dl_set_tally_stalled l now now' eid true sig t; Ok (l', tt)) : act env unit).
  assert (Hown : ∀ payload, keeps (own J) (write payload)) by (intros payload; unfold write; walk ltac:(apply own_access)).
  destruct (write (be_bytes 8 t) w1) as [w2 r] eqn:Ew. exists w2. split.
  - rewrite (bind_run _ _ _ w2 tt); [done|]. rewrite (bind_run _ _ w w1 t) by (unfold clock, query, access; by rewrite Eo).
    rewrite (bind_run _ _ w1 w1 (be_bytes 8 t)).
    2:{ unfold lift, request_nonce_payload. rewrite (proj2 (Z.ltb_ge t 0)) by lia. cbn [raise_if].
        by rewrite bind_Ok, to_bytes_be_small. }
    fold (write (be_bytes 8 t)). rewrite (bind_run _ _ w1 w2 match r with Ok a => inl a | Err e => inr e end); [done|].
    unfold catch. by rewrite Ew.
  - destruct (Hown (be_bytes 8 t) w1 Hw) as [Hj _]. by rewrite Ew in Hj.
Qed.

(** A poll that finds no quorum before the deadline, with no keyper computing,
    uses one attempt of the tally's budget; the tally is abandoned, and marked as
    stalled, exactly when the budget is used up. *)
Theorem tally_budget eid config urls member_addrs att statuses w :
  sane_clock → in_time config w → existsb is_working statuses = false →
  let n := agg_attempts att + 1 in
  let '(w', out) := no_quorum py_repr cfg (_rebootstrap_one float_repr cfg urls member_addrs) eid config urls att statuses w in
  out = Ok (if max_tally_attempts cfg <=? n then "tally_abandoned" else "collecting_aggregate")
  ∧ tally_counters w' eid = mkTallyAttempts n (dec_attempts att).
Proof.
  intros Hclock Hw Hs n. unfold no_quorum. rewrite (bind_run _ _ _ _ _ (deadline_in_time config w Hw)), Hs.
  set (w1 := (put_tally_attempts (hex eid) (mkTallyAttempts n (dec_attempts att))
                (mkWorld (auto w) (api_tokens w) (sent w) (out_clock (outside w)).1)).1).
  rewrite (bind_run _ _ _ w1 tt) by done.
  set (J := λ s, dict_get (_tally_attempts s) (hex eid) = Some (mkTallyAttempts n (dec_attempts att))).
  assert (HJ : unaware J) by by split.
  assert (Hw1 : J (auto w1)) by (unfold J, w1; cbn; by rewrite dict_get_set, decide_True).
  assert (Hcount : ∀ w', J (auto w') → tally_counters w' eid = mkTallyAttempts n (dec_attempts att)).
  { intros w' Hj. unfold tally_counters. by rewrite Hj. }
  fold n. destruct (max_tally_attempts cfg <=? n).
  - destruct (abandon_marks J eid w1 Hclock Hw1) as (w' & -> & Hj). split; [done|by apply Hcount].
  - set (diverged := match statuses with [] => _ | _ => _ end). destruct diverged.
    + destruct (trigger_total (Some (_rebootstrap_one float_repr cfg urls member_addrs)) eid urls true w1) as (w' & st & E).
      rewrite (bind_run _ _ _ _ _ E). split; [done|]. apply Hcount.
      destruct (own_trigger J HJ eid urls member_addrs true w1 Hw1) as [Hj _]. by rewrite E in Hj.
    + split; [done|]. by apply Hcount.
Qed.

End retry.
