(* ===== verification/CoordinatorExample.v ===== *)
(** The hypotheses of the coordinator's theorems hold: a coordinator over the
    in-memory store, with keypers that answer from a table. *)

From S2P Require Import Prelude Params Primality Field Points Transcript Dkg Types Config Codecs WriteAuth DataLayer DataLayerSafety Port Keyper Bootstrap Http Coordinator CoordinatorSteps CoordinatorSafety CoordinatorCeremony CoordinatorRetry.

Module coordinator_example.
Import prefix_abi naming_account memory_example toy_seal.
#[local] Existing Instance concrete_crypto.
#[local] Existing Instance port_example.layer.

(** What is outside is the store, which keeps what is written when [writable];
    no keyper answers GET, and [answer] gives the replies to posts. *)
Definition table (writable : bool) (answer : string → string → result response) (now : Z)
  : Outside InMemoryDataLayer InMemoryDataLayer := {|
  out_get o _ := (o, Err RequestException);
  out_post o base path _ _ := (o, answer base path);
  out_layer o := (o, o);
  out_write o l := if writable then l else o;
  out_clock o := (o, now);
  out_time o := (o, now);
  out_token o := (o, "token");
  out_hex o := (o, "nonce");
  out_seal o := (o, (be_bytes 32 12, be_bytes 12 13));
|}.

Definition down (_ _ : string) : result response := Err RequestException.
Definition setup : settings := mkSettings (mkSigner (be_bytes 32 8)) 10 300 5 21600 [] (Some "relay").
Definition start (s : AutoDKG) : world InMemoryDataLayer := mkWorld s [] [] registered.
Definition repr (_ : json) : string := "?".

Definition idle : AutoDKG := new_auto None.
Definition closing : AutoDKG := add_done (hex eid) idle.

Definition credential_k1 : json := JObj [("k1", JObj [("api_token", JStr "a"); ("peer_token", JStr "p")])].
Definition keeping : AutoDKG := new_auto (Some (Some credential_k1)).

Lemma scan_covers_witness : ∃ outcomes,
  (scan_once (Outside0 := table true down 50) float_text repr setup (start idle)).2 = Ok outcomes ∧ hex eid ∈ dict_keys outcomes.
Proof.
  destruct (scan_covers (Outside0 := table true down 50) float_text repr setup (start idle) [eid]) as (out & Ho & Hk).
  - vm_compute. reflexivity.
  - exists out. split; [exact Ho|]. apply Hk. left.
Defined.

Lemma finished_is_final_witness : ∃ l,
  sent (run_forever (Outside0 := table true down 50) float_text repr setup 3 (start closing)).1 = [] ++ l.
Proof.
  destruct (finished_is_final (Outside0 := table true down 50) float_text repr setup 3 (start closing) (hex eid)) as [_ (l & Hl & _)].
  - left. apply elem_of_union. left. apply elem_of_singleton. reflexivity.
  - exists l. exact Hl.
Defined.

Lemma credentials_stable_witness : ∃ file,
  token_store (auto (run_forever (Outside0 := table true down 50) float_text repr setup 3 (start keeping)).1) = Some file
  ∧ token_get file "k1" = Ok (Some [("api_token", JStr "a"); ("peer_token", JStr "p")]).
Proof.
  destruct (credentials_stable (Outside0 := table true down 50) float_text repr setup 3 (start keeping) (Some credential_k1))
    as (file & Hf & Hk).
  - reflexivity.
  - exists file. split; [exact Hf|]. apply Hk. reflexivity.
Defined.

(** A store in which nothing can be written has no aggregate. *)
Lemma no_early_decryption_witness :
  (_drive_tally (Outside0 := table false down 250) float_text repr setup eid cfg (start keeping)).2 ≠ Ok "tallied".
Proof.
  pose proof (no_early_decryption (Outside0 := table false down 250) float_text repr setup eid (λ o, o = registered)) as Ht.
  specialize (Ht ltac:(split; [split; intros; assumption|intros o ->; vm_compute; reflexivity|intros; assumption]) (start keeping) cfg eq_refl).
  match type of Ht with match ?x with _ => _ end => destruct x as [w' r] end. exact (proj1 (proj2 Ht)).
Defined.

Lemma dkg_backoff_witness :
  (_drive_dkg (Outside0 := table true down 50) float_text repr setup eid cfg 50 (start idle)).2 = Ok "registered_retry".
Proof.
  pose proof (dkg_backoff (Outside0 := table true down 50) float_text repr setup eid cfg 50 (start idle)) as Ht.
  specialize (Ht ltac:(vm_compute; discriminate) ltac:(vm_compute; reflexivity)
    ltac:(right; exists RequestException; split; [vm_compute; reflexivity|discriminate])).
  match type of Ht with match ?x with _ => _ end => destruct x as [w' out] end. exact (proj1 (proj1 Ht ltac:(vm_compute; reflexivity))).
Defined.

Lemma tally_budget_witness :
  (no_quorum (Outside0 := table true down 250) repr setup (_rebootstrap_one (Outside0 := table true down 250) float_text setup [] []) eid cfg []
     (mkTallyAttempts 4 0) ["failed"] (start idle)).2 = Ok "tally_abandoned".
Proof.
  pose proof (tally_budget (Outside0 := table true down 250) float_text repr setup eid cfg [] [] (mkTallyAttempts 4 0) ["failed"] (start idle)) as Ht.
  specialize (Ht ltac:(intros o; cbn; lia) ltac:(vm_compute; discriminate) eq_refl). cbn zeta in Ht.
  match type of Ht with match ?x with _ => _ end => destruct x as [w' out] end. exact (proj1 Ht).
Defined.

(** Three keypers of which the second complains whatever is dealt to it. *)
Definition urls : dict Z string := [(1, "k1"); (2, "k2"); (3, "k3")].
Definition one_complains (base path : string) : result response :=
  Ok (mkResponse 200 (Some (if String.eqb base "k2" && String.eqb path "/dkg/round2"
    then JObj [("verified", JBool false); ("accusations", JArr [])] else JObj [("verified", JBool true)]))).
Definition armed_start : world InMemoryDataLayer := mkWorld idle [(1, JStr "a"); (2, JStr "b"); (3, JStr "c")] [] registered.

Lemma url_cases i u : dict_get urls i = Some u → (i = 1 ∧ u = "k1") ∨ (i = 2 ∧ u = "k2") ∨ (i = 3 ∧ u = "k3").
Proof. cbn. repeat case_decide; intros [= <-]; subst; auto. Qed.

Lemma k2_complains :
  @one_complainer _ _ (table true one_complains 50) eid urls 2 (λ accs, accs = JArr []) (λ _, True).
Proof.
  split; [by split|]. intros o i u phase b _ Hu Hp. eexists. split; [reflexivity|]. intros ->.
  apply url_cases in Hu as [[-> ->]|[[-> ->]|[-> ->]]]; cbn; [done|by exists (JArr [])|done].
Qed.

Lemma one_complaint_no_veto_witness : ∃ og,
  og ∈ sent (run_dkg_http (Outside0 := table true one_complains 50) repr
    (Some (_rebootstrap_one (Outside0 := table true one_complains 50) float_text setup urls [])) eid urls armed_start).1
  ∧ publish_request eid urls 3 og.
Proof.
  pose proof (one_complaint_no_veto (Outside0 := table true one_complains 50) float_text repr setup eid urls [] 2 _ _ k2_complains
    armed_start ltac:(intros accs ->; by exists []) ltac:(by eexists) I
    ltac:(intros i [u Hu]; apply url_cases in Hu as [[-> _]|[[-> _]|[-> _]]]; by eexists)) as Ht.
  match type of Ht with match ?x with _ => _ end => destruct x as [w' r] end.
  match type of Ht with match ?x with _ => _ end => destruct x as [wp rp] end.
  destruct Ht as (_ & _ & _ & _ & l & Hl & Hall & _).
  destruct (Hall 3) as (og & Hog & Hin); [by right; right; left|discriminate|].
  exists og. cbn [fst]. rewrite Hl. split; [exact Hin|exact Hog].
Defined.

End coordinator_example.
