(* ===== verification/Handshake.v ===== *)
(** The coordinator and a keyper agree on a channel: the bundle that the
    coordinator seals and signs is the one the keyper installs, and the token that
    the coordinator presents afterwards opens the keyper's routes. *)

From S2P Require Import Prelude Params Primality Field Points Transcript Elgamal Proofs Recovery Dkg Types Config Schnorr Ballot Admission Aggregation Codecs WriteAuth Quorum DataLayer DataLayerSafety Postgres Jsonb Port Gateway Keyper Bootstrap Http Coordinator KeyperServer KeyperSafety KeyperCeremony.

Section handshake.
Context `{Crypto} `{EthAccountLaws} `{Abi} `{SealLaws}.
Context (float_repr : Z → Z → string) (py_repr : json → string) (json_loads : bytes → result json).
Context {store : Type} `{DataLayer store}.

(** [json.loads] of a canonical text gives the value back, with its keys in the
    order of the text. *)
Definition reads_back (payload : json) : Prop := ∃ p',
  json_loads (canonical_payload_bytes float_repr payload) = Ok p' ∧ json_same payload p'
  ∧ json_dumps float_repr p' = json_dumps float_repr payload.

Lemma hbind_run {A B} (m : handler store A) (f : A → handler store B) w w1 a : m w = (w1, Ok a) → (m ≫= f) w = f a w1.
Proof. intros E. unfold mbind, handler_bind. by rewrite E. Qed.

Lemma sign_payload_verifies sk s payload payload' sig trusted : from_sk sk = Ok s → sign_payload float_repr s payload = Ok sig →
  json_dumps float_repr payload' = json_dumps float_repr payload → identity s ∈ trusted →
  verify_payload float_repr trusted payload' sig = true.
Proof.
  intros Hs Hsig Hd Hin. apply bind_Ok_inv in Hsig as (key & Hkey & Hsig).
  apply from_sk_key in Hs as [Hk Ha]. rewrite Hk, Ha in Hkey. apply Ok_inj in Hkey as <-.
  unfold verify_payload, _payload_digest, canonical_payload_bytes in *. rewrite Hd, (recover_sign _ _ _ Hsig).
  by apply bool_decide_eq_true_2.
Qed.

Lemma same_item (o : dict string json) d k v : json_same (JObj o) d → dict_get o k = Some v →
  ∃ v', getitem d k = Ok v' ∧ json_same v v'.
Proof.
  intros Hd Hk. inversion Hd as [| | | | |? o' Ho]; subst. specialize (Ho k). rewrite Hk in Ho. cbn.
  destruct (dict_get o' k) as [v'|]; inversion Ho; subst. by exists v'.
Qed.

Lemma same_str_eq s v : json_same (JStr s) v → v = JStr s.
Proof. by inversion 1. Qed.
Lemma same_int_eq n v : json_same (JInt n) v → v = JInt n.
Proof. by inversion 1. Qed.

(** A bundle of the coordinator, sealed to a keyper's encryption key and signed
    by an identity the keyper trusts, is accepted while its nonce is new and its
    time stamp fresh; afterwards the keyper holds exactly the tokens the
    coordinator keeps for it, and its peers' entries. *)
Theorem bundle_installs cfg urls apis peer_tokens enc i api peer nonce ts payload sk sig eph seal_nonce sealed now
    (w : world store) :
  dict_get apis i = Some (JStr api) → dict_get peer_tokens i = Some (JStr peer) →
  bundle cfg urls apis peer_tokens enc i nonce ts = Ok payload → reads_back payload →
  from_sk sk = Ok (coordinator cfg) → sign_payload float_repr (coordinator cfg) payload = Ok sig →
  length seal_nonce = 12%nat →
  x25519_seal (canonical_payload_bytes float_repr payload) (x25519_public (x25519_key (server w))) eph seal_nonce = Ok sealed →
  identity (coordinator cfg) ∈ trusted_identities (server w) →
  nonce ≠ "" → (check_and_record (nonce_tracker (server w)) now ("s" +:+ nonce) ts).2 = true →
  ∃ w' ps, bootstrap float_repr py_repr json_loads now
      (JObj [("sealed", JStr (hex sealed)); ("signature", JStr (hex sig))]) w
    = (w', Ok (Reply 200 (JObj [("ok", JBool true)])))
  ∧ mapM (λ e, peer_entry peer_tokens enc e.1 e.2) (filter (λ e, e.1 ≠ i) urls) = Ok ps
  ∧ api_token (server w') = Some api ∧ peer_token (server w') = Some peer
  ∧ json_same (JObj ps) (JObj (peers (server w')))
  ∧ KeyperServer.relay_token (server w') = match Coordinator.relay_token cfg with
      | Some t => if String.eqb t "" then KeyperServer.relay_token (server w) else Some t
      | None => KeyperServer.relay_token (server w)
      end.
Proof.
  intros Hapi Hpeer Hb (p' & Hl & Hsame & Hd) Hsk Hsig Hn Hseal Hin Hne Hfresh.
  unfold bundle, dict_item in Hb. rewrite Hapi, Hpeer, !bind_Ok in Hb.
  apply bind_Ok_inv in Hb as (ps & Hps & Hb%Ok_inj). subst payload.
  set (body := JObj [("sealed", _); _]).
  assert (Hopen : (v ← getitem body "sealed"; sealed ← fromhex_json v;
                   text ← x25519_unseal sealed (x25519_key (server w)); json_loads text) = Ok p').
  { change (getitem body "sealed") with (Ok (JStr (hex sealed))). rewrite bind_Ok. unfold fromhex_json, bytes_fromhex.
    by rewrite fromhex_hex, bind_Ok, (unseal_seal _ _ _ _ _ Hn Hseal), bind_Ok. }
  unfold bootstrap. rewrite (hbind_run _ _ w w (server w)), Hopen, (hbind_run _ _ w w p') by done.
  destruct (same_item _ _ "api_token" (JStr api) Hsame) as (va & Eva & Sva); [done|].
  destruct (same_item _ _ "peer_token" (JStr peer) Hsame) as (vp & Evp & Svp); [done|].
  destruct (same_item _ _ "peers" (JObj ps) Hsame) as (vps & Evps & Svps); [done|].
  pose proof (get_or_same _ _ "nonce" (JStr "") (JStr "") Hsame ltac:(constructor)) as Snonce.
  pose proof (get_or_same _ _ "timestamp" (JInt 0) (JInt 0) Hsame ltac:(constructor)) as Sts.
  pose proof (get_or_same _ _ "relay_token" JNull JNull Hsame ltac:(constructor)) as Srelay.
  cbn in Snonce, Sts, Srelay.
  rewrite (hbind_run _ _ w w (JStr (hex sig))) by done.
  rewrite (hbind_run _ _ w w sig) by (unfold lift, fromhex_json, bytes_fromhex; by rewrite fromhex_hex).
  rewrite (sign_payload_verifies sk _ _ _ _ _ Hsk Hsig Hd Hin). cbn [negb].
  inversion Hsame as [| | | | |? o' _]; subst p'.
  apply same_str_eq in Snonce, Sva, Svp. apply same_int_eq in Sts. subst va vp.
  inversion Svps as [| | | | |? ops _]; subst vps.
  rewrite (hbind_run _ _ w w (JStr nonce)) by (by rewrite <- Snonce).
  rewrite (hbind_run _ _ w w ts) by (unfold lift; by rewrite Sts).
  destruct (check_and_record (nonce_tracker (server w)) now ("s" +:+ nonce) ts) as [t ok] eqn:Ec. cbn in Hfresh. subst ok.
  set (w1 := mkWorld (with_nonces (server w) t) (posts w) (layer w)).
  rewrite (hbind_run _ _ w w1 true).
  2:{ unfold check_nonce. rewrite (hbind_run _ _ w w (server w)) by done. unfold nonce_key. cbn [py_bool].
      rewrite (proj2 (String.eqb_neq _ _) Hne). cbn [negb]. rewrite Ec. done. }
  cbn [negb]. rewrite (hbind_run _ _ w1 w1 (JStr api)) by (unfold lift; by rewrite Eva).
  unfold mbind at 1, handler_bind, modify. cbn beta iota.
  unfold mbind at 1, handler_bind, lift. rewrite Evp. unfold mbind at 1, handler_bind. cbn beta iota.
  unfold mbind at 1, handler_bind. rewrite Evps. unfold mbind at 1, handler_bind. cbn [py_dict].
  unfold mbind at 1, handler_bind. cbn beta iota. unfold mbind at 1, handler_bind.
  destruct (Coordinator.relay_token cfg) as [rt|].
  - apply same_str_eq in Srelay. rewrite Srelay. cbn [py_bool]. destruct (String.eqb rt ""); cbn [negb];
      (eexists _, ps; split_and!; [reflexivity|exact Hps|reflexivity|reflexivity|exact Svps|reflexivity]).
  - assert (Er : get_or (JObj o') "relay_token" JNull = JNull) by by inversion Srelay. rewrite Er.
    cbn [py_bool]. eexists _, ps. split_and!; [reflexivity|exact Hps|reflexivity|reflexivity|exact Svps|reflexivity].
Qed.

(** The token the coordinator then presents opens the keyper's routes for it. *)
Lemma token_opens (s : KeyperServer) path api : api_token s = Some api → api ≠ "" →
  strip (removeprefix ("Bearer " +:+ api) "Bearer ") = api → path ∉ _OPEN → path ∉ _PEER →
  _require_bearer s path ("Bearer " +:+ api) = Ok tt.
Proof.
  intros Ha Hne Hs Ho Hp. unfold _require_bearer. rewrite (bool_decide_eq_false_2 (path ∈ _OPEN)) by done.
  rewrite (bool_decide_eq_false_2 (api_token s = None)) by (rewrite Ha; done). cbn [raise_if]. rewrite bind_Ok, Hs.
  rewrite (bool_decide_eq_false_2 (path ∈ _PEER)) by done. rewrite Ha. cbn [token_of].
  assert (tokens_equal (TStr api) (TStr api) = true) as ->; [|done]. apply tokens_equal_spec.
  exists (encode_utf8 api). split_and!; [done|done|]. by destruct api.
Qed.
End handshake.

(** * The hypotheses hold *)

Module handshake_example.
Import prefix_abi naming_account memory_example toy_seal.
#[local] Existing Instance concrete_crypto.
#[local] Existing Instance port_example.layer.

(** The coordinator of the secret 8 bootstraps the second of two keypers, whose
    encryption key has the secret 11. *)
Definition setup : settings := mkSettings (mkSigner (be_bytes 32 8)) 10 300 5 21600 [] (Some "relay").
Definition urls : dict Z string := [(1, "k1"); (2, "k2")].
Definition apis : dict Z json := [(1, JStr "a1"); (2, JStr "a2")].
Definition peer_tokens : dict Z json := [(1, JStr "p1"); (2, JStr "p2")].
Definition enc : dict Z (dict string json * bytes) := [(1, ([("enc_pubkey", JStr "00")], [])); (2, ([], x25519_public (be_bytes 32 11)))].
Definition payload : json := Eval vm_compute in get_ok JNull (bundle setup urls apis peer_tokens enc 2 "nonce" 1000).
Definition sig : bytes := Eval vm_compute in get_ok [] (sign_payload float_text (coordinator setup) payload).
Definition sealed : bytes := Eval vm_compute in
  get_ok [] (x25519_seal (canonical_payload_bytes float_text payload) (x25519_public (be_bytes 32 11)) (be_bytes 32 12) (be_bytes 12 13)).
Definition keyper : world InMemoryDataLayer :=
  mkWorld (new_server (mkSigner (be_bytes 32 2)) [identity (coordinator setup)] (be_bytes 32 11) None None None) [] registered.

Lemma payload_plain : plain payload.
Proof.
  repeat first [constructor | apply (bool_decide_unpack _); vm_compute; exact I].
Qed.

Lemma bundle_installs_witness : ∃ w',
  bootstrap float_text (λ _, "?") (λ _, Ok payload) (1000 * MICROS)
    (JObj [("sealed", JStr (hex sealed)); ("signature", JStr (hex sig))]) keyper
  = (w', Ok (Reply 200 (JObj [("ok", JBool true)]))) ∧ api_token (server w') = Some "a2".
Proof.
  destruct (bundle_installs float_text (λ _, "?") (λ _, Ok payload) setup urls apis peer_tokens enc 2 "a2" "p2" "nonce" 1000
    payload 8 sig (be_bytes 32 12) (be_bytes 12 13) sealed (1000 * MICROS) keyper) as (w' & ps & Hb & _ & Ha & _).
  - reflexivity.
  - reflexivity.
  - vm_compute. reflexivity.
  - exists payload. split; [reflexivity|]. split; [apply plain_refl, payload_plain|reflexivity].
  - vm_compute. reflexivity.
  - vm_compute. reflexivity.
  - reflexivity.
  - vm_compute. reflexivity.
  - left.
  - discriminate.
  - vm_compute. reflexivity.
  - exists w'. split; [exact Hb|exact Ha].
Defined.

End handshake_example.
