(* ===== verification/DkgDriver.v ===== *)
(** The in-process driver of key generation (services/coordinator/
    dkg_coordinator.py, [run_dkg_once] and [ensure_dkg]), over any data layer.
    The keypers are objects that keep what a failed attempt did to them; the
    random draws and clock readings are arguments, sleeping is not modelled. *)

From S2P Require Import Prelude Params Primality Field Points Transcript Elgamal Proofs Recovery Dkg Types Config Schnorr Ballot Admission Aggregation Codecs WriteAuth Quorum DataLayer DataLayerSafety Port Gateway Keyper Coordinator.

Section driver.
Context `{Crypto} `{EthAccount} `{Abi}.
Context {store : Type} `{DataLayer store}.

(** Round 1 of every keyper, with the dicts of commitments and shares. *)
Definition all_round1 (ks : list KeyperService) (n t : Z) (rng : Z → nat → Z)
  : list KeyperService * (dict Z (list (pt G2ops)) * dict Z (dict Z Z)) :=
  foldl (λ '(ks, (comms, shares)) k,
    let '(k', (c, s)) := dkg_round1 k n t (rng (k_index k)) in
    (ks ++ [k'], (dict_set comms (k_index k) c, dict_set shares (k_index k) s))) ([], ([], [])) ks.

(** The shares that the dealers have for keyper [i]. *)
Definition received (all_shares : dict Z (dict Z Z)) (dealers : list Z) (i : Z) : result (dict Z Z) :=
  mapM (λ dealer, row ← dict_item all_shares dealer; v ← dict_item row i; Ok (dealer, v)) dealers.

(** Round 2 of one keyper after the other, until one raises. *)
Fixpoint all_round2 (comms : dict Z (list (pt G2ops))) (shares : dict Z (dict Z Z)) (ks : list KeyperService)
  : list KeyperService * result unit :=
  match ks with
  | [] => ([], Ok tt)
  | k :: ks =>
      match (r ← received shares (dict_keys comms) (k_index k); dkg_round2 k comms r) with
      | Ok (k', _) => let '(ks', r) := all_round2 comms shares ks in (k' :: ks', r)
      | Err e => (k :: ks, Err e)
      end
  end.

Fixpoint all_submit (eid : bytes) (comms : dict Z (list (pt G2ops))) (ks : list KeyperService) (s : store)
  : store * result unit :=
  match ks with
  | [] => (s, Ok tt)
  | k :: ks =>
      match keyper_submit_dkg_result k s eid comms with
      | Ok s' => all_submit eid comms ks s'
      | Err e => (s, Err e)
      end
  end.

Definition is_final (s : store) (eid : bytes) : result bool :=
  fk ← dl_get_finalized_key s eid; Ok (bool_decide (is_Some fk)).

Definition run_dkg_once (eid : bytes) (ks : list KeyperService) (s : store) (n t : Z) (rng : Z → nat → Z)
  : list KeyperService * store * result bool :=
  if negb (len ks =? n) then (ks, s, Err RuntimeError) else
  let '(ks1, (comms, shares)) := all_round1 ks n t rng in
  match all_round2 comms shares ks1 with
  | (ks2, Err e) => (ks2, s, Err e)
  | (ks2, Ok _) =>
      match all_submit eid comms ks2 s with
      | (s', Err e) => (ks2, s', Err e)
      | (s', Ok _) => (ks2, s', match ks2 with [] => Err IndexError | _ => is_final s' eid end)
      end
  end.

(** The attempts that are left, each with its clock reading and draws. *)
Fixpoint attempts_left (eid : bytes) (n t deadline : Z) (draws : list (Z * (Z → nat → Z)))
    (ks : list KeyperService) (s : store) : list KeyperService * store * result bool :=
  match draws with
  | [] => (ks, s, is_final s eid)
  | (now, rng) :: draws =>
      if deadline <=? now then (ks, s, Ok false) else
      match run_dkg_once eid ks s n t rng with
      | (ks', s', Ok true) => (ks', s', Ok true)
      | (ks', s', _) => attempts_left eid n t deadline draws ks' s'
      end
  end.

(** [max_attempts] is the length of [draws]. *)
Definition ensure_dkg (eid : bytes) (n t deadline : Z) (draws : list (Z * (Z → nat → Z)))
    (ks : list KeyperService) (s : store) : list KeyperService * store * result bool :=
  match is_final s eid with
  | Err e => (ks, s, Err e)
  | Ok true => (ks, s, Ok true)
  | Ok false => attempts_left eid n t deadline draws ks s
  end.

(** * What the driver reports *)

Lemma once_true eid ks s n t rng ks' s' : run_dkg_once eid ks s n t rng = (ks', s', Ok true) → is_final s' eid = Ok true.
Proof.
  unfold run_dkg_once. destruct (negb _); [done|]. destruct (all_round1 _ _ _ _) as [ks1 [comms shares]].
  destruct (all_round2 comms shares ks1) as [ks2 [[]|]]; [|done].
  destruct (all_submit eid comms ks2 s) as [s1 [[]|]]; [|done]. destruct ks2; [done|]. by intros [= <- <- ->].
Qed.

Lemma attempts_true eid n t deadline draws ks s ks' s' :
  attempts_left eid n t deadline draws ks s = (ks', s', Ok true) → is_final s' eid = Ok true.
Proof.
  revert ks s. induction draws as [|[now rng] draws IH]; intros ks s; cbn.
  - by intros [= <- <- ->].
  - destruct (deadline <=? now); [done|]. destruct (run_dkg_once eid ks s n t rng) as [[ks1 s1] r] eqn:E.
    destruct r as [[]|]; [intros [= <- <-]; by eapply once_true|by apply IH..].
Qed.

(** The driver reports success only when the data layer then shows a key, and it
    attempts nothing when there is one already or the deadline has passed. *)
Theorem ensure_dkg_reports eid n t deadline draws ks s :
  (∀ ks' s', ensure_dkg eid n t deadline draws ks s = (ks', s', Ok true) → is_final s' eid = Ok true)
  ∧ (is_final s eid = Ok true → ensure_dkg eid n t deadline draws ks s = (ks, s, Ok true))
  ∧ (is_final s eid = Ok false → Forall (λ d, deadline <= d.1) draws → ensure_dkg eid n t deadline draws ks s = (ks, s, Ok false)).
Proof.
  unfold ensure_dkg. split_and!.
  - intros ks' s'. destruct (is_final s eid) as [[]|] eqn:E; [by intros [= <- <-]|apply attempts_true|done].
  - by intros ->.
  - intros Hf Hd. rewrite Hf. destruct draws as [|[now rng] draws]; cbn; [by rewrite Hf|].
    apply Forall_cons in Hd as [Hnow _]. cbn in Hnow. by rewrite (proj2 (Z.leb_le _ _) Hnow).
Qed.

End driver.

(** * An election's key in process *)

Module driver_example.
Import prefix_abi naming_account memory_example.
#[local] Existing Instance concrete_crypto.
#[local] Existing Instance port_example.layer.

(** The three keypers of the example committee complete a ceremony in the first
    attempt. *)
Definition committee : list KeyperService := (λ i, new_keyper i (mkSigner (be_bytes 32 i))) <$> [1; 2; 3].
Example committee_finalizes :
  (ensure_dkg eid 3 2 100 [(50, λ i j, i * 100 + Z.of_nat j + 1)] committee registered).2 = Ok true.
Proof. vm_compute. reflexivity. Qed.

End driver_example.
