(* ===== verification/Json.v ===== *)
(** JSON texts: [json.loads], a parser, and [json.dumps] with compact
    separators, with the round trip of flat objects.

    Text is UTF-8.  A number with a fraction or an exponent is read by
    [float_of_text]; the constants [NaN] and [Infinity] are not read. *)

From Stdlib Require Import Ascii.
From S2P Require Import Prelude Params Primality Field Points Transcript Types Config Codecs WriteAuth Quorum DataLayer DataLayerSafety.

(** * Reading *)

(** [bytes.decode("utf-8")]: no stray, overlong or missing continuation byte and
    no surrogate. *)
Definition continues (c : ascii) : bool := (128 <=? code c) && (code c <=? 191).

Fixpoint valid_utf8 (s : string) : bool :=
  match s with
  | EmptyString => true
  | String a s =>
      if code a <? 128 then valid_utf8 s
      else if (194 <=? code a) && (code a <=? 223) then
        match s with String b s => continues b && valid_utf8 s | _ => false end
      else if (224 <=? code a) && (code a <=? 239) then
        match s with
        | String b (String c s) =>
            continues b && continues c && valid_utf8 s
            && negb ((code a =? 224) && (code b <? 160)) && negb ((code a =? 237) && (160 <=? code b))
        | _ => false
        end
      else if (240 <=? code a) && (code a <=? 244) then
        match s with
        | String b (String c (String d s)) =>
            continues b && continues c && continues d && valid_utf8 s
            && negb ((code a =? 240) && (code b <? 144)) && negb ((code a =? 244) && (144 <=? code b))
        | _ => false
        end
      else false
  end.

Definition decode_utf8 (b : bytes) : result string :=
  let s := String.string_of_list_byte b in
  if valid_utf8 s then Ok s else Err ValueError.

Definition chr (n : Z) : ascii := ascii_of_N (Z.to_N n).

(** A code point in UTF-8. *)
Definition utf8 (n : Z) : string :=
  if n <? 128 then String (chr n) ""
  else if n <? 2048 then String (chr (192 + n / 64)) (String (chr (128 + n mod 64)) "")
  else if n <? 65536 then
    String (chr (224 + n / 4096)) (String (chr (128 + n / 64 mod 64)) (String (chr (128 + n mod 64)) ""))
  else String (chr (240 + n / 262144)) (String (chr (128 + n / 4096 mod 64))
         (String (chr (128 + n / 64 mod 64)) (String (chr (128 + n mod 64)) ""))).

Definition is_ws (c : ascii) : bool := (code c =? 32) || (code c =? 9) || (code c =? 10) || (code c =? 13).

Fixpoint skip_ws (s : string) : string :=
  match s with String c s' => if is_ws c then skip_ws s' else s | EmptyString => "" end.

(** Four hexadecimal digits. *)
Definition read_hex4 (s : string) : option (Z * string) :=
  match s with
  | String a (String b (String c (String d s))) =>
      a ← hex_value a; b ← hex_value b; c ← hex_value c; d ← hex_value d;
      Some (a * 4096 + b * 256 + c * 16 + d, s)
  | _ => None
  end.

(** After a backslash: the text it stands for.  Two escapes may form one code
    point. *)
Definition read_escape (s : string) : option (string * string) :=
  match s with
  | String c s =>
      if code c =? 34 then Some (String c "", s)
      else if code c =? 92 then Some (String c "", s)
      else if code c =? 47 then Some (String c "", s)
      else if code c =? 98 then Some (String (chr 8) "", s)
      else if code c =? 102 then Some (String (chr 12) "", s)
      else if code c =? 110 then Some (String (chr 10) "", s)
      else if code c =? 114 then Some (String (chr 13) "", s)
      else if code c =? 116 then Some (String (chr 9) "", s)
      else if code c =? 117 then
        '(n, s) ← read_hex4 s;
        match s with
        | String b (String u s') =>
            if (55296 <=? n) && (n <=? 56319) && (code b =? 92) && (code u =? 117) then
              '(m, s'') ← read_hex4 s';
              if (56320 <=? m) && (m <=? 57343)
              then Some (utf8 (65536 + (n - 55296) * 1024 + (m - 56320)), s'')
              else Some (utf8 n, s)
            else Some (utf8 n, s)
        | _ => Some (utf8 n, s)
        end
      else None
  | EmptyString => None
  end.

(** After the opening quote.  Control characters are refused.  Every turn
    consumes a character; so does every turn of the readers below. *)
Fixpoint read_string (fuel : nat) (s : string) : option (string * string) :=
  match fuel with
  | O => None
  | S fuel =>
      match s with
      | EmptyString => None
      | String c s =>
          if code c =? 34 then Some ("", s)
          else if code c =? 92 then
            '(t, s) ← read_escape s; '(r, s) ← read_string fuel s; Some (t +:+ r, s)
          else if code c <? 32 then None
          else '(r, s) ← read_string fuel s; Some (String c r, s)
      end
  end.

(** The longest run of digits. *)
Fixpoint read_digits (s : string) : string * string :=
  match s with
  | String c s' =>
      match digit c with Some _ => let '(d, r) := read_digits s' in (String c d, r) | None => ("", s) end
  | EmptyString => ("", "")
  end.

(** The fraction and the exponent that follow an integer part, if they are
    complete. *)
Definition read_frac (s : string) : string * string :=
  match s with
  | String c s' =>
      if code c =? 46 then
        match read_digits s' with (EmptyString, _) => ("", s) | (d, r) => (String c d, r) end
      else ("", s)
  | EmptyString => ("", s)
  end.
Definition read_exp (s : string) : string * string :=
  match s with
  | String c s' =>
      if (code c =? 101) || (code c =? 69) then
        let '(sign, s'') := match s' with
                            | String g r => if (code g =? 43) || (code g =? 45) then (String g "", r) else ("", s')
                            | EmptyString => ("", s')
                            end in
        match read_digits s'' with (EmptyString, _) => ("", s) | (d, r) => (String c (sign +:+ d), r) end
      else ("", s)
  | EmptyString => ("", s)
  end.

Fixpoint digits_value (acc : Z) (s : string) : Z :=
  match s with
  | String c s => digits_value (acc * 10 + default 0 (digit c)) s
  | EmptyString => acc
  end.

(** A literal word. *)
Fixpoint read_word (w s : string) : option string :=
  match w, s with
  | EmptyString, _ => Some s
  | String a w, String b s => if Ascii.eqb a b then read_word w s else None
  | _, EmptyString => None
  end.

Section loads.
Context (float_of_text : string → json).

Definition read_number (s : string) : option (json * string) :=
  let '(neg, s1) := match s with
                    | String c s' => if code c =? 45 then (true, s') else (false, s)
                    | EmptyString => (false, s)
                    end in
  match read_digits s1 with
  | (EmptyString, _) => None
  | (String c d, r) =>
      (* a leading zero is the whole integer part *)
      let '(d, r) := if code c =? 48 then ("0", d +:+ r) else (String c d, r) in
      let '(f, r1) := read_frac r in
      let '(e, r2) := read_exp r1 in
      if String.eqb f "" && String.eqb e ""
      then Some (JInt ((if neg then Z.opp else id) (digits_value 0 d)), r)
      else Some (float_of_text ((if neg then "-" else "") +:+ d +:+ f +:+ e), r2)
  end.

(** A value, the items of an array after [\[], and the members of an object
    after the opening brace. *)
Fixpoint read_value (fuel : nat) (s : string) : option (json * string) :=
  match fuel with
  | O => None
  | S fuel =>
      match s with
      | EmptyString => None
      | String c s1 =>
          if code c =? 34 then '(t, r) ← read_string fuel s1; Some (JStr t, r)
          else if code c =? 123 then
            match skip_ws s1 with
            | String c' r => if code c' =? 125 then Some (JObj [], r) else read_members fuel [] (skip_ws s1)
            | EmptyString => None
            end
          else if code c =? 91 then
            match skip_ws s1 with
            | String c' r => if code c' =? 93 then Some (JArr [], r) else read_items fuel [] (skip_ws s1)
            | EmptyString => None
            end
          else if code c =? 110 then r ← read_word "null" s; Some (JNull, r)
          else if code c =? 116 then r ← read_word "true" s; Some (JBool true, r)
          else if code c =? 102 then r ← read_word "false" s; Some (JBool false, r)
          else read_number s
      end
  end
with read_items (fuel : nat) (acc : list json) (s : string) : option (json * string) :=
  match fuel with
  | O => None
  | S fuel =>
      '(v, r) ← read_value fuel s;
      match skip_ws r with
      | String c r =>
          if code c =? 93 then Some (JArr (acc ++ [v]), r)
          else if code c =? 44 then read_items fuel (acc ++ [v]) (skip_ws r)
          else None
      | EmptyString => None
      end
  end
with read_members (fuel : nat) (acc : dict string json) (s : string) : option (json * string) :=
  match fuel with
  | O => None
  | S fuel =>
      match s with
      | String q s1 =>
          if code q =? 34 then
            '(k, r) ← read_string fuel s1;
            match skip_ws r with
            | String colon r =>
                if code colon =? 58 then
                  '(v, r) ← read_value fuel (skip_ws r);
                  match skip_ws r with
                  | String c r =>
                      if code c =? 125 then Some (JObj (dict_set acc k v), r)
                      else if code c =? 44 then read_members fuel (dict_set acc k v) (skip_ws r)
                      else None
                  | EmptyString => None
                  end
                else None
            | EmptyString => None
            end
          else None
      | EmptyString => None
      end
  end.

(** [json.loads] of a text; [JSONDecodeError] is a [ValueError]. *)
Definition json_loads (s : string) : result json :=
  match read_value (S (2 * String.length s)) (skip_ws s) with
  | Some (v, r) => match skip_ws r with EmptyString => Ok v | _ => Err ValueError end
  | None => Err ValueError
  end.
End loads.

(** * Writing *)

(** [json.dumps(v, separators=(",", ":"))] *)
Fixpoint json_dumps_compact (float_repr : Z → Z → string) (v : json) : string :=
  match v with
  | JNull => "null"
  | JBool b => if b then "true" else "false"
  | JInt n => pretty n
  | JFloat m e => float_repr m e
  | JStr s => quoted s
  | JArr l => "[" +:+ String.concat "," (map (json_dumps_compact float_repr) l) +:+ "]"
  | JObj o =>
      "{" +:+ String.concat "," (map (λ '(k, v), quoted k +:+ ":" +:+ json_dumps_compact float_repr v) o) +:+ "}"
  end.

(** * Reading back what was written *)

Lemma app_cons c s t : String c s +:+ t = String c (s +:+ t).
Proof. reflexivity. Qed.
Lemma app_nil s : "" +:+ s = s.
Proof. reflexivity. Qed.
Lemma app_assoc_s a b c : (a +:+ b) +:+ c = a +:+ (b +:+ c).
Proof. induction a as [|x a IH]; [done|]. by rewrite !app_cons, IH. Qed.
Lemma length_app_s a b : String.length (a +:+ b) = (String.length a + String.length b)%nat.
Proof. induction a as [|x a IH]; [done|]. rewrite app_cons. cbn. by rewrite IH. Qed.

(** Text whose characters are all ASCII. *)
Fixpoint ascii_text (s : string) : bool :=
  match s with EmptyString => true | String c s => (code c <? 128) && ascii_text s end.

Lemma ascii_app a b : ascii_text (a +:+ b) = ascii_text a && ascii_text b.
Proof. induction a as [|c a IH]; [done|]. rewrite app_cons. cbn. by rewrite IH, andb_assoc. Qed.

Lemma ascii_valid s : ascii_text s = true → valid_utf8 s = true.
Proof. induction s as [|c s IH]; [done|]. cbn. intros [-> Hs]%andb_true_iff. by apply IH. Qed.

Lemma decode_encode_ascii s : ascii_text s = true → decode_utf8 (encode_utf8 s) = Ok s.
Proof.
  intros Hs. unfold decode_utf8, encode_utf8. rewrite String.string_of_list_byte_of_string.
  by rewrite ascii_valid.
Qed.

(** A run of decimal digits. *)
Fixpoint all_digits (s : string) : bool :=
  match s with EmptyString => true | String c s => bool_decide (is_Some (digit c)) && all_digits s end.

Lemma digit_code c d : digit c = Some d → code c = d + 48 ∧ 0 <= d < 10.
Proof.
  unfold digit, code. intros Hd. destruct ((48 <=? _) && (_ <=? 57)) eqn:E; [|done]. injection Hd as <-.
  apply andb_true_iff in E as [H1%Z.leb_le H2%Z.leb_le]. lia.
Qed.

Lemma pretty_go_digits x s : all_digits s = true → all_digits (pretty_N_go x s) = true.
Proof.
  revert s. induction (N.lt_wf_0 x) as [x _ IH]; intros s Hs. destruct (decide (x = 0%N)) as [->|Hx].
  { by rewrite pretty_N_go_0. }
  rewrite pretty_N_go_step by lia. apply IH; [apply N.div_lt; lia|]. cbn [all_digits].
  rewrite digit_pretty, bool_decide_eq_true_2 by (done || by apply N.mod_lt). done.
Qed.

Lemma pretty_go_lead x s : (0 < x)%N →
  ∃ c t d, pretty_N_go x s = String c t ∧ digit c = Some d ∧ d ≠ 0.
Proof.
  revert s. induction (N.lt_wf_0 x) as [x _ IH]; intros s Hx. rewrite pretty_N_go_step by done.
  destruct (decide (x < 10)%N) as [Hlt|Hge].
  - rewrite N.div_small, N.mod_small, pretty_N_go_0 by done. eexists _, _, _. rewrite digit_pretty by done.
    split_and!; [done|done|lia].
  - apply IH; [by apply N.div_lt|apply N.div_str_pos; lia].
Qed.

Lemma pretty_digits n : 0 <= n → all_digits (pretty n) = true.
Proof.
  destruct n as [|p|p]; [done| |lia]. intros _. change (pretty (Z.pos p)) with (pretty (N.pos p)).
  unfold pretty, pretty_N. rewrite decide_False by done. by apply pretty_go_digits.
Qed.

(** A number other than zero starts with another digit. *)
Lemma pretty_lead n : 0 <= n → pretty n = "0" ∨ ∃ c t d, pretty n = String c t ∧ digit c = Some d ∧ d ≠ 0.
Proof.
  destruct n as [|p|p]; [by left| |lia]. intros _. right. change (pretty (Z.pos p)) with (pretty (N.pos p)).
  unfold pretty, pretty_N. rewrite decide_False by done. by apply pretty_go_lead.
Qed.

Lemma parse_digits_value s acc : all_digits s = true → parse_digits acc s = Some (digits_value acc s).
Proof.
  revert acc. induction s as [|c s IH]; intros acc; [done|]. cbn.
  intros [[d Hd]%bool_decide_eq_true Hs]%andb_true_iff. rewrite Hd. cbn. by apply IH.
Qed.

Lemma digits_value_pretty n : 0 <= n → digits_value 0 (pretty n) = n.
Proof.
  intros Hn. pose proof (pretty_digits n Hn) as Hd. destruct (py_int_pretty n Hn) as [Hp Hne].
  destruct (pretty n) as [|c s] eqn:E; [done|].
  assert (Hu : parse_unsigned (String c s) = Some (digits_value 0 (String c s))).
  { cbn in Hd |- *. apply andb_true_iff in Hd as [[d Hd]%bool_decide_eq_true Hs]. rewrite Hd. cbn.
    by apply parse_digits_value. }
  apply py_int_of_digits in Hu. congruence.
Qed.

(** What may follow a number without being read as part of it. *)
Definition ends_number (s : string) : Prop :=
  match s with
  | String c _ => digit c = None ∧ code c ≠ 46 ∧ code c ≠ 101 ∧ code c ≠ 69
  | EmptyString => True
  end.

Lemma read_digits_app d r : all_digits d = true → ends_number r → read_digits (d +:+ r) = (d, r).
Proof.
  intros Hd Hr. induction d as [|c d IH].
  - rewrite app_nil. destruct r as [|c r]; [done|]. cbn. by rewrite (proj1 Hr).
  - rewrite app_cons. cbn in Hd |- *. apply andb_true_iff in Hd as [[x Hx]%bool_decide_eq_true Hd].
    by rewrite Hx, IH.
Qed.

Lemma ends_number_no_more r : ends_number r → read_frac r = ("", r) ∧ read_exp r = ("", r).
Proof.
  destruct r as [|c r]; [done|]. intros (_ & H1 & H2 & H3). cbn.
  by rewrite (proj2 (Z.eqb_neq _ _) H1), (proj2 (Z.eqb_neq _ _) H2), (proj2 (Z.eqb_neq _ _) H3).
Qed.

Lemma read_number_pretty fl n r : 0 <= n → ends_number r → read_number fl (pretty n +:+ r) = Some (JInt n, r).
Proof.
  intros Hn Hr. pose proof (read_digits_app _ _ (pretty_digits n Hn) Hr) as Hd.
  destruct (ends_number_no_more r Hr) as [Hf He]. pose proof (digits_value_pretty n Hn) as Hv.
  unfold read_number. destruct (pretty_lead n Hn) as [E|(c & t & d & E & Hc & Hd0)]; rewrite E in *.
  - rewrite app_cons, app_nil in *. change (code "0" =? 45) with false. cbn iota. rewrite Hd.
    change (code "0" =? 48) with true. cbn iota. rewrite app_nil, Hf, He. cbn [String.eqb andb id].
    do 3 f_equal. exact Hv.
  - rewrite app_cons in *. apply digit_code in Hc as [Hc1 Hc2].
    rewrite (proj2 (Z.eqb_neq (code c) 45)) by lia. rewrite Hd, (proj2 (Z.eqb_neq (code c) 48)) by lia.
    rewrite Hf, He. cbn [String.eqb andb id]. do 3 f_equal. exact Hv.
Qed.

(** Text of printable ASCII characters that need no escape. *)
Definition simple_char (c : ascii) : bool :=
  (32 <=? code c) && (code c <=? 126) && negb (code c =? 34) && negb (code c =? 92).
Fixpoint simple (s : string) : bool :=
  match s with EmptyString => true | String c s => simple_char c && simple s end.

Lemma simple_char_spec c : simple_char c = true → 32 <= code c <= 126 ∧ code c ≠ 34 ∧ code c ≠ 92.
Proof. unfold simple_char. rewrite !andb_true_iff, !negb_true_iff, !Z.eqb_neq. lia. Qed.

Lemma simple_app a b : simple (a +:+ b) = simple a && simple b.
Proof. induction a as [|c a IH]; [done|]. rewrite app_cons. cbn. by rewrite IH, andb_assoc. Qed.

Lemma simple_hex_char n : 0 <= n < 16 → simple_char (hex_char n) = true.
Proof.
  intros Hn. assert (Hin : n ∈ seqZ 0 16) by (apply elem_of_seqZ; lia).
  repeat (apply elem_of_cons in Hin as [->|Hin]; [reflexivity|]). by apply not_elem_of_nil in Hin.
Qed.

Lemma simple_hex b : simple (hex b) = true.
Proof.
  induction b as [|x b IH]; [done|]. cbn [hex simple]. pose proof (byte_val_range x).
  rewrite !simple_hex_char, IH; [done|apply Z.mod_pos_bound; lia|].
  split; [apply Z.div_pos; lia|apply Z.div_lt_upper_bound; lia].
Qed.

Definition quote : ascii := ascii_of_N 34.

Lemma quoted_simple s : simple s = true → quoted s = String quote (s +:+ String quote "").
Proof.
  intros Hs. unfold quoted. rewrite app_cons, app_nil. fold quote. f_equal. f_equal.
  induction s as [|c s IH]; [done|]. cbn [simple] in Hs. apply andb_true_iff in Hs as [Hc%simple_char_spec Hs].
  cbn [code_points]. rewrite (proj2 (Z.ltb_lt (code c) 192)) by lia. cbn [fmap list_fmap].
  assert (He : escape_point (code c) = String c "").
  { unfold escape_point. rewrite !(proj2 (Z.eqb_neq _ _)) by lia.
    rewrite (proj2 (Z.leb_le _ _)), (proj2 (Z.leb_le _ _)) by lia. cbn [andb]. f_equal.
    unfold code. rewrite N2Z.id. apply ascii_N_embedding. }
  rewrite He. specialize (IH Hs). destruct (escape_point <$> code_points s) as [|x l] eqn:El.
  - cbn in IH. subst s. done.
  - change (String.concat "" (String c "" :: x :: l)) with (String c "" +:+ ("" +:+ String.concat "" (x :: l))).
    rewrite app_nil, IH. done.
Qed.

Lemma read_string_simple s r fuel : simple s = true → (String.length s < fuel)%nat →
  read_string fuel (s +:+ String quote r) = Some (s, r).
Proof.
  revert fuel. induction s as [|c s IH]; intros fuel Hs Hf; (destruct fuel as [|fuel]; [lia|]).
  - done.
  - rewrite app_cons. cbn [read_string]. cbn [simple] in Hs. apply andb_true_iff in Hs as [Hc%simple_char_spec Hs].
    rewrite !(proj2 (Z.eqb_neq _ _)) by lia. rewrite (proj2 (Z.ltb_ge _ _)) by lia.
    rewrite IH; [done|done|cbn in Hf; lia].
Qed.

(** An object of simple texts and natural numbers. *)
Definition flat_value (v : json) : Prop :=
  match v with JStr s => simple s = true | JInt n => 0 <= n | _ => False end.
Definition flat (o : list (string * json)) : Prop :=
  NoDup (dict_keys o) ∧ Forall (λ e, simple e.1 = true ∧ flat_value e.2) o.

Section flat.
Context (float_of_text : string → json) (float_repr : Z → Z → string).
Local Abbreviation dumps := (json_dumps_compact float_repr).

Lemma skip_ws_no c s : is_ws c = false → skip_ws (String c s) = String c s.
Proof. intros Hc. cbn. by rewrite Hc. Qed.

(** The first character of a flat value is neither white space nor a bracket. *)
Lemma read_flat_value v r fuel : flat_value v → ends_number r → (String.length (dumps v) <= fuel)%nat →
  skip_ws (dumps v +:+ r) = dumps v +:+ r ∧ read_value float_of_text (S fuel) (dumps v +:+ r) = Some (v, r).
Proof.
  intros Hv Hr Hf. destruct v as [| |n| |s| |]; try done; cbn in Hv, Hf |- *.
  - pose proof (read_number_pretty float_of_text n r Hv Hr) as Hn.
    assert (Hc : ∃ c t d, pretty n = String c t ∧ digit c = Some d).
    { destruct (pretty_lead n Hv) as [->|(c & t & d & E & Hc & _)]; [by exists "0"%char, "", 0|by exists c, t, d]. }
    destruct Hc as (c & t & d & E & Hc%digit_code). rewrite E, app_cons in *. split.
    + apply skip_ws_no. unfold is_ws. rewrite !(proj2 (Z.eqb_neq _ _)) by lia. done.
    + rewrite !(proj2 (Z.eqb_neq _ _)) by lia. exact Hn.
  - rewrite quoted_simple in * by done. rewrite app_cons, app_assoc_s, app_cons, app_nil.
    split; [done|]. change (code quote =? 34) with true. cbn iota.
    rewrite read_string_simple; [done|done|]. cbn in Hf. rewrite length_app_s in Hf. cbn in Hf. lia.
Qed.

Definition member (e : string * json) : string := quoted e.1 +:+ ":" +:+ dumps e.2.

Lemma members_text o : String.concat "," (map (λ '(k, v), quoted k +:+ ":" +:+ dumps v) o) = String.concat "," (map member o).
Proof. f_equal. apply map_ext. by intros [k v]. Qed.

(** One member, up to what follows it. *)
Lemma read_member k v acc r fuel : simple k = true → flat_value v → ends_number r → skip_ws r = r →
  (String.length (member (k, v)) <= fuel)%nat →
  read_members float_of_text (S fuel) acc (member (k, v) +:+ r) =
    match r with
    | String c r' =>
        if code c =? 125 then Some (JObj (dict_set acc k v), r')
        else if code c =? 44 then read_members float_of_text fuel (dict_set acc k v) (skip_ws r')
        else None
    | EmptyString => None
    end.
Proof.
  intros Hk Hv Hr Hw Hf. unfold member in *. cbn [fst snd] in *. rewrite quoted_simple in * by done.
  assert (Hl : (String.length k + String.length (dumps v) + 3 <= fuel)%nat).
  { revert Hf. rewrite !length_app_s. cbn [String.length]. rewrite length_app_s. cbn [String.length]. lia. }
  rewrite !app_assoc_s, app_cons, app_assoc_s, app_cons, app_nil, app_cons, app_nil.
  cbn [read_members]. change (code quote =? 34) with true. cbn iota.
  rewrite read_string_simple by (done || lia). cbn [mbind option_bind].
  rewrite skip_ws_no by done. change (code ":" =? 58) with true. cbn iota.
  destruct fuel as [|fuel]; [lia|].
  destruct (read_flat_value v r fuel Hv Hr) as [-> ->]; [lia|]. cbn [mbind option_bind]. by rewrite Hw.
Qed.

Lemma members_quote o r : o ≠ [] → Forall (λ e, simple e.1 = true ∧ flat_value e.2) o →
  ∃ t, String.concat "," (map member o) +:+ r = String quote t.
Proof.
  intros Hne Ho. destruct o as [|[k v] o]; [done|]. apply Forall_cons in Ho as [[Hk _] _]. cbn [fst] in Hk.
  cbn [map]. unfold member at 1. cbn [fst snd]. rewrite quoted_simple by done.
  destruct (map member o) as [|y l]; cbn [String.concat]; rewrite !app_cons; by eexists.
Qed.

Lemma read_flat_members o acc r fuel : o ≠ [] → NoDup (dict_keys acc ++ dict_keys o) →
  Forall (λ e, simple e.1 = true ∧ flat_value e.2) o →
  (String.length (String.concat "," (map member o)) < fuel)%nat →
  read_members float_of_text fuel acc (String.concat "," (map member o) +:+ String "}" r)
  = Some (JObj (acc ++ o), r).
Proof.
  revert acc fuel. induction o as [|[k v] o IH]; intros acc fuel Hne Hn Ho Hf; [done|]. clear Hne.
  apply Forall_cons in Ho as [[Hk Hv] Ho]. cbn [fst snd] in *. destruct fuel as [|fuel]; [lia|].
  assert (Hset : dict_set acc k v = acc ++ [(k, v)]).
  { apply dict_set_None. destruct (dict_get acc k) eqn:E; [|done]. apply dict_get_elem in E.
    rewrite NoDup_app in Hn. destruct Hn as (_ & Hn & _). exfalso. apply (Hn k); [|by constructor].
    apply list_elem_of_fmap. by exists (k, j). }
  destruct o as [|e o].
  - change (String.concat "," (map member [(k, v)])) with (member (k, v)) in *.
    rewrite read_member by (done || lia). by rewrite Hset.
  - change (String.concat "," (map member ((k, v) :: e :: o))) with
      (member (k, v) +:+ String "," (String.concat "," (map member (e :: o)))) in *.
    rewrite app_assoc_s, app_cons. rewrite length_app_s in Hf. cbn [String.length] in Hf.
    rewrite read_member by (done || lia). change (code "," =? 125) with false. change (code "," =? 44) with true.
    cbn iota. rewrite Hset.
    destruct (members_quote (e :: o) (String "}" r)) as [t Hq]; [done|done|].
    rewrite Hq, skip_ws_no, <- Hq by done.
    rewrite IH; [by rewrite <- app_assoc|done| |done|lia].
    unfold dict_keys. rewrite fmap_app, <- app_assoc. exact Hn.
Qed.

(** A flat object is read back as it was written. *)
Lemma loads_flat o : o ≠ [] → flat o → json_loads float_of_text (dumps (JObj o)) = Ok (JObj o).
Proof.
  intros Hne [Hn Ho]. unfold json_loads. cbn [json_dumps_compact]. rewrite members_text.
  rewrite app_cons, app_nil. set (text := String.concat "," (map member o)).
  rewrite skip_ws_no by done. cbn [read_value]. change (code "{" =? 34) with false.
  change (code "{" =? 123) with true. cbn iota.
  destruct (members_quote o "}" Hne Ho) as [t Hq]. fold text in Hq. rewrite Hq, skip_ws_no by done. change (code quote =? 125) with false. cbn iota.
  rewrite <- Hq. rewrite (read_flat_members o [] ""); [done|done|done|done|].
  cbn [String.length]. rewrite length_app_s. fold text. cbn. lia.
Qed.

Lemma ascii_digits s : all_digits s = true → ascii_text s = true.
Proof.
  induction s as [|c s IH]; [done|]. cbn. intros [[d Hd]%bool_decide_eq_true Hs]%andb_true_iff.
  apply digit_code in Hd. rewrite IH, (proj2 (Z.ltb_lt _ _)) by (done || lia). done.
Qed.
Lemma ascii_simple s : simple s = true → ascii_text s = true.
Proof.
  induction s as [|c s IH]; [done|]. cbn. intros [Hc%simple_char_spec Hs]%andb_true_iff.
  rewrite IH, (proj2 (Z.ltb_lt _ _)) by (done || lia). done.
Qed.
Lemma ascii_quoted s : simple s = true → ascii_text (quoted s) = true.
Proof.
  intros Hs. rewrite quoted_simple by done. cbn [ascii_text]. change (code quote <? 128) with true. cbn [andb].
  rewrite ascii_app, ascii_simple by done. done.
Qed.
Lemma ascii_concat l : Forall (λ t, ascii_text t = true) l → ascii_text (String.concat "," l) = true.
Proof.
  induction 1 as [|t l Ht Hl IH]; [done|]. destruct l as [|u l]; [done|].
  change (String.concat "," (t :: u :: l)) with (t +:+ String "," (String.concat "," (u :: l))).
  rewrite ascii_app, Ht. exact IH.
Qed.

Lemma ascii_flat o : Forall (λ e, simple e.1 = true ∧ flat_value e.2) o → ascii_text (dumps (JObj o)) = true.
Proof.
  intros Ho. cbn [json_dumps_compact]. rewrite members_text, app_cons, app_nil. cbn [ascii_text].
  change (code "{" <? 128) with true. cbn [andb]. rewrite ascii_app, ascii_concat; [done|].
  apply Forall_map. eapply Forall_impl; [exact Ho|]. intros [k v] [Hk Hv]. unfold member. cbn [fst snd] in *.
  rewrite !ascii_app, ascii_quoted by done. change (ascii_text ":") with true. cbn [andb].
  destruct v; try done; cbn in *;
    [by apply ascii_digits, pretty_digits|by apply ascii_quoted].
Qed.
End flat.
