(* ===== verification/JsonText.v ===== *)
(** [json.dumps] with its default separators, read back by [json.loads]: nested
    values of simple texts, integers, booleans and nulls, as the state
    files of the services hold them. *)

From Stdlib Require Import Ascii.
From S2P Require Import Prelude Params Primality Field Points Transcript Types Config Codecs WriteAuth Quorum DataLayer DataLayerSafety Json.

Section text.
Context (float_of_text : string → json) (float_repr : Z → Z → string).

(** [json.dumps(v)]: items are separated by a comma and a space, keys from
    values by a colon and a space. *)
Fixpoint json_dumps_default (v : json) : string :=
  match v with
  | JNull => "null"
  | JBool b => if b then "true" else "false"
  | JInt n => pretty n
  | JFloat m e => float_repr m e
  | JStr s => quoted s
  | JArr l => "[" +:+ String.concat ", " (map json_dumps_default l) +:+ "]"
  | JObj o => "{" +:+ String.concat ", " (map (λ '(k, v), quoted k +:+ ": " +:+ json_dumps_default v) o) +:+ "}"
  end.
Local Abbreviation dumps := json_dumps_default.

(** The values whose text is read back. *)
Fixpoint plain (v : json) : Prop :=
  match v with
  | JNull | JBool _ | JInt _ => True
  | JFloat _ _ => False
  | JStr s => simple s = true
  | JArr l => (fix all l := match l with [] => True | v :: l => plain v ∧ all l end) l
  | JObj o => NoDup (dict_keys o)
      ∧ (fix all o := match o with [] => True | (k, v) :: o => (simple k = true ∧ plain v) ∧ all o end) o
  end.

(** A negative number is a minus sign and the digits of its absolute value. *)
Lemma pretty_neg n : n < 0 → pretty n = String "-" (pretty (- n)).
Proof. by destruct n. Qed.

Lemma read_negative n r fuel : 0 < n → ends_number r →
  read_value float_of_text (S fuel) (String "-" (pretty n +:+ r)) = Some (JInt (- n), r).
Proof.
  intros Hn Hr. pose proof (read_digits_app _ _ (pretty_digits n ltac:(lia)) Hr) as Hd.
  destruct (ends_number_no_more r Hr) as [Hf He]. pose proof (digits_value_pretty n ltac:(lia)) as Hv.
  change (read_value _ _ (String "-" ?s)) with (read_number float_of_text (String "-" s)).
  unfold read_number. change (code "-" =? 45) with true. cbn iota. rewrite Hd.
  destruct (pretty_lead n ltac:(lia)) as [E|(c & t & d & E & Hc & Hd0)]; rewrite E in *; [vm_compute in Hv; lia|].
  apply digit_code in Hc as [Hc1 Hc2]. rewrite (proj2 (Z.eqb_neq (code c) 48)) by lia.
  rewrite Hf, He. cbn [String.eqb andb]. do 3 f_equal. by rewrite Hv.
Qed.

Lemma plain_items l : plain (JArr l) ↔ Forall plain l.
Proof.
  split.
  - intros Hl. cbn in Hl. induction l as [|v l IH]; constructor; [apply Hl|apply IH, Hl].
  - cbn. induction 1; by split.
Qed.
Lemma plain_members o : plain (JObj o) ↔ NoDup (dict_keys o) ∧ Forall (λ e, simple e.1 = true ∧ plain e.2) o.
Proof.
  split; (intros [Hn Ho]; split; [exact Hn|]); clear Hn.
  - induction o as [|[k v] o IH]; constructor; [apply Ho|apply IH, Ho].
  - induction Ho as [|[k v] o Hkv _ IH]; by split.
Qed.

Lemma json_nested_ind (P : json → Prop) : P JNull → (∀ b, P (JBool b)) → (∀ n, P (JInt n)) →
  (∀ m e, P (JFloat m e)) → (∀ s, P (JStr s)) → (∀ l, Forall P l → P (JArr l)) →
  (∀ o, Forall (λ e, P e.2) o → P (JObj o)) → ∀ v, P v.
Proof.
  intros Hn Hb Hi Hf Hs Ha Ho. fix IH 1.
  intros [|b|n|m e|s|l|o]; [done|apply Hb|apply Hi|apply Hf|apply Hs|apply Ha|apply Ho].
  - induction l as [|v l IHl]; constructor; [apply IH|exact IHl].
  - induction o as [|[k v] o IHo]; constructor; [apply IH|exact IHo].
Qed.

(** ** Reading back *)

(** The text of [v], with anything after it that cannot belong to a number. *)
Definition reads (v : json) : Prop := ∀ r fuel, ends_number r → (String.length (dumps v) <= fuel)%nat →
  skip_ws (dumps v +:+ r) = dumps v +:+ r ∧ read_value float_of_text (S fuel) (dumps v +:+ r) = Some (v, r).

Lemma concat_cons x y l : String.concat ", " (x :: y :: l) = x +:+ (String "," (String " " (String.concat ", " (y :: l)))).
Proof. reflexivity. Qed.

Lemma read_items_text l acc r fuel : l ≠ [] → Forall reads l →
  (S (String.length (String.concat ", " (map dumps l))) < fuel)%nat →
  read_items float_of_text fuel acc (String.concat ", " (map dumps l) +:+ String "]" r) = Some (JArr (acc ++ l), r).
Proof.
  revert acc fuel. induction l as [|v l IH]; intros acc fuel Hne Hl Hf; [done|]. clear Hne.
  apply Forall_cons in Hl as [Hv Hl]. destruct fuel as [|f]; [lia|]. cbn [read_items map].
  destruct f as [|fuel]; [lia|].
  destruct l as [|w l].
  - change (String.concat ", " (dumps v :: map dumps [])) with (dumps v) in *.
    change (String.concat ", " (map dumps [v])) with (dumps v) in Hf. destruct (Hv (String "]" r) fuel) as [_ ->]; [by repeat split|lia|]. done.
  - cbn [map] in *. rewrite concat_cons, app_assoc_s, !app_cons. rewrite concat_cons, length_app_s in Hf.
    cbn [String.length] in Hf.
    destruct (Hv (String "," (String " " (String.concat ", " (dumps w :: map dumps l) +:+ String "]" r))) fuel) as [_ ->];
      [by repeat split|lia|].
    cbn [mbind option_bind]. rewrite skip_ws_no by done. change (code "," =? 93) with false.
    change (code "," =? 44) with true. cbn iota. change (skip_ws (String " " ?x)) with (skip_ws x).
    replace (skip_ws (String.concat ", " (dumps w :: map dumps l) +:+ String "]" r))
      with (String.concat ", " (dumps w :: map dumps l) +:+ String "]" r).
    + rewrite (IH (acc ++ [v])); [by rewrite <- app_assoc|done|done|]. lia.
    + symmetry. apply Forall_cons in Hl as [Hw _]. destruct (map dumps l) as [|y k].
      * destruct (Hw (String "]" r) _ ltac:(by repeat split) (le_n _)) as [Hs _]. exact Hs.
      * rewrite concat_cons, app_assoc_s, !app_cons.
        destruct (Hw (String "," (String " " (String.concat ", " (y :: k) +:+ String "]" r))) _
          ltac:(by repeat split) (le_n _)) as [Hs _]. exact Hs.
Qed.

Definition entry (e : string * json) : string := quoted e.1 +:+ ": " +:+ dumps e.2.

Lemma entries_text o : map (λ '(k, v), quoted k +:+ ": " +:+ dumps v) o = map entry o.
Proof. apply map_ext. by intros [k v]. Qed.

Lemma read_entry k v acc r fuel : simple k = true → reads v → ends_number r →
  (String.length (entry (k, v)) <= fuel)%nat →
  read_members float_of_text (S fuel) acc (entry (k, v) +:+ r) =
    match skip_ws r with
    | String c r' =>
        if code c =? 125 then Some (JObj (dict_set acc k v), r')
        else if code c =? 44 then read_members float_of_text fuel (dict_set acc k v) (skip_ws r')
        else None
    | EmptyString => None
    end.
Proof.
  intros Hk Hv Hr Hf. unfold entry in *. cbn [fst snd] in *. rewrite quoted_simple in * by done.
  assert (Hl : (String.length k + String.length (dumps v) + 4 <= fuel)%nat).
  { revert Hf. rewrite !length_app_s. cbn [String.length]. rewrite length_app_s. cbn [String.length]. lia. }
  rewrite !app_assoc_s, app_cons, app_assoc_s, !app_cons, !app_nil.
  cbn [read_members]. change (code quote =? 34) with true. cbn iota.
  rewrite read_string_simple by (done || lia). cbn [mbind option_bind].
  rewrite skip_ws_no by done. change (code ":" =? 58) with true. cbn iota.
  change (skip_ws (String " " ?x)) with (skip_ws x).
  destruct fuel as [|fuel]; [lia|]. destruct (Hv r fuel Hr) as [-> ->]; [lia|]. done.
Qed.

Lemma entry_quote k v r : simple k = true → ∃ t, entry (k, v) +:+ r = String quote t.
Proof.
  intros Hk. unfold entry. cbn [fst snd]. rewrite quoted_simple by done. rewrite !app_cons. by eexists.
Qed.

Lemma entries_quote o r : o ≠ [] → Forall (λ e, simple e.1 = true ∧ reads e.2) o →
  ∃ t, String.concat ", " (map entry o) +:+ r = String quote t.
Proof.
  intros Hne Ho. destruct o as [|[k v] o]; [done|]. apply Forall_cons in Ho as [[Hk _] _]. cbn [fst map] in *.
  destruct (map entry o) as [|y l]; [by apply entry_quote|]. rewrite concat_cons, app_assoc_s. by apply entry_quote.
Qed.

Lemma read_members_text o acc r fuel : o ≠ [] → NoDup (dict_keys acc ++ dict_keys o) →
  Forall (λ e, simple e.1 = true ∧ reads e.2) o →
  (String.length (String.concat ", " (map entry o)) < fuel)%nat →
  read_members float_of_text fuel acc (String.concat ", " (map entry o) +:+ String "}" r) = Some (JObj (acc ++ o), r).
Proof.
  revert acc fuel. induction o as [|[k v] o IH]; intros acc fuel Hne Hn Ho Hf; [done|]. clear Hne.
  apply Forall_cons in Ho as [[Hk Hv] Ho]. cbn [fst snd map] in *. destruct fuel as [|fuel]; [lia|].
  assert (Hset : dict_set acc k v = acc ++ [(k, v)]).
  { apply dict_set_None. destruct (dict_get acc k) eqn:E; [|done]. apply dict_get_elem in E.
    rewrite NoDup_app in Hn. destruct Hn as (_ & Hn & _). exfalso. apply (Hn k); [|by constructor].
    apply list_elem_of_fmap. by exists (k, j). }
  destruct o as [|e o].
  - change (String.concat ", " (entry (k, v) :: map entry [])) with (entry (k, v)) in *.
    rewrite read_entry; [|done|done|by repeat split|lia]. by rewrite Hset.
  - cbn [map] in *. rewrite concat_cons, app_assoc_s, !app_cons. rewrite concat_cons, length_app_s in Hf.
    cbn [String.length] in Hf. rewrite read_entry; [|done|done|by repeat split|lia].
    rewrite skip_ws_no by done. change (code "," =? 125) with false. change (code "," =? 44) with true. cbn iota.
    change (skip_ws (String " " ?x)) with (skip_ws x). rewrite Hset.
    destruct (entries_quote (e :: o) (String "}" r)) as [t Hq]; [done|done|]. cbn [map] in Hq.
    rewrite Hq, skip_ws_no, <- Hq by done. rewrite IH; [by rewrite <- app_assoc|done| |done|lia].
    unfold dict_keys. rewrite fmap_app, <- app_assoc. exact Hn.
Qed.

(** No value's text starts with a closing bracket. *)
Lemma reads_head v r : reads v → ends_number r →
  ∃ c t, dumps v +:+ r = String c t ∧ code c ≠ 93 ∧ skip_ws (String c t) = String c t.
Proof.
  intros Hv Hr. destruct (Hv r _ Hr (le_n _)) as [Hs Hread]. destruct (dumps v +:+ r) as [|c t]; [done|].
  exists c, t. split_and!; [done| |done]. intros Hc. revert Hread.
  assert (c = "]"%char) as ->; [|done].
  rewrite <- (ascii_N_embedding c), <- (N2Z.id (N_of_ascii c)). fold (code c). by rewrite Hc.
Qed.

Lemma items_head l r : l ≠ [] → Forall reads l →
  ∃ c t, String.concat ", " (map dumps l) +:+ String "]" r = String c t ∧ code c ≠ 93 ∧ skip_ws (String c t) = String c t.
Proof.
  intros Hne Hl. destruct l as [|v l]; [done|]. apply Forall_cons in Hl as [Hv _]. cbn [map].
  destruct (map dumps l) as [|y k]; [by apply reads_head; [|repeat split]|].
  rewrite concat_cons, app_assoc_s. by apply reads_head; [|repeat split].
Qed.

Lemma reads_plain v : plain v → reads v.
Proof.
  induction v as [|b|n|m e|s|l IH|o IH] using json_nested_ind; intros Hv r fuel Hr Hf.
  - split; reflexivity.
  - destruct b; split; reflexivity.
  - destruct (decide (0 <= n)); [by apply (read_flat_value float_of_text float_repr (JInt n))|].
    cbn [json_dumps_default]. rewrite pretty_neg, app_cons by lia. split; [done|].
    rewrite read_negative by (done || lia). by rewrite Z.opp_involutive.
  - done.
  - by apply (read_flat_value float_of_text float_repr (JStr s)).
  - apply plain_items in Hv. assert (Hl : Forall reads l).
    { rewrite Forall_forall in IH, Hv |- *. intros x Hx. by apply IH, Hv. }
    cbn [json_dumps_default] in *. rewrite app_cons, app_nil, app_cons, app_assoc_s, app_cons, app_nil in *.
    split; [by rewrite skip_ws_no|]. cbn [read_value]. change (code "[" =? 34) with false.
    change (code "[" =? 123) with false. change (code "[" =? 91) with true. cbn iota.
    destruct (decide (l = [])) as [->|Hne]; [done|].
    destruct (items_head l r Hne Hl) as (c & t & Hh & Hc & Hs).
    rewrite Hh, Hs, (proj2 (Z.eqb_neq _ _) Hc), <- Hh. rewrite read_items_text; [done|done|done|].
    cbn [String.length] in Hf. rewrite length_app_s in Hf. cbn [String.length] in Hf. lia.
  - apply plain_members in Hv as [Hn Hv]. assert (Ho : Forall (λ e, simple e.1 = true ∧ reads e.2) o).
    { rewrite Forall_forall in IH, Hv |- *. intros x Hx. destruct (Hv x Hx). split; [done|]. by apply IH. }
    cbn [json_dumps_default] in *. rewrite entries_text in *.
    rewrite app_cons, app_nil, app_cons, app_assoc_s, app_cons, app_nil in *.
    split; [by rewrite skip_ws_no|]. cbn [read_value]. change (code "{" =? 34) with false.
    change (code "{" =? 123) with true. cbn iota.
    destruct (decide (o = [])) as [->|Hne]; [done|].
    destruct (entries_quote o (String "}" r) Hne Ho) as [t Hh].
    rewrite Hh, skip_ws_no by done. change (code quote =? 125) with false. cbn iota. rewrite <- Hh.
    rewrite read_members_text; [done|done|done|done|].
    cbn [String.length] in Hf. rewrite length_app_s in Hf. cbn [String.length] in Hf. lia.
Qed.

(** What [json.dumps] writes, [json.loads] reads back. *)
Lemma loads_dumps v : plain v → json_loads float_of_text (dumps v) = Ok v.
Proof.
  intros Hv. destruct (reads_plain v Hv "" (2 * String.length (dumps v))%nat) as [Hs Hr]; [done|lia|].
  assert (E : dumps v +:+ "" = dumps v) by (clear; induction (dumps v) as [|c s IH]; [done|by rewrite app_cons, IH]). rewrite E in *.
  unfold json_loads. by rewrite Hs, Hr.
Qed.

(** The text is ASCII. *)
Lemma concat_ascii sep l : ascii_text sep = true → Forall (λ s, ascii_text s = true) l →
  ascii_text (String.concat sep l) = true.
Proof.
  intros Hsep Hl. induction Hl as [|s l Hs _ IH]; [done|]. destruct l as [|s' l]; [done|].
  change (String.concat sep (s :: s' :: l)) with (s +:+ (sep +:+ String.concat sep (s' :: l))).
  by rewrite !ascii_app, Hs, Hsep, IH.
Qed.

Lemma dumps_ascii v : plain v → ascii_text (dumps v) = true.
Proof.
  induction v as [|b|n|m e|s|l IH|o IH] using json_nested_ind; intros Hv.
  - done.
  - by destruct b.
  - cbn [json_dumps_default]. destruct (decide (0 <= n)); [by apply ascii_digits, pretty_digits|].
    rewrite pretty_neg by lia. apply (ascii_digits (pretty (- n))), pretty_digits. lia.
  - done.
  - by apply ascii_quoted.
  - apply plain_items in Hv. cbn [json_dumps_default]. rewrite !ascii_app, concat_ascii; [done|done|].
    rewrite Forall_map. rewrite Forall_forall in *. intros x Hx. by apply IH, Hv.
  - apply plain_members in Hv as [_ Hv]. cbn [json_dumps_default]. rewrite !ascii_app, concat_ascii; [done|done|].
    rewrite Forall_map. rewrite Forall_forall in *. intros [k x] Hx. destruct (Hv _ Hx) as [Hk Hp]. cbn [fst snd] in *.
    specialize (IH _ Hx Hp). cbn [snd] in IH. by rewrite !ascii_app, IH, ascii_quoted.
Qed.

End text.
