(* ===== verification/StateDir.v ===== *)
(** The state directories of the services (keyper_persistence.py,
    token_store.py): encrypted files that are replaced atomically, what a
    process that stops at any point leaves behind, and what a restart finds.

    A file is written to its temporary sibling, which is then renamed.  A
    process may stop before or between the two, or in the middle of the write.
    What a power failure does to buffers of the operating system is not covered. *)

From Stdlib Require Import Zmod Ascii.
From stdpp Require Import gmap strings.
From S2P Require Import Prelude Params Primality Field Points Transcript Elgamal Proofs Recovery Dkg Types Config Schnorr Ballot Admission Aggregation Codecs WriteAuth Quorum DataLayer DataLayerSafety Port Gateway Keyper Bootstrap Http Json JsonText KeyperServer KeyperSafety KeyperCeremony.

(** * Encryption *)

(** cryptography.fernet: a key is base64 text, the second argument of
    [fernet_encrypt] stands for the time and the initialisation vector, and
    [None] for [InvalidToken]. *)
Class Fernet : Type := {
  fernet_encrypt : string → bytes → bytes → bytes;
  fernet_decrypt : string → bytes → option bytes;
}.
Class FernetLaws `{Fernet} : Prop :=
  fernet_correct k r m : fernet_decrypt k (fernet_encrypt k r m) = Some m.

(** [base64.urlsafe_b64encode] *)
Fixpoint urlsafe (s : string) : string :=
  match s with
  | EmptyString => ""
  | String c s => String (if Ascii.eqb c "+" then "-" else if Ascii.eqb c "/" then "_" else c)%char (urlsafe s)
  end.
Definition urlsafe_b64encode (b : bytes) : string := urlsafe (b64encode b).

Definition KEYPER_FERNET_INFO : bytes := encode_utf8 "KEYPER-FERNET-v1".
Definition _FERNET_INFO : bytes := encode_utf8 "COORDINATOR-FERNET-v1".

Section keys.
Context `{Crypto}.
Definition derive_with (info : bytes) (signing_sk : Z) : result string :=
  sk ← to_bytes_be signing_sk 32; Ok (urlsafe_b64encode (keccak (info ++ sk))).
(** [derive_fernet] of the keyper, and of the coordinator's store. *)
Definition keyper_fernet : Z → result string := derive_with KEYPER_FERNET_INFO.
Definition store_fernet : Z → result string := derive_with _FERNET_INFO.
End keys.

(** * Files *)

(** The files of one directory. *)
Abbreviation files := (gmap string bytes).

(** [pathlib.Path.suffix]: the part from the last dot, unless that dot starts
    or ends the name. *)
Fixpoint rfind_dot (i : nat) (found : option nat) (s : string) : option nat :=
  match s with
  | EmptyString => found
  | String c s => rfind_dot (S i) (if Ascii.eqb c "." then Some i else found) s
  end.
Definition with_suffix (name suffix : string) : string :=
  match rfind_dot 0 None name with
  | Some i => if ((0 <? i) && (i <? String.length name - 1))%nat
              then String.substring 0 i name +:+ suffix else name +:+ suffix
  | None => name +:+ suffix
  end.

(** The calls that change the directory. *)
Inductive io :=
| WriteBytes (name : string) (data : bytes)
| Replace (src dst : string).

(** [None] stands for [FileNotFoundError]. *)
Definition perform (fs : files) (o : io) : option files :=
  match o with
  | WriteBytes name data => Some (<[name := data]> fs)
  | Replace src dst => data ← fs !! src; Some (<[dst := data]> (delete src fs))
  end.
Fixpoint performs (fs : files) (ops : list io) : option files :=
  match ops with [] => Some fs | o :: ops => fs ← perform fs o; performs fs ops end.

(** What may be found when the process stops while it makes these calls: a
    write may have stored any part of its data. *)
Inductive interrupted : files → list io → files → Prop :=
| stop_here fs ops : interrupted fs ops fs
| stop_inside fs name data part ops : part `prefix_of` data →
    interrupted fs (WriteBytes name data :: ops) (<[name := part]> fs)
| stop_later fs o ops fs1 fs' : perform fs o = Some fs1 → interrupted fs1 ops fs' → interrupted fs (o :: ops) fs'.

Definition _write_atomic (path : string) (data : bytes) : list io :=
  let tmp := with_suffix path ".tmp" in [WriteBytes tmp data; Replace tmp path].

(** Completed, the write leaves the data and nothing else. *)
Lemma write_atomic_done fs path data : with_suffix path ".tmp" ≠ path →
  performs fs (_write_atomic path data) = Some (<[path := data]> (delete (with_suffix path ".tmp") fs)).
Proof.
  intros Hne. unfold _write_atomic. cbn [performs perform mbind option_bind]. rewrite lookup_insert_eq. cbn [mbind option_bind].
  by rewrite delete_insert_eq.
Qed.

(** Stopped anywhere, it leaves the file as it was or as it was to be, and no
    other file is touched. *)
Lemma write_atomic_stopped fs path data fs' : with_suffix path ".tmp" ≠ path →
  interrupted fs (_write_atomic path data) fs' →
  (fs' !! path = fs !! path ∨ fs' !! path = Some data)
  ∧ ∀ q, q ≠ path → q ≠ with_suffix path ".tmp" → fs' !! q = fs !! q.
Proof.
  intros Hne Hi. unfold _write_atomic in Hi. cbn zeta in Hi. set (tmp := with_suffix path ".tmp") in *.
  inversion Hi as [|? ? ? part ? Hp|? ? ? fs1 ? H1 H2]; subst.
  - split; [by left|done].
  - split; [left|intros q _ Hq]; by rewrite lookup_insert_ne.
  - cbn in H1. injection H1 as <-. inversion H2 as [| |? ? ? fs2 ? H3 H4]; subst.
    + split; [left|intros q _ Hq]; by rewrite lookup_insert_ne.
    + cbn in H3. rewrite lookup_insert_eq in H3. cbn in H3. injection H3 as <-.
      inversion H4; subst. split; [right; by rewrite lookup_insert_eq|].
      intros q Hq Hq'. by rewrite lookup_insert_ne, lookup_delete_ne, lookup_insert_ne.
Qed.

(** * JSON files *)

Section state.
Context `{Fernet}.
Context (float_of_text : string → json) (float_repr : Z → Z → string).

(** [json.loads(fernet.decrypt(path.read_bytes()))], where [None] stands for no
    such file or one that cannot be read.  The services write ASCII, which
    [json.loads] takes as UTF-8. *)
Definition read_json (key name : string) (fs : files) : option json :=
  raw ← fs !! name;
  plain ← fernet_decrypt key raw;
  match (text ← decode_utf8 plain; json_loads float_of_text text) with Ok v => Some v | Err _ => None end.

(** [_write_atomic(path, fernet.encrypt(json.dumps(v).encode()))] *)
Definition json_file (key : string) (iv : bytes) (v : json) : bytes :=
  fernet_encrypt key iv (encode_utf8 (json_dumps_default float_repr v)).
Definition write_json (key : string) (iv : bytes) (name : string) (v : json) : list io :=
  _write_atomic name (json_file key iv v).

Lemma read_json_file `{!FernetLaws} key iv name v fs : plain v → fs !! name = Some (json_file key iv v) →
  read_json key name fs = Some v.
Proof.
  intros Hv Hn. unfold read_json. rewrite Hn. unfold json_file. cbn [mbind option_bind]. rewrite fernet_correct. cbn [mbind option_bind].
  by rewrite decode_encode_ascii, bind_Ok, loads_dumps by (done || by apply dumps_ascii).
Qed.

Lemma read_json_same key name fs fs' : fs' !! name = fs !! name → read_json key name fs' = read_json key name fs.
Proof. unfold read_json. by intros ->. Qed.

(** * services/keyper/keyper_persistence.py *)

Definition SECRETS : string := "dkg_secrets.enc".
Definition TOKENS : string := "bootstrap_tokens.enc".
Definition X25519 : string := "encryption_key.enc".

(** [fresh] is the key [X25519PrivateKey.generate] would draw. *)
Definition load_or_create_x25519 (key : string) (fresh iv : bytes) (fs : files) : result (bytes * list io) :=
  match raw ← fs !! X25519; fernet_decrypt key raw with
  | Some sk => _ ← raise_if (negb (length sk =? 32)%nat) ValueError; Ok (sk, [])
  | None => Ok (fresh, _write_atomic X25519 (fernet_encrypt key iv fresh))
  end.

(** The start of [build_keyper_app]: the process, and the directory it leaves. *)
Definition start_keyper `{Crypto} (signer : Signer) (trusted : list bytes) (ttl : option Z) (fresh iv : bytes) (fs : files)
  : result (KeyperServer * files) :=
  key ← keyper_fernet (private_key signer);
  '(x25519, ops) ← load_or_create_x25519 key fresh iv fs;
  match performs fs ops with
  | Some fs => Ok (new_server signer trusted x25519 ttl (read_json key SECRETS fs) (read_json key TOKENS fs), fs)
  | None => Err FileNotFoundError
  end.
End state.

(** * Simple texts *)

Lemma hex_digits_simple fuel n : simple (hex_digits fuel n) = true.
Proof.
  revert n. induction fuel as [|fuel IH]; intros n; [done|]. cbn [hex_digits]. rewrite simple_app. cbn [simple].
  rewrite simple_hex_char by (apply Z.mod_pos_bound; lia). destruct (n <? 16); [done|]. by rewrite IH.
Qed.
Lemma hex_int_simple n : simple (hex_int n) = true.
Proof. unfold hex_int. rewrite simple_app, hex_digits_simple. by destruct (n <? 0). Qed.
(** What is in the secrets file can be read back. *)
Lemma save_plain c : NoDup (dict_keys c) → Forall (λ e, simple e.1 = true) c → plain (save_dkg_secrets c).
Proof.
  intros Hn Hc. unfold save_dkg_secrets. apply plain_members. split.
  - unfold dict_keys. rewrite <- list_fmap_compose. erewrite list_fmap_ext; [exact Hn|]. by intros ? [k e].
  - rewrite Forall_fmap. eapply Forall_impl; [exact Hc|]. intros [k e] Hk. split; [exact Hk|]. cbn [snd].
    apply plain_members. unfold entry_row. destruct e as [sh [t|]]; cbn [entry_combined_share entry_expires_at].
    + split; [apply (bool_decide_unpack _); vm_compute; exact I|].
      repeat (apply Forall_cons_2; [split; [done|]|]); [exact (hex_int_simple sh)|done|apply Forall_nil_2].
    + split; [apply (bool_decide_unpack _); vm_compute; exact I|].
      apply Forall_cons_2; [split; [done|exact (hex_int_simple sh)]|apply Forall_nil_2].
Qed.

Lemma dict_set_Forall {V} (P : string * V → Prop) (d : dict string V) k v :
  P (k, v) → Forall P d → Forall P (dict_set d k v).
Proof.
  intros Hk. induction 1 as [|[h x] d Hx Hd IH]; cbn [dict_set]; [by repeat constructor|].
  case_decide; constructor; auto. by subst.
Qed.

Lemma load_simple file : (∀ v, file = Some v → plain v) →
  Forall (λ e, simple e.1 = true) (load_dkg_secrets file []).
Proof.
  intros Hp. destruct file as [[| | | | | |o]|]; try constructor. specialize (Hp _ eq_refl).
  apply plain_members in Hp as [_ Ho]. cbn [load_dkg_secrets].
  enough (Hg : ∀ acc : dict string DkgEntry, Forall (λ e, simple e.1 = true) acc →
                Forall (λ e, simple e.1 = true) (load_entries o acc)) by (apply Hg; constructor).
  induction o as [|[k raw] o IH]; intros acc Ha; [done|]. apply Forall_cons in Ho as [[Hk _] Ho].
  cbn [load_entries]. destruct (load_entry raw); [|done]. apply IH; [done|]. by apply dict_set_Forall.
Qed.

(** * The keyper over its directory *)

(** Names that are different. *)
Ltac apart := apply (bool_decide_unpack _); vm_compute; exact I.

Section crash.
Context `{Crypto} `{EthAccount} `{Abi} `{SealPrimitives} `{Fernet} `{!FernetLaws}.
Context (float_repr : Z → Z → string) (py_repr : json → string) (float_of_text : string → json).
Context {store : Type} `{DataLayer store}.
Context (json_loads : bytes → result json).

Abbreviation step := (step float_repr py_repr json_loads).
Abbreviation read := (read_json float_of_text).

Definition legible (file : option json) : Prop := match file with Some v => plain v | None => True end.

(** The calls by which a file goes from one content to the next: none, or a
    write of the new content. *)
Definition file_calls (key name : string) (old new : option json) (ops : list io) : Prop :=
  (new = old ∧ ops = []) ∨ ∃ iv v, new = Some v ∧ ops = write_json float_repr key iv name v.

(** The calls a step of the process makes. *)
Definition calls (key : string) (s s' : KeyperServer) (ops : list io) : Prop := ∃ ops1 ops2,
  ops = ops1 ++ ops2 ∧ file_calls key SECRETS (saved s) (saved s') ops1
  ∧ file_calls key TOKENS (tokens_file s) (tokens_file s') ops2.

Inductive disk_step (key : string) : world store * files → world store * files → Prop :=
| disk_step_intro w w' fs ops fs' : step w w' → legible (tokens_file (server w')) →
    calls key (server w) (server w') ops → performs fs ops = Some fs' → disk_step key (w, fs) (w', fs').

(** The directory holds what the process has saved. *)
Definition holds_key (key : string) (x : bytes) (fs : files) : Prop :=
  ∃ raw, fs !! X25519 = Some raw ∧ fernet_decrypt key raw = Some x.
Definition on_disk (key : string) (fs : files) (s : KeyperServer) : Prop :=
  read key SECRETS fs = saved s ∧ read key TOKENS fs = tokens_file s ∧ holds_key key (x25519_key s) fs.

(** ** Files apart *)

Definition tmp_of (name : string) : string := with_suffix name ".tmp".

(** Calls on one file that stop anywhere. *)
Lemma file_calls_stopped key name old new ops fs fs' : tmp_of name ≠ name → read key name fs = old → legible new →
  file_calls key name old new ops → interrupted fs ops fs' →
  (read key name fs' = old ∨ read key name fs' = new)
  ∧ ∀ q, q ≠ name → q ≠ tmp_of name → fs' !! q = fs !! q.
Proof.
  intros Ht Hold Hnew [[-> ->]|(iv & v & -> & ->)] Hi.
  - inversion Hi; subst. auto.
  - destruct (write_atomic_stopped _ _ _ _ Ht Hi) as [[Hs|Hs] Hq]; (split; [|done]).
    + left. by rewrite (read_json_same float_of_text _ _ _ _ Hs).
    + right. by eapply read_json_file.
Qed.

(** Calls on one file that are all made. *)
Lemma file_calls_done key name old new ops fs fs' : tmp_of name ≠ name → read key name fs = old → legible new →
  file_calls key name old new ops → performs fs ops = Some fs' →
  read key name fs' = new ∧ ∀ q, q ≠ name → q ≠ tmp_of name → fs' !! q = fs !! q.
Proof.
  intros Ht Hold Hnew [[-> ->]|(iv & v & -> & ->)] Hi.
  - cbn in Hi. by injection Hi as <-.
  - unfold write_json in Hi. rewrite write_atomic_done in Hi by done. injection Hi as <-. split.
    + apply (read_json_file float_of_text float_repr key iv); [done|]. by rewrite lookup_insert_eq.
    + intros q Hq Hq'. by rewrite lookup_insert_ne, lookup_delete_ne.
Qed.

Lemma performs_app fs ops ops' fs' : performs fs (ops ++ ops') = Some fs' ↔
  ∃ fs1, performs fs ops = Some fs1 ∧ performs fs1 ops' = Some fs'.
Proof.
  revert fs. induction ops as [|o ops IH]; intros fs; cbn.
  - split; [eauto|]. by intros (fs1 & [= ->] & ?).
  - destruct (perform fs o) as [fs2|]; cbn; [apply IH|]. split; [done|]. by intros (? & ? & ?).
Qed.

Lemma interrupted_app fs ops ops' fs' : interrupted fs (ops ++ ops') fs' →
  interrupted fs ops fs' ∨ ∃ fs1, performs fs ops = Some fs1 ∧ interrupted fs1 ops' fs'.
Proof.
  revert fs. induction ops as [|o ops IH]; intros fs Hi; [right; by exists fs|]. cbn [app] in Hi.
  inversion Hi as [|? ? ? part ? Hp|? ? ? fs1 ? Ho Hl]; subst; [left; constructor|left; by constructor|].
  destruct (IH _ Hl) as [Hs|(fs2 & Hd & Hs)]; [left; by econstructor|]. right. exists fs2.
  split; [|done]. cbn [performs]. by rewrite Ho.
Qed.

(** A step whose calls are all made. *)
Lemma calls_done key s s' ops fs fs' : on_disk key fs s → x25519_key s' = x25519_key s →
  legible (saved s') → legible (tokens_file s') → calls key s s' ops → performs fs ops = Some fs' →
  on_disk key fs' s'.
Proof.
  intros (Hs & Ht & raw & Hx & Hd) Hk Ls Lt (ops1 & ops2 & -> & Hc1 & Hc2) (fs1 & Hp1 & Hp2)%performs_app.
  destruct (file_calls_done key SECRETS _ _ _ _ _ ltac:(apart) Hs Ls Hc1 Hp1) as [Hs1 Hq1].
  rewrite <- (read_json_same float_of_text key TOKENS fs fs1) in Ht by (apply Hq1; apart).
  destruct (file_calls_done key TOKENS _ _ _ _ _ ltac:(apart) Ht Lt Hc2 Hp2) as [Ht2 Hq2].
  split_and!.
  - rewrite <- Hs1. apply read_json_same. apply Hq2; apart.
  - done.
  - exists raw. rewrite Hk. split; [|done]. by rewrite Hq2, Hq1 by apart.
Qed.

(** A step that stops anywhere. *)
Lemma calls_stopped key s s' ops fs fs' : on_disk key fs s →
  legible (saved s') → legible (tokens_file s') → calls key s s' ops → interrupted fs ops fs' →
  (read key SECRETS fs' = saved s ∨ read key SECRETS fs' = saved s')
  ∧ (read key TOKENS fs' = tokens_file s ∨ read key TOKENS fs' = tokens_file s')
  ∧ holds_key key (x25519_key s) fs'.
Proof.
  intros (Hs & Ht & raw & Hx & Hd) Ls Lt (ops1 & ops2 & -> & Hc1 & Hc2) [Hi|(fs1 & Hp1 & Hi)]%interrupted_app.
  - destruct (file_calls_stopped key SECRETS _ _ _ _ _ ltac:(apart) Hs Ls Hc1 Hi) as [Hs1 Hq1].
    split; [done|]. split; [|exists raw; by rewrite Hq1 by apart].
    left. rewrite <- Ht. apply read_json_same. apply Hq1; apart.
  - destruct (file_calls_done key SECRETS _ _ _ _ _ ltac:(apart) Hs Ls Hc1 Hp1) as [Hs1 Hq1].
    rewrite <- (read_json_same float_of_text key TOKENS fs fs1) in Ht by (apply Hq1; apart).
    destruct (file_calls_stopped key TOKENS _ _ _ _ _ ltac:(apart) Ht Lt Hc2 Hi) as [Ht2 Hq2].
    split; [right; rewrite <- Hs1; by apply read_json_same, Hq2|]. split; [done|].
    exists raw. split; [|done]. by rewrite Hq2, Hq1 by apart.
Qed.

(** ** What the process keeps *)

(** The completed shares are those of the secrets file, and are kept under
    simple names. *)
Definition tidy (s : KeyperServer) : Prop :=
  durable s ∧ Forall (λ e, simple e.1 = true) (completed s) ∧ legible (saved s).

Lemma tidy_save s c : NoDup (dict_keys c) → Forall (λ e, simple e.1 = true) c →
  tidy (with_completed s c (Some (save_dkg_secrets c))).
Proof. intros Hn Hc. split_and!; [by apply durable_save|done|by apply save_plain]. Qed.

Lemma serve_tidy net e : keeps (λ w : world store, tidy (server w)) (serve float_repr py_repr json_loads net e).
Proof.
  apply (serve_keeps _ _ _ tidy); try done.
  - intros body _. unfold handle_round2.
    keeps_tac ltac:(first [ apply keeps_config | apply keeps_dkg_state | apply keeps_my_index
      | (apply keeps_inbox; by intros w s' Hw [? ->]) | (apply keeps_put_box; by intros w s' Hw [? ->])
      | (apply keeps_put_dkg; by intros w s' Hw [? ->])
      | (intros w (Hd & Hc & _); apply tidy_save;
         [apply dict_set_NoDup, Hd|apply dict_set_Forall; [apply simple_hex|done]]) ]).
  - intros now _ w Hw. unfold prune_expired, mbind, handler_bind, the_server. cbn beta iota zeta.
    case_bool_decide; [done|]. destruct Hw as (Hd & Hc & _).
    apply tidy_save; [by apply filter_keys_NoDup, Hd|]. rewrite Forall_forall in *. intros x [_ Hx]%list_elem_of_filter. by apply Hc.
  - intros now body _. by apply keeps_aggregate.
Qed.

Lemma serve_key net e x : keeps (λ w : world store, x25519_key (server w) = x) (serve float_repr py_repr json_loads net e).
Proof.
  apply (serve_keeps _ _ _ (λ s, x25519_key s = x)); try done.
  - intros body _. apply keeps_round2; [by intros w s' Hw [? ->]..|by intros w s' Hw (? & ? & ->)].
  - intros now _. apply keeps_prune. by intros w s' Hw (? & ? & ->).
  - intros now body _. by apply (keeps_aggregate (λ s, x25519_key s = x)).
Qed.

Lemma step_keeps w w' : step w w' → tidy (server w) →
  tidy (server w') ∧ x25519_key (server w') = x25519_key (server w).
Proof.
  intros Hs Hw. destruct Hs as [net e w|w k now now' eid eid_hex Hin|w l']; [|..|done].
  - split; [by apply serve_tidy|by apply serve_key].
  - unfold _run_aggregate, mbind, handler_bind, the_layer, attempt. cbn beta iota zeta.
    by destruct (worker_submit k (layer w) now now' eid).
Qed.

(** No step forgets a file. *)
Definition no_loss (s s' : KeyperServer) : Prop :=
  (saved s' = saved s ∨ is_Some (saved s')) ∧ (tokens_file s' = tokens_file s ∨ is_Some (tokens_file s')).

Lemma serve_no_loss net e s0 :
  keeps (λ w : world store, no_loss s0 (server w)) (serve float_repr py_repr json_loads net e).
Proof.
  apply (serve_keeps _ _ _ (no_loss s0)); try done.
  - intros s f [Hs _]. split; [done|by right].
  - intros body _. apply keeps_round2; [by intros w s' Hw [? ->]..|].
    intros w s' [_ Ht] (? & ? & ->). split; [by right|done].
  - intros now _. apply keeps_prune. intros w s' [_ Ht] (? & ? & ->). split; [by right|done].
  - intros now body _. by apply (keeps_aggregate (no_loss s0)).
Qed.

Lemma file_calls_exist key name old new fs : tmp_of name ≠ name → new = old ∨ is_Some new →
  ∃ ops fs', file_calls key name old new ops ∧ performs fs ops = Some fs'.
Proof.
  intros Ht [->|[v ->]]; [exists [], fs; split; [by left|done]|].
  do 2 eexists. split; [right; by exists [], v|]. by apply write_atomic_done.
Qed.

(** Every step has calls that can be made: the directory blocks none. *)
Lemma calls_exist key w w' fs : step w w' →
  ∃ ops fs', calls key (server w) (server w') ops ∧ performs fs ops = Some fs'.
Proof.
  intros Hs. assert (Hn : no_loss (server w) (server w')).
  { destruct Hs as [net e w|w k now now' eid eid_hex Hin|w l'].
    - apply serve_no_loss. split; by left.
    - unfold _run_aggregate, mbind, handler_bind, the_layer, attempt. cbn beta iota zeta.
      destruct (worker_submit k (layer w) now now' eid); split; by left.
    - split; by left. }
  destruct Hn as [Hsec Htok].
  destruct (file_calls_exist key SECRETS _ _ fs ltac:(apart) Hsec) as (o1 & fs1 & Hc1 & Hp1).
  destruct (file_calls_exist key TOKENS _ _ fs1 ltac:(apart) Htok) as (o2 & fs2 & Hc2 & Hp2).
  exists (o1 ++ o2), fs2. split; [by exists o1, o2|]. apply performs_app. eauto.
Qed.

(** ** Starting *)

Abbreviation start := (start_keyper float_of_text).

(** A started process and its directory. *)
Lemma start_spec key signer trusted ttl fresh iv fs s fs' : keyper_fernet (private_key signer) = Ok key →
  length fresh = 32%nat → (∀ v, read key SECRETS fs = Some v → plain v) →
  start signer trusted ttl fresh iv fs = Ok (s, fs') →
  on_disk key fs' s ∧ tidy s ∧ length (x25519_key s) = 32%nat.
Proof.
  intros Hkey Hf Hp Hs. unfold start_keyper in Hs. rewrite Hkey, bind_Ok in Hs.
  apply bind_Ok_inv in Hs as ([x ops] & Hx & Hs).
  assert (Hops : ∃ fs1, performs fs ops = Some fs1 ∧ fs1 !! SECRETS = fs !! SECRETS ∧ holds_key key x fs1
                        ∧ length x = 32%nat).
  { unfold load_or_create_x25519 in Hx. destruct (raw ← fs !! X25519; fernet_decrypt key raw) as [sk|] eqn:E.
    - destruct (Nat.eqb_spec (length sk) 32) as [El|]; cbn in Hx; [|done]. injection Hx as -> <-.
      apply bind_Some in E as (raw & Hr & Hd). exists fs.
      split_and!; [done|done|by exists raw|exact El].
    - injection Hx as -> <-. eexists. split; [apply write_atomic_done; apart|].
      split_and!; [by rewrite lookup_insert_ne, lookup_delete_ne by apart| |done].
      eexists. split; [by rewrite lookup_insert_eq|apply fernet_correct]. }
  destruct Hops as (fs1 & Hd & Hsec & Hx1 & Hl). rewrite Hd in Hs. injection Hs as <- <-.
  split; [by split_and!|]. split; [|done]. split; [split; [apply load_NoDup|done]|]. split.
  - apply load_simple. intros v Hv. apply Hp. by rewrite <- (read_json_same _ _ _ _ _ Hsec).
  - cbn. rewrite (read_json_same _ _ _ _ _ Hsec). destruct (read key SECRETS fs) eqn:E; [by apply Hp|done].
Qed.

(** A process started where a key is found. *)
Lemma start_again key signer trusted ttl fresh iv fs x : keyper_fernet (private_key signer) = Ok key →
  holds_key key x fs → length x = 32%nat →
  start signer trusted ttl fresh iv fs =
    Ok (new_server signer trusted x ttl (read key SECRETS fs) (read key TOKENS fs), fs).
Proof.
  intros Hkey (raw & Hr & Hd) Hl. unfold start_keyper, load_or_create_x25519. rewrite Hkey, bind_Ok, Hr.
  cbn [mbind option_bind]. by rewrite Hd, Hl.
Qed.

(** The directory follows the process. *)
Lemma disk_steps key a b : rtc (disk_step key) a b → on_disk key a.2 (server a.1) → tidy (server a.1) →
  on_disk key b.2 (server b.1) ∧ tidy (server b.1) ∧ x25519_key (server b.1) = x25519_key (server a.1).
Proof.
  induction 1 as [a|a b c Hab _ IH]; intros Hd Ht; [done|].
  destruct Hab as [w w' fs ops fs' Hs Hl Hc Hp]. cbn [fst snd] in *.
  destruct (step_keeps _ _ Hs Ht) as [Ht' Hx].
  destruct IH as (Hd2 & Ht2 & Hx2); [by eapply calls_done; try done; apply Ht'|done|]. by rewrite Hx2.
Qed.

(** C23: A keyper that started in some directory, ran, and stopped at any point
    of a further step, in the middle of a write too, starts again there: with the
    same X25519 key, so that what was sealed for it can be opened, with the
    completed shares of before or after that step, and with the bootstrap
    tokens saved before or after it.  The hypotheses ask for a directory and
    tokens of simple texts. *)
Theorem keyper_crash_safe key signer trusted ttl fresh iv fs0 s0 fs1 ps l w fs w' ops fs' fresh' iv' :
  keyper_fernet (private_key signer) = Ok key → length fresh = 32%nat →
  (∀ v, read key SECRETS fs0 = Some v → plain v) →
  start signer trusted ttl fresh iv fs0 = Ok (s0, fs1) →
  rtc (disk_step key) (mkWorld s0 ps l, fs1) (w, fs) →
  step w w' → legible (tokens_file (server w')) → calls key (server w) (server w') ops →
  interrupted fs ops fs' →
  ∃ s, start signer trusted ttl fresh' iv' fs' = Ok (s, fs') ∧ x25519_key s = x25519_key s0
    ∧ (completed s = completed (server w) ∨ completed s = completed (server w'))
    ∧ (tokens_file s = tokens_file (server w) ∨ tokens_file s = tokens_file (server w')).
Proof.
  intros Hkey Hf Hp Hs0 Hr Hs Hl Hc Hi.
  destruct (start_spec _ _ _ _ _ _ _ _ _ Hkey Hf Hp Hs0) as (Hd0 & Ht0 & Hx0).
  destruct (disk_steps _ _ _ Hr Hd0 Ht0) as (Hd & Ht & Hx). cbn [fst snd server] in *.
  destruct (step_keeps _ _ Hs Ht) as [Ht' _].
  destruct (calls_stopped _ _ _ _ _ _ Hd (proj2 (proj2 Ht')) Hl Hc Hi) as (Hsec & Htok & Hkx).
  rewrite Hx in Hkx. eexists. split; [by eapply start_again|]. split_and!; [done| |done].
  destruct Hsec as [-> | ->]; [left; apply Ht|right; apply Ht'].
Qed.
End crash.

(** * A crash *)

(** Encryption that marks its output with the key. *)
Module marking_fernet.
#[export] Instance fernet : Fernet := {|
  fernet_encrypt k _ m := encode_utf8 k ++ m;
  fernet_decrypt k c :=
    let mark := encode_utf8 k in
    if bool_decide (take (length mark) c = mark) then Some (drop (length mark) c) else None;
|}.
#[export] Instance fernet_laws : FernetLaws.
Proof.
  intros k r m. cbn [fernet_encrypt fernet_decrypt fernet]. rewrite take_app_length, drop_app_length.
  by rewrite bool_decide_eq_true_2.
Qed.
End marking_fernet.

Module crash_run.
Import prefix_abi naming_account toy_seal memory_example ceremony_run marking_fernet.
#[local] Existing Instance concrete_crypto.
#[local] Existing Instance port_example.layer.

Definition no_float (_ : string) : json := JNull.
Definition key : string := Eval vm_compute in get_ok "" (keyper_fernet (private_key (signer 1))).

Lemma key_ok : keyper_fernet (private_key (signer 1)) = Ok key.
Proof. vm_compute. reflexivity. Qed.

(** A first start, in an empty directory. *)
Definition dir : files := <[X25519 := fernet_encrypt key [] (xkey 1)]> (delete (tmp_of X25519) ∅).
Lemma first_start : start_keyper no_float (signer 1) [] (Some 1000) (xkey 1) [] ∅ = Ok (server bare, dir).
Proof.
  unfold start_keyper. rewrite key_ok, bind_Ok. unfold load_or_create_x25519. rewrite lookup_empty.
  cbn [mbind option_bind]. rewrite bind_Ok, write_atomic_done by apart. reflexivity.
Qed.

Definition begun : world InMemoryDataLayer := served bare (ERound1 (rng 1) body).

Lemma begun_reached : rtc (disk_step float_text repr loads key) (bare, dir) (begun, dir).
Proof.
  apply rtc_once, (disk_step_intro _ _ _ _ _ _ _ []); [apply step_serve| | |reflexivity].
  - vm_compute. exact I.
  - exists [], []. split; [done|]. split; left; (split; [vm_compute; reflexivity|done]).
Qed.

(** The second round saves the share; the process stops in the middle of that. *)
Definition content : json := save_dkg_secrets (completed (server alone)).
Definition torn : files := <[tmp_of SECRETS := take 5 (json_file float_text key [] content)]> dir.

Lemma keyper_crash_safe_witness : ∃ s, start_keyper no_float (signer 1) [] (Some 1000) (xkey 2) [] torn = Ok (s, torn)
  ∧ x25519_key s = xkey 1.
Proof.
  destruct (keyper_crash_safe float_text repr no_float loads key (signer 1) [] (Some 1000) (xkey 1) [] ∅ (server bare) dir
    [] registered begun dir alone (write_json float_text key [] SECRETS content) torn (xkey 2) []) as (s & Hs & Hx & _).
  - exact key_ok.
  - vm_compute. reflexivity.
  - intros v Hv. vm_compute in Hv. discriminate.
  - exact first_start.
  - exact begun_reached.
  - apply step_serve.
  - vm_compute. exact I.
  - exists (write_json float_text key [] SECRETS content), [].
    split; [by rewrite app_nil_r|]. split; [right; exists [], content; split; [|done]|left; split; [|done]];
      vm_compute; reflexivity.
  - apply stop_inside. exists (drop 5 (json_file float_text key [] content)). by rewrite take_drop.
  - exists s. split; [exact Hs|]. rewrite Hx. reflexivity.
Defined.
End crash_run.
