(* ===== verification/TokenFile.v ===== *)
(** The coordinator's credential store on disk (token_store.py): what [get]
    finds after a [put] that was made, or that stopped anywhere, and that the
    keys of the coordinator's and the keypers' state files are different. *)

From Stdlib Require Import Ascii.
From stdpp Require Import gmap strings.
From S2P Require Import Prelude Params Primality Field Points Transcript Dkg Types Config Codecs WriteAuth DataLayer DataLayerSafety Port Keyper Bootstrap Http Json JsonText StateDir Coordinator.

(** * Keys *)

Definition unsafe_char (c : ascii) : ascii :=
  (if Ascii.eqb c "-" then "+" else if Ascii.eqb c "_" then "/" else c)%char.
Fixpoint unsafe (s : string) : string :=
  match s with EmptyString => "" | String c s => String (unsafe_char c) (unsafe s) end.

(** Text of the standard alphabet. *)
Fixpoint standard (s : string) : bool :=
  match s with
  | EmptyString => true
  | String c s => negb (Ascii.eqb c "-") && negb (Ascii.eqb c "_") && standard s
  end.

Lemma unsafe_urlsafe s : standard s = true → unsafe (urlsafe s) = s.
Proof.
  induction s as [|c s IH]; [done|]. cbn [standard urlsafe unsafe].
  intros [[H1%negb_true_iff H2%negb_true_iff]%andb_true_iff Hs]%andb_true_iff. rewrite (IH Hs). f_equal.
  unfold unsafe_char. destruct (Ascii.eqb_spec c "+"%char) as [->|]; [done|].
  destruct (Ascii.eqb_spec c "/"%char) as [->|]; [done|]. by rewrite H1, H2.
Qed.

Lemma standard_char n s : 0 <= n < 64 → standard (String (b64_char n) s) = standard s.
Proof.
  intros Hn. assert (HF : Forall (λ k, standard (String (b64_char k) "") = true) (seqZ 0 64)) by (by repeat constructor).
  rewrite Forall_forall in HF. specialize (HF n). rewrite elem_of_seqZ in HF. specialize (HF ltac:(lia)).
  cbn [standard] in *. rewrite andb_true_r in HF. by rewrite HF.
Qed.

Lemma b64encode_standard b : standard (b64encode b) = true.
Proof.
  remember (length b) as n eqn:Hn. revert b Hn. induction (lt_wf n) as [n _ IH]. intros b ->.
  destruct b as [|x [|y [|z b]]]; [done|..]; pose proof (byte_val_range x); try pose proof (byte_val_range y);
    try pose proof (byte_val_range z); cbn [b64encode];
    repeat rewrite standard_char by (Z.div_mod_to_equations; lia); try done.
  apply (IH (length b)); [cbn; lia|done].
Qed.

Lemma urlsafe_b64encode_inj a b : urlsafe_b64encode a = urlsafe_b64encode b → a = b.
Proof.
  unfold urlsafe_b64encode. intros E%(f_equal unsafe). rewrite !unsafe_urlsafe in E by apply b64encode_standard.
  apply (f_equal (a2b_base64 0 0 0)) in E. rewrite !a2b_b64encode in E. by injection E.
Qed.

(** A keyper and a coordinator never share a state key, whatever their signing
    keys are, if the two texts hashed do not collide: the texts differ in
    length. *)
Lemma fernet_keys_apart `{Crypto} sk sk' k k' : keyper_fernet sk = Ok k → store_fernet sk' = Ok k' →
  coll_free [KEYPER_FERNET_INFO ++ be_bytes 32 sk; _FERNET_INFO ++ be_bytes 32 sk'] → k ≠ k'.
Proof.
  unfold keyper_fernet, store_fernet, derive_with. intros Hk Hk' Hc E.
  apply bind_Ok_inv in Hk as (b & [_ ->]%to_bytes_be_Ok & <-%Ok_inj).
  apply bind_Ok_inv in Hk' as (b' & [_ ->]%to_bytes_be_Ok & <-%Ok_inj).
  apply urlsafe_b64encode_inj in E. apply (coll_free_eq _ _ _ Hc) in E; [|set_solver..].
  apply (f_equal length) in E. by rewrite !length_app, !length_be_bytes in E.
Qed.

(** * The store *)

Section store.
Context `{Fernet}.
Context (float_of_text : string → json) (float_repr : Z → Z → string).

Definition _file : string := "keyper_tokens.enc".

Definition get (key : string) (fs : files) (url : string) : result (option (dict string json)) :=
  token_get (read_json float_of_text key _file fs) url.

Definition put (key : string) (iv : bytes) (fs : files) (url api_token peer_token : string) : result (list io) :=
  file ← token_put (read_json float_of_text key _file fs) url (JStr api_token) (JStr peer_token);
  Ok (match file with Some v => write_json float_repr key iv _file v | None => [] end).

(** A credential. *)
Definition cred (api peer : string) : dict string json := [("api_token", JStr api); ("peer_token", JStr peer)].

Lemma put_spec key iv fs url api peer ops : put key iv fs url api peer = Ok ops →
  ∃ data, _load (read_json float_of_text key _file fs) = JObj data
    ∧ ops = write_json float_repr key iv _file (JObj (dict_set data url (JObj (cred api peer)))).
Proof.
  unfold put, token_put. destruct (_load _) as [| | | | | |data] eqn:E; try done. rewrite bind_Ok. intros [= <-]. eauto.
Qed.

Lemma get_data key fs data url : _load (read_json float_of_text key _file fs) = JObj data →
  get key fs url = let e := default JNull (dict_get data url) in
                   if py_bool e then d ← py_dict e; Ok (Some d) else Ok None.
Proof. unfold get, token_get. intros ->. unfold json_get. rewrite bind_Ok. done. Qed.

Lemma cred_plain api peer : simple api = true → simple peer = true → plain (JObj (cred api peer)).
Proof.
  intros Ha Hp. apply plain_members. split; [apply (bool_decide_unpack _); vm_compute; exact I|].
  by repeat constructor.
Qed.

Lemma plain_set data url v : plain (JObj data) → simple url = true → plain v → plain (JObj (dict_set data url v)).
Proof.
  intros [Hn Hd]%plain_members Hu Hv. apply plain_members. split; [by apply dict_set_NoDup|]. by apply dict_set_Forall.
Qed.

(** A [put] that stops anywhere, in the middle of the write too, leaves every
    credential in place, except that the one it was given may be stored; a [put]
    that is made stores it. *)
Lemma put_stopped `{!FernetLaws} key iv fs url api peer ops fs' :
  (∀ v, read_json float_of_text key _file fs = Some v → plain v) →
  simple url = true → simple api = true → simple peer = true →
  put key iv fs url api peer = Ok ops → interrupted fs ops fs' →
  (∀ other, other ≠ url → get key fs' other = get key fs other)
  ∧ (get key fs' url = get key fs url ∨ get key fs' url = Ok (Some (cred api peer)))
  ∧ (performs fs ops = Some fs' → get key fs' url = Ok (Some (cred api peer))).
Proof.
  intros Hl Hu Ha Hp (data & Hd & ->)%put_spec Hi.
  assert (Hpl : plain (JObj (dict_set data url (JObj (cred api peer))))).
  { apply plain_set; [|done|by apply cred_plain]. unfold _load in Hd.
    destruct (read_json float_of_text key _file fs) as [v|] eqn:E; cbn in Hd; [rewrite <- Hd; by apply Hl|].
    injection Hd as <-. apply plain_members. split; [constructor|by constructor]. }
  assert (Hnew : ∀ fs2, fs2 !! _file = Some (json_file float_repr key iv (JObj (dict_set data url (JObj (cred api peer))))) →
    (∀ other, other ≠ url → get key fs2 other = get key fs other) ∧ get key fs2 url = Ok (Some (cred api peer))).
  { intros fs2 Hf. pose proof (read_json_file float_of_text float_repr key iv _file _ fs2 Hpl Hf) as Hr.
    assert (Hd2 : _load (read_json float_of_text key _file fs2) = JObj (dict_set data url (JObj (cred api peer))))
      by (by rewrite Hr).
    split; [intros other Ho|]; rewrite (get_data _ _ _ _ Hd2); cbn zeta.
    - rewrite (get_data _ _ _ _ Hd), dict_get_set, decide_False; done.
    - by rewrite dict_get_set, decide_True. }
  destruct (write_atomic_stopped _ _file _ _ ltac:(apart) Hi) as [[Hs|Hs] _].
  - pose proof (read_json_same float_of_text key _file fs fs' Hs) as Hr.
    assert (Hsame : ∀ u, get key fs' u = get key fs u) by (intros u; unfold get; by rewrite Hr).
    split; [by intros|]. split; [by left|]. intros Hdone. unfold write_json in Hdone.
    rewrite write_atomic_done in Hdone by apart. injection Hdone as <-. apply Hnew. by rewrite lookup_insert_eq.
  - destruct (Hnew _ Hs) as [Ho Hc]. split; [exact Ho|]. split; [by right|by intros].
Qed.
End store.
