(* ===== verification/Admin.v ===== *)
(** The administrator's service (services/admin/admin.py): registering,
    cancelling and resuming elections over any data layer, the HTTP routes, and
    the command line.  The service checks a request before it relays it; here it
    is compared with what the in-memory data layer itself accepts. *)

From S2P Require Import Prelude Params Primality Field Points Transcript Types Config Codecs WriteAuth Quorum DataLayer DataLayerSafety Port Gateway Bootstrap Http KeyperServer HttpPort.

Section admin.
Context `{Crypto} `{EthAccount} (float_repr : Z → Z → string) (py_repr : json → string).
Context {store : Type} `{DataLayer store}.

(** ** Operations *)

(** [now] is the service's clock. *)
Definition admin_register_election (s : store) (config : ElectionConfig) (admin_sig admin_identity : bytes)
    (now dkg_lead_time : Z) : result (store * bytes) :=
  _ ← raise_if (negb (bool_decide (admin_key config = admin_identity))) (RegistrationError "NotAdminWallet");
  _ ← raise_if (negb (verify_register float_repr (admin_key config) admin_sig config)) WriteAuthorizationError;
  let lead := voting_start config - now in
  _ ← raise_if (lead <? dkg_lead_time) (RegistrationError "InsufficientDkgLeadTime");
  dl_register_election s config admin_sig.

(** [now] is the data layer's clock. *)
Definition admin_cancel_election (s : store) (now : Z) (eid admin_sig admin_identity : bytes) : result store :=
  rec ← dl_get_election s eid;
  let key := admin_key (rec_config rec) in
  _ ← raise_if (negb (bool_decide (key = admin_identity))) WriteAuthorizationError;
  _ ← raise_if (negb (verify_request key admin_sig "cancel" eid [])) WriteAuthorizationError;
  dl_cancel_election s now eid admin_sig.

Definition retry_tally (s : store) (now now' : Z) (eid admin_sig admin_identity : bytes) (issued_at : Z)
  : result store :=
  rec ← dl_get_election s eid;
  let key := admin_key (rec_config rec) in
  _ ← raise_if (negb (bool_decide (key = admin_identity))) WriteAuthorizationError;
  payload ← request_nonce_payload issued_at;
  _ ← raise_if (negb (verify_request key admin_sig "tally_resume" eid payload)) WriteAuthorizationError;
  dl_set_tally_stalled s now now' eid false admin_sig issued_at.

(** ** The HTTP service *)

Inductive admin_request :=
| AdminHealth
| AdminRegister (body : json)
| AdminCancel (eid : string) (body : json)
| AdminRetry (eid : string) (body : json).

(** The error handlers: the status and the [error] field of the reply.  An
    exception none of them takes is answered 500 by Flask. *)
Definition admin_error (e : exn) : Z * string :=
  match e with
  | KeyError => (404, "NotFound")
  | WriteAuthorizationError => (401, "Unauthorized")
  | ImmutabilityError => (409, "ImmutabilityError")
  | RegistrationError code => (400, code)
  | _ => if is_value_error e then (400, "ValueError") else (500, "")
  end.

(** The routes; [clock] is the service's reading, [now] and [now'] the data
    layer's. *)
Definition admin_handle (s : store) (admin_identity : bytes) (clock now now' : Z) (r : admin_request)
  : result (store * reply) :=
  match r with
  | AdminHealth => Ok (s, Reply 200 (JObj [("ok", JBool true)]))
  | AdminRegister body =>
      v ← getitem body "config"; config ← dec_config py_repr v;
      admin_sig ← body_bytes body "signature";
      given ← json_get body "dkgLeadTime";
      _ ← raise_if (match given with JNull => true | _ => false end) (RegistrationError "MissingDkgLeadTime");
      lead ← int_field body "dkgLeadTime";
      '(s', eid) ← admin_register_election s config admin_sig admin_identity clock lead;
      Ok (s', Reply 200 (JObj [("electionId", enc_bytes eid)]))
  | AdminCancel eid body =>
      admin_sig ← body_bytes body "signature";
      e ← bytes_fromhex eid;
      s' ← admin_cancel_election s now e admin_sig admin_identity;
      Ok (s', Reply 204 (JStr ""))
  | AdminRetry eid body =>
      admin_sig ← body_bytes body "signature";
      e ← bytes_fromhex eid;
      issued_at ← int_field body "issuedAt";
      s' ← retry_tally s now now' e admin_sig admin_identity issued_at;
      Ok (s', Reply 204 (JStr ""))
  end.

(** A request and the status of its answer; a failed one leaves the store. *)
Definition admin_serve (s : store) (admin_identity : bytes) (clock now now' : Z) (r : admin_request) : store * Z :=
  match admin_handle s admin_identity clock now now' r with
  | Ok (s', Reply code _) => (s', code)
  | Err e => (s, (admin_error e).1)
  end.

(** ** The command line *)

(** The account of [ADMIN_SIGNING_KEY]. *)
Definition admin_account (key_text : string) : result Signer := sk ← int_base16 (JStr key_text); from_sk sk.

(** [register --config --dkg-lead-time]: [file] is the parsed envelope. *)
Definition cli_register (s : store) (now : Z) (key_text : string) (file : json) (dkg_lead_time : Z)
  : result (store * bytes) :=
  admin ← admin_account key_text;
  config ← dec_config py_repr file;
  sig ← signer_sign_register float_repr admin config;
  admin_register_election s config sig (identity admin) now dkg_lead_time.

(** [cancel --election-id] *)
Definition cli_cancel (s : store) (now : Z) (key_text election_id : string) : result store :=
  admin ← admin_account key_text;
  eid ← bytes_fromhex (without_0x election_id);
  sig ← signer_sign admin "cancel" eid [];
  admin_cancel_election s now eid sig (identity admin).

End admin.

(** * Over the in-memory data layer *)

Section over_memory.
Context `{Crypto} `{EthAccount} `{Abi} (float_repr : Z → Z → string) (py_repr : json → string).

#[local] Instance memory : DataLayer InMemoryDataLayer := memory_layer float_repr.
#[local] Abbreviation admin_register := (admin_register_election (store := InMemoryDataLayer) float_repr).
#[local] Abbreviation admin_cancel := (admin_cancel_election (store := InMemoryDataLayer)).
#[local] Abbreviation admin_retry := (retry_tally (store := InMemoryDataLayer)).

(** Reading an election of a sound store succeeds. *)
Lemma get_election_stored m eid st : mem_ok m → _get m eid = Ok st →
  ∃ fk, get_election m eid = Ok (mkElectionRecord (st_config st) (st_cancelled st) fk (st_tally_stalled st)).
Proof.
  intros Hm Hg. unfold get_election, get_finalized_key. rewrite Hg, !bind_Ok.
  pose proof (ok_core _ _ (mem_stored _ Hm eid st (proj1 (get_Ok _ _ _) Hg))) as Hok.
  destruct (finalized_key_of_spec eid st Hok) as (o & -> & _). by exists o.
Qed.

Lemma get_election_missing m eid e : _get m eid = Err e → get_election m eid = Err e.
Proof. intros Hg. unfold get_election. by rewrite Hg. Qed.

Lemma get_Err m eid e : _get m eid = Err e → e = KeyError.
Proof. unfold _get. destruct (dict_get _ _); [done|]. by intros [= <-]. Qed.

(** Cancelling by cases. *)
Lemma admin_cancel_cases m now eid sig who : mem_ok m →
  admin_cancel m now eid sig who =
    st ← _get m eid;
    if negb (bool_decide (admin_key (st_config st) = who)) then Err WriteAuthorizationError
    else if negb (verify_request (admin_key (st_config st)) sig "cancel" eid []) then Err WriteAuthorizationError
    else if voting_start (st_config st) <=? now then Err ImmutabilityError
    else Ok (put m eid (set_cancelled st)).
Proof.
  intros Hm. unfold admin_cancel_election. cbn [dl_get_election dl_cancel_election memory memory_layer].
  destruct (_get m eid) as [st|e] eqn:Hg; [|by rewrite (get_election_missing _ _ _ Hg)].
  destruct (get_election_stored m eid st Hm Hg) as [fk ->]. rewrite !bind_Ok. cbn [rec_config].
  unfold cancel_election. rewrite Hg, bind_Ok. unfold raise_if.
  destruct (negb (bool_decide _)); [done|]. rewrite bind_Ok.
  destruct (negb (verify_request _ _ _ _ _)); [done|]. rewrite bind_Ok.
  by destruct (_ <=? _).
Qed.

Lemma admin_retry_cases m now now' eid sig who t m' : mem_ok m →
  admin_retry m now now' eid sig who t = Ok m' ↔
    (∃ st, _get m eid = Ok st ∧ admin_key (st_config st) = who)
    ∧ set_tally_stalled m now now' eid false sig t = Ok m'.
Proof.
  intros Hm. unfold retry_tally. cbn [dl_get_election dl_set_tally_stalled memory memory_layer].
  destruct (_get m eid) as [st|e] eqn:Hg; last first.
  { rewrite (get_election_missing _ _ _ Hg). split; [done|]. by intros ((st & Hst & _) & _). }
  destruct (get_election_stored m eid st Hm Hg) as [fk ->]. rewrite !bind_Ok. cbn [rec_config].
  case_bool_decide as Hk; cbn [negb raise_if]; last first.
  { rewrite bind_Err. split; [done|]. intros ((st' & Hst & Hk') & _). congruence. }
  rewrite bind_Ok. split.
  - intros Hr. apply bind_Ok_inv in Hr as (p & Hp & Hr). apply bind_Ok_inv in Hr as (? & _ & Hr).
    split; [by exists st|done].
  - intros [_ Hs]. rewrite <- Hs at 1. unfold set_tally_stalled in Hs. rewrite Hg, bind_Ok in Hs. cbn iota in Hs.
    do 2 (apply bind_Ok_inv in Hs as (? & _ & Hs)). apply bind_Ok_inv in Hs as (p & Hp & Hs).
    apply bind_Ok_inv in Hs as ([] & Hv%raise_if_Ok & _). by rewrite Hp, bind_Ok, Hv.
Qed.

(** The administrator's service grants exactly what the data layer grants
    to its own administrator: a registration, a cancellation or a tally retry
    goes through, with the same new store, if and only if the election names
    the service's identity as its administrator and the data layer accepts the
    relayed signature; a registration must also leave the lead time. *)
Theorem admin_adds_identity m who sig : reachable float_repr m →
  (∀ c now lead r, admin_register m c sig who now lead = Ok r ↔
     admin_key c = who ∧ lead <= voting_start c - now ∧ register_election float_repr m c sig = Ok r)
  ∧ (∀ now eid m', admin_cancel m now eid sig who = Ok m' ↔
     (∃ st, _get m eid = Ok st ∧ admin_key (st_config st) = who) ∧ cancel_election m now eid sig = Ok m')
  ∧ (∀ now now' eid t m', admin_retry m now now' eid sig who t = Ok m' ↔
     (∃ st, _get m eid = Ok st ∧ admin_key (st_config st) = who)
     ∧ set_tally_stalled m now now' eid false sig t = Ok m').
Proof.
  intros Hm%reachable_ok. split_and!.
  - intros c now lead r. unfold admin_register_election, register_election.
    cbn [dl_register_election memory memory_layer]. unfold register_election, raise_if.
    case_bool_decide as Hk; cbn [negb]; [|split; [done|by intros [? _]]]. rewrite bind_Ok.
    destruct (negb (verify_register _ _ _ _)); [split; [done|by intros (_ & _ & ?)]|]. rewrite !bind_Ok.
    destruct (Z.ltb_spec (voting_start c - now) lead); [split; [done|lia]|]. rewrite bind_Ok. naive_solver lia.
  - intros now eid m'. rewrite admin_cancel_cases by done. unfold cancel_election, raise_if.
    destruct (_get m eid) as [st|e]; [|cbn; split; [done|by intros [_ ?]]]. rewrite !bind_Ok.
    case_bool_decide as Hk; cbn [negb]; [|split; [done|by intros [(st' & <-%Ok_inj & ?) _]]].
    destruct (negb (verify_request _ _ _ _ _)), (_ <=? _); cbn; naive_solver.
  - intros. by apply admin_retry_cases.
Qed.

Lemma get_item1 k v : getitem (JObj [(k, v)]) k = Ok v.
Proof. cbn. by rewrite decide_True. Qed.

#[local] Abbreviation serve := (admin_serve (store := InMemoryDataLayer) float_repr py_repr).

(** The answers of the cancel route, case by case: 404 for an unknown
    election, 401 for an election of another administrator or a signature that
    is not the administrator's, 409 once voting has started, and otherwise 204
    with the election marked cancelled; in every other case the store is
    untouched. *)
Theorem cancel_route_statuses m who clock now now' eid sig : reachable float_repr m →
  serve m who clock now now' (AdminCancel (hex eid) (JObj [("signature", enc_bytes sig)])) =
    match dict_get (_elections m) eid with
    | None => (m, 404)
    | Some st =>
        if negb (bool_decide (admin_key (st_config st) = who)) then (m, 401)
        else if negb (verify_request who sig "cancel" eid []) then (m, 401)
        else if voting_start (st_config st) <=? now then (m, 409)
        else (put m eid (set_cancelled st), 204)
    end.
Proof.
  intros Hm%reachable_ok. unfold admin_serve. cbn [admin_handle].
  assert (Hb : body_bytes (JObj [("signature", enc_bytes sig)]) "signature" = Ok sig)
    by (unfold body_bytes; rewrite get_item1, bind_Ok; by apply dec_enc_bytes).
  rewrite Hb, bind_Ok, fromhex_hex_Ok, bind_Ok, admin_cancel_cases by done. unfold _get.
  destruct (dict_get (_elections m) eid) as [st|]; [rewrite bind_Ok|done].
  case_bool_decide as Hk; cbn [negb]; [rewrite Hk|done].
  destruct (negb (verify_request _ _ _ _ _)); [done|]. by destruct (_ <=? _).
Qed.

Lemma get_put m eid st : _get (put m eid st) eid = Ok st.
Proof. apply get_Ok. cbn. by rewrite dict_get_set, decide_True. Qed.

(** ** The command line *)

Context `{!EthAccountLaws}.

Lemma account_signs key_text admin : admin_account key_text = Ok admin →
  (∀ c sig, signer_sign_register float_repr admin c = Ok sig →
     verify_register float_repr (identity admin) sig c = true)
  ∧ (∀ op eid p sig, signer_sign admin op eid p = Ok sig → verify_request (identity admin) sig op eid p = true).
Proof.
  unfold admin_account. intros Ha. apply bind_Ok_inv in Ha as (sk & _ & Ha).
  destruct (from_sk_key _ _ Ha) as [Hp Hk]. unfold signer_sign_register, signer_sign. rewrite Hp. split.
  - intros c sig Hs. rewrite (sign_register_verifies float_repr sk c sig _ Hk Hs). by apply bool_decide_eq_true.
  - intros op eid p sig Hs. rewrite (sign_request_verifies sk op eid p sig _ Hk Hs). by apply bool_decide_eq_true.
Qed.

Lemma cli_registers m now lead key_text admin c sig : mem_ok m → admin_account key_text = Ok admin →
  valid_config c → admin_key c = identity admin → election_id c = be_bytes 32 (_next_id m + 1) →
  _next_id m + 1 < 256 ^ 32 → lead <= voting_start c - now →
  signer_sign_register float_repr admin c = Ok sig →
  ∃ m1, cli_register float_repr py_repr m now key_text (enc_config c) lead = Ok (m1, election_id c)
    ∧ step float_repr m m1 ∧ _get m1 (election_id c) = Ok (new_stored c).
Proof.
  intros Hm Ha Hc Hk Hid Hlt Hlead Hsig. pose proof (mem_next _ Hm) as Hnext.
  pose proof (proj1 (account_signs _ _ Ha) _ _ Hsig) as Hv.
  set (m1 := mkMemory (dict_set (_elections m) (election_id c) (new_stored c)) (_next_id m + 1)
               (_used_request_nonces m)).
  assert (Hreg : register_election float_repr m c sig = Ok (m1, election_id c)).
  { unfold register_election. rewrite Hk, Hv. cbn [negb raise_if]. rewrite bind_Ok.
    rewrite (to_bytes_be_small (_next_id m + 1) 32), bind_Ok, <- Hid by (change (Z.of_nat 32) with 32; lia).
    rewrite bool_decide_eq_true_2, with_election_id_same by done. done. }
  exists m1. split_and!.
  - unfold cli_register. rewrite Ha, bind_Ok, dec_enc_config, bind_Ok, Hsig, bind_Ok;
      [|done|rewrite Hid; unfold len; by rewrite length_be_bytes].
    unfold admin_register_election. rewrite Hk, Hv, bool_decide_eq_true_2 by done. cbn [negb raise_if].
    rewrite !bind_Ok. by destruct (Z.ltb_spec (voting_start c - now) lead); [lia|].
  - by eapply step_register.
  - apply get_Ok. cbn. by rewrite dict_get_set, decide_True.
Qed.

Lemma cli_cancels m now key_text admin eid st sig : mem_ok m → admin_account key_text = Ok admin →
  _get m eid = Ok st → admin_key (st_config st) = identity admin → now < voting_start (st_config st) →
  signer_sign admin "cancel" eid [] = Ok sig →
  cli_cancel m now key_text ("0x" +:+ hex eid) = Ok (put m eid (set_cancelled st))
  ∧ step float_repr m (put m eid (set_cancelled st)).
Proof.
  intros Hm Ha Hg Hk Hlt Hsig. pose proof (proj2 (account_signs _ _ Ha) _ _ _ _ Hsig) as Hv. split.
  - unfold cli_cancel. rewrite Ha, bind_Ok, fromhex_0x, bind_Ok, Hsig, bind_Ok, admin_cancel_cases by done.
    rewrite Hg, bind_Ok, Hk, bool_decide_eq_true_2, Hv by done.
    by destruct (Z.leb_spec (voting_start (st_config st)) now); [lia|].
  - eapply (step_cancel float_repr m now eid sig). unfold cancel_election. rewrite Hg, bind_Ok, Hk, Hv.
    by destruct (Z.leb_spec (voting_start (st_config st)) now); [lia|].
Qed.

Lemma cancelled_stays m m' eid st : mem_ok m → _get m eid = Ok st → st_cancelled st = true →
  rtc (step float_repr) m m' → ∃ rec, get_election m' eid = Ok rec ∧ rec_config rec = st_config st
    ∧ ∀ res t, derive_state (st_config st) (state_facts rec res) t = CANCELLED.
Proof.
  intros Hm Hg%get_Ok Hx Hs. destruct (steps_extend float_repr m m' eid st Hm Hs Hg) as (st' & Hg' & He).
  destruct (get_election_stored m' eid st') as [fk Hfk]; [by eapply steps_ok|by apply get_Ok|].
  eexists. split; [exact Hfk|]. cbn [rec_config]. rewrite (ext_config _ _ He). split; [done|].
  intros res t. unfold derive_state, state_facts. cbn. by rewrite (ext_cancelled _ _ He Hx).
Qed.

(** From the command line to the end of the election's life: an election
    registered with its administrator's key under the next free id, with the
    lead time left, is registered as written; whatever writes follow, the same
    administrator cancels it before voting starts; and whatever follows that, it
    is read back with its own configuration in state [CANCELLED] at every time. *)
Theorem cli_register_then_cancel m now lead key_text admin c sig csig : reachable float_repr m →
  admin_account key_text = Ok admin →
  valid_config c → admin_key c = identity admin → election_id c = be_bytes 32 (_next_id m + 1) →
  _next_id m + 1 < 256 ^ 32 → lead <= voting_start c - now →
  signer_sign_register float_repr admin c = Ok sig → signer_sign admin "cancel" (election_id c) [] = Ok csig →
  ∃ m1, cli_register float_repr py_repr m now key_text (enc_config c) lead = Ok (m1, election_id c)
  ∧ ∀ m2 now2, rtc (step float_repr) m1 m2 → now2 < voting_start c →
    ∃ m3, cli_cancel m2 now2 key_text ("0x" +:+ hex (election_id c)) = Ok m3
    ∧ ∀ m4, rtc (step float_repr) m3 m4 →
      ∃ rec, get_election m4 (election_id c) = Ok rec ∧ rec_config rec = c
      ∧ ∀ res t, derive_state c (state_facts rec res) t = CANCELLED.
Proof.
  intros Hr Ha Hc Hk Hid Hlt Hlead Hsig Hcsig. pose proof (reachable_ok _ _ Hr) as Hm.
  destruct (cli_registers m now lead key_text admin c sig) as (m1 & Hreg & Hs1 & Hg1); [done..|].
  exists m1. split; [exact Hreg|]. intros m2 now2 Hs2 Hlt2.
  assert (Hm1 : mem_ok m1) by (eapply steps_ok; [exact Hm|by apply rtc_once]).
  assert (Hm2 : mem_ok m2) by by eapply steps_ok.
  destruct (steps_extend float_repr m1 m2 _ _ Hm1 Hs2 (proj1 (get_Ok _ _ _) Hg1)) as (st2 & Hg2%get_Ok & He2).
  assert (Hc2 : st_config st2 = c) by by rewrite (ext_config _ _ He2).
  destruct (cli_cancels m2 now2 key_text admin (election_id c) st2 csig) as [Hcan Hs3];
    [done|done|done|by rewrite Hc2|by rewrite Hc2|done|].
  eexists. split; [exact Hcan|]. intros m4 Hs4.
  destruct (cancelled_stays (put m2 (election_id c) (set_cancelled st2)) m4 (election_id c) (set_cancelled st2))
    as (rec & Hrec); [eapply steps_ok; [exact Hm2|by apply rtc_once]|by apply get_put|done|done|].
  cbn in Hrec. rewrite Hc2 in Hrec. by exists rec.
Qed.

End over_memory.

(** A request whose body lacks its signature is answered like one for an
    unknown election. *)
Lemma missing_signature_not_found {store} `{DataLayer store} `{EthAccount} `{Crypto} float_repr py_repr s who
    clock now now' eid :
  admin_serve float_repr py_repr s who clock now now' (AdminCancel eid (JObj [])) = (s, 404).
Proof. done. Qed.

(** * A run *)

Module admin_example.
Import prefix_abi naming_account memory_example.
#[local] Existing Instance concrete_crypto.
#[local] Instance layer : DataLayer InMemoryDataLayer := memory_layer float_text.

Definition repr_text (_ : json) : string := "".

Lemma admin_adds_identity_witness :
  let c := concrete_crypto in
  admin_register_election float_text new_memory cfg reg_sig (addr 7) 10 50 = Ok (registered, eid)
  ∧ ∃ e, admin_register_election float_text new_memory cfg reg_sig (addr 7) 51 50 = Err e.
Proof.
  intros c. pose proof (admin_adds_identity float_text new_memory (addr 7) reg_sig (rtc_refl _ _)) as (Hr & _ & _).
  split.
  - apply Hr. split_and!; [reflexivity|vm_compute; discriminate|exact registers].
  - destruct (admin_register_election float_text new_memory cfg reg_sig (addr 7) 51 50) as [r|e] eqn:E; [|by exists e].
    apply Hr in E as (_ & Hlead & _). vm_compute in Hlead. by destruct Hlead.
Defined.

Lemma cancel_route_statuses_witness :
  let c := concrete_crypto in
  (admin_serve float_text repr_text registered (addr 7) 10 20 20
     (AdminCancel (hex eid) (JObj [("signature", enc_bytes reg_sig)]))).2 = 401.
Proof.
  intros c. transitivity (snd (registered, 401)); [|reflexivity].
  etransitivity; [apply (f_equal snd), (cancel_route_statuses float_text repr_text registered (addr 7) 10 20 20 eid
    reg_sig registered_reachable)|vm_compute; reflexivity].
Defined.

Definition account7 : Signer := mkSigner (be_bytes 32 7).
Definition cancel_sig : bytes := Eval vm_compute in get_ok [] (signer_sign account7 "cancel" eid []).

Lemma cli_register_then_cancel_witness :
  let c := concrete_crypto in
  ∃ m1, cli_register float_text repr_text new_memory 10 "0x7" (enc_config cfg) 50 = Ok (m1, eid)
  ∧ ∃ m3, cli_cancel m1 99 "0x7" ("0x" +:+ hex eid) = Ok m3.
Proof.
  intros c.
  destruct (cli_register_then_cancel float_text repr_text new_memory 10 50 "0x7" account7 cfg reg_sig cancel_sig)
    as (m1 & Hr & Hc).
  1: apply rtc_refl.
  2: exact example_cfg_valid.
  1-7: vm_compute; try reflexivity; discriminate.
  exists m1. split; [exact Hr|]. destruct (Hc m1 99 (rtc_refl _ _)) as (m3 & Hm3 & _); [reflexivity|].
  exists m3. exact Hm3.
Defined.
End admin_example.
