(* ===== verification/Api.v ===== *)
(** The public API (services/api/api.py): election ids in URLs and replies, the
    read routes with their pages, and the ballot ingest route, over any data
    layer.  Request bodies are parsed JSON; headers are not modelled. *)

From Stdlib Require Import Ascii.
From S2P Require Import Prelude Params Primality Field Points Transcript Types Config Schnorr Ballot Admission Codecs WriteAuth Quorum DataLayer DataLayerSafety Port Postgres Jsonb Aggregation Gateway PostgresRefines Bootstrap Http KeyperServer KeyperSafety HttpPort Admin Json.

(** * Election ids *)

(** [s.isdigit()], on ASCII. *)
Definition isdigit (s : string) : bool := negb (String.eqb s "") && all_digits s.

(** [seg[:2].lower() == "0x"] *)
Definition has_0x (seg : string) : bool :=
  match seg with
  | String a (String b _) => Ascii.eqb a "0" && (Ascii.eqb b "x" || Ascii.eqb b "X")
  | _ => false
  end.

(** [seg[2:]] *)
Definition skip2 (seg : string) : string := match seg with String _ (String _ s) => s | _ => "" end.

Definition _parse_eid (seg : string) : result bytes :=
  let hex_part := if has_0x seg then skip2 seg else seg in
  if len (code_points hex_part) =? 64 then bytes_fromhex hex_part else
  if negb (has_0x seg) && isdigit seg then
    n ← py_int_of_str seg;
    _ ← raise_if (negb (Z.shiftr n 256 =? 0)) ValueError;
    to_bytes_be n 32
  else Err ValueError.

Definition _eid_num (election_id : bytes) : Z := from_bytes_be election_id.

(** Ids are written by [enc_bytes], so [int(v, 16)] reads [0x] and digits. *)
Fixpoint _decimalize_election_ids (obj : json) : result json :=
  match obj with
  | JObj o =>
      o' ← mapM (λ '(k, v),
             x ← match v with
                 | JStr s => if String.eqb k "electionId" then n ← int_base16 (JStr s); Ok (JInt n) else Ok v
                 | _ => _decimalize_election_ids v
                 end;
             Ok (k, x)) o;
      Ok (JObj o')
  | JArr l => l' ← mapM _decimalize_election_ids l; Ok (JArr l')
  | _ => Ok obj
  end.

(** * Routes *)

Definition _DEFAULT_LIMIT : Z := 50.
Definition _MAX_LIMIT : Z := 200.

Definition _REJECTION_HELP : list (string * string) :=
  [("voting is not open", "Voting is not open for this election right now.");
   ("no finalized key", "The election key is not ready yet — the committee is still finalizing it.");
   ("OUT_OF_WINDOW", "Voting is not open for this election right now.");
   ("INVALID_PROOF", "The ballot's validity (range) proof did not check out.");
   ("INVALID_SIGNATURE", "The ballot's voter signature did not verify.");
   ("INVALID_ATTESTATION", "Your eligibility credential could not be verified for this election.");
   ("DUPLICATE_PSEUDONYM", "A ballot from this voter has already been recorded.");
   ("STALE_OR_REPLAYED", "This ballot is stale — a newer vote from you is already recorded. Re-vote to change it.");
   ("MALFORMED", "The ballot was malformed.")].

(** A GET route with the query parameters it reads; the routes under [/port] are
    the data layer's own. *)
Inductive api_request :=
| ApiHealth
| ApiElections (admin offset limit : option string)
| ApiElection (eid : string)
| ApiDkg (eid : string)
| ApiFinalized (eid : string)
| ApiBallots (eid : string) (offset limit : option string)
| ApiBallotCount (eid : string)
| ApiAggregate (eid : string)
| ApiShares (eid : string)
| ApiResult (eid : string)
| ApiCapability
| ApiPort (r : request).

Definition _int_arg (raw : option string) (dflt : Z) : result Z :=
  match raw with
  | None => Ok dflt
  | Some s => if String.eqb s "" then Ok dflt else py_int_of_str s
  end.

(** The page a request asks for: [offset] and [limit]. *)
Definition page_args (offset limit : option string) : result (Z * Z) :=
  o ← _int_arg offset 0;
  l ← _int_arg limit _DEFAULT_LIMIT;
  Ok (Z.max 0 o, Z.min _MAX_LIMIT (Z.max 1 l)).

(** The status of an exception. *)
Definition api_error (e : exn) : Z :=
  match e with
  | KeyError => 404
  | QuorumConflictError => 409
  | _ => if is_value_error e then 400 else 500
  end.

Section api.
Context `{Crypto} `{EthAccount} `{Abi} (float_repr : Z → Z → string).
Context {store : Type} `{DataLayer store}.
(** The size of a body's text, [str] of an exception, and the store the
    deployment reports. *)
Context (content_length : json → Z) (exn_text : exn → string) (data_store : string).

Definition api_elections (s : store) (admin offset limit : option string) : result json :=
  filt ← match admin with
         | Some a => if String.eqb a "" then Ok None
                     else b ← bytes_fromhex (without_0x a); Ok (Some (mkElectionFilter (Some b)))
         | None => Ok None
         end;
  ids ← dl_list_elections s filt;
  '(offset, limit) ← page_args offset limit;
  let page := py_slice ids offset (offset + limit) in
  Ok (JObj [("electionIds", JArr ((λ e, JInt (_eid_num e)) <$> page)); ("total", JInt (len ids));
            ("limit", JInt limit); ("offset", JInt offset)]).

Definition api_ballots (s : store) (eid : string) (offset limit : option string) : result json :=
  e ← _parse_eid eid;
  total ← dl_count_ballots s e;
  '(offset, limit) ← page_args offset limit;
  ballots ← dl_list_ballots s e offset limit;
  _decimalize_election_ids
    (JObj [("ballots", JArr ((λ sb, enc_ballot (envelope sb)) <$> ballots)); ("total", JInt total);
           ("limit", JInt limit); ("offset", JInt offset)]).

Definition api_get (s : store) (r : api_request) : result json :=
  match r with
  | ApiHealth => Ok (JObj [("ok", JBool true)])
  | ApiElections admin offset limit => api_elections s admin offset limit
  | ApiElection eid =>
      e ← _parse_eid eid;
      rec ← dl_get_election s e;
      _decimalize_election_ids
        (JObj [("electionId", JInt (_eid_num e)); ("config", enc_config (rec_config rec));
               ("cancelled", JBool (rec_cancelled rec)); ("tallyStalled", JBool (rec_tally_stalled rec));
               ("finalizedKey", _finalized_key_json (rec_finalized_key rec))])
  | ApiDkg eid =>
      e ← _parse_eid eid;
      subs ← dl_get_dkg_submissions s e;
      _decimalize_election_ids (JObj [("submissions", JArr (enc_dkg_result <$> subs))])
  | ApiFinalized eid =>
      e ← _parse_eid eid;
      fk ← dl_get_finalized_key s e;
      Ok (JObj [("finalizedKey", _finalized_key_json fk)])
  | ApiBallots eid offset limit => api_ballots s eid offset limit
  | ApiBallotCount eid =>
      e ← _parse_eid eid; n ← dl_count_ballots s e; Ok (JObj [("count", JInt n)])
  | ApiAggregate eid =>
      e ← _parse_eid eid; agg ← dl_get_aggregate s e;
      _decimalize_election_ids (JObj [("aggregate", json_opt enc_aggregate agg)])
  | ApiShares eid =>
      e ← _parse_eid eid; shares ← dl_list_decryption_shares s e;
      _decimalize_election_ids (JObj [("shares", JArr (enc_decryption_share <$> shares))])
  | ApiResult eid =>
      e ← _parse_eid eid; res ← dl_get_result s e;
      _decimalize_election_ids (JObj [("result", json_opt enc_result res)])
  | ApiCapability => Ok (JObj [("verifiabilityTier", JInt (dl_verifiability_tier s)); ("dataStore", JStr data_store)])
  | ApiPort r => handle_get s r
  end.

(** The reply to a GET: the error handlers of the app, or of the mounted port. *)
Definition api_get_status (s : store) (r : api_request) : Z :=
  match api_get s r with
  | Ok _ => 200
  | Err e => match r with ApiPort _ => read_status e | _ => api_error e end
  end.

Definition refused (code : Z) (error message : string) (more : list (string * json)) : result reply :=
  Ok (Reply code (JObj (("error", JStr error) :: ("message", JStr message) :: more))).

(** [POST /elections/<eid>/ballots]; [now] is the service's clock, [now'] the
    data layer's.  An [Err] is left to the error handlers of the app. *)
Definition submit_ballot_route (s : store) (now now' : Z) (filter_on : bool) (gateway_signer : option Signer)
    (eid : string) (body : json) : store * result reply :=
  match _parse_eid eid with
  | Err e => (s, Err e)
  | Ok election_id =>
      if MAX_CONTENT_LENGTH <? content_length body
      then (s, refused 413 "PAYLOAD_TOO_LARGE" "That request body is too large." []) else
      match (v ← getitem body "ballot"; dec_ballot v) with
      | Err exc => (s, refused 400 "MALFORMED" "The ballot could not be read — it's malformed or missing fields."
                         [("detail", JStr (exn_text exc))])
      | Ok ballot =>
          match gateway_submit_ballot float_repr s now now' election_id ballot filter_on gateway_signer with
          | Ok (s', seq) => (s', Ok (Reply 200 (JObj [("sequenceNumber", JInt seq)])))
          | Err (GatewayRejection reason) =>
              (s, refused 400 "REJECTED" (default "This ballot was rejected." (dict_get _REJECTION_HELP reason))
                    [("reason", JStr reason)])
          | Err VotingWindowError =>
              (s, refused 400 "OUTSIDE_VOTING_WINDOW" "Voting is not open for this election right now."
                    [("detail", JStr (exn_text VotingWindowError))])
          | Err KeyError => (s, refused 404 "UNKNOWN_ELECTION" "No election found with that id." [])
          | Err e => (s, Err e)
          end
      end
  end.

Definition route_status (r : result reply) : Z :=
  match r with Ok (Reply code _) => code | Err e => api_error e end.

End api.

(** * Ids in URLs *)

(** ASCII text is one code point per character. *)
Lemma code_points_ascii s : ascii_text s = true → len (code_points s) = Z.of_nat (String.length s).
Proof.
  unfold len. induction s as [|c s IH]; [done|]. cbn [ascii_text]. intros [Hc Hs]%andb_true_iff.
  apply Z.ltb_lt in Hc. cbn [code_points String.length]. rewrite (proj2 (Z.ltb_lt (code c) 192)) by lia.
  cbn [length]. specialize (IH Hs). lia.
Qed.

Lemma all_digits_no_0x s : all_digits s = true → has_0x s = false.
Proof.
  destruct s as [|a [|b s]]; [done..|]. cbn. intros [_ [[d Hd]%bool_decide_eq_true _]%andb_true_iff]%andb_true_iff.
  apply digit_code in Hd. unfold code in Hd.
  destruct (Ascii.eqb_spec b "x") as [->|_]; [cbn in Hd; lia|].
  destruct (Ascii.eqb_spec b "X") as [->|_]; [cbn in Hd; lia|]. by rewrite andb_false_r.
Qed.

Lemma hex_ascii b : ascii_text (hex b) = true ∧ String.length (hex b) = (2 * length b)%nat.
Proof.
  induction b as [|x b [IH1 IH2]]; [done|]. cbn [hex ascii_text String.length length]. rewrite IH1, IH2. split; [|lia].
  assert (Hc : ∀ n, 0 <= n < 16 → (code (hex_char n) <? 128) = true).
  { intros n Hn. pose proof (proj1 (hex_char_value n Hn)) as Hv. unfold hex_value in Hv. unfold code.
    apply Z.ltb_lt. set (c := Z.of_N _) in *. destruct (_ && _) eqn:E1; [lia|].
    destruct ((97 <=? c) && (c <=? 102)) eqn:E2; [lia|]. destruct ((65 <=? c) && (c <=? 70)) eqn:E3; [lia|done]. }
  pose proof (byte_val_range x).
  rewrite !Hc; [done|apply Z.mod_pos_bound; lia|split; [apply Z.div_pos; lia|apply Z.div_lt_upper_bound; lia]].
Qed.

Lemma hex_no_0x b : has_0x (hex b) = false.
Proof.
  destruct b as [|x b]; [done|]. cbn [hex has_0x].
  assert (Hm : 0 <= byte_val x mod 16 < 16) by (apply Z.mod_pos_bound; lia).
  pose proof (proj1 (hex_char_value _ Hm)) as Hv.
  destruct (Ascii.eqb_spec (hex_char (byte_val x mod 16)) "x") as [E|_]; [by rewrite E in Hv|].
  destruct (Ascii.eqb_spec (hex_char (byte_val x mod 16)) "X") as [E|_]; [by rewrite E in Hv|].
  by rewrite andb_false_r.
Qed.

Lemma parse_eid_hex b : len b = 32 → _parse_eid (hex b) = Ok b ∧ _parse_eid ("0x" +:+ hex b) = Ok b.
Proof.
  intros Hb. destruct (hex_ascii b) as [Ha Hl]. unfold len in Hb.
  assert (Hc : (len (code_points (hex b)) =? 64) = true) by (apply Z.eqb_eq; rewrite code_points_ascii by done; lia).
  unfold _parse_eid. rewrite hex_no_0x, Hc, fromhex_hex_Ok. split; [done|].
  change (has_0x ("0x" +:+ hex b)) with true. change (skip2 ("0x" +:+ hex b)) with (hex b). cbn iota.
  by rewrite Hc, fromhex_hex_Ok.
Qed.

Lemma parse_eid_decimal n : 0 <= n < 2 ^ 256 → String.length (pretty n) ≠ 64%nat →
  _parse_eid (pretty n) = Ok (be_bytes 32 n).
Proof.
  intros Hn Hl. pose proof (pretty_digits n ltac:(lia)) as Hd. unfold _parse_eid.
  rewrite (all_digits_no_0x _ Hd), code_points_ascii by by apply ascii_digits.
  destruct (Z.eqb_spec (Z.of_nat (String.length (pretty n))) 64); [lia|]. unfold isdigit. rewrite Hd.
  destruct (py_int_pretty n ltac:(lia)) as [Hp Hne]. rewrite (proj2 (String.eqb_neq _ _)) by done. cbn [negb andb].
  rewrite Hp, bind_Ok. rewrite Z.shiftr_div_pow2, Z.div_small by lia. cbn [Z.eqb negb raise_if].
  rewrite bind_Ok. apply to_bytes_be_small. change (256 ^ Z.of_nat 32) with (2 ^ 256). lia.
Qed.

(** No white space that [bytes.fromhex] skips. *)
Fixpoint no_hex_space (s : string) : bool :=
  match s with EmptyString => true | String c s => negb (is_hex_space c) && no_hex_space s end.

Lemma hex_value_ascii c v : hex_value c = Some v → (code c <? 128) = true.
Proof.
  unfold hex_value, code. set (n := Z.of_N _). intros Hv. apply Z.ltb_lt.
  destruct ((48 <=? n) && (n <=? 57)) eqn:E1; [lia|].
  destruct ((97 <=? n) && (n <=? 102)) eqn:E2; [lia|]. destruct ((65 <=? n) && (n <=? 70)) eqn:E3; [lia|done].
Qed.

Lemma fromhex_length b : ∀ s, no_hex_space s = true → fromhex s = Some b →
  ascii_text s = true ∧ String.length s = (2 * length b)%nat.
Proof.
  induction b as [|x b IH]; intros s Hn Hf; (destruct s as [|c s]; [done || by split|]);
    cbn [no_hex_space] in Hn; apply andb_true_iff in Hn as [Hc%negb_true_iff Hn]; cbn [fromhex] in Hf;
    rewrite Hc in Hf; destruct (hex_value c) as [hi|] eqn:Ehi; try done; destruct s as [|c' s]; try done;
    destruct (hex_value c') as [lo|] eqn:Elo; try done; apply bind_Some in Hf as (b' & Hf & [= <- <-]).
  cbn [no_hex_space] in Hn. apply andb_true_iff in Hn as [_ Hn]. destruct (IH s Hn Hf) as [Ha Hl].
  cbn [ascii_text String.length length]. rewrite (hex_value_ascii _ _ Ehi), (hex_value_ascii _ _ Elo), Ha. split; [done|lia].
Qed.

Lemma no_hex_space_skip2 s : no_hex_space s = true → no_hex_space (skip2 s) = true.
Proof. destruct s as [|a [|b s]]; try done. cbn. by intros [_ [_ ?]%andb_true_iff]%andb_true_iff. Qed.

Lemma parse_eid_size seg b : no_hex_space seg = true → _parse_eid seg = Ok b → len b = 32.
Proof.
  unfold _parse_eid. intros Hs. destruct (Z.eqb_spec (len (code_points (if has_0x seg then skip2 seg else seg))) 64) as [Hl|_].
  - unfold bytes_fromhex. destruct (fromhex _) as [b'|] eqn:Hf; [|done]. intros <-%Ok_inj.
    apply fromhex_length in Hf as [Ha Hlen]; [|destruct (has_0x seg); [by apply no_hex_space_skip2|done]].
    rewrite code_points_ascii in Hl by done. unfold len. lia.
  - destruct (_ && _); [|done]. intros Hb. apply bind_Ok_inv in Hb as (n & _ & Hb).
    apply bind_Ok_inv in Hb as (? & _ & Hb). apply to_bytes_be_length in Hb. unfold len. by rewrite Hb.
Qed.

(** The election ids of URLs: every 32-byte id is read back from its bare
    and its [0x] hexadecimal form, and from its decimal form unless that is 64
    digits long; and what is accepted without white space is always a 32-byte
    id. *)
Theorem eid_segments :
  (∀ b, len b = 32 → _parse_eid (hex b) = Ok b ∧ _parse_eid ("0x" +:+ hex b) = Ok b
     ∧ (String.length (pretty (_eid_num b)) ≠ 64%nat → _parse_eid (pretty (_eid_num b)) = Ok b))
  ∧ (∀ seg b, no_hex_space seg = true → _parse_eid seg = Ok b → len b = 32).
Proof.
  split; [|apply parse_eid_size]. intros b Hb. destruct (parse_eid_hex b Hb) as [H1 H2]. split_and!; [done|done|].
  intros Hl. assert (Hlen : length b = 32%nat) by (unfold len in Hb; lia).
  pose proof (from_bytes_range b) as Hr. rewrite Hb in Hr. change (256 ^ 32) with (2 ^ 256) in Hr.
  rewrite parse_eid_decimal by done. f_equal. unfold _eid_num. rewrite <- Hlen. apply be_bytes_from.
Qed.

(** Sixty-four characters may name fewer bytes, and a decimal id of 64 digits is
    read as hexadecimal. *)
Lemma spaced_segment : ∃ seg b, String.length seg = 64%nat ∧ _parse_eid seg = Ok b ∧ len b = 31.
Proof. exists ("  " +:+ hex (be_bytes 31 1)). eexists. split_and!; vm_compute; reflexivity. Qed.
Lemma long_decimal_is_hex : ∃ n, 0 <= n < 2 ^ 256 ∧ ∃ b, _parse_eid (pretty n) = Ok b ∧ _eid_num b ≠ n.
Proof.
  exists (10 ^ 63). split; [split; vm_compute; [discriminate|reflexivity]|]. eexists.
  split; [vm_compute; reflexivity|]. vm_compute. discriminate.
Qed.

(** * Ids in replies *)

Lemma parse_hex_bytes b acc : parse_hex acc (hex b) = Some (foldl (λ a x, a * 256 + byte_val x) acc b).
Proof.
  revert acc. induction b as [|x b IH]; intros acc; [done|]. cbn [hex parse_hex foldl].
  pose proof (byte_val_range x).
  rewrite (proj1 (hex_char_value (byte_val x / 16)
    ltac:(split; [apply Z.div_pos; lia|apply Z.div_lt_upper_bound; lia]))).
  rewrite (proj1 (hex_char_value (byte_val x mod 16) ltac:(apply Z.mod_pos_bound; lia))).
  rewrite IH. do 2 f_equal. rewrite (Z.div_mod (byte_val x) 16) at 3 by lia. lia.
Qed.

Lemma int_base16_bytes b : b ≠ [] → int_base16 (enc_bytes b) = Ok (from_bytes_be b).
Proof.
  intros Hb. unfold int_base16, enc_bytes. rewrite parse_hex_0x. unfold parse_hex_digits.
  change (without_0x ("0x" +:+ hex b)) with (hex b).
  pose proof (parse_hex_bytes b 0) as Hp. destruct (hex b) as [|c s] eqn:E; [by destruct b|]. by rewrite Hp.
Qed.

(** A client puts the canonical 32 bytes back. *)
Fixpoint restore_ids (v : json) : json :=
  match v with
  | JObj o =>
      JObj (map (λ '(k, v),
        (k, match v with
            | JInt n => if String.eqb k "electionId" then enc_bytes (be_bytes 32 n) else v
            | _ => restore_ids v
            end)) o)
  | JArr l => JArr (map restore_ids l)
  | _ => v
  end.

(** Every id of the value is 32 bytes in hexadecimal. *)
#[warnings="-register-all"]
Inductive ids32 : json → Prop :=
| ids32_null : ids32 JNull
| ids32_bool b : ids32 (JBool b)
| ids32_int n : ids32 (JInt n)
| ids32_str s : ids32 (JStr s)
| ids32_arr l : Forall ids32 l → ids32 (JArr l)
| ids32_obj o :
    Forall (λ e, ids32 e.2 ∧ (e.1 = "electionId" → ∃ b, e.2 = enc_bytes b ∧ len b = 32)) o → ids32 (JObj o).

Definition restore_entry (e : string * json) : string * json :=
  (e.1, match e.2 with
        | JInt n => if String.eqb e.1 "electionId" then enc_bytes (be_bytes 32 n) else e.2
        | v => restore_ids v
        end).
Lemma restore_obj o : restore_ids (JObj o) = JObj (map restore_entry o).
Proof. cbn [restore_ids]. f_equal. apply map_ext. by intros [k []]. Qed.

(** What the two functions do with one value. *)
Definition restorable (v : json) : Prop := ∃ v', _decimalize_election_ids v = Ok v' ∧ restore_ids v' = v.

Lemma restorable_arr l : Forall restorable l → restorable (JArr l).
Proof.
  intros Hl. assert (H : ∃ l', mapM _decimalize_election_ids l = Ok l' ∧ map restore_ids l' = l).
  { induction Hl as [|x l (x' & Ex & Rx) _ (l' & El & Rl)]; [by exists []|]. exists (x' :: l').
    change (mapM _decimalize_election_ids (x :: l)) with
      (y ← _decimalize_election_ids x; k ← mapM _decimalize_election_ids l; Ok (y :: k)).
    rewrite Ex, bind_Ok, El, bind_Ok. cbn [map]. by rewrite Rx, Rl. }
  destruct H as (l' & El & Rl). exists (JArr l'). cbn [_decimalize_election_ids restore_ids]. by rewrite El, Rl.
Qed.

Lemma restorable_obj o :
  Forall (λ e, restorable e.2 ∧ (e.1 = "electionId" → ∃ b, e.2 = enc_bytes b ∧ len b = 32)) o → restorable (JObj o).
Proof.
  intros Ho. unfold restorable. cbn [_decimalize_election_ids]. set (f := λ '(k, v), _).
  assert (Hf : ∀ k x, restorable x → (k = "electionId" → ∃ b, x = enc_bytes b ∧ len b = 32) →
    ∃ x', f (k, x) = Ok (k, x') ∧ restore_entry (k, x') = (k, x)).
  { intros k x (x' & Ex & Rx) Hk. destruct (String.eqb_spec k "electionId") as [->|Hne].
    - destruct (Hk eq_refl) as (b & -> & Hb). exists (JInt (from_bytes_be b)).
      change (f ("electionId", enc_bytes b)) with
        (y ← (n ← int_base16 (enc_bytes b); Ok (JInt n)); Ok ("electionId", y)).
      rewrite int_base16_bytes by (by intros ->). split; [done|]. unfold restore_entry. cbn [fst snd].
      rewrite String.eqb_refl. do 2 f_equal.
      assert (length b = 32%nat) as <- by (unfold len in Hb; lia). apply be_bytes_from.
    - exists x'. unfold restore_entry. cbn [fst snd]. rewrite (proj2 (String.eqb_neq _ _) Hne).
      split; [|rewrite <- Rx; by destruct x']. unfold f. rewrite (proj2 (String.eqb_neq _ _) Hne).
      destruct x; rewrite ?Ex; try done. by injection Ex as ->. }
  assert (H : ∃ o', mapM f o = Ok o' ∧ map restore_entry o' = o).
  { induction Ho as [|[k x] o [Hx Hk] _ (o' & Eo & Ro)]; [by exists []|].
    destruct (Hf k x Hx Hk) as (x' & Ef & Rf). exists ((k, x') :: o').
    change (mapM f ((k, x) :: o)) with (y ← f (k, x); r ← mapM f o; Ok (y :: r)).
    rewrite Ef, bind_Ok, Eo, bind_Ok. split; [done|]. cbn [map]. by rewrite Rf, Ro. }
  destruct H as (o' & Eo & Ro). exists (JObj o'). by rewrite Eo, restore_obj, Ro.
Qed.

Lemma ids32_restorable : ∀ v, ids32 v → restorable v.
Proof.
  fix IH 1. intros [| | |m e| |l|o] Hv; inversion Hv as [| | | |? Hl|? Ho]; subst; try (by eexists).
  - apply restorable_arr. clear Hv. induction l as [|x l IHl]; [constructor|].
    apply Forall_cons in Hl as [Hx Hl]. constructor; [by apply IH|by apply IHl].
  - apply restorable_obj. clear Hv. induction o as [|[k x] o IHo]; [constructor|].
    apply Forall_cons in Ho as [[Hx Hk] Ho]. constructor; [|by apply IHo]. split; [by apply IH|done].
Qed.

Lemma ids32_bytes b : ids32 (enc_bytes b).
Proof. constructor. Qed.
Lemma ids32_list {A} (enc : A → json) l : (∀ x, x ∈ l → ids32 (enc x)) → ids32 (JArr (enc <$> l)).
Proof. intros Hx. constructor. apply Forall_fmap, Forall_forall. exact Hx. Qed.

(** An object, field by field; nested values are left. *)
Ltac ids_field :=
  split; [first [apply ids32_bytes|apply ids32_int|apply ids32_str|apply ids32_bool|idtac]
         |first [by intros [=]|by intros _; eexists]].
Ltac ids_object := apply ids32_obj; repeat (apply Forall_cons_2; [cbn [fst snd]; ids_field|]); [..|apply Forall_nil_2].

Lemma ids32_ciphertext ct : ids32 (enc_ciphertext ct).
Proof. ids_object. Qed.
Lemma ids32_attestation a : attestation_wf a → ids32 (enc_attestation a).
Proof. intros (Hid & _). ids_object. Qed.
Lemma ids32_ballot b : ballot_wf b → ids32 (enc_ballot b).
Proof.
  intros (Hid & _ & _ & _ & _ & Ha). ids_object.
  - apply ids32_list. intros ct _. apply ids32_ciphertext.
  - by apply ids32_attestation.
Qed.
Lemma ids32_dkg_result s : dkg_result_wf s → ids32 (enc_dkg_result s).
Proof. intros (Hid & _). ids_object. apply ids32_list. intros p _. apply ids32_bytes. Qed.
Lemma ids32_share s : share_wf s → ids32 (enc_decryption_share s).
Proof. intros (Hid & _). ids_object. apply ids32_list. intros e _. ids_object. Qed.
Lemma ids32_aggregate a : aggregate_wf a → ids32 (enc_aggregate a).
Proof.
  intros (Hid & _). ids_object; apply ids32_list; intros x _; [apply ids32_ciphertext|apply ids32_int|ids_object].
Qed.
Lemma ids32_result r : result_wf r → ids32 (enc_result r).
Proof. intros (Hid & _). ids_object; apply ids32_list; intros x _; apply ids32_int. Qed.
Lemma ids32_config c : len (election_id c) = 32 → ids32 (enc_config c).
Proof.
  intros Hid. ids_object; [ids_object|apply ids32_list; intros k _; ids_object|apply ids32_list; intros k _].
  apply ids32_bytes.
Qed.

(** An artifact comes back from its display form. *)
Lemma display_roundtrip {A} (enc : A → json) (dec : json → result A) x : ids32 (enc x) → dec (enc x) = Ok x →
  ∃ j, _decimalize_election_ids (enc x) = Ok j ∧ dec (restore_ids j) = Ok x.
Proof. intros Hi Hd. destruct (ids32_restorable _ Hi) as (j & Hj & Hr). exists j. by rewrite Hr. Qed.

(** Rewriting election ids to decimal loses nothing: from the display form
    of a ballot, a DKG result, a decryption share, an aggregate, a result or a
    configuration a client that puts the 32-byte ids back decodes exactly the
    artifact the data layer holds. *)
Theorem decimal_ids_lossless (py_repr : json → string) :
  let displayed {A} (enc : A → json) (dec : json → result A) x :=
    ∃ j, _decimalize_election_ids (enc x) = Ok j ∧ dec (restore_ids j) = Ok x in
  (∀ b, ballot_wf b → displayed enc_ballot dec_ballot b)
  ∧ (∀ s, dkg_result_wf s → displayed enc_dkg_result dec_dkg_result s)
  ∧ (∀ s, share_wf s → displayed enc_decryption_share dec_decryption_share s)
  ∧ (∀ a, aggregate_wf a → displayed enc_aggregate dec_aggregate a)
  ∧ (∀ r, result_wf r → displayed enc_result dec_result r)
  ∧ (∀ c, valid_config c → len (election_id c) = 32 → displayed enc_config (dec_config py_repr) c).
Proof.
  cbn zeta. split_and!; intros; apply display_roundtrip.
  - by apply ids32_ballot.
  - by apply dec_enc_ballot.
  - by apply ids32_dkg_result.
  - by apply dec_enc_dkg_result.
  - by apply ids32_share.
  - by apply dec_enc_share.
  - by apply ids32_aggregate.
  - by apply dec_enc_aggregate.
  - by apply ids32_result.
  - by apply dec_enc_result.
  - by apply ids32_config.
  - by apply dec_enc_config.
Qed.

(** * Pages *)

Lemma pages_concat {A} (l : list A) (L n : nat) :
  concat (map (λ k, take L (drop (k * L) l)) (seq 0 n)) = take (n * L) l.
Proof.
  induction n as [|n IH]; [done|]. rewrite seq_S, map_app, concat_app, IH. cbn. rewrite app_nil_r.
  rewrite (Nat.add_comm L), <- take_take_drop. done.
Qed.

Lemma page_args_pretty o l : 0 <= o → 1 <= l <= _MAX_LIMIT →
  page_args (Some (pretty o)) (Some (pretty l)) = Ok (o, l).
Proof.
  intros Ho Hl. destruct (py_int_pretty o Ho) as [Ho1 Ho2]. destruct (py_int_pretty l ltac:(lia)) as [Hl1 Hl2].
  unfold page_args, _int_arg. rewrite (proj2 (String.eqb_neq _ _) Ho2), (proj2 (String.eqb_neq _ _) Hl2).
  rewrite Ho1, bind_Ok, Hl1, bind_Ok. do 2 f_equal; lia.
Qed.

(** Whatever is asked for, a page starts at a position and has 1 to 200 rows. *)
Lemma page_args_bounds offset limit o l : page_args offset limit = Ok (o, l) → 0 <= o ∧ 1 <= l <= _MAX_LIMIT.
Proof.
  unfold page_args. intros Hp. apply bind_Ok_inv in Hp as (o' & _ & Hp).
  apply bind_Ok_inv in Hp as (l' & _ & [= <- <-]). unfold _MAX_LIMIT. lia.
Qed.

(** The rows of a reply. *)
Definition page_items (key : string) (j : json) : list json :=
  match j with JObj o => match dict_get o key with Some (JArr l) => l | _ => [] end | _ => [] end.

Lemma restored_items key j xs o : key ≠ "electionId" → restore_ids j = JObj ((key, JArr xs) :: o) →
  map restore_ids (page_items key j) = xs.
Proof.
  intros Hk Hr. destruct j as [| | | | | |o']; try done. rewrite restore_obj in Hr.
  assert (Hm : map restore_entry o' = (key, JArr xs) :: o) by congruence. clear Hr. rename Hm into Hr.
  destruct o' as [|[k v] o']; [done|]. cbn [map] in Hr. assert (He : restore_entry (k, v) = (key, JArr xs)) by congruence. unfold restore_entry in He.
  cbn [fst snd] in He. apply pair_equal_spec in He as [-> Hv]. cbn [page_items dict_get]. rewrite decide_True by done.
  rewrite (proj2 (String.eqb_neq _ _) Hk) in Hv. destruct v; try done. cbn [restore_ids] in Hv. congruence.
Qed.

Lemma mapM_app_Ok {A B} (f : A → result B) l k l' k' : mapM f l = Ok l' → mapM f k = Ok k' →
  mapM f (l ++ k) = Ok (l' ++ k').
Proof. rewrite !mapM_Ok. apply Forall2_app. Qed.

Section pages.
Context {store : Type} `{DataLayer store}.

(** One page of ballots, as the client decodes it. *)
Lemma api_ballots_page s seg e l offset limit o n : _parse_eid seg = Ok e → serves s e l →
  page_args offset limit = Ok (o, n) →
  Forall (λ sb, ballot_wf (envelope sb)) (take (Z.to_nat n) (drop (Z.to_nat o) l)) →
  ∃ j, api_ballots s seg offset limit = Ok j
    ∧ mapM dec_ballot (map restore_ids (page_items "ballots" j))
      = Ok (envelope <$> take (Z.to_nat n) (drop (Z.to_nat o) l)).
Proof.
  intros He Hs Hp Hpw. pose proof (page_args_bounds _ _ _ _ Hp) as [Ho Hn]. unfold _MAX_LIMIT in Hn.
  unfold api_ballots. rewrite He, bind_Ok, (serves_count _ _ _ Hs), bind_Ok, Hp, bind_Ok.
  rewrite (serves_page _ _ _ Hs), bind_Ok by lia. set (page := take _ _) in *.
  set (obj := JObj _). assert (Hi : ids32 obj).
  { ids_object. apply ids32_list. intros sb Hsb. apply ids32_ballot. by eapply Forall_forall in Hpw. }
  destruct (ids32_restorable _ Hi) as (j & -> & Hr). exists j. split; [done|].
  rewrite (restored_items "ballots" j ((λ sb, enc_ballot (envelope sb)) <$> page) _ ltac:(done) Hr).
  rewrite (list_fmap_compose envelope enc_ballot).
  apply mapM_dec_enc, Forall_fmap. eapply Forall_impl; [exact Hpw|]. intros sb. apply dec_enc_ballot.
Qed.

Lemma api_elections_page s ids offset limit o n : dl_list_elections s None = Ok ids →
  page_args offset limit = Ok (o, n) →
  ∃ j, api_elections s None offset limit = Ok j
    ∧ page_items "electionIds" j = (λ e, JInt (_eid_num e)) <$> take (Z.to_nat n) (drop (Z.to_nat o) ids).
Proof.
  intros Hids Hp. pose proof (page_args_bounds _ _ _ _ Hp) as [Ho Hn].
  unfold api_elections. rewrite bind_Ok, Hids, bind_Ok, Hp, bind_Ok, py_slice_page by lia. eexists. split; [done|].
  cbn [page_items dict_get]. by rewrite decide_True.
Qed.

(** A client that pages through [GET /elections/<id>/ballots] or
    [GET /elections] with any limit from 1 to 200, offset by offset, sees every
    row once and in order: the concatenated pages decode to all the ballots of
    the election, and list all the election ids. *)
Theorem api_pages_cover s seg e l ids L n : _parse_eid seg = Ok e → serves s e l →
  Forall (λ sb, ballot_wf (envelope sb)) l → dl_list_elections s None = Ok ids → (1 <= L <= 200)%nat →
  let at_page (k : nat) := Some (pretty (Z.of_nat (k * L))) in
  let limit := Some (pretty (Z.of_nat L)) in
  ((length l <= n * L)%nat → ∃ pages, mapM (λ k, api_ballots s seg (at_page k) limit) (seq 0 n) = Ok pages
     ∧ mapM dec_ballot (map restore_ids (concat (map (page_items "ballots") pages))) = Ok (envelope <$> l))
  ∧ ((length ids <= n * L)%nat → ∃ pages, mapM (λ k, api_elections s None (at_page k) limit) (seq 0 n) = Ok pages
     ∧ concat (map (page_items "electionIds") pages) = (λ e, JInt (_eid_num e)) <$> ids).
Proof.
  intros He Hs Hw Hids HL at_page limit.
  assert (Hp : ∀ k, page_args (at_page k) limit = Ok (Z.of_nat (k * L), Z.of_nat L))
    by (intros k; apply page_args_pretty; unfold _MAX_LIMIT; lia).
  split; intros Hn.
  - rewrite <- (take_ge l (n * L)) by lia. rewrite <- pages_concat. generalize (seq 0 n) as ks. clear Hn n.
    induction ks as [|k ks (pages & Eps & Dps)]; [by exists []|].
    destruct (api_ballots_page s seg e l _ _ _ _ He Hs (Hp k)) as (j & Ej & Dj);
      [by apply Forall_take, Forall_drop|]. exists (j :: pages).
    rewrite !Nat2Z.id in Dj. cbn [map concat mapM]. rewrite Ej, bind_Ok, Eps, bind_Ok. split; [done|].
    rewrite map_app, fmap_app. by apply mapM_app_Ok.
  - rewrite <- (take_ge ids (n * L)) by lia. rewrite <- pages_concat. generalize (seq 0 n) as ks. clear Hn n.
    induction ks as [|k ks (pages & Eps & Dps)]; [by exists []|].
    destruct (api_elections_page s ids _ _ _ _ Hids (Hp k)) as (j & Ej & Dj). exists (j :: pages).
    rewrite !Nat2Z.id in Dj. cbn [map concat mapM]. rewrite Ej, bind_Ok, Eps, bind_Ok. split; [done|].
    by rewrite fmap_app, Dj, Dps.
Qed.

End pages.

(** * Ballot ingest *)

Section ingest.
Context `{Crypto} `{EthAccount} `{Abi} (float_repr : Z → Z → string).
Context (content_length : json → Z) (exn_text : exn → string) (data_store : string).

#[local] Instance store_layer : DataLayer InMemoryDataLayer := memory_layer float_repr.
#[local] Abbreviation ingest := (submit_ballot_route (store := InMemoryDataLayer) float_repr content_length exn_text).

Lemma gateway_stores m now now' eid b f sg m' seq : mem_ok m →
  gateway_submit_ballot float_repr m now now' eid b f sg = Ok (m', seq) →
  ∃ st, _get m eid = Ok st ∧ seq = len (st_ballots st)
    ∧ m' = put m eid (append_ballot st (mkStoredBallot seq b (Some now')))
    ∧ ∃ sig, submit_ballot float_repr m now' eid b sig = Ok (m', seq).
Proof.
  intros Hm Hr. unfold gateway_submit_ballot in Hr. do 4 (apply bind_Ok_inv in Hr as (? & _ & Hr)).
  apply bind_Ok_inv in Hr as (sig & _ & Hr). cbn [dl_submit_ballot store_layer memory_layer] in Hr.
  pose proof Hr as Hst. unfold submit_ballot in Hst. apply bind_Ok_inv in Hst as (st & Hst & _). exists st.
  destruct (submit_ballot_Ok _ _ _ _ _ _ _ _ _ Hm Hst Hr) as (-> & _ & ->). eauto.
Qed.

(** The ingest route tells the truth: unless it answers 200 nothing has
    changed; and after a 200 the ballot of the body is stored under the sequence
    number of the reply, as the last of the election, and the public page at
    that offset shows exactly this ballot. *)
Theorem ingest_visible m now now' f sg seg body m' r : reachable float_repr m →
  ingest m now now' f sg seg body = (m', r) →
  (route_status r ≠ 200 → m' = m)
  ∧ (route_status r = 200 → ∃ ballot seq j, (v ← getitem body "ballot"; dec_ballot v) = Ok ballot
     ∧ r = Ok (Reply 200 (JObj [("sequenceNumber", JInt seq)]))
     ∧ api_get data_store m' (ApiBallotCount seg) = Ok (JObj [("count", JInt (seq + 1))])
     ∧ api_get data_store m' (ApiBallots seg (Some (pretty seq)) (Some "1")) = Ok j
     ∧ mapM dec_ballot (map restore_ids (page_items "ballots" j)) = Ok [ballot]).
Proof.
  intros Hm%reachable_ok. unfold submit_ballot_route, refused.
  destruct (_parse_eid seg) as [eid|e] eqn:Heid; last first.
  { intros [= <- <-]. split; [done|]. cbn [route_status]. unfold api_error. by destruct e. }
  destruct (_ <? _); [by intros [= <- <-]|].
  destruct (v ← getitem body "ballot"; dec_ballot v) as [b|e] eqn:Hb; [|by intros [= <- <-]].
  destruct (gateway_submit_ballot _ _ _ _ _ _ _ _) as [[m1 seq]|e] eqn:Hg; last first.
  { destruct e; intros [= <- <-]; (split; [done|]); done. }
  intros [= <- <-]. split; [done|]. intros _.
  destruct (gateway_stores _ _ _ _ _ _ _ _ _ Hm Hg) as (st & Hst & Hseq & Hm1 & sig & Hsub).
  set (sb := mkStoredBallot seq b (Some now')) in *.
  assert (Hm1ok : mem_ok m1) by (eapply (steps_ok float_repr); [exact Hm|by eapply rtc_once, step_ballot]).
  assert (Hst1 : _get m1 eid = Ok (append_ballot st sb)) by (rewrite Hm1; apply get_put).
  pose proof (memory_serves float_repr m1 eid _ Hm1ok Hst1) as Hs.
  change (serves m1 eid (st_ballots st ++ [sb])) in Hs.
  assert (Hpage : take (Z.to_nat 1) (drop (Z.to_nat seq) (st_ballots st ++ [sb])) = [sb]).
  { rewrite Hseq. unfold len. by rewrite Nat2Z.id, drop_app_length. }
  destruct (api_ballots_page m1 seg eid _ (Some (pretty seq)) (Some "1") seq 1 Heid Hs) as (j & Hj & Hd).
  - apply (page_args_pretty seq 1); [rewrite Hseq; unfold len; lia|done].
  - rewrite Hpage. constructor; [|constructor]. unfold sb. cbn [envelope].
    apply bind_Ok_inv in Hb as (v & _ & Hb). by apply dec_ballot_wf in Hb.
  - rewrite Hpage in Hd. exists b, seq, j. split_and!; [done|done| |done|done].
    cbn [api_get]. rewrite Heid, bind_Ok, (serves_count _ _ _ Hs), bind_Ok, len_app. by rewrite Hseq.
Qed.

End ingest.

(** * A run *)

Module api_example.
Import prefix_abi naming_account.
#[local] Existing Instance concrete_crypto.
#[local] Instance layer : DataLayer InMemoryDataLayer := memory_layer gateway_example.float_text.

Definition body : json := JObj [("ballot", enc_ballot (envelope admission_example.alice2))].
Definition size_text (_ : json) : Z := 1000.
Definition no_text (_ : exn) : string := "".

(** Alice's ballot, posted under the decimal id 1. *)
Lemma ingested :
  submit_ballot_route gateway_example.float_text size_text no_text gateway_example.m2 150 151 true None "1" body
  = (gateway_example.m3, Ok (Reply 200 (JObj [("sequenceNumber", JInt 0)]))).
Proof. vm_compute. reflexivity. Qed.

Lemma ingest_visible_witness :
  let c := concrete_crypto in
  ∃ j, api_get "database" gateway_example.m3 (ApiBallots "1" (Some "0") (Some "1")) = Ok j
    ∧ mapM dec_ballot (map restore_ids (page_items "ballots" j)) = Ok [envelope admission_example.alice2].
Proof.
  intros c.
  destruct (ingest_visible gateway_example.float_text size_text no_text "database" gateway_example.m2 150 151 true None
    "1" body gateway_example.m3 _ gateway_example.m2_reachable ingested) as [_ Hok].
  destruct (Hok eq_refl) as (b & seq & j & Hb & Hr & _ & Hj & Hd). exists j.
  assert (seq = 0) as -> by congruence. split; [exact Hj|]. rewrite Hd. f_equal. f_equal.
  assert (Hb' : (v ← getitem body "ballot"; dec_ballot v) = Ok (envelope admission_example.alice2))
    by (vm_compute; reflexivity).
  rewrite Hb in Hb'. by injection Hb'.
Defined.

Lemma m4_listed : dl_list_elections gateway_example.m4 None = Ok [gateway_example.eid].
Proof. vm_compute. reflexivity. Qed.
Lemma m4_ballots_wf : Forall (λ sb, ballot_wf (envelope sb)) (st_ballots gateway_example.st4).
Proof.
  assert (Hd : mapM (λ sb, dec_ballot (enc_ballot (envelope sb))) (st_ballots gateway_example.st4)
    = Ok (envelope <$> st_ballots gateway_example.st4)) by (vm_compute; reflexivity).
  change (Forall (ballot_wf ∘ envelope) (st_ballots gateway_example.st4)). apply Forall_fmap.
  apply mapM_Ok in Hd. revert Hd. generalize (envelope <$> st_ballots gateway_example.st4) as k.
  generalize (st_ballots gateway_example.st4) as l. intros l k Hd.
  induction Hd as [|sb b l k Hb _ IH]; constructor; [by apply dec_ballot_wf in Hb|exact IH].
Qed.

(** Two ballots, one per page. *)
Lemma api_pages_cover_witness :
  let c := concrete_crypto in
  ∃ pages, mapM (λ k : nat, api_ballots gateway_example.m4 "1" (Some (pretty (Z.of_nat (k * 1))))
      (Some (pretty (Z.of_nat 1)))) (seq 0 2) = Ok pages
  ∧ mapM dec_ballot (map restore_ids (concat (map (page_items "ballots") pages)))
    = Ok (envelope <$> st_ballots gateway_example.st4).
Proof.
  intros c.
  pose proof (api_pages_cover gateway_example.m4 "1" gateway_example.eid (st_ballots gateway_example.st4)
    [gateway_example.eid] 1 2) as Hp.
  destruct Hp as [Hb _].
  - vm_compute. reflexivity.
  - refine (memory_serves gateway_example.float_text gateway_example.m4 gateway_example.eid gateway_example.st4 _ _);
      [apply (reachable_ok gateway_example.float_text), gateway_example.m4_reachable|apply gateway_example.m4_get].
  - exact m4_ballots_wf.
  - exact m4_listed.
  - lia.
  - apply Hb. vm_compute. lia.
Defined.
End api_example.
