(* ===== verification/Vectors.v ===== *)
(** The conformance vectors (scripts/gen_vectors.py): the attestation vectors,
    the ballot vectors and the full-election fixture, and that what a vector says
    is expected is what verification answers.

    That a forged vector is refused needs that the text signed and the text
    claimed do not give one challenge ([separated]); the witness computes that
    they do not.

    Randomness that the script draws is an argument.  A vector is the JSON value
    that is written to its file. *)

From Stdlib Require Import Zmod.
From S2P Require Import Prelude Params Primality Field Points Transcript Elgamal Schnorr Proofs Recovery Dkg Types Config Ballot Admission Aggregation Codecs WriteAuth.

(** [bytes([b]) * n] *)
Definition fill (b : Z) (n : nat) : bytes := replicate n (byte_of b).

Definition ELECTION_ID : bytes := fill 17 32.

Section vectors.
Context `{Crypto}.

(** * Attestation vectors *)

Record att_case := mkAttCase {
  ac_name : string;
  ac_desc : string;
  ac_weight : Z;
  ac_scheme : string;
  ac_election_id : bytes;
  ac_sig : bytes;
  ac_verify : bool;
  ac_nonce : Z;
}.

(** The values the cases share. *)
Record att_setup := mkAttSetup {
  as_elig_key : bytes;
  as_pseudonym : bytes;
  as_vk : bytes;
}.

Definition att_obj (s : att_setup) (c : att_case) : json :=
  JObj [("name", JStr (ac_name c)); ("description", JStr (ac_desc c)); ("version", JInt 1);
        ("inputs", JObj [
          ("eligibilityKey", JStr (hex (as_elig_key s))); ("electionId", JStr (hex (ac_election_id c)));
          ("pseudonym", JStr (hex (as_pseudonym s))); ("vk", JStr (hex (as_vk s)));
          ("weight", JInt (ac_weight c)); ("nonce", JInt (ac_nonce c));
          ("scheme", JStr (ac_scheme c)); ("signature", JStr (hex (ac_sig c)))]);
        ("expected", JObj [("verify", JBool (ac_verify c))])].

Definition att_cases : result (att_setup * list att_case) :=
  '(elig_sk, elig_vk) ← schnorr.keygen 0x1234567890ABCDEF1234567890ABCDEF1234567890ABCDEF1234567890ABCDEF;
  elig_key ← g1_to_compressed elig_vk;
  '(_, voter_vk) ← schnorr.keygen 0x0FEDCBA0987654321FEDCBA0987654321FEDCBA0987654321FEDCBA098765432;
  vk ← g1_to_compressed voter_vk;
  let pseudonym := fill 34 32 in
  let k := 0x1111222233334444555566667777888899990000AAAABBBBCCCCDDDDEEEEFFFF in
  sig_v1 ← sign_attestation elig_sk elig_vk ELECTION_ID pseudonym vk 5 1 k;
  let other := fill 153 32 in
  sig_other ← sign_attestation elig_sk elig_vk other pseudonym vk 5 1 k;
  sig_big ← sign_attestation elig_sk elig_vk ELECTION_ID pseudonym vk 50 1 k;
  Ok (mkAttSetup elig_key pseudonym vk,
      [mkAttCase "attestation_v1_valid" "Weighted ATTESTATION_V1 over (eid,pseudonym,vk,weight=5,nonce=1)."
         5 "ATTESTATION_V1" ELECTION_ID sig_v1 true 1;
       mkAttCase "attestation_v1_tampered_weight" "Signature over weight=5 but envelope claims weight=9."
         9 "ATTESTATION_V1" ELECTION_ID sig_v1 false 1;
       mkAttCase "attestation_v1_tampered_nonce" "Signature over nonce=1 but envelope claims nonce=2."
         5 "ATTESTATION_V1" ELECTION_ID sig_v1 false 2;
       mkAttCase "attestation_v1_wrong_election" "Signature bound to a different electionId."
         5 "ATTESTATION_V1" ELECTION_ID sig_other false 1;
       mkAttCase "attestation_v1_large_weight" "weight=50 verifies; there is no upper bound."
         50 "ATTESTATION_V1" ELECTION_ID sig_big true 1]).

(** The files, by category and name. *)
Definition gen_attestation : result (list (string * string * json)) :=
  '(s, cases) ← att_cases;
  Ok (map (λ c, ("attestation", ac_name c, att_obj s c)) cases).

(** * Ballot vectors *)

(** What one case draws. *)
Record case_coins := mkCaseCoins {
  cc_sk : Z;
  cc_att_k : Z;
  cc_votes : list VoteCoins;
  cc_budget_w : Z;
  cc_schnorr_k : Z;
  cc_mutate_k : Z;
}.

Record ballot_case := mkBallotCase {
  bc_name : string;
  bc_desc : string;
  bc_mpk : pt G2ops;
  bc_vk : bytes;
  bc_elig_key : bytes;
  bc_num_candidates : Z;
  bc_budget : Z;
  bc_built : BuiltBallot;
  bc_signed : Attestation; (* the credential the voter signed over, [att_obj] *)
  bc_attestation : Attestation;
  bc_verify : bool;
}.

Definition ELECTION : bytes := fill 225 32.
Definition PSEUDO : bytes := fill 66 32.

(** [mutate], as [_reweight] is: the credential is replaced by another one that
    the issuer signs. *)
Definition _reweight (elig_sk : Z) (elig_vk : pt G1ops) (k : Z) (a : Attestation) (vk_b : bytes) : result Attestation :=
  sig ← sign_attestation elig_sk elig_vk ELECTION PSEUDO vk_b 99 (att_nonce a) k;
  Ok (mkAttestation (att_election_id a) (att_pseudonym a) (att_vk a) 99 sig (att_scheme a) (att_nonce a)).

Definition case (elig_sk : Z) (elig_vk : pt G1ops) (mpk : pt G2ops) (c : case_coins) (name desc : string)
    (votes : list Z) (budget weight nonce : Z) (mutate : bool) (verify : bool) : result ballot_case :=
  '(sk, vk) ← schnorr.keygen (cc_sk c);
  vk_b ← g1_to_compressed vk;
  a ← sign_attestation elig_sk elig_vk ELECTION PSEUDO vk_b weight nonce (cc_att_k c);
  let att := mkAttestation ELECTION PSEUDO vk_b weight a V1 nonce in
  built ← build_ballot mpk ELECTION PSEUDO sk vk att votes (len votes) budget
            (cc_votes c) (cc_budget_w c) (cc_schnorr_k c);
  wire_att ← (if mutate then _reweight elig_sk elig_vk (cc_mutate_k c) att vk_b else Ok att);
  elig_key ← g1_to_compressed elig_vk;
  Ok (mkBallotCase name desc mpk vk_b elig_key (len votes) budget built att wire_att verify).

Definition case_obj (b : ballot_case) : result json :=
  m ← g2_to_compressed (bc_mpk b);
  let att := bc_attestation b in
  Ok (JObj [("name", JStr (bc_name b)); ("description", JStr (bc_desc b)); ("version", JInt 2);
    ("inputs", JObj [
      ("mpk", JStr (hex m)); ("vk", JStr (hex (bc_vk b))); ("election_id", JStr (hex ELECTION));
      ("pseudonym", JStr (hex PSEUDO)); ("eligibility_key", JStr (hex (bc_elig_key b)));
      ("params", JObj [("numCandidates", JInt (bc_num_candidates b)); ("budget", JInt (bc_budget b));
                       ("mode", JStr "exact"); ("variant", JStr "A")]);
      ("ciphertexts", JArr ((λ '(c1, c2), JObj [("c1", JStr (hex c1)); ("c2", JStr (hex c2))])
                              <$> bb_ciphertexts (bc_built b)));
      ("zkProof", JStr (hex (bb_zk_proof (bc_built b)))); ("signature", JStr (hex (bb_voter_signature (bc_built b))));
      ("attestation", JObj [("electionId", JStr (hex (att_election_id att)));
        ("pseudonym", JStr (hex (att_pseudonym att))); ("vk", JStr (hex (att_vk att)));
        ("weight", JInt (att_weight att)); ("nonce", JInt (att_nonce att));
        ("signature", JStr (hex (att_signature att)))])]);
    ("expected", JObj [("verify", JBool (bc_verify b))])]).

Definition ballot_cases (c1 c2 : case_coins) : result (list ballot_case) :=
  '(elig_sk, elig_vk) ← schnorr.keygen 0xE11A;
  let mpk := mul G2 0xB0B in
  b1 ← case elig_sk elig_vk mpk c1 "ballot_variantA_exact"
         "Full ballot: Variant A, exact, l=3, B=3, votes [1,1,1], weight 5. Must verify." [1; 1; 1] 3 5 1 false true;
  b2 ← case elig_sk elig_vk mpk c2 "ballot_swapped_credential"
         "Credential swapped for another the issuer signed (weight 99). Verified under v1; must fail under v2, where the voter's signature covers the credential."
         [1; 1; 1] 3 5 1 true false;
  Ok [b1; b2].

Definition gen_ballot (c1 c2 : case_coins) : result (list (string * string * json)) :=
  cases ← ballot_cases c1 c2;
  mapM (λ b, o ← case_obj b; Ok ("ballot", bc_name b, o)) cases.

(** * The full-election fixture *)

(** The ceremony, with dealer [i] drawing its coefficients from [rng i]. *)
Definition _run_dkg (rng : Z → nat → Z) (n quorum : Z)
  : result (pt G2ops * dict Z (pt G2ops) * dict Z KeyperDKGState) :=
  let ids := seqZ 1 n in
  let dealt := (λ i, (i, round1 init_state i n quorum (rng i))) <$> ids in
  let comms := (λ '(i, r), (i, r.2.1)) <$> dealt in
  states ← mapM (λ '(i, r),
    received ← mapM (λ '(d, rd), match dict_get rd.2.2 i with Some sh => Ok (d, sh) | None => Err KeyError end) dealt;
    '(st, _) ← round2 r.1 comms received;
    Ok (i, st)) dealt;
  mpk ← derive_joint_mpk comms quorum;
  committee ← mapM (λ i, pk ← derive_mpk_share i comms quorum; Ok (i, pk)) ids;
  Ok (mpk, committee, states).

(** [d[k]] *)
Definition item {V} (d : dict Z V) (k : Z) : result V :=
  match dict_get d k with Some v => Ok v | None => Err KeyError end.

(** [b[-1] ^= 0x01] *)
Definition flip_last (b : bytes) : bytes :=
  match reverse b with [] => [] | x :: r => reverse (byte_of (Z.lxor (byte_val x) 1) :: r) end.

Definition flow_config (elig_key : bytes) : ElectionConfig :=
  mkElectionConfig ELECTION_ID 3 3 EXACT VariantA true LAST_WINS 1000 2000 (mkThreshold 2 3)
    ((λ i, mkKeyperIdentity (fill i 20) "") <$> [0; 1; 2]) elig_key (fill 161 20) [fill 145 20] (fill 173 20)
    "SHUTTER-VOTE-v1" 1 0.

Definition make_ballot (elig_sk : Z) (elig_vk : pt G1ops) (mpk : pt G2ops) (c : case_coins) (votes : list Z)
    (pseudonym : bytes) (weight nonce : Z) (tamper_sig : bool) : result BallotEnvelope :=
  '(sk, vk) ← schnorr.keygen (cc_sk c);
  vk_b ← g1_to_compressed vk;
  a ← sign_attestation elig_sk elig_vk ELECTION_ID pseudonym vk_b weight nonce (cc_att_k c);
  let att := mkAttestation ELECTION_ID pseudonym vk_b weight a V1 nonce in
  built ← build_ballot mpk ELECTION_ID pseudonym sk vk att votes 3 3 (cc_votes c) (cc_budget_w c) (cc_schnorr_k c);
  let sig := if tamper_sig then flip_last (bb_voter_signature built) else bb_voter_signature built in
  Ok (mkBallotEnvelope ELECTION_ID pseudonym vk_b ((λ '(c1, c2), mkWireCiphertext c1 c2) <$> bb_ciphertexts built)
        (bb_zk_proof built) sig att).

(** The share of keyper [i], with [w j] the proof's randomness for candidate [j]. *)
Definition flow_share (committee : dict Z (pt G2ops)) (states : dict Z KeyperDKGState) (aggregate : AggregateArtifact)
    (w : nat → Z) (i : Z) : result DecryptionShareEnvelope :=
  st ← item states i;
  pk ← item committee i;
  entries ← mapM (λ '(j, ct),
    C1 ← g2_from_compressed (c1 ct);
    C2 ← g2_from_compressed (c2 ct);
    sigma ← partial_decrypt st C1;
    t ← make_decrypt_transcript ELECTION_ID (Z.of_nat j);
    cs ← match dkg_combined_share st with Some cs => Ok cs | None => Err TypeError end;
    '(e, z, _) ← prove_decryption_share C1 C2 pk sigma cs i (w j) t;
    sb ← g2_to_compressed sigma;
    pf ← encode_dleq e z;
    Ok (mkDecryptionShareEntry sb pf)) (imap pair (aggregates aggregate));
  Ok (mkDecryptionShareEnvelope ELECTION_ID i entries).

(** What the fixture is made of. *)
Record flow_parts := mkFlow {
  fl_config : ElectionConfig;
  fl_mpk : bytes;
  fl_committee : list bytes;
  fl_ballots : list StoredBallot;
  fl_aggregate : AggregateArtifact;
  fl_shares : list DecryptionShareEnvelope;
  fl_result : ResultArtifact;
}.

Definition flow (rng : Z → nat → Z) (elig_seed : Z) (coins : nat → case_coins) (w : Z → nat → Z) : result flow_parts :=
  '(mpk, committee, states) ← _run_dkg rng 3 2;
  mpk_bytes ← g2_to_compressed mpk;
  committee_pks ← mapM (λ i, pk ← item committee i; g2_to_compressed pk) (seqZ 1 3);
  '(elig_sk, elig_vk) ← schnorr.keygen elig_seed;
  elig_key ← g1_to_compressed elig_vk;
  let config := flow_config elig_key in
  _ ← threshold_post_init (threshold config);
  _ ← config_post_init config;
  let ballot k votes p weight nonce tamper := make_ballot elig_sk elig_vk mpk (coins k) votes p weight nonce tamper in
  let P1 := fill 161 32 in let P2 := fill 162 32 in let P3 := fill 163 32 in let P4 := fill 164 32 in
  b0 ← ballot 0%nat [3; 0; 0] P1 2 1 false;
  b1 ← ballot 1%nat [0; 3; 0] P2 3 1 false;
  b2 ← ballot 2%nat [1; 1; 1] P3 1 1 true;
  b3 ← ballot 3%nat [0; 0; 3] P1 2 2 false;
  b4 ← ballot 4%nat [1; 1; 1] P4 1 1 false;
  let stored := imap (λ i b, mkStoredBallot (Z.of_nat i) b None) [b0; b1; b2; b3; b4] in
  admission ← admit_ballots stored config mpk_bytes;
  aggregate ← build_aggregate_artifact config admission;
  shares ← mapM (λ i, flow_share committee states aggregate (w i) i) [1; 2];
  result ← recover_result config aggregate shares committee_pks 2 None;
  match result with
  | Some r => Ok (mkFlow config mpk_bytes committee_pks stored aggregate shares r)
  | None => Err AttributeError
  end.

Definition gen_flow (rng : Z → nat → Z) (elig_seed : Z) (coins : nat → case_coins) (w : Z → nat → Z)
  : result (string * string * json) :=
  f ← flow rng elig_seed coins w;
  Ok ("flow", "full_election_level1", JObj [
    ("name", JStr "full_election_level1");
    ("description", JStr "Complete variant-A/exact/weighted election: 5 ballots (1 invalid, 1 duplicate), t+1 shares, replayable to the published aggregate + result.");
    ("version", JInt 1); ("config", enc_config (fl_config f));
    ("finalizedKey", JObj [("pkElection", JStr (hex (fl_mpk f)));
                           ("committeePKs", JArr ((λ p, JStr (hex p)) <$> fl_committee f))]);
    ("ballots", JArr ((λ sb, enc_ballot (envelope sb)) <$> fl_ballots f));
    ("aggregate", enc_aggregate (fl_aggregate f));
    ("shares", JArr (enc_decryption_share <$> fl_shares f));
    ("result", enc_result (fl_result f))]).

(** What verification of the ballot with a credential answers. *)
Definition case_verifies (b : ballot_case) (att : Attestation) : result (bool * option string) :=
  verify_ballot_crypto (bc_mpk b) ELECTION PSEUDO (bc_vk b) (bb_ciphertexts (bc_built b)) (bb_zk_proof (bc_built b))
    (bb_voter_signature (bc_built b)) att (bc_num_candidates b) (bc_budget b).

(** What the signatures of the attestation vectors were made over: the election,
    the weight and the nonce. *)
Definition att_signed : list (bytes * Z * Z) :=
  [(ELECTION_ID, 5, 1); (ELECTION_ID, 5, 1); (ELECTION_ID, 5, 1); (fill 153 32, 5, 1); (ELECTION_ID, 50, 1)].

(** * What the vectors rely on *)

(** Under this key and this signature's commitment, the two texts have one
    challenge only if they are one text. *)
Definition separated (vkb sig : bytes) (text text' : result bytes) : Prop :=
  match g1_from_compressed vkb, schnorr.decode sig, text, text' with
  | Ok vk, Ok (R, _), Ok p, Ok p' =>
      schnorr._challenge R vk (keccak p) = schnorr._challenge R vk (keccak p') → p = p'
  | _, _, _, _ => True
  end.

Definition att_text (e p v : bytes) (w n : Z) : result bytes :=
  t ← _attestation_transcript e p v w n; Ok (preimage t).

Definition att_separated (s : att_setup) (c : att_case) (signed : bytes * Z * Z) : Prop :=
  let '(e, w, n) := signed in
  separated (as_elig_key s) (ac_sig c) (att_text e (as_pseudonym s) (as_vk s) w n)
    (att_text (ac_election_id c) (as_pseudonym s) (as_vk s) (ac_weight c) (ac_nonce c)).

Definition ballot_separated (b : ballot_case) : Prop :=
  let text := canonical_ballot_message ELECTION PSEUDO (bb_ciphertexts (bc_built b)) (bb_zk_proof (bc_built b)) in
  separated (bc_vk b) (bb_voter_signature (bc_built b)) (text (bc_signed b)) (text (bc_attestation b)).

(** Separation, computed. *)
Definition apart (vkb sig : bytes) (text text' : result bytes) : bool :=
  match g1_from_compressed vkb, schnorr.decode sig, text, text' with
  | Ok vk, Ok (R, _), Ok p, Ok p' =>
      bool_decide (p = p')
      || match schnorr._challenge R vk (keccak p), schnorr._challenge R vk (keccak p') with
         | Ok e, Ok e' => negb (e =? e')
         | _, _ => false
         end
  | _, _, _, _ => true
  end.

Lemma apart_separated vkb sig text text' : apart vkb sig text text' = true → separated vkb sig text text'.
Proof.
  unfold apart, separated. destruct (g1_from_compressed vkb) as [vk|], (schnorr.decode sig) as [[R z]|], text, text'; try done.
  intros [E%bool_decide_eq_true|E]%orb_true_iff; [done|].
  intros Hc. rewrite Hc in E. destruct (schnorr._challenge _ _ _); [|done]. by rewrite Z.eqb_refl in E.
Qed.

Definition att_apart (s : att_setup) (c : att_case) (signed : bytes * Z * Z) : bool :=
  let '(e, w, n) := signed in
  apart (as_elig_key s) (ac_sig c) (att_text e (as_pseudonym s) (as_vk s) w n)
    (att_text (ac_election_id c) (as_pseudonym s) (as_vk s) (ac_weight c) (ac_nonce c)).
Definition ballot_apart (b : ballot_case) : bool :=
  let text := canonical_ballot_message ELECTION PSEUDO (bb_ciphertexts (bc_built b)) (bb_zk_proof (bc_built b)) in
  apart (bc_vk b) (bb_voter_signature (bc_built b)) (text (bc_signed b)) (text (bc_attestation b)).

End vectors.

(** * A signature is on one message *)

Section binding.
Context `{CryptoLaws}.

Lemma schnorr_one_challenge vk R s msg msg' : in_subgroup vk → in_subgroup R →
  schnorr.verify vk msg R s = Ok true → schnorr.verify vk msg' R s = Ok true →
  schnorr._challenge R vk msg = schnorr._challenge R vk msg'.
Proof.
  intros Hvk HR H1 H2. unfold schnorr.verify in *. destruct (point_eq vk Z1) eqn:Hz; [done|].
  rewrite schnorr._challenge_Ok in H1. rewrite schnorr._challenge_Ok in H2. rewrite !schnorr._challenge_Ok.
  cbn [mbind result_bind] in H1, H2.
  injection H1 as H1%point_eq_spec. injection H2 as H2%point_eq_spec. rewrite H1 in H2. f_equal.
  unfold hash_to_scalar in *. set (x := DST_SCHNORR ++ concat [_; _; msg]) in *. set (y := DST_SCHNORR ++ concat [_; _; msg']) in *.
  assert (Hv : vk ≠ Z1) by (intros ->; by rewrite point_eq_refl in Hz).
  clear H1 Hz. apply inF_inj_small; [apply mod_q_range..|]. unfold Z1 in Hv. solve_point.
  set (e := inF (dual_keccak x)) in *. set (e' := inF (dual_keccak y)) in *.
  assert (Hm : (xvk * e)%F = (xvk * e')%F).
  { transitivity ((xR + xvk * e) - xR)%F; [ring|]. rewrite H2. ring. }
  transitivity ((xvk * e) / xvk)%F; [by field|]. rewrite Hm. by field.
Qed.

(** One signature on two separated texts: they are one. *)
Lemma separated_one vkb sig vk R s p p' t t' : g1_from_compressed vkb = Ok vk → schnorr.decode sig = Ok (R, s) →
  t = Ok p → t' = Ok p' → separated vkb sig t t' →
  schnorr.verify vk (keccak p) R s = Ok true → schnorr.verify vk (keccak p') R s = Ok true → p = p'.
Proof.
  intros Hvk Hsig -> -> Hs Hv Hv'. unfold separated in Hs. rewrite Hvk, Hsig in Hs. apply Hs.
  apply from_compressed_Ok in Hvk as [Hvk _]. apply schnorr.decode_Ok in Hsig as (HR & _).
  by apply (schnorr_one_challenge vk R s).
Qed.

(** A credential's signature is on one credential. *)
Lemma attestation_sig_binds vkb e p v w n e' p' v' w' n' sig :
  separated vkb sig (att_text e p v w n) (att_text e' p' v' w' n') →
  verify_attestation_sig vkb e p v w n sig = true → verify_attestation_sig vkb e' p' v' w' n' sig = true →
  e = e' ∧ p = p' ∧ v = v' ∧ w ≡q w' ∧ n ≡q n'.
Proof.
  intros Hsep (_ & _ & _ & _ & _ & vk & R & s & msg & Hvk & Hsig & Hm & Hv)%verify_attestation_sig_true.
  intros (_ & _ & _ & _ & _ & vk2 & R2 & s2 & msg' & Hvk' & Hsig' & Hm' & Hv')%verify_attestation_sig_true.
  rewrite Hvk in Hvk'. injection Hvk' as <-. rewrite Hsig in Hsig'. injection Hsig' as <- <-.
  unfold attestation_message in Hm, Hm'. apply bind_Ok_inv in Hm as (t & Ht & <-%Ok_inj).
  apply bind_Ok_inv in Hm' as (t' & Ht' & <-%Ok_inj).
  eapply attestation_preimage_inj; [exact Ht|exact Ht'|].
  eapply (separated_one vkb sig vk R s); [done..| | |exact Hsep|done|done]; unfold att_text; by rewrite ?Ht, ?Ht'.
Qed.

(** A ballot whose credential is replaced by one of another weight is refused,
    for its signature. *)
Lemma swapped_credential_refused mpk eid ps vkb ctb zk sig att att' nc budget :
  verify_ballot_crypto mpk eid ps vkb ctb zk sig att nc budget = Ok (true, None) →
  message_ok eid ps att' → att_weight att' ≠ att_weight att →
  separated vkb sig (canonical_ballot_message eid ps ctb zk att) (canonical_ballot_message eid ps ctb zk att') →
  ∃ reason, verify_ballot_crypto mpk eid ps vkb ctb zk sig att' nc budget = Ok (false, Some reason).
Proof.
  intros (vk & cts & rp & e_b & z_b & R & s & pre & Hvk & Hz & _ & _ & _ & _ & _ & _ & Hsig & Hpre & Hv & Hall)%verify_accepted_inv.
  intros Hok Hw Hsep. rewrite Hall, Hsig. clear Hall.
  pose proof (canonical_ballot_message_Ok _ _ _ _ _ _ Hpre) as (_ & _ & Hcts & _ & _ & (Hlc & Hlz & _) & _).
  destruct (canonical_ballot_message_succeeds eid ps ctb zk att' Hok) as [pre' Hpre']; [|lia|lia|].
  { eapply Forall_impl; [exact Hcts|]. intros ct [H1 H2]. unfold len. lia. }
  assert (Hverify : ∀ msg, ∃ ok, schnorr.verify vk msg R s = Ok ok).
  { intros msg. unfold schnorr.verify. rewrite Hz, schnorr._challenge_Ok. by eexists. }
  rewrite Hpre', bind_Ok. destruct (Hverify (keccak pre')) as [[] Hv']; rewrite Hv', bind_Ok.
  - exfalso. apply Hw. symmetry.
    rewrite <- (separated_one vkb sig vk R s pre pre' _ _ Hvk Hsig Hpre Hpre' Hsep Hv Hv') in Hpre'.
    apply (canonical_message_inj _ _ _ _ _ _ _ _ _ _ _ Hpre Hpre').
  - unfold _pre_v1_ballot_message. rewrite !to_bytes_be_small by (split; [lia|cbn; lia]). rewrite !bind_Ok.
    match goal with |- context [schnorr.verify vk ?m R s] => destruct (Hverify m) as [[] ->] end; by eexists.
Qed.

Lemma build_ballot_vk mpk eid ps sk vk att votes nc budget coins bw k b :
  build_ballot mpk eid ps sk vk att votes nc budget coins bw k = Ok b → g1_to_compressed vk = Ok (bb_vk b).
Proof.
  unfold build_ballot. intros Hb.
  repeat first [ apply bind_Ok_inv in Hb as (? & ? & Hb)
               | match type of Hb with match ?x with pair _ _ => _ end = _ => destruct x end
               | progress cbv zeta in Hb ].
  by injection Hb as <-.
Qed.

(** ** The vectors *)

Definition att_case_right (s : att_setup) (c : att_case) : Prop :=
  verify_attestation_sig (as_elig_key s) (ac_election_id c) (as_pseudonym s) (as_vk s) (ac_weight c) (ac_nonce c)
    (ac_sig c) = ac_verify c.

Lemma fill_len b n : len (fill b n) = Z.of_nat n.
Proof. unfold len, fill. by rewrite length_replicate. Qed.

Lemma g1_compressed P : g1_to_compressed P = Ok (pt_to_compressed G1ops P) ∧ len (pt_to_compressed G1ops P) = 48.
Proof. split; [apply to_compressed_Ok|apply compressed_size]. Qed.

(** A fixed key of the script. *)
Lemma keygen_fixed seed : (seed mod CURVE_ORDER =? 0) = false → ∃ sk vk, schnorr.keygen seed = Ok (sk, vk).
Proof. intros Hk. unfold schnorr.keygen. rewrite Hk. by do 2 eexists. Qed.

Lemma keygen_again seed sk vk : schnorr.keygen seed = Ok (sk, vk) → schnorr.keygen sk = Ok (sk, vk).
Proof.
  intros (-> & Hne & -> & _)%schnorr.keygen_Ok. unfold schnorr.keygen. rewrite Z.mod_mod by done.
  by rewrite (proj2 (Z.eqb_neq _ _) Hne).
Qed.

(** What the issuer signs verifies. *)
Lemma issued seed sk vk e p v w n k : schnorr.keygen seed = Ok (sk, vk) → len e = 32 → len p = 32 → len v = 48 →
  1 <= w → 1 <= n → ∃ sig, sign_attestation sk vk e p v w n k = Ok sig ∧ len sig = SCHNORR_BYTES
    ∧ verify_attestation_sig (pt_to_compressed G1ops vk) e p v w n sig = true.
Proof.
  intros Hk He Hp Hv Hw Hn.
  destruct (sign_attestation_succeeds sk vk e p v w n k He Hp Hv Hw Hn) as (sig & Hs & Hl).
  exists sig. split_and!; [done..|]. eapply sign_attestation_verifies; [done| |done]. apply g1_compressed.
Qed.

(** A vector of the credential that was signed, and one of another. *)
Definition att_case_sound (s : att_setup) (c : att_case) (signed : bytes * Z * Z) : Prop :=
  (let '(e, w, n) := signed in
   verify_attestation_sig (as_elig_key s) e (as_pseudonym s) (as_vk s) w n (ac_sig c) = true)
  ∧ (ac_verify c = true ∨ att_separated s c signed → att_case_right s c).

Lemma genuine_case s c : att_case_right s c → ac_verify c = true →
  att_case_sound s c (ac_election_id c, ac_weight c, ac_nonce c).
Proof. unfold att_case_right. intros Hr Hv. split; [by rewrite Hr|done]. Qed.

Lemma tampered_case s c e w n : ac_verify c = false →
  verify_attestation_sig (as_elig_key s) e (as_pseudonym s) (as_vk s) w n (ac_sig c) = true →
  ¬ (e = ac_election_id c ∧ w ≡q ac_weight c ∧ n ≡q ac_nonce c) → att_case_sound s c (e, w, n).
Proof.
  intros Hf Hv Hne. split; [done|]. intros [?|Hs]; [congruence|]. unfold att_case_right. rewrite Hf.
  apply not_true_is_false. intros Hv'.
  destruct (attestation_sig_binds _ _ _ _ _ _ _ _ _ _ _ _ Hs Hv Hv') as (? & _ & _ & ? & ?). tauto.
Qed.

Lemma attestation_cases : ∃ s cases, att_cases = Ok (s, cases)
  ∧ ac_verify <$> cases = [true; false; false; false; true] ∧ Forall2 (att_case_sound s) cases att_signed.
Proof.
  unfold att_cases.
  destruct (keygen_fixed 0x1234567890ABCDEF1234567890ABCDEF1234567890ABCDEF1234567890ABCDEF)
    as (sk & evk & Hk); [vm_compute; reflexivity|].
  destruct (keygen_fixed 0x0FEDCBA0987654321FEDCBA0987654321FEDCBA0987654321FEDCBA098765432)
    as (vsk & vvk & Hv); [vm_compute; reflexivity|].
  rewrite Hk, bind_Ok. rewrite (proj1 (g1_compressed evk)), bind_Ok, Hv, bind_Ok.
  destruct (g1_compressed vvk) as [-> Hl]. rewrite bind_Ok. cbn zeta.
  generalize dependent (pt_to_compressed G1ops vvk). intros vk Hl. clear Hv vsk vvk.
  generalize 0x1111222233334444555566667777888899990000AAAABBBBCCCCDDDDEEEEFFFF as k. intros k.
  assert (Hsign : ∀ e w, len e = 32 → 1 <= w → _) by (intros e w He Hw;
    exact (issued _ sk evk e (fill 34 32) vk w 1 k Hk He (fill_len 34 32) Hl Hw ltac:(lia))).
  destruct (Hsign ELECTION_ID 5 (fill_len _ _) ltac:(lia)) as (sig1 & -> & _ & H1). rewrite bind_Ok.
  destruct (Hsign (fill 153 32) 5 (fill_len _ _) ltac:(lia)) as (sig2 & -> & _ & H2). rewrite bind_Ok.
  destruct (Hsign ELECTION_ID 50 (fill_len _ _) ltac:(lia)) as (sig3 & -> & _ & H3). rewrite bind_Ok.
  do 2 eexists. split; [reflexivity|]. split; [reflexivity|]. clear Hsign Hk. unfold att_signed.
  repeat apply Forall2_cons_2; [..|apply Forall2_nil_2].
  - by apply (genuine_case (mkAttSetup _ _ _) (mkAttCase _ _ 5 _ _ _ _ 1)).
  - apply tampered_case; [done|exact H1|]. by intros (_ & ? & _).
  - apply tampered_case; [done|exact H1|]. by intros (_ & _ & ?).
  - apply tampered_case; [done|exact H2|]. by intros [? _].
  - by apply (genuine_case (mkAttSetup _ _ _) (mkAttCase _ _ 50 _ _ _ _ 1)).
Qed.

(** What a case needs to draw: keys that are not zero, and as many coins as the
    ballot has proofs. *)
Definition coins_ok (c : case_coins) : Prop :=
  (cc_sk c mod CURVE_ORDER =? 0) = false ∧ length (cc_votes c) = 3%nat
  ∧ Forall (λ co, len (coin_sims co) = 4) (cc_votes c).

Definition ballot_case_right (b : ballot_case) : Prop :=
  (∃ reason, case_verifies b (bc_attestation b) = Ok (bc_verify b, reason))
  ∧ verify_attestation_sig (bc_elig_key b) ELECTION PSEUDO (bc_vk b) (att_weight (bc_attestation b))
      (att_nonce (bc_attestation b)) (att_signature (bc_attestation b)) = true.

(** The ballot verifies with the credential the voter signed over. *)
Definition ballot_case_sound (b : ballot_case) : Prop :=
  case_verifies b (bc_signed b) = Ok (true, None)
  ∧ (bc_verify b = true ∨ ballot_separated b → ballot_case_right b).

Lemma mpk_fixed : in_subgroup (mul G2 0xB0B) ∧ point_eq (mul G2 0xB0B) Z2 = false.
Proof.
  split; [solve_subgroup|]. apply not_true_is_false. intros E%point_eq_spec.
  assert (0xB0B = 0); [|done]. apply inF_inj_small; [split; [done|reflexivity]..|].
  unfold Z2 in E. solve_point. rewrite <- E. ring.
Qed.

(** One case: it returns, and its verdict is the expected one. *)
Lemma case_right seed esk evk c name desc (mutate : bool) : schnorr.keygen seed = Ok (esk, evk) → coins_ok c →
  ∃ b, case esk evk (mul G2 0xB0B) c name desc [1; 1; 1] 3 5 1 mutate (negb mutate) = Ok b
    ∧ bc_verify b = negb mutate ∧ ballot_case_sound b.
Proof.
  intros Hk (Hsk & Hl & Hsim). unfold case. destruct (keygen_fixed _ Hsk) as (sk & vk & Hvk).
  rewrite Hvk, bind_Ok. destruct (g1_compressed vk) as [Hg Hlen]. rewrite Hg, bind_Ok.
  set (vkb := pt_to_compressed G1ops vk) in *.
  destruct (issued seed esk evk ELECTION PSEUDO vkb 5 1 (cc_att_k c)) as (sig & -> & Hls & Hver);
    [done|apply fill_len..|done|lia|lia|].
  rewrite bind_Ok. set (att := mkAttestation ELECTION PSEUDO vkb 5 sig V1 1).
  assert (Hok : ∀ w s, 0 <= w < 2 ^ 256 → len s = SCHNORR_BYTES →
    message_ok ELECTION PSEUDO (mkAttestation ELECTION PSEUDO vkb w s V1 1)).
  { intros w s Hw Hs. unfold message_ok, SCHNORR_BYTES in *. cbn [att_pseudonym att_vk att_weight att_nonce att_signature].
    rewrite Hlen, Hs. split_and!; try apply fill_len; try apply Hw; done. }
  destruct mpk_fixed as [Hm Hm0].
  pose proof (keygen_again _ _ _ Hvk) as Hsk'.
  destruct (build_ballot_succeeds (mul G2 0xB0B) ELECTION PSEUDO sk sk vk att [1; 1; 1] 3 3 (cc_votes c) (cc_budget_w c)
    (cc_schnorr_k c)) as [b Hb]; [done|lia|lia|lia|done|apply Hok; done|done|by repeat constructor|done|done|done|].
  assert (Hacc := build_ballot_accepted _ _ _ _ _ _ [1; 1; 1] 3 3 _ _ _ _ Hm Hm0 ltac:(lia) ltac:(lia) Hl Hb).
  assert (bb_vk b = vkb) as Hbvk by (pose proof (build_ballot_vk _ _ _ _ _ _ _ _ _ _ _ _ _ Hb); congruence).
  rewrite Hbvk in Hacc. change (len [1; 1; 1]) with 3. rewrite Hb, bind_Ok. clear Hb.
  rewrite (proj1 (g1_compressed evk)). destruct mutate; cbn [negb].
  - unfold _reweight. cbn [att_nonce att att_election_id att_pseudonym att_vk att_scheme].
    destruct (issued seed esk evk ELECTION PSEUDO vkb 99 1 (cc_mutate_k c)) as (sig' & -> & Hls' & Hver');
      [done|apply fill_len..|done|lia|lia|].
    rewrite !bind_Ok. eexists. split; [reflexivity|]. split; [done|].
    split; [exact Hacc|]. intros [?|Hs]; [done|]. split; [|exact Hver'].
    destruct (swapped_credential_refused _ _ _ _ _ _ _ _ _ _ _ Hacc (Hok 99 sig' ltac:(done) Hls') ltac:(done) Hs)
      as [r Hr]. by exists (Some r).
  - rewrite !bind_Ok. eexists. split; [reflexivity|]. split; [done|]. split; [exact Hacc|].
    intros _. split; [by exists None|exact Hver].
Qed.
End binding.

(** C40: The conformance vectors say what verification answers.  The script
    writes five attestation vectors, two of them to verify, and two ballot
    vectors, the first to verify.  Every signature verifies for what it was made
    over.  The vectors that are to verify do; the credentials with another
    weight, another nonce or another election, and the ballot whose credential
    was swapped for one of another weight, are refused, although that other
    credential is genuine, if the text that was signed and the text that is
    claimed do not have one challenge scalar under that signature. *)
Theorem conformance_vectors_right `{CryptoLaws} c1 c2 : coins_ok c1 → coins_ok c2 →
  ∃ s atts bs, att_cases = Ok (s, atts) ∧ ballot_cases c1 c2 = Ok bs
    ∧ (∃ files files', gen_attestation = Ok files ∧ gen_ballot c1 c2 = Ok files')
    ∧ ac_verify <$> atts = [true; false; false; false; true] ∧ bc_verify <$> bs = [true; false]
    ∧ Forall2 (att_case_sound s) atts att_signed ∧ Forall ballot_case_sound bs.
Proof.
  intros Hc1 Hc2. destruct attestation_cases as (s & atts & Ha & Hn & Hatts).
  destruct (keygen_fixed 0xE11A) as (esk & evk & Hk); [vm_compute; reflexivity|].
  destruct (case_right _ _ _ c1 "ballot_variantA_exact"
    "Full ballot: Variant A, exact, l=3, B=3, votes [1,1,1], weight 5. Must verify." false Hk Hc1) as (b1 & Hb1 & Hv1 & Hr1).
  destruct (case_right _ _ _ c2 "ballot_swapped_credential"
    "Credential swapped for another the issuer signed (weight 99). Verified under v1; must fail under v2, where the voter's signature covers the credential."
    true Hk Hc2) as (b2 & Hb2 & Hv2 & Hr2).
  assert (Hbs : ballot_cases c1 c2 = Ok [b1; b2]).
  { unfold ballot_cases. rewrite Hk, bind_Ok. cbn zeta. cbn [negb] in Hb1, Hb2. by rewrite Hb1, bind_Ok, Hb2, bind_Ok. }
  exists s, atts, [b1; b2]. split_and!; [done|done| |done|by cbn; rewrite Hv1, Hv2|done|].
  - unfold gen_attestation, gen_ballot. rewrite Ha, bind_Ok, Hbs, bind_Ok.
    assert (Ho : ∀ b, ∃ o, case_obj b = Ok o).
    { intros b. unfold case_obj, g2_to_compressed. rewrite to_compressed_Ok, bind_Ok. by eexists. }
    destruct (Ho b1) as [o1 E1], (Ho b2) as [o2 E2]. do 2 eexists. split; [reflexivity|].
    cbn [mapM]. by rewrite E1, E2.
  - apply Forall_cons_2; [exact Hr1|]. apply Forall_cons_2; [exact Hr2|apply Forall_nil_2].
Qed.

Module vectors_run.
#[local] Existing Instance concrete_crypto.

Definition coin (i : Z) : VoteCoins := mkVoteCoins (10 + i) (20 + i) [(31, 41); (32, 42); (33, 43); (34, 44)].
Definition coins (i : Z) : case_coins := mkCaseCoins (100 + i) (200 + i) [coin i; coin (i + 1); coin (i + 2)] 5 6 7.

Lemma coins_fine i : (i =? 0) || (i =? 1) = true → coins_ok (coins i).
Proof.
  intros Hi. assert (Hc : i = 0 ∨ i = 1) by lia. destruct Hc as [->| ->]; split;
    (done || (split; [done|by repeat constructor])).
Qed.

Definition atts_apart : bool :=
  match att_cases with
  | Ok (s, atts) => forallb (λ x, att_apart s x.1 x.2) (zip atts att_signed)
  | Err _ => false
  end.
Definition ballots_apart : bool :=
  match ballot_cases (coins 0) (coins 1) with Ok bs => forallb ballot_apart bs | Err _ => false end.

Lemma atts_apart_computed : atts_apart = true.
Proof. vm_compute. reflexivity. Qed.
Lemma ballots_apart_computed : ballots_apart = true.
Proof. vm_compute. reflexivity. Qed.

Lemma atts_separated s atts : att_cases = Ok (s, atts) → Forall2 (att_case_sound s) atts att_signed →
  Forall2 (λ c signed, att_separated s c signed ∧ att_case_right s c) atts att_signed.
Proof.
  intros Ha Hs. pose proof atts_apart_computed as Hap. unfold atts_apart in Hap. rewrite Ha in Hap.
  rewrite forallb_forall in Hap. generalize dependent att_signed. clear Ha. intros signed Hs Hap.
  induction Hs as [|c [[e w] n] atts signed [_ Hr] _ IH]; [constructor|].
  assert (Hc : att_separated s c (e, w, n)) by (apply apart_separated, (Hap (c, (e, w, n))); by left).
  constructor; [split; [exact Hc|apply Hr; by right]|]. apply IH. intros x Hx. apply Hap. by right.
Qed.

Lemma ballots_separated bs : ballot_cases (coins 0) (coins 1) = Ok bs → Forall ballot_case_sound bs →
  Forall (λ b, ballot_separated b ∧ ballot_case_right b) bs.
Proof.
  intros Hb Hs. pose proof ballots_apart_computed as Hap. unfold ballots_apart in Hap. rewrite Hb in Hap.
  rewrite forallb_forall in Hap. clear Hb. induction Hs as [|b bs [_ Hr] _ IH]; [constructor|].
  assert (Hc : ballot_separated b) by (apply apart_separated, (Hap b); by left).
  constructor; [split; [exact Hc|apply Hr; by right]|]. apply IH. intros x Hx. apply Hap. by right.
Qed.

(** The tampered weight, nonce and election and the swapped credential are
    separated from what was signed, so they are refused. *)
Lemma conformance_vectors_right_witness : ∃ s atts bs,
  att_cases = Ok (s, atts) ∧ ballot_cases (coins 0) (coins 1) = Ok bs
  ∧ Forall2 (λ c signed, att_separated s c signed ∧ att_case_right s c) atts att_signed
  ∧ Forall (λ b, ballot_separated b ∧ ballot_case_right b) bs
  ∧ ac_verify <$> atts = [true; false; false; false; true] ∧ bc_verify <$> bs = [true; false].
Proof.
  destruct (conformance_vectors_right (coins 0) (coins 1) (coins_fine 0 eq_refl) (coins_fine 1 eq_refl))
    as (s & atts & bs & Ha & Hb & _ & Hva & Hvb & Hatts & Hbs).
  exists s, atts, bs. split_and!; [exact Ha|exact Hb| | |exact Hva|exact Hvb].
  - apply atts_separated; [exact Ha|exact Hatts].
  - apply ballots_separated; [exact Hb|exact Hbs].
Defined.
End vectors_run.
