(* ===== verification/Fixture.v ===== *)
(** * The full-election fixture

    What [gen_flow] of scripts/gen_vectors.py writes: for any randomness whose
    keys are not zero, the ceremony completes, the forged ballot and the
    superseded one are excluded, and the shares of two keypers open the weighted
    votes of the other three. *)

From S2P Require Import Prelude Params Primality Field Points Transcript Elgamal Schnorr Proofs Recovery Dkg Types Config Ballot Admission Aggregation Codecs WriteAuth Port Keyper Election Vectors.

(** * The ceremony *)

Section ceremony.
Context `{CryptoLaws} (rng : Z → nat → Z).

Definition coeffs (q d : Z) : list Z := (λ j, random_scalar (rng d j)) <$> seq 0 (Z.to_nat q).
Definition dealings (n q : Z) : dict Z (list F) := (λ d, (d, inF <$> coeffs q d)) <$> seqZ 1 n.

Lemma dealings_keys n q : dict_keys (dealings n q) = seqZ 1 n.
Proof. unfold dict_keys, dealings. rewrite <- list_fmap_compose. apply list_fmap_id. Qed.

Lemma dealings_get n q d : 1 <= d <= n → dict_get (dealings n q) d = Some (inF <$> coeffs q d).
Proof.
  intros Hd. apply elem_dict_get; [rewrite dealings_keys; apply NoDup_seqZ|].
  apply list_elem_of_fmap. exists d. split; [done|]. apply elem_of_seqZ. lia.
Qed.

Lemma dealings_uniform n q : uniform (Z.to_nat q) (dealings n q).
Proof. apply Forall_fmap, Forall_forall. intros d _. cbn. unfold coeffs. by rewrite !length_fmap, length_seq. Qed.

Lemma dealings_commitments n q :
  (λ '(i, r), (i, r.2.1)) <$> ((λ i, (i, round1 init_state i n q (rng i))) <$> seqZ 1 n) = dealt (dealings n q).
Proof.
  unfold dealt, dealings. rewrite <- !list_fmap_compose. apply list_fmap_ext. intros j d _.
  cbn [compose fst snd round1]. f_equal. fold (coeffs q d). rewrite <- list_fmap_compose.
  apply list_fmap_ext. intros k c _. unfold G2. cbn. to_gmul. f_equal. ring.
Qed.

(** Everyone's round 2 accepts everyone's dealing. *)
Lemma honest_round2 n q i : 1 <= i <= n → 1 <= q →
  let received := (λ d, (d, eval_share (coeffs q d) i)) <$> seqZ 1 n in
  ∃ st cs, round2 (round1 init_state i n q (rng i)).1 (dealt (dealings n q)) received = Ok (st, (cs, mul G2 cs))
    ∧ dkg_combined_share st = Some cs ∧ dkg_public_key_share st = Some (mul G2 cs)
    ∧ inF cs = polyF (joint_poly (Z.to_nat q) (dealings n q)) (inF i).
Proof.
  intros Hi Hq received. set (st0 := (round1 init_state i n q (rng i)).1).
  pose proof (round2_spec st0 i (dealt (dealings n q)) received eq_refl) as Hr. cbv zeta in Hr.
  rewrite bool_decide_eq_true_2 in Hr.
  - assert (Hk : dict_keys received ≡ₚ dict_keys (dealings n q)).
    { rewrite dealings_keys. unfold dict_keys, received. rewrite <- list_fmap_compose.
      by rewrite (list_fmap_ext _ id), list_fmap_id by done. }
    destruct (round2_share st0 i q (dealings n q) received _ _ _ eq_refl eq_refl
      ltac:(rewrite dealings_keys; apply NoDup_seqZ) Hk Hr) as (_ & Hcs & _).
    do 2 eexists. split_and!; [exact Hr|done|done|exact Hcs].
  - match goal with |- (filter ?P ?l).*1 = [] => assert (filter P l = []) as ->; [|done] end.
    apply elem_of_nil_inv. intros [d s] [Hf (d' & [= -> ->] & Hd%elem_of_seqZ)%list_elem_of_fmap]%list_elem_of_filter.
    revert Hf. unfold faulty. cbn [fst snd]. rewrite dealt_get, dealings_get by lia.
    rewrite (proj2 (verify_share_spec _ _ _) (eval_share_poly _ _)). unfold len, coeffs. rewrite !length_fmap, length_seq.
    change (dkg_quorum st0) with (Some q). by rewrite Z2Nat.id, bool_decide_eq_true_2 by (done || lia).
Qed.
(** A keyper that holds the value at [i] of the committee's polynomial. *)
Definition completes (p : list F) (states : dict Z KeyperDKGState) (i : Z) : Prop :=
  ∃ st cs, dict_get states i = Some st ∧ dkg_combined_share st = Some cs
    ∧ dkg_public_key_share st = Some (mul G2 cs) ∧ inF cs = polyF p (inF i).

Lemma mapM_states {V} (f : Z * V → result (Z * KeyperDKGState)) (P : Z → KeyperDKGState → Prop) (l : list (Z * V)) :
  NoDup l.*1 → (∀ i v, (i, v) ∈ l → ∃ st, f (i, v) = Ok (i, st) ∧ P i st) →
  ∃ states, mapM f l = Ok states ∧ ∀ i, i ∈ l.*1 → ∃ st, dict_get states i = Some st ∧ P i st.
Proof.
  induction l as [|[i v] l IH]; intros Hn Hf.
  - exists []. split; [done|]. intros i Hi. by apply not_elem_of_nil in Hi.
  - destruct (Hf i v) as (st & Hst & HP); [left|]. rewrite fmap_cons in Hn. apply NoDup_cons in Hn as [Hi Hn].
    destruct IH as (states & Hm & Hs); [done|intros; apply Hf; by right|].
    exists ((i, st) :: states). split; [cbn [mapM]; by rewrite Hst, bind_Ok, Hm|].
    intros j [->|Hj]%elem_of_cons; cbn [dict_get fst].
    + exists st. by rewrite decide_True by done.
    + rewrite decide_False by (intros ->; done). by apply Hs.
Qed.

Lemma run_dkg_right n q : 1 <= q → let p := joint_poly (Z.to_nat q) (dealings n q) in
  ∃ states, _run_dkg rng n q = Ok (gmul (polyF p F0), (λ i, (i, gmul (polyF p (inF i)))) <$> seqZ 1 n, states)
    ∧ ∀ i, 1 <= i <= n → completes p states i.
Proof.
  intros Hq p. unfold _run_dkg. rewrite dealings_commitments. set (l := (λ i, (i, round1 _ _ _ _ _)) <$> seqZ 1 n).
  assert (Hl : l.*1 = seqZ 1 n).
  { unfold l. rewrite <- list_fmap_compose. by rewrite (list_fmap_ext _ id), list_fmap_id by done. }
  edestruct (mapM_states (λ '(i, r),
    received ← mapM (λ '(d, rd), match dict_get rd.2.2 i with Some sh => Ok (d, sh) | None => Err KeyError end) l;
    '(st, _) ← round2 r.1 (dealt (dealings n q)) received;
    Ok (i, st)) (λ i st, ∃ cs, dkg_combined_share st = Some cs ∧ dkg_public_key_share st = Some (mul G2 cs)
      ∧ inF cs = polyF p (inF i)) l) as (states & -> & Hs).
  - rewrite Hl. apply NoDup_seqZ.
  - intros i r Hr. apply list_elem_of_fmap in Hr as (i' & [= -> ->] & Hi%elem_of_seqZ).
    assert (mapM (λ '(d, rd), match dict_get rd.2.2 i' with Some sh => Ok (d, sh) | None => Err KeyError end) l
      = Ok ((λ d, (d, eval_share (coeffs q d) i')) <$> seqZ 1 n)) as ->.
    { unfold l. apply mapM_Ok, Forall2_fmap_2, Forall_Forall2_diag, Forall_forall. intros d _.
      cbn [round1 snd]. rewrite seqZ_lookup_dict by lia. done. }
    rewrite bind_Ok. destruct (honest_round2 n q i') as (st & cs & -> & Hst); [lia|done|].
    exists st. split; [done|]. by exists cs.
  - rewrite bind_Ok, derive_joint_mpk_spec, bind_Ok
      by (done || apply dealings_uniform || (rewrite dealings_keys; apply NoDup_seqZ)).
    rewrite (mapM_fmap_Ok _ (λ i, (i, gmul (polyF p (inF i))))).
    + rewrite bind_Ok. exists states. split; [done|]. intros i Hi.
      destruct (Hs i) as (st & Hst & cs & ?); [rewrite Hl; apply elem_of_seqZ; lia|]. by exists st, cs.
    + intros i _. by rewrite derive_mpk_share_spec by (done || apply dealings_uniform || (rewrite dealings_keys; apply NoDup_seqZ)).
Qed.

(** The joint key is not the identity when the dealers' secrets do not cancel. *)
Lemma joint_secret n q : 1 <= q →
  polyF (joint_poly (Z.to_nat q) (dealings n q)) F0 = inF (zsum ((λ d, random_scalar (rng d 0)) <$> seqZ 1 n)).
Proof.
  intros Hq. rewrite joint_poly_eval by apply dealings_uniform. rewrite inF_zsum. unfold dealings.
  rewrite <- !list_fmap_compose. f_equal. apply list_fmap_ext. intros j d _. cbn [compose snd]. unfold coeffs.
  destruct (Z.to_nat q) as [|k] eqn:E; [lia|]. cbn [seq fmap list_fmap]. rewrite polyF_cons. ring.
Qed.
End ceremony.

(** * The ballots *)

(** Flipping the last bit of a signature changes its scalar only. *)
Lemma flip_last_app b x : flip_last (b ++ [x]) = b ++ [byte_of (Z.lxor (byte_val x) 1)].
Proof. unfold flip_last. rewrite reverse_snoc, reverse_cons, reverse_involutive. done. Qed.

Lemma flip_byte x : byte_val (byte_of (Z.lxor (byte_val x) 1)) ≠ byte_val x.
Proof. by destruct x; vm_compute. Qed.

Section ballots.
Context `{CryptoLaws}.

Lemma flipped_decodes sig R s R' s' : schnorr.decode sig = Ok (R, s) → schnorr.decode (flip_last sig) = Ok (R', s') →
  R' = R ∧ s' ≠ s.
Proof.
  intros Hd Hd'. pose proof (schnorr.decode_Ok _ _ _ Hd) as (_ & _ & Hl). unfold len, SCHNORR_BYTES in Hl.
  destruct (exists_last (l := sig)) as (b & x & ->); [by intros ->|]. rewrite length_app in Hl. cbn in Hl.
  rewrite flip_last_app in Hd'. unfold schnorr.decode in *.
  apply bind_Ok_inv in Hd as (u & _ & Hd). apply bind_Ok_inv in Hd' as (u' & _ & Hd').
  rewrite !take_app_le in * by lia. rewrite !drop_app_le in * by lia.
  apply bind_Ok_inv in Hd as (P & HP & Hd). rewrite HP, bind_Ok in Hd'.
  apply bind_Ok_inv in Hd as (y & Hy%scalar_from_bytes_Ok & [= <- <-]).
  apply bind_Ok_inv in Hd' as (y' & Hy'%scalar_from_bytes_Ok & [= <- <-]). split; [done|].
  destruct Hy as (_ & <- & _), Hy' as (_ & <- & _). rewrite !from_bytes_snoc. pose proof (flip_byte x). lia.
Qed.

(** A ballot with another signature scalar is refused, whatever the hashes. *)
Lemma flipped_refused mpk eid ps vkb ctb zk sig att nc budget :
  verify_ballot_crypto mpk eid ps vkb ctb zk sig att nc budget = Ok (true, None) →
  ∃ reason, verify_ballot_crypto mpk eid ps vkb ctb zk (flip_last sig) att nc budget = Ok (false, Some reason)
    ∧ reason ∈ ["MALFORMED"; "INVALID_SIGNATURE_PRE_V2"; "INVALID_SIGNATURE"].
Proof.
  intros (vk & cts & rp & e_b & z_b & R & s & pre & Hvk & Hz & _ & _ & _ & _ & _ & _ & Hsig & Hpre & Hv & Hall)%verify_accepted_inv.
  rewrite Hall. clear Hall. destruct (schnorr.decode (flip_last sig)) as [[R' s']|] eqn:Hsig'; [|eexists; split; [done|left]].
  destruct (flipped_decodes _ _ _ _ _ Hsig Hsig') as [-> Hne].
  pose proof (canonical_ballot_message_Ok _ _ _ _ _ _ Hpre) as (_ & _ & _ & _ & _ & (Hlc & Hlz & _) & _).
  assert (Hverify : ∀ msg, ∃ ok, schnorr.verify vk msg R s' = Ok ok).
  { intros msg. unfold schnorr.verify. rewrite Hz, schnorr._challenge_Ok. by eexists. }
  rewrite Hpre, bind_Ok. destruct (Hverify (keccak pre)) as [[] Hv']; rewrite Hv', bind_Ok.
  - exfalso. apply Hne. apply from_compressed_Ok in Hvk as [Hvk _]. pose proof (schnorr.decode_Ok _ _ _ Hsig) as (HR & Hs & _).
    pose proof (schnorr.decode_Ok _ _ _ Hsig') as (_ & Hs' & _).
    pose proof (schnorr.verify_unique vk _ R s s' Hvk HR Hv Hv') as E. apply inF_inj_small; [done..|]. symmetry. by apply eqq_F.
  - unfold _pre_v1_ballot_message. rewrite !to_bytes_be_small by (split; [lia|cbn; lia]). rewrite !bind_Ok.
    match goal with |- context [schnorr.verify vk ?m R s'] => destruct (Hverify m) as [[] ->] end;
      (eexists; split; [done|]); [right; left|do 2 right; left].
Qed.

Lemma build_ballot_cts mpk eid ps sk vk att votes nc budget coins bw k b :
  build_ballot mpk eid ps sk vk att votes nc budget coins bw k = Ok b →
  bb_ciphertexts b = (λ ct, (pt_to_compressed G2ops ct.1, pt_to_compressed G2ops ct.2)) <$> ballot_cts mpk votes coins.
Proof.
  unfold build_ballot. fold (ballot_cts mpk votes coins). intros Hb.
  do 6 (apply bind_Ok_inv in Hb as (? & _ & Hb); try match type of Hb with match ?x with pair _ _ => _ end = _ => destruct x end).
  repeat first [ match type of Hb with match ?x with pair _ _ => _ end = _ => destruct x end
               | progress cbv zeta in Hb
               | apply bind_Ok_inv in Hb as (? & ? & Hb) ].
  injection Hb as <-. cbn [bb_ciphertexts].
  match goal with Hm : mapM _ (ballot_cts _ _ _) = Ok _ |- _ => rename Hm into Hctb end.
  rewrite (mapM_fmap_Ok _ (λ ct, (pt_to_compressed G2ops ct.1, pt_to_compressed G2ops ct.2))) in Hctb
    by (intros; unfold g2_to_compressed; by rewrite !to_compressed_Ok).
  by apply Ok_inj in Hctb.
Qed.

Lemma ballot_holds mpk votes coins : in_subgroup mpk → length coins = length votes →
  holds_votes mpk ((λ ct, mkWireCiphertext (pt_to_compressed G2ops ct.1) (pt_to_compressed G2ops ct.2))
                   <$> ballot_cts mpk votes coins) votes.
Proof.
  intros Hm. revert coins. induction votes as [|v votes IH]; intros [|co coins] Hl; try done; [constructor|].
  cbn [ballot_cts zip_with fmap list_fmap]. constructor; [|apply IH; by injection Hl].
  eexists _, _. split; [apply decode_ct_compressed; by apply encrypt_subgroup|reflexivity].
Qed.

(** What validation says of a ballot of the fixture. *)
Definition verdict (tamper : bool) (r : option ExclusionReason) : Prop :=
  if tamper then r = Some MALFORMED ∨ r = Some INVALID_SIGNATURE else r = None.

Context (seed esk : Z) (evk : pt G1ops) (mpk : pt G2ops) (Hk : schnorr.keygen seed = Ok (esk, evk)).
Context (Hm : in_subgroup mpk) (Hm0 : point_eq mpk Z2 = false).
#[local] Abbreviation config := (flow_config (pt_to_compressed G1ops evk)).

Definition flow_envelope (ps vkb : bytes) (cts : list WireCiphertext) (zk sig asig : bytes) (w nonce : Z) : BallotEnvelope :=
  mkBallotEnvelope ELECTION_ID ps vkb cts zk sig (mkAttestation ELECTION_ID ps vkb w asig V1 nonce).

Lemma flow_ballot c votes ps w nonce tamper : coins_ok c → len ps = 32 → length votes = 3%nat →
  Forall (λ v, 0 <= v <= 3) votes → zsum votes = 3 → 1 <= w < 2 ^ 256 → 1 <= nonce < 2 ^ 256 →
  ∃ vkb cts zk sig asig, let env := flow_envelope ps vkb cts zk sig asig w nonce in
    make_ballot esk evk mpk c votes ps w nonce tamper = Ok env ∧ holds_votes mpk cts votes
    ∧ ∀ n, ∃ r, validate_ballot (mkStoredBallot n env None) config mpk = Ok r ∧ verdict tamper r.
Proof.
  intros (Hsk & Hl & Hsim) Hps Hv3 Hv Hsum Hw Hn. unfold make_ballot.
  destruct (keygen_fixed _ Hsk) as (sk & vk & Hvk). rewrite Hvk, bind_Ok.
  destruct (g1_compressed vk) as [Hg Hlen]. rewrite Hg, bind_Ok. set (vkb := pt_to_compressed G1ops vk) in *.
  destruct (issued seed esk evk ELECTION_ID ps vkb w nonce (cc_att_k c)) as (asig & -> & Hls & Hver);
    [done|apply fill_len|done|done|lia|lia|].
  rewrite bind_Ok. set (att := mkAttestation ELECTION_ID ps vkb w asig V1 nonce).
  assert (Hok : message_ok ELECTION_ID ps att).
  { unfold message_ok, SCHNORR_BYTES in *. cbn [att att_pseudonym att_vk att_weight att_nonce att_signature].
    rewrite Hlen, Hls. split_and!; try apply fill_len; try lia; done. }
  destruct (build_ballot_succeeds mpk ELECTION_ID ps sk sk vk att votes 3 3 (cc_votes c) (cc_budget_w c)
    (cc_schnorr_k c)) as [b Hb];
    [done|lia|lia|lia|by eapply keygen_again|done|unfold len; lia|done|done|lia|done|].
  rewrite Hb, bind_Ok.
  pose proof (build_ballot_accepted _ _ _ _ _ _ votes 3 3 (cc_votes c) _ _ _ Hm Hm0 ltac:(lia) ltac:(lia) ltac:(lia) Hb) as Hacc.
  assert (bb_vk b = vkb) as Hbvk by (pose proof (build_ballot_vk _ _ _ _ _ _ _ _ _ _ _ _ _ Hb); congruence).
  pose proof (build_ballot_cts _ _ _ _ _ _ _ _ _ _ _ _ _ Hb) as Hcts. rewrite Hbvk in Hacc. clear Hb.
  exists vkb, ((λ '(c1, c2), mkWireCiphertext c1 c2) <$> bb_ciphertexts b), (bb_zk_proof b),
    (if tamper then flip_last (bb_voter_signature b) else bb_voter_signature b), asig.
  cbv zeta. split; [done|]. split.
  { rewrite Hcts, <- list_fmap_compose. apply ballot_holds; [done|lia]. }
  intros n. unfold validate_ballot, flow_envelope.
  cbn [envelope submitted_at env_attestation env_election_id env_pseudonym env_vk env_ciphertexts env_zk_proof
       env_voter_signature att_election_id att_pseudonym att_vk].
  rewrite (bool_decide_eq_true_2 (ELECTION_ID = election_id config)) by done.
  rewrite (bool_decide_eq_true_2 (ps = ps)), (bool_decide_eq_true_2 (vkb = vkb)) by done. cbn [negb orb].
  assert (verify_attestation (eligibility_key config) att (election_id config) = true) as Hatt.
  { unfold verify_attestation. cbn [att att_election_id att_weight att_scheme att_pseudonym att_vk att_nonce att_signature].
    rewrite (bool_decide_eq_true_2 (ELECTION_ID = election_id config)) by done.
    rewrite (proj2 (Z.ltb_ge _ _)) by lia. exact Hver. }
  fold att. rewrite Hatt. cbn [negb].
  assert ((λ ct, (c1 ct, c2 ct)) <$> ((λ '(c1, c2), mkWireCiphertext c1 c2) <$> bb_ciphertexts b) = bb_ciphertexts b) as ->.
  { rewrite <- list_fmap_compose. rewrite (list_fmap_ext _ id), list_fmap_id; [done|]. by intros ? [] _. }
  change (num_candidates config) with 3. change (budget config) with 3. destruct tamper; cbn [verdict].
  - destruct (flipped_refused _ _ _ _ _ _ _ _ _ _ Hacc) as (r & -> & Hr). rewrite bind_Ok. cbn [negb].
    repeat (apply elem_of_cons in Hr as [->|Hr]); [eexists; split; [reflexivity|]; auto..|by apply not_elem_of_nil in Hr].
  - rewrite Hacc, bind_Ok. eexists. by split.
Qed.

(** Admission of the five ballots: the first vote of the voter that voted again
    and the forged ballot are excluded. *)
Definition five (b0 b1 b2 b3 b4 : BallotEnvelope) : list StoredBallot :=
  imap (λ i b, mkStoredBallot (Z.of_nat i) b None) [b0; b1; b2; b3; b4].

Definition P (x : Z) : bytes := fill x 32.

Lemma flow_admission v0 c0 z0 s0 a0 v1 c1 z1 s1 a1 v2 c2 z2 s2 a2 v3 c3 z3 s3 a3 v4 c4 z4 s4 a4 r :
  let b0 := flow_envelope (P 161) v0 c0 z0 s0 a0 2 1 in let b1 := flow_envelope (P 162) v1 c1 z1 s1 a1 3 1 in
  let b2 := flow_envelope (P 163) v2 c2 z2 s2 a2 1 1 in let b3 := flow_envelope (P 161) v3 c3 z3 s3 a3 2 2 in
  let b4 := flow_envelope (P 164) v4 c4 z4 s4 a4 1 1 in
  let valid n b := validate_ballot (mkStoredBallot n b None) config mpk in
  valid 0 b0 = Ok None → valid 1 b1 = Ok None → valid 2 b2 = Ok (Some r) → valid 3 b3 = Ok None → valid 4 b4 = Ok None →
  admit_ballots (five b0 b1 b2 b3 b4) config (pt_to_compressed G2ops mpk)
  = Ok (mkAdmissionResult [mkAdmittedBallot 1 b1 3; mkAdmittedBallot 3 b3 2; mkAdmittedBallot 4 b4 1]
          [mkExclusion 0 DUPLICATE_PSEUDONYM; mkExclusion 2 r] 6).
Proof.
  intros b0 b1 b2 b3 b4 valid H0' H1 H2 H3 H4. unfold admit_ballots, g2_from_compressed.
  rewrite from_to_compressed, bind_Ok by done. unfold valid in *. clear valid.
  change (five b0 b1 b2 b3 b4) with [mkStoredBallot 0 b0 None; mkStoredBallot 1 b1 None; mkStoredBallot 2 b2 None;
    mkStoredBallot 3 b3 None; mkStoredBallot 4 b4 None]. cbn [foldM].
  assert (Hstep : ∀ st sb o, validate_ballot sb config mpk = Ok o → validate_step config mpk st sb
    = Ok (match o with None => (st.1, st.2 ++ [sb]) | Some x => (st.1 ++ [mkExclusion (sequence_number sb) x], st.2) end)).
  { intros [excl vs] sb o Ho. unfold validate_step. by rewrite Ho, bind_Ok. }
  rewrite (Hstep _ _ _ H0'), bind_Ok, (Hstep _ _ _ H1), bind_Ok, (Hstep _ _ _ H2), bind_Ok, (Hstep _ _ _ H3), bind_Ok,
    (Hstep _ _ _ H4), !bind_Ok.
  vm_compute. reflexivity.
Qed.
End ballots.

(** * Decryption *)

Section decryption.
Context `{CryptoLaws} (p : list F) (n : Z) (states : dict Z KeyperDKGState) (agg : AggregateArtifact).
Context (elig_key : bytes) (Hn : n < 2 ^ 16) (Hl : len (aggregates agg) <= 2 ^ 16).
Context (Hd : Forall (λ ct, is_ok (decode_ct ct) = true) (aggregates agg)).
#[local] Abbreviation committee := ((λ i, (i, gmul (polyF p (inF i)))) <$> seqZ 1 n).
#[local] Abbreviation pks := ((λ i, pt_to_compressed G2ops (gmul (polyF p (inF i)))) <$> seqZ 1 n).

(** A keyper that completed the ceremony makes a share that recovery takes. *)
Lemma flow_share_good w i : 1 <= i <= n → completes p states i →
  ∃ share, flow_share committee states agg w i = Ok share ∧ keyper_index share = i
    ∧ sound_share (flow_config elig_key) pks p (aggregates agg) share
    ∧ full_share (flow_config elig_key) pks (aggregates agg) share.
Proof.
  intros Hi (st & cs & Hst & Hcs & Hpk & Hp). set (k := mkKeyperService i (mkSigner []) st).
  assert (Hk : holds_share k cs) by (by split).
  assert (Hg : gmul (polyF p (inF i)) = mul G2 cs) by (rewrite <- Hp; unfold G2; to_gmul; f_equal; ring).
  destruct (entries_succeed k ELECTION_ID (aggregates agg) w cs) as (es & Hes & _);
    [done|apply fill_len|cbn; lia|done|done|].
  exists (mkDecryptionShareEnvelope ELECTION_ID i es). split; [|split; [done|]].
  - unfold flow_share, item. rewrite Hst, seqZ_lookup_dict, !bind_Ok by done. cbv beta. rewrite Hg.
    match goal with |- (mapM ?f ?l ≫= _) = _ => assert (mapM f l = Ok es) as Hes' end; [|by rewrite Hes', bind_Ok].
    apply mapM_Ok. apply mapM_Ok in Hes. eapply Forall2_impl; [exact Hes|]. intros [j ct] e He.
    unfold decryption_entry in He. cbn [k k_dkg k_index] in He. rewrite Hcs, Hpk in He. rewrite Hcs.
    exact He.
  - apply (honest_share_good _ _ _ _ _ cs); [|done]. intros j ct C1 C2 Hj Hct.
    eapply (honest_entries_count k); [exact Hes|done|done| | | |done|done]; cbn [k k_index].
    + unfold len. rewrite length_fmap, length_seqZ. lia.
    + rewrite list_lookup_fmap, lookup_seqZ_lt by lia. reflexivity.
    + replace (1 + Z.of_nat (Z.to_nat (i - 1))) with i by lia. rewrite Hg. apply from_to_compressed.
      unfold G2. solve_subgroup.
Qed.
End decryption.

(** * The fixture *)

Section fixture.
Context `{CryptoLaws}.

Lemma flow_config_valid elig_key : valid_config (flow_config elig_key).
Proof. split; vm_compute; reflexivity. Qed.

(** Two shares of the committee open the aggregate of the admitted ballots. *)
Lemma flow_recovers p states elig_key (w : Z → nat → Z) adm bs : let config := flow_config elig_key in
  length p = 2%nat → (∀ i, 1 <= i <= 3 → completes p states i) →
  admitted adm = bs.*1 → well_voted config (gmul (polyF p F0)) bs →
  bsgs_bound config (zsum_with (λ bv, scaled_weight (ab_weight bv.1) (scale config)) bs) < CURVE_ORDER →
  ∃ agg shares r, build_aggregate_artifact config adm = Ok agg
    ∧ mapM (λ i, flow_share ((λ i, (i, gmul (polyF p (inF i)))) <$> seqZ 1 3) states agg (w i) i) [1; 2] = Ok shares
    ∧ recover_result config agg shares ((λ i, pt_to_compressed G2ops (gmul (polyF p (inF i)))) <$> seqZ 1 3) 2 None
      = Ok (Some r)
    ∧ totals r = totals_of config bs ∧ agg_admitted agg = ab_sequence_number <$> admitted adm
    ∧ agg_exclusions agg = exclusions adm.
Proof.
  intros config Hp Hst Hadm Hwell Hbound.
  destruct (well_voted_totals _ _ bs Hwell ltac:(done)) as [Htr _]. cbv zeta in Htr.
  destruct (build_aggregate_encrypts (gmul (polyF p F0)) (gmul_subgroup _) config bs adm Hadm)
    as (agg & Hagg & Htot & Hv).
  { eapply Forall_impl; [exact Hwell|]. by intros bv (? & ? & _). }
  fold (totals_of config bs) in Hv.
  assert (Hl : len (aggregates agg) = 3) by (unfold len; by rewrite (Forall2_length _ _ _ Hv)).
  assert (Hd : Forall (λ ct, is_ok (decode_ct ct) = true) (aggregates agg)).
  { apply Forall_forall. intros ct [j Hj]%list_elem_of_lookup.
    destruct (Forall2_lookup_l _ _ _ _ _ Hv Hj) as (v & _ & c & r & -> & _). done. }
  destruct (flow_share_good p 3 states agg elig_key ltac:(done) ltac:(lia) Hd (w 1) 1) as (s1 & Hs1 & Hi1 & So1 & Fu1);
    [lia|by apply Hst|].
  destruct (flow_share_good p 3 states agg elig_key ltac:(done) ltac:(lia) Hd (w 2) 2) as (s2 & Hs2 & Hi2 & So2 & Fu2);
    [lia|by apply Hst|].
  rewrite <- Htot in Hbound, Htr.
  edestruct (recover_correct config ((λ i, pt_to_compressed G2ops (gmul (polyF p (inF i)))) <$> seqZ 1 3) [s1; s2]
    (fill_len _ _) ltac:(done) 2 (gmul (polyF p F0)) p ltac:(done) ltac:(lia) eq_refl ltac:(cbn; rewrite Hi1, Hi2; apply (bool_decide_unpack _); vm_compute; exact I)
    agg (totals_of config bs) None Hbound) as [idx Hr]; [done|exact Hv|exact Htr|done|lia| |].
  - intros j ct Hj. apply (quorum_shares_sound _ _ p (aggregates agg) [s1; s2] [1; 2]); [by repeat constructor|done| |vm_compute; done].
    intros i Hi. apply elem_of_cons in Hi as [->|Hi]; [exists s1; split_and!; [left|done|done]|].
    apply list_elem_of_singleton in Hi as ->. exists s2; split_and!; [right; left|done|done].
  - exists agg, [s1; s2]. eexists. split_and!; [done| |exact Hr|done|..].
    + cbn [mapM]. by rewrite Hs1, bind_Ok, Hs2.
    + unfold build_aggregate_artifact in Hagg. apply bind_Ok_inv in Hagg as (pts & _ & Hagg).
      by apply bind_Ok_inv in Hagg as (cts & _ & <-%Ok_inj).
    + unfold build_aggregate_artifact in Hagg. apply bind_Ok_inv in Hagg as (pts & _ & Hagg).
      by apply bind_Ok_inv in Hagg as (cts & _ & <-%Ok_inj).
Qed.

(** The three admitted ballots with their votes. *)
Lemma three_votes mpk elig_key v1 c1 z1 s1 a1 v3 c3 z3 s3 a3 v4 c4 z4 s4 a4 : let config := flow_config elig_key in
  let b1 := flow_envelope (P 162) v1 c1 z1 s1 a1 3 1 in let b3 := flow_envelope (P 161) v3 c3 z3 s3 a3 2 2 in
  let b4 := flow_envelope (P 164) v4 c4 z4 s4 a4 1 1 in
  let bs := [(mkAdmittedBallot 1 b1 3, [0; 3; 0]); (mkAdmittedBallot 3 b3 2, [0; 0; 3]); (mkAdmittedBallot 4 b4 1, [1; 1; 1])] in
  holds_votes mpk c1 [0; 3; 0] → holds_votes mpk c3 [0; 0; 3] → holds_votes mpk c4 [1; 1; 1] →
  well_voted config mpk bs ∧ totals_of config bs = [1; 10; 7]
  ∧ bsgs_bound config (zsum_with (λ bv, scaled_weight (ab_weight bv.1) (scale config)) bs) = 18.
Proof.
  intros config b1 b3 b4 bs H1 H3 H4. split; [|split; vm_compute; reflexivity].
  assert (Hn : ∀ cts vs, holds_votes mpk cts vs → length vs = 3%nat → len cts = 3).
  { intros cts vs Hv Hl. apply Forall2_length in Hv. unfold len. lia. }
  repeat apply Forall_cons_2; [..|apply Forall_nil_2]; (split; [assumption|]; split; [by eapply Hn; [eassumption|]|]);
    (split; [cbn; lia|split; [by repeat constructor|done]]).
Qed.
(** The five ballots are made, and three of them are admitted. *)
Lemma flow_five seed esk evk mpk coins : schnorr.keygen seed = Ok (esk, evk) → in_subgroup mpk → point_eq mpk Z2 = false →
  (∀ k, (k < 5)%nat → coins_ok (coins k)) → let config := flow_config (pt_to_compressed G1ops evk) in
  let make k := make_ballot esk evk mpk (coins k) in
  ∃ b0 b1 b2 b3 b4 r adm bs, make 0%nat [3; 0; 0] (P 161) 2 1 false = Ok b0 ∧ make 1%nat [0; 3; 0] (P 162) 3 1 false = Ok b1
    ∧ make 2%nat [1; 1; 1] (P 163) 1 1 true = Ok b2 ∧ make 3%nat [0; 0; 3] (P 161) 2 2 false = Ok b3
    ∧ make 4%nat [1; 1; 1] (P 164) 1 1 false = Ok b4 ∧ (r = MALFORMED ∨ r = INVALID_SIGNATURE)
    ∧ admit_ballots (five b0 b1 b2 b3 b4) config (pt_to_compressed G2ops mpk) = Ok adm
    ∧ exclusions adm = [mkExclusion 0 DUPLICATE_PSEUDONYM; mkExclusion 2 r]
    ∧ ab_sequence_number <$> admitted adm = [1; 3; 4] ∧ admitted adm = bs.*1
    ∧ well_voted config mpk bs ∧ totals_of config bs = [1; 10; 7]
    ∧ bsgs_bound config (zsum_with (λ bv, scaled_weight (ab_weight bv.1) (scale config)) bs) = 18.
Proof.
  intros Hk Hm Hm0 Hc config make.
  assert (Hb : ∀ k votes x w nonce tamper, (k < 5)%nat → length votes = 3%nat → Forall (λ v, 0 <= v <= 3) votes →
    zsum votes = 3 → 1 <= w < 2 ^ 256 → 1 <= nonce < 2 ^ 256 → _) by
    (intros k votes x w' nonce tamper Hk5 Hv3 Hv Hs Hw Hn;
     exact (flow_ballot seed esk evk mpk Hk Hm Hm0 (coins k) votes (P x) w' nonce tamper (Hc k Hk5) (fill_len x 32) Hv3 Hv Hs Hw Hn)).
  destruct (Hb 0%nat [3; 0; 0] 161 2 1 false) as (v0 & c0 & z0 & s0 & a0 & E0 & _ & V0); [lia|done|by repeat constructor|done|lia|lia|].
  destruct (Hb 1%nat [0; 3; 0] 162 3 1 false) as (v1 & c1 & z1 & s1 & a1 & E1 & W1 & V1); [lia|done|by repeat constructor|done|lia|lia|].
  destruct (Hb 2%nat [1; 1; 1] 163 1 1 true) as (v2 & c2 & z2 & s2 & a2 & E2 & _ & V2); [lia|done|by repeat constructor|done|lia|lia|].
  destruct (Hb 3%nat [0; 0; 3] 161 2 2 false) as (v3 & c3 & z3 & s3 & a3 & E3 & W3 & V3); [lia|done|by repeat constructor|done|lia|lia|].
  destruct (Hb 4%nat [1; 1; 1] 164 1 1 false) as (v4 & c4 & z4 & s4 & a4 & E4 & W4 & V4); [lia|done|by repeat constructor|done|lia|lia|].
  destruct (V0 0) as (? & X0 & ->), (V1 1) as (? & X1 & ->), (V2 2) as (r2 & X2 & Hr2), (V3 3) as (? & X3 & ->), (V4 4) as (? & X4 & ->).
  assert (∃ r, r2 = Some r ∧ (r = MALFORMED ∨ r = INVALID_SIGNATURE)) as (r & -> & Hr) by (destruct Hr2 as [->| ->]; eauto).
  do 5 eexists. exists r. do 2 eexists. split; [exact E0|]. split; [exact E1|]. split; [exact E2|]. split; [exact E3|]. split; [exact E4|].
  split; [exact Hr|].
  split; [exact (flow_admission evk mpk Hm v0 c0 z0 s0 a0 v1 c1 z1 s1 a1 v2 c2 z2 s2 a2 v3 c3 z3 s3 a3 v4 c4 z4 s4 a4 r X0 X1 X2 X3 X4)|].
  split; [done|]. split; [done|].
  destruct (three_votes mpk (pt_to_compressed G1ops evk) v1 c1 z1 s1 a1 v3 c3 z3 s3 a3 v4 c4 z4 s4 a4 W1 W3 W4) as (Hwell & Htot & Hbd).
  split; [|split; [exact Hwell|split; [exact Htot|exact Hbd]]]. reflexivity.
Qed.
End fixture.

(** The full-election fixture replays.  Whatever the generator draws, as long
    as the dealers' secrets do not cancel and no key is zero, it writes an
    election in which the forged ballot and the voter's first ballot are excluded
    and the shares of two keypers recover the totals 1, 10 and 7, the weighted
    votes of the three ballots that count; and recomputing the aggregate and the
    result from the stored parts gives the stored ones. *)
Theorem full_election_fixture_replays `{CryptoLaws} rng seed coins w :
  zsum ((λ d, random_scalar (rng d 0%nat)) <$> seqZ 1 3) mod CURVE_ORDER ≠ 0 →
  (seed mod CURVE_ORDER =? 0) = false → (∀ k, (k < 5)%nat → coins_ok (coins k)) →
  ∃ f adm reason, flow rng seed coins w = Ok f ∧ is_ok (gen_flow rng seed coins w) = true
    ∧ totals (fl_result f) = [1; 10; 7]
    ∧ agg_admitted (fl_aggregate f) = [1; 3; 4]
    ∧ agg_exclusions (fl_aggregate f) = [mkExclusion 0 DUPLICATE_PSEUDONYM; mkExclusion 2 reason]
    ∧ (reason = MALFORMED ∨ reason = INVALID_SIGNATURE)
    ∧ admit_ballots (fl_ballots f) (fl_config f) (fl_mpk f) = Ok adm
    ∧ build_aggregate_artifact (fl_config f) adm = Ok (fl_aggregate f)
    ∧ recover_result (fl_config f) (fl_aggregate f) (fl_shares f) (fl_committee f) 2 None = Ok (Some (fl_result f)).
Proof.
  intros Hsec Hseed Hc. destruct (run_dkg_right rng 3 2 ltac:(done)) as (states & Hdkg & Hst).
  pose proof (joint_secret rng 3 2 ltac:(done)) as Hj. pose proof (dealings_uniform rng 3 2) as Hu.
  pose proof (length_joint_poly _ _ Hu) as Hlp. set (p := joint_poly (Z.to_nat 2) (dealings rng 3 2)) in *.
  destruct (keygen_fixed _ Hseed) as (esk & evk & Hk). set (mpk := gmul (polyF p F0)) in *.
  assert (Hm0 : point_eq mpk Z2 = false).
  { apply not_true_is_false. intros E%point_eq_spec. apply Hsec. unfold mpk, Z2 in E. rewrite gmul_id in E.
    apply gmul_inj in E. rewrite Hj in E. apply inF_inj_small; [apply mod_q_range|pose proof q_pos; lia|].
    by rewrite inF_mod, E, inF_0. }
  destruct (flow_five seed esk evk mpk coins Hk (gmul_subgroup _) Hm0 Hc)
    as (b0 & b1 & b2 & b3 & b4 & r & adm & bs & E0 & E1 & E2 & E3 & E4 & Hr & Hadm & Hex & Hseq & Hbs & Hwell & Htot & Hbd).
  destruct (flow_recovers p states (pt_to_compressed G1ops evk) w adm bs)
    as (agg & shares & res & Hagg & Hsh & Hrec & Hres & Had & Hex'); [done|done|done|done|by rewrite Hbd|].
  assert (Hf : flow rng seed coins w = Ok (mkFlow (flow_config (pt_to_compressed G1ops evk)) (pt_to_compressed G2ops mpk)
    ((λ i, pt_to_compressed G2ops (gmul (polyF p (inF i)))) <$> seqZ 1 3) (five b0 b1 b2 b3 b4) agg shares res)).
  { unfold flow. rewrite Hdkg, bind_Ok. fold mpk.
    assert (g2_to_compressed mpk = Ok (pt_to_compressed G2ops mpk)) as -> by apply to_compressed_Ok. rewrite bind_Ok.
    rewrite (mapM_fmap_Ok _ (λ i, pt_to_compressed G2ops (gmul (polyF p (inF i))))).
    2: { intros i Hi%elem_of_seqZ. unfold item. rewrite seqZ_lookup_dict by lia. apply to_compressed_Ok. }
    rewrite bind_Ok, Hk, bind_Ok, (proj1 (g1_compressed evk)), bind_Ok. cbv zeta.
    destruct (flow_config_valid (pt_to_compressed G1ops evk)) as [-> ->]. rewrite !bind_Ok.
    fold (P 161) (P 162) (P 163) (P 164). rewrite E0, bind_Ok, E1, bind_Ok, E2, bind_Ok, E3, bind_Ok, E4, bind_Ok.
    fold (five b0 b1 b2 b3 b4). by rewrite Hadm, bind_Ok, Hagg, bind_Ok, Hsh, bind_Ok, Hrec, bind_Ok. }
  eexists _, adm, r. split; [exact Hf|]. split; [unfold gen_flow; by rewrite Hf, bind_Ok|].
  cbn [fl_result fl_aggregate fl_ballots fl_config fl_mpk fl_shares fl_committee].
  split_and!; [by rewrite Hres|by rewrite Had|by rewrite Hex'|done..].
Qed.

Module fixture_run.
#[local] Existing Instance concrete_crypto.

Definition rng (d : Z) (j : nat) : Z := d * 10 + Z.of_nat j.
Definition draws (k : nat) : case_coins := vectors_run.coins (Z.of_nat k).

Lemma draws_fine k : (k < 5)%nat → coins_ok (draws k).
Proof.
  intros Hk. do 5 (destruct k as [|k]; [split; [done|split; [done|by repeat constructor]]|]). lia.
Qed.

Lemma full_election_fixture_replays_witness : ∃ f, flow rng 9 draws (λ i j, i * 100 + Z.of_nat j) = Ok f
  ∧ totals (fl_result f) = [1; 10; 7].
Proof.
  destruct (full_election_fixture_replays rng 9 draws (λ i j, i * 100 + Z.of_nat j)) as (f & adm & r & Hf & _ & Ht & _).
  - vm_compute. discriminate.
  - reflexivity.
  - exact draws_fine.
  - exists f. split; assumption.
Defined.
End fixture_run.
