(* ===== verification/Contract.v ===== *)
(** The bulletin-board contracts (contracts/src): the keyper set, an election
    and the registry that deploys elections, as far as the chain adapter calls
    them.

    A call either reverts or returns, and a transaction gives the new state.
    Addresses are their 20 bytes.  The registry's table maps an id to the
    election itself, not to its address.  An
    election may be published with any keyper set that is a fixed list of members
    and a threshold, not only with those [new_keyper_set] makes.  Roles are those
    the constructors grant; fees are not kept.  Signature recovery and ABI
    encoding are those of the off-chain side (ECDSA.recover refuses some more
    signatures); that no aggregate is on record, 32 zero bytes in the source, is
    [None]. *)

From S2P Require Import Prelude Params Primality Field Points Transcript Types Config Codecs WriteAuth.

(** * Calls *)

(** The custom errors, and the panics of the compiler. *)
Inductive revert :=
| InvalidKeyperSet | URLsLengthMismatch | InvalidMember | DuplicateMember | InvalidThreshold
| AccessControlUnauthorizedAccount | InvalidConfig | AlreadyCancelled | AlreadyFinalized | AlreadyVoted
| UnauthorizedKeyper | InvalidG2PointLength | InvalidCommitteeLength | DKGNotFinalized | VotingNotStarted
| VotingClosed | VotingStillOpen | VotingAlreadyStarted | InvalidPseudonym | InvalidVotePayload | InvalidVoteFee
| InvalidAggregatePayload | AggregateNotPublished | InvalidDecryptionSharePayload | InvalidResultPayload
| ECDSAInvalidSignature | Panic.
#[global] Instance revert_eq_dec : EqDecision revert.
Proof. solve_decision. Defined.

Inductive run (A : Type) : Type := Done (a : A) | Revert (r : revert).
Arguments Done {A} a.
Arguments Revert {A} r.
#[global] Instance run_ret : MRet run := @Done.
#[global] Instance run_bind : MBind run := λ A B f m, match m with Done a => f a | Revert r => Revert r end.

Lemma run_Done {A B} (a : A) (f : A → run B) : (Done a ≫= f) = f a.
Proof. done. Qed.
Lemma run_Done_inv {A B} (m : run A) (f : A → run B) b : (m ≫= f) = Done b → ∃ a, m = Done a ∧ f a = Done b.
Proof. destruct m as [a|r]; [|done]. intros Hf. by exists a. Qed.

(** [if (c) revert r();] *)
Definition revert_if (c : bool) (r : revert) : run unit := if c then Revert r else Done tt.
Lemma revert_if_Done c r u : revert_if c r = Done u → c = false.
Proof. by destruct c. Qed.

(** A computation of the off-chain model that is total on chain. *)
Definition on_chain {A} (m : result A) (r : revert) : run A := match m with Ok a => Done a | Err _ => Revert r end.

Definition address0 : bytes := replicate 20 Byte.x00.

(** * KeyperSet.sol *)

Record KeyperSet := mkKeyperSet { ks_threshold : Z; ks_members : list bytes; ks_urls : list string }.
#[global] Instance KeyperSet_eq_dec : EqDecision KeyperSet.
Proof. solve_decision. Defined.

Fixpoint check_members (seen members : list bytes) : run unit :=
  match members with
  | [] => Done tt
  | member :: rest =>
      _ ← revert_if (bool_decide (member = address0)) InvalidMember;
      _ ← revert_if (bool_decide (member ∈ seen)) DuplicateMember;
      check_members (seen ++ [member]) rest
  end.

Definition new_keyper_set (members : list bytes) (urls : list string) (threshold : Z) : run KeyperSet :=
  _ ← revert_if (negb (len urls =? len members)) URLsLengthMismatch;
  _ ← check_members [] members;
  _ ← revert_if ((threshold =? 0) || (len members <? threshold) || (threshold * 2 <=? len members)) InvalidThreshold;
  Done (mkKeyperSet threshold members urls).

Fixpoint member_position (members : list bytes) (account : bytes) : option Z :=
  match members with
  | [] => None
  | m :: rest => if decide (m = account) then Some 0 else Z.succ <$> member_position rest account
  end.
Definition getMemberIndex (ks : KeyperSet) (account : bytes) : run Z :=
  match member_position (ks_members ks) account with Some i => Done i | None => Revert InvalidMember end.
Definition isMember (ks : KeyperSet) (account : bytes) : bool := bool_decide (account ∈ ks_members ks).

(** * VotingTypes.sol *)

Record ElectionParams := mkParams {
  p_votingStart : Z; p_votingEnd : Z; p_selfSubmitFee : Z; p_numCandidates : Z; p_budget : Z; p_mode : Z;
  p_variant : Z; p_weighted : bool; p_scale : Z; p_duplicatePolicy : Z; p_protocolVersion : string; p_pkWR : bytes;
  p_resultPublisher : bytes; p_voteProxy : bytes;
}.

Record CBallot := mkCBallot {
  b_pseudonym : bytes; b_vk : bytes; b_ciphertexts : list (bytes * bytes); b_zkProof : bytes;
  b_voterSignature : bytes; b_wrAttestation : bytes;
}.
Record BallotRecord := mkBallotRecord { r_ballot : CBallot; r_submittedAt : Z; r_submittedBy : bytes }.

Record EncryptedTally := mkTally {
  t_aggregates : list (bytes * bytes); t_admitted : list Z; t_exclusions : list (Z * Z);
  t_totalAdmittedWeight : Z; t_totalScaledWeight : Z;
}.
Record CShare := mkCShare {
  s_keyperIndex : Z; s_submittedAt : Z; s_shares : list bytes; s_proofs : list (Z * Z);
}.

(** * ElectionBase.sol: state and construction *)

(** The votes on the election key, with the mined votes: who voted and the
    arguments of the call, as the transactions on the chain record them. *)
Record DkgVotes := mkDkgVotes {
  dv_finalized : bool; dv_pk : bytes; dv_committee : list bytes;
  dv_voted : list bytes; dv_counts : dict bytes Z; dv_cast : list (bytes * (bytes * list bytes));
}.
(** The [DKGVoteRegistered] events name the voter and the key. *)
Definition dv_events (d : DkgVotes) : list (bytes * bytes) := (λ v, (v.1, v.2.1)) <$> dv_cast d.
(** The votes on the aggregate, with the [AggregateVoteRegistered] events; the
    stored blob is the value it encodes. *)
Record TallyVotes := mkTallyVotes {
  tv_published : option EncryptedTally;
  tv_digest_of : dict bytes bytes; tv_counts : dict bytes Z; tv_events : list (bytes * bytes);
}.

Record Election := mkElection {
  e_id : Z; e_keyperSet : KeyperSet; e_params : ElectionParams; e_admin : bytes;
  e_cancelled : bool; e_dkg : DkgVotes; e_ballots : list BallotRecord; e_tally : TallyVotes;
  e_shares : list CShare; e_shared : list bytes; e_result : option (list Z * list Z); e_stalled : bool;
}.

Definition new_election (admin : bytes) (id : Z) (ks : KeyperSet) (p : ElectionParams) : run Election :=
  _ ← revert_if (bool_decide (admin = address0) || bool_decide (p_resultPublisher p = address0)
         || bool_decide (p_voteProxy p = address0) || (p_votingEnd p <=? p_votingStart p)
         || (p_numCandidates p =? 0) || (p_budget p =? 0) || (p_scale p =? 0)) InvalidConfig;
  Done (mkElection id ks p admin false (mkDkgVotes false [] [] [] [] []) [] (mkTallyVotes None [] [] [])
          [] [] None false).

Definition set_dkg_votes (e : Election) (d : DkgVotes) : Election :=
  mkElection (e_id e) (e_keyperSet e) (e_params e) (e_admin e) (e_cancelled e) d (e_ballots e) (e_tally e)
    (e_shares e) (e_shared e) (e_result e) (e_stalled e).
Definition set_ballots (e : Election) (b : list BallotRecord) : Election :=
  mkElection (e_id e) (e_keyperSet e) (e_params e) (e_admin e) (e_cancelled e) (e_dkg e) b (e_tally e)
    (e_shares e) (e_shared e) (e_result e) (e_stalled e).
Definition set_tally_votes (e : Election) (t : TallyVotes) : Election :=
  mkElection (e_id e) (e_keyperSet e) (e_params e) (e_admin e) (e_cancelled e) (e_dkg e) (e_ballots e) t
    (e_shares e) (e_shared e) (e_result e) (e_stalled e).
Definition add_share (e : Election) (voter : bytes) (s : CShare) : Election :=
  mkElection (e_id e) (e_keyperSet e) (e_params e) (e_admin e) (e_cancelled e) (e_dkg e) (e_ballots e) (e_tally e)
    (e_shares e ++ [s]) (e_shared e ++ [voter]) (e_result e) (e_stalled e).
Definition set_status (e : Election) (cancelled : bool) (res : option (list Z * list Z)) (stalled : bool) : Election :=
  mkElection (e_id e) (e_keyperSet e) (e_params e) (e_admin e) cancelled (e_dkg e) (e_ballots e) (e_tally e)
    (e_shares e) (e_shared e) res stalled.

Definition _requireNotCancelled (e : Election) : run unit := revert_if (e_cancelled e) AlreadyCancelled.
Definition _requireG2Point (point : bytes) : run unit := revert_if (negb (len point =? 96)) InvalidG2PointLength.
Definition onlyRole (holder sender : bytes) : run unit :=
  revert_if (negb (bool_decide (sender = holder))) AccessControlUnauthorizedAccount.
Definition quorum_of (e : Election) : Z := ks_threshold (e_keyperSet e).
Definition count_of (counts : dict bytes Z) (d : bytes) : Z := default 0 (dict_get counts d).

Section election.
Context `{Crypto} `{EthAccount} `{Abi}.

Definition ecrecover (digest : result bytes) (sig : bytes) : run bytes :=
  d ← on_chain digest Panic; on_chain (recover_digest d sig) ECDSAInvalidSignature.

(** * ElectionDKG.sol *)

(** [keccak256(abi.encode(pkElection, committeePKs))] *)
Definition dkg_vote_text (pk : bytes) (pks : list bytes) : result bytes :=
  abi_encode [TBytes; bytes_array] [ABytes pk; AArray (ABytes <$> pks)].
Definition dkg_vote_digest (pk : bytes) (pks : list bytes) : result bytes :=
  a ← dkg_vote_text pk pks; Ok (keccak a).

Definition _registerDKGVote (e : Election) (voter pk : bytes) (pks : list bytes) : run Election :=
  let d := e_dkg e in
  _ ← revert_if (negb (isMember (e_keyperSet e) voter)) UnauthorizedKeyper;
  _ ← revert_if (bool_decide (voter ∈ dv_voted d)) AlreadyVoted;
  _ ← _requireG2Point pk;
  _ ← revert_if (negb (len pks =? len (ks_members (e_keyperSet e)))) InvalidCommitteeLength;
  _ ← foldr (λ p rest, _ ← _requireG2Point p; rest) (Done tt) pks;
  digest ← on_chain (dkg_vote_digest pk pks) Panic;
  let count := count_of (dv_counts d) digest + 1 in
  let final := quorum_of e <=? count in
  Done (set_dkg_votes e (mkDkgVotes (final || dv_finalized d) (if final then pk else dv_pk d)
          (if final then pks else dv_committee d) (dv_voted d ++ [voter]) (dict_set (dv_counts d) digest count)
          (dv_cast d ++ [(voter, (pk, pks))]))).

Definition voteDKGResult (e : Election) (sender pk : bytes) (pks : list bytes) : run Election :=
  _ ← _requireNotCancelled e;
  _ ← revert_if (dv_finalized (e_dkg e)) AlreadyFinalized;
  _registerDKGVote e sender pk pks.

Definition voteDKGResultSigned (e : Election) (pk : bytes) (pks : list bytes) (sig : bytes) : run Election :=
  _ ← _requireNotCancelled e;
  _ ← revert_if (dv_finalized (e_dkg e)) AlreadyFinalized;
  signer ← ecrecover (dkg_result_digest (be_bytes 32 (e_id e)) pk pks) sig;
  _registerDKGVote e signer pk pks.

(** * ElectionVoting.sol *)

Definition submitVote (e : Election) (sender : bytes) (value now : Z) (b : CBallot) : run (Election * Z) :=
  let p := e_params e in
  _ ← _requireNotCancelled e;
  _ ← revert_if (negb (dv_finalized (e_dkg e))) DKGNotFinalized;
  _ ← revert_if (now <? p_votingStart p) VotingNotStarted;
  _ ← revert_if (p_votingEnd p <=? now) VotingClosed;
  _ ← revert_if (bool_decide (b_pseudonym b = replicate 32 Byte.x00)) InvalidPseudonym;
  _ ← revert_if (negb (len (b_vk b) =? 48) || (len (b_zkProof b) =? 0) || (len (b_voterSignature b) =? 0)
         || (len (b_wrAttestation b) =? 0) || negb (len (b_ciphertexts b) =? p_numCandidates p)) InvalidVotePayload;
  let expected := if bool_decide (sender = p_voteProxy p) then 0 else p_selfSubmitFee p in
  _ ← revert_if (negb (value =? expected)) InvalidVoteFee;
  _ ← foldr (λ c rest, _ ← _requireG2Point c.1; _ ← _requireG2Point c.2; rest) (Done tt) (b_ciphertexts b);
  Done (set_ballots e (e_ballots e ++ [mkBallotRecord b now sender]), len (e_ballots e)).

Definition getNumBallots (e : Election) : Z := len (e_ballots e).

(** Reading past the end panics. *)
Definition getBallots (e : Election) (start count : Z) : run (list BallotRecord) :=
  foldr (λ i rest,
    r ← match e_ballots e !! Z.to_nat (start + i) with Some r => Done r | None => Revert Panic end;
    l ← rest; Done (r :: l)) (Done []) (seqZ 0 count).

(** * ElectionTally.sol *)

Definition tally_abi (t : EncryptedTally) : abi_value :=
  ATuple [AArray ((λ '(c1, c2), ATuple [ABytes c1; ABytes c2]) <$> t_aggregates t);
          AArray (AUint <$> t_admitted t);
          AArray ((λ '(s, r), ATuple [AUint s; AUint r]) <$> t_exclusions t);
          AUint (t_totalAdmittedWeight t); AUint (t_totalScaledWeight t)].

Definition _aggregateDigest (e : Election) (t : EncryptedTally) : result bytes :=
  a ← abi_encode [_TALLY_ABI] [tally_abi t];
  Ok (keccak (AGGREGATE_DST ++ be_bytes 32 (e_id e) ++ a)).

Definition _registerAggregate (e : Election) (now : Z) (voter digest : bytes) (t : EncryptedTally) : run Election :=
  let v := e_tally e in
  _ ← _requireNotCancelled e;
  _ ← revert_if (negb (dv_finalized (e_dkg e))) DKGNotFinalized;
  _ ← revert_if (now <? p_votingEnd (e_params e)) VotingStillOpen;
  _ ← revert_if (bool_decide (is_Some (tv_published v))) AlreadyFinalized;
  _ ← revert_if (negb (isMember (e_keyperSet e) voter)) UnauthorizedKeyper;
  _ ← revert_if (negb (len (t_aggregates t) =? p_numCandidates (e_params e))) InvalidAggregatePayload;
  let prev := dict_get (tv_digest_of v) voter in
  if bool_decide (prev = Some digest) then Done e else
  let counts := match prev with
                | Some old => dict_set (tv_counts v) old (count_of (tv_counts v) old - 1)
                | None => tv_counts v
                end in
  let count := count_of counts digest + 1 in
  Done (set_tally_votes e (mkTallyVotes (if quorum_of e <=? count then Some t else None)
          (dict_set (tv_digest_of v) voter digest) (dict_set counts digest count)
          (tv_events v ++ [(voter, digest)]))).

Definition submitAggregate (e : Election) (sender : bytes) (now : Z) (t : EncryptedTally) : run Election :=
  digest ← on_chain (_aggregateDigest e t) Panic;
  _registerAggregate e now sender digest t.

Definition submitAggregateSigned (e : Election) (now : Z) (t : EncryptedTally) (sig : bytes) : run Election :=
  digest ← on_chain (_aggregateDigest e t) Panic;
  signer ← ecrecover (Ok digest) sig;
  _registerAggregate e now signer digest t.

Definition getAggregate (e : Election) : run EncryptedTally :=
  match tv_published (e_tally e) with Some t => Done t | None => Revert AggregateNotPublished end.

Definition publishResult (e : Election) (sender : bytes) (now : Z) (totals indices : list Z) : run Election :=
  _ ← onlyRole (p_resultPublisher (e_params e)) sender;
  _ ← _requireNotCancelled e;
  _ ← revert_if (negb (dv_finalized (e_dkg e))) DKGNotFinalized;
  _ ← revert_if (now <? p_votingEnd (e_params e)) VotingStillOpen;
  _ ← revert_if (negb (len totals =? p_numCandidates (e_params e)) || (len indices =? 0)) InvalidResultPayload;
  Done (set_status e (e_cancelled e) (Some (totals, indices)) (e_stalled e)).

Definition markTallyStalled (e : Election) (sender : bytes) (now : Z) : run Election :=
  _ ← onlyRole (p_resultPublisher (e_params e)) sender;
  _ ← _requireNotCancelled e;
  _ ← revert_if (now <? p_votingEnd (e_params e)) VotingStillOpen;
  _ ← revert_if (bool_decide (is_Some (e_result e))) AlreadyFinalized;
  Done (set_status e (e_cancelled e) (e_result e) true).

Definition clearTallyStalled (e : Election) (sender : bytes) : run Election :=
  _ ← onlyRole (e_admin e) sender;
  _ ← _requireNotCancelled e;
  Done (set_status e (e_cancelled e) (e_result e) false).

(** * ElectionDecryption.sol *)

Definition _registerDecryptionShare (e : Election) (now : Z) (voter : bytes) (shares : list bytes)
    (proofs : list (Z * Z)) : run Election :=
  _ ← revert_if (bool_decide (tv_published (e_tally e) = None)) AggregateNotPublished;
  _ ← revert_if (negb (isMember (e_keyperSet e) voter)) UnauthorizedKeyper;
  _ ← revert_if (bool_decide (voter ∈ e_shared e)) AlreadyVoted;
  _ ← revert_if (negb (len shares =? p_numCandidates (e_params e)) || negb (len proofs =? len shares))
        InvalidDecryptionSharePayload;
  idx ← getMemberIndex (e_keyperSet e) voter;
  _ ← foldr (λ p rest, _ ← _requireG2Point p; rest) (Done tt) shares;
  Done (add_share e voter (mkCShare (idx mod 256) now shares proofs)).

Definition submitDecryptionShare (e : Election) (sender : bytes) (now : Z) (shares : list bytes)
    (proofs : list (Z * Z)) : run Election :=
  _ ← _requireNotCancelled e;
  _ ← revert_if (negb (dv_finalized (e_dkg e))) DKGNotFinalized;
  _ ← revert_if (now <? p_votingEnd (e_params e)) VotingStillOpen;
  _registerDecryptionShare e now sender shares proofs.

Definition submitDecryptionShareSigned (e : Election) (now : Z) (shares : list bytes) (proofs : list (Z * Z))
    (sig : bytes) : run Election :=
  _ ← _requireNotCancelled e;
  _ ← revert_if (negb (dv_finalized (e_dkg e))) DKGNotFinalized;
  _ ← revert_if (now <? p_votingEnd (e_params e)) VotingStillOpen;
  signer ← ecrecover (decryption_share_digest (be_bytes 32 (e_id e)) shares proofs) sig;
  _registerDecryptionShare e now signer shares proofs.

(** * ElectionAdmin.sol *)

Definition cancelElection (e : Election) (sender : bytes) (now : Z) : run Election :=
  _ ← onlyRole (e_admin e) sender;
  _ ← revert_if (e_cancelled e) AlreadyCancelled;
  _ ← revert_if (p_votingStart (e_params e) <=? now) VotingAlreadyStarted;
  Done (set_status e true (e_result e) (e_stalled e)).

(** * ElectionRegistry.sol *)

(** The chain as the adapter sees it: the registry, its elections and the time
    of the next block. *)
Record Chain := mkChain { ch_admin : bytes; ch_count : Z; ch_elections : dict Z Election; ch_time : Z }.

Definition publishElection (c : Chain) (sender : bytes) (ks : KeyperSet) (p : ElectionParams) : run (Chain * Z) :=
  _ ← onlyRole (ch_admin c) sender;
  _ ← revert_if ((len (ks_members ks) =? 0) || (ks_threshold ks =? 0) || (len (ks_members ks) <? ks_threshold ks))
        InvalidKeyperSet;
  let id := ch_count c + 1 in
  e ← new_election sender id ks p;
  Done (mkChain (ch_admin c) id (dict_set (ch_elections c) id e) (ch_time c), id).

(** * Transactions *)

(** What anybody can do to an election in a block of time [now]. *)
Inductive election_tx (now : Z) (e : Election) : Election → Prop :=
| tx_dkg sender pk pks e' : voteDKGResult e sender pk pks = Done e' → election_tx now e e'
| tx_dkg_signed pk pks sig e' : voteDKGResultSigned e pk pks sig = Done e' → election_tx now e e'
| tx_vote sender value b e' i : submitVote e sender value now b = Done (e', i) → election_tx now e e'
| tx_aggregate sender t e' : submitAggregate e sender now t = Done e' → election_tx now e e'
| tx_aggregate_signed t sig e' : submitAggregateSigned e now t sig = Done e' → election_tx now e e'
| tx_share sender shares proofs e' : submitDecryptionShare e sender now shares proofs = Done e' → election_tx now e e'
| tx_share_signed shares proofs sig e' :
    submitDecryptionShareSigned e now shares proofs sig = Done e' → election_tx now e e'
| tx_result sender tot idx e' : publishResult e sender now tot idx = Done e' → election_tx now e e'
| tx_stall sender e' : markTallyStalled e sender now = Done e' → election_tx now e e'
| tx_clear sender e' : clearTallyStalled e sender = Done e' → election_tx now e e'
| tx_cancel sender e' : cancelElection e sender now = Done e' → election_tx now e e'.

Definition put_election (c : Chain) (id : Z) (e : Election) : Chain :=
  mkChain (ch_admin c) (ch_count c) (dict_set (ch_elections c) id e) (ch_time c).

(** What anybody can do on the chain.  An election may be published over any
    keyper set whose members and threshold do not change, not only over one that
    [new_keyper_set] made: [publishElection] looks at nothing else. *)
Inductive chain_tx : Chain → Chain → Prop :=
| tx_time c t : ch_time c <= t → chain_tx c (mkChain (ch_admin c) (ch_count c) (ch_elections c) t)
| tx_publish c sender ks p c' id : 0 <= ks_threshold ks < 2 ^ 64 →
    publishElection c sender ks p = Done (c', id) → chain_tx c c'
| tx_election c id e e' : dict_get (ch_elections c) id = Some e → election_tx (ch_time c) e e' →
    chain_tx c (put_election c id e').

Definition new_chain (admin : bytes) : Chain := mkChain admin 0 [] 0.
Definition chain_reachable (c : Chain) : Prop := ∃ admin, rtc chain_tx (new_chain admin) c.

End election.
