(* ===== verification/ContractSafety.v ===== *)
(** Invariants of the contracts, whatever transactions anybody sends: votes are
    counted per committee member, a finalized key and a published aggregate have
    a quorum behind them and never change, and ballots only accumulate, inside
    the voting window. *)

From S2P Require Import Prelude Params Primality Field Points Transcript Types Config Codecs WriteAuth Quorum DataLayer DataLayerSafety Contract.

Section safety.
Context `{Crypto} `{EthAccount} `{Abi}.

(** * What a transaction does *)

Definition vote_dkg (e : Election) (voter pk : bytes) (pks : list bytes) (d : bytes) : Election :=
  let v := e_dkg e in
  let count := count_of (dv_counts v) d + 1 in
  let final := quorum_of e <=? count in
  set_dkg_votes e (mkDkgVotes (final || dv_finalized v) (if final then pk else dv_pk v)
    (if final then pks else dv_committee v) (dv_voted v ++ [voter]) (dict_set (dv_counts v) d count)
    (dv_cast v ++ [(voter, (pk, pks))])).

Definition moved_counts (v : TallyVotes) (voter : bytes) : dict bytes Z :=
  match dict_get (tv_digest_of v) voter with
  | Some old => dict_set (tv_counts v) old (count_of (tv_counts v) old - 1)
  | None => tv_counts v
  end.
Definition vote_tally (e : Election) (voter d : bytes) (t : EncryptedTally) : Election :=
  let v := e_tally e in
  let count := count_of (moved_counts v voter) d + 1 in
  set_tally_votes e (mkTallyVotes (if quorum_of e <=? count then Some t else None)
    (dict_set (tv_digest_of v) voter d) (dict_set (moved_counts v voter) d count) (tv_events v ++ [(voter, d)])).

Inductive tx_effect (now : Z) (e : Election) : Election → Prop :=
| ef_same : tx_effect now e e
| ef_dkg voter pk pks d : dv_finalized (e_dkg e) = false → voter ∈ ks_members (e_keyperSet e) →
    voter ∉ dv_voted (e_dkg e) → len pk = 96 → dkg_vote_digest pk pks = Ok d →
    tx_effect now e (vote_dkg e voter pk pks d)
| ef_ballot b sender : e_cancelled e = false → dv_finalized (e_dkg e) = true →
    p_votingStart (e_params e) <= now < p_votingEnd (e_params e) → len (b_wrAttestation b) ≠ 0 →
    tx_effect now e (set_ballots e (e_ballots e ++ [mkBallotRecord b now sender]))
| ef_tally voter d t : tv_published (e_tally e) = None → voter ∈ ks_members (e_keyperSet e) →
    p_votingEnd (e_params e) <= now → _aggregateDigest e t = Ok d → dict_get (tv_digest_of (e_tally e)) voter ≠ Some d →
    tx_effect now e (vote_tally e voter d t)
| ef_share voter s : is_Some (tv_published (e_tally e)) → voter ∈ ks_members (e_keyperSet e) → voter ∉ e_shared e →
    p_votingEnd (e_params e) <= now → tx_effect now e (add_share e voter s)
| ef_status x res st : (e_cancelled e = true → x = true) → (x = true → e_cancelled e = true ∨ now < p_votingStart (e_params e)) →
    tx_effect now e (set_status e x res st).

Ltac run_inv :=
  repeat match goal with
  | Hr : (_ ≫= _) = Done _ |- _ => apply run_Done_inv in Hr as (? & ? & Hr)
  | Hr : revert_if _ _ = Done _ |- _ => apply revert_if_Done in Hr
  end.

Lemma on_chain_Done {A} (m : result A) r a : on_chain m r = Done a → m = Ok a.
Proof. destruct m; [|done]. by intros [= ->]. Qed.

Lemma member_spec ks a : negb (isMember ks a) = false → a ∈ ks_members ks.
Proof. rewrite negb_false_iff. apply bool_decide_eq_true. Qed.

Lemma register_dkg_effect now e voter pk pks e' : dv_finalized (e_dkg e) = false →
  _registerDKGVote e voter pk pks = Done e' → tx_effect now e e'.
Proof.
  intros Hf Hr. unfold _registerDKGVote, _requireG2Point in Hr. run_inv. injection Hr as <-.
  match goal with Hd : on_chain _ _ = Done _ |- _ => apply on_chain_Done in Hd end.
  eapply ef_dkg; [done|by apply member_spec| |lia|done]. by eapply bool_decide_eq_false_1.
Qed.

Lemma register_tally_effect now e voter d t e' : _aggregateDigest e t = Ok d →
  _registerAggregate e now voter d t = Done e' → tx_effect now e e'.
Proof.
  intros Hd Hr. unfold _registerAggregate in Hr. run_inv.
  case_bool_decide as Hp; injection Hr as <-; [by apply ef_same|].
  apply (ef_tally now e voter d t); [|by apply member_spec|lia|done|done].
  match goal with Hx : bool_decide (is_Some _) = false |- _ => apply bool_decide_eq_false in Hx; by apply eq_None_not_Some in Hx end.
Qed.

Lemma register_share_effect now e voter shares proofs e' : p_votingEnd (e_params e) <= now →
  _registerDecryptionShare e now voter shares proofs = Done e' → tx_effect now e e'.
Proof.
  intros Hn Hr. unfold _registerDecryptionShare in Hr. run_inv. injection Hr as <-.
  apply ef_share; [|by apply member_spec|by eapply bool_decide_eq_false_1|done].
  match goal with Hx : bool_decide (_ = None) = false |- _ => apply bool_decide_eq_false in Hx; by apply not_eq_None_Some in Hx end.
Qed.

Lemma tx_has_effect now e e' : election_tx now e e' → tx_effect now e e'.
Proof.
  intros [sender pk pks ? Hr|pk pks sig ? Hr|sender value b ? i Hr|sender t ? Hr|t sig ? Hr|sender sh pr ? Hr
    |sh pr sig ? Hr|sender tot idx ? Hr|sender ? Hr|sender ? Hr|sender ? Hr].
  - unfold voteDKGResult, _requireNotCancelled in Hr. run_inv. by eapply register_dkg_effect.
  - unfold voteDKGResultSigned, _requireNotCancelled in Hr. run_inv. by eapply register_dkg_effect.
  - unfold submitVote, _requireNotCancelled in Hr. run_inv. injection Hr as <- _.
    apply ef_ballot; [done|by apply negb_false_iff|lia|lia].
  - unfold submitAggregate in Hr. run_inv. eapply register_tally_effect; [by eapply on_chain_Done|done].
  - unfold submitAggregateSigned in Hr. run_inv. eapply register_tally_effect; [by eapply on_chain_Done|done].
  - unfold submitDecryptionShare, _requireNotCancelled in Hr. run_inv. eapply register_share_effect; [lia|done].
  - unfold submitDecryptionShareSigned, _requireNotCancelled in Hr. run_inv. eapply register_share_effect; [lia|done].
  - unfold publishResult in Hr. run_inv. injection Hr as <-. by apply ef_status; [|left].
  - unfold markTallyStalled in Hr. run_inv. injection Hr as <-. by apply ef_status; [|left].
  - unfold clearTallyStalled in Hr. run_inv. injection Hr as <-. by apply ef_status; [|left].
  - unfold cancelElection in Hr. run_inv. injection Hr as <-. apply ef_status; [done|right; lia].
Qed.

(** * Counting votes *)

(** The votes for a digest. *)
Definition votes_for (votes : list (bytes * bytes)) (d : bytes) : list (bytes * bytes) := filter (λ v, v.2 = d) votes.

Lemma votes_for_app votes v d : len (votes_for (votes ++ [v]) d) = len (votes_for votes d) + (if decide (v.2 = d) then 1 else 0).
Proof. unfold votes_for, len. rewrite filter_app, length_app, filter_cons, filter_nil. case_decide; cbn; lia. Qed.

(** Replacing one vote. *)
Lemma votes_for_set (m : dict bytes bytes) k x d :
  len (votes_for (dict_set m k x) d) = len (votes_for m d)
    - (if decide (dict_get m k = Some d) then 1 else 0) + (if decide (x = d) then 1 else 0).
Proof.
  unfold votes_for, len. induction m as [|[k' v'] m IH]; cbn [dict_set dict_get].
  - rewrite filter_cons, filter_nil, (decide_False (P := None = Some d)) by done. cbn [snd]. case_decide; cbn; lia.
  - destruct (decide (k = k')) as [->|Hne].
    + rewrite !filter_cons. cbn [snd].
      destruct (decide (x = d)), (decide (v' = d)), (decide (Some v' = Some d)); cbn [length]; try lia; congruence.
    + rewrite !filter_cons. cbn [snd]. destruct (decide (v' = d)); cbn [length]; lia.
Qed.

Lemma votes_for_bound votes d (members : list bytes) : NoDup votes.*1 → (∀ v, v ∈ votes.*1 → v ∈ members) →
  NoDup (votes_for votes d).*1 ∧ (∀ v, v ∈ (votes_for votes d).*1 → v ∈ members) ∧ len (votes_for votes d) <= len members.
Proof.
  intros Hn Hm. assert (Hs : (votes_for votes d).*1 `sublist_of` votes.*1).
  { unfold votes_for. clear. induction votes as [|x l IH]; [constructor|]. rewrite filter_cons.
    case_decide; cbn; by constructor. }
  assert (Hn' : NoDup (votes_for votes d).*1) by by eapply sublist_NoDup.
  assert (Hm' : ∀ v, v ∈ (votes_for votes d).*1 → v ∈ members).
  { intros v Hv. apply Hm. apply sublist_submseteq in Hs. by eapply elem_of_submseteq. }
  split_and!; [done|done|]. unfold len. rewrite <- (length_fmap fst). apply inj_le.
  apply (submseteq_length (votes_for votes d).*1 members). by apply NoDup_submseteq.
Qed.

(** * The invariant *)

Record dkg_inv (e : Election) (votes : list (bytes * bytes)) : Prop := {
  di_voters : votes.*1 = dv_voted (e_dkg e);
  di_nodup : NoDup (dv_voted (e_dkg e));
  di_members v : v ∈ dv_voted (e_dkg e) → v ∈ ks_members (e_keyperSet e);
  di_counts d : count_of (dv_counts (e_dkg e)) d = len (votes_for votes d);
  di_cast : Forall2 (λ ev v, ev.1 = v.1 ∧ dkg_vote_digest ev.2.1 ev.2.2 = Ok v.2) (dv_cast (e_dkg e)) votes;
  di_final : dv_finalized (e_dkg e) = true → ∃ d, dkg_vote_digest (dv_pk (e_dkg e)) (dv_committee (e_dkg e)) = Ok d
    ∧ quorum_of e <= len (votes_for votes d) ∧ (dv_pk (e_dkg e), dv_committee (e_dkg e)) ∈ (dv_cast (e_dkg e)).*2;
  di_open : dv_finalized (e_dkg e) = false → ∀ d, len (votes_for votes d) < quorum_of e;
}.

Record tally_inv (e : Election) : Prop := {
  ti_nodup : NoDup (dict_keys (tv_digest_of (e_tally e)));
  ti_members v : v ∈ dict_keys (tv_digest_of (e_tally e)) → v ∈ ks_members (e_keyperSet e);
  ti_counts d : count_of (tv_counts (e_tally e)) d = len (votes_for (tv_digest_of (e_tally e)) d);
  ti_events a : snd <$> last (filter (λ ev, ev.1 = a) (tv_events (e_tally e))) = dict_get (tv_digest_of (e_tally e)) a;
  ti_final t : tv_published (e_tally e) = Some t → ∃ d, _aggregateDigest e t = Ok d
    ∧ quorum_of e <= len (votes_for (tv_digest_of (e_tally e)) d);
  ti_open : tv_published (e_tally e) = None → ∀ d, len (votes_for (tv_digest_of (e_tally e)) d) < quorum_of e;
}.

Record election_inv (id : Z) (e : Election) : Prop := {
  ei_id : e_id e = id;
  ei_quorum : 1 <= quorum_of e <= len (ks_members (e_keyperSet e));
  ei_dkg : ∃ votes, dkg_inv e votes;
  ei_tally : tally_inv e;
  ei_ballots : Forall (λ r, p_votingStart (e_params e) <= r_submittedAt r < p_votingEnd (e_params e)) (e_ballots e);
  ei_ballots_key : e_ballots e ≠ [] → dv_finalized (e_dkg e) = true;
  ei_shares : e_shares e ≠ [] → is_Some (tv_published (e_tally e));
}.

Lemma count_of_set counts d x d' : count_of (dict_set counts d x) d' = if decide (d' = d) then x else count_of counts d'.
Proof. unfold count_of. rewrite dict_get_set. by case_decide. Qed.

Lemma vote_dkg_inv e votes voter pk pks d : dkg_inv e votes → dv_finalized (e_dkg e) = false →
  voter ∈ ks_members (e_keyperSet e) → voter ∉ dv_voted (e_dkg e) → dkg_vote_digest pk pks = Ok d →
  dkg_inv (vote_dkg e voter pk pks d) (votes ++ [(voter, d)]).
Proof.
  intros [Hv Hn Hm Hc He Hf Ho] Hnf Hmem Hnew Hd. specialize (Ho Hnf).
  constructor; cbn [vote_dkg set_dkg_votes e_dkg dv_voted dv_counts dv_cast dv_finalized dv_pk dv_committee e_keyperSet].
  - rewrite fmap_app. by rewrite Hv.
  - apply NoDup_app. split_and!; [done| |apply NoDup_singleton]. by intros x Hx ->%list_elem_of_singleton.
  - intros v [Hx| ->%list_elem_of_singleton]%elem_of_app; [by apply Hm|done].
  - intros d'. rewrite count_of_set, votes_for_app, !Hc. cbn [snd]. repeat case_decide; subst; try done; lia.
  - apply Forall2_app; [done|]. constructor; [|constructor]. by split.
  - rewrite Hnf, orb_false_r, Hc. intros Hq. rewrite Hq. exists d. split; [done|].
    rewrite votes_for_app, fmap_app. cbn [snd]. rewrite decide_True by done. apply Z.leb_le in Hq.
    split; [exact Hq|]. apply elem_of_app. right. by left.
  - rewrite Hnf, orb_false_r, Hc. intros Hq%Z.leb_gt d'. rewrite votes_for_app. cbn [snd].
    change (quorum_of (vote_dkg e voter pk pks d)) with (quorum_of e).
    case_decide; subst; [lia|]. specialize (Ho d'). lia.
Qed.

Lemma moved_counts_spec e voter d : tally_inv e →
  count_of (moved_counts (e_tally e) voter) d
  = len (votes_for (tv_digest_of (e_tally e)) d)
    - (if decide (dict_get (tv_digest_of (e_tally e)) voter = Some d) then 1 else 0).
Proof.
  intros Hi. unfold moved_counts. destruct (dict_get _ voter) as [old|].
  - rewrite count_of_set, !(ti_counts _ Hi). destruct (decide (d = old)) as [->|Hne].
    + rewrite decide_True by done. done.
    + rewrite decide_False by congruence. lia.
  - rewrite (ti_counts _ Hi), decide_False by done. lia.
Qed.

Lemma vote_tally_inv e voter d t : tally_inv e → tv_published (e_tally e) = None →
  voter ∈ ks_members (e_keyperSet e) → _aggregateDigest e t = Ok d →
  dict_get (tv_digest_of (e_tally e)) voter ≠ Some d → tally_inv (vote_tally e voter d t).
Proof.
  intros Hi Hp Hmem Hd Hne. pose proof (moved_counts_spec e voter d Hi) as Hmv. rewrite decide_False in Hmv by done.
  pose proof (ti_open _ Hi Hp) as Ho.
  assert (Hset : ∀ d', len (votes_for (dict_set (tv_digest_of (e_tally e)) voter d) d')
    = count_of (moved_counts (e_tally e) voter) d' + (if decide (d = d') then 1 else 0)).
  { intros d'. rewrite votes_for_set, (moved_counts_spec e voter d' Hi). lia. }
  constructor; cbn [vote_tally set_tally_votes e_tally tv_digest_of tv_counts tv_events tv_published e_keyperSet].
  - apply dict_set_NoDup, Hi.
  - intros v. rewrite dict_keys_set. case_decide; [apply Hi|].
    intros [Hv| ->%list_elem_of_singleton]%elem_of_app; [by apply Hi|done].
  - intros d'. rewrite count_of_set, Hset. repeat case_decide; subst; try done; lia.
  - intros a. rewrite filter_app, filter_cons, filter_nil, dict_get_set. cbn [fst].
    destruct (decide (voter = a)) as [->|Hva].
    + rewrite last_snoc, decide_True by done. done.
    + rewrite app_nil_r, decide_False by done. apply Hi.
  - intros t'. destruct (Z.leb_spec (quorum_of e) (count_of (moved_counts (e_tally e) voter) d + 1)) as [Hq|]; [|done].
    intros [= <-]. exists d. split; [done|]. rewrite Hset, decide_True by done. exact Hq.
  - destruct (Z.leb_spec (quorum_of e) (count_of (moved_counts (e_tally e) voter) d + 1)) as [|Hq]; [done|].
    intros _ d'. rewrite Hset. change (quorum_of (vote_tally e voter d t)) with (quorum_of e).
    destruct (decide (d = d')) as [<-|Hdd]; [lia|]. rewrite (moved_counts_spec e voter d' Hi). specialize (Ho d').
    case_decide; lia.
Qed.

(** The parts of an election that the other parts do not look at. *)
Lemma dkg_inv_same e e' votes : e_dkg e' = e_dkg e → e_keyperSet e' = e_keyperSet e → dkg_inv e votes → dkg_inv e' votes.
Proof. intros Hd Hk []. constructor; unfold quorum_of; rewrite ?Hd, ?Hk; done. Qed.
Lemma tally_inv_same e e' : e_tally e' = e_tally e → e_keyperSet e' = e_keyperSet e → e_id e' = e_id e →
  tally_inv e → tally_inv e'.
Proof. intros Ht Hk Hid []. constructor; unfold quorum_of, _aggregateDigest; rewrite ?Ht, ?Hk, ?Hid; done. Qed.

Lemma effect_inv id now e e' : election_inv id e → tx_effect now e e' → election_inv id e'.
Proof.
  intros [Hid Hq [votes Hd] Ht Hb Hbk Hs] Hef.
  destruct Hef as [|voter pk pks d Hnf Hmem Hnew Hpk Hdig|b sender Hc Hf Hw _|voter d t Hp Hmem He Hdig Hne
    |voter s Hp Hmem Hnew He|x res st Hx1 Hx2]; constructor; try done.
  - by exists votes.
  - eexists. by apply vote_dkg_inv.
  - by eapply tally_inv_same; [..|exact Ht].
  - intros Hne. specialize (Hbk Hne). congruence.
  - eexists. by eapply dkg_inv_same; [..|exact Hd].
  - by eapply tally_inv_same; [..|exact Ht].
  - cbn. apply Forall_app. split; [done|]. apply Forall_singleton. exact Hw.
  - eexists. by eapply dkg_inv_same; [..|exact Hd].
  - by apply vote_tally_inv.
  - cbn. intros Hne'. destruct (Hs Hne') as [? ?]. congruence.
  - eexists. by eapply dkg_inv_same; [..|exact Hd].
  - by eapply tally_inv_same; [..|exact Ht].
  - eexists. by eapply dkg_inv_same; [..|exact Hd].
  - by eapply tally_inv_same; [..|exact Ht].
Qed.

Lemma new_election_inv admin id ks p e : 1 <= ks_threshold ks <= len (ks_members ks) →
  new_election admin id ks p = Done e → election_inv id e.
Proof.
  unfold new_election. intros Hq He. run_inv. injection He as <-. constructor; try done.
  - exists []. constructor; cbn; try done; [apply NoDup_nil_2|by intros ? ?%not_elem_of_nil|].
    intros _ d. unfold len, quorum_of. cbn. lia.
  - constructor; cbn; try done; [apply NoDup_nil_2|by intros ? ?%not_elem_of_nil|].
    intros _ d. unfold len, quorum_of. cbn. lia.
Qed.

Lemma check_members_nodup seen members u : check_members seen members = Done u → NoDup seen → NoDup (seen ++ members).
Proof.
  revert seen. induction members as [|m ms IH]; intros seen Hm Hs; [by rewrite app_nil_r|]. cbn [check_members] in Hm.
  apply run_Done_inv in Hm as (? & _ & Hm).
  apply run_Done_inv in Hm as (? & Hnew%revert_if_Done%bool_decide_eq_false & Hm).
  rewrite (cons_middle m), (assoc_L (++)). apply IH; [done|]. apply NoDup_app. split_and!; [done| |apply NoDup_singleton].
  by intros y Hy ->%list_elem_of_singleton.
Qed.

(** A set made by the constructor of KeyperSet.sol asks for more than half. *)
Lemma keyper_set_majority members urls th ks : new_keyper_set members urls th = Done ks →
  NoDup (ks_members ks) ∧ len (ks_members ks) < 2 * ks_threshold ks.
Proof.
  unfold new_keyper_set. intros Hk. apply run_Done_inv in Hk as (? & _ & Hk).
  apply run_Done_inv in Hk as (u & Hm & Hk). apply run_Done_inv in Hk as (? & Ht%revert_if_Done & [= <-]).
  cbn [ks_members ks_threshold]. apply orb_false_iff in Ht as [_ Ht]. split; [|lia].
  apply (check_members_nodup [] members u Hm), NoDup_nil_2.
Qed.

Record chain_inv (c : Chain) : Prop := {
  ci_count : 0 <= ch_count c;
  ci_ids : dict_keys (ch_elections c) = seqZ 1 (ch_count c);
  ci_elections id e : dict_get (ch_elections c) id = Some e → election_inv id e;
}.

Lemma chain_tx_inv c c' : chain_inv c → chain_tx c c' → chain_inv c'.
Proof.
  intros [Hc Hi He] Hs. destruct Hs as [c t _|c sender ks p c' id Hth Hp|c id e e' Hg Ht].
  - by constructor.
  - unfold publishElection in Hp. run_inv. injection Hp as <- <-.
    assert (Hfresh : dict_get (ch_elections c) (ch_count c + 1) = None).
    { apply dict_get_None. rewrite Hi, elem_of_seqZ. lia. }
    constructor; cbn.
    + lia.
    + rewrite dict_set_None by done. unfold dict_keys. rewrite fmap_app. cbn [fmap list_fmap fst].
      change ((ch_elections c).*1) with (dict_keys (ch_elections c)). rewrite Hi, seqZ_app by lia. f_equal.
      by rewrite Z.add_comm.
    + intros id e'. rewrite dict_get_set. case_decide as Heq; [|apply He]. subst id. intros [= <-].
      eapply (new_election_inv sender); [|done].
      repeat match goal with Hx : _ || _ = false |- _ => apply orb_false_iff in Hx as [? ?] end. lia.
  - constructor; cbn [put_election ch_count ch_elections]; [done|by erewrite dict_keys_update|].
    intros id' e2. rewrite dict_get_set. case_decide as Heq; [|apply He]. subst id'. intros [= <-].
    eapply effect_inv; [by apply He|by eapply tx_has_effect].
Qed.

Lemma chain_txs_inv c c' : chain_inv c → rtc chain_tx c c' → chain_inv c'.
Proof. intros Hc Hs. induction Hs as [|c c1 c' Hs _ IH]; [done|]. by apply IH, (chain_tx_inv c). Qed.

Lemma chain_reachable_inv c : chain_reachable c → chain_inv c.
Proof.
  intros [admin Hs]. eapply chain_txs_inv; [|exact Hs]. constructor; cbn; [done|done|done].
Qed.

(** * History *)

Record evolves (e e' : Election) : Prop := {
  ev_id : e_id e' = e_id e;
  ev_params : e_params e' = e_params e;
  ev_keypers : e_keyperSet e' = e_keyperSet e;
  ev_admin : e_admin e' = e_admin e;
  ev_cancelled : e_cancelled e = true → e_cancelled e' = true;
  ev_ballots : e_ballots e `prefix_of` e_ballots e';
  ev_shares : e_shares e `prefix_of` e_shares e';
  ev_key : dv_finalized (e_dkg e) = true → e_dkg e' = e_dkg e;
  ev_tally : is_Some (tv_published (e_tally e)) → e_tally e' = e_tally e;
}.
#[export] Instance evolves_preorder : PreOrder evolves.
Proof.
  split.
  - intros e. by constructor.
  - intros e1 e2 e3 [] []. constructor; try congruence; auto; try (by etransitivity).
    + intros Hf. rewrite ev_key1; [by apply ev_key0|]. by rewrite ev_key0.
    + intros Hf. rewrite ev_tally1; [by apply ev_tally0|]. by rewrite ev_tally0.
Qed.

Lemma effect_evolves now e e' : tx_effect now e e' → evolves e e'.
Proof.
  intros [|voter pk pks d Hnf _ _ _ _|b sender _ _ _ _|voter d t Hp _ _ _ _|voter s _ _ _ _|x res st Hx _];
    constructor; try done; cbn; try (by apply prefix_app_r).
  - congruence.
  - rewrite Hp. by intros [].
Qed.

Lemma chain_tx_evolves c c' id e : chain_inv c → chain_tx c c' → dict_get (ch_elections c) id = Some e →
  ∃ e', dict_get (ch_elections c') id = Some e' ∧ evolves e e'.
Proof.
  intros Hi Hs Hg. destruct Hs as [c t _|c sender ks p c' id' _ Hp|c id' e1 e' Hg' Ht].
  - by exists e.
  - unfold publishElection in Hp. run_inv. injection Hp as <- _. cbn. rewrite dict_get_set, decide_False; [by exists e|].
    intros ->. assert (Hn : dict_get (ch_elections c) (ch_count c + 1) = None); [|congruence].
    apply dict_get_None. rewrite (ci_ids _ Hi), elem_of_seqZ. lia.
  - cbn. rewrite dict_get_set. case_decide as Heq; [|by exists e]. subst id'. rewrite Hg in Hg'.
    injection Hg' as <-. exists e'. split; [done|]. eapply effect_evolves, tx_has_effect, Ht.
Qed.

Lemma chain_txs_evolve c c' id e : chain_inv c → rtc chain_tx c c' → dict_get (ch_elections c) id = Some e →
  ∃ e', dict_get (ch_elections c') id = Some e' ∧ evolves e e'.
Proof.
  intros Hi Hs. revert e Hi. induction Hs as [|c c1 c' Hs _ IH]; intros e Hi Hg; [by exists e|].
  destruct (chain_tx_evolves c c1 id e Hi Hs Hg) as (e1 & Hg1 & He1).
  destruct (IH e1 (chain_tx_inv c c1 Hi Hs) Hg1) as (e2 & Hg2 & He2). exists e2. split; [done|by etransitivity].
Qed.
End safety.
