(* ===== verification/Chain.v ===== *)
(** The chain adapter: adapters/chain/codec.py and adapters/chain/client.py over
    the contracts of [Contract].

    A transaction is estimated on the chain the adapter sees and mined later;
    [between] is what other transactions do to the chain in the meantime.  Gas,
    nonces and receipts are not modelled; [revert_text] is the message web3
    raises for a revert. *)

From Stdlib Require Import Ascii.
From S2P Require Import Prelude Params Primality Field Points Transcript Types Config Codecs WriteAuth Quorum DataLayer DataLayerSafety Port Json Contract.

(** * codec.py *)

Definition MODE_TO_U8 (m : Mode) : Z := match m with EXACT => 0 | AT_MOST => 1 end.
Definition U8_TO_MODE (n : Z) : result Mode :=
  if n =? 0 then Ok EXACT else if n =? 1 then Ok AT_MOST else Err KeyError.
Definition VARIANT_TO_U8 (v : Variant) : Z := match v with VariantA => 0 | VariantB => 1 end.
Definition U8_TO_VARIANT (n : Z) : result Variant :=
  if n =? 0 then Ok VariantA else if n =? 1 then Ok VariantB else Err KeyError.
Definition DUP_TO_U8 (p : DuplicatePolicy) : Z := match p with FIRST_WINS => 0 | LAST_WINS => 1 end.
Definition U8_TO_DUP (n : Z) : result DuplicatePolicy :=
  if n =? 0 then Ok FIRST_WINS else if n =? 1 then Ok LAST_WINS else Err KeyError.
Definition REASON_TO_U8 (r : ExclusionReason) : Z :=
  match r with
  | INVALID_PROOF => 0 | INVALID_SIGNATURE => 1 | INVALID_ATTESTATION => 2 | DUPLICATE_PSEUDONYM => 3
  | MALFORMED => 4 | OUT_OF_WINDOW => 5
  end.
Definition U8_TO_REASON (n : Z) : result ExclusionReason :=
  match list_find (λ r, REASON_TO_U8 r = n) all_reasons with Some (_, r) => Ok r | None => Err KeyError end.

Definition eid_to_uint (election_id : bytes) : Z := from_bytes_be election_id.
Definition uint_to_eid (value : Z) : result bytes := to_bytes_be value 32.

Section codec.
Context (float_repr : Z → Z → string) (float_of_text : string → json).

Definition pack_attestation (att : Attestation) : bytes :=
  encode_utf8 (json_dumps_compact float_repr (enc_attestation att)).
Definition unpack_attestation (raw : bytes) : result Attestation :=
  text ← decode_utf8 raw; v ← json_loads float_of_text text; dec_attestation v.

Definition ct_pair (ct : WireCiphertext) : bytes * bytes := (c1 ct, c2 ct).
Definition pair_ct (c : bytes * bytes) : WireCiphertext := mkWireCiphertext c.1 c.2.

Definition ballot_to_tuple (env : BallotEnvelope) : CBallot :=
  mkCBallot (env_pseudonym env) (env_vk env) (ct_pair <$> env_ciphertexts env) (env_zk_proof env)
    (env_voter_signature env) (pack_attestation (env_attestation env)).

Definition ballot_from_contract (raw : CBallot) (election_id : bytes) : result BallotEnvelope :=
  att ← unpack_attestation (b_wrAttestation raw);
  Ok (mkBallotEnvelope election_id (b_pseudonym raw) (b_vk raw) (pair_ct <$> b_ciphertexts raw) (b_zkProof raw)
        (b_voterSignature raw) att).

Definition ballot_record_from_contract (raw : BallotRecord) (election_id : bytes) (sequence_number : Z)
  : result StoredBallot :=
  env ← ballot_from_contract (r_ballot raw) election_id;
  Ok (mkStoredBallot sequence_number env (Some (r_submittedAt raw))).
End codec.

Definition aggregate_to_tuple (agg : AggregateArtifact) : EncryptedTally :=
  mkTally (ct_pair <$> aggregates agg) (agg_admitted agg)
    ((λ x, (exc_sequence_number x, REASON_TO_U8 (reason x))) <$> agg_exclusions agg)
    (agg_total_admitted_weight agg) (agg_total_scaled_weight agg).

(** Of a contract that returns the five fields. *)
Definition aggregate_from_contract (raw : EncryptedTally) (election_id : bytes) : result AggregateArtifact :=
  exclusions ← mapM (λ x : Z * Z, r ← U8_TO_REASON x.2; Ok (mkExclusion x.1 r)) (t_exclusions raw);
  Ok (mkAggregateArtifact election_id (pair_ct <$> t_aggregates raw) (t_admitted raw) exclusions
        (t_totalAdmittedWeight raw) (t_totalScaledWeight raw)).

Definition share_to_contract (share : DecryptionShareEnvelope) : list bytes * list (Z * Z) :=
  (sigma <$> entries share,
   (λ e, (from_bytes_be (take 32 (proof e)), from_bytes_be (drop 32 (proof e)))) <$> entries share).

Definition share_from_contract (raw : CShare) (election_id : bytes) : result DecryptionShareEnvelope :=
  entries ← mapM (λ sp : bytes * (Z * Z),
              e ← to_bytes_be sp.2.1 32; z ← to_bytes_be sp.2.2 32;
              Ok (mkDecryptionShareEntry sp.1 (e ++ z))) (zip (s_shares raw) (s_proofs raw));
  Ok (mkDecryptionShareEnvelope election_id (s_keyperIndex raw + 1) entries).

(** * client.py: reverts *)

(** [s in msg] *)
Fixpoint starts_with (p s : string) : bool :=
  match p, s with
  | EmptyString, _ => true
  | String a p, String b s => Ascii.eqb a b && starts_with p s
  | _, EmptyString => false
  end.
Fixpoint contains (p msg : string) : bool :=
  starts_with p msg || match msg with String _ msg => contains p msg | EmptyString => false end.

(** [re.findall(r"0x\[0-9a-fA-F\]{8,}", msg)], each match cut to ten characters. *)
Fixpoint hex_run (s : string) : nat :=
  match s with String c s => match hex_value c with Some _ => S (hex_run s) | None => 0 end | EmptyString => 0 end.
Fixpoint hex_words (msg : string) (skip : nat) : list string :=
  match msg, skip with
  | EmptyString, _ => []
  | String _ msg, S skip => hex_words msg skip
  | String a rest, O =>
      match rest with
      | String b digits =>
          if Ascii.eqb a "0" && Ascii.eqb b "x" && (8 <=? hex_run digits)%nat
          then substring 0 10 msg :: hex_words rest (S (hex_run digits))
          else hex_words rest 0
      | EmptyString => []
      end
  end.

Definition _WINDOW_NAMES : list string := ["VotingNotStarted"; "VotingClosed"; "VotingStillOpen"; "AggregateNotPublished"].
Definition _IMMUTABILITY_NAMES : list string :=
  ["AlreadyCancelled"; "VotingAlreadyStarted"; "AlreadyVoted"; "AlreadyFinalized"; "ElectionIdTaken"].
Definition _AUTHZ_NAMES : list string := ["AccessControl"; "UnauthorizedKeyper"; "InvalidMember"; "missing role"].

Section reverts.
Context `{Crypto}.

Definition _selector (signature : string) : string := "0x" +:+ hex (take 4 (keccak (encode_utf8 signature))).

Definition _AUTHZ_SELECTORS : list string :=
  _selector <$> ["AccessControlUnauthorizedAccount(address,bytes32)"; "UnauthorizedKeyper(address)"; "InvalidMember(address)"].
Definition _IMMUTABILITY_SELECTORS : list string :=
  _selector <$> ["AlreadyCancelled()"; "VotingAlreadyStarted(uint256)"; "AlreadyVoted(address)"; "AlreadyFinalized()";
                 "ElectionIdTaken(uint256)"].
Definition _VOTING_WINDOW_SELECTORS : list string :=
  _selector <$> ["VotingNotStarted(uint256)"; "VotingClosed(uint256)"; "VotingStillOpen(uint256)"; "AggregateNotPublished()"].

Definition any_in (names : list string) (msg : string) : bool := existsb (λ n, contains n msg) names.
Definition meets (a b : list string) : bool := existsb (λ x, bool_decide (x ∈ b)) a.

Definition _map_revert (msg : string) : exn :=
  if any_in _WINDOW_NAMES msg then VotingWindowError
  else if any_in _IMMUTABILITY_NAMES msg then ImmutabilityError
  else if any_in _AUTHZ_NAMES msg then WriteAuthorizationError
  else
    let selectors := hex_words msg 0 in
    if meets selectors _VOTING_WINDOW_SELECTORS then VotingWindowError
    else if meets selectors _IMMUTABILITY_SELECTORS then ImmutabilityError
    else if meets selectors _AUTHZ_SELECTORS then WriteAuthorizationError
    else ValueError.
End reverts.

(** * client.py: BlockchainDataLayer *)

(** [Web3.to_checksum_address] of bytes; addresses are kept as their bytes. *)
Definition to_checksum_address (b : bytes) : result bytes := if len b =? 20 then Ok b else Err ValueError.

(** web3 refuses an argument that does not fit its ABI type; its exception is
    none of the port's. *)
Definition fits (bits n : Z) : bool := (0 <=? n) && (n <? 2 ^ bits).
Definition abi_ok (c : bool) : result unit := raise_if (negb c) TypeError.

(** [getElection().call()]: the fields of [ElectionConfigView] in the order the
    client indexes them. *)
Record ConfigView := mkView {
  v_electionId : Z; v_params : ElectionParams; v_thresholdN : Z; v_thresholdT : Z; v_keyperAddresses : list bytes;
  v_cancelled : bool; v_adminAddr : bytes; v_keyperURLs : list string;
}.
Definition getElection (e : Election) : ConfigView :=
  mkView (e_id e) (e_params e) (len (ks_members (e_keyperSet e))) (ks_threshold (e_keyperSet e))
    (ks_members (e_keyperSet e)) (e_cancelled e) (e_admin e) (ks_urls (e_keyperSet e)).

Definition _config_to_params (config : ElectionConfig) : result ElectionParams :=
  match gateway_keys config with
  | [] => Err ValueError
  | proxy :: _ =>
      publisher ← to_checksum_address (result_publisher_key config);
      proxy ← to_checksum_address proxy;
      Ok (mkParams (voting_start config) (voting_end config) (self_submit_fee_wei config) (num_candidates config)
            (budget config) (MODE_TO_U8 (mode config)) (VARIANT_TO_U8 (variant config)) (weighted config) (scale config)
            (DUP_TO_U8 (duplicate_policy config)) (protocol_version config) (eligibility_key config) publisher proxy)
  end.

(** The configuration is constructed, so it is validated. *)
Definition _config_from_view (v : ConfigView) : result ElectionConfig :=
  let p := v_params v in
  eid ← uint_to_eid (v_electionId v);
  m ← U8_TO_MODE (p_mode p);
  va ← U8_TO_VARIANT (p_variant p);
  dup ← U8_TO_DUP (p_duplicatePolicy p);
  let th := mkThreshold (v_thresholdT v) (v_thresholdN v) in
  _ ← threshold_post_init th;
  let config :=
    mkElectionConfig eid (p_numCandidates p) (p_budget p) m va (p_weighted p) dup (p_votingStart p) (p_votingEnd p) th
      (zip_with mkKeyperIdentity (v_keyperAddresses v) (v_keyperURLs v)) (p_pkWR p) (p_resultPublisher p)
      [p_voteProxy p] (v_adminAddr v) (p_protocolVersion p) (p_scale p) (p_selfSubmitFee p) in
  _ ← config_post_init config;
  Ok config.

(** The widths of [ElectionParams]. *)
Definition params_fit (p : ElectionParams) : bool :=
  fits 64 (p_votingStart p) && fits 64 (p_votingEnd p) && fits 256 (p_selfSubmitFee p)
  && fits 32 (p_numCandidates p) && fits 32 (p_budget p) && fits 32 (p_scale p).
Definition tally_fits (t : EncryptedTally) : bool :=
  forallb (fits 256) (t_admitted t) && forallb (λ x, fits 256 x.1) (t_exclusions t)
  && fits 256 (t_totalAdmittedWeight t) && fits 256 (t_totalScaledWeight t).

Section client.
Context `{Crypto} `{EthAccount} `{Abi}.
Context (float_repr : Z → Z → string) (float_of_text : string → json) (revert_text : revert → string).
Context (between : Chain → Chain) (account : option bytes).

(** [_send]: the estimate raises the mapped revert, a mined transaction that
    reverts a [RuntimeError]; without an account the estimate fails. *)
Definition _send {A} (c : Chain) (tx : bytes → Chain → run A) : result A :=
  match account with
  | None => Err ValueError
  | Some sender =>
      match tx sender c with
      | Revert r => Err (_map_revert (revert_text r))
      | Done _ => match tx sender (between c) with Done a => Ok a | Revert _ => Err RuntimeError end
      end
  end.

Definition _election (c : Chain) (eid : bytes) : result Election :=
  match dict_get (ch_elections c) (eid_to_uint eid) with Some e => Ok e | None => Err KeyError end.

(** A transaction to the election with this id. *)
Definition to_election {A} (eid : bytes) (f : bytes → Z → Election → run (Election * A)) (sender : bytes) (c : Chain)
  : run (Chain * A) :=
  match dict_get (ch_elections c) (eid_to_uint eid) with
  | Some e =>
      '(e', a) ← f sender (ch_time c) e;
      Done (put_election c (eid_to_uint eid) e', a)
  | None => Revert Panic
  end.
Definition no_result (m : run Election) : run (Election * unit) := e ← m; Done (e, tt).
Definition send_unit (c : Chain) (eid : bytes) (f : bytes → Z → Election → run Election) : result Chain :=
  '(c', _) ← _send c (to_election eid (λ sender now e, no_result (f sender now e))); Ok c'.

(** ** Election lifecycle *)

Definition chain_register (c : Chain) (config : ElectionConfig) (admin_sig : bytes) : result (Chain * bytes) :=
  expected ← to_bytes_be (ch_count c + 1) 32;
  _ ← raise_if (negb (bool_decide (election_id config = expected))) ImmutabilityError;
  members ← mapM (λ k, to_checksum_address (signing_key k)) (keypers config);
  _ ← abi_ok (fits 64 (quorum (threshold config)));
  ks ← _send c (λ _ _, new_keyper_set members (url <$> keypers config) (quorum (threshold config)));
  params ← _config_to_params config;
  _ ← abi_ok (params_fit params);
  '(c', id) ← _send c (λ sender c, publishElection c sender ks params);
  eid ← uint_to_eid id;
  Ok (c', eid).

Definition chain_cancel (c : Chain) (eid admin_sig : bytes) : result Chain :=
  _ ← _election c eid;
  send_unit c eid (λ sender now e, cancelElection e sender now).

Definition finalized_key_of (e : Election) : option FinalizedKey :=
  if dv_finalized (e_dkg e) then Some (mkFinalizedKey (dv_pk (e_dkg e)) (dv_committee (e_dkg e))) else None.

Definition chain_get_election (c : Chain) (eid : bytes) : result ElectionRecord :=
  e ← _election c eid;
  config ← _config_from_view (getElection e);
  Ok (mkElectionRecord config (e_cancelled e) (finalized_key_of e) (e_stalled e)).

(** The ids whose address is not zero and whose administrator is asked for. *)
Definition is_listed (c : Chain) (f : option ElectionFilter) (i : Z) : bool :=
  match dict_get (ch_elections c) i with
  | None => false
  | Some e => match f with Some (mkElectionFilter (Some key)) => bool_decide (e_admin e = key) | _ => true end
  end.
Definition chain_list_elections (c : Chain) (f : option ElectionFilter) : result (list bytes) :=
  mapM uint_to_eid (filter (λ i, is_listed c f i = true) (seqZ 1 (ch_count c))).

(** ** DKG *)

(** The committee's keyper by its signature; what recovery raises passes. *)
Definition recovered_signer (digest : result bytes) (sig : bytes) : result bytes :=
  d ← digest; a ← recover_digest d sig; to_checksum_address a.

(** [mine\[-1\]] of the events of an address. *)
Definition last_of (addr : bytes) (events : list (bytes * bytes)) : option bytes :=
  snd <$> last (filter (λ ev, ev.1 = addr) events).

Definition chain_submit_dkg_result (c : Chain) (eid pk : bytes) (pks : list bytes) (keyper_sig : bytes) : result Chain :=
  e ← _election c eid;
  addr ← recovered_signer (dkg_result_digest eid pk pks) keyper_sig;
  if dv_finalized (e_dkg e) then
    if bool_decide (dv_pk (e_dkg e) = pk) then Ok c else Err ImmutabilityError
  else
    match last_of addr (dv_events (e_dkg e)) with
    | Some mine => if bool_decide (mine = pk) then Ok c else Err ImmutabilityError
    | None => send_unit c eid (λ _ _ e, voteDKGResultSigned e pk pks keyper_sig)
    end.

Definition chain_get_dkg_submissions (c : Chain) (eid : bytes) : result (list DKGResultSubmission) :=
  e ← _election c eid;
  let committee := if dv_finalized (e_dkg e) then dv_committee (e_dkg e) else [] in
  Ok ((λ ev, mkDKGResultSubmission eid ev.2 committee []) <$> dv_events (e_dkg e)).

Definition chain_get_finalized_key (c : Chain) (eid : bytes) : result (option FinalizedKey) :=
  e ← _election c eid; Ok (finalized_key_of e).

(** ** Ballots *)

Definition chain_submit_ballot (c : Chain) (eid : bytes) (ballot : BallotEnvelope) (gateway_sig : bytes)
  : result (Chain * Z) :=
  _ ← _election c eid;
  let t := ballot_to_tuple float_repr ballot in
  _ ← abi_ok (len (b_pseudonym t) =? 32);
  _send c (to_election eid (λ sender now e, submitVote e sender 0 now t)).

Definition chain_list_ballots (c : Chain) (eid : bytes) (start count : Z) : result (list StoredBallot) :=
  e ← _election c eid;
  let total := getNumBallots e in
  let count := Z.min count (Z.max 0 (total - start)) in
  if count <=? 0 then Ok [] else
  _ ← abi_ok (fits 256 start);
  match getBallots e start count with
  | Revert r => Err (_map_revert (revert_text r))
  | Done raw =>
      mapM (λ e : nat * BallotRecord, ballot_record_from_contract float_of_text e.2 eid (start + Z.of_nat e.1))
        (zip (seq 0 (length raw)) raw)
  end.

Definition chain_count_ballots (c : Chain) (eid : bytes) : result Z := e ← _election c eid; Ok (getNumBallots e).

(** ** Tally artifacts *)

Definition _read_aggregate (e : Election) (eid : bytes) : result (option AggregateArtifact) :=
  match getAggregate e with
  | Revert _ => Ok None
  | Done raw => a ← aggregate_from_contract raw eid; Ok (Some a)
  end.

Definition chain_get_aggregate (c : Chain) (eid : bytes) : result (option AggregateArtifact) :=
  e ← _election c eid; _read_aggregate e eid.

Definition chain_submit_aggregate (c : Chain) (eid : bytes) (aggregate : AggregateArtifact) (keyper_sig : bytes)
  : result Chain :=
  e ← _election c eid;
  digest ← aggregate_digest_of eid aggregate;
  addr ← recovered_signer (Ok digest) keyper_sig;
  existing ← _read_aggregate e eid;
  match existing with
  | Some old => if bool_decide (old = aggregate) then Ok c else Err ImmutabilityError
  | None =>
      if bool_decide (last_of addr (tv_events (e_tally e)) = Some digest) then Ok c else
      let t := aggregate_to_tuple aggregate in
      _ ← abi_ok (tally_fits t);
      send_unit c eid (λ _ now e, submitAggregateSigned e now t keyper_sig)
  end.

Definition chain_list_decryption_shares (c : Chain) (eid : bytes) : result (list DecryptionShareEnvelope) :=
  e ← _election c eid; mapM (λ s, share_from_contract s eid) (e_shares e).

Definition chain_submit_decryption_share (c : Chain) (eid : bytes) (share : DecryptionShareEnvelope)
    (keyper_sig : bytes) : result Chain :=
  e ← _election c eid;
  let '(shares, proofs) := share_to_contract share in
  addr ← recovered_signer (decryption_share_digest eid shares proofs) keyper_sig;
  match getMemberIndex (e_keyperSet e) addr with
  | Revert _ => Err WriteAuthorizationError
  | Done idx0 =>
      _ ← raise_if (negb (keyper_index share =? idx0 + 1)) WriteAuthorizationError;
      all ← chain_list_decryption_shares c eid;
      let existing := foldl (λ d s, dict_set d (keyper_index s) s) [] all in
      match dict_get existing (keyper_index share) with
      | Some old => if bool_decide (old = share) then Ok c else Err ImmutabilityError
      | None =>
          _ ← abi_ok (forallb (λ p, fits 256 p.1 && fits 256 p.2) proofs);
          send_unit c eid (λ _ now e, submitDecryptionShareSigned e now shares proofs keyper_sig)
      end
  end.

(** The bound is derived, not stored. *)
Definition chain_get_result (c : Chain) (eid : bytes) : result (option ResultArtifact) :=
  e ← _election c eid;
  match e_result e with
  | None => Ok None
  | Some (tot, indices) =>
      agg ← chain_get_aggregate c eid;
      let bound := p_budget (e_params e) * match agg with Some a => agg_total_scaled_weight a | None => 0 end in
      Ok (Some (mkResultArtifact eid tot indices bound))
  end.

Definition chain_publish_result (c : Chain) (eid : bytes) (res : ResultArtifact) (sig : bytes) : result Chain :=
  e ← _election c eid;
  if bool_decide (is_Some (e_result e)) then
    existing ← chain_get_result c eid;
    match existing with
    | Some old => if bool_decide (totals old = totals res) then Ok c else Err ImmutabilityError
    | None => Ok c
    end
  else
    _ ← abi_ok (forallb (fits 256) (totals res) && forallb (fits 8) (keyper_indices res));
    send_unit c eid (λ sender now e, publishResult e sender now (totals res) (keyper_indices res)).

Definition chain_set_tally_stalled (c : Chain) (eid : bytes) (stalled : bool) (sig : bytes) (issued_at : Z)
  : result Chain :=
  _ ← _election c eid;
  send_unit c eid (λ sender now e, if stalled then markTallyStalled e sender now else clearTallyStalled e sender).

(** The adapter as a data layer: the clock it consults is the chain's. *)
Definition at_time (now : Z) (c : Chain) : Chain := mkChain (ch_admin c) (ch_count c) (ch_elections c) now.

Definition chain_layer : DataLayer Chain := {|
  dl_register_election := chain_register;
  dl_cancel_election c now := chain_cancel (at_time now c);
  dl_list_elections := chain_list_elections;
  dl_get_election := chain_get_election;
  dl_get_dkg_submissions := chain_get_dkg_submissions;
  dl_get_finalized_key := chain_get_finalized_key;
  dl_list_ballots := chain_list_ballots;
  dl_count_ballots := chain_count_ballots;
  dl_get_aggregate := chain_get_aggregate;
  dl_list_decryption_shares := chain_list_decryption_shares;
  dl_get_result := chain_get_result;
  dl_submit_dkg_result := chain_submit_dkg_result;
  dl_submit_ballot c now := chain_submit_ballot (at_time now c);
  dl_submit_aggregate c now := chain_submit_aggregate (at_time now c);
  dl_submit_decryption_share c now := chain_submit_decryption_share (at_time now c);
  dl_publish_result := chain_publish_result;
  dl_set_tally_stalled c now now' := chain_set_tally_stalled (at_time now c);
  dl_verifiability_tier _ := 0;
|}.

End client.
