(* ===== verification/ChainSafety.v ===== *)
(** The chain adapter over the contracts: what is written through it is read
    back, reads of ballots serve the port, elections keep their invariants
    whatever transactions anybody sends, and where one bad ballot stops them. *)

From Stdlib Require Import Ascii.
From S2P Require Import Prelude Params Primality Field Points Transcript Types Config Codecs WriteAuth Quorum DataLayer DataLayerSafety Port Json Contract ContractSafety Chain.

(** * The codec *)

Lemma flat_bytes b : flat_value (enc_bytes b).
Proof. cbn. change ("0x" +:+ hex b) with (String "0" (String "x" (hex b))). cbn [simple]. by rewrite simple_hex. Qed.

Lemma flat_attestation a : attestation_wf a → ∃ o, enc_attestation a = JObj o ∧ o ≠ [] ∧ flat o.
Proof.
  intros (_ & _ & _ & Hw & Hn & _). eexists. split; [done|]. split; [done|]. split; [apply (bool_decide_unpack _); vm_compute; exact I|].
  repeat (apply Forall_cons_2; [split; [done|cbn [snd]; try apply flat_bytes]|]); [..|apply Forall_nil_2].
  - by destruct (att_scheme a).
  - cbn. lia.
  - cbn. lia.
Qed.

Lemma be_from_bytes32 b : length b = 32%nat → be_bytes 32 (from_bytes_be b) = b.
Proof. intros <-. apply be_bytes_from. Qed.

Section codec.
Context (float_repr : Z → Z → string) (float_of_text : string → json).

Lemma unpack_pack a : attestation_wf a → unpack_attestation float_of_text (pack_attestation float_repr a) = Ok a.
Proof.
  intros Hw. destruct (flat_attestation a Hw) as (o & Ho & Hne & Hf). unfold unpack_attestation, pack_attestation.
  rewrite Ho, decode_encode_ascii, bind_Ok, loads_flat, bind_Ok, <- Ho by (done || by apply ascii_flat, Hf).
  by apply dec_enc_attestation.
Qed.

Lemma pair_ct_pair (l : list WireCiphertext) : pair_ct <$> (ct_pair <$> l) = l.
Proof. rewrite <- list_fmap_compose. transitivity (id <$> l); [|apply list_fmap_id]. apply list_fmap_ext. by intros _ [] _. Qed.

Lemma ballot_roundtrip b eid : attestation_wf (env_attestation b) → env_election_id b = eid →
  ballot_from_contract float_of_text (ballot_to_tuple float_repr b) eid = Ok b.
Proof.
  intros Ha <-. unfold ballot_from_contract, ballot_to_tuple. cbn. rewrite unpack_pack by done. rewrite bind_Ok.
  rewrite pair_ct_pair. by destruct b.
Qed.

Lemma reason_roundtrip r : U8_TO_REASON (REASON_TO_U8 r) = Ok r.
Proof. by destruct r. Qed.

Lemma aggregate_roundtrip a eid : agg_election_id a = eid → aggregate_from_contract (aggregate_to_tuple a) eid = Ok a.
Proof.
  intros <-. unfold aggregate_from_contract, aggregate_to_tuple. cbn. rewrite pair_ct_pair.
  assert (Hm : mapM (λ x : Z * Z, r ← U8_TO_REASON x.2; Ok (mkExclusion x.1 r))
    ((λ x, (exc_sequence_number x, REASON_TO_U8 (reason x))) <$> agg_exclusions a) = Ok (agg_exclusions a)).
  { apply mapM_Ok, Forall2_fmap_l, Forall_Forall2_diag, Forall_forall. intros x _. cbn.
    rewrite reason_roundtrip, bind_Ok. by destruct x. }
  rewrite Hm, bind_Ok. by destruct a.
Qed.

Lemma share_roundtrip s now eid : share_wf s → share_election_id s = eid →
  let '(shares, proofs) := share_to_contract s in
  share_from_contract (mkCShare (keyper_index s - 1) now shares proofs) eid = Ok s.
Proof.
  intros (_ & _ & He) <-. unfold share_to_contract, share_from_contract. cbn.
  assert (Hm : mapM (λ sp : bytes * (Z * Z), e ← to_bytes_be sp.2.1 32; z ← to_bytes_be sp.2.2 32;
      Ok (mkDecryptionShareEntry sp.1 (e ++ z)))
    (zip (sigma <$> entries s)
       ((λ e, (from_bytes_be (take 32 (proof e)), from_bytes_be (drop 32 (proof e)))) <$> entries s)) = Ok (entries s)).
  { rewrite zip_with_fmap_l, zip_with_fmap_r. apply mapM_Ok. induction He as [|x l [_ Hp] _ IH]; [constructor|].
    cbn. constructor; [|exact IH]. cbn. unfold len in Hp.
    assert (H1 : length (take 32 (proof x)) = 32%nat) by (rewrite length_take; lia).
    assert (H2 : length (drop 32 (proof x)) = 32%nat) by (rewrite length_drop; lia).
    rewrite !to_bytes_be_small, !bind_Ok.
    - rewrite !be_from_bytes32, take_drop by done. by destruct x.
    - pose proof (from_bytes_range (take 32 (proof x))) as Hr. unfold len in Hr. rewrite H1 in Hr. exact Hr.
    - pose proof (from_bytes_range (drop 32 (proof x))) as Hr. unfold len in Hr. rewrite H2 in Hr. exact Hr. }
  rewrite Hm, bind_Ok. replace (keyper_index s - 1 + 1) with (keyper_index s) by lia. by destruct s.
Qed.
End codec.

(** * Reading ballots *)

Section reading.
Context `{Crypto} `{EthAccount} `{Abi}.
Context (float_repr : Z → Z → string) (float_of_text : string → json) (revert_text : revert → string).
Context (between : Chain → Chain) (account : option bytes).

#[local] Instance chain_dl : DataLayer Chain :=
  chain_layer float_repr float_of_text revert_text between account.

(** The ballots of an election as the adapter decodes them. *)
Definition decode_ballot (eid : bytes) (e : nat * BallotRecord) : result StoredBallot :=
  ballot_record_from_contract float_of_text e.2 eid (Z.of_nat e.1).
Definition decoded (eid : bytes) (e : Election) : result (list StoredBallot) :=
  mapM (decode_ballot eid) (zip (seq 0 (length (e_ballots e))) (e_ballots e)).

(** A page of the numbered ballots. *)
Lemma zip_page {A} (l : list A) s k :
  take k (drop s (zip (seq 0 (length l)) l)) = zip (seq s (length (take k (drop s l)))) (take k (drop s l)).
Proof.
  rewrite zip_with_drop, zip_with_take, drop_seq, take_seq, length_take, length_drop. done.
Qed.

Lemma mapM_shift {A B} (g : A → Z → result B) (start : nat) r j :
  mapM (λ e : nat * A, g e.2 (Z.of_nat start + Z.of_nat e.1)) (zip (seq j (length r)) r)
  = mapM (λ e : nat * A, g e.2 (Z.of_nat e.1)) (zip (seq (start + j) (length r)) r).
Proof.
  revert j. induction r as [|x r IH]; intros j; [done|]. cbn. rewrite Nat2Z.inj_add.
  destruct (g x _); [|done]. rewrite !bind_Ok. specialize (IH (S j)). rewrite Nat.add_succ_r in IH.
  by rewrite IH.
Qed.

Lemma getBallots_slice e start count : 0 <= start → 0 <= count → start + count <= len (e_ballots e) →
  getBallots e start count = Done (take (Z.to_nat count) (drop (Z.to_nat start) (e_ballots e))).
Proof.
  intros Hs Hc Hl. unfold getBallots. rewrite <- (Z2Nat.id count) by done.
  rewrite <- (Z2Nat.id count) in Hl by done. generalize dependent (Z.to_nat count). clear count Hc.
  intros n Hl. unfold len in Hl. rewrite Nat2Z.id. unfold seqZ. rewrite Nat2Z.id.
  assert (Hg : ∀ k, (k + n <= length (drop (Z.to_nat start) (e_ballots e)))%nat →
    foldr (λ i rest, r ← match e_ballots e !! Z.to_nat (start + i) with Some r => Done r | None => Revert Panic end;
                     l ← rest; Done (r :: l)) (Done []) ((λ i : nat, Z.of_nat i + 0) <$> seq k n)
    = Done (take n (drop k (drop (Z.to_nat start) (e_ballots e))))).
  { clear Hl. induction n as [|n IH]; intros k Hk; [done|]. cbn [seq fmap list_fmap foldr].
    destruct (lookup_lt_is_Some_2 (drop (Z.to_nat start) (e_ballots e)) k) as [r Hr]; [lia|].
    rewrite (drop_S _ _ _ Hr). cbn [take]. rewrite IH by lia. rewrite lookup_drop in Hr.
    replace (Z.to_nat (start + (Z.of_nat k + 0))) with (Z.to_nat start + k)%nat by lia. by rewrite Hr. }
  rewrite Hg by (rewrite length_drop; lia). by rewrite drop_0.
Qed.

Lemma chain_list_page c eid e start count : _election c eid = Ok e → len (e_ballots e) <= 2 ^ 256 →
  0 <= start → 0 <= count → dl_list_ballots c eid start count =
    mapM (decode_ballot eid)
      (take (Z.to_nat count) (drop (Z.to_nat start) (zip (seq 0 (length (e_ballots e))) (e_ballots e)))).
Proof.
  intros He Hmax Hs Hc. cbn [dl_list_ballots chain_dl chain_layer]. unfold chain_list_ballots. rewrite He, bind_Ok.
  unfold getNumBallots. set (n := Z.min count (Z.max 0 (len (e_ballots e) - start))).
  destruct (Z.leb_spec n 0) as [Hn|Hn].
  { assert (Hd : count = 0 ∨ len (e_ballots e) <= start) by lia. unfold len in Hd.
    destruct Hd as [->|Hd]; [done|]. rewrite drop_ge; [by rewrite take_nil|].
    rewrite length_zip_with, length_seq. lia. }
  assert (Hfit : fits 256 start = true) by (unfold fits; lia). rewrite Hfit.
  unfold abi_ok. cbn [negb raise_if]. rewrite bind_Ok, getBallots_slice by lia.
  set (raw := take (Z.to_nat n) _).
  assert (Hraw : raw = take (Z.to_nat count) (drop (Z.to_nat start) (e_ballots e))).
  { unfold raw, n, len. destruct (Z.le_gt_cases count (Z.of_nat (length (e_ballots e)) - start)).
    - f_equal. lia.
    - rewrite !take_ge; [done|rewrite length_drop; lia..]. }
  rewrite (zip_page (e_ballots e) (Z.to_nat start) (Z.to_nat count)), <- Hraw.
  pose proof (mapM_shift (λ r n, ballot_record_from_contract float_of_text r eid n) (Z.to_nat start) raw 0) as Hsh.
  rewrite (Z2Nat.id start Hs), Nat.add_0_r in Hsh. exact Hsh.
Qed.

Lemma mapM_page {A B} (f : A → result B) l l' s k : mapM f l = Ok l' →
  mapM f (take k (drop s l)) = Ok (take k (drop s l')).
Proof. rewrite !mapM_Ok. intros Hf. by apply Forall2_take, Forall2_drop. Qed.

(** Reads of an election whose ballots all decode serve the port's order. *)
Lemma chain_serves c eid e l : _election c eid = Ok e → len (e_ballots e) <= 2 ^ 256 → decoded eid e = Ok l →
  serves c eid l.
Proof.
  intros He Hmax Hl. unfold decoded in Hl. pose proof (proj1 (mapM_Ok _ _ _) Hl) as Hf. constructor.
  - cbn [dl_count_ballots chain_dl chain_layer]. unfold chain_count_ballots. rewrite He, bind_Ok.
    unfold getNumBallots, len. rewrite <- (Forall2_length _ _ _ Hf), length_zip_with, length_seq. do 2 f_equal. lia.
  - intros start count Hs [Hc _]. rewrite (chain_list_page c eid e) by done. by apply mapM_page.
  - intros i b Hb. destruct (Forall2_lookup_r _ _ _ _ _ Hf Hb) as ([n r] & Hz & Hd).
    apply lookup_zip_with_Some in Hz as (n' & r' & [= -> ->] & Hn & _). apply lookup_seq in Hn as [-> _].
    unfold decode_ballot in Hd. cbn [fst snd] in Hd. unfold ballot_record_from_contract in Hd.
    apply bind_Ok_inv in Hd as (env & _ & <-%Ok_inj). done.
Qed.

(** A ballot that does not decode fails every page it is on. *)
Lemma page_fails c eid e start count i r err : _election c eid = Ok e → len (e_ballots e) <= 2 ^ 256 →
  0 <= start <= Z.of_nat i → Z.of_nat i < start + count → e_ballots e !! i = Some r →
  ballot_record_from_contract float_of_text r eid (Z.of_nat i) = Err err →
  ∃ err', dl_list_ballots c eid start count = Err err'.
Proof.
  intros He Hmax Hs Hi Hr Hd. rewrite (chain_list_page c eid e) by (done || lia).
  destruct (mapM _ _) as [l|err'] eqn:Hm; [|by exists err']. exfalso. apply mapM_Ok in Hm.
  set (p := zip _ _) in Hm. assert (Hp : p !! i = Some (i, r)).
  { unfold p. apply lookup_zip_with_Some. exists i, r. split_and!; [done| |done]. apply lookup_seq.
    apply lookup_lt_Some in Hr. lia. }
  assert (Hl : take (Z.to_nat count) (drop (Z.to_nat start) p) !! (i - Z.to_nat start)%nat = Some (i, r)).
  { rewrite lookup_take_lt, lookup_drop by lia. by replace (Z.to_nat start + (i - Z.to_nat start))%nat with i by lia. }
  destruct (Forall2_lookup_l _ _ _ _ _ Hm Hl) as (sb & _ & Hb). unfold decode_ballot in Hb. cbn [fst snd] in Hb.
  congruence.
Qed.

Lemma chain_page_short c eid start count page : dl_list_ballots c eid start count = Ok page → 0 <= start → 0 < count →
  (∃ e, _election c eid = Ok e ∧ len (e_ballots e) <= 2 ^ 256) → len page <= count.
Proof.
  intros Hp Hs Hc (e & He & Hmax). rewrite (chain_list_page c eid e) in Hp by (done || lia).
  apply mapM_Ok, Forall2_length in Hp. rewrite length_take in Hp. unfold len. lia.
Qed.

(** The reader asked for every ballot. *)
Lemma read_pages_asked c eid e fuel total start out res i : _election c eid = Ok e → len (e_ballots e) <= 2 ^ 256 →
  read_pages fuel c eid total start out = Some (Ok res) → 0 <= start <= i → i < total →
  ∃ start' count page, dl_list_ballots c eid start' count = Ok page ∧ 0 <= start' <= i ∧ i < start' + count.
Proof.
  intros He Hmax. revert start out. induction fuel as [|fuel IH]; intros start out Hr Hs Hi; cbn [read_pages] in Hr;
    destruct (Z.ltb_spec start total); try lia; [done|].
  destruct (dl_list_ballots c eid start (Z.min BALLOT_PAGE (total - start))) as [[|b page]|] eqn:Hp; try done.
  destruct (Z.lt_ge_cases i (start + Z.min BALLOT_PAGE (total - start))) as [Hin|Hout]; [by eexists _, _, _|].
  apply (IH (start + len (b :: page)) _ Hr); [|done].
  pose proof (chain_page_short _ _ _ _ _ Hp (proj1 Hs)) as Hlen.
  unfold BALLOT_PAGE in *. assert (len (b :: page) <= Z.min 1000 (total - start)) by (apply Hlen; [lia|by exists e]).
  unfold len in *. cbn [length] in *. lia.
Qed.

Lemma read_all_fails c eid e i r err : _election c eid = Ok e → len (e_ballots e) <= 2 ^ 256 →
  e_ballots e !! i = Some r → ballot_record_from_contract float_of_text r eid (Z.of_nat i) = Err err →
  ∃ err', read_all_ballots c eid = Err err'.
Proof.
  intros He Hmax Hr Hd. destruct (read_all_ballots c eid) as [l|err'] eqn:E; [exfalso|by exists err'].
  unfold read_all_ballots in E. apply bind_Ok_inv in E as (total & Ht & E).
  cbn [dl_count_ballots chain_dl chain_layer] in Ht. unfold chain_count_ballots in Ht. rewrite He, bind_Ok in Ht.
  apply Ok_inj in Ht as <-. apply bind_Ok_inv in E as (out & Hp & _).
  destruct (read_pages _ c eid _ 0 []) as [m|] eqn:Hm; [|done]. cbn in Hp. subst m.
  pose proof (lookup_lt_Some _ _ _ Hr) as Hi.
  destruct (read_pages_asked c eid e _ _ _ _ _ (Z.of_nat i) He Hmax Hm) as (start & count & page & Hl & Hs & Hc);
    [lia|unfold getNumBallots, len; lia|].
  destruct (page_fails c eid e start count i r err He Hmax) as [err' Hf]; [done..|]. congruence.
Qed.

(** ** One undecodable credential *)

Definition with_attestation (b : CBallot) (wr : bytes) : CBallot :=
  mkCBallot (b_pseudonym b) (b_vk b) (b_ciphertexts b) (b_zkProof b) (b_voterSignature b) wr.

(** The contract looks at the length of the credential only. *)
Lemma submitVote_any_attestation e sender value now b wr e1 i : wr ≠ [] → submitVote e sender value now b = Done (e1, i) →
  submitVote e sender value now (with_attestation b wr)
  = Done (set_ballots e (e_ballots e ++ [mkBallotRecord (with_attestation b wr) now sender]), len (e_ballots e)).
Proof.
  intros Hwr Hv. unfold submitVote in Hv |- *.
  cbn [with_attestation b_pseudonym b_vk b_zkProof b_voterSignature b_wrAttestation b_ciphertexts].
  do 5 (apply run_Done_inv in Hv as ([] & -> & Hv); rewrite run_Done).
  apply run_Done_inv in Hv as ([] & Hsh%revert_if_Done & Hv).
  apply orb_false_iff in Hsh as [Hsh ->]. apply orb_false_iff in Hsh as [-> _].
  assert (Hl : (len wr =? 0) = false) by (apply Z.eqb_neq; unfold len; destruct wr; [done|cbn; lia]).
  rewrite Hl. cbn [orb revert_if]. rewrite run_Done.
  apply run_Done_inv in Hv as ([] & -> & Hv). rewrite run_Done.
  apply run_Done_inv in Hv as ([] & -> & Hv). by rewrite run_Done.
Qed.

(** C35: On the chain one ballot can stop the tally for good: whoever may have a
    ballot accepted can have it accepted with any non-empty bytes in place of
    the credential; if these do not decode, then whatever happens later the
    ballots of the election can never again be read as a whole. *)
Theorem poison_ballot_stops_reading c eid e sender value b wr err e1 i : chain_reachable c → _election c eid = Ok e →
  submitVote e sender value (ch_time c) b = Done (e1, i) →
  wr ≠ [] → unpack_attestation float_of_text wr = Err err →
  ∃ e2, submitVote e sender value (ch_time c) (with_attestation b wr) = Done (e2, i)
  ∧ ∀ c', rtc chain_tx (put_election c (eid_to_uint eid) e2) c' →
    (∀ e', _election c' eid = Ok e' → len (e_ballots e') <= 2 ^ 256) → ∃ err', read_all_ballots c' eid = Err err'.
Proof.
  intros Hc He Hv Hwr Hbad. set (b' := with_attestation b wr).
  set (e2 := set_ballots e (e_ballots e ++ [mkBallotRecord b' (ch_time c) sender])). exists e2.
  assert (Hi : i = len (e_ballots e)).
  { unfold submitVote in Hv. repeat (apply run_Done_inv in Hv as (? & _ & Hv)). by injection Hv. }
  assert (Hv2 : submitVote e sender value (ch_time c) b' = Done (e2, i)).
  { rewrite Hi. by eapply submitVote_any_attestation. }
  split; [exact Hv2|]. intros c' Hs Hmax.
  assert (Hg : dict_get (ch_elections c) (eid_to_uint eid) = Some e).
  { unfold _election in He. destruct (dict_get _ _); [|done]. by apply Ok_inj in He as ->. }
  assert (Hinv : chain_inv (put_election c (eid_to_uint eid) e2)).
  { eapply chain_tx_inv; [by apply chain_reachable_inv|]. eapply tx_election; [exact Hg|]. by eapply tx_vote. }
  destruct (chain_txs_evolve _ _ (eid_to_uint eid) e2 Hinv Hs) as (e' & Hg' & Hev).
  { cbn. by rewrite dict_get_set, decide_True. }
  assert (He' : _election c' eid = Ok e') by (unfold _election; by rewrite Hg').
  apply (read_all_fails c' eid e' (length (e_ballots e)) (mkBallotRecord b' (ch_time c) sender) err He').
  - by apply Hmax.
  - eapply prefix_lookup_Some; [|apply Hev]. cbn. by rewrite lookup_app_r, Nat.sub_diag by done.
  - unfold ballot_record_from_contract, ballot_from_contract. cbn. by rewrite Hbad.
Qed.

(** * Writing and reading back *)

Lemma send_mined {A} c (tx : bytes → Chain → run A) a : _send revert_text between account c tx = Ok a →
  ∃ sender, account = Some sender ∧ tx sender (between c) = Done a.
Proof.
  unfold _send. destruct account as [sender|]; [|done]. destruct (tx sender c); [|done].
  destruct (tx sender (between c)) as [a'|] eqn:E; [|done]. intros <-%Ok_inj. by exists sender.
Qed.

(** C33: A ballot submitted through the adapter is read back as it was given,
    at the index that was returned, with the time of its block inside the
    voting window, whatever other transactions were mined before it. *)
Theorem chain_ballot_roundtrip c now eid b sig c' seq : attestation_wf (env_attestation b) → env_election_id b = eid →
  dl_submit_ballot c now eid b sig = Ok (c', seq) →
  (∀ e', _election c' eid = Ok e' → len (e_ballots e') <= 2 ^ 256) →
  ∃ e' t, _election c' eid = Ok e' ∧ dl_count_ballots c' eid = Ok (seq + 1)
    ∧ dl_list_ballots c' eid seq 1 = Ok [mkStoredBallot seq b (Some t)]
    ∧ p_votingStart (e_params e') <= t < p_votingEnd (e_params e').
Proof.
  intros Ha Hid Hs Hmax. cbn [dl_submit_ballot chain_dl chain_layer] in Hs. unfold chain_submit_ballot in Hs.
  apply bind_Ok_inv in Hs as (e0 & _ & Hs). apply bind_Ok_inv in Hs as ([] & _ & Hs).
  apply send_mined in Hs as (sender & _ & Hs). unfold to_election in Hs. set (cm := between _) in Hs.
  destruct (dict_get (ch_elections cm) (eid_to_uint eid)) as [e|] eqn:Hg; [|done].
  apply run_Done_inv in Hs as ([e' a] & Hv & Hc). injection Hc as <- <-.
  assert (He' : _election (put_election cm (eid_to_uint eid) e') eid = Ok e')
    by (unfold _election; cbn; by rewrite dict_get_set, decide_True).
  pose proof (tx_vote (ch_time cm) e sender 0 _ _ _ Hv) as Htx.
  unfold submitVote in Hv. do 2 (apply run_Done_inv in Hv as (? & _ & Hv)).
  apply run_Done_inv in Hv as (? & Hw1%revert_if_Done & Hv). apply run_Done_inv in Hv as (? & Hw2%revert_if_Done & Hv).
  do 4 (apply run_Done_inv in Hv as (? & _ & Hv)). injection Hv as <- <-.
  eexists _, (ch_time cm). split_and!; [exact He'| | |cbn; lia|cbn; lia].
  - cbn [dl_count_ballots chain_dl chain_layer]. unfold chain_count_ballots. rewrite He', bind_Ok.
    unfold getNumBallots. cbn [e_ballots set_ballots]. by rewrite len_app.
  - rewrite (chain_list_page _ eid _ _ _ He') by (try apply Hmax, He'; unfold len; lia).
    cbn [e_ballots set_ballots]. rewrite zip_page. unfold len. rewrite Nat2Z.id, drop_app_length.
    change (Z.to_nat 1) with 1%nat. cbn [take length seq zip zip_with]. cbn [mapM].
    unfold decode_ballot. cbn [fst snd]. unfold ballot_record_from_contract. cbn [r_ballot r_submittedAt].
    by rewrite ballot_roundtrip.
Qed.

(** What one transaction to an election gives. *)
Lemma chain_register_mined c cfg sig c' eid : chain_register revert_text between account c cfg sig = Ok (c', eid) →
  ∃ sender members params e, account = Some sender ∧ mapM (λ k, to_checksum_address (signing_key k)) (keypers cfg) = Ok members
    ∧ _config_to_params cfg = Ok params ∧ new_election sender (ch_count (between c) + 1)
         (mkKeyperSet (quorum (threshold cfg)) members (url <$> keypers cfg)) params = Done e
    ∧ _election c' eid = Ok e ∧ uint_to_eid (ch_count (between c) + 1) = Ok eid.
Proof.
  intros Hr. unfold chain_register in Hr. do 2 (apply bind_Ok_inv in Hr as (? & _ & Hr)).
  apply bind_Ok_inv in Hr as (members & Hm & Hr). apply bind_Ok_inv in Hr as (? & _ & Hr).
  apply bind_Ok_inv in Hr as (ks & Hks & Hr). apply bind_Ok_inv in Hr as (params & Hp & Hr).
  apply bind_Ok_inv in Hr as (? & _ & Hr). apply bind_Ok_inv in Hr as ([c1 id] & Hpub & Hr).
  apply bind_Ok_inv in Hr as (eid' & Hid & Hr). injection Hr as <- <-.
  apply send_mined in Hks as (sender & _ & Hks). apply send_mined in Hpub as (sender' & Hacc & Hpub).
  unfold new_keyper_set in Hks. do 3 (apply run_Done_inv in Hks as (? & _ & Hks)). injection Hks as <-.
  unfold publishElection in Hpub. do 2 (apply run_Done_inv in Hpub as (? & _ & Hpub)).
  apply run_Done_inv in Hpub as (e & He & Hpub). injection Hpub as <- <-.
  exists sender', members, params, e. split_and!; [done|done|done|done| |done].
  unfold _election. cbn. assert (Hu : eid_to_uint eid' = ch_count (between c) + 1) by by apply from_to_bytes_be in Hid.
  by rewrite Hu, dict_get_set, decide_True.
Qed.

Lemma checksum_members (ks : list KeyperIdentity) members :
  mapM (λ k, to_checksum_address (signing_key k)) ks = Ok members → members = signing_key <$> ks.
Proof.
  intros Hm%mapM_Ok. induction Hm as [|k m ks ms Hk _ IH]; [done|]. unfold to_checksum_address in Hk.
  destruct (_ =? _); [|done]. apply Ok_inj in Hk as <-. by rewrite IH.
Qed.

Lemma mode_roundtrip m : U8_TO_MODE (MODE_TO_U8 m) = Ok m.
Proof. by destruct m. Qed.
Lemma variant_roundtrip v : U8_TO_VARIANT (VARIANT_TO_U8 v) = Ok v.
Proof. by destruct v. Qed.
Lemma dup_roundtrip p : U8_TO_DUP (DUP_TO_U8 p) = Ok p.
Proof. by destruct p. Qed.

Lemma zip_keypers ks : zip_with mkKeyperIdentity (signing_key <$> ks) (url <$> ks) = ks.
Proof. induction ks as [|[] ks IH]; [done|]. cbn. by rewrite IH. Qed.

(** What the contracts keep of a configuration: the id they assign, the first
    ballot writer, and the sender as administrator. *)
Definition recorded_config (cfg : ElectionConfig) (eid gateway sender : bytes) : ElectionConfig :=
  mkElectionConfig eid (num_candidates cfg) (budget cfg) (mode cfg) (variant cfg) (weighted cfg)
    (duplicate_policy cfg) (voting_start cfg) (voting_end cfg) (threshold cfg) (keypers cfg) (eligibility_key cfg)
    (result_publisher_key cfg) [gateway] sender (protocol_version cfg) (scale cfg) (self_submit_fee_wei cfg).

Lemma recorded_config_same cfg eid g rest sender : gateway_keys cfg = g :: rest →
  recorded_config cfg eid g sender = cfg ↔ eid = election_id cfg ∧ rest = [] ∧ sender = admin_key cfg.
Proof.
  intros Hg. destruct cfg. cbn in Hg |- *. subst. unfold recorded_config. cbn.
  split; [by intros [= -> <- ->]|by intros (-> & -> & ->)].
Qed.

Lemma params_keep cfg p : _config_to_params cfg = Ok p → ∃ g rest, gateway_keys cfg = g :: rest
  ∧ p = mkParams (voting_start cfg) (voting_end cfg) (self_submit_fee_wei cfg) (num_candidates cfg)
      (budget cfg) (MODE_TO_U8 (mode cfg)) (VARIANT_TO_U8 (variant cfg)) (weighted cfg) (scale cfg)
      (DUP_TO_U8 (duplicate_policy cfg)) (protocol_version cfg) (eligibility_key cfg) (result_publisher_key cfg) g.
Proof.
  unfold _config_to_params. destruct (gateway_keys cfg) as [|g rest]; [done|]. intros Hp.
  apply bind_Ok_inv in Hp as (pub & Hpub & Hp). apply bind_Ok_inv in Hp as (proxy & Hprox & <-%Ok_inj).
  unfold to_checksum_address in Hpub, Hprox. destruct (_ =? _); [|done]. apply Ok_inj in Hpub as <-.
  destruct (_ =? _); [|done]. apply Ok_inj in Hprox as <-. by exists g, rest.
Qed.

(** C34: What an election registered through the adapter is read back as: the
    signed configuration with the id the registry gave, its first ballot writer
    only and the sender as administrator, not cancelled, without a key and not
    stalled; so it is the configuration that was signed exactly when that named
    one ballot writer, the sender was its administrator and the id is the one in
    it, which it is unless another election was published in between. *)
Theorem chain_config_roundtrip c cfg sig c' eid : valid_config cfg →
  dl_register_election c cfg sig = Ok (c', eid) →
  ∃ g rest sender, gateway_keys cfg = g :: rest ∧ account = Some sender
    ∧ dl_get_election c' eid = Ok (mkElectionRecord (recorded_config cfg eid g sender) false None false)
    ∧ (recorded_config cfg eid g sender = cfg ↔ eid = election_id cfg ∧ rest = [] ∧ sender = admin_key cfg)
    ∧ (ch_count (between c) = ch_count c → eid = election_id cfg).
Proof.
  intros [Hth Hpost] Hr. cbn [dl_register_election dl_get_election chain_dl chain_layer] in *.
  pose proof Hr as Hguard. unfold chain_register in Hguard. apply bind_Ok_inv in Hguard as (expected & Hexp & Hguard).
  apply bind_Ok_inv in Hguard as ([] & Hx%raise_if_Ok%negb_false_iff%bool_decide_eq_true & _).
  apply chain_register_mined in Hr as (sender & members & p & e & Hs & Hm & Hp & He & Hel & Hid).
  apply checksum_members in Hm as ->. apply params_keep in Hp as (g & rest & Hg & ->).
  exists g, rest, sender. split_and!; [done|done| |by apply recorded_config_same|].
  - unfold chain_get_election. rewrite Hel, bind_Ok. unfold new_election in He.
    apply run_Done_inv in He as ([] & _ & He). injection He as <-.
    unfold _config_from_view, getElection. cbn -[threshold_post_init config_post_init].
    unfold uint_to_eid in *. rewrite Hid, bind_Ok, mode_roundtrip, bind_Ok, variant_roundtrip, bind_Ok, dup_roundtrip, bind_Ok.
    assert (Hn : mkThreshold (quorum (threshold cfg)) (len (signing_key <$> keypers cfg)) = threshold cfg).
    { pose proof (config_post_init_Ok cfg tt Hpost) as Hv. unfold len. rewrite length_fmap.
      destruct (threshold cfg) as [t n]. unfold quorum. cbn in *. f_equal. unfold len in Hv. lia. }
    rewrite Hn, zip_keypers, Hth, bind_Ok.
    change (mkElectionConfig eid _ _ _ _ _ _ _ _ _ _ _ _ _ _ _ _ _) with (recorded_config cfg eid g sender).
    change (config_post_init (recorded_config cfg eid g sender)) with (config_post_init cfg). by rewrite Hpost.
  - intros Hsame. rewrite Hsame in Hid. unfold uint_to_eid in Hid. rewrite Hexp in Hid. by apply Ok_inj in Hid as <-.
Qed.

(** * The election key *)

Context `{!AbiLaws}.

Lemma dkg_vote_text_inj pk pks pk' pks' a : dkg_vote_text pk pks = Ok a → dkg_vote_text pk' pks' = Ok a →
  pk = pk' ∧ pks = pks'.
Proof.
  unfold dkg_vote_text. intros Ha Ha'.
  assert (Ht : ∀ x l, Forall2 has_type [TBytes; bytes_array] [ABytes x; AArray (ABytes <$> l)]).
  { intros x l. constructor; [constructor|apply ABytes_types]. }
  pose proof (abi_inj _ _ _ _ (Ht pk pks) (Ht pk' pks') Ha Ha') as [= -> Hl]. split; [done|]. by apply ABytes_inj.
Qed.

(** The texts the contract hashes for the mined votes. *)
Definition cast_texts (v : DkgVotes) : list bytes :=
  omap (λ x, match dkg_vote_text x.2.1 x.2.2 with Ok a => Some a | Err _ => None end) (dv_cast v).

Lemma elem_of_cast_texts v k a : k ∈ (dv_cast v).*2 → dkg_vote_text k.1 k.2 = Ok a → a ∈ cast_texts v.
Proof.
  intros ([w k'] & -> & Hin)%list_elem_of_fmap Ha. apply list_elem_of_omap. exists (w, k'). by rewrite Ha.
Qed.

Lemma cast_votes_bind v k k' d : coll_free (cast_texts v) → k ∈ (dv_cast v).*2 → k' ∈ (dv_cast v).*2 →
  dkg_vote_digest k.1 k.2 = Ok d → dkg_vote_digest k'.1 k'.2 = Ok d → k = k'.
Proof.
  destruct k as [pk pks], k' as [pk' pks']. cbn [fst snd]. intros Hc Hk Hk' Hd Hd'.
  apply bind_Ok_inv in Hd as (a & Ha & <-%Ok_inj). apply bind_Ok_inv in Hd' as (a' & Ha' & He%Ok_inj).
  apply (coll_free_eq _ _ _ Hc) in He as ->;
    [|by apply (elem_of_cast_texts v (pk', pks'))|by apply (elem_of_cast_texts v (pk, pks))].
  by destruct (dkg_vote_text_inj _ _ _ _ _ Ha Ha') as [-> ->].
Qed.

(** The voters for a digest have mined votes with that digest. *)
Lemma voters_cast votes d cast a :
  Forall2 (λ ev v, ev.1 = v.1 ∧ dkg_vote_digest ev.2.1 ev.2.2 = Ok v.2) cast votes →
  a ∈ (votes_for votes d).*1 → ∃ pk pks, (a, (pk, pks)) ∈ cast ∧ dkg_vote_digest pk pks = Ok d.
Proof.
  intros He ([a' d'] & -> & [Hd Hin]%list_elem_of_filter)%list_elem_of_fmap. cbn [fst snd] in *. subst d'.
  apply list_elem_of_lookup in Hin as [n Hn]. destruct (Forall2_lookup_r _ _ _ n _ He Hn) as ([b [pk pks]] & Hb & E & Hd).
  cbn [fst snd] in *. subst b. exists pk, pks. split; [by eapply list_elem_of_lookup_2|done].
Qed.

(** C31: The key read from the chain is the committee's: behind it stands a
    quorum of distinct members of the keyper set, each with a mined vote whose
    digest is the one of this key and committee list, and so, if the texts
    hashed for the mined votes do not collide, each a vote for exactly this key
    and list; over a set that KeyperSet.sol's constructor made the quorum is more
    than half of the members; and no later transaction of anybody changes the
    key. *)
Theorem chain_key_quorum c eid fk : chain_reachable c → dl_get_finalized_key c eid = Ok (Some fk) →
  (∃ e signers, _election c eid = Ok e ∧ NoDup signers ∧ (∀ a, a ∈ signers → a ∈ ks_members (e_keyperSet e))
     ∧ 1 <= quorum_of e <= len signers
     ∧ (∀ a, a ∈ signers → ∃ pk pks, (a, (pk, pks)) ∈ dv_cast (e_dkg e)
          ∧ dkg_vote_digest pk pks = dkg_vote_digest (pk_election fk) (committee_pks fk))
     ∧ (coll_free (cast_texts (e_dkg e)) →
          ∀ a, a ∈ signers → (a, (pk_election fk, committee_pks fk)) ∈ dv_cast (e_dkg e))
     ∧ (∀ members urls th, new_keyper_set members urls th = Done (e_keyperSet e) →
          len (ks_members (e_keyperSet e)) < 2 * quorum_of e))
  ∧ (∀ c', rtc chain_tx c c' → dl_get_finalized_key c' eid = Ok (Some fk)).
Proof.
  intros Hc%chain_reachable_inv Hk. cbn [dl_get_finalized_key chain_dl chain_layer] in *.
  unfold chain_get_finalized_key, _election in Hk.
  destruct (dict_get (ch_elections c) (eid_to_uint eid)) as [e|] eqn:Hg; [|done]. rewrite bind_Ok in Hk.
  apply Ok_inj in Hk. unfold finalized_key_of in Hk. destruct (dv_finalized (e_dkg e)) eqn:Hf; [|done].
  injection Hk as <-. cbn [pk_election committee_pks].
  destruct (ci_elections _ Hc _ _ Hg) as [_ Hq1 [votes Hd] _ _ _ _]. split.
  - destruct (di_final _ _ Hd Hf) as (d & Hdig & Hq & Hcast). exists e, (votes_for votes d).*1.
    destruct (votes_for_bound votes d (ks_members (e_keyperSet e))) as (Hn & Hm & _);
      [rewrite (di_voters _ _ Hd); apply Hd|rewrite (di_voters _ _ Hd); apply Hd|].
    assert (Hv : ∀ a, a ∈ (votes_for votes d).*1 → ∃ pk pks, (a, (pk, pks)) ∈ dv_cast (e_dkg e)
      ∧ dkg_vote_digest pk pks = Ok d) by (intros a; apply voters_cast, Hd).
    unfold _election. rewrite Hg, Hdig.
    split_and!; [done|done|done|lia|unfold len in *; by rewrite length_fmap|done| |].
    + intros Hcf a (pk & pks & Hin & Hx)%Hv.
      assert (Hin2 : (pk, pks) ∈ (dv_cast (e_dkg e)).*2) by (apply list_elem_of_fmap; by exists (a, (pk, pks))).
      by rewrite (cast_votes_bind _ _ _ d Hcf Hcast Hin2 Hdig Hx).
    + intros members urls th Hks. apply (keyper_set_majority _ _ _ _ Hks).
  - intros c' Hs. destruct (chain_txs_evolve c c' _ e Hc Hs Hg) as (e' & Hg' & Hev).
    unfold chain_get_finalized_key, _election. rewrite Hg', bind_Ok. unfold finalized_key_of.
    by rewrite (ev_key _ _ Hev Hf), Hf.
Qed.

(** * Resending *)

Lemma election_get c eid e : _election c eid = Ok e ↔ dict_get (ch_elections c) (eid_to_uint eid) = Some e.
Proof. unfold _election. destruct (dict_get _ _); split; [by intros <-%Ok_inj|by intros [= <-]|done|done]. Qed.

Lemma election_put c eid e : _election (put_election c (eid_to_uint eid) e) eid = Ok e.
Proof. apply election_get. cbn. by rewrite dict_get_set, decide_True. Qed.

(** A transaction the adapter sent and saw mined. *)
Lemma send_unit_mined c eid f c' : send_unit revert_text between account c eid f = Ok c' →
  ∃ sender e e', dict_get (ch_elections (between c)) (eid_to_uint eid) = Some e
    ∧ f sender (ch_time (between c)) e = Done e' ∧ c' = put_election (between c) (eid_to_uint eid) e'.
Proof.
  intros Hs. unfold send_unit in Hs. apply bind_Ok_inv in Hs as ([c1 []] & Hs & <-%Ok_inj).
  apply send_mined in Hs as (sender & _ & Hs). unfold to_election in Hs.
  destruct (dict_get _ _) as [e|]; [|done]. apply run_Done_inv in Hs as ([e' []] & Hf & Hs). injection Hs as <-.
  unfold no_result in Hf. apply run_Done_inv in Hf as (e2 & Hf & [= <-]). by exists sender, e, e2.
Qed.

Lemma last_of_snoc a x events : last_of a (events ++ [(a, x)]) = Some x.
Proof. unfold last_of. rewrite filter_app, filter_cons, filter_nil. cbn. rewrite decide_True, last_snoc by done. done. Qed.

(** What the mined vote leaves: the voter's last event names the key, and if the
    key is final now, it is this one. *)
Lemma vote_leaves e pk pks sig e' eid : e_id e = eid_to_uint eid → len eid = 32 →
  voteDKGResultSigned e pk pks sig = Done e' →
  ∃ d a, dkg_result_digest eid pk pks = Ok d ∧ recover_digest d sig = Ok a ∧ last_of a (dv_events (e_dkg e')) = Some pk
    ∧ (dv_finalized (e_dkg e') = true → dv_pk (e_dkg e') = pk).
Proof.
  intros Hid Hl Hv. unfold voteDKGResultSigned in Hv. apply run_Done_inv in Hv as (? & _ & Hv).
  apply run_Done_inv in Hv as (? & Hf%revert_if_Done & Hv). apply run_Done_inv in Hv as (a & Ha & Hv).
  unfold ecrecover in Ha. apply run_Done_inv in Ha as (d & Hd%on_chain_Done & Ha%on_chain_Done).
  rewrite Hid in Hd. unfold eid_to_uint in Hd. rewrite be_from_bytes32 in Hd by (unfold len in Hl; lia).
  exists d, a. split; [done|]. split; [done|]. unfold _registerDKGVote in Hv.
  repeat (apply run_Done_inv in Hv as (? & _ & Hv)). injection Hv as <-.
  cbn [e_dkg set_dkg_votes dv_finalized dv_pk]. unfold dv_events. cbn [dv_cast]. rewrite fmap_app.
  split; [apply last_of_snoc|].
  rewrite Hf, orb_false_r. by intros ->.
Qed.

(** The adapter keeps the port's rule for key submissions: after an
    accepted submission the same one is accepted again and changes nothing, and
    any other key under the same keyper's signature is refused. *)
Theorem chain_dkg_resend c eid pk pks sig c' : chain_inv (between c) → len eid = 32 →
  dl_submit_dkg_result c eid pk pks sig = Ok c' →
  dl_submit_dkg_result c' eid pk pks sig = Ok c'
  ∧ ∀ pk' pks' sig' d d' a, pk' ≠ pk → dkg_result_digest eid pk pks = Ok d → recover_digest d sig = Ok a →
      dkg_result_digest eid pk' pks' = Ok d' → recover_digest d' sig' = Ok a →
      dl_submit_dkg_result c' eid pk' pks' sig' = Err ImmutabilityError.
Proof.
  intros Hi Hl Hs. cbn [dl_submit_dkg_result chain_dl chain_layer] in *.
  pose proof Hs as Hs0. unfold chain_submit_dkg_result in Hs0.
  apply bind_Ok_inv in Hs0 as (e & He & Hs0). apply bind_Ok_inv in Hs0 as (a & Ha & Hs0).
  unfold recovered_signer in Ha. apply bind_Ok_inv in Ha as (d & Hd & Ha). apply bind_Ok_inv in Ha as (a0 & Hrec & Hchk).
  assert (a0 = a) as ->.
  { unfold to_checksum_address in Hchk. destruct (_ =? _); [|done]. by apply Ok_inj in Hchk. }
  (* the state the submission leaves, whether or not it sent a transaction *)
  assert (Hleft : ∃ e', _election c' eid = Ok e' ∧ (dv_finalized (e_dkg e') = true → dv_pk (e_dkg e') = pk)
    ∧ (dv_finalized (e_dkg e') = false → last_of a (dv_events (e_dkg e')) = Some pk)).
  { destruct (dv_finalized (e_dkg e)) eqn:Hf.
    - case_bool_decide; [|done]. apply Ok_inj in Hs0 as <-. exists e. by rewrite Hf.
    - destruct (last_of a _) as [mine|] eqn:Hm.
      + case_bool_decide; [|done]. apply Ok_inj in Hs0 as <-. exists e. rewrite Hf, Hm. by subst mine.
      + apply send_unit_mined in Hs0 as (sender & e1 & e' & Hg & Hv & ->).
        pose proof (ei_id _ _ (ci_elections _ Hi _ _ Hg)) as Hid.
        destruct (vote_leaves e1 pk pks sig e' eid Hid Hl Hv) as (d1 & a1 & Hd1 & Ha1 & Hlast & Hfin).
        rewrite Hd in Hd1. apply Ok_inj in Hd1 as <-. rewrite Hrec in Ha1. apply Ok_inj in Ha1 as <-.
        exists e'. by rewrite election_put. }
  destruct Hleft as (e' & He' & Hfin & Hopen). split.
  - unfold chain_submit_dkg_result, recovered_signer. rewrite He', bind_Ok, Hd, bind_Ok, Hrec, bind_Ok, Hchk, bind_Ok.
    destruct (dv_finalized (e_dkg e')); [rewrite Hfin by done|rewrite Hopen by done]; by rewrite bool_decide_eq_true_2.
  - intros pk' pks' sig' d2 d' a2 Hne Hd2 Ha2 Hd' Ha'. rewrite Hd in Hd2. apply Ok_inj in Hd2 as <-.
    rewrite Hrec in Ha2. apply Ok_inj in Ha2 as <-.
    unfold chain_submit_dkg_result, recovered_signer. rewrite He', bind_Ok, Hd', bind_Ok, Ha', bind_Ok, Hchk, bind_Ok.
    destruct (dv_finalized (e_dkg e')); [rewrite Hfin by done|rewrite Hopen by done]; by rewrite bool_decide_eq_false_2.
Qed.

(** * The aggregate *)

Lemma reason_code_inv n r : U8_TO_REASON n = Ok r → REASON_TO_U8 r = n.
Proof.
  unfold U8_TO_REASON. destruct (list_find _ _) as [[i r']|] eqn:E; [|done]. intros <-%Ok_inj.
  by apply list_find_Some in E as (_ & ? & _).
Qed.

Lemma aggregate_tuple_inv t eid a : aggregate_from_contract t eid = Ok a →
  aggregate_to_tuple a = t ∧ agg_election_id a = eid.
Proof.
  unfold aggregate_from_contract. intros Ha. apply bind_Ok_inv in Ha as (exc & Hm & <-%Ok_inj).
  unfold aggregate_to_tuple. cbn. split; [|done]. destruct t as [aggs adm ex tot sc]. cbn in *. f_equal.
  - rewrite <- list_fmap_compose. transitivity (id <$> aggs); [|apply list_fmap_id]. apply list_fmap_ext. by intros _ [] _.
  - apply mapM_Ok in Hm. induction Hm as [|[s n] x ex exc Hx _ IH]; [done|]. cbn in *.
    apply bind_Ok_inv in Hx as (r & Hr%reason_code_inv & <-%Ok_inj). cbn. by rewrite Hr, IH.
Qed.

(** The keyper signs the digest the contract groups votes by. *)
Lemma digests_agree e a eid : e_id e = eid_to_uint eid → len eid = 32 →
  _aggregateDigest e (aggregate_to_tuple a) = aggregate_digest_of eid a.
Proof.
  intros Hid Hl. unfold _aggregateDigest, aggregate_digest_of, aggregate_digest, aggregate_preimage, _aggregate_fields.
  rewrite Hid. unfold eid_to_uint. rewrite be_from_bytes32 by (unfold len in Hl; lia).
  assert (Ht : tally_abi (aggregate_to_tuple a) = tally_value (_aggregate_fields a)).
  { unfold tally_abi, aggregate_to_tuple, tally_value, _aggregate_fields. cbn. do 4 f_equal.
    f_equal. rewrite <- !list_fmap_compose. apply list_fmap_ext. intros _ [s r] _. cbn. by destruct r. }
  rewrite Ht. unfold tally_value, _aggregate_fields. cbn [assert_aggregate_shape].
  change (assert_aggregate_shape _) with (Ok ()). rewrite bind_Ok.
  by destruct (abi_encode _ _).
Qed.

(** C32: The aggregate read from the chain is the committee's: a quorum of
    distinct members has its current vote on the digest of exactly this
    aggregate, and no later transaction changes it. *)
Theorem chain_aggregate_quorum c eid a : chain_reachable c → len eid = 32 → dl_get_aggregate c eid = Ok (Some a) →
  (∃ e voters d, _election c eid = Ok e ∧ aggregate_digest_of eid a = Ok d
     ∧ NoDup voters ∧ (∀ v, v ∈ voters → v ∈ ks_members (e_keyperSet e)) ∧ quorum_of e <= len voters
     ∧ (∀ v, v ∈ voters → last_of v (tv_events (e_tally e)) = Some d))
  ∧ (∀ c', rtc chain_tx c c' → dl_get_aggregate c' eid = Ok (Some a)).
Proof.
  intros Hc%chain_reachable_inv Hl Hag. cbn [dl_get_aggregate chain_dl chain_layer] in *. unfold chain_get_aggregate in *.
  apply bind_Ok_inv in Hag as (e & He & Hag). pose proof (proj1 (election_get _ _ _) He) as Hg.
  pose proof (ci_elections _ Hc _ _ Hg) as [Hid _ _ Ht _ _ _].
  unfold _read_aggregate, getAggregate in Hag. destruct (tv_published (e_tally e)) as [t|] eqn:Hp; [|done].
  apply bind_Ok_inv in Hag as (a' & Ha & [= ->]). split.
  - destruct (aggregate_tuple_inv t eid a Ha) as [Htup _]. destruct (ti_final _ Ht t Hp) as (d & Hd & Hq).
    rewrite <- Htup, (digests_agree e a eid Hid Hl) in Hd.
    exists e, (votes_for (tv_digest_of (e_tally e)) d).*1, d.
    destruct (votes_for_bound (tv_digest_of (e_tally e)) d (ks_members (e_keyperSet e))) as (Hn & Hm & _);
      [apply Ht|apply Ht|].
    split_and!; [done|done|done|done|unfold len in *; by rewrite length_fmap|].
    intros v ([v' d'] & -> & Hin)%list_elem_of_fmap. apply list_elem_of_filter in Hin as [Hd' Hin]. cbn in Hd' |- *.
    subst d'. unfold last_of. rewrite (ti_events _ Ht). by apply elem_dict_get; [apply Ht|].
  - intros c' Hs. destruct (chain_txs_evolve c c' _ e Hc Hs Hg) as (e' & Hg' & Hev).
    rewrite (proj2 (election_get c' eid e') Hg'), bind_Ok. unfold _read_aggregate, getAggregate.
    rewrite (ev_tally _ _ Hev) by by rewrite Hp. by rewrite Hp, Ha.
Qed.

(** * Where the adapter and the other data layers differ *)

(** Once the key is final a submission of it is accepted from anybody whose
    signature recovers to some address. *)
Lemma final_key_unchecked c eid e pks sig d a : _election c eid = Ok e → dv_finalized (e_dkg e) = true →
  dkg_result_digest eid (dv_pk (e_dkg e)) pks = Ok d → recover_digest d sig = Ok a → len a = 20 →
  dl_submit_dkg_result c eid (dv_pk (e_dkg e)) pks sig = Ok c.
Proof.
  intros He Hf Hd Ha Hl. cbn [dl_submit_dkg_result chain_dl chain_layer].
  unfold chain_submit_dkg_result, recovered_signer, to_checksum_address.
  rewrite He, bind_Ok, Hd, bind_Ok, Ha, bind_Ok, Hl. change (20 =? 20) with true. cbn iota.
  by rewrite bind_Ok, Hf, bool_decide_eq_true_2.
Qed.

(** The chain as a lawful data layer, while every stored credential decodes. *)
Definition readable (c : Chain) : Prop :=
  ∀ eid e, _election c eid = Ok e → len (e_ballots e) <= 2 ^ 256 ∧ ∃ l, decoded eid e = Ok l.

Definition chain_laws : DataLayerLaws Chain.
Proof.
  refine {| dl_ok := readable |}. intros c eid rec Hc Hr. cbn in Hr. unfold chain_get_election in Hr.
  apply bind_Ok_inv in Hr as (e & He & _). destruct (Hc eid e He) as (Hmax & l & Hl). exists l.
  by eapply chain_serves.
Defined.
End reading.

(** * A run *)

Module chain_example.
Import prefix_abi naming_account.
#[local] Existing Instance concrete_crypto.

Definition float_text (_ _ : Z) : string := "0.5".
Definition no_float (_ : string) : json := JNull.
(** web3 decodes the custom errors it knows. *)
Definition error_text (r : revert) : string :=
  match r with
  | VotingNotStarted => "VotingNotStarted" | VotingClosed => "VotingClosed" | VotingStillOpen => "VotingStillOpen"
  | AlreadyVoted => "AlreadyVoted" | AlreadyCancelled => "AlreadyCancelled" | UnauthorizedKeyper => "UnauthorizedKeyper"
  | _ => "execution reverted"
  end.
Definition get_ok {A} (d : A) (m : result A) : A := match m with Ok a => a | Err _ => d end.
Definition get_run {A} (d : A) (m : run A) : A := match m with Done a => a | Revert _ => d end.

Definition addr (sk : Z) : bytes := address_of (be_bytes 32 sk).
Definition cfg : ElectionConfig := Eval vm_compute in
  mkElectionConfig (be_bytes 32 1) 2 1 EXACT VariantA true LAST_WINS 100 200 (mkThreshold 2 3)
    [mkKeyperIdentity (addr 1) "k1"; mkKeyperIdentity (addr 2) "k2"; mkKeyperIdentity (addr 3) "k3"]
    (replicate 48 Byte.x01) (addr 8) [addr 9] (addr 7) "1" 1 5.
Definition eid : bytes := Eval vm_compute in be_bytes 32 1.

#[local] Instance admin_dl : DataLayer Chain := chain_layer float_text no_float error_text id (Some (addr 7)).
Definition c0 : Chain := Eval vm_compute in new_chain (addr 7).
Definition c1 : Chain := Eval vm_compute in (get_ok (c0, []) (dl_register_election c0 cfg [])).1.
Lemma c1_registered : dl_register_election c0 cfg [] = Ok (c1, eid).
Proof. vm_compute. reflexivity. Qed.
Lemma chain_cfg_valid : valid_config cfg.
Proof. split; vm_compute; reflexivity. Qed.

(** Registered by its administrator with one ballot writer, the configuration
    comes back; with two ballot writers one is gone. *)
Definition cfg2 : ElectionConfig := Eval vm_compute in
  mkElectionConfig (be_bytes 32 1) 2 1 EXACT VariantA true LAST_WINS 100 200 (mkThreshold 2 3)
    [mkKeyperIdentity (addr 1) "k1"; mkKeyperIdentity (addr 2) "k2"; mkKeyperIdentity (addr 3) "k3"]
    (replicate 48 Byte.x01) (addr 8) [addr 9; addr 10] (addr 7) "1" 1 5.
Definition c1' : Chain := Eval vm_compute in (get_ok (c0, []) (dl_register_election c0 cfg2 [])).1.
Lemma c1'_registered : dl_register_election c0 cfg2 [] = Ok (c1', eid).
Proof. vm_compute. reflexivity. Qed.
Lemma cfg2_valid : valid_config cfg2.
Proof. split; vm_compute; reflexivity. Qed.

Lemma chain_config_roundtrip_witness :
  let c := concrete_crypto in
  dl_get_election c1 eid = Ok (mkElectionRecord cfg false None false)
  ∧ ∃ read, dl_get_election c1' eid = Ok (mkElectionRecord read false None false) ∧ read ≠ cfg2.
Proof.
  intros c. split.
  - destruct (chain_config_roundtrip float_text no_float error_text id (Some (addr 7)) c0 cfg [] c1 eid
      chain_cfg_valid c1_registered) as (g & rest & sender & Hg & Hs & Hr & [_ Hiff] & _).
    rewrite Hiff in Hr; [exact Hr|]. injection Hs as <-. injection Hg as _ <-. split_and!; reflexivity.
  - destruct (chain_config_roundtrip float_text no_float error_text id (Some (addr 7)) c0 cfg2 [] c1' eid
      cfg2_valid c1'_registered) as (g & rest & sender & Hg & _ & Hr & [Hiff _] & _).
    eexists. split; [exact Hr|]. intros E. destruct (Hiff E) as (_ & -> & _). discriminate Hg.
Defined.

(** The election, and the two votes that make its key final. *)
Definition election_of (c : Chain) : Election := default (mkElection 0 (mkKeyperSet 0 [] [])
  (mkParams 0 0 0 0 0 0 0 false 0 0 "" [] [] []) [] false (mkDkgVotes false [] [] [] [] []) [] (mkTallyVotes None [] [] [])
  [] [] None false) (dict_get (ch_elections c) 1).
Definition pk : bytes := Eval vm_compute in replicate 96 Byte.x05.
Definition pks : list bytes := Eval vm_compute in replicate 3 (replicate 96 Byte.x06).
Definition key_sig (sk : Z) : bytes := get_ok [] (sign_dkg_result sk eid pk pks).
Definition c2 : Chain := Eval vm_compute in get_ok c1 (dl_submit_dkg_result c1 eid pk pks (key_sig 1)).
Definition c3 : Chain := Eval vm_compute in get_ok c1 (dl_submit_dkg_result c2 eid pk pks (key_sig 2)).
Lemma c2_submitted : dl_submit_dkg_result c1 eid pk pks (key_sig 1) = Ok c2.
Proof. vm_compute. reflexivity. Qed.

Lemma step_election c c' e' : c' = put_election c 1 e' → dict_get (ch_elections c) 1 = Some (election_of c) →
  election_tx (ch_time c) (election_of c) e' → chain_tx c c'.
Proof. intros -> Hg Ht. by eapply tx_election. Qed.

Lemma c1_reachable : chain_reachable c1.
Proof.
  exists (addr 7). apply rtc_once.
  apply (tx_publish (new_chain (addr 7)) (addr 7) (e_keyperSet (election_of c1)) (e_params (election_of c1)) c1 1);
    [vm_compute; split; congruence|vm_compute; reflexivity].
Qed.
Lemma c3_reachable : chain_reachable c3.
Proof.
  destruct c1_reachable as [admin Hs]. exists admin. eapply rtc_r; [eapply rtc_r; [exact Hs|]|].
  - eapply (step_election c1 c2 (election_of c2)); [vm_compute; reflexivity..|].
    eapply tx_dkg_signed with (pk := pk) (pks := pks) (sig := key_sig 1). vm_compute. reflexivity.
  - eapply (step_election c2 c3 (election_of c3)); [vm_compute; reflexivity..|].
    eapply tx_dkg_signed with (pk := pk) (pks := pks) (sig := key_sig 2). vm_compute. reflexivity.
Qed.

(** Two of the three members voted for the key: their mined votes are on the
    chain, and the texts hashed for the mined votes do not collide. *)
Lemma chain_key_quorum_witness :
  let c := concrete_crypto in
  ∃ e (signers : list bytes), _election c3 eid = Ok e ∧ NoDup signers ∧ quorum_of e <= len signers
    ∧ len (ks_members (e_keyperSet e)) < 2 * quorum_of e
    ∧ ∀ a, a ∈ signers → (a, (pk, pks)) ∈ dv_cast (e_dkg e).
Proof.
  intros c.
  destruct (chain_key_quorum float_text no_float error_text id (Some (addr 7)) c3 eid (mkFinalizedKey pk pks)
    c3_reachable) as [(e & signers & He & Hn & _ & [_ Hq] & _ & Hcf & Hmaj) _]; [vm_compute; reflexivity|].
  assert (E : e = election_of c3) by (vm_compute in He |- *; by apply Ok_inj in He).
  exists e, signers. split_and!; [exact He|exact Hn|exact Hq| |].
  - apply (Hmaj [addr 1; addr 2; addr 3] ["k1"; "k2"; "k3"] 2). rewrite E. vm_compute. reflexivity.
  - apply Hcf. rewrite E. apply (bool_decide_eq_true_1 _). vm_compute. reflexivity.
Defined.

Lemma chain_dkg_resend_witness :
  let c := concrete_crypto in dl_submit_dkg_result c2 eid pk pks (key_sig 1) = Ok c2.
Proof.
  intros c.
  destruct (chain_dkg_resend float_text no_float error_text id (Some (addr 7)) c1 eid pk pks (key_sig 1) c2) as [H _];
    [apply (chain_reachable_inv c1 c1_reachable)|vm_compute; reflexivity|exact c2_submitted|exact H].
Defined.

(** A ballot sent by the ballot writer, in the window. *)
Definition att : Attestation := Eval vm_compute in
  mkAttestation eid (replicate 32 Byte.x0a) (replicate 48 Byte.x0b) 3 (replicate 80 Byte.x0c) V1 1.
Definition ballot : BallotEnvelope := Eval vm_compute in
  mkBallotEnvelope eid (replicate 32 Byte.x0a) (replicate 48 Byte.x0b)
    (replicate 2 (mkWireCiphertext (replicate 96 Byte.x01) (replicate 96 Byte.x02))) [Byte.x01] (replicate 80 Byte.x0d) att.
Definition writer_dl : DataLayer Chain := chain_layer float_text no_float error_text id (Some (addr 9)).
Definition c4 : Chain := Eval vm_compute in (get_ok (c3, 0) (@dl_submit_ballot _ writer_dl c3 150 eid ballot [])).1.
Lemma c4_submitted : @dl_submit_ballot _ writer_dl c3 150 eid ballot [] = Ok (c4, 0).
Proof. vm_compute. reflexivity. Qed.
Lemma c4_small e' : _election c4 eid = Ok e' → len (e_ballots e') <= 2 ^ 256.
Proof. intros He. vm_compute in He. injection He as <-. vm_compute. discriminate. Qed.

Lemma chain_ballot_roundtrip_witness :
  let c := concrete_crypto in ∃ t, @dl_list_ballots _ writer_dl c4 eid 0 1 = Ok [mkStoredBallot 0 ballot (Some t)].
Proof.
  intros c.
  destruct (chain_ballot_roundtrip float_text no_float error_text id (Some (addr 9)) c3 150 eid ballot [] c4 0)
    as (e & t & _ & _ & Hl & _); [vm_compute; repeat split; discriminate|reflexivity|exact c4_submitted|exact c4_small|].
  exists t. exact Hl.
Defined.

(** Anybody pays the fee of 5 and leaves a byte that is no JSON text. *)
Definition open3 : Chain := Eval vm_compute in at_time 150 c3.
Lemma open3_reachable : chain_reachable open3.
Proof.
  destruct c3_reachable as [admin Hs]. exists admin. eapply rtc_r; [exact Hs|]. apply (tx_time c3 150).
  vm_compute. discriminate.
Qed.
Lemma poison_ballot_stops_reading_witness :
  let c := concrete_crypto in
  ∃ e2, submitVote (election_of c3) (addr 66) 5 150
      (with_attestation (ballot_to_tuple float_text ballot) [Byte.x00]) = Done (e2, 0)
    ∧ ∃ err, @read_all_ballots _ writer_dl (put_election open3 1 e2) eid = Err err.
Proof.
  intros c.
  destruct (poison_ballot_stops_reading float_text no_float error_text id (Some (addr 9)) open3 eid (election_of c3)
    (addr 66) 5 (ballot_to_tuple float_text ballot) [Byte.x00] ValueError
    (get_run (election_of c3, 0) (submitVote (election_of c3) (addr 66) 5 150 (ballot_to_tuple float_text ballot))).1 0
    open3_reachable) as (e2 & Hv & Hread); [vm_compute; reflexivity..|done|vm_compute; reflexivity|].
  exists e2. split; [exact Hv|]. apply Hread; [apply rtc_refl|].
  intros e' He. change (_election (put_election open3 (eid_to_uint eid) e2) eid = Ok e') in He.
  rewrite election_put in He. apply Ok_inj in He as <-.
  assert (He2 : e2 = (get_run (election_of c3, 0) (submitVote (election_of c3) (addr 66) 5 150
    (with_attestation (ballot_to_tuple float_text ballot) [Byte.x00]))).1) by (change 150 with (ch_time open3) in *; by rewrite Hv).
  rewrite He2. vm_compute. discriminate.
Defined.

(** After the window two keypers vote for the same aggregate. *)
Definition agg : AggregateArtifact := Eval vm_compute in
  mkAggregateArtifact eid (replicate 2 (mkWireCiphertext (replicate 96 Byte.x01) (replicate 96 Byte.x02))) []
    [mkExclusion 0 MALFORMED] 0 0.
Definition agg_sig (sk : Z) : bytes := get_ok [] (sign_aggregate sk eid agg).
Definition closed3 : Chain := Eval vm_compute in at_time 250 c3.
Definition c5 : Chain := Eval vm_compute in get_ok c3 (dl_submit_aggregate closed3 250 eid agg (agg_sig 1)).
Definition c6 : Chain := Eval vm_compute in get_ok c3 (dl_submit_aggregate c5 250 eid agg (agg_sig 2)).
Lemma c6_reachable : chain_reachable c6.
Proof.
  destruct c3_reachable as [admin Hs]. exists admin.
  eapply rtc_r; [eapply rtc_r; [eapply rtc_r; [exact Hs|apply (tx_time c3 250); vm_compute; discriminate]|]|].
  - eapply (step_election closed3 c5 (election_of c5)); [vm_compute; reflexivity..|].
    eapply tx_aggregate_signed with (t := aggregate_to_tuple agg) (sig := agg_sig 1). vm_compute. reflexivity.
  - eapply (step_election c5 c6 (election_of c6)); [vm_compute; reflexivity..|].
    eapply tx_aggregate_signed with (t := aggregate_to_tuple agg) (sig := agg_sig 2). vm_compute. reflexivity.
Qed.

Lemma chain_aggregate_quorum_witness :
  let c := concrete_crypto in
  ∃ e (voters : list bytes) d, _election c6 eid = Ok e ∧ aggregate_digest_of eid agg = Ok d ∧ NoDup voters
    ∧ quorum_of e <= len voters.
Proof.
  intros c.
  destruct (chain_aggregate_quorum float_text no_float error_text id (Some (addr 7)) c6 eid agg c6_reachable)
    as [(e & voters & d & He & Hd & Hn & _ & Hq & _) _]; [vm_compute; reflexivity..|].
  exists e, voters, d. exact (conj He (conj Hd (conj Hn Hq))).
Defined.

(** Cancelling twice is refused on the chain; the reference data layer accepts
    it (see [memory_cancel_twice]). *)
Definition x1 : Chain := Eval vm_compute in get_ok c1 (dl_cancel_election c1 50 eid []).
Lemma chain_cancel_twice :
  dl_cancel_election c1 50 eid [] = Ok x1 ∧ dl_cancel_election x1 60 eid [] = Err ImmutabilityError.
Proof. split; vm_compute; reflexivity. Qed.

Lemma memory_cancel_twice m now now' id sig st : _get m id = Ok st → now < voting_start (st_config st) →
  now' < voting_start (st_config st) → verify_request (admin_key (st_config st)) sig "cancel" id [] = true →
  ∃ m' m'', cancel_election m now id sig = Ok m' ∧ cancel_election m' now' id sig = Ok m''.
Proof.
  intros Hg Hn Hn' Hv. unfold cancel_election. rewrite Hg, bind_Ok, Hv.
  destruct (Z.leb_spec (voting_start (st_config st)) now); [lia|]. eexists _, _. split; [reflexivity|].
  assert (Hg' : _get (put m id (set_cancelled st)) id = Ok (set_cancelled st)).
  { apply get_Ok. cbn. by rewrite dict_get_set, decide_True. }
  rewrite Hg', bind_Ok. cbn [st_config set_cancelled]. rewrite Hv.
  by destruct (Z.leb_spec (voting_start (st_config st)) now'); [lia|].
Qed.
End chain_example.
